(* ===== verification/_CoqProject ===== *)
-Q . S2P
Prelude.v
GoLang.v
MsgTypes.v
Header.v
PacketId.v
TopicList.v
Pow2.v
Puback.v
Disconnect.v
Connack.v
Suback.v
Publish.v
Connect.v
Subscribe.v
Unsubscribe.v
Message.v
Encoding.v
AckQueue.v
LibQueue.v
Session.v
LibSession.v
Buffer.v
BufferSpec.v
BufferSys.v
GoStrings.v
NetConn.v
Framing.v
Connectivity.v
World.v
Service.v
ServiceSpec.v
Server.v
Sample.v
Sendrecv.v
ServerSpec.v
ServerSys.v
Registry.v
Pipe.v
Outgoing.v
Delivery.v
Flow.v
Settle.v
Admission.v
Lifecycle.v
Config.v
Startup.v
WebSocket.v
Proxy.v
Tls.v
Topics.v
TopicsSpec.v
TopicManager.v
LibRpc.v
LibWorld.v
LibService.v
LibServer.v
LibClient.v
LibSample.v
LibRouting.v
LibOnce.v
LibStop.v
LibResume.v
LibSubscribe.v
Tickers.v
