(* ===== verification/Prelude.v ===== *)
(** * The xmqtt broker: a verified model

    xmqtt is an MQTT 3.1.1 broker: devices connect over TCP, TLS or WebSocket, send
    QoS 1 publications, which the broker acknowledges and puts on a channel, and
    receive publications that the broker delivers at QoS 1 and keeps until they are
    acknowledged.  This development models its Go code by executable definitions and
    proves what the parts promise and what the running server does.  The repository
    also has a library, an MQTT client and a server that routes between its
    connections at every QoS; the files named [Lib...] model it.  This file holds
    what all the others share: lengths as integers, list lemmas, the tactics [zl],
    [zlen_facts] and [guard_false] and their hint bases.

    ** Parts and files

    The codec, [utils/surgemq/message].  [MsgTypes] (message.go, connackcode.go),
    [Header] (header.go), [PacketId], [TopicList], and one file per packet:
    [Publish], [Connect], [Connack], [Subscribe], [Suback], [Unsubscribe], [Puback]
    (with pubrec, pubrel, pubcomp, unsuback), [Disconnect] (with pingreq, pingresp);
    [Message] is the interface as a sum of the packets, with the class of the laws
    every packet obeys; [Encoding] the class [Fits] of what a caller of [Len] and
    [Encode] relies on, with an instance per codec.

    Sessions.  [Pow2] and [AckQueue] (sessions/ackqueue.go), [Session]
    (session.go, memprovider.go, sessions.go).

    Streams.  [GoStrings] and [NetConn] model the standard library (strings,
    strconv, net.Conn, bufio, io.ReadFull); [Framing] (service/misc.go, readwrite.go,
    timeoutReader of sendrecv.go) cuts a stream into packets and sends packets;
    [WebSocket] (service/websocket.go) copies between a WebSocket and a connection,
    in the goroutines whose interleavings are [Proxy]; [Tls] (service/tls.go) has the
    listeners of the other front end and its echo handler;
    [Buffer] (service/buffer.go) is the ring buffer between two goroutines, with
    [BufferSpec] and [BufferSys] for its proofs; [Sendrecv] (service/sendrecv.go,
    [processor] of process.go, [stopConnect] of service.go) the goroutines around two
    such buffers, whose interleavings are [Pipe] (receiver and processor on the
    incoming one) and [Outgoing] (writers and sender on the outgoing one).

    The server.  [World] is its state: services, connections, sessions, running
    receivers, timers, pools, the upload channel, the [Server] struct, each struct as
    a record.  [Service] (service/process.go, service.go, pool.go, updateHeartbeat of
    sendrecv.go) are the packet handlers and [publish]; [Server] (service/server.go,
    readwrite.go, biz.go, auth/auth.go) the handshake, the receive loop, the ends of
    a connection, [PushMsg] and [Close]; [Connectivity] (connection.go) and [Tickers]
    (service.go) two small state machines.  [Config] (config/config.go) and [Startup]
    (service/xsfserver.go, listenAndServe, tls.go, util/utils.go) lead from the
    options to the accepting loops.  [ServiceSpec], [ServerSpec] and [ServerSys] hold
    the invariant of the server and its steps, [Registry] an abstract machine for the
    table of services and the proof that the server implements it, [Sample] a small
    concrete run, [Delivery], [Settle], [Admission] and [Lifecycle] the theorems
    about whole turns, [Flow] those about several turns.

    Topics.  [Topics] (topics/memtopics.go), [TopicsSpec], [TopicManager]
    (topics/topics.go).  The broker no longer uses them; the library does.

    The library, [utils/surgemq/surgemq].  [LibQueue] (sessions/ackqueue.go) is the
    queue without pooled buffers, with a map from [AckQueue] to it that commutes with
    the operations; [LibSession] (session.go, memprovider.go, sessions.go) sessions
    that outlive their connection.  [LibWorld] is the state of all services, client or
    server side, and of what they share.  [LibService] (service/process.go,
    service.go, sendrecv.go, keepalive.go) has the packet handlers, the requests of a
    client, start and stop, and a round of each goroutine; [LibServer]
    (service/server.go, auth) the handshake, the take over, [Publish], [Close] and the
    accepting loop; [LibClient] (service/client.go) the five ways to connect; [LibRpc]
    (rpc/auth, rpc/push) the clients of the authentication and push servers.
    [LibRouting], [LibOnce], [LibStop], [LibResume] and [LibSubscribe] hold the
    theorems, [LibSample] a small server and a client to try them on.  Codec, topic
    trees, ring buffer, framing and connectivity state are the code of the broker or a
    copy of it, and their models are shared.

    ** How state and effects are modelled

    Machine integers are [Z] with their wrap-around written out; bytes are [Z] below
    256.  [GoLang] has the monad [outcome]: a value or a run-time panic (index out of
    range, nil dereference, failed assertion, close of a closed channel).  Errors
    are values.  A decoded packet aliases its buffer: [Header] says which fields own
    their bytes and which are windows into the buffer.  What goroutines share by
    pointer is a cell of a map from locations.  A handler is a function of the world
    to an outcome and a world; a panic keeps the changes made before it, and
    [recovered] is the deferred PanicHandler.

    Interleaving.  The ring buffer runs at the granularity of its accesses to shared
    memory, in every interleaving of a producer, a consumer and a closer
    ([BufferSys]), and so do the goroutines around it ([pipe_step], [out_step]), for
    which a packet handler is one step, and those of a WebSocket connection
    ([proxy_step]), for which a round of a copying loop is one.  The queue, the
    connectivity state and the session methods hold their mutex, so each call is a
    step.  The server ([ServerSys.sys_step]) runs one
    turn of one goroutine at a time, in any order: a handshake up to the start of its
    receiver ([SAccept]), the registration that follows it ([SStore], apart because
    the receiver already runs), one packet of one receiver ([SReceive]), one message
    of [PushMsg] ([SPush]), one expired timer ([STimeout]), the peer and the network
    ([SPeer]), the clock ([STime]) and a shutdown ([SClose]).  Races inside a turn are
    below this model.  The library ([LibWorld.world]) is modelled the same way, one
    round of a goroutine or one call at a time; its rings are the queues of bytes that
    [buffer_is_queue] shows them to be, a handler is a function that returns, panics or
    is stuck for ever ([LibWorld.result]), and functions as values (the closures of
    [start], [subscribe] and [unsubscribe], the application's) are data types.

    Parameters.  [sync.Pool] gives any of its items or none ([pick], [wpick],
    [ppick]); [copier.Copy] is [copy]; the timer wheel is the class [TimeWheel] with
    its laws; the capacity that [append] leaves ([sp]), the random session identifier
    ([rnd]), the pick of a group member ([intn]), the registry of session providers
    ([reg]), the key reader of the options, the time wheel's constructor and the
    sockets are arguments.  For the library: what the application's functions return
    ([answer]), what the authentication servers answer ([rpcLogin], [rpcLogout],
    [rpcInit], the calls of [LibRpc]), whether the goroutines of a service all end when
    [stop] has closed its connection and rings ([joined]: one that waits in a ring may
    not, see [close_deadlocks_producer]), url.Parse ([parse]) and the dials.  A
    connection is the segments its peer sends, in the sizes they arrive, and the error
    after the last.  The pick of a group member is one index for one list of members:
    two groups with the same members get the same one.

    ** What is proved

    Codec: every packet that is encoded decodes to itself, on every buffer
    ([publish_roundtrip], [connect_roundtrip], [subscribe_roundtrip], ...); what
    decodes is well formed ([publish_decode_sound], [connect_decode_sound]) and is
    sent on as it came ([message_forward_exact]); after [Len], an encoder writes just
    as many bytes ([encode_writes_len]).

    Queue and sessions: [ackqueue_run_refines] refines the ring to a list of waiting
    messages over any run; [wait_publish_stored], [session_init_ok].

    Streams: [handshake_packet_exact] and [stream_cut_exact] take exactly one packet
    off the stream however it is segmented; [send_data_exact] writes exactly the
    packet; [from_broker_exact]; the ring buffer refines a queue of bytes in every
    interleaving ([buffer_is_queue]), loses no wake-up in the methods that are free
    of the defects below ([buffer_no_lost_wakeup]) and does not panic; the processor
    takes the stream apart as the receive loop does ([processor_cuts_stream]), and
    packets written at the same time go out whole ([writers_do_not_interleave]).

    Topics: subscribers are those of the matching filters ([subscribers_exact]), and
    the table changes at one path ([subscribe_updates_table],
    [unsubscribe_updates_table]).

    Server: the invariant [server_inv] holds in every reachable state
    ([registered_live]); its table refines the abstract registry ([registry_refines])
    and a service that has left it stays away ([gone_stays_gone]); start-up leads to
    the initial state ([init_starts_server]); [accept_loop_serves],
    [handshake_accepted], [publish_received], [push_routed], [puback_received],
    [heartbeat_clamped] follow a connection and a message through, [uploads_in_order]
    a run of publications, [upload_to_delivery] a message from one device to another;
    [eof_cleanup], [shutdown_ends_all] and [receive_loop_ends] end it.

    Library: a publication reaches each subscriber that the tree finds, byte for byte,
    and its publisher is answered ([publish_fans_out]); a message at QoS 2 is
    delivered once however often its packets are repeated ([qos2_exactly_once]); a
    connection that ends gives back what it held, once its goroutines have ended
    ([stop_releases]); a client gets its
    session back ([getSession_spec]) and is subscribed again
    ([start_restores_subscriptions]); a SUBACK completes a subscription
    ([suback_completes]); servers are taken in turn ([getClient_round_robin]).

    Defects of the code are theorems of the same form: [error_leaves_connection],
    [takeover_unregistered], [refused_left_open], [oversized_stays_registered],
    [short_topic_stops_pushing], [truncated_packet_padded],
    [provider_delete_hits_newer], [read_wait_misses_wakeup],
    [close_deadlocks_producer], [proxy_leaks_goroutine],
    [simultaneous_connects_orphan], [read_message_swallows], [resumed_will_lost],
    [group_twice_stays], [stop_waits] and others.

    ** Fuel

    Loops that are not structural take fuel; a theorem shows that it is enough.
    Variable-length integers take at most ten bytes; [conn_fuel] is the bytes and
    segments still to come and one, and every read takes one of them; [peek_loop] has
    a round per byte asked for; [peek_header] five rounds, one per header byte; topic
    functions one per byte of the topic; [receive_loop] one per byte of the stream
    and one ([receive_loop_ends]); a copying loop one per message or byte and one.
    [fill] tries a hundred times, as bufio does.  [acked_loop] has a round per entry of
    the queue, [health_check] one per client, [hex_loop] one per digit of an int64.

    ** Not modelled

    Log lines (but for the identifiers that [stop] of the library makes for them), and
    String methods that only print. [wgStarted] and [wgStopped] but for the wait of
    [stopConnect]: nothing in the broker starts the goroutines of [Sendrecv], so
    nothing adds to them; in the library [start] waits for them, and [stop] waits for
    ever when they do not all end ([joined], [stop_waits]); the order in which the
    goroutines of one connection end is not modelled. The contents of certificates,
    the registration of http handlers, the profiler, the command line: input and
    output with no state of the broker. Wrappers of external clients under
    utils/IoTCommon and generated protocol buffers: the server does not call them. The
    files of the library that repeat a modelled file (buffer.go, misc.go,
    connection.go, memtopics.go, topics.go) a second time; the [Register] of its
    topics.go only warns when a name is taken, which is why [LibClient.register_tree]
    replaces the entry. Test clients. *)
From stdpp Require Import base list strings gmap.
From Stdlib Require Import ZArith Lia.
#[global] Open Scope Z_scope.

(** ** Lengths as Go [int] values

    Go's [len] is an [int]; every length, offset and byte of the development is
    a [Z], so that the subtractions the code performs can go negative where the
    code lets them. *)
Definition zlen {A} (l : list A) : Z := Z.of_nat (length l).

Create HintDb zlen.
Create Rewrite HintDb zlen.

Lemma zlen_nil {A} : zlen (@nil A) = 0.
Proof. reflexivity. Qed.

Lemma zlen_cons {A} (x : A) l : zlen (x :: l) = 1 + zlen l.
Proof. unfold zlen. simpl length. lia. Qed.

Lemma zlen_app {A} (l k : list A) : zlen (l ++ k) = zlen l + zlen k.
Proof. unfold zlen. rewrite length_app. lia. Qed.

Lemma zlen_nonneg {A} (l : list A) : 0 <= zlen l.
Proof. unfold zlen. lia. Qed.

Lemma zlen_take {A} n (l : list A) : zlen (take n l) = Z.min (Z.of_nat n) (zlen l).
Proof. unfold zlen. rewrite length_take. lia. Qed.

Lemma zlen_drop {A} n (l : list A) : zlen (drop n l) = Z.max 0 (zlen l - Z.of_nat n).
Proof. unfold zlen. rewrite length_drop. lia. Qed.

Lemma zlen_replicate {A} n (x : A) : zlen (replicate n x) = Z.of_nat n.
Proof. unfold zlen. by rewrite length_replicate. Qed.

Lemma zlen_insert {A} i (x : A) l : zlen (<[i:=x]> l) = zlen l.
Proof. unfold zlen. by rewrite length_insert. Qed.

Lemma zlen_map {A B} (f : A -> B) l : zlen (map f l) = zlen l.
Proof. unfold zlen. by rewrite length_map. Qed.

Lemma zlen_of_length {A} (l : list A) : Z.of_nat (length l) = zlen l.
Proof. reflexivity. Qed.

Lemma to_nat_zlen {A} (l : list A) : Z.to_nat (zlen l) = length l.
Proof. unfold zlen. lia. Qed.

Lemma length_to_nat {A} (l : list A) : length l = Z.to_nat (zlen l).
Proof. unfold zlen. lia. Qed.

#[export] Hint Rewrite @zlen_nil @zlen_cons @zlen_app @zlen_take @zlen_drop
  @zlen_replicate @zlen_insert @zlen_map @zlen_of_length : zlen.

Lemma zlen_zero_nil {A} (l : list A) : zlen l = 0 -> l = [].
Proof. unfold zlen. destruct l; [done|simpl; lia]. Qed.

(** Length arithmetic: normalise every [zlen], remember that lengths are
    non-negative, and call [lia]. *)
Ltac zlen_facts :=
  repeat match goal with
  | |- context [zlen ?l] =>
      lazymatch goal with _ : 0 <= zlen l |- _ => fail | _ => pose proof (zlen_nonneg l) end
  | _ : context [zlen ?l] |- _ =>
      lazymatch goal with _ : 0 <= zlen l |- _ => fail | _ => pose proof (zlen_nonneg l) end
  end.

Ltac zl :=
  autorewrite with zlen in *;
  try rewrite !length_to_nat in *;
  autorewrite with zlen in *;
  zlen_facts; lia.

(** Decide the guard of the first conditional of the goal by arithmetic. *)
Ltac guard_true :=
  lazymatch goal with
  | |- context [if ?b then _ else _] =>
      let H := fresh in assert (b = true) as H by zl; rewrite H; clear H; cbv iota
  end.

Ltac guard_false :=
  lazymatch goal with
  | |- context [if ?b then _ else _] =>
      let H := fresh in assert (b = false) as H by zl; rewrite H; clear H; cbv iota
  end.

(** Case analysis on the guard of a conditional or the scrutinee of a match in
    a hypothesis, keeping the equation. *)
Ltac case_in H :=
  match type of H with
  | context [if ?b then _ else _] => let E := fresh "E" in destruct b eqn:E
  | context [match ?x with _ => _ end] => let E := fresh "E" in destruct x eqn:E
  end.

(** ** Splitting lists at Go offsets *)

Lemma drop_zlen_app {A} (l k : list A) n :
  n = zlen l -> drop (Z.to_nat n) (l ++ k) = k.
Proof. intros ->. rewrite to_nat_zlen. by rewrite drop_app_length. Qed.

Lemma take_zlen_app {A} (l k : list A) n :
  n = zlen l -> take (Z.to_nat n) (l ++ k) = l.
Proof. intros ->. rewrite to_nat_zlen. by rewrite take_app_length. Qed.

Lemma take_all_zlen {A} (l : list A) n : zlen l <= n -> take (Z.to_nat n) l = l.
Proof. intros H. apply take_ge. zl. Qed.

Lemma drop_all_zlen {A} (l : list A) n : zlen l <= n -> drop (Z.to_nat n) l = [].
Proof. intros H. apply drop_ge. zl. Qed.

Lemma split_at_z {A} (l : list A) n :
  0 <= n <= zlen l -> exists a b, l = a ++ b /\ zlen a = n.
Proof.
  intros H. exists (take (Z.to_nat n) l), (drop (Z.to_nat n) l).
  split; [by rewrite take_drop|]. zl.
Qed.

(** ** Bytes *)

Definition is_byte (b : Z) : Prop := 0 <= b < 256.
Abbreviation bytes := (list Z).
Abbreviation bytes_ok := (Forall is_byte).

#[export] Instance is_byte_dec b : Decision (is_byte b).
Proof. unfold is_byte. apply _. Defined.

Lemma byte_testbit_high b i : is_byte b -> 8 <= i -> Z.testbit b i = false.
Proof.
  intros [Hb1 Hb2] Hi.
  destruct (Z.eq_dec b 0) as [->|Hnz]; [apply Z.bits_0|].
  apply Z.bits_above_log2; [lia|].
  apply Z.log2_lt_pow2; [lia|].
  apply Z.lt_le_trans with (2 ^ 8); [lia|]. apply Z.pow_le_mono_r; lia.
Qed.

(** A proposition about one byte holds as soon as it holds of the 256 values. *)
Definition all_bytes : list Z := map Z.of_nat (seq 0 256).

Lemma all_bytes_spec b : is_byte b -> b ∈ all_bytes.
Proof.
  intros [H1 H2]. unfold all_bytes. apply list_elem_of_fmap.
  exists (Z.to_nat b). split; [lia|]. apply elem_of_seq. lia.
Qed.

Lemma byte_forall (P : Z -> bool) :
  forallb P all_bytes = true -> forall b, is_byte b -> P b = true.
Proof.
  intros H b Hb. rewrite forallb_forall in H. apply H.
  apply list_elem_of_In, all_bytes_spec, Hb.
Qed.

