(* ===== verification/GoLang.v ===== *)
(** * GoLang: the fragment of Go and its standard library the code uses

    Machine integers with their wrap-around, run-time panics as a monad, error
    values, byte slices with a length and a capacity, writes into a destination
    slice, and the [encoding/binary] functions (big-endian 16-bit integers and
    variable-length integers) on which the MQTT codec is built. *)
From stdpp Require Import base list strings.
From Stdlib Require Import ZArith Lia Ascii.
From S2P Require Import Prelude.

(** ** Machine integers: conversions truncate to the width *)

Definition u8 (z : Z) : Z := z mod 2 ^ 8.
Definition u16 (z : Z) : Z := z mod 2 ^ 16.
Definition u64 (z : Z) : Z := z mod 2 ^ 64.
Definition i32 (z : Z) : Z := (z + 2 ^ 31) mod 2 ^ 32 - 2 ^ 31.
Definition i64 (z : Z) : Z := (z + 2 ^ 63) mod 2 ^ 64 - 2 ^ 63.

Lemma i32_small z : - 2 ^ 31 <= z < 2 ^ 31 -> i32 z = z.
Proof. intros H. unfold i32. rewrite Z.mod_small; lia. Qed.

Lemma i64_small z : - 2 ^ 63 <= z < 2 ^ 63 -> i64 z = z.
Proof. intros H. unfold i64. rewrite Z.mod_small; lia. Qed.

Lemma u16_small z : 0 <= z < 2 ^ 16 -> u16 z = z.
Proof. intros H. unfold u16. by rewrite Z.mod_small. Qed.

Lemma u8_byte z : is_byte (u8 z).
Proof. unfold is_byte, u8. apply Z.mod_pos_bound. lia. Qed.

Lemma u8_small z : is_byte z -> u8 z = z.
Proof. intros H. unfold u8. by rewrite Z.mod_small. Qed.

(** ** Panics

    A Go expression either yields a value or panics; [let!] sequences. *)
Inductive panic : Type :=
| SliceBounds
| IndexRange
| NilDeref
| BadAssertion
| CustomPanic (msg : string).

Inductive outcome (A : Type) : Type :=
| Ret (a : A)
| Panic (p : panic).
Arguments Ret {A} a.
Arguments Panic {A} p.

Definition bindO {A B} (m : outcome A) (k : A -> outcome B) : outcome B :=
  match m with Ret a => k a | Panic p => Panic p end.

Declare Scope go_scope.
Delimit Scope go_scope with go.
Notation "'let!' x := m 'in' k" := (bindO m (fun x => k))
  (at level 10, x pattern, m at level 100, k at level 200) : go_scope.
#[global] Open Scope go_scope.

Lemma bindO_ret {A B} (a : A) (k : A -> outcome B) : bindO (Ret a) k = k a.
Proof. reflexivity. Qed.

Lemma bindO_assoc {A B C} (m : outcome A) (k : A -> outcome B) (h : B -> outcome C) :
  bindO (bindO m k) h = bindO m (fun a => bindO (k a) h).
Proof. by destruct m. Qed.

Lemma bindO_inv {A B} (m : outcome A) (k : A -> outcome B) b :
  bindO m k = Ret b -> exists a, m = Ret a /\ k a = Ret b.
Proof. destruct m; simpl; [eauto|done]. Qed.

Definition returns {A} (m : outcome A) : Prop := exists a, m = Ret a.
Definition panics {A} (m : outcome A) : Prop := exists p, m = Panic p.

(** Invert a hypothesis [bindO m k = Ret b]. *)
Tactic Notation "inv_bind" hyp(H) :=
  let a := fresh "v" in let E := fresh "Hb" in
  apply bindO_inv in H; destruct H as (a & E & H).

Tactic Notation "inv_bind" hyp(H) "as" ident(a) ident(E) :=
  apply bindO_inv in H; destruct H as (a & E & H).

(** ** Errors *)

Inductive arg : Type := AInt (z : Z) | AStr (b : list Z).

Inductive error : Type :=
| Errorf (fmt : string) (args : list arg)  (* fmt.Errorf *)
| ErrorsNew (msg : string)                 (* errors.New sentinels, io.EOF *)
| ErrCode (c : Z).                         (* a message.ConnackCode used as an error *)

#[export] Instance arg_eq_dec : EqDecision arg.
Proof. solve_decision. Defined.
#[export] Instance error_eq_dec : EqDecision error.
Proof. solve_decision. Defined.

Definition EOF : error := ErrorsNew "EOF".

(** The bytes of a string literal. *)
Definition str (s : string) : list Z :=
  map (fun a => Z.of_N (N_of_ascii a)) (String.list_ascii_of_string s).

Lemma str_bytes_ok s : bytes_ok (str s).
Proof.
  unfold str. apply Forall_fmap, Forall_true. intros a. unfold is_byte; simpl.
  pose proof (N_ascii_bounded a). lia.
Qed.

(** ** Byte slices

    A slice shows [vis] and may be re-sliced over [spare], the bytes between its
    length and its capacity. *)
Record slice : Type := Slice { vis : list Z; spare : list Z }.

Definition backing (s : slice) : list Z := vis s ++ spare s.
Definition len (s : slice) : Z := zlen (vis s).
Definition cap (s : slice) : Z := zlen (backing s).
Definition mkslice (l : list Z) : slice := Slice l [].

(** [s[a:]] *)
Definition slice_from (s : slice) (a : Z) : outcome slice :=
  if (0 <=? a) && (a <=? len s)
  then Ret (Slice (drop (Z.to_nat a) (vis s)) (spare s))
  else Panic SliceBounds.

(** [s[a:b]], bounded by the capacity and not by the length *)
Definition slice_range (s : slice) (a b : Z) : outcome slice :=
  if (0 <=? a) && (a <=? b) && (b <=? cap s)
  then Ret (Slice (take (Z.to_nat (b - a)) (drop (Z.to_nat a) (backing s)))
                  (drop (Z.to_nat b) (backing s)))
  else Panic SliceBounds.

(** [s[i]] *)
Definition index {A} (l : list A) (i : Z) : outcome A :=
  if (0 <=? i) && (i <? zlen l)
  then match l !! Z.to_nat i with Some b => Ret b | None => Panic IndexRange end
  else Panic IndexRange.

Lemma slice_from_app a b sp n :
  n = zlen a -> slice_from (Slice (a ++ b) sp) n = Ret (Slice b sp).
Proof.
  intros Hn. unfold slice_from, len. simpl vis. simpl spare.
  guard_true. by rewrite drop_zlen_app.
Qed.

Lemma slice_range_app a b c sp n m :
  n = zlen a -> m = zlen a + zlen b ->
  slice_range (Slice (a ++ b ++ c) sp) n m = Ret (Slice b (c ++ sp)).
Proof.
  intros Hn Hm. unfold slice_range, cap, backing. simpl vis. simpl spare.
  guard_true.
  rewrite <- !app_assoc, (drop_zlen_app a) by done.
  rewrite take_zlen_app by lia.
  replace (a ++ b ++ c ++ sp) with ((a ++ b) ++ c ++ sp) by (by rewrite <- app_assoc).
  rewrite drop_zlen_app; [done|zl].
Qed.

Lemma slice_from_at s x y n :
  vis s = x ++ y -> n = zlen x -> slice_from s n = Ret (Slice y (spare s)).
Proof. destruct s as [v sp]. cbn [vis spare]. intros -> Hn. by apply slice_from_app. Qed.

Lemma slice_range_at s x y z n m :
  vis s = x ++ y ++ z -> n = zlen x -> m = n + zlen y ->
  slice_range s n m = Ret (Slice y (z ++ spare s)).
Proof.
  destruct s as [v sp]. cbn [vis spare]. intros -> Hn Hm. apply slice_range_app; lia.
Qed.

Lemma slice_from_0 s : slice_from s 0 = Ret s.
Proof. destruct s as [v sp]. exact (slice_from_app [] v sp 0 eq_refl). Qed.

Lemma index_app {A} (a : list A) x b i : i = zlen a -> index (a ++ x :: b) i = Ret x.
Proof.
  intros Hi. unfold index. guard_true. subst i.
  rewrite to_nat_zlen, lookup_app_r by lia.
  by replace (length a - length a)%nat with 0%nat by lia.
Qed.

Lemma index_at {A} (l : list A) a x b i : l = a ++ x :: b -> i = zlen a -> index l i = Ret x.
Proof. intros -> Hi. by apply index_app. Qed.

Lemma index_0 {A} (x : A) l : index (x :: l) 0 = Ret x.
Proof. exact (index_app [] x l 0 eq_refl). Qed.

Lemma index_1 {A} (x y : A) l : index (x :: y :: l) 1 = Ret y.
Proof. exact (index_app [x] y l 1 eq_refl). Qed.

Lemma slice_from_vis s a s' : slice_from s a = Ret s' ->
  0 <= a <= len s /\ vis s' = drop (Z.to_nat a) (vis s) /\ spare s' = spare s.
Proof.
  unfold slice_from. destruct (_ && _) eqn:E; [|done]. intros [= <-]. simpl. split; [lia|done].
Qed.

Lemma slice_range_len s a b s' : slice_range s a b = Ret s' ->
  0 <= a <= b /\ b <= cap s /\ len s' = b - a.
Proof.
  unfold slice_range. destruct (_ && _) eqn:E; [|done]. intros [= <-].
  unfold len, cap in *. simpl. autorewrite with zlen. lia.
Qed.

(** ** Writing into a destination slice

    [put dst off bs] is a run of index assignments [dst[off] = ...]; it panics
    when one of them is out of range.  [gocopy dst off b] is
    [copy(dst[off:], b)]: it copies what fits and returns the count. *)
Definition put {A} (dst : list A) (off : Z) (bs : list A) : outcome (list A) :=
  if (0 <=? off) && (off + zlen bs <=? zlen dst)
  then Ret (take (Z.to_nat off) dst ++ bs ++ drop (Z.to_nat (off + zlen bs)) dst)
  else Panic IndexRange.

Definition gocopy {A} (dst : list A) (off : Z) (b : list A) : outcome (list A * Z) :=
  if (0 <=? off) && (off <=? zlen dst)
  then let n := Z.min (zlen dst - off) (zlen b) in
       Ret (take (Z.to_nat off) dst ++ take (Z.to_nat n) b
              ++ drop (Z.to_nat (off + n)) dst, n)
  else Panic SliceBounds.

Lemma put_app {A} (w r bs : list A) n :
  n = zlen w -> zlen bs <= zlen r ->
  put (w ++ r) n bs = Ret (w ++ bs ++ drop (length bs) r).
Proof.
  intros -> H. unfold put. guard_true.
  rewrite take_zlen_app by done. do 3 f_equal.
  rewrite drop_app_ge by zl. f_equal. zl.
Qed.

Lemma gocopy_app {A} (w r b : list A) n :
  n = zlen w -> zlen b <= zlen r ->
  gocopy (w ++ r) n b = Ret (w ++ b ++ drop (length b) r, zlen b).
Proof.
  intros -> H. unfold gocopy. guard_true. cbv zeta.
  replace (Z.min (zlen (w ++ r) - zlen w) (zlen b)) with (zlen b) by zl.
  rewrite take_zlen_app by done. rewrite take_all_zlen by lia.
  do 4 f_equal. rewrite drop_app_ge by zl. f_equal. zl.
Qed.

Lemma put_zlen {A} (dst : list A) off bs dst' : put dst off bs = Ret dst' -> zlen dst' = zlen dst.
Proof. unfold put. destruct (_ && _) eqn:E; [|done]. intros [= <-]. zl. Qed.

Lemma gocopy_zlen {A} (dst : list A) off b dst' n : gocopy dst off b = Ret (dst', n) -> zlen dst' = zlen dst.
Proof. unfold gocopy. destruct (_ && _) eqn:E; [|done]. intros [= <- <-]. zl. Qed.

(** indexing and single assignments as list lookup and insert *)
Lemma index_lookup {A} (l : list A) i x :
  0 <= i -> l !! Z.to_nat i = Some x -> index l i = Ret x.
Proof.
  intros Hi H. unfold index. rewrite H. apply lookup_lt_Some in H.
  assert (E : (0 <=? i) && (i <? zlen l) = true) by (unfold zlen; lia). by rewrite E.
Qed.

Lemma index_inv {A} (l : list A) i x :
  index l i = Ret x -> 0 <= i < zlen l /\ l !! Z.to_nat i = Some x.
Proof.
  unfold index. destruct (_ && _) eqn:E; [|done]. destruct (l !! _) eqn:El; [|done].
  intros [= <-]. split; [lia|done].
Qed.

Lemma put_insert {A} (l : list A) i x :
  0 <= i < zlen l -> put l i [x] = Ret (<[Z.to_nat i:=x]> l).
Proof.
  intros Hi. unfold put. change (zlen [x]) with 1. guard_true. f_equal.
  rewrite insert_take_drop by (unfold zlen in Hi; lia). do 3 f_equal. lia.
Qed.

(** [l[a:b]] of a slice whose capacity is its length *)
Definition subslice {A} (l : list A) (a b : Z) : outcome (list A) :=
  if (0 <=? a) && (a <=? b) && (b <=? zlen l)
  then Ret (take (Z.to_nat (b - a)) (drop (Z.to_nat a) l))
  else Panic SliceBounds.

Lemma subslice_app {A} (x y z : list A) n m :
  n = zlen x -> m = zlen x + zlen y -> subslice (x ++ y ++ z) n m = Ret y.
Proof.
  intros -> ->. unfold subslice. guard_true. rewrite drop_zlen_app by done.
  rewrite take_zlen_app; [done|lia].
Qed.

(** A destination whose first bytes have been overwritten with [w]. *)
Definition filled {A} (w dst : list A) : list A := w ++ drop (length w) dst.

Lemma filled_nil {A} (dst : list A) : filled [] dst = dst.
Proof. reflexivity. Qed.

Lemma filled_all {A} (w dst : list A) : zlen dst = zlen w -> filled w dst = w.
Proof. intros H. unfold filled. rewrite drop_ge, app_nil_r by zl. done. Qed.

Lemma zlen_filled {A} (w dst : list A) : zlen w <= zlen dst -> zlen (filled w dst) = zlen dst.
Proof. intros H. unfold filled. zl. Qed.

Lemma put_filled {A} (w dst bs : list A) n :
  n = zlen w -> zlen (w ++ bs) <= zlen dst ->
  put (filled w dst) n bs = Ret (filled (w ++ bs) dst).
Proof.
  intros -> H. unfold filled. rewrite put_app by zl. f_equal.
  rewrite <- app_assoc, drop_drop, length_app. done.
Qed.

Lemma gocopy_filled {A} (w dst bs : list A) n :
  n = zlen w -> zlen (w ++ bs) <= zlen dst ->
  gocopy (filled w dst) n bs = Ret (filled (w ++ bs) dst, zlen bs).
Proof.
  intros -> H. unfold filled. rewrite gocopy_app by zl. do 2 f_equal.
  rewrite <- app_assoc, drop_drop, length_app. done.
Qed.

(** ** encoding/binary: BigEndian *)

(** [binary.BigEndian.Uint16(b)] *)
Definition BigEndian_Uint16 (b : list Z) : outcome Z :=
  let! lo := index b 1 in
  let! hi := index b 0 in
  Ret (Z.lor lo (Z.shiftl hi 8)).

(** the two bytes [binary.BigEndian.PutUint16] stores *)
Definition be16 (v : Z) : list Z := [u8 (Z.shiftr v 8); u8 v].

Lemma be16_ok v : bytes_ok (be16 v).
Proof. repeat constructor; apply u8_byte. Qed.

Lemma zlen_be16 v : zlen (be16 v) = 2.
Proof. reflexivity. Qed.
#[export] Hint Rewrite zlen_be16 : zlen.

Lemma lor_shift8 lo hi : is_byte lo -> 0 <= hi -> Z.lor lo (Z.shiftl hi 8) = lo + 256 * hi.
Proof.
  intros Hlo Hhi. rewrite Z.shiftl_mul_pow2 by lia.
  change (2 ^ 8) with 256.
  rewrite <- Z.lxor_lor.
  - rewrite <- Z.add_nocarry_lxor; [lia|].
    apply Z.bits_inj'. intros i Hi. rewrite Z.land_spec, Z.bits_0.
    destruct (Z_lt_dec i 8).
    + change (hi * 256) with (hi * 2 ^ 8). rewrite Z.mul_pow2_bits_low by lia. apply andb_false_r.
    + by rewrite byte_testbit_high by (done || lia).
  - apply Z.bits_inj'. intros i Hi. rewrite Z.land_spec, Z.bits_0.
    destruct (Z_lt_dec i 8).
    + change (hi * 256) with (hi * 2 ^ 8). rewrite Z.mul_pow2_bits_low by lia. apply andb_false_r.
    + by rewrite byte_testbit_high by (done || lia).
Qed.

Lemma BigEndian_roundtrip v rest :
  0 <= v < 2 ^ 16 -> BigEndian_Uint16 (be16 v ++ rest) = Ret v.
Proof.
  intros Hv. unfold BigEndian_Uint16, be16. simpl app.
  rewrite index_1, index_0. simpl bindO. f_equal.
  assert (Hs : 0 <= Z.shiftr v 8) by (apply Z.shiftr_nonneg; lia).
  rewrite lor_shift8; [|apply u8_byte|unfold u8; apply Z.mod_pos_bound; lia].
  rewrite Z.shiftr_div_pow2 by lia. unfold u8. change (2 ^ 8) with 256 in *. change (2 ^ 16) with 65536 in *.
  rewrite (Z.mod_small (v / 256)) by (split; [apply Z.div_pos; lia|apply Z.div_lt_upper_bound; lia]).
  pose proof (Z.div_mod v 256). lia.
Qed.

Lemma BigEndian_two hi lo rest :
  is_byte hi -> is_byte lo -> BigEndian_Uint16 (hi :: lo :: rest) = Ret (lo + 256 * hi).
Proof.
  intros Hh Hl. unfold BigEndian_Uint16.
  rewrite index_1, index_0. simpl bindO. rewrite lor_shift8; [done|done|]. destruct Hh; lia.
Qed.

(** ** encoding/binary: variable-length unsigned integers *)

(** The bytes [binary.PutUvarint] stores for a [uint64]; ten suffice. *)
Fixpoint uvarint_bytes (fuel : nat) (x : Z) : list Z :=
  match fuel with
  | O => [u8 x]
  | S fuel =>
      if 128 <=? x then Z.lor (u8 x) 128 :: uvarint_bytes fuel (Z.shiftr x 7)
      else [u8 x]
  end.

Definition PutUvarint (dst : list Z) (off : Z) (x : Z) : outcome (list Z * Z) :=
  let b := uvarint_bytes 10 x in
  let! dst := put dst off b in Ret (dst, zlen b).

(** [binary.Uvarint]: the value and the number of bytes read, 0 when the buffer
    is too small and a negative number when the value overflows 64 bits *)
Fixpoint Uvarint_loop (i : Z) (x s : Z) (buf : list Z) : Z * Z :=
  match buf with
  | [] => (0, 0)
  | b :: buf =>
      if i =? 10 then (0, - (i + 1))
      else if b <? 128 then
        if (i =? 9) && (1 <? b) then (0, - (i + 1))
        else (Z.lor x (u64 (Z.shiftl b s)), i + 1)
      else Uvarint_loop (i + 1) (Z.lor x (u64 (Z.shiftl (Z.land b 127) s))) (s + 7) buf
  end.

Definition Uvarint (buf : list Z) : Z * Z := Uvarint_loop 0 0 0 buf.

Lemma uvarint_head x : 0 <= x ->
  let b := Z.lor (u8 x) 128 in
  128 <= b < 256 /\ Z.land b 127 = x mod 128.
Proof.
  intros Hx b.
  assert (Hb : b = 128 + x mod 128).
  { unfold b, u8. apply Z.bits_inj'. intros i Hi.
    replace (128 + x mod 128) with (Z.lor (x mod 2 ^ 7) (2 ^ 7)).
    - rewrite !Z.lor_spec. change 128 with (2 ^ 7).
      destruct (Z.eq_dec i 7) as [->|Hne]; [by rewrite Z.pow2_bits_true, !orb_true_r by lia|].
      rewrite Z.pow2_bits_false by lia. rewrite !orb_false_r.
      destruct (Z_lt_dec i 7).
      + by rewrite !Z.mod_pow2_bits_low by lia.
      + by rewrite !Z.mod_pow2_bits_high by lia.
    - rewrite <- Z.lxor_lor, <- Z.add_nocarry_lxor; change (2 ^ 7) with 128; [lia| |].
      all: apply Z.bits_inj'; intros j Hj; rewrite Z.land_spec, Z.bits_0.
      all: change 128 with (2 ^ 7); destruct (Z.eq_dec j 7) as [->|Hne];
        [by rewrite Z.mod_pow2_bits_high by lia|by rewrite Z.pow2_bits_false, andb_false_r by lia]. }
  pose proof (Z.mod_pos_bound x 128). split; [lia|].
  rewrite Hb. change 127 with (Z.ones 7). rewrite Z.land_ones by lia. change (2 ^ 7) with 128.
  rewrite Z.add_mod by lia. rewrite Z.mod_same by lia. rewrite Z.add_0_l, !Z.mod_mod by lia. done.
Qed.

Lemma shiftl_bound b s n : 0 <= b < 2 ^ n -> 0 <= s -> 0 <= n -> 0 <= Z.shiftl b s < 2 ^ (n + s).
Proof.
  intros Hb Hs Hn. rewrite Z.shiftl_mul_pow2 by lia. rewrite Z.pow_add_r by lia.
  assert (0 < 2 ^ s) by (apply Z.pow_pos_nonneg; lia). nia.
Qed.

Lemma u64_shift b s : 0 <= b < 128 -> 0 <= s <= 57 -> u64 (Z.shiftl b s) = Z.shiftl b s.
Proof.
  intros Hb Hs. unfold u64. apply Z.mod_small.
  pose proof (shiftl_bound b s 7 Hb) as H. assert (2 ^ (7 + s) <= 2 ^ 64) by (apply Z.pow_le_mono_r; lia). lia.
Qed.

Lemma split7_bits acc x s : 0 <= x -> 0 <= s ->
  Z.lor (Z.lor acc (Z.shiftl (x mod 128) s)) (Z.shiftl (Z.shiftr x 7) (s + 7))
  = Z.lor acc (Z.shiftl x s).
Proof.
  intros Hx Hs. rewrite <- Z.lor_assoc. f_equal.
  replace (s + 7) with (7 + s) by lia. rewrite <- Z.shiftl_shiftl by lia.
  rewrite <- Z.shiftl_lor. f_equal. change 128 with (2 ^ 7).
  apply Z.bits_inj'. intros i Hi. rewrite Z.lor_spec.
  destruct (Z_lt_dec i 7).
  - rewrite Z.mod_pow2_bits_low, Z.shiftl_spec_low, orb_false_r by lia. done.
  - rewrite Z.mod_pow2_bits_high, Z.shiftl_spec, Z.shiftr_spec by lia. simpl. f_equal. lia.
Qed.

Lemma Uvarint_loop_bytes fuel : forall x i acc rest,
  0 <= x < 2 ^ (7 * (Z.of_nat fuel + 1)) -> 0 <= i -> i + Z.of_nat fuel <= 8 ->
  Uvarint_loop i acc (7 * i) (uvarint_bytes fuel x ++ rest)
  = (Z.lor acc (Z.shiftl x (7 * i)), i + zlen (uvarint_bytes fuel x)).
Proof.
  induction fuel as [|fuel IH]; intros x i acc rest Hx Hi Hif.
  - assert (Hx8 : 0 <= x < 128) by (change (2 ^ (7 * (Z.of_nat 0 + 1))) with 128 in Hx; lia).
    simpl uvarint_bytes. rewrite u8_small by (unfold is_byte; lia). simpl app. simpl Uvarint_loop.
    guard_false. guard_true. guard_false. rewrite u64_shift by lia. f_equal; zl.
  - simpl uvarint_bytes. destruct (128 <=? x) eqn:Ex.
    + destruct (uvarint_head x) as [Hb1 Hb2]; [lia|].
      simpl app. simpl Uvarint_loop. guard_false. guard_false.
      rewrite Hb2. pose proof (Z.mod_pos_bound x 128).
      rewrite u64_shift by lia. replace (7 * i + 7) with (7 * (i + 1)) by lia.
      rewrite IH.
      * replace (7 * (i + 1)) with (7 * i + 7) by lia. rewrite split7_bits by lia. f_equal. zl.
      * rewrite Z.shiftr_div_pow2 by lia. split; [apply Z.div_pos; lia|].
        apply Z.div_lt_upper_bound; [lia|]. rewrite <- Z.pow_add_r by lia.
        replace (7 + 7 * (Z.of_nat fuel + 1)) with (7 * (Z.of_nat (S fuel) + 1)) by lia. lia.
      * lia.
      * lia.
    + rewrite u8_small by (unfold is_byte; lia). simpl app. simpl Uvarint_loop.
      guard_false. guard_true. guard_false. rewrite u64_shift by lia. f_equal; zl.
Qed.

Lemma uvarint_bytes_fuel f : forall f' x,
  (f <= f')%nat -> 0 <= x < 2 ^ (7 * (Z.of_nat f + 1)) -> uvarint_bytes f' x = uvarint_bytes f x.
Proof.
  induction f as [|f IH]; intros f' x Hf Hx.
  - change (2 ^ (7 * (Z.of_nat 0 + 1))) with 128 in Hx.
    destruct f'; simpl; [done|]. by guard_false.
  - destruct f' as [|f']; [lia|]. simpl. destruct (128 <=? x) eqn:E; [|done].
    f_equal. apply IH; [lia|].
    rewrite Z.shiftr_div_pow2 by lia. split; [apply Z.div_pos; lia|].
    apply Z.div_lt_upper_bound; [lia|]. rewrite <- Z.pow_add_r by lia.
    replace (7 + 7 * (Z.of_nat f + 1)) with (7 * (Z.of_nat (S f) + 1)) by lia. lia.
Qed.

(** Round trip of the variable-length encoding, at the widths the codec uses. *)
Lemma Uvarint_roundtrip x rest :
  0 <= x < 2 ^ 56 -> Uvarint (uvarint_bytes 10 x ++ rest) = (x, zlen (uvarint_bytes 10 x)).
Proof.
  intros Hx. assert (E : uvarint_bytes 10 x = uvarint_bytes 7 x)
    by (apply uvarint_bytes_fuel; [lia|done]).
  rewrite E. unfold Uvarint.
  pose proof (Uvarint_loop_bytes 7 x 0 0 rest) as H. rewrite Z.mul_0_r in H.
  rewrite H by (done || lia). by rewrite Z.lor_0_l, Z.shiftl_0_r.
Qed.

Lemma uvarint_bytes_ok f : forall x, bytes_ok (uvarint_bytes f x).
Proof.
  induction f as [|f IH]; intros x; simpl; [repeat constructor; apply u8_byte|].
  destruct (128 <=? x) eqn:E; [|repeat constructor; apply u8_byte].
  constructor; [|apply IH]. destruct (uvarint_head x) as [Hb _]; [lia|]. unfold is_byte. lia.
Qed.

(** The 32-bit and 64-bit bounds of the result of [Uvarint]. *)
Lemma Uvarint_loop_count i x s buf v m :
  0 <= i -> Uvarint_loop i x s buf = (v, m) -> m <= i + zlen buf.
Proof.
  revert i x s. induction buf as [|b buf IH]; intros i x s Hi; simpl.
  - intros [= <- <-]. zl.
  - destruct (i =? 10); [intros [= <- <-]; zl|].
    destruct (b <? 128).
    + destruct (_ && _); intros [= <- <-]; zl.
    + intros H. apply IH in H; zl.
Qed.

Lemma Uvarint_count buf v m : Uvarint buf = (v, m) -> m <= zlen buf.
Proof. intros H. apply (Uvarint_loop_count 0) in H; lia. Qed.

(** The byte count of [Uvarint] is never in between: it is not negative or it
    reports an overflow after ten bytes. *)
Lemma Uvarint_m_cases buf v m : Uvarint buf = (v, m) -> 0 <= m <= 10 \/ m <= -10.
Proof.
  unfold Uvarint. assert (H : forall i x s, 0 <= i <= 10 -> Uvarint_loop i x s buf = (v, m) ->
    0 <= m <= 10 \/ m <= -10); [|apply H; lia].
  induction buf as [|b buf IH]; intros i x s Hi; simpl.
  - intros [= <- <-]. lia.
  - destruct (i =? 10) eqn:E; [intros [= <- <-]; lia|].
    destruct (b <? 128); [|apply IH; lia].
    destruct ((i =? 9) && (1 <? b)) eqn:E'; intros [= <- <-]; lia.
Qed.

Lemma uvarint_bytes_0 x : uvarint_bytes 0 x = [u8 x].
Proof. reflexivity. Qed.

Lemma uvarint_bytes_S f x :
  uvarint_bytes (S f) x =
    if 128 <=? x then Z.lor (u8 x) 128 :: uvarint_bytes f (Z.shiftr x 7) else [u8 x].
Proof. reflexivity. Qed.

#[global] Arguments uvarint_bytes : simpl never.
#[global] Arguments be16 : simpl never.
#[global] Arguments zlen : simpl never.
