(* ===== verification/MsgTypes.v ===== *)
(** * MsgTypes: package-level definitions of [utils/surgemq/message]

    The constants, the packet types with their names, descriptions and default
    flags, the validity checks, the CONNACK return codes and the length-prefixed
    byte strings ([message.go], [connackcode.go]). *)
From stdpp Require Import base list strings.
From Stdlib Require Import ZArith Lia.
From S2P Require Import Prelude GoLang.

(** ** Constants *)

Definition maxLPString : Z := 65535.
Definition maxFixedHeaderLength : Z := 5.
Definition maxRemainingLength : Z := 268435455.

Definition QosAtMostOnce : Z := 0.
Definition QosAtLeastOnce : Z := 1.
Definition QosExactlyOnce : Z := 2.
Definition QosFailure : Z := 128.

(** [SupportedVersions], a Go map from the protocol level to the protocol name *)
Definition SupportedVersions (v : Z) : option (list Z) :=
  match v with
  | 3 => Some (str "MQIsdp")
  | 4 => Some (str "MQTT")
  | _ => None
  end.

(** [MessageType] is a byte; its sixteen constants *)
Definition RESERVED : Z := 0.
Definition CONNECT : Z := 1.
Definition CONNACK : Z := 2.
Definition PUBLISH : Z := 3.
Definition PUBACK : Z := 4.
Definition PUBREC : Z := 5.
Definition PUBREL : Z := 6.
Definition PUBCOMP : Z := 7.
Definition SUBSCRIBE : Z := 8.
Definition SUBACK : Z := 9.
Definition UNSUBSCRIBE : Z := 10.
Definition UNSUBACK : Z := 11.
Definition PINGREQ : Z := 12.
Definition PINGRESP : Z := 13.
Definition DISCONNECT : Z := 14.
Definition RESERVED2 : Z := 15.

(** ** MessageType methods *)

Definition Name (t : Z) : string :=
  (match t with
   | 0 => "RESERVED" | 1 => "CONNECT" | 2 => "CONNACK" | 3 => "PUBLISH"
   | 4 => "PUBACK" | 5 => "PUBREC" | 6 => "PUBREL" | 7 => "PUBCOMP"
   | 8 => "SUBSCRIBE" | 9 => "SUBACK" | 10 => "UNSUBSCRIBE" | 11 => "UNSUBACK"
   | 12 => "PINGREQ" | 13 => "PINGRESP" | 14 => "DISCONNECT" | 15 => "RESERVED2"
   | _ => "UNKNOWN"
   end)%string.

Definition Desc (t : Z) : string :=
  (match t with
   | 0 => "Reserved"
   | 1 => "Client request to connect to Server"
   | 2 => "Connect acknowledgement"
   | 3 => "Publish message"
   | 4 => "Publish acknowledgement"
   | 5 => "Publish received (assured delivery part 1)"
   | 6 => "Publish release (assured delivery part 2)"
   | 7 => "Publish complete (assured delivery part 3)"
   | 8 => "Client subscribe request"
   | 9 => "Subscribe acknowledgement"
   | 10 => "Unsubscribe request"
   | 11 => "Unsubscribe acknowledgement"
   | 12 => "PING request"
   | 13 => "PING response"
   | 14 => "Client is disconnecting"
   | 15 => "Reserved"
   | _ => "UNKNOWN"
   end)%string.

Definition DefaultFlags (t : Z) : Z :=
  match t with
  | 0 => 0 | 1 => 0 | 2 => 0 | 3 => 0 | 4 => 0 | 5 => 0
  | 6 => 2
  | 7 => 0
  | 8 => 2
  | 9 => 0
  | 10 => 2
  | 11 => 0 | 12 => 0 | 13 => 0 | 14 => 0 | 15 => 0
  | _ => 0
  end.

Definition Valid (t : Z) : bool := (RESERVED <? t) && (t <? RESERVED2).

(** ** Validity checks *)

(** [bytes.IndexByte] *)
Fixpoint IndexByte_from (i : Z) (b : list Z) (c : Z) : Z :=
  match b with
  | [] => -1
  | x :: b => if x =? c then i else IndexByte_from (i + 1) b c
  end.
Definition IndexByte (b : list Z) (c : Z) : Z := IndexByte_from 0 b c.

Definition chHash : Z := 35.   (* '#' *)
Definition chPlus : Z := 43.   (* '+' *)
Definition chSlash : Z := 47.  (* '/' *)
Definition chDollar : Z := 36. (* '$' *)

Definition ValidTopic (topic : list Z) : bool :=
  (0 <? zlen topic) && (IndexByte topic chHash =? -1) && (IndexByte topic chPlus =? -1).

Definition ValidQos (qos : Z) : bool :=
  (qos =? QosAtMostOnce) || (qos =? QosAtLeastOnce) || (qos =? QosExactlyOnce).

Definition ValidVersion (v : Z) : bool :=
  match SupportedVersions v with Some _ => true | None => false end.

(** ** CONNACK return codes ([connackcode.go]); [ConnackCode] is a [uint64] *)

Definition ConnectionAccepted : Z := 0.
Definition ErrInvalidProtocolVersion : Z := 1.
Definition ErrIdentifierRejected : Z := 2.
Definition ErrServerUnavailable : Z := 3.
Definition ErrBadClientIdOrUsernameOrPassword : Z := 4.
Definition ErrAuthServerLoginFailed : Z := 5.
Definition ErrAuthServerLogoutFailed : Z := 6.
Definition ParamExistTobeEmpty : Z := 7.
Definition ParamTimestampErr : Z := 8.
Definition ProductDeviceNotActive : Z := 9.
Definition ProductOrDeviceNotExist : Z := 10.
Definition SignatureMismatch : Z := 11.

Definition Code_Value (c : Z) : Z := u8 c.

Definition Code_Desc (c : Z) : string :=
  (match c with
   | 0 => "Connection accepted"
   | 1 => "The Server does not support the level of the MQTT protocol requested by the Client"
   | 2 => "The Client identifier is correct UTF-8 but not allowed by the server"
   | 3 => "The Network Connection has been made but the MQTT service is unavailable"
   | 4 => "The data in the user name or password is malformed"
   | 5 => "The Client auth failed"
   | 6 => "The Client login failed"
   | 7 => "The Client logout failed"
   | _ => EmptyString
   end)%string.

Definition Code_Valid (c : Z) : bool := c <=? 7.

Definition Code_Error (c : Z) : string :=
  (match c with
   | 0 => "Connection accepted"
   | 1 => "Connection Refused, unacceptable protocol version"
   | 2 => "Connection Refused, identifier rejected"
   | 3 => "Connection Refused, Server unavailable"
   | 4 => "Connection Refused, bad user name or password"
   | 5 => "Connection Refused, not authorized"
   | 6 => "Connection login failed"
   | 7 => "Connection logout failed"
   | _ => "Unknown error"
   end)%string.

Definition ValidConnackError (err : error) : bool :=
  bool_decide (err = ErrCode ErrInvalidProtocolVersion)
  || bool_decide (err = ErrCode ErrIdentifierRejected)
  || bool_decide (err = ErrCode ErrServerUnavailable)
  || bool_decide (err = ErrCode ErrBadClientIdOrUsernameOrPassword)
  || bool_decide (err = ErrCode ErrAuthServerLoginFailed)
  || bool_decide (err = ErrCode ErrAuthServerLogoutFailed).

(** ** Length-prefixed byte strings *)

(** [readLPBytes(buf)]: the bytes, the number of bytes consumed, the error *)
Definition readLPBytes (buf : slice) : outcome (list Z * Z * option error) :=
  if len buf <? 2 then
    Ret ([], 0, Some (Errorf "utils/readLPBytes: Insufficient buffer size. Expecting %d, got %d."
                             [AInt 2; AInt (len buf)]))
  else
    let! n := BigEndian_Uint16 (vis buf) in
    let total := 2 in
    if len buf <? n then
      Ret ([], total, Some (Errorf "utils/readLPBytes: Insufficient buffer size. Expecting %d, got %d."
                                   [AInt n; AInt (len buf)]))
    else
      let total := total + n in
      let! s := slice_range buf 2 total in
      Ret (vis s, total, None).

(** [writeLPBytes(dst[off:], b)]: the destination after the write, the count,
    the error *)
Definition writeLPBytes (dst : list Z) (off : Z) (b : list Z)
  : outcome (list Z * Z * option error) :=
  if negb ((0 <=? off) && (off <=? zlen dst)) then Panic SliceBounds else
  let n := zlen b in
  if maxLPString <? n then
    Ret (dst, 0, Some (Errorf "utils/writeLPBytes: Length (%d) greater than %d bytes."
                              [AInt n; AInt maxLPString]))
  else if zlen dst - off <? 2 + n then
    Ret (dst, 0, Some (Errorf "utils/writeLPBytes: Insufficient buffer size. Expecting %d, got %d."
                              [AInt (2 + n); AInt (zlen dst - off)]))
  else
    let! dst := put dst off (be16 (u16 n)) in
    let! (dst, _) := gocopy dst (off + 2) b in
    Ret (dst, 2 + n, None).

(** ** Specification of the length-prefixed format *)

(** The wire form of a string: two bytes of length, then the bytes. *)
Definition lp (b : list Z) : list Z := be16 (zlen b) ++ b.

Lemma zlen_lp b : zlen (lp b) = 2 + zlen b.
Proof. unfold lp. zl. Qed.
#[export] Hint Rewrite zlen_lp : zlen.

Lemma lp_ok b : bytes_ok b -> bytes_ok (lp b).
Proof. intros H. apply Forall_app_2; [apply be16_ok|done]. Qed.

(** [writeLPBytes] refines [lp]: it stores exactly the wire form. *)
Lemma writeLPBytes_spec w r b off :
  off = zlen w -> zlen b <= maxLPString -> 2 + zlen b <= zlen r ->
  writeLPBytes (w ++ r) off b
  = Ret (w ++ lp b ++ drop (length (lp b)) r, 2 + zlen b, None).
Proof.
  intros Hoff Hmax Hr. unfold writeLPBytes. guard_false. unfold maxLPString in *.
  guard_false. guard_false.
  rewrite u16_small by (zlen_facts; lia).
  rewrite put_app by zl. rewrite bindO_ret.
  replace (w ++ be16 (zlen b) ++ drop (length (be16 (zlen b))) r)
    with ((w ++ be16 (zlen b)) ++ drop 2 r) by (by rewrite <- app_assoc).
  rewrite gocopy_app by zl. rewrite bindO_ret. f_equal. f_equal. f_equal.
  unfold lp. rewrite <- !app_assoc. do 3 f_equal.
  rewrite drop_drop, length_app. done.
Qed.

Lemma writeLPBytes_filled w dst b off :
  off = zlen w -> zlen b <= maxLPString -> zlen (w ++ lp b) <= zlen dst ->
  writeLPBytes (filled w dst) off b = Ret (filled (w ++ lp b) dst, zlen (lp b), None).
Proof.
  intros Hoff Hmax Hd. unfold filled. rewrite writeLPBytes_spec by (done || zl).
  rewrite zlen_lp, <- app_assoc, drop_drop, (length_app w). done.
Qed.

(** The bounds check of [writeLPBytes] on each branch. *)
Lemma writeLPBytes_short dst off b :
  0 <= off <= zlen dst -> zlen dst - off < 2 + zlen b -> zlen b <= maxLPString ->
  exists e, writeLPBytes dst off b = Ret (dst, 0, Some e).
Proof.
  intros H1 H2 H3. unfold writeLPBytes. guard_false. guard_false. guard_true. eauto.
Qed.

(** [readLPBytes] reads back what [lp] wrote, whatever follows in the buffer. *)
Lemma readLPBytes_spec b rest sp :
  zlen b <= maxLPString ->
  readLPBytes (Slice (lp b ++ rest) sp) = Ret (b, 2 + zlen b, None).
Proof.
  intros Hb. unfold readLPBytes, len, lp. cbn [vis]. rewrite <- !app_assoc. guard_false.
  rewrite BigEndian_roundtrip by (unfold maxLPString in Hb; zlen_facts; lia).
  rewrite bindO_ret. guard_false. rewrite slice_range_app by zl. done.
Qed.

Lemma index_ok {A} (l : list A) i : 0 <= i < zlen l -> exists b, index l i = Ret b.
Proof.
  intros H. unfold index. guard_true.
  destruct (l !! Z.to_nat i) eqn:E; [eauto|].
  apply lookup_ge_None in E. zl.
Qed.

Lemma index_byte l i b : bytes_ok l -> index l i = Ret b -> is_byte b.
Proof.
  intros Hl. unfold index. destruct (_ && _); [|done].
  destruct (l !! _) eqn:E; [|done]. intros [= <-]. by eapply Forall_lookup_1 in E.
Qed.

Lemma BigEndian_ok l : bytes_ok l -> 2 <= zlen l ->
  exists n, BigEndian_Uint16 l = Ret n /\ 0 <= n <= 65535.
Proof.
  intros Hl Hn. destruct l as [|a [|b l]]; [unfold zlen in Hn; simpl in Hn; lia..|].
  inversion Hl as [|? ? Ha Hl']; subst. inversion Hl' as [|? ? Hb _]; subst.
  rewrite BigEndian_two by done. exists (b + 256 * a). split; [done|].
  destruct Ha, Hb. lia.
Qed.

(** When [readLPBytes] panics: the announced length fits the buffer without its
    prefix, and runs past the capacity with it.  The check compares the length
    with the whole buffer, prefix included. *)
Lemma readLPBytes_panics buf n :
  BigEndian_Uint16 (vis buf) = Ret n -> 0 <= n -> 2 <= len buf ->
  (panics (readLPBytes buf) <-> n <= len buf /\ cap buf < 2 + n).
Proof.
  intros Hn Hn0 Hlen. unfold readLPBytes. guard_false. rewrite Hn, bindO_ret.
  destruct (len buf <? n) eqn:E.
  - split; [intros [? ?]; done|lia].
  - unfold slice_range. destruct (_ && _) eqn:E'.
    + split; [intros [? ?]; done|lia].
    + split; [lia|]. intros _. by eexists.
Qed.

(** A successful read returns the announced bytes of the backing array. *)
Lemma readLPBytes_ret buf b n :
  readLPBytes buf = Ret (b, n, None) ->
  2 <= n /\ n = 2 + zlen b /\ n <= cap buf /\
  b = take (Z.to_nat (zlen b)) (drop 2 (backing buf)).
Proof.
  unfold readLPBytes. destruct (_ <? _); [done|].
  intros H. inv_bind H. case_in H; [done|]. inv_bind H. injection H as <- <-.
  pose proof (slice_range_len _ _ _ _ Hb0) as (H1 & H2 & H3).
  unfold slice_range in Hb0. case_in Hb0; [|done]. injection Hb0 as <-.
  unfold len in H3. cbn [vis] in *. split; [lia|]. split; [lia|]. split; [lia|].
  rewrite H3. done.
Qed.

Lemma be16_bytes hi lo : is_byte hi -> is_byte lo -> be16 (lo + 256 * hi) = [hi; lo].
Proof.
  intros [H1 H2] [H3 H4]. unfold be16, u8. change (2 ^ 8) with 256.
  rewrite Z.shiftr_div_pow2 by lia. change (2 ^ 8) with 256. f_equal; [|f_equal].
  - replace (lo + 256 * hi) with (hi * 256 + lo) by lia. rewrite Z.div_add_l by lia.
    rewrite (Z.div_small lo) by lia. rewrite Z.mod_small; lia.
  - rewrite (Z.mul_comm 256), Z_mod_plus_full. by apply Z.mod_small.
Qed.

(** A read that stays inside the visible bytes consumed exactly the wire form
    of the string it returned. *)
Lemma readLPBytes_lp buf b n :
  bytes_ok (vis buf) -> readLPBytes buf = Ret (b, n, None) -> n <= len buf ->
  vis buf = lp b ++ drop (Z.to_nat n) (vis buf).
Proof.
  intros Hok H Hn. pose proof (readLPBytes_ret buf b n H) as (_ & Hnb & _ & Hb).
  unfold readLPBytes in H. case_in H; [done|]. inv_bind H as k Hk. case_in H; [done|].
  inv_bind H as s Hs. injection H as Hv Hnk.
  unfold len in *. destruct (vis buf) as [|hi [|lo l]] eqn:Ev; [zl|zl|].
  inversion Hok as [|? ? Hhi Hok']; subst. inversion Hok' as [|? ? Hlo _]; subst.
  rewrite BigEndian_two in Hk by done. injection Hk as Hk.
  assert (Hkb : k = zlen (vis s)) by lia.
  unfold lp. rewrite <- Hkb, <- Hk, be16_bytes by done. cbn [app]. do 2 f_equal.
  unfold backing in Hb. rewrite Ev in Hb. cbn [app drop] in Hb.
  rewrite drop_0, take_app_le in Hb by zl.
  rewrite Hk. replace (Z.to_nat (2 + k)) with (S (S (Z.to_nat k))) by (rewrite Hkb; zl).
  cbn [drop]. rewrite Hb at 1. rewrite <- Hkb. by rewrite take_drop.
Qed.
