(* ===== verification/Header.v ===== *)
(** * Header: the fixed header shared by every packet ([message/header.go])

    A decoded message does not copy the packet: [mtypeflags] and [packetId] are
    sub-slices of the decoding buffer [dbuf], and a write through them changes
    [dbuf].  A field that is a sub-slice of [dbuf] is [Sub off n]; a field with
    an array of its own is [Own b]. *)
From stdpp Require Import base list strings.
From Stdlib Require Import ZArith Lia.
From S2P Require Import Prelude GoLang MsgTypes.

(** ** Data *)

Inductive bref : Type :=
| Own (b : list Z)
| Sub (off n : nat).

Record header : Type := mkHeader {
  remlen : Z;            (* int32 *)
  mtypeflags : bref;
  packetId : bref;
  dbuf : slice;
  dirty : bool
}.

(** the zero value of the struct *)
Definition zero_header : header := mkHeader 0 (Own []) (Own []) (mkslice []) false.

Definition with_remlen (v : Z) (h : header) : header :=
  mkHeader v (mtypeflags h) (packetId h) (dbuf h) (dirty h).
Definition with_mtypeflags (r : bref) (h : header) : header :=
  mkHeader (remlen h) r (packetId h) (dbuf h) (dirty h).
Definition with_packetId (r : bref) (h : header) : header :=
  mkHeader (remlen h) (mtypeflags h) r (dbuf h) (dirty h).
Definition with_dbuf (s : slice) (h : header) : header :=
  mkHeader (remlen h) (mtypeflags h) (packetId h) s (dirty h).
Definition with_dirty (b : bool) (h : header) : header :=
  mkHeader (remlen h) (mtypeflags h) (packetId h) (dbuf h) b.

(** The bytes a field of [h] denotes. *)
Definition rd (h : header) (r : bref) : list Z :=
  match r with
  | Own b => b
  | Sub off n => take n (drop off (backing (dbuf h)))
  end.

(** A store into the array behind a slice. *)
Definition slice_set (s : slice) (i : nat) (v : Z) : slice :=
  let b := <[i:=v]> (backing s) in
  Slice (take (length (vis s)) b) (drop (length (vis s)) b).

(** [this.mtypeflags[0] = v] *)
Definition store_mtypeflags (h : header) (v : Z) : header :=
  match mtypeflags h with
  | Own b => with_mtypeflags (Own (<[0%nat:=v]> b)) h
  | Sub off _ => with_dbuf (slice_set (dbuf h) off v) h
  end.

(** [this.packetId[0], this.packetId[1] = hi, lo] *)
Definition store_packetId (h : header) (hi lo : Z) : header :=
  match packetId h with
  | Own b => with_packetId (Own (<[1%nat:=lo]> (<[0%nat:=hi]> b))) h
  | Sub off _ => with_dbuf (slice_set (slice_set (dbuf h) off hi) (S off) lo) h
  end.

(** [this.dbuf = src]: the slices of the former buffer keep its array. *)
Definition set_dbuf (h : header) (src : slice) : header :=
  mkHeader (remlen h) (Own (rd h (mtypeflags h))) (Own (rd h (packetId h))) src (dirty h).

(** ** Operations *)

(** [Type()]; it allocates [mtypeflags] when the field is not one byte long *)
Definition Type_ (h : header) : header * Z :=
  match rd h (mtypeflags h) with
  | [b] => (h, Z.shiftr b 4)
  | _ => (with_dirty true (with_mtypeflags (Own [0]) h), 0)
  end.

Definition SetType (h : header) (mtype : Z) : header * option error :=
  if negb (Valid mtype) then
    (h, Some (Errorf "header/SetType: Invalid control packet type %d" [AInt mtype]))
  else
    let h := match rd h (mtypeflags h) with
             | [_] => h
             | _ => with_dirty true (with_mtypeflags (Own [0]) h)
             end in
    (store_mtypeflags h (Z.lor (u8 (Z.shiftl mtype 4)) (Z.land (DefaultFlags mtype) 15)), None).

Definition Flags (h : header) : outcome Z :=
  let! b := index (rd h (mtypeflags h)) 0 in Ret (Z.land b 15).

Definition RemainingLength (h : header) : Z := remlen h.

Definition SetRemainingLength (h : header) (n : Z) : header * option error :=
  if (maxRemainingLength <? n) || (n <? 0) then
    (h, Some (Errorf "header/SetLength: Remaining length (%d) out of bound (max %d, min 0)"
                     [AInt n; AInt maxRemainingLength]))
  else (with_dirty true (with_remlen n h), None).

Definition msglen (h : header) : Z :=
  let total := 1 in
  if remlen h <=? 127 then total + 1
  else if remlen h <=? 16383 then total + 2
  else if remlen h <=? 2097151 then total + 3
  else total + 4.

Definition Len (h : header) : Z := msglen h.

Definition PacketId (h : header) : Z :=
  match rd h (packetId h) with
  | [hi; lo] => Z.lor lo (Z.shiftl hi 8)
  | _ => 0
  end.

Definition ClearPacketId (h : header) : header :=
  match rd h (packetId h) with
  | [_; _] => store_packetId h 0 0
  | _ => h
  end.

Definition SetPacketId (h : header) (v : Z) : header :=
  if v =? 0 then h
  else
    let h := match rd h (packetId h) with
             | [_; _] => h
             | _ => with_dirty true (with_packetId (Own [0; 0]) h)
             end in
    store_packetId h (u8 (Z.shiftr v 8)) (u8 v).

(** [encode(dst)]: the header ([Type()] may change it), the destination, the
    count and the error *)
Definition encode (h : header) (dst : list Z)
  : outcome (header * list Z * Z * option error) :=
  let ml := msglen h in
  if zlen dst <? ml then
    Ret (h, dst, 0, Some (Errorf "header/Encode: Insufficient buffer size. Expecting %d, got %d."
                                 [AInt ml; AInt (zlen dst)]))
  else
    let total := 0 in
    if (maxRemainingLength <? remlen h) || (remlen h <? 0) then
      Ret (h, dst, total, Some (Errorf "header/Encode: Remaining length (%d) out of bound (max %d, min 0)"
                                       [AInt (remlen h); AInt maxRemainingLength]))
    else
      let '(h, t) := Type_ h in
      if negb (Valid t) then
        Ret (h, dst, total, Some (Errorf "header/Encode: Invalid message type %d" [AInt t]))
      else
        let! b := index (rd h (mtypeflags h)) 0 in
        let! dst := put dst total [b] in
        let total := total + 1 in
        let! (dst, n) := PutUvarint dst total (u64 (remlen h)) in
        let total := total + n in
        Ret (h, dst, total, None).

Definition decode (h : header) (src : slice) : outcome (header * Z * option error) :=
  let total := 0 in
  let h := set_dbuf h src in
  let '(h, mtype) := Type_ h in
  let! _ := slice_range src total (total + 1) in
  let h := with_mtypeflags (Sub 0 1) h in
  let '(h, t) := Type_ h in
  if negb (Valid t) then
    Ret (h, total, Some (Errorf "header/Decode: Invalid message type %d." [AInt mtype]))
  else if negb (mtype =? t) then
    Ret (h, total, Some (Errorf "header/Decode: Invalid message type %d. Expecting %d." [AInt t; AInt mtype]))
  else
    let! fl := Flags h in
    if negb (t =? PUBLISH) && negb (fl =? DefaultFlags t) then
      Ret (h, total, Some (Errorf "header/Decode: Invalid message (%d) flags. Expecting %d, got %d"
                                  [AInt t; AInt (DefaultFlags t); AInt fl]))
    else if (t =? PUBLISH) && negb (ValidQos (Z.land (Z.shiftr fl 1) 3)) then
      Ret (h, total, Some (Errorf "header/Decode: Invalid QoS (%d) for PUBLISH message."
                                  [AInt (Z.land (Z.shiftr fl 1) 3)]))
    else
      let total := total + 1 in
      let! rest := slice_from src total in
      let '(n, m) := Uvarint (vis rest) in
      let total := total + m in
      let h := with_remlen (i32 n) h in
      if (maxRemainingLength <? remlen h) || (n <? 0) then
        Ret (h, total, Some (Errorf "header/Decode: Remaining length (%d) out of bound (max %d, min 0)"
                                    [AInt (remlen h); AInt maxRemainingLength]))
      else
        let! rest := slice_from src total in
        if len rest <? remlen h then
          Ret (h, total, Some (Errorf "header/Decode: Remaining length (%d) is greater than remaining buffer (%d)"
                                      [AInt (remlen h); AInt (len rest)]))
        else Ret (h, total, None).

(** [Type()] and [Flags()] on a one-byte field *)
Lemma Type_one h b : rd h (mtypeflags h) = [b] -> Type_ h = (h, Z.shiftr b 4).
Proof. intros H. unfold Type_. by rewrite H. Qed.

Lemma Flags_one h b : rd h (mtypeflags h) = [b] -> Flags h = Ret (Z.land b 15).
Proof. intros H. unfold Flags. by rewrite H, index_0. Qed.

(** ** The wire form of the fixed header *)

Definition hdr_wire (b n : Z) : list Z := b :: uvarint_bytes 10 n.

(** the header byte is well formed: a valid type, and the flags MQTT fixes for
    it (any valid QoS for PUBLISH) *)
Definition hdr_byte_ok (b : Z) : bool :=
  Valid (Z.shiftr b 4) &&
  (if Z.shiftr b 4 =? PUBLISH then ValidQos (Z.land (Z.shiftr (Z.land b 15) 1) 3)
   else Z.land b 15 =? DefaultFlags (Z.shiftr b 4)).

Definition remlen_ok (n : Z) : Prop := 0 <= n <= maxRemainingLength.

#[export] Instance remlen_ok_dec n : Decision (remlen_ok n).
Proof. unfold remlen_ok. apply _. Defined.

Lemma uvarint_bytes_len n : remlen_ok n ->
  zlen (uvarint_bytes 10 n) =
    if n <=? 127 then 1 else if n <=? 16383 then 2 else if n <=? 2097151 then 3 else 4.
Proof.
  unfold remlen_ok, maxRemainingLength. intros Hn.
  rewrite (uvarint_bytes_fuel 3 10 n) by (lia || (change (2 ^ (7 * (Z.of_nat 3 + 1))) with 268435456; lia)).
  assert (D : forall k, Z.shiftr k 7 = k / 128) by (intros k; by rewrite Z.shiftr_div_pow2).
  rewrite !uvarint_bytes_S, uvarint_bytes_0, !D.
  destruct (n <=? 127) eqn:E1; [by guard_false|]. guard_true. rewrite zlen_cons.
  assert (H1 : 128 * (n / 128) <= n < 128 * (n / 128) + 128) by (pose proof (Z.div_mod n 128); pose proof (Z.mod_pos_bound n 128); lia).
  set (q := n / 128) in *.
  destruct (n <=? 16383) eqn:E2; [guard_false; reflexivity|]. guard_true. rewrite zlen_cons.
  assert (H2 : 128 * (q / 128) <= q < 128 * (q / 128) + 128) by (pose proof (Z.div_mod q 128); pose proof (Z.mod_pos_bound q 128); lia).
  set (p := q / 128) in *.
  destruct (n <=? 2097151) eqn:E3; [guard_false; reflexivity|]. guard_true. reflexivity.
Qed.

Lemma msglen_spec h : remlen_ok (remlen h) -> msglen h = 1 + zlen (uvarint_bytes 10 (remlen h)).
Proof.
  intros H. rewrite uvarint_bytes_len by done. unfold msglen.
  repeat (destruct (_ <=? _); [lia|]). lia.
Qed.

Lemma zlen_hdr_wire b n : zlen (hdr_wire b n) = 1 + zlen (uvarint_bytes 10 n).
Proof. apply zlen_cons. Qed.

Lemma msglen_bounds h : 2 <= msglen h <= maxFixedHeaderLength.
Proof. unfold msglen, maxFixedHeaderLength. repeat destruct (_ <=? _); lia. Qed.

(** [encode] writes the wire form and reports its length. *)
Lemma encode_spec h b dst :
  rd h (mtypeflags h) = [b] -> Valid (Z.shiftr b 4) = true ->
  remlen_ok (remlen h) -> msglen h <= zlen dst ->
  encode h dst = Ret (h, hdr_wire b (remlen h) ++ drop (length (hdr_wire b (remlen h))) dst,
                      msglen h, None).
Proof.
  intros Hb Hv Hr Hd. pose proof (msglen_bounds h).
  unfold encode. guard_false. unfold remlen_ok in Hr. guard_false.
  unfold Type_. rewrite Hb. cbv beta iota zeta. rewrite Hv, Hb. cbn [negb].
  rewrite index_0, bindO_ret.
  destruct dst as [|d dst]; [rewrite zlen_nil in Hd; lia|].
  pose proof (put_app [] (d :: dst) [b] 0 eq_refl) as Hp. cbn [app] in Hp.
  rewrite Hp by zl. rewrite bindO_ret. unfold PutUvarint.
  replace (u64 (remlen h)) with (remlen h)
    by (unfold u64; rewrite Z.mod_small; unfold maxRemainingLength in *; lia).
  pose proof (msglen_spec h ltac:(done)) as Hm. rewrite Hm in *.
  change (b :: drop (length [b]) (d :: dst)) with ([b] ++ dst).
  rewrite put_app by zl. rewrite !bindO_ret. unfold hdr_wire. cbn [app length drop]. done.
Qed.

Lemma encode_short h dst :
  zlen dst < msglen h -> exists e, encode h dst = Ret (h, dst, 0, Some e).
Proof. intros H. unfold encode. guard_true. eauto. Qed.

Lemma hdr_wire_decode_guard b : hdr_byte_ok b = true ->
  Valid (Z.shiftr b 4) = true /\
  (negb (Z.shiftr b 4 =? PUBLISH) && negb (Z.land b 15 =? DefaultFlags (Z.shiftr b 4))) = false /\
  ((Z.shiftr b 4 =? PUBLISH) && negb (ValidQos (Z.land (Z.shiftr (Z.land b 15) 1) 3))) = false.
Proof.
  unfold hdr_byte_ok. intros [Hv H]%andb_true_iff. split; [done|].
  destruct (_ =? PUBLISH); simpl in *; rewrite ?H; done.
Qed.

(** [decode] reads the wire form back into a message of the same type. *)
Lemma decode_spec h b0 b n rest sp :
  rd h (mtypeflags h) = [b0] -> Z.shiftr b0 4 = Z.shiftr b 4 ->
  hdr_byte_ok b = true -> remlen_ok n -> n <= zlen rest ->
  decode h (Slice (hdr_wire b n ++ rest) sp)
  = Ret (mkHeader n (Sub 0 1) (Own (rd h (packetId h))) (Slice (hdr_wire b n ++ rest) sp) (dirty h),
         zlen (hdr_wire b n), None).
Proof.
  intros Hb0 Ht Hok Hn Hrest.
  destruct (hdr_wire_decode_guard b Hok) as (Hv & Hg1 & Hg2).
  unfold decode. rewrite (Type_one _ b0) by done. cbv zeta.
  pose proof (slice_range_app [] [b] (uvarint_bytes 10 n ++ rest) sp 0 1 eq_refl eq_refl) as Hr.
  unfold hdr_wire. cbn [app] in *. change (0 + 1) with 1. rewrite Hr, bindO_ret.
  rewrite (Type_one _ b) by done. rewrite Hv, Ht, Z.eqb_refl. cbn [negb].
  rewrite (Flags_one _ b) by done. rewrite bindO_ret, Hg1, Hg2.
  pose proof (slice_from_app [b] (uvarint_bytes 10 n ++ rest) sp 1 eq_refl) as Hf. cbn [app] in Hf.
  rewrite Hf, bindO_ret. cbn [vis]. unfold remlen_ok, maxRemainingLength in *.
  rewrite Uvarint_roundtrip by lia. cbn [with_remlen remlen].
  rewrite i32_small by lia. guard_false.
  pose proof (slice_from_app (b :: uvarint_bytes 10 n) rest sp (1 + zlen (uvarint_bytes 10 n))) as Hf2.
  cbn [app] in Hf2. rewrite Hf2 by (by rewrite zlen_cons). rewrite bindO_ret.
  unfold len. cbn [vis]. guard_false. rewrite zlen_cons. done.
Qed.

(** ** Fields that alias the decoding buffer *)

Lemma backing_slice_set s i v : backing (slice_set s i v) = <[i:=v]> (backing s).
Proof. unfold slice_set, backing. cbn [vis spare]. by rewrite take_drop. Qed.

Lemma window_insert (l : list Z) off n i v :
  take n (drop off (<[(off + i)%nat:=v]> l)) = <[i:=v]> (take n (drop off l)).
Proof.
  apply list_eq. intros j.
  destruct (decide (j < n)%nat) as [Hj|Hj].
  - rewrite lookup_take_lt, lookup_drop by done.
    destruct (decide (i = j)) as [->|Hne].
    + destruct (decide ((off + j < length l)%nat)) as [Hl|Hl].
      * rewrite !list_lookup_insert_eq; [done| |done].
        rewrite length_take, length_drop. lia.
      * rewrite list_insert_ge by lia. rewrite list_insert_ge.
        -- by rewrite lookup_take_lt, lookup_drop by done.
        -- rewrite length_take, length_drop. lia.
    + rewrite !list_lookup_insert_ne by lia. by rewrite lookup_take_lt, lookup_drop by done.
  - rewrite !lookup_ge_None_2; [done| |].
    + rewrite length_insert, length_take. lia.
    + rewrite length_take. lia.
Qed.

Lemma window_insert_other (l : list Z) off n j v :
  (j < off \/ off + n <= j)%nat -> take n (drop off (<[j:=v]> l)) = take n (drop off l).
Proof.
  intros Hj. apply list_eq. intros i.
  destruct (decide (i < n)%nat) as [Hi|Hi].
  - rewrite !lookup_take_lt, !lookup_drop by done. apply list_lookup_insert_ne. lia.
  - rewrite !lookup_ge_None_2; [done| |]; rewrite length_take; lia.
Qed.

(** The first byte of a decoded packet is the type byte and the packet
    identifier lies behind it, so the two fields do not overlap. *)
Definition refs_apart (h : header) : Prop :=
  match mtypeflags h, packetId h with
  | Sub o1 n1, Sub o2 n2 => (o1 + n1 <= o2)%nat
  | _, _ => True
  end.

Lemma rd_store_packetId h x y hi lo :
  rd h (packetId h) = [x; y] ->
  rd (store_packetId h hi lo) (packetId (store_packetId h hi lo)) = [hi; lo].
Proof.
  unfold store_packetId. destruct (packetId h) as [b|off n] eqn:E; intros H.
  - cbn [with_packetId packetId rd] in *. subst b. done.
  - cbn [with_dbuf packetId]. rewrite E. cbn [rd with_dbuf dbuf] in *.
    rewrite !backing_slice_set. replace (S off) with (off + 1)%nat by lia.
    rewrite window_insert. rewrite <- (Nat.add_0_r off) at 2. rewrite window_insert, H. done.
Qed.

Lemma rd_mtf_store_packetId h x y hi lo :
  refs_apart h -> rd h (packetId h) = [x; y] ->
  rd (store_packetId h hi lo) (mtypeflags (store_packetId h hi lo)) = rd h (mtypeflags h).
Proof.
  unfold store_packetId, refs_apart. destruct (packetId h) as [b|off n] eqn:E; intros Ha H; [done|].
  cbn [with_dbuf mtypeflags]. destruct (mtypeflags h) as [b|o1 n1] eqn:E1; [done|].
  cbn [rd with_dbuf dbuf]. rewrite !backing_slice_set.
  rewrite !window_insert_other by lia. done.
Qed.

Lemma bytes_lor hi lo : is_byte hi -> is_byte lo -> Z.lor lo (Z.shiftl hi 8) = lo + 256 * hi.
Proof. intros [H _] Hl. by apply lor_shift8. Qed.

Lemma be16_value v : 0 <= v < 2 ^ 16 ->
  Z.lor (u8 v) (Z.shiftl (u8 (Z.shiftr v 8)) 8) = v.
Proof.
  intros Hv. pose proof (BigEndian_roundtrip v [] Hv) as H. unfold BigEndian_Uint16, be16 in H.
  cbn [app] in H. rewrite index_1, index_0 in H. cbn [bindO] in H. by injection H.
Qed.

Lemma PacketId_be16 h v : 0 <= v < 2 ^ 16 -> rd h (packetId h) = be16 v -> PacketId h = v.
Proof. intros Hv H. unfold PacketId. rewrite H. unfold be16. by apply be16_value. Qed.

(** [SetPacketId] of a non-zero identifier stores its two bytes, whether the
    field is its own array or a window of the decoding buffer. *)
Lemma rd_SetPacketId h v :
  v <> 0 -> rd (SetPacketId h v) (packetId (SetPacketId h v)) = be16 v.
Proof.
  intros Hv. unfold SetPacketId. apply Z.eqb_neq in Hv. rewrite Hv.
  destruct (rd h (packetId h)) as [|x [|y [|z l]]] eqn:E.
  1, 2, 4: by rewrite (rd_store_packetId _ 0 0).
  by rewrite (rd_store_packetId _ x y).
Qed.

Lemma rd_mtf_SetPacketId h v :
  refs_apart h -> rd (SetPacketId h v) (mtypeflags (SetPacketId h v)) = rd h (mtypeflags h).
Proof.
  intros Ha. unfold SetPacketId. destruct (v =? 0); [done|].
  destruct (rd h (packetId h)) as [|x [|y [|z l]]] eqn:E.
  1, 2, 4: rewrite (rd_mtf_store_packetId _ 0 0); [done| |done];
    unfold refs_apart; simpl; by destruct (mtypeflags h).
  by rewrite (rd_mtf_store_packetId _ x y).
Qed.

Lemma remlen_SetPacketId h v : remlen (SetPacketId h v) = remlen h.
Proof.
  unfold SetPacketId, store_packetId. destruct (v =? 0); [done|].
  destruct (rd h (packetId h)) as [|x [|y [|z l]]]; simpl; try done. by destruct (packetId h).
Qed.

Lemma dirty_SetPacketId h v : dirty h = true -> dirty (SetPacketId h v) = true.
Proof.
  intros H. unfold SetPacketId, store_packetId. destruct (v =? 0); [done|].
  destruct (rd h (packetId h)) as [|x [|y [|z l]]]; simpl; try done. by destruct (packetId h).
Qed.

Lemma refs_apart_SetPacketId h v : refs_apart h -> refs_apart (SetPacketId h v).
Proof.
  unfold SetPacketId, store_packetId, refs_apart. intros Ha. destruct (v =? 0); [done|].
  destruct (rd h (packetId h)) as [|x [|y [|z l]]]; simpl; try (by destruct (mtypeflags h)).
  destruct (packetId h) eqn:E; simpl; rewrite ?E; by destruct (mtypeflags h).
Qed.

(** ** Parts every message repeats

    [Len()] of each message: the length of the decoding buffer while the message
    is unchanged, else the header for a body of [ml] bytes plus the body. *)
Definition len_with (h : header) (ml : Z) : header * Z :=
  if negb (dirty h) then (h, len (dbuf h))
  else match SetRemainingLength h (i32 ml) with
       | (h, Some _) => (h, 0)
       | (h, None) => (h, msglen h + ml)
       end.

(** The first branch of each [Encode]: an unchanged message is copied out. *)
Definition encode_clean (site : string) (h : header) (dst : list Z)
  : outcome (list Z * Z * option error) :=
  if zlen dst <? len (dbuf h) then
    Ret (dst, 0, Some (Errorf (site +:+ "/Encode: Insufficient buffer size. Expecting %d, got %d.")
                              [AInt (len (dbuf h)); AInt (zlen dst)]))
  else
    let! (dst, n) := gocopy dst 0 (vis (dbuf h)) in Ret (dst, n, None).

(** [copy(dst[a:b], src)] *)
Definition copy_range (dst : list Z) (a b : Z) (src : list Z) : outcome (list Z * Z) :=
  if (0 <=? a) && (a <=? b) && (b <=? zlen dst) then
    let n := Z.min (b - a) (zlen src) in
    Ret (take (Z.to_nat a) dst ++ take (Z.to_nat n) src ++ drop (Z.to_nat (a + n)) dst, n)
  else Panic SliceBounds.

(** The packet identifier of an acknowledgement: the two bytes, or zeros when
    it was never set.
    [if copy(dst[total:total+2], this.packetId) != 2 { dst[total], dst[total+1] = 0, 0 }] *)
Definition put_packetId (h : header) (dst : list Z) (total : Z) : outcome (list Z) :=
  let! (dst, n) := copy_range dst total (total + 2) (rd h (packetId h)) in
  if negb (n =? 2) then put dst total [0; 0] else Ret dst.

Lemma SetRemainingLength_ok h n :
  remlen_ok n -> SetRemainingLength h n = (with_dirty true (with_remlen n h), None).
Proof. intros [H1 H2]. unfold SetRemainingLength. by guard_false. Qed.

Lemma i32_remlen n : remlen_ok n -> i32 n = n.
Proof. unfold remlen_ok, maxRemainingLength. intros H. apply i32_small. lia. Qed.

Lemma len_with_dirty h ml :
  dirty h = true -> remlen_ok ml ->
  len_with h ml = (with_remlen ml h, 1 + zlen (uvarint_bytes 10 ml) + ml).
Proof.
  intros Hd Hml. unfold len_with. rewrite Hd. cbn [negb].
  rewrite i32_remlen, SetRemainingLength_ok by done.
  rewrite msglen_spec by done. unfold with_dirty, with_remlen. simpl. by rewrite Hd.
Qed.

Lemma encode_clean_spec site h dst :
  len (dbuf h) <= zlen dst ->
  encode_clean site h dst = Ret (vis (dbuf h) ++ drop (length (vis (dbuf h))) dst, len (dbuf h), None).
Proof.
  intros H. unfold encode_clean. guard_false.
  pose proof (gocopy_app [] dst (vis (dbuf h)) 0 eq_refl) as Hc. cbn [app] in Hc.
  by rewrite Hc.
Qed.

Lemma put_packetId_spec h w r id :
  rd h (packetId h) = id -> zlen id = 2 -> 2 <= zlen r ->
  put_packetId h (w ++ r) (zlen w) = Ret (w ++ id ++ drop 2 r).
Proof.
  intros Hid Hl Hr. unfold put_packetId, copy_range. rewrite Hid. guard_true. cbv zeta.
  replace (Z.min (zlen w + 2 - zlen w) (zlen id)) with 2 by zl. rewrite bindO_ret.
  change (negb (2 =? 2)) with false. cbv iota.
  rewrite take_zlen_app by done. rewrite take_all_zlen by lia.
  do 3 f_equal. rewrite drop_app_ge by zl. f_equal. zl.
Qed.

(** ** What an accepted header guarantees *)

Lemma Type_rd h : let '(h', t) := Type_ h in
  exists b, rd h' (mtypeflags h') = [b] /\ t = Z.shiftr b 4 /\
    remlen h' = remlen h /\ packetId h' = packetId h /\ dbuf h' = dbuf h.
Proof.
  unfold Type_. destruct (rd h (mtypeflags h)) as [|b [|c l]] eqn:E.
  - exists 0. done.
  - exists b. done.
  - exists 0. done.
Qed.

Lemma decode_inv h src h' hn :
  decode h src = Ret (h', hn, None) ->
  exists b, rd h' (mtypeflags h') = [b] /\ head (vis src) = Some b /\ hdr_byte_ok b = true /\
  mtypeflags h' = Sub 0 1 /\ dbuf h' = src /\
  1 <= hn <= len src /\ remlen h' <= maxRemainingLength /\ hn + remlen h' <= len src /\
  (let '(v, m) := Uvarint (drop 1 (vis src)) in hn = 1 + m /\ remlen h' = i32 v).
Proof.
  unfold decode. set (h0 := set_dbuf h src).
  destruct (Type_ h0) as [h1 mtype] eqn:E1. intros H. inv_bind H as s0 Hb.
  pose proof (slice_range_len _ _ _ _ Hb) as (_ & Hcap & _).
  pose proof (Type_rd h0) as Hh1. rewrite E1 in Hh1. destruct Hh1 as (b1 & _ & _ & _ & _ & Hdb).
  set (h2 := with_mtypeflags (Sub 0 1) h1) in *.
  destruct (Type_ h2) as [h3 t] eqn:E3.
  case_in H; [done|]. case_in H; [done|]. inv_bind H as fl Hb0.
  case_in H; [done|]. case_in H; [done|]. inv_bind H as v1 Hb1.
  pose proof (slice_from_vis _ _ _ Hb1) as (Hlen & Hv & _).
  destruct (vis src) as [|b l] eqn:Esrc; [unfold len in Hlen; rewrite Esrc in Hlen; zl|].
  assert (Hrd2 : rd h2 (mtypeflags h2) = [b]).
  { unfold h2. cbn [with_mtypeflags mtypeflags rd dbuf]. rewrite Hdb. unfold h0. cbn [set_dbuf dbuf].
    unfold backing. rewrite Esrc. done. }
  rewrite (Type_one _ b Hrd2) in E3. injection E3 as <- <-.
  rewrite (Flags_one _ b Hrd2) in Hb0. injection Hb0 as <-.
  destruct (Uvarint (vis v1)) as [n m] eqn:Eu. case_in H; [done|]. inv_bind H as v2 Hb2.
  case_in H; [done|]. injection H as <- <-.
  pose proof (slice_from_vis _ _ _ Hb2) as (Hlen2 & Hv2 & _).
  pose proof (Uvarint_m_cases (vis v1) n m Eu) as Hm.
  rewrite Hv in Eu. change (Z.to_nat (0 + 1)) with 1%nat in Eu. cbn [drop] in *.
  exists b. rewrite Eu. cbn [with_remlen remlen mtypeflags dbuf] in *.
  split; [exact Hrd2|]. split; [done|]. split.
  { unfold hdr_byte_ok. destruct (Valid _); [|done]. cbn [andb].
    destruct (_ =? PUBLISH); cbn [negb andb] in *; [by destruct (ValidQos _)|].
    by destruct (_ =? DefaultFlags _). }
  split; [done|]. split; [exact Hdb|].
  assert (len v2 = len src - (1 + m)) by (unfold len in *; rewrite Hv2; rewrite Esrc in *; zl).
  split; [lia|]. split; [lia|]. split; [lia|]. split; [lia|done].
Qed.

(** The range check on the remaining length does not refuse the five-byte
    encodings of [2^31 .. 2^32-1]: the value is cut to an [int32], which is
    negative, the check [remlen < 0] is made on the [uint64] it came from, and
    [decode] succeeds with a negative remaining length. *)
Theorem header_accepts_negative_length h b v rest sp :
  rd h (mtypeflags h) = [b] -> hdr_byte_ok b = true -> 2 ^ 31 <= v < 2 ^ 32 ->
  exists h', decode h (Slice (hdr_wire b v ++ rest) sp) = Ret (h', zlen (hdr_wire b v), None) /\
             remlen h' = v - 2 ^ 32 /\ remlen h' < 0.
Proof.
  intros Hb Hok Hv. destruct (hdr_wire_decode_guard b Hok) as (Hva & Hg1 & Hg2).
  unfold decode. rewrite (Type_one _ b) by done. cbv zeta.
  pose proof (slice_range_app [] [b] (uvarint_bytes 10 v ++ rest) sp 0 1 eq_refl eq_refl) as Hr.
  unfold hdr_wire. cbn [app] in *. change (0 + 1) with 1. rewrite Hr, bindO_ret.
  rewrite (Type_one _ b) by done. rewrite Hva, Z.eqb_refl. cbn [negb].
  rewrite (Flags_one _ b) by done. rewrite bindO_ret, Hg1, Hg2.
  pose proof (slice_from_app [b] (uvarint_bytes 10 v ++ rest) sp 1 eq_refl) as Hf. cbn [app] in Hf.
  rewrite Hf, bindO_ret. cbn [vis]. rewrite Uvarint_roundtrip by lia. cbn [with_remlen remlen].
  assert (Hi : i32 v = v - 2 ^ 32).
  { unfold i32. replace (v + 2 ^ 31) with (v - 2 ^ 31 + 1 * 2 ^ 32) by lia.
    rewrite Z_mod_plus_full, Z.mod_small by lia. lia. }
  rewrite Hi. unfold maxRemainingLength. guard_false.
  pose proof (slice_from_app (b :: uvarint_bytes 10 v) rest sp (1 + zlen (uvarint_bytes 10 v))) as Hf2.
  cbn [app] in Hf2. rewrite Hf2 by (by rewrite zlen_cons). rewrite bindO_ret.
  unfold len. cbn [vis]. guard_false. rewrite zlen_cons. eexists. split; [done|]. cbn. lia.
Qed.

Lemma header_accepts_negative_length_witness :
  exists h', decode (fst (SetType zero_header PUBLISH)) (Slice [48; 255; 255; 255; 255; 15] []) = Ret (h', 6, None) /\
             remlen h' = -1 /\ remlen h' < 0.
Proof.
  exact (header_accepts_negative_length (fst (SetType zero_header PUBLISH)) 48 (2 ^ 32 - 1) [] []
    eq_refl eq_refl ltac:(lia)).
Defined.
