(* ===== verification/PacketId.v ===== *)
(** * PacketId: the process-wide packet identifier counter

    [gPacketId] ([message.go]) is a [uint64] incremented atomically; PUBLISH,
    SUBSCRIBE and UNSUBSCRIBE draw an identifier from it in [Encode] when they
    have none ([publish.go], [subscribe.go], [unsubscribe.go]). *)
From stdpp Require Import base list strings.
From Stdlib Require Import ZArith Lia.
From S2P Require Import Prelude GoLang MsgTypes Header.

(** [v := uint16(atomic.AddUint64(&gPacketId, 1) & 0xffff); if v == 0 { again }]:
    the counter afterwards and the identifier *)
Definition allocPacketId (g : Z) : Z * Z :=
  let g := u64 (g + 1) in
  let v := u16 (Z.land g 65535) in
  if v =? 0 then
    let g := u64 (g + 1) in
    (g, u16 (Z.land g 65535))
  else (g, v).

(** [if this.PacketId() == 0 { ... this.SetPacketId(v) }] *)
Definition ensurePacketId (h : header) (g : Z) : header * Z :=
  if PacketId h =? 0 then
    let '(g, v) := allocPacketId g in (SetPacketId h v, g)
  else (h, g).

Lemma allocPacketId_range g : 0 <= g -> 1 <= snd (allocPacketId g) < 2 ^ 16 /\ 0 <= fst (allocPacketId g).
Proof.
  intros Hg. unfold allocPacketId.
  assert (L : forall x, 0 <= x -> u16 (Z.land x 65535) = x mod 2 ^ 16).
  { intros x Hx. change 65535 with (Z.ones 16). rewrite Z.land_ones by lia.
    unfold u16. by rewrite Z.mod_mod. }
  assert (U : forall x, 0 <= u64 x) by (intros x; unfold u64; apply Z.mod_pos_bound; lia).
  rewrite !L by apply U. pose proof (Z.mod_pos_bound (u64 (g + 1)) (2 ^ 16) ltac:(lia)).
  destruct (u64 (g + 1) mod 2 ^ 16 =? 0) eqn:E; cbn [fst snd]; [|split; [lia|apply U]].
  split; [|apply U].
  assert (M : forall x, u64 x mod 2 ^ 16 = x mod 2 ^ 16).
  { intros x. unfold u64. change (2 ^ 64) with (2 ^ 16 * 2 ^ 48).
    rewrite Z.rem_mul_r by lia. rewrite Z.mul_comm, Z_mod_plus_full, Z.mod_mod by lia. done. }
  rewrite M. rewrite Z.add_mod by lia.
  replace (u64 (g + 1) mod 2 ^ 16) with 0 by lia. done.
Qed.

Lemma ensurePacketId_spec h g : 0 <= g ->
  let '(h', g') := ensurePacketId h g in
  zlen (rd h' (packetId h')) = 2 /\ PacketId h' <> 0 /\ remlen h' = remlen h /\ 0 <= g' /\
  (dirty h = true -> dirty h' = true) /\
  (refs_apart h -> rd h' (mtypeflags h') = rd h (mtypeflags h)) /\ (refs_apart h -> refs_apart h').
Proof.
  intros Hg. unfold ensurePacketId. destruct (PacketId h =? 0) eqn:E.
  - destruct (allocPacketId g) as [g' v] eqn:Ea.
    pose proof (allocPacketId_range g Hg) as [Hv Hg']. rewrite Ea in Hv, Hg'. cbn [fst snd] in *.
    assert (Hrd := rd_SetPacketId h v ltac:(lia)).
    split; [by rewrite Hrd|]. split; [rewrite (PacketId_be16 _ v) by (done || lia); lia|].
    split; [apply remlen_SetPacketId|]. split; [lia|]. split; [apply dirty_SetPacketId|].
    split; [apply rd_mtf_SetPacketId|apply refs_apart_SetPacketId].
  - split; [|split; [lia|done]]. unfold PacketId in E.
    destruct (rd h (packetId h)) as [|x [|y [|z l]]]; done.
Qed.

Lemma with_remlen_ensure h g n :
  ensurePacketId (with_remlen n h) g
  = (with_remlen n (fst (ensurePacketId h g)), snd (ensurePacketId h g)).
Proof.
  unfold ensurePacketId. change (PacketId (with_remlen n h)) with (PacketId h).
  destruct (PacketId h =? 0); [|done]. destruct (allocPacketId g) as [g' v]. cbn [fst snd]. f_equal.
  unfold SetPacketId, store_packetId. destruct (v =? 0); [done|].
  change (rd (with_remlen n h) (packetId (with_remlen n h))) with (rd h (packetId h)).
  destruct (rd h (packetId h)) as [|x [|y [|z l]]]; try done.
  cbn [with_remlen packetId]. by destruct (packetId h).
Qed.

(** The identifier counter never yields 0, the value that means no
    identifier, not even where its low sixteen bits wrap around. *)
Theorem packet_id_never_zero g :
  0 <= g -> let '(g', v) := allocPacketId g in 1 <= v < 2 ^ 16 /\ 0 <= g'.
Proof.
  intros Hg. pose proof (allocPacketId_range g Hg). by destruct (allocPacketId g).
Qed.

Lemma packet_id_never_zero_witness : 1 <= 1 < 2 ^ 16 /\ 0 <= 65537.
Proof. exact (packet_id_never_zero 65535 ltac:(lia)). Defined.

