(* ===== verification/TopicList.v ===== *)
(** * TopicList: the topic lists of SUBSCRIBE and UNSUBSCRIBE

    The search and the removal both packets write out in [AddTopic] and
    [RemoveTopic] ([message/subscribe.go], [message/unsubscribe.go]). *)
From stdpp Require Import base list strings.
From Stdlib Require Import ZArith Lia.
From S2P Require Import Prelude GoLang.

(** [for i, t = range this.topics { if bytes.Equal(t, topic) { found = true; break } }] *)
Fixpoint find_topic (ts : list (list Z)) (topic : list Z) : option nat :=
  match ts with
  | [] => None
  | t :: ts => if bool_decide (t = topic) then Some 0%nat else S <$> find_topic ts topic
  end.

(** [append(l[:i], l[i+1:]...)] *)
Definition remove_at {A} (l : list A) (i : nat) : outcome (list A) :=
  if Z.of_nat i + 1 <=? zlen l then Ret (take i l ++ drop (S i) l) else Panic SliceBounds.

Lemma remove_at_mid {A} (a b : list A) x : remove_at (a ++ x :: b) (length a) = Ret (a ++ b).
Proof.
  unfold remove_at. guard_true. rewrite take_app_length. do 2 f_equal.
  replace (S (length a)) with (length a + 1)%nat by lia. by rewrite <- drop_drop, drop_app_length.
Qed.

Lemma find_topic_split ts t :
  match find_topic ts t with
  | Some i => exists a b, ts = a ++ t :: b /\ i = length a /\ t ∉ a
  | None => t ∉ ts
  end.
Proof.
  induction ts as [|u ts IH]; [by apply not_elem_of_nil|]. cbn [find_topic]. case_bool_decide as Hut.
  - subst. exists [], ts. split_and!; [done..|]. by apply not_elem_of_nil.
  - destruct (find_topic ts t) as [i|]; cbn [fmap option_fmap option_map].
    + destruct IH as (a & b & -> & -> & Ha). exists (u :: a), b. split_and!; [done..|].
      apply not_elem_of_cons. done.
    + apply not_elem_of_cons. done.
Qed.

Lemma existsb_topic (ts : list (list Z)) t : existsb (fun u => bool_decide (u = t)) ts = bool_decide (t ∈ ts).
Proof.
  apply eq_true_iff_eq. rewrite existsb_exists, bool_decide_eq_true. split.
  - intros (u & Hin & ->%bool_decide_eq_true_1). by apply list_elem_of_In.
  - intros H. exists t. split; [by apply list_elem_of_In|]. by apply bool_decide_eq_true_2.
Qed.
