(* ===== verification/Pow2.v ===== *)
(** * Pow2: powers of two and the masked index of a ring

    [powerOfTwo64] and [roundUpPowerOfTwo64] of [sessions/ackqueue.go]; the same
    two functions stand in [service/buffer.go].  Both rings find the slot of a
    position by masking it with the size less one. *)
From stdpp Require Import base list.
From Stdlib Require Import ZArith Lia.
From S2P Require Import Prelude GoLang.

Definition powerOfTwo64 (n : Z) : bool := negb (n =? 0) && (Z.land n (i64 (n - 1)) =? 0).

Definition roundUpPowerOfTwo64 (n : Z) : Z :=
  let n := i64 (n - 1) in
  let n := Z.lor n (Z.shiftr n 1) in
  let n := Z.lor n (Z.shiftr n 2) in
  let n := Z.lor n (Z.shiftr n 4) in
  let n := Z.lor n (Z.shiftr n 8) in
  let n := Z.lor n (Z.shiftr n 16) in
  let n := Z.lor n (Z.shiftr n 32) in
  i64 (n + 1).

Definition is_pow2 (n : Z) : Prop := exists k, 0 <= k <= 62 /\ n = 2 ^ k.

Lemma is_pow2_pos n : is_pow2 n -> 0 < n <= 2 ^ 62.
Proof.
  intros (k & Hk & ->). split; [apply Z.pow_pos_nonneg; lia|]. apply Z.pow_le_mono_r; lia.
Qed.

(** the smallest [n] of the form [2^k - 1] above the bits of a positive number:
    [or]-ing in the shifts by 1, 2, ..., 32 fills every bit below the top one *)
Definition smear (n s : Z) : Z := Z.lor n (Z.shiftr n s).

(** the bits [top-w+1 .. top] are set and nothing above [top] is *)
Definition top_run (n top w : Z) : Prop :=
  0 <= n /\ (forall i, top < i -> Z.testbit n i = false) /\
  (forall i, 0 <= i -> top - w < i <= top -> Z.testbit n i = true).

Lemma smear_run n top w : 0 <= w -> 0 <= top -> top_run n top w -> top_run (smear n w) top (2 * w).
Proof.
  intros Hw Ht (Hn & Hhi & Hlo). unfold smear. split_and!.
  - apply Z.lor_nonneg. split; [done|]. by apply Z.shiftr_nonneg.
  - intros i Hi. rewrite Z.lor_spec, Z.shiftr_spec by lia. rewrite !Hhi by lia. done.
  - intros i Hi1 Hi2. rewrite Z.lor_spec, Z.shiftr_spec by lia.
    destruct (Z_lt_dec (top - w) i); [rewrite Hlo by lia; done|].
    rewrite (Hlo (i + w)) by lia. apply orb_true_r.
Qed.

Lemma run_full n top w : 0 <= top < w -> top_run n top w -> n = 2 ^ (top + 1) - 1.
Proof.
  intros Ht (Hn & Hhi & Hlo). rewrite Z.sub_1_r, <- Z.ones_equiv.
  apply Z.bits_inj'. intros i Hi. destruct (Z_le_dec i top).
  - rewrite Hlo by lia. rewrite Z.ones_spec_low by lia. done.
  - rewrite Hhi by lia. rewrite Z.ones_spec_high by lia. done.
Qed.

Lemma run_log2 n : 0 < n -> top_run n (Z.log2 n) 1.
Proof.
  intros Hn. split_and!; [lia| |].
  - intros i Hi. apply Z.bits_above_log2; lia.
  - intros i Hi1 Hi2. replace i with (Z.log2 n) by lia. by apply Z.bit_log2.
Qed.

Lemma round_up_pow2_least n :
  1 <= n <= 2 ^ 62 ->
  is_pow2 (roundUpPowerOfTwo64 n) /\ n <= roundUpPowerOfTwo64 n /\
  (forall k, 0 <= k -> n <= 2 ^ k -> roundUpPowerOfTwo64 n <= 2 ^ k).
Proof.
  intros Hn.
  assert (E : roundUpPowerOfTwo64 n = if n =? 1 then 1 else 2 ^ (Z.log2 (n - 1) + 1)).
  { unfold roundUpPowerOfTwo64. rewrite (i64_small (n - 1)) by lia. destruct (n =? 1) eqn:E1.
    - replace n with 1 by lia. reflexivity.
    - set (t := Z.log2 (n - 1)).
      assert (Ht : 0 <= t < 62).
      { split; [apply Z.log2_nonneg|]. apply (proj1 (Z.log2_lt_pow2 (n - 1) 62 ltac:(lia))). lia. }
      pose proof (run_log2 (n - 1) ltac:(lia)) as H. fold t in H.
      apply (smear_run _ t 1) in H; [|lia..]. apply (smear_run _ t 2) in H; [|lia..].
      apply (smear_run _ t 4) in H; [|lia..]. apply (smear_run _ t 8) in H; [|lia..].
      apply (smear_run _ t 16) in H; [|lia..]. apply (smear_run _ t 32) in H; [|lia..].
      apply run_full in H; [|lia]. unfold smear in H. cbv zeta. rewrite H.
      assert (2 ^ (t + 1) <= 2 ^ 62) by (apply Z.pow_le_mono_r; lia).
      rewrite i64_small by lia. lia. }
  rewrite E. destruct (n =? 1) eqn:E1.
  - split_and!; [exists 0; lia|lia|]. intros k Hk _. pose proof (Z.pow_pos_nonneg 2 k). lia.
  - pose proof (Z.log2_spec (n - 1) ltac:(lia)) as [H1 H2]. rewrite Z.pow_succ_r in H2 by apply Z.log2_nonneg.
    assert (Hb : Z.log2 (n - 1) < 62) by (apply (proj1 (Z.log2_lt_pow2 (n - 1) 62 ltac:(lia))); lia).
    pose proof (Z.log2_nonneg (n - 1)).
    split_and!; [exists (Z.log2 (n - 1) + 1); lia| |].
    + rewrite Z.pow_add_r by lia. lia.
    + intros k Hk Hnk. apply Z.pow_le_mono_r; [lia|].
      assert (Z.log2 (n - 1) < k) by (apply (proj1 (Z.log2_lt_pow2 (n - 1) k ltac:(lia))); lia). lia.
Qed.

Lemma powerOfTwo64_wide n : 1 <= n < 2 ^ 63 -> powerOfTwo64 n = true -> is_pow2 n.
Proof.
  intros Hn. unfold powerOfTwo64. rewrite i64_small by lia. intros [_ E]%andb_true_iff.
  apply Z.eqb_eq in E. exists (Z.log2 n).
  pose proof (Z.log2_spec n ltac:(lia)) as [H1 H2]. rewrite Z.pow_succ_r in H2 by apply Z.log2_nonneg.
  pose proof (Z.log2_nonneg n). assert (Z.log2 n < 63) by (apply Z.log2_lt_pow2; lia).
  split; [lia|]. destruct (Z.eq_dec n (2 ^ Z.log2 n)) as [|Hne]; [done|exfalso].
  assert (Hl : Z.log2 (n - 1) = Z.log2 n) by (apply Z.log2_unique; [lia|]; rewrite Z.pow_succ_r; lia).
  assert (Hb : Z.testbit (Z.land n (n - 1)) (Z.log2 n) = true).
  { rewrite Z.land_spec. rewrite Z.bit_log2 by lia. rewrite <- Hl at 1. rewrite Z.bit_log2 by lia. done. }
  by rewrite E, Z.bits_0 in Hb.
Qed.

Lemma powerOfTwo64_spec n : 1 <= n <= 2 ^ 62 -> powerOfTwo64 n = true -> is_pow2 n.
Proof. intros Hn. apply powerOfTwo64_wide. lia. Qed.

(** [roundUpPowerOfTwo64] returns the least power of two that is not below
    its argument, for every argument up to [2^62]: the six shifts and the
    [int64] arithmetic lose nothing. *)
Theorem round_up_power_of_two n :
  1 <= n <= 2 ^ 62 ->
  is_pow2 (roundUpPowerOfTwo64 n) /\ n <= roundUpPowerOfTwo64 n /\
  (forall k, 0 <= k -> n <= 2 ^ k -> roundUpPowerOfTwo64 n <= 2 ^ k).
Proof. apply round_up_pow2_least. Qed.

Lemma round_up_power_of_two_witness :
  roundUpPowerOfTwo64 1000 = 1024 /\ 1000 <= roundUpPowerOfTwo64 1000.
Proof.
  split; [reflexivity|]. exact (proj1 (proj2 (round_up_power_of_two 1000 ltac:(lia)))).
Defined.

(** ** Masking is reduction modulo the size *)

Lemma land_mask s n : is_pow2 s -> Z.land n (s - 1) = n mod s.
Proof.
  intros (k & Hk & ->). rewrite Z.sub_1_r, <- Z.ones_equiv. by rewrite Z.land_ones by lia.
Qed.

Lemma mod_small_diff a s : 0 < s -> 0 <= a < s -> a mod s = 0 -> a = 0.
Proof. intros Hs Ha H. by rewrite Z.mod_small in H. Qed.

(** two positions less than the size apart never share a slot *)
Lemma mod_window_inj a b s : 0 < s -> - s < a - b < s -> a mod s = b mod s -> a = b.
Proof.
  intros Hs Hd E.
  assert (Hw : forall x y, 0 <= y - x < s -> x mod s = y mod s -> x = y).
  { intros x y Hxy Exy. assert (Hz : (y - x) mod s = 0).
    { rewrite Zminus_mod, Exy, Z.sub_diag. by apply Z.mod_0_l; lia. }
    apply mod_small_diff in Hz; lia. }
  destruct (Z_le_dec a b); [apply Hw; [lia|done]|symmetry; apply Hw; [lia|done]].
Qed.
