(* ===== verification/Puback.v ===== *)
(** * Puback: the two-byte acknowledgements

    [puback.go], and [pubrec.go], [pubrel.go], [pubcomp.go], [unsuback.go],
    whose structs embed [PubackMessage] and take all of its methods. *)
From stdpp Require Import base list strings.
From Stdlib Require Import ZArith Lia.
From S2P Require Import Prelude GoLang MsgTypes Header.

(** The struct has the embedded header only. *)
Abbreviation PubackMessage := header.

Definition NewPubackMessage : PubackMessage := fst (SetType zero_header PUBACK).
Definition NewPubrecMessage : PubackMessage := fst (SetType zero_header PUBREC).
Definition NewPubrelMessage : PubackMessage := fst (SetType zero_header PUBREL).
Definition NewPubcompMessage : PubackMessage := fst (SetType zero_header PUBCOMP).
Definition NewUnsubackMessage : PubackMessage := fst (SetType zero_header UNSUBACK).

Definition msglen (m : PubackMessage) : Z := 2.

Definition Len (m : PubackMessage) : PubackMessage * Z := len_with m (msglen m).

Definition Decode (m : PubackMessage) (src : slice) : outcome (PubackMessage * Z * option error) :=
  let total := 0 in
  let! s := slice_from src total in
  let! (m, n, err) := decode m s in
  let total := total + n in
  match err with
  | Some e => Ret (m, total, Some e)
  | None =>
      let! _ := slice_range src total (total + 2) in
      let m := with_packetId (Sub (Z.to_nat total) 2) m in
      let total := total + 2 in
      Ret (with_dirty false m, total, None)
  end.

Definition Encode (m : PubackMessage) (dst : list Z)
  : outcome (PubackMessage * list Z * Z * option error) :=
  if negb (dirty m) then
    let! (dst, n, err) := encode_clean "puback" m dst in Ret (m, dst, n, err)
  else
    let hl := Header.msglen m in
    let ml := msglen m in
    if zlen dst <? hl + ml then
      Ret (m, dst, 0, Some (Errorf "puback/Encode: Insufficient buffer size. Expecting %d, got %d."
                                   [AInt (hl + ml); AInt (zlen dst)]))
    else
      match SetRemainingLength m (i32 ml) with
      | (m, Some e) => Ret (m, dst, 0, Some e)
      | (m, None) =>
          let total := 0 in
          let! (m, dst, n, err) := encode m dst in
          let total := total + n in
          match err with
          | Some e => Ret (m, dst, total, Some e)
          | None =>
              let! dst := put_packetId m dst total in
              let total := total + 2 in
              Ret (m, dst, total, None)
          end
      end.

(** ** Wire form *)

Definition ack_byte (t : Z) : Z := Z.lor (u8 (Z.shiftl t 4)) (Z.land (DefaultFlags t) 15).
Definition ack_wire (t v : Z) : list Z := hdr_wire (ack_byte t) 2 ++ be16 v.

(** the packet types whose message is a [PubackMessage] *)
Definition ack_type (t : Z) : bool :=
  (t =? PUBACK) || (t =? PUBREC) || (t =? PUBREL) || (t =? PUBCOMP) || (t =? UNSUBACK).

Lemma ack_type_inv t : ack_type t = true -> t = 4 \/ t = 5 \/ t = 6 \/ t = 7 \/ t = 11.
Proof. unfold ack_type, PUBACK, PUBREC, PUBREL, PUBCOMP, UNSUBACK. lia. Qed.

(** one goal per acknowledgement type *)
Ltac ack_cases H := destruct (ack_type_inv _ H) as [->|[->|[->|[->| ->]]]].

Lemma ack_byte_ok t : ack_type t = true ->
  hdr_byte_ok (ack_byte t) = true /\ Z.shiftr (ack_byte t) 4 = t.
Proof. intros H. by ack_cases H. Qed.

Lemma zlen_ack_wire t v : zlen (ack_wire t v) = 4.
Proof. reflexivity. Qed.

Lemma puback_Encode_spec m b id dst :
  dirty m = true -> rd m (mtypeflags m) = [b] -> Valid (Z.shiftr b 4) = true ->
  rd m (packetId m) = id -> zlen id = 2 -> Header.msglen m + 2 <= zlen dst ->
  Encode m dst
  = Ret (with_remlen 2 m, (hdr_wire b 2 ++ id) ++ drop 4 dst, 4, None).
Proof.
  intros Hd Hb Hv Hid Hl Hdst. pose proof (msglen_bounds m).
  unfold Encode, msglen. rewrite Hd. cbn [negb]. guard_false.
  change (i32 2) with 2. rewrite SetRemainingLength_ok by (split; [lia|done]).
  set (m' := with_dirty true (with_remlen 2 m)).
  assert (Hm' : m' = with_remlen 2 m) by (unfold m', with_dirty, with_remlen; simpl; by rewrite Hd).
  rewrite (encode_spec m' b dst); [|rewrite Hm'; exact Hb|done|rewrite Hm'; split; [done|done]|].
  2: { rewrite Hm'. change (Header.msglen (with_remlen 2 m)) with 2. lia. }
  rewrite bindO_ret. rewrite Hm'. change (remlen (with_remlen 2 m)) with 2.
  change (Header.msglen (with_remlen 2 m)) with (zlen (hdr_wire b 2)).
  change (length (hdr_wire b 2)) with 2%nat.
  rewrite Z.add_0_l. rewrite (put_packetId_spec _ _ _ id); [|done|done|zl].
  rewrite bindO_ret. rewrite drop_drop, <- app_assoc. done.
Qed.

Lemma puback_Decode_spec m b0 b hi lo rest sp :
  rd m (mtypeflags m) = [b0] -> Z.shiftr b0 4 = Z.shiftr b 4 -> hdr_byte_ok b = true ->
  let src := Slice (hdr_wire b 2 ++ [hi; lo] ++ rest) sp in
  Decode m src = Ret (mkHeader 2 (Sub 0 1) (Sub 2 2) src false, 4, None).
Proof.
  intros Hb0 Ht Hb src. unfold Decode.
  pose proof (slice_from_app [] (hdr_wire b 2 ++ [hi; lo] ++ rest) sp 0 eq_refl) as Hs. cbn [app] in Hs.
  unfold src. cbn [app]. rewrite Hs, bindO_ret.
  rewrite (decode_spec m b0 b 2 (hi :: lo :: rest) sp) by (done || zl || (split; done)).
  rewrite bindO_ret. change (0 + zlen (hdr_wire b 2)) with 2.
  pose proof (slice_range_app (hdr_wire b 2) [hi; lo] rest sp 2 4 eq_refl eq_refl) as Hr.
  cbn [app] in Hr. change (2 + 2) with 4. rewrite Hr. done.
Qed.

(** The state of an acknowledgement being sent: fresh of its type, with an
    identifier set. *)
Definition new_ack (t v : Z) : PubackMessage := SetPacketId (fst (SetType zero_header t)) v.

Lemma new_ack_fields t v : ack_type t = true -> v <> 0 ->
  dirty (new_ack t v) = true /\ rd (new_ack t v) (mtypeflags (new_ack t v)) = [ack_byte t] /\
  rd (new_ack t v) (packetId (new_ack t v)) = be16 v /\ remlen (new_ack t v) = 0.
Proof.
  intros Ht Hv. unfold new_ack.
  split; [apply dirty_SetPacketId; by ack_cases Ht|].
  split; [rewrite rd_mtf_SetPacketId; by ack_cases Ht|].
  split; [by apply rd_SetPacketId|]. rewrite remlen_SetPacketId. by ack_cases Ht.
Qed.

(** Every acknowledgement packet survives the wire: a fresh PUBACK, PUBREC,
    PUBREL, PUBCOMP or UNSUBACK with identifier [v] reports four bytes, encodes
    to them at the front of any large enough buffer, and a fresh message of the
    type decodes them (whatever follows in the buffer) to the identifier [v]. *)
Theorem ack_roundtrip t v dst rest sp :
  ack_type t = true -> 0 < v < 2 ^ 16 -> 4 <= zlen dst ->
  snd (Len (new_ack t v)) = 4 /\
  (exists m', Encode (new_ack t v) dst = Ret (m', ack_wire t v ++ drop 4 dst, 4, None)) /\
  (exists m', Decode (fst (SetType zero_header t)) (Slice (ack_wire t v ++ rest) sp)
              = Ret (m', 4, None) /\
              PacketId m' = v /\ snd (Type_ m') = t /\ dirty m' = false).
Proof.
  intros Ht Hv Hdst.
  destruct (new_ack_fields t v Ht) as (Hd & Hb & Hid & Hr); [lia|].
  destruct (ack_byte_ok t Ht) as [Hok Hty].
  split; [unfold Len; rewrite len_with_dirty by (done || (split; done)); done|]. split.
  - exists (with_remlen 2 (new_ack t v)).
    rewrite (puback_Encode_spec _ (ack_byte t) (be16 v)); try done.
    + by destruct (hdr_wire_decode_guard _ Hok) as [? _].
    + change (Header.msglen (new_ack t v)) with (Header.msglen (mkHeader (remlen (new_ack t v)) (Own []) (Own []) (mkslice []) true)).
      rewrite Hr. unfold Header.msglen. simpl. lia.
  - unfold ack_wire. rewrite <- app_assoc. eexists. split; [|split; [|split]].
    + apply (puback_Decode_spec _ (ack_byte t)); [|done|done]. by ack_cases Ht.
    + apply PacketId_be16; [lia|done].
    + rewrite (Type_one _ (ack_byte t)) by done. done.
    + done.
Qed.

(** Witness: a PUBREL for packet 258 in a five-byte buffer. *)
Lemma ack_roundtrip_witness :
  snd (Len (new_ack PUBREL 258)) = 4 /\
  (exists m', Encode (new_ack PUBREL 258) [9;9;9;9;9] = Ret (m', [98; 2; 1; 2; 9], 4, None)).
Proof.
  destruct (ack_roundtrip PUBREL 258 [9;9;9;9;9] [] []) as (H1 & H2 & _);
    [reflexivity|lia|vm_compute; discriminate|].
  split; [exact H1|exact H2].
Defined.
