(* ===== verification/Disconnect.v ===== *)
(** * Disconnect: packets with no body

    [disconnect.go], and [pingreq.go] and [pingresp.go], whose structs embed
    [DisconnectMessage]. *)
From stdpp Require Import base list strings.
From Stdlib Require Import ZArith Lia.
From S2P Require Import Prelude GoLang MsgTypes Header.

Abbreviation DisconnectMessage := header.

Definition NewDisconnectMessage : DisconnectMessage := fst (SetType zero_header DISCONNECT).
Definition NewPingreqMessage : DisconnectMessage := fst (SetType zero_header PINGREQ).
Definition NewPingrespMessage : DisconnectMessage := fst (SetType zero_header PINGRESP).

(** [Len] is the header's: the fixed header alone. *)
Definition Len (m : DisconnectMessage) : Z := Header.Len m.

(** Decoding leaves the [dirty] flag as it is. *)
Definition Decode (m : DisconnectMessage) (src : slice)
  : outcome (DisconnectMessage * Z * option error) :=
  decode m src.

Definition Encode (m : DisconnectMessage) (dst : list Z)
  : outcome (DisconnectMessage * list Z * Z * option error) :=
  if negb (dirty m) then
    let! (dst, n, err) := encode_clean "disconnect" m dst in Ret (m, dst, n, err)
  else encode m dst.

Definition bare_type (t : Z) : bool := (t =? PINGREQ) || (t =? PINGRESP) || (t =? DISCONNECT).

Lemma bare_type_inv t : bare_type t = true -> t = 12 \/ t = 13 \/ t = 14.
Proof. unfold bare_type, PINGREQ, PINGRESP, DISCONNECT. lia. Qed.

Lemma bare_new_fields t : bare_type t = true ->
  let m := fst (SetType zero_header t) in
  rd m (mtypeflags m) = [16 * t] /\ dirty m = true /\ remlen m = 0 /\
  hdr_byte_ok (16 * t) = true /\ Z.shiftr (16 * t) 4 = t.
Proof. intros H. by destruct (bare_type_inv t H) as [->|[->| ->]]. Qed.

(** PINGREQ, PINGRESP and DISCONNECT are the two bytes [type<<4, 0]: a fresh
    message encodes to them, and decodes them from the front of any buffer. *)
Theorem bare_roundtrip t dst rest sp :
  bare_type t = true -> 2 <= zlen dst ->
  let m := fst (SetType zero_header t) in
  Len m = 2 /\
  Encode m dst = Ret (m, [16 * t; 0] ++ drop 2 dst, 2, None) /\
  exists m', Decode m (Slice ([16 * t; 0] ++ rest) sp) = Ret (m', 2, None) /\
             snd (Type_ m') = t /\ remlen m' = 0.
Proof.
  intros Ht Hdst m. destruct (bare_new_fields t Ht) as (Hb & Hd & Hr & Hok & Hty). fold m in Hb, Hd, Hr.
  assert (Hm : Header.msglen m = 2) by (unfold msglen; by rewrite Hr).
  assert (Hw : [16 * t; 0] = hdr_wire (16 * t) 0) by done.
  split; [done|]. split.
  - unfold Encode. rewrite Hd. cbn [negb].
    rewrite (encode_spec m (16 * t)); [|done| |by rewrite Hr|lia].
    + by rewrite Hr, Hm, Hw.
    + by destruct (hdr_wire_decode_guard _ Hok).
  - rewrite Hw. unfold Decode. rewrite (decode_spec m (16 * t)); [|done|done|done|done|zl].
    eexists. split; [done|]. by rewrite (Type_one _ (16 * t)).
Qed.

Lemma bare_roundtrip_witness :
  Encode NewPingrespMessage [7; 7] = Ret (NewPingrespMessage, [208; 0], 2, None).
Proof.
  destruct (bare_roundtrip PINGRESP [7; 7] [] []) as (_ & H & _);
    [reflexivity|vm_compute; discriminate|]. exact H.
Defined.
