(* ===== verification/Connack.v ===== *)
(** * Connack: the CONNACK packet ([message/connack.go]) *)
From stdpp Require Import base list strings.
From Stdlib Require Import ZArith Lia.
From S2P Require Import Prelude GoLang MsgTypes Header.

Record ConnackMessage : Type := mkConnack {
  hdr : header;
  sessionPresent : bool;
  returnCode : Z          (* ConnackCode, uint64 *)
}.

Definition with_hdr (h : header) (m : ConnackMessage) : ConnackMessage :=
  mkConnack h (sessionPresent m) (returnCode m).

Definition NewConnackMessage : ConnackMessage :=
  mkConnack (fst (SetType zero_header CONNACK)) false 0.

Definition SessionPresent (m : ConnackMessage) : bool := sessionPresent m.

Definition SetSessionPresent (m : ConnackMessage) (v : bool) : ConnackMessage :=
  mkConnack (with_dirty true (hdr m)) (if v then true else false) (returnCode m).

Definition ReturnCode (m : ConnackMessage) : Z := returnCode m.

Definition SetReturnCode (m : ConnackMessage) (ret : Z) : ConnackMessage :=
  mkConnack (with_dirty true (hdr m)) (sessionPresent m) ret.

Definition msglen (m : ConnackMessage) : Z := 2.

Definition Len (m : ConnackMessage) : ConnackMessage * Z :=
  let '(h, n) := len_with (hdr m) (msglen m) in (with_hdr h m, n).

Definition Decode (m : ConnackMessage) (src : slice)
  : outcome (ConnackMessage * Z * option error) :=
  let total := 0 in
  let! (h, n, err) := decode (hdr m) src in
  let m := with_hdr h m in
  let total := total + n in
  match err with
  | Some e => Ret (m, total, Some e)
  | None =>
      let! b := index (vis src) total in
      if negb (Z.land b 254 =? 0) then
        Ret (m, 0, Some (Errorf "connack/Decode: Bits 7-1 in Connack Acknowledge Flags byte (1) are not 0" []))
      else
        let m := mkConnack (hdr m) (Z.land b 1 =? 1) (returnCode m) in
        let total := total + 1 in
        let! b := index (vis src) total in
        if 5 <? b then
          Ret (m, 0, Some (Errorf "connack/Decode: Invalid CONNACK return code (%d)" [AInt b]))
        else
          let m := mkConnack (hdr m) (sessionPresent m) b in
          let total := total + 1 in
          Ret (with_hdr (with_dirty false (hdr m)) m, total, None)
  end.

Definition Encode (m : ConnackMessage) (dst : list Z)
  : outcome (ConnackMessage * list Z * Z * option error) :=
  if negb (dirty (hdr m)) then
    let! (dst, n, err) := encode_clean "connack" (hdr m) dst in Ret (m, dst, n, err)
  else
    let hl := Header.msglen (hdr m) in
    let ml := msglen m in
    if zlen dst <? hl + ml then
      Ret (m, dst, 0, Some (Errorf "connack/Encode: Insufficient buffer size. Expecting %d, got %d."
                                   [AInt (hl + ml); AInt (zlen dst)]))
    else
      match SetRemainingLength (hdr m) (i32 ml) with
      | (h, Some e) => Ret (with_hdr h m, dst, 0, Some e)
      | (h, None) =>
          let total := 0 in
          let! (h, dst, n, err) := encode h dst in
          let m := with_hdr h m in
          let total := total + n in
          match err with
          | Some e => Ret (m, dst, 0, Some e)
          | None =>
              (* the flags byte is stored only when the session is present *)
              let! dst := (if sessionPresent m then put dst total [1] else Ret dst) in
              let total := total + 1 in
              let! dst := put dst total [Code_Value (returnCode m)] in
              let total := total + 1 in
              Ret (m, dst, total, None)
          end
      end.

(** ** Wire form *)

Definition connack_wire (flags code : Z) : list Z := hdr_wire 32 2 ++ [flags; code].

Lemma connack_Encode_spec m dst d0 d1 d2 d3 rest :
  dirty (hdr m) = true -> rd (hdr m) (mtypeflags (hdr m)) = [32] ->
  Header.msglen (hdr m) = 2 -> dst = d0 :: d1 :: d2 :: d3 :: rest ->
  Encode m dst
  = Ret (with_hdr (with_remlen 2 (hdr m)) m,
         connack_wire (if sessionPresent m then 1 else d2) (Code_Value (returnCode m)) ++ rest,
         4, None).
Proof.
  intros Hd Hb Hhl ->. unfold Encode, msglen. rewrite Hd, Hhl. cbn [negb]. guard_false.
  change (i32 2) with 2. rewrite SetRemainingLength_ok by (split; done).
  replace (with_dirty true (with_remlen 2 (hdr m))) with (with_remlen 2 (hdr m))
    by (unfold with_dirty, with_remlen; simpl; by rewrite Hd).
  rewrite (encode_spec _ 32) by (done || (split; done) || (unfold msglen; cbn; zl)).
  rewrite bindO_ret. change (0 + Header.msglen (with_remlen 2 (hdr m))) with 2.
  change (hdr_wire 32 (remlen (with_remlen 2 (hdr m)))) with [32; 2].
  cbn [length drop app sessionPresent with_hdr returnCode].
  assert (P : forall c dd, put [32; 2; dd; d3] 3 [c] = Ret [32; 2; dd; c]) by done.
  destruct (sessionPresent m).
  - pose proof (put_app [32; 2] (d2 :: d3 :: rest) [1] 2 eq_refl) as H1. cbn [app length drop] in H1.
    rewrite H1 by zl. rewrite bindO_ret. change (2 + 1) with 3.
    pose proof (put_app [32; 2; 1] (d3 :: rest) [Code_Value (returnCode m)] 3 eq_refl) as H2.
    cbn [app length drop] in H2. rewrite H2 by zl. done.
  - rewrite bindO_ret. change (2 + 1) with 3.
    pose proof (put_app [32; 2; d2] (d3 :: rest) [Code_Value (returnCode m)] 3 eq_refl) as H2.
    cbn [app length drop] in H2. rewrite H2 by zl. done.
Qed.

Lemma connack_Decode_spec m flags code rest sp :
  rd (hdr m) (mtypeflags (hdr m)) = [32] -> 0 <= flags <= 1 -> 0 <= code <= 5 ->
  let src := Slice (connack_wire flags code ++ rest) sp in
  Decode m src = Ret (mkConnack (mkHeader 2 (Sub 0 1) (Own (rd (hdr m) (packetId (hdr m)))) src false)
                        (flags =? 1) code, 4, None).
Proof.
  intros Hb Hf Hc src. unfold Decode, src, connack_wire. rewrite <- app_assoc.
  rewrite (decode_spec _ 32 32 2 ([flags; code] ++ rest) sp) by (done || zl || (split; done)).
  rewrite bindO_ret. cbn [vis]. change (0 + zlen (hdr_wire 32 2)) with (zlen (hdr_wire 32 2)).
  cbn [app]. rewrite (index_app (hdr_wire 32 2) flags (code :: rest)) by done. rewrite bindO_ret.
  replace (Z.land flags 254) with 0 by (assert (flags = 0 \/ flags = 1) as [-> | ->] by lia; done).
  replace (Z.land flags 1) with flags by (assert (flags = 0 \/ flags = 1) as [-> | ->] by lia; done).
  change (negb (0 =? 0)) with false. cbv iota.
  pose proof (index_app (hdr_wire 32 2 ++ [flags]) code rest (zlen (hdr_wire 32 2) + 1)) as H.
  rewrite <- app_assoc in H. cbn [app] in H. rewrite H by zl. rewrite bindO_ret. by guard_false.
Qed.

(** a reply being built: [NewConnackMessage] with its two setters *)
Definition reply (code : Z) (sp : bool) : ConnackMessage :=
  SetReturnCode (SetSessionPresent NewConnackMessage sp) code.

(** The CONNACK reply reaches the client as it was built, for the return codes
    the protocol defines: encoded into a zeroed four-byte buffer and decoded
    again, the code and the session-present flag are those that were set. *)
Theorem connack_roundtrip code sp sp' :
  0 <= code <= 5 ->
  exists m1 m2 dst,
    Encode (reply code sp) (replicate 4 0) = Ret (m1, dst, 4, None) /\
    Decode NewConnackMessage (Slice dst sp') = Ret (m2, 4, None) /\
    ReturnCode m2 = code /\ SessionPresent m2 = sp.
Proof.
  intros Hc. eexists _, _, _. split; [|split].
  - by rewrite (connack_Encode_spec _ _ 0 0 0 0 []).
  - replace (Code_Value (returnCode (reply code sp))) with code
      by (unfold Code_Value, reply; cbn; unfold u8; rewrite Z.mod_small; lia).
    apply connack_Decode_spec; [done|by destruct sp|done].
  - by destruct sp.
Qed.

Lemma connack_roundtrip_witness :
  exists m1 m2 dst, Encode (reply 4 true) (replicate 4 0) = Ret (m1, dst, 4, None) /\
    Decode NewConnackMessage (Slice dst []) = Ret (m2, 4, None) /\
    ReturnCode m2 = 4 /\ SessionPresent m2 = true.
Proof. apply (connack_roundtrip 4 true []). lia. Defined.

(** The codes above 5 that the package declares (the login and logout failures
    and the device checks) are encoded, but the decoder of the same package
    refuses the packet: every CONNACK with such a code that was encoded without
    a session is an error to [Decode]. *)
Theorem connack_high_codes_refused code sp' :
  6 <= code <= 11 ->
  exists m1 dst m2 e,
    Encode (reply code false) (replicate 4 0) = Ret (m1, dst, 4, None) /\
    Decode NewConnackMessage (Slice dst sp') = Ret (m2, 0, Some e).
Proof.
  intros Hc. eexists _, _, _, _. split; [by rewrite (connack_Encode_spec _ _ 0 0 0 0 [])|].
  replace (Code_Value (returnCode (reply code false))) with code
    by (unfold Code_Value, reply; cbn; unfold u8; rewrite Z.mod_small; lia).
  unfold Decode, connack_wire. cbn [sessionPresent reply SetReturnCode SetSessionPresent].
  rewrite app_nil_r.
  rewrite (decode_spec _ 32 32 2 [0; code] sp') by (done || zl || (split; done)).
  rewrite bindO_ret. cbn [vis]. change (0 + zlen (hdr_wire 32 2)) with (zlen (hdr_wire 32 2)).
  rewrite (index_app (hdr_wire 32 2) 0 [code]) by done. rewrite bindO_ret.
  change (negb (Z.land 0 254 =? 0)) with false. cbv iota.
  change (zlen (hdr_wire 32 2) + 1) with 3.
  rewrite (index_app (hdr_wire 32 2 ++ [0]) code []) by done. rewrite bindO_ret. guard_true. done.
Qed.

Lemma connack_high_codes_refused_witness :
  exists m1 dst m2 e, Encode (reply 6 false) (replicate 4 0) = Ret (m1, dst, 4, None) /\
    Decode NewConnackMessage (Slice dst []) = Ret (m2, 0, Some e).
Proof. apply (connack_high_codes_refused 6 []). lia. Defined.
