(* ===== verification/Suback.v ===== *)
(** * Suback: the SUBACK packet ([message/suback.go]) *)
From stdpp Require Import base list strings.
From Stdlib Require Import ZArith Lia.
From S2P Require Import Prelude GoLang MsgTypes Header.

Record SubackMessage : Type := mkSuback { hdr : header; returnCodes : list Z }.

Definition with_hdr (h : header) (m : SubackMessage) : SubackMessage := mkSuback h (returnCodes m).

Definition NewSubackMessage : SubackMessage := mkSuback (fst (SetType zero_header SUBACK)) [].

Definition ReturnCodes (m : SubackMessage) : list Z := returnCodes m.

(** the test both [AddReturnCodes], [Decode] and [Encode] make on a code *)
Definition bad_code (c : Z) : bool :=
  negb (c =? QosAtMostOnce) && negb (c =? QosAtLeastOnce)
  && negb (c =? QosExactlyOnce) && negb (c =? QosFailure).

(** The codes before an invalid one stay appended. *)
Fixpoint add_codes (codes ret : list Z) : list Z * option error :=
  match ret with
  | [] => (codes, None)
  | c :: ret =>
      if bad_code c then
        (codes, Some (Errorf "suback/AddReturnCode: Invalid return code %d. Must be 0, 1, 2, 0x80." [AInt c]))
      else add_codes (codes ++ [c]) ret
  end.

Definition AddReturnCodes (m : SubackMessage) (ret : list Z) : SubackMessage * option error :=
  match add_codes (returnCodes m) ret with
  | (codes, Some e) => (mkSuback (hdr m) codes, Some e)
  | (codes, None) => (mkSuback (with_dirty true (hdr m)) codes, None)
  end.

Definition AddReturnCode (m : SubackMessage) (ret : Z) : SubackMessage * option error :=
  AddReturnCodes m [ret].

Definition msglen (m : SubackMessage) : Z := 2 + zlen (returnCodes m).

Definition Len (m : SubackMessage) : SubackMessage * Z :=
  let '(h, n) := len_with (hdr m) (msglen m) in (with_hdr h m, n).

(** the loop over the codes with its index; [None] when all are valid *)
Fixpoint check_codes (site : string) (i : Z) (codes : list Z) : option error :=
  match codes with
  | [] => None
  | c :: codes =>
      if bad_code c then Some (Errorf (site +:+ ": Invalid return code %d for topic %d") [AInt c; AInt i])
      else check_codes site (i + 1) codes
  end.

Definition Decode (m : SubackMessage) (src : slice) : outcome (SubackMessage * Z * option error) :=
  let total := 0 in
  let! s := slice_from src total in
  let! (h, hn, err) := decode (hdr m) s in
  let m := with_hdr h m in
  let total := total + hn in
  match err with
  | Some e => Ret (m, total, Some e)
  | None =>
      let! _ := slice_range src total (total + 2) in
      let m := with_hdr (with_packetId (Sub (Z.to_nat total) 2) (hdr m)) m in
      let total := total + 2 in
      let l := remlen (hdr m) - (total - hn) in
      let! s := slice_range src total (total + l) in
      let m := mkSuback (hdr m) (vis s) in
      let total := total + zlen (returnCodes m) in
      match check_codes "suback/Decode" 0 (returnCodes m) with
      | Some e => Ret (m, total, Some e)
      | None => Ret (with_hdr (with_dirty false (hdr m)) m, total, None)
      end
  end.

Definition Encode (m : SubackMessage) (dst : list Z)
  : outcome (SubackMessage * list Z * Z * option error) :=
  if negb (dirty (hdr m)) then
    let! (dst, n, err) := encode_clean "suback" (hdr m) dst in Ret (m, dst, n, err)
  else
    match check_codes "suback/Encode" 0 (returnCodes m) with
    | Some e => Ret (m, dst, 0, Some e)
    | None =>
        let hl := Header.msglen (hdr m) in
        let ml := msglen m in
        if zlen dst <? hl + ml then
          Ret (m, dst, 0, Some (Errorf "suback/Encode: Insufficient buffer size. Expecting %d, got %d."
                                       [AInt (hl + ml); AInt (zlen dst)]))
        else
          match SetRemainingLength (hdr m) (i32 ml) with
          | (h, Some e) => Ret (with_hdr h m, dst, 0, Some e)
          | (h, None) =>
              let total := 0 in
              let! (h, dst, n, err) := encode h dst in
              let m := with_hdr h m in
              let total := total + n in
              match err with
              | Some e => Ret (m, dst, total, Some e)
              | None =>
                  let! dst := put_packetId (hdr m) dst total in
                  let total := total + 2 in
                  let! (dst, _) := gocopy dst total (returnCodes m) in
                  let total := total + zlen (returnCodes m) in
                  Ret (m, dst, total, None)
              end
          end
    end.

(** ** Wire form *)

Definition suback_wire (id codes : list Z) : list Z :=
  hdr_wire 144 (2 + zlen codes) ++ id ++ codes.

Definition code_ok (c : Z) : Prop := bad_code c = false.

Lemma check_codes_ok site i codes : Forall code_ok codes -> check_codes site i codes = None.
Proof. intros H. revert i. induction H as [|c codes Hc _ IH]; intros i; simpl; [done|]. by rewrite Hc. Qed.

Lemma add_codes_ok codes ret : Forall code_ok ret -> add_codes codes ret = (codes ++ ret, None).
Proof.
  intros H. revert codes. induction H as [|c ret Hc _ IH]; intros codes; simpl.
  - by rewrite app_nil_r.
  - rewrite Hc, IH, <- app_assoc. done.
Qed.

(** after [Len()] has set the remaining length *)
Definition sized (m : SubackMessage) : Prop := remlen (hdr m) = msglen m.

Lemma suback_Encode_spec m id dst :
  dirty (hdr m) = true -> rd (hdr m) (mtypeflags (hdr m)) = [144] ->
  rd (hdr m) (packetId (hdr m)) = id -> zlen id = 2 ->
  Forall code_ok (returnCodes m) -> remlen_ok (msglen m) -> sized m ->
  Header.msglen (hdr m) + msglen m <= zlen dst ->
  let w := suback_wire id (returnCodes m) in
  Encode m dst = Ret (m, w ++ drop (length w) dst, zlen w, None).
Proof.
  intros Hd Hb Hid Hl Hc Hr Hs Hdst w. pose proof (msglen_bounds (hdr m)).
  unfold Encode. rewrite Hd, check_codes_ok by done. cbn [negb]. guard_false.
  rewrite i32_remlen, SetRemainingLength_ok by done.
  replace (with_dirty true (with_remlen (msglen m) (hdr m))) with (hdr m)
    by (unfold with_dirty, with_remlen; rewrite <- Hs, <- Hd; by destruct (hdr m)).
  rewrite (encode_spec _ 144) by (done || (rewrite Hs; done) || (unfold msglen in *; zl)).
  rewrite bindO_ret. rewrite Hs. unfold sized, msglen in *.
  pose proof (msglen_spec (hdr m) ltac:(by rewrite Hs)) as Hml. rewrite Hs in Hml.
  replace (Header.msglen (hdr m)) with (zlen (hdr_wire 144 (2 + zlen (returnCodes m)))) in *
    by (by rewrite zlen_hdr_wire).
  rewrite Z.add_0_l. unfold with_hdr. cbn [hdr returnCodes].
  rewrite (put_packetId_spec _ _ _ id) by (done || zl). rewrite bindO_ret, app_assoc.
  rewrite gocopy_app by zl. rewrite bindO_ret. f_equal. f_equal. f_equal; [f_equal|].
  - by destruct m.
  - unfold w, suback_wire. rewrite <- !app_assoc. do 3 f_equal.
    rewrite !drop_drop. f_equal. zl.
  - unfold w, suback_wire. zl.
Qed.

Lemma suback_Decode_spec m b0 hi lo codes rest sp :
  rd (hdr m) (mtypeflags (hdr m)) = [b0] -> Z.shiftr b0 4 = SUBACK ->
  Forall code_ok codes -> remlen_ok (2 + zlen codes) ->
  exists m', Decode m (Slice (suback_wire [hi; lo] codes ++ rest) sp)
             = Ret (m', zlen (suback_wire [hi; lo] codes), None) /\
    returnCodes m' = codes /\ rd (hdr m') (packetId (hdr m')) = [hi; lo] /\ dirty (hdr m') = false /\
    rd (hdr m') (mtypeflags (hdr m')) = [144].
Proof.
  intros Hb0 Ht Hc Hr. unfold Decode.
  rewrite slice_from_0, bindO_ret. unfold suback_wire. rewrite <- !app_assoc.
  rewrite (decode_spec _ b0 144 _ ([hi; lo] ++ codes ++ rest) sp) by (done || zl).
  set (hw := hdr_wire 144 (2 + zlen codes)). rewrite bindO_ret, Z.add_0_l.
  rewrite (slice_range_app hw [hi; lo] (codes ++ rest) sp) by done. rewrite bindO_ret. cbv zeta.
  cbn [hdr with_hdr with_packetId remlen].
  rewrite (slice_range_at _ (hw ++ [hi; lo]) codes rest);
    [|cbn [vis]; by rewrite <- app_assoc|zl|zl].
  rewrite bindO_ret. cbn [vis returnCodes].
  rewrite check_codes_ok by done. eexists. split; [f_equal; f_equal; f_equal; zl|].
  split; [done|]. split; [|done]. cbn [hdr with_hdr with_dirty with_packetId packetId rd dbuf].
  unfold backing. cbn [vis spare]. rewrite <- !app_assoc, drop_zlen_app by done. done.
Qed.

(** The SUBACK the server builds for packet [v]: a fresh message, the identifier
    of the SUBSCRIBE, one return code per topic. *)
Definition new_suback (v : Z) (codes : list Z) : SubackMessage :=
  fst (AddReturnCodes (mkSuback (SetPacketId (hdr NewSubackMessage) v) []) codes).

Lemma new_suback_fields v codes : v <> 0 -> Forall code_ok codes ->
  let m := new_suback v codes in
  AddReturnCodes (mkSuback (SetPacketId (hdr NewSubackMessage) v) []) codes = (m, None) /\
  returnCodes m = codes /\ dirty (hdr m) = true /\ rd (hdr m) (mtypeflags (hdr m)) = [144] /\
  rd (hdr m) (packetId (hdr m)) = be16 v.
Proof.
  intros Hv Hc m. unfold m, new_suback, AddReturnCodes. cbn [returnCodes].
  rewrite add_codes_ok by done. cbn [fst returnCodes hdr app]. split; [done|].
  split; [done|]. split; [done|]. split.
  - change (rd (SetPacketId (hdr NewSubackMessage) v)
               (mtypeflags (SetPacketId (hdr NewSubackMessage) v)) = [144]).
    by rewrite rd_mtf_SetPacketId.
  - change (rd (SetPacketId (hdr NewSubackMessage) v)
               (packetId (SetPacketId (hdr NewSubackMessage) v)) = be16 v).
    by rewrite rd_SetPacketId.
Qed.

(** A SUBACK built for packet [v] with valid return codes survives the wire:
    [Len] announces the size, [Encode] fills a buffer of that size with the
    header, the identifier and the codes, and [Decode] returns the identifier
    and the codes in order. *)
Theorem suback_roundtrip v codes dst rest sp :
  0 < v < 2 ^ 16 -> Forall code_ok codes -> remlen_ok (2 + zlen codes) ->
  let w := suback_wire (be16 v) codes in
  zlen dst = zlen w ->
  exists m1 m2,
    Len (new_suback v codes) = (m1, zlen w) /\
    Encode m1 dst = Ret (m1, w, zlen w, None) /\
    Decode NewSubackMessage (Slice (w ++ rest) sp) = Ret (m2, zlen w, None) /\
    PacketId (hdr m2) = v /\ ReturnCodes m2 = codes /\ dirty (hdr m2) = false.
Proof.
  intros Hv Hc Hr w Hdst.
  destruct (new_suback_fields v codes) as (_ & Hco & Hd & Hb & Hid); [lia|done|].
  set (m := new_suback v codes) in *.
  assert (Hml : msglen m = 2 + zlen codes) by (unfold msglen; by rewrite Hco).
  assert (HL : Len m = (with_hdr (with_remlen (2 + zlen codes) (hdr m)) m, zlen w)).
  { unfold Len. rewrite Hml, len_with_dirty by done. f_equal.
    unfold w, suback_wire. zlen_facts. rewrite !zlen_app, zlen_hdr_wire, zlen_be16. lia. }
  destruct (suback_Decode_spec NewSubackMessage 144 (u8 (Z.shiftr v 8)) (u8 v) codes rest sp)
    as (m2 & HD & H1 & H2 & H3 & _); [done..|].
  exists (with_hdr (with_remlen (2 + zlen codes) (hdr m)) m), m2. split; [done|]. split.
  - rewrite (suback_Encode_spec _ (be16 v)); cbn [hdr with_hdr returnCodes with_remlen]; try done.
    + rewrite Hco. fold w. rewrite drop_ge, app_nil_r by zl. done.
    + by rewrite Hco.
    + unfold msglen. cbn [hdr with_hdr with_remlen remlen returnCodes]. by rewrite Hco.
    + rewrite msglen_spec by done. unfold msglen. cbn [returnCodes with_hdr remlen with_remlen].
      rewrite Hco, Hdst. unfold w, suback_wire. rewrite !zlen_app, zlen_hdr_wire, zlen_be16. lia.
  - split; [exact HD|]. split; [apply PacketId_be16; [lia|done]|]. split; [done|done].
Qed.

Lemma suback_roundtrip_witness :
  exists m1 m2,
    Len (new_suback 7 [0; 1; 128]) = (m1, 7) /\
    Encode m1 [0;0;0;0;0;0;0] = Ret (m1, [144; 5; 0; 7; 0; 1; 128], 7, None) /\
    Decode NewSubackMessage (Slice [144; 5; 0; 7; 0; 1; 128] []) = Ret (m2, 7, None) /\
    PacketId (hdr m2) = 7 /\ ReturnCodes m2 = [0; 1; 128] /\ dirty (hdr m2) = false.
Proof.
  apply (suback_roundtrip 7 [0; 1; 128] [0;0;0;0;0;0;0] [] []);
    [lia|repeat constructor|vm_compute; split; discriminate|reflexivity].
Defined.

(** [Encode] computes the header length before it sets the remaining length,
    so on a message whose [Len] was not asked it accepts a buffer that is one
    byte short: with 126 return codes and the 130 bytes it asks for, the last
    code is not written and the count is 131. *)
Theorem suback_encode_stale_length :
  let m := new_suback 7 (replicate 126 1) in
  exists m' dst',
    Encode m (replicate 130 0) = Ret (m', dst', 131, None) /\
    zlen dst' = 130 /\ dst' <> suback_wire (be16 7) (replicate 126 1).
Proof.
  eexists _, _. split; [vm_compute; reflexivity|]. split; [reflexivity|].
  intros H. apply (f_equal zlen) in H. vm_compute in H. discriminate.
Qed.
