(* ===== verification/Publish.v ===== *)
(** * Publish: the PUBLISH packet ([message/publish.go]) *)
From stdpp Require Import base list strings.
From Stdlib Require Import ZArith Lia.
From S2P Require Import Prelude GoLang MsgTypes Header PacketId.

Record PublishMessage : Type := mkPublish { hdr : header; topic : list Z; payload : list Z }.

Definition with_hdr (h : header) (m : PublishMessage) : PublishMessage :=
  mkPublish h (topic m) (payload m).

Definition NewPublishMessage : PublishMessage :=
  mkPublish (fst (SetType zero_header PUBLISH)) [] [].

(** [this.mtypeflags[0] = f(this.mtypeflags[0])] *)
Definition update_flags (m : PublishMessage) (f : Z -> Z) : outcome PublishMessage :=
  let! b := index (rd (hdr m) (mtypeflags (hdr m))) 0 in
  Ret (with_hdr (store_mtypeflags (hdr m) (f b)) m).

(** ** Operations *)

Definition Dup (m : PublishMessage) : outcome bool :=
  let! fl := Flags (hdr m) in Ret (Z.land (Z.shiftr fl 3) 1 =? 1).

Definition SetDup (m : PublishMessage) (v : bool) : outcome PublishMessage :=
  update_flags m (fun b => if v then Z.lor b 8 else Z.land b 247).

Definition Retain (m : PublishMessage) : outcome bool :=
  let! fl := Flags (hdr m) in Ret (Z.land fl 1 =? 1).

Definition SetRetain (m : PublishMessage) (v : bool) : outcome PublishMessage :=
  update_flags m (fun b => if v then Z.lor b 1 else Z.land b 254).

Definition QoS (m : PublishMessage) : outcome Z :=
  let! fl := Flags (hdr m) in Ret (Z.land (Z.shiftr fl 1) 3).

Definition SetQoS (m : PublishMessage) (v : Z) : outcome (PublishMessage * option error) :=
  if negb (v =? 0) && negb (v =? 1) && negb (v =? 2) then
    Ret (m, Some (Errorf "publish/SetQoS: Invalid QoS %d." [AInt v]))
  else
    let! m := update_flags m (fun b => Z.lor (Z.land b 249) (u8 (Z.shiftl v 1))) in
    Ret (m, None).

Definition Topic (m : PublishMessage) : list Z := topic m.

Definition SetTopic (m : PublishMessage) (v : list Z) : PublishMessage * option error :=
  if negb (ValidTopic v) then
    (m, Some (Errorf "publish/SetTopic: Invalid topic name (%s). Must not be empty or contain wildcard characters"
                     [AStr v]))
  else (mkPublish (with_dirty true (hdr m)) v (payload m), None).

Definition Payload (m : PublishMessage) : list Z := payload m.

Definition SetPayload (m : PublishMessage) (v : list Z) : PublishMessage :=
  mkPublish (with_dirty true (hdr m)) (topic m) v.

Definition msglen (m : PublishMessage) : outcome Z :=
  let total := 2 + zlen (topic m) + zlen (payload m) in
  let! q := QoS m in
  Ret (if negb (q =? 0) then total + 2 else total).

Definition Len (m : PublishMessage) : outcome (PublishMessage * Z) :=
  if negb (dirty (hdr m)) then Ret (m, len (dbuf (hdr m)))
  else
    let! ml := msglen m in
    let '(h, n) := len_with (hdr m) ml in
    Ret (with_hdr h m, n).

Definition Decode (m : PublishMessage) (src : slice)
  : outcome (PublishMessage * Z * option error) :=
  let total := 0 in
  let! s := slice_from src total in
  let! (h, hn, err) := decode (hdr m) s in
  let m := with_hdr h m in
  let total := total + hn in
  match err with
  | Some e => Ret (m, total, Some e)
  | None =>
      let! s := slice_from src total in
      let! (t, n, err) := readLPBytes s in
      let m := mkPublish (hdr m) t (payload m) in
      let total := total + n in
      match err with
      | Some e => Ret (m, total, Some e)
      | None =>
          if negb (ValidTopic (topic m)) then
            Ret (m, total, Some (Errorf "publish/Decode: Invalid topic name (%s). Must not be empty or contain wildcard characters"
                                        [AStr (topic m)]))
          else
            let! q := QoS m in
            let! (m, total) :=
              (if negb (q =? 0) then
                 let! _ := slice_range src total (total + 2) in
                 Ret (with_hdr (with_packetId (Sub (Z.to_nat total) 2) (hdr m)) m, total + 2)
               else Ret (m, total)) in
            let l := remlen (hdr m) - (total - hn) in
            let! s := slice_range src total (total + l) in
            let m := mkPublish (hdr m) (topic m) (vis s) in
            let total := total + zlen (payload m) in
            Ret (with_hdr (with_dirty false (hdr m)) m, total, None)
      end
  end.

(** [Encode(dst)], with the counter [g] before and after *)
Definition Encode (m : PublishMessage) (g : Z) (dst : list Z)
  : outcome (PublishMessage * Z * list Z * Z * option error) :=
  if negb (dirty (hdr m)) then
    let! (dst, n, err) := encode_clean "publish" (hdr m) dst in Ret (m, g, dst, n, err)
  else if zlen (topic m) =? 0 then
    Ret (m, g, dst, 0, Some (Errorf "publish/Encode: Topic name is empty." []))
  else if zlen (payload m) =? 0 then
    Ret (m, g, dst, 0, Some (Errorf "publish/Encode: Payload is empty." []))
  else
    let! ml := msglen m in
    match SetRemainingLength (hdr m) (i32 ml) with
    | (h, Some e) => Ret (with_hdr h m, g, dst, 0, Some e)
    | (h, None) =>
        let m := with_hdr h m in
        let hl := Header.msglen h in
        if zlen dst <? hl + ml then
          Ret (m, g, dst, 0, Some (Errorf "publish/Encode: Insufficient buffer size. Expecting %d, got %d."
                                          [AInt (hl + ml); AInt (zlen dst)]))
        else
          let total := 0 in
          let! (h, dst, n, err) := encode (hdr m) dst in
          let m := with_hdr h m in
          let total := total + n in
          match err with
          | Some e => Ret (m, g, dst, total, Some e)
          | None =>
              let! (dst, n, err) := writeLPBytes dst total (topic m) in
              let total := total + n in
              match err with
              | Some e => Ret (m, g, dst, total, Some e)
              | None =>
                  let! q := QoS m in
                  let! (m, g, dst, total) :=
                    (if negb (q =? 0) then
                       let '(h, g) := ensurePacketId (hdr m) g in
                       let m := with_hdr h m in
                       let! (dst, n) := gocopy dst total (rd h (packetId h)) in
                       Ret (m, g, dst, total + n)
                     else Ret (m, g, dst, total)) in
                  let! (dst, _) := gocopy dst total (payload m) in
                  let total := total + zlen (payload m) in
                  Ret (m, g, dst, total, None)
              end
          end
    end.

(** ** The type byte of a PUBLISH *)

Definition qos_of (b : Z) : Z := Z.land (Z.shiftr (Z.land b 15) 1) 3.
Definition dup_of (b : Z) : bool := Z.land (Z.shiftr (Z.land b 15) 3) 1 =? 1.
Definition retain_of (b : Z) : bool := Z.land (Z.land b 15) 1 =? 1.

(** the message has a one-byte type field holding [b], a PUBLISH type byte *)
Definition pub_byte (m : PublishMessage) (b : Z) : Prop :=
  rd (hdr m) (mtypeflags (hdr m)) = [b] /\ is_byte b /\ Z.shiftr b 4 = PUBLISH.

Lemma QoS_byte m b : rd (hdr m) (mtypeflags (hdr m)) = [b] -> QoS m = Ret (qos_of b).
Proof. intros H. unfold QoS. by rewrite (Flags_one _ b). Qed.

Lemma Dup_byte m b : rd (hdr m) (mtypeflags (hdr m)) = [b] -> Dup m = Ret (dup_of b).
Proof. intros H. unfold Dup. by rewrite (Flags_one _ b). Qed.

Lemma Retain_byte m b : rd (hdr m) (mtypeflags (hdr m)) = [b] -> Retain m = Ret (retain_of b).
Proof. intros H. unfold Retain. by rewrite (Flags_one _ b). Qed.

Lemma rd_store_mtypeflags h b v :
  rd h (mtypeflags h) = [b] -> rd (store_mtypeflags h v) (mtypeflags (store_mtypeflags h v)) = [v].
Proof.
  unfold store_mtypeflags. destruct (mtypeflags h) as [l|off n] eqn:E; intros H.
  - cbn [with_mtypeflags mtypeflags rd] in *. subst l. done.
  - cbn [with_dbuf mtypeflags]. rewrite E. cbn [rd with_dbuf dbuf] in *.
    rewrite backing_slice_set. rewrite <- (Nat.add_0_r off) at 2. rewrite window_insert, H. done.
Qed.

Lemma update_flags_byte m b f :
  rd (hdr m) (mtypeflags (hdr m)) = [b] ->
  exists m', update_flags m f = Ret m' /\ rd (hdr m') (mtypeflags (hdr m')) = [f b] /\
    topic m' = topic m /\ payload m' = payload m /\ dirty (hdr m') = dirty (hdr m).
Proof.
  intros H. unfold update_flags. rewrite H, index_0, bindO_ret. eexists. split; [done|].
  cbn [hdr with_hdr topic payload]. split; [by rewrite (rd_store_mtypeflags _ b)|].
  split; [done|]. split; [done|]. unfold store_mtypeflags. by destruct (mtypeflags (hdr m)).
Qed.

(** the effect of the three flag setters on the type byte, checked on all bytes *)
Lemma set_flag_bytes b : is_byte b ->
  (forall v, 0 <= v <= 2 ->
     let b' := Z.lor (Z.land b 249) (u8 (Z.shiftl v 1)) in
     qos_of b' = v /\ dup_of b' = dup_of b /\ retain_of b' = retain_of b /\
     Z.shiftr b' 4 = Z.shiftr b 4 /\ is_byte b') /\
  (forall d : bool,
     let b' := if d then Z.lor b 8 else Z.land b 247 in
     qos_of b' = qos_of b /\ dup_of b' = d /\ retain_of b' = retain_of b /\
     Z.shiftr b' 4 = Z.shiftr b 4 /\ is_byte b') /\
  (forall r : bool,
     let b' := if r then Z.lor b 1 else Z.land b 254 in
     qos_of b' = qos_of b /\ dup_of b' = dup_of b /\ retain_of b' = r /\
     Z.shiftr b' 4 = Z.shiftr b 4 /\ is_byte b').
Proof.
  intros Hb.
  pose (ok := fun (q : Z) (d r : bool) (b b' : Z) =>
    (qos_of b' =? q) && eqb (dup_of b') d && eqb (retain_of b') r
    && (Z.shiftr b' 4 =? Z.shiftr b 4) && (0 <=? b') && (b' <? 256)).
  assert (Hok : forall q d r b b', ok q d r b b' = true ->
    qos_of b' = q /\ dup_of b' = d /\ retain_of b' = r /\ Z.shiftr b' 4 = Z.shiftr b 4 /\ is_byte b').
  { unfold ok. intros q d r x y H. rewrite !andb_true_iff in H.
    destruct H as [[[[[H1 H2] H3] H4] H5] H6].
    apply eqb_prop in H2, H3. unfold is_byte. repeat split; (done || lia). }
  pose proof (byte_forall (fun b =>
    forallb (fun v => ok v (dup_of b) (retain_of b) b (Z.lor (Z.land b 249) (u8 (Z.shiftl v 1)))) [0;1;2]
    && forallb (fun d : bool => ok (qos_of b) d (retain_of b) b (if d then Z.lor b 8 else Z.land b 247)) [true;false]
    && forallb (fun r : bool => ok (qos_of b) (dup_of b) r b (if r then Z.lor b 1 else Z.land b 254)) [true;false])
    ltac:(vm_compute; reflexivity) b Hb) as H. cbv beta in H.
  rewrite !andb_true_iff, !forallb_forall in H. destruct H as [[H1 H2] H3].
  split; [|split].
  - intros v Hv. cbv zeta. apply Hok. apply H1. simpl. lia.
  - intros d. apply Hok, H2. destruct d; simpl; auto.
  - intros r. apply Hok, H3. destruct r; simpl; auto.
Qed.

(** The QoS, DUP and RETAIN setters are exact and independent: on a PUBLISH
    message each of them sets the flag it names and leaves the packet type, the
    two other flags, the topic and the payload as they were; [SetQoS] refuses
    any level above 2. *)
Theorem publish_flag_setters m b q d r :
  pub_byte m b ->
  (if (0 <=? q) && (q <=? 2)
   then exists m', SetQoS m q = Ret (m', None) /\ QoS m' = Ret q /\ Dup m' = Dup m /\
                   Retain m' = Retain m /\ topic m' = topic m /\ payload m' = payload m /\
                   exists b', pub_byte m' b'
   else exists e, SetQoS m q = Ret (m, Some e)) /\
  (exists m', SetDup m d = Ret m' /\ Dup m' = Ret d /\ QoS m' = QoS m /\ Retain m' = Retain m /\
              topic m' = topic m /\ payload m' = payload m /\ exists b', pub_byte m' b') /\
  (exists m', SetRetain m r = Ret m' /\ Retain m' = Ret r /\ QoS m' = QoS m /\ Dup m' = Dup m /\
              topic m' = topic m /\ payload m' = payload m /\ exists b', pub_byte m' b').
Proof.
  intros (Hb & Hby & Ht). destruct (set_flag_bytes b Hby) as (HQ & HD & HR).
  rewrite (Dup_byte m b), (Retain_byte m b), (QoS_byte m b) by done.
  split; [|split].
  - unfold SetQoS. destruct ((0 <=? q) && (q <=? 2)) eqn:Eq.
    + assert (E : negb (q =? 0) && negb (q =? 1) && negb (q =? 2) = false) by lia. rewrite E.
      destruct (update_flags_byte m b (fun b => Z.lor (Z.land b 249) (u8 (Z.shiftl q 1))) Hb)
        as (m' & -> & Hb' & Ht' & Hp' & _).
      destruct (HQ q) as (H1 & H2 & H3 & H4 & H5); [lia|]. cbv zeta in *.
      eexists. split; [done|]. erewrite QoS_byte, Dup_byte, Retain_byte by done.
      rewrite H1, H2, H3. repeat split; try done. eexists. split; [done|]. by rewrite H4.
    + assert (E : negb (q =? 0) && negb (q =? 1) && negb (q =? 2) = true) by lia. rewrite E. eauto.
  - destruct (update_flags_byte m b (fun b => if d then Z.lor b 8 else Z.land b 247) Hb)
      as (m' & E & Hb' & Ht' & Hp' & _). destruct (HD d) as (H1 & H2 & H3 & H4 & H5).
    eexists. split; [exact E|]. erewrite QoS_byte, Dup_byte, Retain_byte by done.
    rewrite H1, H2, H3. repeat split; try done. eexists. split; [done|]. by rewrite H4.
  - destruct (update_flags_byte m b (fun b => if r then Z.lor b 1 else Z.land b 254) Hb)
      as (m' & E & Hb' & Ht' & Hp' & _). destruct (HR r) as (H1 & H2 & H3 & H4 & H5).
    eexists. split; [exact E|]. erewrite QoS_byte, Dup_byte, Retain_byte by done.
    rewrite H1, H2, H3. repeat split; try done. eexists. split; [done|]. by rewrite H4.
Qed.

Lemma publish_flag_setters_witness :
  exists m', SetRetain NewPublishMessage true = Ret m' /\ Retain m' = Ret true.
Proof.
  destruct (publish_flag_setters NewPublishMessage 48 1 true true) as (_ & _ & m' & H1 & H2 & _).
  - split; [reflexivity|]. split; [split; [discriminate|reflexivity]|reflexivity].
  - exists m'. split; [exact H1|exact H2].
Defined.

(** ** Packet identifiers *)

(** ** Wire form *)

Definition publish_body (t id p : list Z) : list Z := lp t ++ id ++ p.
Definition publish_wire (b : Z) (t id p : list Z) : list Z :=
  hdr_wire b (zlen (publish_body t id p)) ++ publish_body t id p.

(** the identifier bytes of the packet: none at QoS 0, two otherwise *)
Definition id_ok (b : Z) (id : list Z) : Prop := if qos_of b =? 0 then id = [] else zlen id = 2.

Lemma msglen_byte m b :
  rd (hdr m) (mtypeflags (hdr m)) = [b] ->
  forall id, id_ok b id -> msglen m = Ret (zlen (publish_body (topic m) id (payload m))).
Proof.
  intros Hb id Hid. unfold msglen. rewrite (QoS_byte m b) by done. rewrite bindO_ret. f_equal.
  unfold publish_body, id_ok in *. destruct (qos_of b =? 0); [subst id|]; cbn [negb]; zl.
Qed.

(** what a message must be to be sent *)
Record sendable (m : PublishMessage) (b : Z) : Prop := {
  s_dirty : dirty (hdr m) = true;
  s_byte : rd (hdr m) (mtypeflags (hdr m)) = [b];
  s_type : Z.shiftr b 4 = PUBLISH;
  s_topic : 0 < zlen (topic m) <= maxLPString;
  s_payload : 0 < zlen (payload m);
  s_apart : refs_apart (hdr m);
  s_len : remlen_ok (2 + zlen (topic m) + 2 + zlen (payload m))
}.

Lemma sendable_body m b id : sendable m b -> id_ok b id ->
  remlen_ok (zlen (publish_body (topic m) id (payload m))).
Proof.
  intros S Hid. pose proof (s_len _ _ S) as H. unfold remlen_ok, publish_body, id_ok in *.
  destruct (qos_of b =? 0); [subst id|]; zl.
Qed.

(** the message and the counter after the identifier was ensured *)
Definition sent_id (m : PublishMessage) (b g : Z) : header * Z :=
  if qos_of b =? 0 then (hdr m, g) else ensurePacketId (hdr m) g.

Definition sent_bytes (b : Z) (h : header) : list Z :=
  if qos_of b =? 0 then [] else rd h (packetId h).

Lemma sent_id_ok m b g : 0 <= g -> id_ok b (sent_bytes b (fst (sent_id m b g))).
Proof.
  intros Hg. unfold id_ok, sent_bytes, sent_id. destruct (qos_of b =? 0); [done|].
  pose proof (ensurePacketId_spec (hdr m) g Hg) as H. destruct (ensurePacketId (hdr m) g). apply H.
Qed.

(** [Encode] refines the wire form: it writes exactly [publish_wire], with the
    identifier the message had or the next one of the counter. *)
Lemma publish_Encode_spec m b g dst :
  sendable m b -> 0 <= g ->
  let '(h', g') := sent_id m b g in
  let id := sent_bytes b h' in
  let w := publish_wire b (topic m) id (payload m) in
  zlen w <= zlen dst ->
  Encode m g dst
  = Ret (with_hdr (with_remlen (zlen (publish_body (topic m) id (payload m))) h') m, g',
         w ++ drop (length w) dst, zlen w, None).
Proof.
  intros S Hg. pose proof (sent_id_ok m b g Hg) as Hid.
  destruct (sent_id m b g) as [h' g'] eqn:Es. cbn [fst] in Hid. intros id w Hdst. fold id in Hid.
  destruct S as [Hd Hb Ht Htop Hpay Hap Hlen].
  pose proof (sendable_body m b id ltac:(by constructor) Hid) as Hok.
  set (body := publish_body (topic m) id (payload m)) in *.
  unfold Encode. rewrite Hd. cbn [negb]. guard_false. guard_false.
  rewrite (msglen_byte m b Hb id Hid), bindO_ret. fold body.
  rewrite i32_remlen, SetRemainingLength_ok by done.
  replace (with_dirty true (with_remlen (zlen body) (hdr m))) with (with_remlen (zlen body) (hdr m))
    by (unfold with_dirty, with_remlen; simpl; by rewrite Hd).
  set (h1 := with_remlen (zlen body) (hdr m)).
  assert (Hm1 : Header.msglen h1 = zlen (hdr_wire b (zlen body)))
    by (rewrite msglen_spec, zlen_hdr_wire by done; done).
  assert (Hw : zlen w = zlen (hdr_wire b (zlen body)) + zlen body) by (unfold w, publish_wire; apply zlen_app).
  guard_false. cbn [hdr with_hdr].
  rewrite (encode_spec h1 b) by (done || (by rewrite Ht) || (zlen_facts; lia)).
  rewrite bindO_ret, Z.add_0_l, Hm1. change (remlen h1) with (zlen body).
  set (hw := hdr_wire b (zlen body)) in *. cbn [hdr with_hdr topic payload].
  assert (Hbody : zlen body = 2 + zlen (topic m) + zlen id + zlen (payload m))
    by (unfold body, publish_body; zl).
  rewrite writeLPBytes_spec by zl. rewrite bindO_ret.
  rewrite (QoS_byte _ b) by done. rewrite bindO_ret, app_assoc.
  set (dst2 := drop (length (lp (topic m))) (drop (length hw) dst)).
  assert (Hd2 : zlen dst2 = zlen dst - zlen hw - zlen (lp (topic m))) by (unfold dst2; zl).
  replace (zlen hw + (2 + zlen (topic m))) with (zlen (hw ++ lp (topic m))) by zl.
  destruct (qos_of b =? 0) eqn:Eq; cbn [negb].
  - assert (id = []) as Hnil by (unfold id, sent_bytes; by rewrite Eq).
    unfold sent_id in Es. rewrite Eq in Es. injection Es as <- <-.
    assert (zlen id = 0) by (by rewrite Hnil).
    rewrite bindO_ret. cbn [payload with_hdr]. rewrite gocopy_app by zl. rewrite bindO_ret.
    f_equal. f_equal. f_equal; [f_equal|].
    + unfold w, publish_wire. fold body hw. unfold body, publish_body. rewrite Hnil.
      rewrite <- !app_assoc. cbn [app]. do 3 f_equal. unfold dst2. rewrite !drop_drop. f_equal. zl.
    + unfold w, publish_wire. fold body hw. unfold body, publish_body. rewrite Hnil. zl.
  - unfold sent_id in Es. rewrite Eq in Es. unfold h1 at 1. rewrite with_remlen_ensure, Es. cbn [fst snd].
    assert (Hidr : rd h' (packetId h') = id) by (unfold id, sent_bytes; by rewrite Eq).
    change (rd (with_remlen (zlen body) h') (packetId (with_remlen (zlen body) h')))
      with (rd h' (packetId h')). rewrite Hidr.
    rewrite gocopy_app by zl. rewrite !bindO_ret, app_assoc.
    replace (zlen (hw ++ lp (topic m)) + zlen id) with (zlen ((hw ++ lp (topic m)) ++ id)) by zl.
    cbn [payload with_hdr]. rewrite gocopy_app by zl. rewrite bindO_ret.
    f_equal. f_equal. f_equal; [f_equal|].
    + unfold w, publish_wire. fold body hw. unfold body, publish_body.
      rewrite <- !app_assoc. do 4 f_equal. unfold dst2. rewrite !drop_drop. f_equal. zl.
    + unfold w, publish_wire. fold body hw. unfold body, publish_body. zl.
Qed.

(** [Decode] reads the wire form back, whatever follows it in the buffer. *)
Lemma publish_Decode_spec m b0 b t id p rest sp :
  rd (hdr m) (mtypeflags (hdr m)) = [b0] -> Z.shiftr b0 4 = PUBLISH ->
  Z.shiftr b 4 = PUBLISH -> ValidQos (qos_of b) = true ->
  ValidTopic t = true -> zlen t <= maxLPString -> id_ok b id ->
  remlen_ok (zlen (publish_body t id p)) ->
  let w := publish_wire b t id p in
  exists m', Decode m (Slice (w ++ rest) sp) = Ret (m', zlen w, None) /\
    topic m' = t /\ payload m' = p /\ rd (hdr m') (mtypeflags (hdr m')) = [b] /\
    (qos_of b <> 0 -> rd (hdr m') (packetId (hdr m')) = id) /\ dirty (hdr m') = false /\
    vis (dbuf (hdr m')) = w ++ rest.
Proof.
  intros Hb0 Ht0 Ht Hq Hvt Hlt Hid Hok w. unfold Decode.
  rewrite slice_from_0, bindO_ret. unfold w, publish_wire. set (body := publish_body t id p) in *.
  rewrite <- !app_assoc.
  assert (Hbo : hdr_byte_ok b = true) by (unfold hdr_byte_ok; rewrite Ht; unfold qos_of in Hq; by rewrite Hq).
  rewrite (decode_spec _ b0 b _ (body ++ rest) sp) by (done || (by rewrite Ht0, Ht) || zl).
  rewrite bindO_ret, Z.add_0_l. set (hw := hdr_wire b (zlen body)).
  rewrite (slice_from_at _ hw (body ++ rest)) by done. rewrite bindO_ret. cbn [spare].
  assert (HR : readLPBytes (Slice (body ++ rest) sp) = Ret (t, 2 + zlen t, None))
    by (unfold body, publish_body; rewrite <- !app_assoc; by apply readLPBytes_spec).
  rewrite HR, bindO_ret.
  cbn [topic hdr with_hdr payload]. rewrite Hvt. cbn [negb].
  set (h1 := mkHeader _ _ _ _ _).
  assert (Hrd : rd h1 (mtypeflags h1) = [b]) by done.
  rewrite (QoS_byte _ b) by done. rewrite bindO_ret.
  assert (Hbody : zlen body = 2 + zlen t + zlen id + zlen p) by (unfold body, publish_body; zl).
  assert (Hvis : vis (dbuf h1) = hw ++ lp t ++ id ++ p ++ rest)
    by (unfold h1, body, publish_body; cbn [dbuf vis]; by rewrite <- !app_assoc).
  unfold id_ok in Hid. destruct (qos_of b =? 0) eqn:Eq; cbn [negb].
  - subst id. rewrite bindO_ret. cbn [hdr]. change (remlen h1) with (zlen body).
    rewrite (slice_range_at _ (hw ++ lp t) p rest);
      [|unfold body, publish_body; cbn [vis]; by rewrite <- !app_assoc|zl|zl].
    rewrite bindO_ret. eexists. split; [f_equal; f_equal; f_equal|].
    { cbn [payload vis]. zl. }
    repeat split; try done. intros; lia.
  - rewrite (slice_range_at _ (hw ++ lp t) id (p ++ rest));
      [|unfold body, publish_body; cbn [vis]; by rewrite <- !app_assoc|zl|zl].
    rewrite bindO_ret, bindO_ret. cbn [hdr with_hdr with_packetId remlen].
    change (remlen h1) with (zlen body).
    rewrite (slice_range_at _ (hw ++ lp t ++ id) p rest);
      [|unfold body, publish_body; cbn [vis]; by rewrite <- !app_assoc|zl|zl].
    rewrite bindO_ret. eexists. split; [f_equal; f_equal; f_equal|].
    { cbn [payload vis]. zl. }
    repeat split; try done. intros _.
    cbn [hdr with_hdr with_dirty with_packetId packetId rd dbuf topic]. unfold backing. rewrite Hvis.
    replace ((hw ++ lp t ++ id ++ p ++ rest) ++ spare (dbuf h1))
      with ((hw ++ lp t) ++ id ++ (p ++ rest) ++ spare (dbuf h1)) by (by rewrite <- !app_assoc).
    rewrite drop_zlen_app by zl. replace 2%nat with (Z.to_nat 2) by lia. by apply take_zlen_app.
Qed.

(** C11: PUBLISH survives the wire: a message ready to be sent (changed since
    decoding, a valid topic, a payload, a valid QoS) is written by [Encode] at
    the front of any buffer that is large enough, [Len] announces exactly the
    bytes written, and a fresh message decodes them, whatever follows, to the
    same topic, payload, QoS, DUP and RETAIN; above QoS 0 the identifier read
    back is the one the sender holds after encoding, and it is not zero. *)
Theorem publish_roundtrip m b g dst rest sp :
  sendable m b -> 0 <= g -> ValidTopic (topic m) = true -> ValidQos (qos_of b) = true ->
  2 + zlen (topic m) + 2 + zlen (payload m) + maxFixedHeaderLength <= zlen dst ->
  exists w m0 m1 g1 m2,
    Len m = Ret (m0, zlen w) /\
    Encode m g dst = Ret (m1, g1, w ++ drop (length w) dst, zlen w, None) /\
    Decode NewPublishMessage (Slice (w ++ rest) sp) = Ret (m2, zlen w, None) /\
    Topic m2 = Topic m /\ Payload m2 = Payload m /\ QoS m2 = QoS m /\ Dup m2 = Dup m /\
    Retain m2 = Retain m /\
    (qos_of b <> 0 -> PacketId (hdr m2) = PacketId (hdr m1) /\ PacketId (hdr m1) <> 0).
Proof.
  intros S Hg Hvt Hvq Hdst. pose proof (publish_Encode_spec m b g dst S Hg) as HE.
  pose proof (sent_id_ok m b g Hg) as Hid.
  destruct (sent_id m b g) as [h' g'] eqn:Es. cbn [fst] in Hid. cbv zeta in HE.
  set (id := sent_bytes b h') in *.
  pose proof (sendable_body m b id S Hid) as Hok.
  set (w := publish_wire b (topic m) id (payload m)) in *.
  destruct S as [Hd Hb Ht Htop Hpay Hap Hlen].
  assert (Hwl : zlen w <= zlen dst).
  { unfold w, publish_wire. rewrite zlen_app, zlen_hdr_wire.
    rewrite uvarint_bytes_len by done. unfold maxFixedHeaderLength in Hdst.
    unfold publish_body, id_ok in *. destruct (qos_of b =? 0); [rewrite Hid|];
      repeat destruct (_ <=? _); zl. }
  destruct (publish_Decode_spec NewPublishMessage 48 b (topic m) id (payload m) rest sp)
    as (m2 & HD & H1 & H2 & H3 & H4 & _); [done..|lia|done|done|]. fold w in HD.
  eexists w, _, _, g', m2. split; [|split; [apply (HE Hwl)|split; [exact HD|]]].
  - unfold Len. rewrite Hd. cbn [negb]. rewrite (msglen_byte m b Hb id Hid), bindO_ret.
    rewrite len_with_dirty by done. do 2 f_equal. unfold w, publish_wire.
    rewrite zlen_app, zlen_hdr_wire. done.
  - unfold Topic, Payload. split; [done|]. split; [done|].
    rewrite (QoS_byte m2 b), (QoS_byte m b), (Dup_byte m2 b), (Dup_byte m b),
      (Retain_byte m2 b), (Retain_byte m b) by done.
    do 3 (split; [done|]). intros Hq. specialize (H4 Hq).
    assert (Eq : (qos_of b =? 0) = false) by lia. unfold sent_id in Es. rewrite Eq in Es.
    pose proof (ensurePacketId_spec (hdr m) g Hg) as Hen. rewrite Es in Hen.
    assert (Hpid : PacketId (hdr m2) = PacketId h').
    { unfold PacketId. rewrite H4. unfold id, sent_bytes. by rewrite Eq. }
    split; [exact Hpid|]. apply Hen.
Qed.

(** the message [PushMsg] builds: QoS 1, a download topic, a payload *)
Definition sample_publish : PublishMessage :=
  SetPayload (fst (SetTopic (mkPublish (hdr NewPublishMessage) [] []) (str "a/b"))) (str "hi").

Lemma publish_roundtrip_witness :
  exists w m0 m1 g1 m2,
    Len sample_publish = Ret (m0, zlen w) /\
    Encode sample_publish 0 (replicate 20 0) = Ret (m1, g1, w ++ drop (length w) (replicate 20 0), zlen w, None) /\
    Decode NewPublishMessage (Slice (w ++ []) []) = Ret (m2, zlen w, None) /\
    Topic m2 = str "a/b" /\ Payload m2 = str "hi".
Proof.
  destruct (publish_roundtrip sample_publish 48 0 (replicate 20 0) [] [])
    as (w & m0 & m1 & g1 & m2 & H1 & H2 & H3 & H4 & H5 & _).
  - constructor; try reflexivity; vm_compute; try (split; (reflexivity || discriminate)); exact I.
  - lia.
  - reflexivity.
  - reflexivity.
  - vm_compute. discriminate.
  - exists w, m0, m1, g1, m2. repeat split; assumption.
Defined.

(** ** Accepted packets *)

Lemma slice_window s a b s' :
  slice_range s a b = Ret s' -> b <= len s ->
  vis s' = take (Z.to_nat (b - a)) (drop (Z.to_nat a) (vis s)).
Proof.
  unfold slice_range. destruct (_ && _) eqn:E; [|done]. intros [= <-] Hb. cbn [vis].
  unfold backing, len in *. rewrite drop_app_le by zl. rewrite take_app_le; [done|].
  rewrite length_drop. zl.
Qed.

(** the size of the identifier field *)
Definition id_len (b : Z) : Z := if qos_of b =? 0 then 0 else 2.

(** the steps of a successful [Decode] *)
Lemma Decode_inv m src m' n :
  Decode m src = Ret (m', n, None) ->
  exists b h hn s t tn p,
    decode (hdr m) src = Ret (h, hn, None) /\ rd h (mtypeflags h) = [b] /\
    slice_from src hn = Ret s /\ readLPBytes s = Ret (t, tn, None) /\ ValidTopic t = true /\
    slice_range src (hn + tn + id_len b) (hn + remlen h) = Ret p /\
    topic m' = t /\ payload m' = vis p /\ n = hn + tn + id_len b + zlen (vis p) /\
    mtypeflags (hdr m') = Sub 0 1 /\ dbuf (hdr m') = src /\ dirty (hdr m') = false /\
    (qos_of b <> 0 -> packetId (hdr m') = Sub (Z.to_nat (hn + tn)) 2).
Proof.
  unfold Decode. rewrite slice_from_0, bindO_ret. intros H.
  inv_bind H as x Hx. destruct x as [[h hn] [e|]]; [done|].
  destruct (decode_inv _ _ _ _ Hx) as (b & Hb & _ & _ & Hmtf & Hdb & _).
  inv_bind H as s Hs. rewrite Z.add_0_l in *.
  inv_bind H as y Hy. destruct y as [[t tn] [e|]]; [done|].
  cbn [topic hdr with_hdr payload] in H. case_in H; [done|].
  rewrite (QoS_byte _ b) in H by done. rewrite bindO_ret in H.
  inv_bind H as z Hz. destruct z as [m2 total]. inv_bind H as p Hp. injection H as <- <-.
  exists b, h, hn, s, t, tn, p. unfold id_len.
  destruct (qos_of b =? 0) eqn:Eq; cbn [negb] in Hz.
  - injection Hz as <- <-. cbn [hdr remlen] in Hp. rewrite Z.add_0_r.
    replace (hn + tn + (remlen h - (hn + tn - hn))) with (hn + remlen h) in Hp by lia.
    repeat split; try done; [by destruct (ValidTopic t)|intros; lia].
  - inv_bind Hz as q Hq. injection Hz as <- <-. cbn [hdr remlen with_hdr with_packetId] in Hp.
    replace (hn + tn + 2 + (remlen h - (hn + tn + 2 - hn))) with (hn + remlen h) in Hp by lia.
    repeat split; try done. by destruct (ValidTopic t).
Qed.

(** cutting the body of a packet at the end of its topic and of its identifier *)
Lemma body_cut (l t : list Z) hn tn k e :
  0 <= hn -> 0 <= k -> tn = zlen (lp t) -> hn + tn + k <= e <= zlen l ->
  drop (Z.to_nat hn) l = lp t ++ drop (Z.to_nat tn) (drop (Z.to_nat hn) l) ->
  take (Z.to_nat e) l
  = take (Z.to_nat hn) l ++ lp t ++ take (Z.to_nat k) (drop (Z.to_nat (hn + tn)) l)
    ++ take (Z.to_nat (e - (hn + tn + k))) (drop (Z.to_nat (hn + tn + k)) l).
Proof.
  intros Hh Hk Htn He Hlp. zlen_facts.
  replace (Z.to_nat e) with (Z.to_nat hn + (Z.to_nat tn + (Z.to_nat k + Z.to_nat (e - (hn + tn + k)))))%nat by lia.
  rewrite <- !take_take_drop. f_equal. rewrite Hlp at 1. rewrite take_zlen_app by done. f_equal.
  rewrite !drop_drop. do 2 f_equal; f_equal; lia.
Qed.

(** C32: [Decode] accepts only well-formed PUBLISH packets and loses nothing of
    them: when it succeeds, the packet ends inside the buffer, the topic is
    valid, and the consumed bytes are the byte of the type, the remaining length as
    it was read there, and exactly as many bytes as it says: the length-prefixed topic,
    two bytes of identifier above QoS 0 (none at QoS 0), and the payload. *)
Theorem publish_decode_sound m src m' n :
  bytes_ok (vis src) -> Decode m src = Ret (m', n, None) ->
  exists b rl v id,
    rd (hdr m') (mtypeflags (hdr m')) = [b] /\ hdr_byte_ok b = true /\
    ValidTopic (topic m') = true /\ dirty (hdr m') = false /\ n <= len src /\
    take (Z.to_nat n) (vis src) = b :: rl ++ publish_body (topic m') id (payload m') /\
    Uvarint (drop 1 (vis src)) = (v, zlen rl) /\ i32 v = zlen (publish_body (topic m') id (payload m')) /\
    n = 1 + zlen rl + i32 v /\ id_ok b id /\ (qos_of b <> 0 -> rd (hdr m') (packetId (hdr m')) = id).
Proof.
  intros Hok HD.
  destruct (Decode_inv _ _ _ _ HD) as (b & h & hn & s & t & tn & p & Hx & Hb & Hs & Hy & Hvt & Hp
    & Ht & Hpl & Hn & Hmtf' & Hdb' & Hdi & Hpid).
  destruct (decode_inv _ _ _ _ Hx) as (b' & Hb' & Hhd & Hbok & Hmtf & Hdb & Hhn & _ & Hend & Huv).
  rewrite Hb in Hb'. injection Hb' as <-. destruct (Uvarint (drop 1 (vis src))) as [v k] eqn:Eu. destruct Huv as [Hk Hv].
  pose proof (slice_from_vis _ _ _ Hs) as (_ & Hsv & _).
  pose proof (readLPBytes_ret _ _ _ Hy) as (Htn & Htn2 & _).
  pose proof (slice_range_len _ _ _ _ Hp) as ([_ Hp1] & _ & Hp3).
  assert (Hil : 0 <= id_len b <= 2) by (unfold id_len; destruct (qos_of b =? 0); lia).
  assert (Hlv : len s = len src - hn) by (unfold len in *; rewrite Hsv; zl).
  assert (Hlp := readLPBytes_lp s t tn ltac:(rewrite Hsv; by apply Forall_drop) Hy ltac:(lia)).
  assert (Hpv := slice_window _ _ _ _ Hp Hend). unfold len in *.
  set (id := take (Z.to_nat (id_len b)) (drop (Z.to_nat (hn + tn)) (vis src))).
  assert (Hzi : zlen id = id_len b) by (unfold id; rewrite zlen_take, zlen_drop, !Z2Nat.id by lia; clear -Hp1 Hp3 Hend Hil Hhn Htn; lia).
  assert (Hbody : zlen (publish_body t id (vis p)) = remlen h) by (unfold publish_body; rewrite !zlen_app, zlen_lp; lia).
  exists b, (take (Z.to_nat k) (drop 1 (vis src))), v, id.
  rewrite Ht, Hpl, Hmtf', Hdi. cbn [rd]. rewrite Hdb'.
  split; [rewrite Hmtf in Hb; cbn [rd] in Hb; by rewrite Hdb in Hb|].
  do 3 (split; [done|]). split; [lia|].
  assert (Hrl : zlen (take (Z.to_nat k) (drop 1 (vis src))) = k) by (rewrite zlen_take, zlen_drop; lia).
  rewrite Hrl, Hbody. split; [|split; [done|split; [lia|split; [lia|split]]]].
  - replace n with (hn + remlen h) by lia.
    rewrite (body_cut (vis src) t hn tn (id_len b)); [|lia|lia|zl|lia|by rewrite <- Hsv].
    rewrite app_comm_cons. unfold publish_body. f_equal; [|by rewrite Hpv].
    destruct (vis src) as [|x l] eqn:Ev; [done|]. injection Hhd as ->.
    replace (Z.to_nat hn) with (S (Z.to_nat k)) by lia. done.
  - unfold id_ok, id_len in *. destruct (qos_of b =? 0); [by apply zlen_zero_nil|done].
  - intros Hq. rewrite (Hpid Hq). cbn [rd]. rewrite Hdb'. unfold id, id_len, backing in *.
    destruct (qos_of b =? 0) eqn:Eq; [lia|].
    rewrite drop_app_le by zl. rewrite take_app_le; [done|]. rewrite length_drop. zl.
Qed.

Lemma publish_decode_sound_witness :
  exists m' n b rl id,
    Decode NewPublishMessage (mkslice [50; 6; 0; 1; 97; 0; 9; 88; 1]) = Ret (m', n, None) /\
    ValidTopic (topic m') = true /\ n = 8 /\
    take (Z.to_nat n) [50; 6; 0; 1; 97; 0; 9; 88; 1] = b :: rl ++ publish_body (topic m') id (payload m') /\
    zlen (publish_body (topic m') id (payload m')) = 6.
Proof.
  destruct (Decode NewPublishMessage (mkslice [50; 6; 0; 1; 97; 0; 9; 88; 1])) as [[[m' n] [e|]]|] eqn:E;
    [vm_compute in E; discriminate| |vm_compute in E; discriminate].
  destruct (publish_decode_sound NewPublishMessage (mkslice [50; 6; 0; 1; 97; 0; 9; 88; 1]) m' n)
    as (b & rl & v & id & _ & _ & H1 & _ & _ & H3 & H4 & H5 & H6 & _).
  - apply (bool_decide_unpack _). vm_compute. exact I.
  - exact E.
  - assert (Hu : Uvarint (drop 1 [50; 6; 0; 1; 97; 0; 9; 88; 1]) = (6, 1)) by reflexivity.
    cbn [vis mkslice] in H4. rewrite Hu in H4. injection H4 as <- Hk. rewrite <- Hk in H6. exists m', n, b, rl, id. split; [reflexivity|]. split; [exact H1|].
    split; [exact H6|]. split; [exact H3|]. rewrite <- H5. reflexivity.
Defined.

(** The flag setters write through to the packet: after a successful [Decode],
    [SetDup] (which does not mark the message dirty) changes the first byte of
    the decoding buffer, so the unchanged-message path of [Encode] sends the
    packet with the new flag and every other byte as received. *)
Theorem publish_setdup_writes_through m src m' n d g dst :
  bytes_ok (vis src) -> Decode m src = Ret (m', n, None) -> len src <= zlen dst ->
  exists b tl m2,
    vis src = b :: tl /\ SetDup m' d = Ret m2 /\
    Encode m2 g dst
    = Ret (m2, g, (if d then Z.lor b 8 else Z.land b 247) :: tl ++ drop (length (vis src)) dst,
           len src, None).
Proof.
  intros Hok HD Hdst.
  destruct (Decode_inv _ _ _ _ HD) as (b & h & hn & s & t & tn & p & Hx & Hb & _ & _ & _ & _
    & _ & _ & _ & Hmtf & Hdb & Hdi & _).
  destruct (decode_inv _ _ _ _ Hx) as (b' & Hb' & Hhd & _ & Hm & Hd' & _).
  rewrite Hb in Hb'. injection Hb' as <-.
  destruct (vis src) as [|x tl] eqn:Ev; [done|]. injection Hhd as ->.
  assert (Hrd : rd (hdr m') (mtypeflags (hdr m')) = [b]).
  { rewrite Hmtf. cbn [rd]. rewrite Hdb. unfold backing. by rewrite Ev. }
  exists b, tl. unfold SetDup, update_flags. rewrite Hrd, index_0, bindO_ret.
  eexists. split; [done|]. split; [done|].
  set (f := if d then _ else _).
  unfold store_mtypeflags. rewrite Hmtf. unfold Encode. cbn [hdr with_hdr with_dbuf dirty].
  rewrite Hdi. cbn [negb].
  assert (Hv : vis (slice_set (dbuf (hdr m')) 0 f) = f :: tl).
  { unfold slice_set, backing. rewrite Hdb, Ev. cbn [vis length app].
    change (<[0%nat:=f]> (b :: tl ++ spare src)) with (f :: tl ++ spare src).
    cbn [take]. by rewrite take_app_length. }
  rewrite encode_clean_spec; cbn [dbuf with_dbuf with_hdr hdr]; unfold len in *; rewrite Hv; [|rewrite Ev in Hdst; zl].
  rewrite bindO_ret. cbn [length app]. rewrite Ev. f_equal.
Qed.

Lemma publish_setdup_writes_through_witness :
  exists b tl m' m2,
    [50; 6; 0; 1; 97; 0; 9; 88] = b :: tl /\ SetDup m' true = Ret m2 /\
    Encode m2 0 (replicate 8 0) = Ret (m2, 0, Z.lor b 8 :: tl ++ [], 8, None).
Proof.
  destruct (Decode NewPublishMessage (mkslice [50; 6; 0; 1; 97; 0; 9; 88])) as [[[m' n] [e|]]|] eqn:E;
    [vm_compute in E; discriminate| |vm_compute in E; discriminate].
  destruct (publish_setdup_writes_through NewPublishMessage (mkslice [50; 6; 0; 1; 97; 0; 9; 88]) m' n true 0 (replicate 8 0)
    ltac:(apply (bool_decide_unpack _); vm_compute; exact I) E ltac:(vm_compute; discriminate))
    as (b & tl & m2 & H1 & H2 & H3).
  exists b, tl, m', m2. split; [exact H1|]. split; [exact H2|exact H3].
Defined.

(** A PUBLISH whose topic length overruns the packet by one or two bytes is
    not refused: [readLPBytes] compares the announced length with the whole
    remaining buffer, its own two bytes included, and the slice expression that
    follows panics.  The packets concerned are exactly framed (the remaining
    length is the size of the body) and the buffer has no spare capacity, which
    is how the connection hands them to [Decode]. *)
Theorem publish_topic_overrun_panics n rest :
  zlen rest < n <= zlen rest + 2 -> n <= 65535 ->
  panics (Decode NewPublishMessage
            (mkslice (hdr_wire 48 (2 + zlen rest) ++ be16 n ++ rest))).
Proof.
  intros Hn Hmax. unfold Decode, mkslice. rewrite slice_from_0, bindO_ret.
  assert (Hr : remlen_ok (2 + zlen rest)) by (unfold remlen_ok, maxRemainingLength; zlen_facts; lia).
  rewrite (decode_spec _ 48 48 (2 + zlen rest) (be16 n ++ rest) []) by (done || zl).
  rewrite bindO_ret, Z.add_0_l.
  rewrite (slice_from_at _ (hdr_wire 48 (2 + zlen rest)) (be16 n ++ rest)) by done.
  rewrite bindO_ret. cbn [spare].
  destruct (proj2 (readLPBytes_panics (Slice (be16 n ++ rest) []) n
    (BigEndian_roundtrip n rest ltac:(zlen_facts; lia)) ltac:(zlen_facts; lia)
    ltac:(unfold len; cbn [vis]; zl))) as [pa Hpa].
  - unfold len, cap, backing. cbn [vis spare]. rewrite app_nil_r. zl.
  - rewrite Hpa. by exists pa.
Qed.

Lemma publish_topic_overrun_panics_witness :
  panics (Decode NewPublishMessage (mkslice [48; 3; 0; 2; 97])).
Proof. exact (publish_topic_overrun_panics 2 [97] ltac:(vm_compute; split; congruence) ltac:(lia)). Defined.
