(* ===== verification/Connect.v ===== *)
(** * Connect: the CONNECT packet ([message/connect.go])

    The byte fields a decoded message keeps are sub-slices of the decoding buffer,
    but nothing writes through them, so they are modelled by their contents. *)
From stdpp Require Import base list strings.
From Stdlib Require Import ZArith Lia.
From S2P Require Import Prelude GoLang MsgTypes Header.

Record ConnectMessage : Type := mkConnect {
  hdr : header;
  connectFlags : Z;
  version : Z;
  keepAlive : Z;
  protoName : list Z;
  clientId : list Z;
  willTopic : list Z;
  willMessage : list Z;
  username : list Z;
  password : list Z
}.

Definition with_hdr (h : header) (m : ConnectMessage) : ConnectMessage :=
  mkConnect h (connectFlags m) (version m) (keepAlive m) (protoName m) (clientId m)
            (willTopic m) (willMessage m) (username m) (password m).
Definition with_connectFlags (v : Z) (m : ConnectMessage) : ConnectMessage :=
  mkConnect (hdr m) v (version m) (keepAlive m) (protoName m) (clientId m)
            (willTopic m) (willMessage m) (username m) (password m).
Definition with_version (v : Z) (m : ConnectMessage) : ConnectMessage :=
  mkConnect (hdr m) (connectFlags m) v (keepAlive m) (protoName m) (clientId m)
            (willTopic m) (willMessage m) (username m) (password m).
Definition with_keepAlive (v : Z) (m : ConnectMessage) : ConnectMessage :=
  mkConnect (hdr m) (connectFlags m) (version m) v (protoName m) (clientId m)
            (willTopic m) (willMessage m) (username m) (password m).
Definition with_protoName (v : list Z) (m : ConnectMessage) : ConnectMessage :=
  mkConnect (hdr m) (connectFlags m) (version m) (keepAlive m) v (clientId m)
            (willTopic m) (willMessage m) (username m) (password m).
Definition with_clientId (v : list Z) (m : ConnectMessage) : ConnectMessage :=
  mkConnect (hdr m) (connectFlags m) (version m) (keepAlive m) (protoName m) v
            (willTopic m) (willMessage m) (username m) (password m).
Definition with_willTopic (v : list Z) (m : ConnectMessage) : ConnectMessage :=
  mkConnect (hdr m) (connectFlags m) (version m) (keepAlive m) (protoName m) (clientId m)
            v (willMessage m) (username m) (password m).
Definition with_willMessage (v : list Z) (m : ConnectMessage) : ConnectMessage :=
  mkConnect (hdr m) (connectFlags m) (version m) (keepAlive m) (protoName m) (clientId m)
            (willTopic m) v (username m) (password m).
Definition with_username (v : list Z) (m : ConnectMessage) : ConnectMessage :=
  mkConnect (hdr m) (connectFlags m) (version m) (keepAlive m) (protoName m) (clientId m)
            (willTopic m) (willMessage m) v (password m).
Definition with_password (v : list Z) (m : ConnectMessage) : ConnectMessage :=
  mkConnect (hdr m) (connectFlags m) (version m) (keepAlive m) (protoName m) (clientId m)
            (willTopic m) (willMessage m) (username m) v.

(** [this.dirty = true] *)
Definition touch (m : ConnectMessage) : ConnectMessage := with_hdr (with_dirty true (hdr m)) m.

Definition NewConnectMessage : ConnectMessage :=
  mkConnect (fst (SetType zero_header CONNECT)) 0 0 0 [] [] [] [] [] [].

(** ** Accessors and setters *)

Definition Version (m : ConnectMessage) : Z := version m.

Definition SetVersion (m : ConnectMessage) (v : Z) : ConnectMessage * option error :=
  match SupportedVersions v with
  | None => (m, Some (Errorf "connect/SetVersion: Invalid version number %d" [AInt v]))
  | Some _ => (touch (with_version v m), None)
  end.

(** [((this.connectFlags >> k) & 0x1) == 1] *)
Definition flag_bit (f k : Z) : bool := Z.land (Z.shiftr f k) 1 =? 1.

(** [connectFlags |= set] or [connectFlags &= clear] *)
Definition set_flag (m : ConnectMessage) (v : bool) (set clear : Z) : ConnectMessage :=
  touch (with_connectFlags
           (if v then Z.lor (connectFlags m) set else Z.land (connectFlags m) clear) m).

Definition CleanSession (m : ConnectMessage) : bool := flag_bit (connectFlags m) 1.
Definition SetCleanSession (m : ConnectMessage) (v : bool) : ConnectMessage := set_flag m v 2 253.

Definition WillFlag (m : ConnectMessage) : bool := flag_bit (connectFlags m) 2.
Definition SetWillFlag (m : ConnectMessage) (v : bool) : ConnectMessage := set_flag m v 4 251.

Definition WillQos (m : ConnectMessage) : Z := Z.land (Z.shiftr (connectFlags m) 3) 3.
Definition SetWillQos (m : ConnectMessage) (qos : Z) : ConnectMessage * option error :=
  if negb (qos =? QosAtMostOnce) && negb (qos =? QosAtLeastOnce) && negb (qos =? QosExactlyOnce) then
    (m, Some (Errorf "connect/SetWillQos: Invalid QoS level %d" [AInt qos]))
  else
    (touch (with_connectFlags (Z.lor (Z.land (connectFlags m) 231) (u8 (Z.shiftl qos 3))) m), None).

Definition WillRetain (m : ConnectMessage) : bool := flag_bit (connectFlags m) 5.
Definition SetWillRetain (m : ConnectMessage) (v : bool) : ConnectMessage := set_flag m v 32 223.

Definition UsernameFlag (m : ConnectMessage) : bool := flag_bit (connectFlags m) 7.
Definition SetUsernameFlag (m : ConnectMessage) (v : bool) : ConnectMessage := set_flag m v 128 127.

Definition PasswordFlag (m : ConnectMessage) : bool := flag_bit (connectFlags m) 6.
Definition SetPasswordFlag (m : ConnectMessage) (v : bool) : ConnectMessage := set_flag m v 64 191.

Definition KeepAlive (m : ConnectMessage) : Z := keepAlive m.
Definition SetKeepAlive (m : ConnectMessage) (v : Z) : ConnectMessage := touch (with_keepAlive v m).

(** [strings.ContainsAny(s, chars)] for a set of ASCII characters: an ASCII
    character occurs in a string exactly when its byte does. *)
Definition ContainsAny (s chars : list Z) : bool :=
  existsb (fun b => existsb (Z.eqb b) chars) s.

Definition clientIdChars : list Z := str "|securemode&algorithm&timeStamp".

Definition ClientId (m : ConnectMessage) : list Z := clientId m.
Definition SetClientId (m : ConnectMessage) (v : list Z) : ConnectMessage * option error :=
  if zlen v <=? 0 then (m, Some (ErrCode ErrIdentifierRejected))
  else if negb (ContainsAny v clientIdChars) then (m, Some (ErrCode ErrIdentifierRejected))
  else (touch (with_clientId v m), None).

Definition WillTopic (m : ConnectMessage) : list Z := willTopic m.
Definition SetWillTopic (m : ConnectMessage) (v : list Z) : ConnectMessage :=
  let m := with_willTopic v m in
  touch (if 0 <? zlen v then SetWillFlag m true
         else if zlen (willMessage m) =? 0 then SetWillFlag m false else m).

Definition WillMessage (m : ConnectMessage) : list Z := willMessage m.
Definition SetWillMessage (m : ConnectMessage) (v : list Z) : ConnectMessage :=
  let m := with_willMessage v m in
  touch (if 0 <? zlen v then SetWillFlag m true
         else if zlen (willTopic m) =? 0 then SetWillFlag m false else m).

Definition Username (m : ConnectMessage) : list Z := username m.
Definition SetUsername (m : ConnectMessage) (v : list Z) : ConnectMessage :=
  let m := with_username v m in
  touch (if 0 <? zlen v then SetUsernameFlag m true else SetUsernameFlag m false).

Definition Password (m : ConnectMessage) : list Z := password m.
Definition SetPassword (m : ConnectMessage) (v : list Z) : ConnectMessage :=
  let m := with_password v m in
  touch (if 0 <? zlen v then SetPasswordFlag m true else SetPasswordFlag m false).

Definition validClientId (cid : list Z) : bool := ContainsAny cid clientIdChars.

(** ** Sizes *)

Definition msglen (m : ConnectMessage) : Z :=
  let total := 0 in
  match SupportedVersions (version m) with
  | None => total
  | Some verstr =>
      let total := total + (2 + zlen verstr + 1 + 1 + 2) in
      let total := total + (2 + zlen (clientId m)) in
      let total := if WillFlag m
                   then total + (2 + zlen (willTopic m) + 2 + zlen (willMessage m)) else total in
      let total := if UsernameFlag m && (0 <? zlen (username m))
                   then total + (2 + zlen (username m)) else total in
      let total := if PasswordFlag m && (0 <? zlen (password m))
                   then total + (2 + zlen (password m)) else total in
      total
  end.

Definition Len (m : ConnectMessage) : ConnectMessage * Z :=
  let '(h, n) := len_with (hdr m) (msglen m) in (with_hdr h m, n).

(** ** Encoding *)

(** [n, err = writeLPBytes(dst[total:], b); total += n; if err != nil { return
    total, err }], then [k] *)
Definition write_lp (dst : list Z) (total : Z) (b : list Z)
    (k : list Z -> Z -> outcome (list Z * Z * option error))
  : outcome (list Z * Z * option error) :=
  let! (dst, n, err) := writeLPBytes dst total b in
  let total := total + n in
  match err with
  | Some e => Ret (dst, total, Some e)
  | None => k dst total
  end.

Definition encodeMessage (m : ConnectMessage) (dst : list Z)
  : outcome (list Z * Z * option error) :=
  let total := 0 in
  write_lp dst total (default [] (SupportedVersions (version m))) (fun dst total =>
    let! dst := put dst total [version m] in
    let total := total + 1 in
    let! dst := put dst total [connectFlags m] in
    let total := total + 1 in
    let! dst := put dst total (be16 (keepAlive m)) in
    let total := total + 2 in
    write_lp dst total (clientId m) (fun dst total =>
      let k_pass := fun dst total =>
        if PasswordFlag m && (0 <? zlen (password m))
        then write_lp dst total (password m) (fun dst total => Ret (dst, total, None))
        else Ret (dst, total, None) in
      let k_user := fun dst total =>
        if UsernameFlag m && (0 <? zlen (username m))
        then write_lp dst total (username m) k_pass
        else k_pass dst total in
      if WillFlag m
      then write_lp dst total (willTopic m) (fun dst total =>
             write_lp dst total (willMessage m) k_user)
      else k_user dst total)).

Definition Encode (m : ConnectMessage) (dst : list Z)
  : outcome (ConnectMessage * list Z * Z * option error) :=
  if negb (dirty (hdr m)) then
    let! (dst, n, err) := encode_clean "connect" (hdr m) dst in Ret (m, dst, n, err)
  else
    let '(h, t) := Type_ (hdr m) in
    let m := with_hdr h m in
    if negb (t =? CONNECT) then
      Ret (m, dst, 0, Some (Errorf "connect/Encode: Invalid message type. Expecting %d, got %d"
                                   [AInt CONNECT; AInt t]))
    else
      match SupportedVersions (version m) with
      | None => Ret (m, dst, 0, Some (ErrCode ErrInvalidProtocolVersion))
      | Some _ =>
          let hl := Header.msglen (hdr m) in
          let ml := msglen m in
          if zlen dst <? hl + ml then
            Ret (m, dst, 0, Some (Errorf "connect/Encode: Insufficient buffer size. Expecting %d, got %d."
                                         [AInt (hl + ml); AInt (zlen dst)]))
          else
            match SetRemainingLength (hdr m) (i32 ml) with
            | (h, Some e) => Ret (with_hdr h m, dst, 0, Some e)
            | (h, None) =>
                let total := 0 in
                let! (h, dst, n, err) := encode h dst in
                let m := with_hdr h m in
                let total := total + n in
                match err with
                | Some e => Ret (m, dst, total, Some e)
                | None =>
                    let! s := slice_from (mkslice dst) total in
                    let! (tl, n, err) := encodeMessage m (vis s) in
                    let dst := take (Z.to_nat total) dst ++ tl in
                    let total := total + n in
                    Ret (m, dst, total, err)
                end
            end
      end.

(** ** Decoding *)

(** [x, n, err = readLPBytes(src[total:]); total += n; if err != nil { return
    total, err }]: [set] stores the field (nil when the read fails) *)
Definition read_lp (src : slice) (total : Z) (set : list Z -> ConnectMessage)
    (k : ConnectMessage -> Z -> outcome (ConnectMessage * Z * option error))
  : outcome (ConnectMessage * Z * option error) :=
  let! s := slice_from src total in
  let! (b, n, err) := readLPBytes s in
  let m := set b in
  let total := total + n in
  match err with
  | Some e => Ret (m, total, Some e)
  | None => k m total
  end.

(** [flag && len(src[total:]) > 0] *)
Definition more (flag : bool) (src : slice) (total : Z) : outcome bool :=
  if flag then let! s := slice_from src total in Ret (0 <? len s) else Ret false.

(** the flag checks of [decodeMessage], in their order *)
Definition check_flags (m : ConnectMessage) : option error :=
  if negb (Z.land (connectFlags m) 1 =? 0) then
    Some (Errorf "connect/decodeMessage: Connect Flags reserved bit 0 is not 0" [])
  else if QosExactlyOnce <? WillQos m then
    Some (Errorf "connect/decodeMessage: Invalid QoS level (%d) for %s message"
                 [AInt (WillQos m); AStr (str (Name (snd (Type_ (hdr m)))))])
  else if negb (WillFlag m) && (WillRetain m || negb (WillQos m =? QosAtMostOnce)) then
    Some (Errorf "connect/decodeMessage: Protocol violation: If the Will Flag (%t) is set to 0 the Will QoS (%d) and Will Retain (%t) fields MUST be set to zero"
                 [AInt (Z.b2z (WillFlag m)); AInt (WillQos m); AInt (Z.b2z (WillRetain m))])
  else if negb (UsernameFlag m) && PasswordFlag m then
    Some (Errorf "connect/decodeMessage: Username flag is not set but Password flag is set, invalid" [])
  else None.

Definition decodeMessage (m : ConnectMessage) (src : slice)
  : outcome (ConnectMessage * Z * option error) :=
  let total := 0 in
  read_lp src total (fun b => with_protoName b m) (fun m total =>
    let! v := index (vis src) total in
    let m := with_version v m in
    let total := total + 1 in
    if negb (bool_decide (SupportedVersions (version m) = Some (protoName m))) then
      Ret (m, total, Some (ErrCode ErrInvalidProtocolVersion))
    else
      let! f := index (vis src) total in
      let m := with_connectFlags f m in
      let total := total + 1 in
      match check_flags m with
      | Some e => Ret (m, total, Some e)
      | None =>
          let! s := slice_from src total in
          if len s <? 2 then
            Ret (m, 0, Some (Errorf "connect/decodeMessage: Insufficient buffer size. Expecting %d, got %d."
                                    [AInt 2; AInt (len s)]))
          else
            let! ka := BigEndian_Uint16 (vis s) in
            let m := with_keepAlive ka m in
            let total := total + 2 in
            read_lp src total (fun b => with_clientId b m) (fun m total =>
              if (zlen (clientId m) =? 0) && negb (CleanSession m) then
                Ret (m, total, Some (ErrCode ErrIdentifierRejected))
              else if (0 <? zlen (clientId m)) && negb (validClientId (clientId m)) then
                Ret (m, total, Some (ErrCode ErrIdentifierRejected))
              else
                let k_pass := fun m total =>
                  let! b := more (PasswordFlag m) src total in
                  if b
                  then read_lp src total (fun b => with_password b m)
                               (fun m total => Ret (m, total, None))
                  else Ret (m, total, None) in
                let k_user := fun m total =>
                  let! b := more (UsernameFlag m) src total in
                  if b
                  then read_lp src total (fun b => with_username b m) k_pass
                  else k_pass m total in
                if WillFlag m
                then read_lp src total (fun b => with_willTopic b m) (fun m total =>
                       read_lp src total (fun b => with_willMessage b m) k_user)
                else k_user m total)
      end).

Definition Decode (m : ConnectMessage) (src : slice) : outcome (ConnectMessage * Z * option error) :=
  let total := 0 in
  let! s := slice_from src total in
  let! (h, n, err) := decode (hdr m) s in
  let m := with_hdr h m in
  match err with
  | Some e => Ret (m, total + n, Some e)
  | None =>
      let total := total + n in
      let! s := slice_from src total in
      let! (m, n, err) := decodeMessage m s in
      match err with
      | Some e => Ret (m, total + n, Some e)
      | None =>
          let total := total + n in
          Ret (with_hdr (with_dirty false (hdr m)) m, total, None)
      end
  end.

(** ** Wire form *)

Definition opt_lp (present : bool) (b : list Z) : list Z := if present then lp b else [].

(** the will, user name and password of the payload *)
Definition connect_tail (m : ConnectMessage) : list Z :=
  (if WillFlag m then lp (willTopic m) ++ lp (willMessage m) else []) ++
  opt_lp (UsernameFlag m && (0 <? zlen (username m))) (username m) ++
  opt_lp (PasswordFlag m && (0 <? zlen (password m))) (password m).

Definition connect_body (name : list Z) (m : ConnectMessage) : list Z :=
  lp name ++ [version m] ++ [connectFlags m] ++ be16 (keepAlive m) ++ lp (clientId m)
  ++ connect_tail m.

(** every string fits its two-byte length prefix *)
Definition strings_fit (m : ConnectMessage) : Prop :=
  Forall (fun s => zlen s <= maxLPString)
    [clientId m; willTopic m; willMessage m; username m; password m].

Lemma zlen_connect_body name m :
  SupportedVersions (version m) = Some name -> zlen (connect_body name m) = msglen m.
Proof.
  intros Hv. unfold msglen, connect_body, connect_tail, opt_lp. rewrite Hv.
  destruct (WillFlag m), (UsernameFlag m && _), (PasswordFlag m && _); zl.
Qed.

Lemma version_name_fits v name : SupportedVersions v = Some name -> zlen name <= maxLPString.
Proof.
  unfold SupportedVersions, maxLPString. intros H.
  repeat (case_in H; try done); injection H as <-; vm_compute; congruence.
Qed.

Lemma write_lp_filled w dst b k :
  zlen b <= maxLPString -> zlen (w ++ lp b) <= zlen dst ->
  write_lp (filled w dst) (zlen w) b k = k (filled (w ++ lp b) dst) (zlen (w ++ lp b)).
Proof.
  intros Hb Hd. unfold write_lp. rewrite writeLPBytes_filled by done.
  rewrite bindO_ret. by rewrite (zlen_app w).
Qed.

Lemma put_filled_k w dst bs (k : list Z -> Z -> outcome (list Z * Z * option error)) :
  zlen (w ++ bs) <= zlen dst ->
  bindO (put (filled w dst) (zlen w) bs) (fun d => k d (zlen w + zlen bs))
  = k (filled (w ++ bs) dst) (zlen (w ++ bs)).
Proof. intros H. rewrite put_filled by done. by rewrite bindO_ret, zlen_app. Qed.

(** an optional string, written when [c] *)
Lemma write_opt_filled (c : bool) w dst b k :
  zlen b <= maxLPString -> zlen (w ++ opt_lp c b) <= zlen dst ->
  (if c then write_lp (filled w dst) (zlen w) b k else k (filled w dst) (zlen w))
  = k (filled (w ++ opt_lp c b) dst) (zlen (w ++ opt_lp c b)).
Proof.
  intros Hb Hd. destruct c; cbn [opt_lp] in *.
  - by rewrite write_lp_filled.
  - by rewrite app_nil_r.
Qed.

(** [encodeMessage] stores the body at the start of the buffer. *)
Lemma encodeMessage_spec name m dst :
  SupportedVersions (version m) = Some name -> strings_fit m ->
  zlen (connect_body name m) <= zlen dst ->
  encodeMessage m dst
  = Ret (filled (connect_body name m) dst, zlen (connect_body name m), None).
Proof.
  intros Hv Hfit Hd. pose proof (version_name_fits _ _ Hv) as Hn.
  unfold strings_fit in Hfit. rewrite !Forall_cons in Hfit.
  destruct Hfit as (Hc & Hwt & Hwm & Hu & Hp & _).
  unfold encodeMessage. rewrite Hv. cbn [default]. unfold default, id. cbv zeta.
  unfold connect_body, connect_tail in *. set (tl := opt_lp _ (username m) ++ _) in *.
  rewrite <- (filled_nil dst) at 1. rewrite <- (zlen_nil (A:=Z)) at 1.
  rewrite write_lp_filled by (done || zl). cbn [app].
  rewrite put_filled, bindO_ret by (done || zl).
  rewrite put_filled, bindO_ret by zl. rewrite put_filled, bindO_ret by zl.
  match goal with |- context [write_lp (filled ?w _) ?n] => replace n with (zlen w) by zl end.
  rewrite write_lp_filled by (done || zl).
  set (w0 := ((_ ++ _) ++ lp (clientId m))).
  assert (Hw0 : connect_body name m = w0 ++ connect_tail m).
  { unfold w0, connect_body. by rewrite <- !app_assoc. }
  unfold connect_body, connect_tail in Hw0. fold tl in Hw0. rewrite Hw0 in *.
  set (k_pass := fun (d : list Z) (t : Z) =>
    if PasswordFlag m && (0 <? zlen (password m))
    then write_lp d t (password m) (fun d t => Ret (d, t, None)) else Ret (d, t, None)).
  assert (Hk : forall w, zlen (w ++ tl) <= zlen dst ->
    (if UsernameFlag m && (0 <? zlen (username m)) then write_lp (filled w dst) (zlen w) (username m) k_pass
     else k_pass (filled w dst) (zlen w)) = Ret (filled (w ++ tl) dst, zlen (w ++ tl), None)).
  { intros w Hw. unfold tl in *. rewrite write_opt_filled by (done || zl). unfold k_pass. cbv beta.
    rewrite (write_opt_filled _ _ _ _ (fun d t => Ret (d, t, None))) by (done || zl).
    by rewrite <- app_assoc. }
  destruct (WillFlag m).
  - rewrite write_lp_filled; [|done|zl]. rewrite write_lp_filled; [|done|zl].
    rewrite Hk by zl. unfold w0. by rewrite <- !app_assoc.
  - cbn [app] in *. rewrite Hk by zl. unfold w0. by rewrite <- !app_assoc.
Qed.

Definition connect_wire (name : list Z) (m : ConnectMessage) : list Z :=
  hdr_wire 16 (msglen m) ++ connect_body name m.

(** [Encode] after [Len] has set the remaining length *)
Lemma connect_Encode_spec name m dst :
  dirty (hdr m) = true -> rd (hdr m) (mtypeflags (hdr m)) = [16] ->
  SupportedVersions (version m) = Some name -> strings_fit m ->
  remlen_ok (msglen m) -> remlen (hdr m) = msglen m ->
  zlen dst = zlen (connect_wire name m) ->
  Encode m dst = Ret (m, connect_wire name m, zlen (connect_wire name m), None).
Proof.
  intros Hd Hb Hv Hf Hr Hs Hdst.
  pose proof (zlen_connect_body _ _ Hv) as Hbl.
  pose proof (msglen_spec (hdr m) ltac:(by rewrite Hs)) as Hml. rewrite Hs, <- (zlen_hdr_wire 16) in Hml.
  unfold Encode. rewrite Hd. cbn [negb]. rewrite (Type_one _ 16 Hb).
  change (negb (Z.shiftr 16 4 =? CONNECT)) with false. cbv iota.
  replace (with_hdr (hdr m) m) with m by (by destruct m). rewrite Hv.
  unfold connect_wire in *. rewrite zlen_app in Hdst. guard_false.
  rewrite i32_remlen, SetRemainingLength_ok by done.
  replace (with_dirty true (with_remlen (msglen m) (hdr m))) with (hdr m)
    by (rewrite <- Hs; revert Hd; destruct (hdr m); simpl; by intros ->).
  rewrite (encode_spec _ 16) by (done || (rewrite Hs; done) || zl).
  rewrite bindO_ret, Hs, Z.add_0_l. replace (with_hdr (hdr m) m) with m by (by destruct m).
  unfold mkslice. rewrite slice_from_app, bindO_ret by done. cbn [vis].
  rewrite encodeMessage_spec with (name := name); [|done..|zl].
  rewrite bindO_ret, filled_all by zl. rewrite take_zlen_app by done. rewrite Hml. by rewrite zlen_app.
Qed.

Lemma read_lp_at src w b r set k :
  vis src = w ++ lp b ++ r -> zlen b <= maxLPString ->
  read_lp src (zlen w) set k = k (set b) (zlen (w ++ lp b)).
Proof.
  intros Hs Hb. unfold read_lp. rewrite (slice_from_at _ w (lp b ++ r)) by done.
  rewrite bindO_ret, readLPBytes_spec by done. rewrite bindO_ret, zlen_app, zlen_lp. done.
Qed.

(** an optional, non-empty string, read when its flag is set *)
Lemma read_opt_at (c : bool) src w b r (m : ConnectMessage) set k :
  vis src = w ++ opt_lp c b ++ r -> zlen b <= maxLPString -> (c = false -> set b = m) ->
  bindO (more c src (zlen w)) (fun x => if x then read_lp src (zlen w) set k else k m (zlen w))
  = k (set b) (zlen (w ++ opt_lp c b)).
Proof.
  intros Hs Hb Hc. unfold more. destruct c; cbn [opt_lp] in *.
  - rewrite (slice_from_at _ w (lp b ++ r)) by done. rewrite !bindO_ret. unfold len. cbn [vis].
    guard_true. by rewrite (read_lp_at src w b r).
  - rewrite bindO_ret, app_nil_r. by rewrite Hc.
Qed.

(** ** The contract of a CONNECT message

    [connect_wf name m]: the protocol level is supported under [name], the flag
    byte obeys the checks of [decodeMessage], the client identifier is acceptable,
    and each optional string is present exactly when its flag is set. *)
Record connect_wf (name : list Z) (m : ConnectMessage) : Prop := {
  wf_version : SupportedVersions (version m) = Some name;
  wf_flags : check_flags m = None;
  wf_keepAlive : 0 <= keepAlive m < 2 ^ 16;
  wf_clientId : (clientId m = [] /\ CleanSession m = true)
                \/ (clientId m <> [] /\ validClientId (clientId m) = true);
  wf_will : WillFlag m = false -> willTopic m = [] /\ willMessage m = [];
  wf_username : UsernameFlag m = (0 <? zlen (username m));
  wf_password : PasswordFlag m = (0 <? zlen (password m));
  wf_fit : strings_fit m
}.

Lemma zero_len_nil (b : list Z) : (0 <? zlen b) = false -> b = [].
Proof. intros H. apply zlen_zero_nil. zl. Qed.

Lemma check_flags_same m1 m2 :
  connectFlags m1 = connectFlags m2 -> check_flags m1 = None -> check_flags m2 = None.
Proof.
  unfold check_flags, WillQos, WillFlag, WillRetain, UsernameFlag, PasswordFlag.
  intros ->. repeat (destruct (_ : bool); try done).
Qed.

Lemma clientId_accepted m :
  ((clientId m = [] /\ CleanSession m = true)
   \/ (clientId m <> [] /\ validClientId (clientId m) = true)) ->
  ((zlen (clientId m) =? 0) && negb (CleanSession m)) = false /\
  ((0 <? zlen (clientId m)) && negb (validClientId (clientId m))) = false.
Proof.
  intros [[-> ->]|[Hne ->]]; [done|]. cbn [negb]. rewrite andb_false_r. split; [|done].
  destruct (clientId m); [done|]. apply andb_false_intro1. zl.
Qed.

Lemma connect_tail_wf name m : connect_wf name m ->
  connect_tail m = (if WillFlag m then lp (willTopic m) ++ lp (willMessage m) else [])
                   ++ opt_lp (UsernameFlag m) (username m) ++ opt_lp (PasswordFlag m) (password m).
Proof.
  intros [_ _ _ _ _ Hun Hpw _]. unfold connect_tail. by rewrite <- Hun, <- Hpw, !andb_diag.
Qed.

(** the optional fields, read in the order they were written *)
Lemma read_tail name m h src w rest :
  connect_wf name m -> vis src = w ++ connect_tail m ++ rest ->
  let m0 := mkConnect h (connectFlags m) (version m) (keepAlive m) name (clientId m) [] [] [] [] in
  let k_pass := fun m total =>
    let! b := more (PasswordFlag m) src total in
    if b then read_lp src total (fun b => with_password b m) (fun m total => Ret (m, total, None))
    else Ret (m, total, None) in
  let k_user := fun m total =>
    let! b := more (UsernameFlag m) src total in
    if b then read_lp src total (fun b => with_username b m) k_pass else k_pass m total in
  (if WillFlag m0
   then read_lp src (zlen w) (fun b => with_willTopic b m0) (fun m total =>
          read_lp src total (fun b => with_willMessage b m) k_user)
   else k_user m0 (zlen w))
  = Ret (with_hdr h (with_protoName name m), zlen (w ++ connect_tail m), None).
Proof.
  intros Hwf Hsrc m0 k_pass k_user. rewrite (connect_tail_wf _ _ Hwf) in *.
  destruct Hwf as [_ _ _ _ Hwill Hun Hpw Hfit].
  unfold strings_fit in Hfit. rewrite !Forall_cons in Hfit. destruct Hfit as (_ & Hwt & Hwm & Hu & Hp & _).
  set (tl := opt_lp (UsernameFlag m) _ ++ _) in *.
  assert (Hk : forall m1 w, connectFlags m1 = connectFlags m -> vis src = w ++ tl ++ rest ->
    username m1 = [] -> password m1 = [] ->
    k_user m1 (zlen w) = Ret (with_password (password m) (with_username (username m) m1), zlen (w ++ tl), None)).
  { intros m1 w1 Hfl Hs Hu1 Hp1. unfold tl in *. rewrite <- app_assoc in Hs.
    unfold k_user. replace (UsernameFlag m1) with (UsernameFlag m) by (unfold UsernameFlag; by rewrite Hfl).
    rewrite (read_opt_at _ _ _ (username m) (opt_lp (PasswordFlag m) (password m) ++ rest)); [|done|done|].
    2:{ intros Hf. rewrite Hf in Hun. rewrite (zero_len_nil (username m)) by done. destruct m1. simpl in *. by subst. }
    unfold k_pass. replace (PasswordFlag (with_username _ m1)) with (PasswordFlag m)
      by (unfold PasswordFlag; cbn [with_username connectFlags]; by rewrite Hfl).
    rewrite (read_opt_at _ _ _ (password m) rest _ _ (fun m t => Ret (m, t, None))); [|by rewrite <- app_assoc|done|].
    2:{ intros Hf. rewrite Hf in Hpw. rewrite (zero_len_nil (password m)) by done. destruct m1. simpl in *. by subst. }
    by rewrite <- app_assoc. }
  change (WillFlag m0) with (WillFlag m). destruct (WillFlag m).
  - rewrite <- !app_assoc in Hsrc. erewrite read_lp_at by done.
    erewrite read_lp_at by (rewrite <- ?app_assoc; done).
    rewrite Hk by (done || (rewrite Hsrc, <- !app_assoc; done)). rewrite <- !app_assoc. by destruct m.
  - destruct (Hwill eq_refl) as [Ht Hm]. cbn [app] in *. rewrite Hk by done.
    unfold m0. destruct m. simpl in *. by subst.
Qed.

(** [decodeMessage] reads the body of a well-formed message back. *)
Lemma decodeMessage_spec name h m rest sp :
  connect_wf name m ->
  decodeMessage (with_hdr h NewConnectMessage) (Slice (connect_body name m ++ rest) sp)
  = Ret (with_hdr h (with_protoName name m), zlen (connect_body name m), None).
Proof.
  intros Hwf. pose proof Hwf as [Hv Hfl Hka Hci _ _ _ Hfit].
  pose proof (version_name_fits _ _ Hv) as Hn.
  unfold strings_fit in Hfit. rewrite !Forall_cons in Hfit. destruct Hfit as (Hc & _).
  unfold decodeMessage. set (src := Slice _ sp).
  assert (Hsrc : vis src = connect_body name m ++ rest) by done. clearbody src.
  unfold connect_body in Hsrc. rewrite <- !app_assoc in Hsrc.
  rewrite (read_lp_at src [] name _ _ _ Hsrc Hn). cbn [app].
  rewrite (index_at _ (lp name) (version m) _ _ Hsrc eq_refl).
  rewrite bindO_ret. cbn [version with_version with_protoName protoName with_hdr].
  rewrite bool_decide_true by done. cbn [negb].
  rewrite (index_at _ (lp name ++ [version m]) (connectFlags m)
    (be16 (keepAlive m) ++ lp (clientId m) ++ connect_tail m ++ rest)); [|rewrite Hsrc, <- app_assoc; done|zl].
  rewrite bindO_ret. rewrite (check_flags_same m) by done.
  rewrite (slice_from_at _ (lp name ++ [version m] ++ [connectFlags m])
    (be16 (keepAlive m) ++ lp (clientId m) ++ connect_tail m ++ rest));
    [|rewrite Hsrc, <- !app_assoc; done|zl].
  rewrite bindO_ret. unfold len. cbn [vis]. guard_false.
  rewrite BigEndian_roundtrip, bindO_ret by lia.
  set (w1 := lp name ++ [version m] ++ [connectFlags m] ++ be16 (keepAlive m)).
  assert (Hs1 : vis src = w1 ++ lp (clientId m) ++ connect_tail m ++ rest)
    by (rewrite Hsrc; unfold w1; rewrite <- !app_assoc; done).
  replace (zlen (lp name) + 1 + 1 + 2) with (zlen w1) by (unfold w1; zl).
  rewrite (read_lp_at src w1 (clientId m) _ _ _ Hs1 Hc).
  cbn [clientId with_clientId]. destruct (clientId_accepted m Hci) as [H1 H2].
  match goal with |- context [CleanSession ?x] => change (CleanSession x) with (CleanSession m) end.
  rewrite H1, H2.
  rewrite app_assoc in Hs1. pose proof (read_tail name m h src (w1 ++ lp (clientId m)) rest Hwf Hs1) as Ht.
  cbv zeta in Ht. etransitivity; [exact Ht|].
  unfold w1, connect_body. rewrite <- !app_assoc. done.
Qed.

(** ** Theorems *)

Lemma with_hdr_same m : with_hdr (hdr m) m = m.
Proof. by destruct m. Qed.

(** [Decode] reads the wire form back, whatever follows it in the buffer *)
Lemma connect_Decode_spec name m rest sp :
  connect_wf name m -> remlen_ok (msglen m) ->
  exists h2, Decode NewConnectMessage (Slice (connect_wire name m ++ rest) sp)
      = Ret (with_hdr h2 (with_protoName name m), zlen (connect_wire name m), None) /\ dirty h2 = false.
Proof.
  intros Hwf Hr. pose proof (wf_version _ _ Hwf) as Hv. pose proof (zlen_connect_body _ _ Hv) as Hbl.
  eexists. split.
  - unfold Decode. rewrite slice_from_0, bindO_ret. unfold connect_wire. rewrite <- app_assoc.
    rewrite (decode_spec _ 16 16 (msglen m) (connect_body name m ++ rest) sp) by (done || zl).
    rewrite bindO_ret, Z.add_0_l.
    rewrite slice_from_app, bindO_ret by done. rewrite decodeMessage_spec by done.
    rewrite bindO_ret, <- zlen_app. reflexivity.
  - reflexivity.
Qed.

(** C12: A CONNECT message that is well formed survives the wire: [Len] announces
    the size, [Encode] fills a buffer of that size, and [Decode] of those bytes
    (whatever follows them) returns the same protocol level, flags, keep-alive,
    client identifier, will, user name and password, with the protocol name of
    the level. *)
Theorem connect_roundtrip name m dst rest sp :
  connect_wf name m -> dirty (hdr m) = true -> rd (hdr m) (mtypeflags (hdr m)) = [16] ->
  remlen_ok (msglen m) -> zlen dst = zlen (connect_wire name m) ->
  exists m1 h2,
    Len m = (m1, zlen (connect_wire name m)) /\
    Encode m1 dst = Ret (m1, connect_wire name m, zlen (connect_wire name m), None) /\
    Decode NewConnectMessage (Slice (connect_wire name m ++ rest) sp)
    = Ret (with_hdr h2 (with_protoName name m), zlen (connect_wire name m), None) /\
    dirty h2 = false.
Proof.
  intros Hwf Hd Hb Hr Hdst. pose proof (wf_version _ _ Hwf) as Hv.
  pose proof (zlen_connect_body _ _ Hv) as Hbl.
  destruct (connect_Decode_spec name m rest sp Hwf Hr) as (h2 & HD & Hh2).
  exists (with_hdr (with_remlen (msglen m) (hdr m)) m), h2. split; [|split; [|by split]].
  - unfold Len. rewrite len_with_dirty by done. f_equal. unfold connect_wire. rewrite zlen_app, zlen_hdr_wire. lia.
  - change (connect_wire name m) with (connect_wire name (with_hdr (with_remlen (msglen m) (hdr m)) m)).
    apply connect_Encode_spec; try done. exact (wf_fit _ _ Hwf).
Qed.

(** a client with a will, a user name and a password, built with the setters *)
Definition sample_connect : ConnectMessage :=
  let m := fst (SetVersion NewConnectMessage 4) in
  let m := SetCleanSession m true in
  let m := fst (SetClientId m (str "d1|securemode=2")) in
  let m := SetKeepAlive m 300 in
  let m := SetWillTopic m (str "w") in
  let m := SetWillMessage m (str "bye") in
  let m := fst (SetWillQos m 1) in
  SetPassword (SetUsername m (str "u")) (str "pw").

Lemma sample_connect_wf : connect_wf (str "MQTT") sample_connect.
Proof.
  split; try reflexivity; try (vm_compute; split; congruence).
  - right. split; [discriminate|reflexivity].
  - apply (bool_decide_unpack _). vm_compute. exact I.
Qed.

Lemma connect_roundtrip_witness :
  let w := connect_wire (str "MQTT") sample_connect in
  exists m1 h2,
    Len sample_connect = (m1, 44) /\
    Encode m1 (replicate 44 0) = Ret (m1, w, 44, None) /\
    Decode NewConnectMessage (Slice (w ++ [192; 0]) [7])
    = Ret (with_hdr h2 (with_protoName (str "MQTT") sample_connect), 44, None) /\
    dirty h2 = false.
Proof.
  exact (connect_roundtrip (str "MQTT") sample_connect (replicate 44 0) [192; 0] [7]
    sample_connect_wf eq_refl eq_refl ltac:(vm_compute; split; congruence) eq_refl).
Defined.

(** the six fields of the flag byte: clean session, will flag, will QoS, will
    retain, user name flag, password flag *)
Definition flag_fields (f : Z) : bool * bool * Z * bool * bool * bool :=
  (flag_bit f 1, flag_bit f 2, Z.land (Z.shiftr f 3) 3, flag_bit f 5, flag_bit f 7, flag_bit f 6).

(** the effect of every setter on one value of the byte, as a boolean *)
Definition setters_exact (f : Z) : bool :=
  let '(cs, wf, wq, wr, uf, pf) := flag_fields f in
  forallb (fun v : bool => let set := fun s c : Z => if v then Z.lor f s else Z.land f c in
    bool_decide (flag_fields (set 2 253) = (v, wf, wq, wr, uf, pf) /\
                 flag_fields (set 4 251) = (cs, v, wq, wr, uf, pf) /\
                 flag_fields (set 32 223) = (cs, wf, wq, v, uf, pf) /\
                 flag_fields (set 128 127) = (cs, wf, wq, wr, v, pf) /\
                 flag_fields (set 64 191) = (cs, wf, wq, wr, uf, v))) [true; false] &&
  forallb (fun q => bool_decide (
    flag_fields (Z.lor (Z.land f 231) (u8 (Z.shiftl q 3))) = (cs, wf, q, wr, uf, pf))) [0; 1; 2].

Lemma setters_exact_all : forallb setters_exact all_bytes = true.
Proof. vm_compute. reflexivity. Qed.

Lemma flag_fields_set f (v : bool) q :
  is_byte f -> ValidQos q = true ->
  let '(cs, wf, wq, wr, uf, pf) := flag_fields f in
  let set := fun s c : Z => if v then Z.lor f s else Z.land f c in
  flag_fields (set 2 253) = (v, wf, wq, wr, uf, pf) /\
  flag_fields (set 4 251) = (cs, v, wq, wr, uf, pf) /\
  flag_fields (Z.lor (Z.land f 231) (u8 (Z.shiftl q 3))) = (cs, wf, q, wr, uf, pf) /\
  flag_fields (set 32 223) = (cs, wf, wq, v, uf, pf) /\
  flag_fields (set 128 127) = (cs, wf, wq, wr, v, pf) /\
  flag_fields (set 64 191) = (cs, wf, wq, wr, uf, v).
Proof.
  intros Hf Hq. pose proof (byte_forall setters_exact setters_exact_all f Hf) as H. unfold setters_exact in H.
  destruct (flag_fields f) as [[[[[cs wf] wq] wr] uf] pf].
  rewrite andb_true_iff, !forallb_forall in H. destruct H as [H1 H2].
  specialize (H1 v ltac:(destruct v; simpl; auto)). apply bool_decide_eq_true_1 in H1.
  unfold ValidQos, QosAtMostOnce, QosAtLeastOnce, QosExactlyOnce in Hq.
  specialize (H2 q ltac:(simpl; lia)). apply bool_decide_eq_true_1 in H2.
  destruct H1 as (E1 & E2 & E3 & E4 & E5). by repeat split.
Qed.

(** Each setter of the CONNECT flag byte sets its own field and leaves the
    five others as they were, on every value of the byte; [SetWillQos] refuses a
    level above 2 and changes nothing. *)
Theorem connect_flag_setters m v q :
  is_byte (connectFlags m) ->
  let fields := fun m => (CleanSession m, WillFlag m, WillQos m, WillRetain m, UsernameFlag m, PasswordFlag m) in
  fields (SetCleanSession m v) = (v, WillFlag m, WillQos m, WillRetain m, UsernameFlag m, PasswordFlag m) /\
  fields (SetWillFlag m v) = (CleanSession m, v, WillQos m, WillRetain m, UsernameFlag m, PasswordFlag m) /\
  (if ValidQos q
   then exists m', SetWillQos m q = (m', None) /\
          fields m' = (CleanSession m, WillFlag m, q, WillRetain m, UsernameFlag m, PasswordFlag m)
   else exists e, SetWillQos m q = (m, Some e)) /\
  fields (SetWillRetain m v) = (CleanSession m, WillFlag m, WillQos m, v, UsernameFlag m, PasswordFlag m) /\
  fields (SetUsernameFlag m v) = (CleanSession m, WillFlag m, WillQos m, WillRetain m, v, PasswordFlag m) /\
  fields (SetPasswordFlag m v) = (CleanSession m, WillFlag m, WillQos m, WillRetain m, UsernameFlag m, v).
Proof.
  intros Hb fields. pose proof (flag_fields_set (connectFlags m) v) as H.
  destruct (H 0 Hb eq_refl) as (H1 & H2 & _ & H3 & H4 & H5).
  repeat split; [exact H1|exact H2| |exact H3|exact H4|exact H5].
  unfold SetWillQos. destruct (ValidQos q) eqn:Eq.
  - destruct (H q Hb Eq) as (_ & _ & H6 & _).
    replace (negb (q =? QosAtMostOnce) && negb (q =? QosAtLeastOnce) && negb (q =? QosExactlyOnce)) with false
      by (unfold ValidQos in Eq; lia).
    eexists. split; [done|exact H6].
  - replace (negb (q =? QosAtMostOnce) && negb (q =? QosAtLeastOnce) && negb (q =? QosExactlyOnce)) with true
      by (unfold ValidQos in Eq; lia).
    eauto.
Qed.

Lemma connect_flag_setters_witness :
  CleanSession (SetCleanSession sample_connect false) = false /\
  fst (SetWillQos sample_connect 3) = sample_connect.
Proof.
  destruct (connect_flag_setters sample_connect false 3 ltac:(vm_compute; split; congruence))
    as (H1 & _ & H3 & _). cbv zeta in H1. split.
  - exact (f_equal (fun t => fst (fst (fst (fst (fst t))))) H1).
  - change (ValidQos 3) with false in H3. cbv iota in H3. destruct H3 as [e ->]. reflexivity.
Defined.

(** ** What an accepted CONNECT guarantees *)

Lemma read_lp_inv src total set k r n :
  read_lp src total set k = Ret (r, n, None) ->
  exists b t, k (set b) t = Ret (r, n, None).
Proof.
  unfold read_lp. intros H. inv_bind H as s Hs. inv_bind H as x Hx. destruct x as [[b t] [e|]]; [done|].
  eauto.
Qed.

(** the fields the optional part of the payload leaves alone *)
Definition fixed_part (m : ConnectMessage) :=
  (hdr m, connectFlags m, version m, keepAlive m, protoName m, clientId m).

Lemma check_flags_inv m : check_flags m = None ->
  Z.land (connectFlags m) 1 = 0 /\ WillQos m <= QosExactlyOnce /\
  (WillFlag m = false -> WillRetain m = false /\ WillQos m = QosAtMostOnce) /\
  (PasswordFlag m = true -> UsernameFlag m = true).
Proof.
  unfold check_flags. intros H. repeat (case_in H; [done|]). clear H.
  split; [lia|]. split; [lia|].
  destruct (WillFlag m), (WillRetain m), (UsernameFlag m), (PasswordFlag m); simpl in *; try done;
    (split; [intros ?; split; done || lia|done]) || done.
Qed.

Lemma decodeMessage_inv m src m' n :
  decodeMessage m src = Ret (m', n, None) ->
  hdr m' = hdr m /\ SupportedVersions (version m') = Some (protoName m') /\ check_flags m' = None /\
  ((zlen (clientId m') =? 0) && negb (CleanSession m')) = false /\
  ((0 <? zlen (clientId m')) && negb (validClientId (clientId m'))) = false.
Proof.
  unfold decodeMessage. intros H. apply read_lp_inv in H as (pn & t1 & H).
  inv_bind H as v Hv. case_in H; [done|]. inv_bind H as f Hf.
  destruct (check_flags _) eqn:Ef in H; [done|]. inv_bind H as s Hs. case_in H; [done|].
  inv_bind H as ka Hka. apply read_lp_inv in H as (ci & t2 & H).
  case_in H; [done|]. case_in H; [done|].
  set (m0 := with_clientId ci _) in *.
  assert (Hpass : forall m1 t, (let! b := more (PasswordFlag m1) src t in
      if b then read_lp src t (fun b => with_password b m1) (fun m total => Ret (m, total, None))
      else Ret (m1, t, None)) = Ret (m', n, None) -> fixed_part m' = fixed_part m1).
  { intros m1 t H1. inv_bind H1 as b Hb. case_in H1; [apply read_lp_inv in H1 as (? & ? & H1)|]; by injection H1 as <- _. }
  assert (Hfix : fixed_part m' = fixed_part m0).
  { case_in H.
    - apply read_lp_inv in H as (? & ? & H). apply read_lp_inv in H as (? & ? & H).
      inv_bind H as b Hb. case_in H; [apply read_lp_inv in H as (? & ? & H)|]; apply Hpass in H; done.
    - inv_bind H as b Hb. case_in H; [apply read_lp_inv in H as (? & ? & H)|]; apply Hpass in H; done. }
  unfold fixed_part in Hfix. injection Hfix as Hh Hcf Hve Hk Hpn Hci.
  split; [exact Hh|]. split; [|split; [|split]].
  - rewrite Hve, Hpn. by apply negb_false_iff, bool_decide_eq_true_1 in E.
  - by eapply check_flags_same in Ef.
  - unfold CleanSession in *. by rewrite Hcf, Hci.
  - by rewrite Hci.
Qed.

(** C34: An accepted CONNECT obeys the protocol whatever bytes were received: the
    protocol name is the one of its level, the reserved flag is clear, the will
    QoS is at most 2 and it and the retain flag are zero without a will, a
    password comes with a user name, an empty client identifier comes with a
    clean session, and a non-empty one has a character of the set that the code tests
    for (the letters of three key words, | and &, not the letters and digits that its
    comments name). *)
Theorem connect_decode_sound m src m' n :
  Decode m src = Ret (m', n, None) ->
  SupportedVersions (Version m') = Some (protoName m') /\
  Z.land (connectFlags m') 1 = 0 /\ WillQos m' <= QosExactlyOnce /\
  (WillFlag m' = false -> WillRetain m' = false /\ WillQos m' = QosAtMostOnce) /\
  (PasswordFlag m' = true -> UsernameFlag m' = true) /\
  (ClientId m' = [] -> CleanSession m' = true) /\
  (ClientId m' <> [] -> exists c, c ∈ ClientId m' /\ c ∈ clientIdChars) /\
  dirty (hdr m') = false.
Proof.
  unfold Decode. intros H. inv_bind H as s Hs. inv_bind H as x Hx. destruct x as [[h hn] [e|]]; [done|].
  inv_bind H as s2 Hs2. inv_bind H as y Hy. destruct y as [[m1 n1] [e|]]; [done|]. injection H as <- _.
  destruct (decodeMessage_inv _ _ _ _ Hy) as (_ & Hv & Hf & H1 & H2).
  destruct (check_flags_inv _ Hf) as (F1 & F2 & F3 & F4).
  do 5 (split; [done|]). split; [|split; [|done]].
  - unfold ClientId, CleanSession in *. cbn [with_hdr clientId connectFlags]. intros E. rewrite E in H1.
    cbn in H1. by apply negb_false_iff in H1.
  - unfold ClientId. cbn [with_hdr clientId]. intros Hne.
    assert (Hlt : (0 <? zlen (clientId m1)) = true) by (destruct (clientId m1); [done|zl]).
    rewrite Hlt in H2. cbn [andb] in H2. apply negb_false_iff in H2.
    unfold validClientId, ContainsAny in H2. apply existsb_exists in H2 as (c & Hc & Hc2).
    apply existsb_exists in Hc2 as (d & Hd & Hcd). apply Z.eqb_eq in Hcd. subst d.
    exists c. rewrite !list_elem_of_In. done.
Qed.

Lemma connect_decode_sound_witness :
  exists m', Decode NewConnectMessage (mkslice (connect_wire (str "MQTT") sample_connect)) = Ret (m', 44, None) /\
  SupportedVersions (Version m') = Some (protoName m').
Proof.
  destruct (Decode NewConnectMessage (mkslice (connect_wire (str "MQTT") sample_connect)))
    as [[[m' n] [e|]]|] eqn:E; [vm_compute in E; discriminate| |vm_compute in E; discriminate].
  exists m'. split; [|exact (proj1 (connect_decode_sound NewConnectMessage
    (mkslice (connect_wire (str "MQTT") sample_connect)) m' n E))].
  vm_compute in E. injection E as <- <-. reflexivity.
Defined.

(** A CONNECT whose protocol level is unknown, or known under another name,
    is refused with the CONNACK code "unacceptable protocol version", which
    [ValidConnackError] lets the server send back. *)
Theorem connect_bad_version_refused name v body rest sp :
  SupportedVersions v <> Some name -> zlen name <= maxLPString ->
  remlen_ok (zlen (lp name ++ v :: body)) ->
  let e := ErrCode ErrInvalidProtocolVersion in
  (exists m' n, Decode NewConnectMessage
     (Slice (hdr_wire 16 (zlen (lp name ++ v :: body)) ++ lp name ++ v :: body ++ rest) sp)
     = Ret (m', n, Some e)) /\ ValidConnackError e = true.
Proof.
  intros Hv Hn Hr e. split; [|reflexivity]. unfold Decode. rewrite slice_from_0, bindO_ret.
  rewrite (decode_spec _ 16 16 _ (lp name ++ v :: body ++ rest) sp) by (done || zl).
  rewrite bindO_ret, Z.add_0_l, slice_from_app, bindO_ret by done.
  unfold decodeMessage. rewrite (read_lp_at _ [] name (v :: body ++ rest)) by done. cbn [app].
  rewrite (index_at _ (lp name) v (body ++ rest)) by done. rewrite bindO_ret.
  cbn [version with_version protoName with_protoName].
  rewrite bool_decide_false by done. cbn [negb]. rewrite bindO_ret. eauto.
Qed.

Lemma connect_bad_version_refused_witness :
  exists m' n, Decode NewConnectMessage (mkslice [16; 7; 0; 4; 77; 81; 84; 84; 3])
    = Ret (m', n, Some (ErrCode ErrInvalidProtocolVersion)).
Proof.
  exact (proj1 (connect_bad_version_refused [77; 81; 84; 84] 3 [] [] []
    ltac:(vm_compute; discriminate) ltac:(vm_compute; discriminate)
    ltac:(vm_compute; split; discriminate))).
Defined.
