(* ===== verification/Subscribe.v ===== *)
(** * Subscribe: the SUBSCRIBE packet ([message/subscribe.go]) *)
From stdpp Require Import base list strings.
From Stdlib Require Import ZArith Lia.
From S2P Require Import Prelude GoLang MsgTypes Header PacketId TopicList.

Record SubscribeMessage : Type := mkSubscribe {
  hdr : header;
  topics : list (list Z);
  qos : list Z
}.

Definition with_hdr (h : header) (m : SubscribeMessage) : SubscribeMessage :=
  mkSubscribe h (topics m) (qos m).

Definition NewSubscribeMessage : SubscribeMessage :=
  mkSubscribe (fst (SetType zero_header SUBSCRIBE)) [] [].

(** ** The topic list *)

Definition Topics (m : SubscribeMessage) : list (list Z) := topics m.
Definition Qos (m : SubscribeMessage) : list Z := qos m.

(** A topic already in the list gets the new QoS and the message is not marked
    dirty. *)
Definition AddTopic (m : SubscribeMessage) (topic : list Z) (q : Z)
  : outcome (SubscribeMessage * option error) :=
  if negb (ValidQos q) then Ret (m, Some (Errorf "Invalid QoS %d" [AInt q]))
  else
    match find_topic (topics m) topic with
    | Some i =>
        let! qs := put (qos m) (Z.of_nat i) [q] in
        Ret (mkSubscribe (hdr m) (topics m) qs, None)
    | None =>
        Ret (mkSubscribe (with_dirty true (hdr m)) (topics m ++ [topic]) (qos m ++ [q]), None)
    end.

Definition RemoveTopic (m : SubscribeMessage) (topic : list Z) : outcome SubscribeMessage :=
  let! m :=
    match find_topic (topics m) topic with
    | Some i =>
        let! ts := remove_at (topics m) i in
        let! qs := remove_at (qos m) i in
        Ret (mkSubscribe (hdr m) ts qs)
    | None => Ret m
    end in
  Ret (with_hdr (with_dirty true (hdr m)) m).

Definition TopicExists (m : SubscribeMessage) (topic : list Z) : bool :=
  existsb (fun t => bool_decide (t = topic)) (topics m).

Definition TopicQos (m : SubscribeMessage) (topic : list Z) : outcome Z :=
  match find_topic (topics m) topic with
  | Some i => index (qos m) (Z.of_nat i)
  | None => Ret QosFailure
  end.

(** ** The codec *)

Fixpoint topics_len (total : Z) (ts : list (list Z)) : Z :=
  match ts with
  | [] => total
  | t :: ts => topics_len (total + (2 + zlen t + 1)) ts
  end.

Definition msglen (m : SubscribeMessage) : Z := topics_len 2 (topics m).

Definition Len (m : SubscribeMessage) : SubscribeMessage * Z :=
  let '(h, n) := len_with (hdr m) (msglen m) in (with_hdr h m, n).

(** [for remlen > 0 { ... }]: a successful round consumes at least three bytes of
    [remlen], so [Z.to_nat remlen] rounds are enough. *)
Fixpoint read_topics (fuel : nat) (src : slice) (total rl : Z) (ts : list (list Z)) (qs : list Z)
  : outcome (list (list Z) * list Z * Z * option error) :=
  match fuel with
  | O => Ret (ts, qs, total, None)
  | S fuel =>
      if 0 <? rl then
        let! s := slice_from src total in
        let! (t, n, err) := readLPBytes s in
        let total := total + n in
        match err with
        | Some e => Ret (ts, qs, total, Some e)
        | None =>
            let ts := ts ++ [t] in
            let! q := index (vis src) total in
            let qs := qs ++ [q] in
            let total := total + 1 in
            read_topics fuel src total (rl - n - 1) ts qs
        end
      else Ret (ts, qs, total, None)
  end.

Definition Decode (m : SubscribeMessage) (src : slice)
  : outcome (SubscribeMessage * Z * option error) :=
  let total := 0 in
  let! s := slice_from src total in
  let! (h, hn, err) := decode (hdr m) s in
  let m := with_hdr h m in
  let total := total + hn in
  match err with
  | Some e => Ret (m, total, Some e)
  | None =>
      let! _ := slice_range src total (total + 2) in
      let m := with_hdr (with_packetId (Sub (Z.to_nat total) 2) (hdr m)) m in
      let total := total + 2 in
      let rl := remlen (hdr m) - (total - hn) in
      let! (ts, qs, total, err) := read_topics (Z.to_nat rl) src total rl (topics m) (qos m) in
      let m := mkSubscribe (hdr m) ts qs in
      match err with
      | Some e => Ret (m, total, Some e)
      | None =>
          if zlen (topics m) =? 0 then
            Ret (m, 0, Some (Errorf "subscribe/Decode: Empty topic list" []))
          else Ret (with_hdr (with_dirty false (hdr m)) m, total, None)
      end
  end.

(** [for i, t := range this.topics { writeLPBytes; dst[total] = this.qos[i] }] *)
Fixpoint write_topics (i : Z) (ts : list (list Z)) (qs : list Z) (dst : list Z) (total : Z)
  : outcome (list Z * Z * option error) :=
  match ts with
  | [] => Ret (dst, total, None)
  | t :: ts =>
      let! (dst, n, err) := writeLPBytes dst total t in
      let total := total + n in
      match err with
      | Some e => Ret (dst, total, Some e)
      | None =>
          let! q := index qs i in
          let! dst := put dst total [q] in
          write_topics (i + 1) ts qs dst (total + 1)
      end
  end.

(** [Encode(dst)], with the identifier counter [g] before and after *)
Definition Encode (m : SubscribeMessage) (g : Z) (dst : list Z)
  : outcome (SubscribeMessage * Z * list Z * Z * option error) :=
  if negb (dirty (hdr m)) then
    let! (dst, n, err) := encode_clean "subscribe" (hdr m) dst in Ret (m, g, dst, n, err)
  else
    let hl := Header.msglen (hdr m) in
    let ml := msglen m in
    if zlen dst <? hl + ml then
      Ret (m, g, dst, 0, Some (Errorf "subscribe/Encode: Insufficient buffer size. Expecting %d, got %d."
                                      [AInt (hl + ml); AInt (zlen dst)]))
    else
      match SetRemainingLength (hdr m) (i32 ml) with
      | (h, Some e) => Ret (with_hdr h m, g, dst, 0, Some e)
      | (h, None) =>
          let total := 0 in
          let! (h, dst, n, err) := encode h dst in
          let m := with_hdr h m in
          let total := total + n in
          match err with
          | Some e => Ret (m, g, dst, total, Some e)
          | None =>
              let '(h, g) := ensurePacketId (hdr m) g in
              let m := with_hdr h m in
              let! (dst, n) := gocopy dst total (rd h (packetId h)) in
              let total := total + n in
              let! (dst, total, err) := write_topics 0 (topics m) (qos m) dst total in
              Ret (m, g, dst, total, err)
          end
      end.

(** ** Wire form *)

(** one topic filter with its QoS *)
Definition entry_wire (e : list Z * Z) : list Z := lp e.1 ++ [e.2].
Definition entries_wire (es : list (list Z * Z)) : list Z := concat (map entry_wire es).
Definition sub_body (id : list Z) (es : list (list Z * Z)) : list Z := id ++ entries_wire es.
Definition sub_wire (id : list Z) (es : list (list Z * Z)) : list Z :=
  hdr_wire 130 (zlen (sub_body id es)) ++ sub_body id es.

Definition entries_fit (es : list (list Z * Z)) : Prop :=
  Forall (fun e => zlen e.1 <= maxLPString) es.

Lemma entries_wire_cons e es : entries_wire (e :: es) = lp e.1 ++ [e.2] ++ entries_wire es.
Proof. unfold entries_wire, entry_wire. simpl. by rewrite <- app_assoc. Qed.

Lemma subscribe_topics_len_spec n es : topics_len n es.*1 = n + zlen (entries_wire es).
Proof.
  revert n. induction es as [|e es IH]; intros n.
  - change (entries_wire []) with (@nil Z). simpl. rewrite zlen_nil. lia.
  - rewrite entries_wire_cons. simpl. rewrite IH. zl.
Qed.

(** the message holds the entries [es] *)
Definition holds (m : SubscribeMessage) (es : list (list Z * Z)) : Prop :=
  topics m = es.*1 /\ qos m = es.*2.

Lemma msglen_holds m es id : holds m es -> zlen id = 2 -> msglen m = zlen (sub_body id es).
Proof.
  intros [Ht _] Hid. unfold msglen. rewrite Ht, subscribe_topics_len_spec. unfold sub_body. zl.
Qed.

Lemma subscribe_write_topics_filled es qpre w dst :
  entries_fit es -> zlen (w ++ entries_wire es) <= zlen dst ->
  write_topics (zlen qpre) es.*1 (qpre ++ es.*2) (filled w dst) (zlen w)
  = Ret (filled (w ++ entries_wire es) dst, zlen (w ++ entries_wire es), None).
Proof.
  intros Hf. revert qpre w. induction Hf as [|[t q] es Ht Hf IH]; intros qpre w Hd.
  - change (entries_wire []) with (@nil Z). by rewrite !app_nil_r.
  - rewrite entries_wire_cons in *. cbn [fst snd fmap list_fmap write_topics] in *.
    rewrite writeLPBytes_filled, bindO_ret by (done || zl).
    rewrite index_app, bindO_ret by done. rewrite put_filled, bindO_ret by zl.
    specialize (IH (qpre ++ [q]) ((w ++ lp t) ++ [q])). rewrite <- !app_assoc in *. cbn [app] in *.
    rewrite <- IH by zl. f_equal; zl.
Qed.

(** The loop of [Decode] reads back what the loop of [Encode] wrote; the fuel it
    is given is enough. *)
Lemma subscribe_read_topics_spec es fuel src w rest ts qs :
  entries_fit es -> vis src = w ++ entries_wire es ++ rest ->
  zlen (entries_wire es) <= Z.of_nat fuel ->
  read_topics fuel src (zlen w) (zlen (entries_wire es)) ts qs
  = Ret (ts ++ es.*1, qs ++ es.*2, zlen (w ++ entries_wire es), None).
Proof.
  intros Hf. revert fuel w ts qs. induction Hf as [|[t q] es Ht Hf IH]; intros fuel w ts qs Hs Hfu.
  - change (entries_wire []) with (@nil Z). simpl. rewrite !app_nil_r. by destruct fuel.
  - rewrite entries_wire_cons in *. cbn [fst snd] in *.
    destruct fuel as [|fuel]; [zl|]. cbn [read_topics]. guard_true.
    rewrite <- !app_assoc in Hs.
    rewrite (slice_from_at _ w (lp t ++ [q] ++ entries_wire es ++ rest)), bindO_ret by done.
    rewrite readLPBytes_spec, bindO_ret by done.
    rewrite (index_at _ (w ++ lp t) q (entries_wire es ++ rest)), bindO_ret; [|by rewrite <- app_assoc|zl].
    specialize (IH fuel (w ++ lp t ++ [q]) (ts ++ [t]) (qs ++ [q])).
    rewrite <- !app_assoc in IH. cbn [app] in *. etransitivity; [|apply IH; [done|zl]].
    f_equal; zl.
Qed.

(** the part of [Encode] common to a message that [Len] has sized *)
Lemma subscribe_Encode_spec m es g dst :
  dirty (hdr m) = true -> rd (hdr m) (mtypeflags (hdr m)) = [130] ->
  holds m es -> entries_fit es -> 0 <= g ->
  remlen (hdr m) = msglen m -> remlen_ok (msglen m) ->
  zlen dst = Header.msglen (hdr m) + msglen m ->
  let '(h', g') := ensurePacketId (hdr m) g in
  let w := sub_wire (rd h' (packetId h')) es in
  Encode m g dst = Ret (with_hdr h' m, g', w, zlen w, None).
Proof.
  intros Hd Hb Hh Hf Hg Hs Hr Hdst.
  pose proof (ensurePacketId_spec (hdr m) g Hg) as Hen.
  destruct (ensurePacketId (hdr m) g) as [h' g'] eqn:Ee. destruct Hen as (Hid & _).
  cbv zeta. set (id := rd h' (packetId h')) in *. pose proof (msglen_holds m es id Hh Hid) as Hml.
  pose proof (msglen_spec (hdr m) ltac:(by rewrite Hs)) as Hhm. rewrite Hs, <- (zlen_hdr_wire 130), Hml in Hhm.
  unfold Encode. rewrite Hd. cbn [negb]. guard_false.
  rewrite i32_remlen, SetRemainingLength_ok by done.
  replace (with_dirty true (with_remlen (msglen m) (hdr m))) with (hdr m)
    by (rewrite <- Hs; revert Hd; destruct (hdr m); simpl; by intros ->).
  rewrite (encode_spec _ 130) by (done || (rewrite Hs; done) || zl).
  rewrite bindO_ret, Hs, Hml, Hhm, Z.add_0_l. cbn [hdr with_hdr]. rewrite Ee.
  set (hw := hdr_wire 130 (zlen (sub_body id es))) in *.
  change (hw ++ drop (length hw) dst) with (filled hw dst). unfold sub_wire. fold hw.
  assert (Hbl : zlen (sub_body id es) = 2 + zlen (entries_wire es)) by (unfold sub_body; zl).
  fold id. rewrite gocopy_filled, bindO_ret by zl. rewrite <- zlen_app.
  destruct Hh as [Ht Hq]. cbn [topics qos with_hdr]. rewrite Ht, Hq.
  rewrite (subscribe_write_topics_filled es [] (hw ++ id)) by (done || zl).
  rewrite bindO_ret, <- app_assoc. unfold sub_body in *. rewrite filled_all by zl. done.
Qed.

Lemma subscribe_Decode_spec m b0 id es rest sp :
  rd (hdr m) (mtypeflags (hdr m)) = [b0] -> Z.shiftr b0 4 = SUBSCRIBE ->
  zlen id = 2 -> entries_fit es -> es <> [] -> remlen_ok (zlen (sub_body id es)) ->
  topics m = [] -> qos m = [] ->
  exists m', Decode m (Slice (sub_wire id es ++ rest) sp) = Ret (m', zlen (sub_wire id es), None) /\
    holds m' es /\ rd (hdr m') (packetId (hdr m')) = id /\ dirty (hdr m') = false.
Proof.
  intros Hb0 Ht Hid Hf Hne Hr Hts Hqs. unfold Decode.
  rewrite slice_from_0, bindO_ret. unfold sub_wire. set (body := sub_body id es) in *. rewrite <- !app_assoc.
  rewrite (decode_spec _ b0 130 _ (body ++ rest) sp) by (done || zl).
  set (hw := hdr_wire 130 (zlen body)). rewrite bindO_ret, Z.add_0_l.
  assert (Hbl : zlen body = 2 + zlen (entries_wire es)) by (unfold body, sub_body; zl).
  assert (Hv : hw ++ body ++ rest = hw ++ id ++ entries_wire es ++ rest)
    by (unfold body, sub_body; by rewrite <- !app_assoc).
  rewrite (slice_range_at _ hw id (entries_wire es ++ rest)), bindO_ret; [|done|done|zl].
  cbn [hdr with_hdr with_packetId remlen topics qos]. rewrite Hts, Hqs.
  replace (zlen body - (zlen hw + 2 - zlen hw)) with (zlen (entries_wire es)) by lia.
  replace (zlen hw + 2) with (zlen (hw ++ id)) by zl.
  rewrite (subscribe_read_topics_spec es _ _ (hw ++ id) rest); [|done|cbn [vis]; by rewrite Hv, <- app_assoc|zl].
  rewrite bindO_ret. cbn [app topics]. destruct es as [|e es']; [done|]. guard_false.
  eexists. split; [f_equal; f_equal; f_equal; unfold body, sub_body; zl|].
  split; [done|]. split; [|done].
  cbn [hdr with_hdr with_dirty with_packetId packetId rd dbuf]. unfold backing. cbn [vis spare].
  rewrite Hv, <- app_assoc, drop_zlen_app by done.
  replace 2%nat with (Z.to_nat 2) by lia. rewrite <- app_assoc. by apply take_zlen_app.
Qed.

(** C30: SUBSCRIBE survives the wire: [Len] announces the size, [Encode] fills a
    buffer of that size, drawing a non-zero identifier when the message has none,
    and [Decode] returns the same topic filters and QoS bytes in the same order,
    and the identifier. *)
Theorem subscribe_roundtrip m es g rest sp dst :
  dirty (hdr m) = true -> rd (hdr m) (mtypeflags (hdr m)) = [130] -> holds m es ->
  es <> [] -> entries_fit es -> remlen_ok (msglen m) -> 0 <= g ->
  zlen dst = snd (Len m) ->
  exists m1 m2 g2 w m3,
    Len m = (m1, zlen w) /\ Encode m1 g dst = Ret (m2, g2, w, zlen w, None) /\
    Decode NewSubscribeMessage (Slice (w ++ rest) sp) = Ret (m3, zlen w, None) /\
    Topics m3 = es.*1 /\ Qos m3 = es.*2 /\
    PacketId (hdr m3) = PacketId (hdr m2) /\ PacketId (hdr m2) <> 0.
Proof.
  intros Hd Hb Hh Hne Hf Hr Hg Hdst. unfold Len in *. rewrite len_with_dirty in * by done.
  cbn [snd] in Hdst. set (m1 := with_hdr (with_remlen (msglen m) (hdr m)) m).
  pose proof (subscribe_Encode_spec m1 es g dst Hd Hb Hh Hf Hg eq_refl Hr) as HE.
  pose proof (ensurePacketId_spec (hdr m1) g Hg) as Hen.
  destruct (ensurePacketId (hdr m1) g) as [h' g'] eqn:Ee. destruct Hen as (Hid & Hnz & _).
  set (id := rd h' (packetId h')) in *. pose proof (msglen_holds m es id Hh Hid) as Hml.
  destruct (subscribe_Decode_spec NewSubscribeMessage 130 id es rest sp) as (m3 & HD & [H1 H2] & H3 & H4);
    [done..|by rewrite <- Hml|done|done|].
  exists m1, (with_hdr h' m1), g', (sub_wire id es), m3.
  split; [f_equal; unfold sub_wire; rewrite zlen_app, zlen_hdr_wire, <- Hml; lia|].
  split; [apply HE; rewrite msglen_spec by done; exact Hdst|].
  split; [exact HD|]. split; [done|]. split; [done|]. split; [|done].
  unfold PacketId. cbn [hdr with_hdr]. fold id. by rewrite H3.
Qed.

(** a request for two topic filters, built with [AddTopic] *)
Definition sample_subscribe : SubscribeMessage :=
  mkSubscribe (hdr NewSubscribeMessage) [str "a/+"; str "b"] [1; 0].

Lemma subscribe_roundtrip_witness :
  exists m1 m2 g2 w m3,
    Len sample_subscribe = (m1, zlen w) /\
    Encode m1 9 (replicate 14 0) = Ret (m2, g2, w, zlen w, None) /\
    Decode NewSubscribeMessage (Slice (w ++ [1]) []) = Ret (m3, zlen w, None) /\
    Topics m3 = [str "a/+"; str "b"] /\ Qos m3 = [1; 0] /\
    PacketId (hdr m3) = PacketId (hdr m2) /\ PacketId (hdr m2) <> 0.
Proof.
  exact (subscribe_roundtrip sample_subscribe [(str "a/+", 1); (str "b", 0)] 9 [1] [] (replicate 14 0)
    eq_refl eq_refl ltac:(split; reflexivity) ltac:(discriminate)
    ltac:(apply (bool_decide_unpack _); vm_compute; exact I)
    ltac:(vm_compute; split; discriminate) ltac:(lia) ltac:(reflexivity)).
Defined.

(** ** The message as a finite map from topic filters to QoS *)

Fixpoint assoc (es : list (list Z * Z)) (u : list Z) : option Z :=
  match es with
  | [] => None
  | (t, q) :: es => if decide (u = t) then Some q else assoc es u
  end.

Lemma assoc_app es es' u : assoc (es ++ es') u = match assoc es u with Some q => Some q | None => assoc es' u end.
Proof. induction es as [|[t q] es IH]; simpl; [done|]. by case_decide. Qed.

Lemma assoc_None es u : u ∉ es.*1 -> assoc es u = None.
Proof.
  induction es as [|[t q] es IH]; [done|]. rewrite fmap_cons, not_elem_of_cons. intros [Hne Hni]. simpl.
  rewrite decide_False by done. auto.
Qed.

Lemma find_topic_cases (es : list (list Z * Z)) t :
  match find_topic es.*1 t with
  | Some i => exists a q b, es = a ++ (t, q) :: b /\ i = length a /\ t ∉ a.*1
  | None => t ∉ es.*1
  end.
Proof.
  induction es as [|[u q] es IH]; [by apply not_elem_of_nil|]. cbn [fmap list_fmap fst find_topic].
  case_bool_decide as Hut.
  - subst. exists [], q, es. split_and!; [done..|]. by apply not_elem_of_nil.
  - destruct (find_topic _ t) as [i|]; cbn [fmap option_fmap option_map].
    + destruct IH as (a & q' & b & -> & -> & Ha). exists ((u, q) :: a), q', b. split_and!; [done..|].
      rewrite fmap_cons. apply not_elem_of_cons. done.
    + apply not_elem_of_cons. done.
Qed.

Lemma TopicQos_assoc m es u : holds m es -> TopicQos m u = Ret (default QosFailure (assoc es u)).
Proof.
  intros [Ht Hq]. unfold TopicQos. rewrite Ht, Hq. pose proof (find_topic_cases es u) as H.
  destruct (find_topic _ u) as [i|].
  - destruct H as (a & q & b & -> & -> & Ha). rewrite fmap_app, fmap_cons. cbn [snd].
    rewrite index_app by (unfold zlen; by rewrite length_fmap).
    rewrite assoc_app, assoc_None by done. simpl. by rewrite decide_True.
  - by rewrite assoc_None.
Qed.

(** no topic filter appears twice, and each has its QoS *)
Definition sub_inv (m : SubscribeMessage) : Prop := exists es, holds m es /\ NoDup es.*1.

Lemma AddTopic_map m es t q : holds m es -> NoDup es.*1 -> ValidQos q = true ->
  exists m' es', AddTopic m t q = Ret (m', None) /\ holds m' es' /\ NoDup es'.*1 /\
    forall u, assoc es' u = if decide (u = t) then Some q else assoc es u.
Proof.
  intros [Ht Hq] Hnd Hv. unfold AddTopic. rewrite Hv, Ht, Hq. cbn [negb].
  pose proof (find_topic_cases es t) as H. destruct (find_topic _ t) as [i|].
  - destruct H as (a & q0 & b & -> & -> & Ha). rewrite !fmap_app, !fmap_cons in *. cbn [fst snd] in *.
    rewrite (put_app (a.*2) (q0 :: b.*2) [q]), bindO_ret by (unfold zlen; rewrite ?length_fmap; simpl; lia).
    eexists _, (a ++ (t, q) :: b). split; [done|]. split; [|split].
    + split; cbn [topics qos]; rewrite !fmap_app, !fmap_cons; done.
    + by rewrite fmap_app, fmap_cons.
    + intros u. rewrite !assoc_app. simpl. case_decide; [subst; by rewrite assoc_None|done].
  - eexists _, (es ++ [(t, q)]). split; [done|]. split; [|split].
    + split; cbn [topics qos]; rewrite fmap_app; done.
    + rewrite fmap_app. apply NoDup_app. split; [done|]. split; [|apply NoDup_singleton].
      intros x Hx ->%list_elem_of_singleton. done.
    + intros u. rewrite assoc_app. simpl. case_decide; [subst; by rewrite assoc_None|]. by destruct (assoc es u).
Qed.

Lemma RemoveTopic_map m es t : holds m es -> NoDup es.*1 ->
  exists m' es', RemoveTopic m t = Ret m' /\ holds m' es' /\ NoDup es'.*1 /\
    forall u, assoc es' u = if decide (u = t) then None else assoc es u.
Proof.
  intros [Ht Hq] Hnd. unfold RemoveTopic. rewrite Ht, Hq.
  pose proof (find_topic_cases es t) as H. destruct (find_topic _ t) as [i|].
  - destruct H as (a & q0 & b & -> & -> & Ha). rewrite !fmap_app, !fmap_cons in *. cbn [fst snd] in *.
    pose proof (remove_at_mid a.*1 b.*1 t) as H1. pose proof (remove_at_mid a.*2 b.*2 q0) as H2.
    rewrite length_fmap in H1. rewrite length_fmap in H2. rewrite H1, bindO_ret, H2, !bindO_ret.
    apply NoDup_app in Hnd as (N1 & N2 & N3). apply NoDup_cons in N3 as [Nb N3].
    eexists _, (a ++ b). split; [done|]. split; [split; cbn; by rewrite fmap_app|]. split.
    + rewrite fmap_app. apply NoDup_app. split; [done|]. split; [|done].
      intros x Hx Hb. apply (N2 x Hx). by apply elem_of_cons; right.
    + intros u. rewrite !assoc_app. simpl. case_decide; [subst; by rewrite !assoc_None|done].
  - rewrite bindO_ret. eexists _, es. split; [done|]. split; [done|]. split; [done|].
    intros u. case_decide; [subst; by apply assoc_None|done].
Qed.

(** The topic list of a SUBSCRIBE behaves as a finite map from topic filters
    to QoS: [AddTopic] binds its topic (replacing an earlier QoS), [RemoveTopic]
    unbinds it, both leave every other topic as it was, keep the two lists in
    step and free of duplicates, and never fail on a valid QoS. *)
Theorem subscribe_topic_map m t q :
  sub_inv m -> ValidQos q = true ->
  (exists m', AddTopic m t q = Ret (m', None) /\ sub_inv m' /\
     forall u, TopicQos m' u = if decide (u = t) then Ret q else TopicQos m u) /\
  (exists m', RemoveTopic m t = Ret m' /\ sub_inv m' /\
     forall u, TopicQos m' u = if decide (u = t) then Ret QosFailure else TopicQos m u).
Proof.
  intros (es & Hh & Hnd) Hv. split.
  - destruct (AddTopic_map m es t q Hh Hnd Hv) as (m' & es' & E & Hh' & Hnd' & Ha).
    exists m'. split; [done|]. split; [by exists es'|]. intros u.
    rewrite (TopicQos_assoc _ _ _ Hh'), Ha, (TopicQos_assoc _ _ _ Hh). by case_decide.
  - destruct (RemoveTopic_map m es t Hh Hnd) as (m' & es' & E & Hh' & Hnd' & Ha).
    exists m'. split; [done|]. split; [by exists es'|]. intros u.
    rewrite (TopicQos_assoc _ _ _ Hh'), Ha, (TopicQos_assoc _ _ _ Hh). by case_decide.
Qed.

Lemma subscribe_topic_map_witness :
  exists m', AddTopic sample_subscribe (str "b") 2 = Ret (m', None) /\ TopicQos m' (str "b") = Ret 2 /\
             TopicQos m' (str "a/+") = Ret 1.
Proof.
  destruct (subscribe_topic_map sample_subscribe (str "b") 2) as [(m' & H1 & _ & H2) _].
  - exists [(str "a/+", 1); (str "b", 0)]. split; [split; reflexivity|].
    apply (bool_decide_unpack _). vm_compute. exact I.
  - reflexivity.
  - exists m'. split; [exact H1|]. split; [exact (H2 (str "b"))|exact (H2 (str "a/+"))].
Defined.

(** ** What [Decode] accepts *)

Lemma read_topics_inv fuel src total rl ts qs ts' qs' n :
  read_topics fuel src total rl ts qs = Ret (ts', qs', n, None) ->
  exists es, ts' = ts ++ es.*1 /\ qs' = qs ++ es.*2 /\ total <= n /\
    (rl <= Z.of_nat fuel -> total + rl <= n \/ rl <= 0) /\ (0 < rl -> (0 < fuel)%nat -> es <> []).
Proof.
  revert total rl ts qs. induction fuel as [|fuel IH]; intros total rl ts qs; cbn [read_topics].
  - intros [= <- <- <-]. exists []. rewrite !app_nil_r. split_and!; done || lia.
  - destruct (0 <? rl) eqn:Erl.
    + intros H. inv_bind H as s Hs. inv_bind H as x Hx. destruct x as [[t k] [e|]]; [done|].
      inv_bind H as q Hq. apply IH in H as (es & -> & -> & Hle & Hend & _).
      pose proof (readLPBytes_ret _ _ _ Hx) as (Hk & _).
      exists ((t, q) :: es). rewrite <- !app_assoc. split_and!; [done..|lia|lia|done].
    + intros [= <- <- <-]. exists []. rewrite !app_nil_r. split_and!; done || lia.
Qed.

(** A SUBSCRIBE that [Decode] accepts into a fresh message has at least one
    topic filter and exactly one QoS byte per filter, and at least the announced
    remaining length was consumed: the loop stops only when [remlen] is used up. *)
Theorem subscribe_decode_sound src m' n :
  Decode NewSubscribeMessage src = Ret (m', n, None) ->
  length (Topics m') = length (Qos m') /\ Topics m' <> [] /\ dirty (hdr m') = false /\
  exists h hn, decode (hdr NewSubscribeMessage) src = Ret (h, hn, None) /\ hn + remlen h <= n.
Proof.
  unfold Decode. rewrite slice_from_0, bindO_ret. intros H. inv_bind H as x Hx.
  destruct x as [[h hn] [e|]]; [done|]. inv_bind H as s Hs. inv_bind H as y Hy.
  destruct y as [[[ts qs] total] [e|]]; [done|]. case_in H; [done|]. injection H as <- <-.
  cbn [hdr with_hdr with_packetId remlen topics qos] in *.
  apply read_topics_inv in Hy as (es & -> & -> & Hle & Hend & Hne). cbn [NewSubscribeMessage topics qos app] in *.
  unfold Topics, Qos. cbn [with_hdr topics qos hdr with_dirty dirty].
  split; [by rewrite !length_fmap|]. split; [intros Hn; by rewrite Hn in E|]. split; [done|].
  exists h, hn. split; [done|]. specialize (Hend ltac:(lia)). lia.
Qed.

Lemma subscribe_decode_sound_witness :
  exists m' n, Decode NewSubscribeMessage (mkslice [130; 6; 0; 1; 0; 1; 97; 1]) = Ret (m', n, None) /\
    length (Topics m') = length (Qos m') /\ Topics m' <> [].
Proof.
  destruct (Decode NewSubscribeMessage (mkslice [130; 6; 0; 1; 0; 1; 97; 1])) as [[[m' n] [e|]]|] eqn:E;
    [vm_compute in E; discriminate| |vm_compute in E; discriminate].
  exists m', n. split; [reflexivity|].
  destruct (subscribe_decode_sound (mkslice [130; 6; 0; 1; 0; 1; 97; 1]) m' n E) as (H1 & H2 & _).
  split; assumption.
Defined.

(** A SUBSCRIBE that stops after its last topic filter, without the QoS byte,
    makes [Decode] panic: the byte is read with [src[total]] and no bounds check.
    The packet is exactly framed, and the topic filters before the last one are
    complete. *)
Theorem subscribe_missing_qos_panics id es t sp :
  zlen id = 2 -> entries_fit es -> zlen t <= maxLPString ->
  let body := id ++ entries_wire es ++ lp t in
  remlen_ok (zlen body) ->
  panics (Decode NewSubscribeMessage (Slice (hdr_wire 130 (zlen body) ++ body) sp)).
Proof.
  intros Hid Hf Ht body Hr. unfold Decode. rewrite slice_from_0, bindO_ret.
  pose proof (decode_spec (hdr NewSubscribeMessage) 130 130 (zlen body) body sp eq_refl eq_refl eq_refl Hr ltac:(lia)) as HD.
  rewrite HD, bindO_ret, Z.add_0_l. set (hw := hdr_wire 130 (zlen body)). clear HD.
  rewrite (slice_range_at _ hw id (entries_wire es ++ lp t)), bindO_ret; [|done|done|zl].
  cbn [hdr with_hdr with_packetId remlen topics qos NewSubscribeMessage].
  assert (Hbl : zlen body = 2 + zlen (entries_wire es) + zlen (lp t)) by (unfold body; zl).
  replace (zlen body - (zlen hw + 2 - zlen hw)) with (zlen (entries_wire es) + zlen (lp t)) by lia.
  replace (zlen hw + 2) with (zlen (hw ++ id)) by zl.
  assert (HP : forall w fuel ts qs, hw ++ body = w ++ entries_wire es ++ lp t ->
    zlen (entries_wire es) + zlen (lp t) <= Z.of_nat fuel ->
    panics (read_topics fuel (Slice (hw ++ body) sp) (zlen w) (zlen (entries_wire es) + zlen (lp t)) ts qs)).
  2:{ destruct (HP (hw ++ id) (Z.to_nat (zlen (entries_wire es) + zlen (lp t))) [] []) as [p ->];
        [unfold body; by rewrite <- app_assoc|zl|by exists p]. }
  clearbody hw. clear Hbl Hr. revert Hf. generalize (hw ++ body) as l. clear hw body.
  intros l Hf. induction Hf as [|[u q] es Hu Hf IH]; intros w fuel ts qs Hl Hfu.
  - change (entries_wire []) with (@nil Z) in *. rewrite zlen_nil in *. cbn [app] in Hl.
    destruct fuel as [|fuel]; [zl|]. cbn [read_topics]. guard_true.
    rewrite (slice_from_at _ w (lp t ++ [])), bindO_ret by (cbn [vis]; rewrite ?app_nil_r; done).
    rewrite readLPBytes_spec, bindO_ret by done. cbn [vis].
    rewrite Hl. unfold index. guard_false. by eexists.
  - rewrite entries_wire_cons in *. cbn [fst snd] in *. destruct fuel as [|fuel]; [zl|].
    cbn [read_topics]. guard_true. rewrite <- !app_assoc in Hl.
    rewrite (slice_from_at _ w (lp u ++ [q] ++ entries_wire es ++ lp t)), bindO_ret by done.
    rewrite readLPBytes_spec, bindO_ret by done. cbn [vis].
    rewrite (index_at _ (w ++ lp u) q (entries_wire es ++ lp t)), bindO_ret; [|by rewrite Hl, <- app_assoc|zl].
    specialize (IH (w ++ lp u ++ [q]) fuel (ts ++ [u]) (qs ++ [q])).
    rewrite <- !app_assoc in IH. cbn [app] in *. destruct IH as [p Hp]; [done|zl|].
    exists p. rewrite <- Hp. f_equal; zl.
Qed.

Lemma subscribe_missing_qos_panics_witness :
  panics (Decode NewSubscribeMessage (mkslice [130; 5; 0; 1; 0; 1; 97])).
Proof.
  exact (subscribe_missing_qos_panics [0; 1] [] [97] [] eq_refl ltac:(constructor)
    ltac:(vm_compute; discriminate) ltac:(vm_compute; split; discriminate)).
Defined.

(** A QoS changed on a decoded message is not sent: [AddTopic] of a topic filter
    the message already has does not mark it dirty, so [Encode] copies the
    packet as it was received. *)
Example subscribe_qos_change_lost :
  exists m m' g' n, Decode NewSubscribeMessage (mkslice [130; 6; 0; 1; 0; 1; 97; 1]) = Ret (m, n, None) /\
    AddTopic m [97] 0 = Ret (m', None) /\ TopicQos m' [97] = Ret 0 /\
    Encode m' 5 (replicate 8 0) = Ret (m', g', [130; 6; 0; 1; 0; 1; 97; 1], 8, None).
Proof.
  do 4 eexists. split; [vm_compute; reflexivity|]. split; [vm_compute; reflexivity|].
  split; vm_compute; reflexivity.
Qed.
