(* ===== verification/Unsubscribe.v ===== *)
(** * Unsubscribe: the UNSUBSCRIBE packet ([message/unsubscribe.go]) *)
From stdpp Require Import base list strings.
From Stdlib Require Import ZArith Lia.
From S2P Require Import Prelude GoLang MsgTypes Header PacketId TopicList.

Record UnsubscribeMessage : Type := mkUnsubscribe { hdr : header; topics : list (list Z) }.

Definition with_hdr (h : header) (m : UnsubscribeMessage) : UnsubscribeMessage :=
  mkUnsubscribe h (topics m).

Definition NewUnsubscribeMessage : UnsubscribeMessage :=
  mkUnsubscribe (fst (SetType zero_header UNSUBSCRIBE)) [].

Definition Topics (m : UnsubscribeMessage) : list (list Z) := topics m.

Definition TopicExists (m : UnsubscribeMessage) (topic : list Z) : bool :=
  existsb (fun t => bool_decide (t = topic)) (topics m).

Definition AddTopic (m : UnsubscribeMessage) (topic : list Z) : UnsubscribeMessage :=
  if TopicExists m topic then m
  else mkUnsubscribe (with_dirty true (hdr m)) (topics m ++ [topic]).

Definition RemoveTopic (m : UnsubscribeMessage) (topic : list Z) : outcome UnsubscribeMessage :=
  let! m :=
    match find_topic (topics m) topic with
    | Some i => let! ts := remove_at (topics m) i in Ret (mkUnsubscribe (hdr m) ts)
    | None => Ret m
    end in
  Ret (with_hdr (with_dirty true (hdr m)) m).

Fixpoint topics_len (total : Z) (ts : list (list Z)) : Z :=
  match ts with
  | [] => total
  | t :: ts => topics_len (total + (2 + zlen t)) ts
  end.

Definition msglen (m : UnsubscribeMessage) : Z := topics_len 2 (topics m).

Definition Len (m : UnsubscribeMessage) : UnsubscribeMessage * Z :=
  let '(h, n) := len_with (hdr m) (msglen m) in (with_hdr h m, n).

(** [for remlen > 0 { ... }]; each round takes at least three from [remlen] *)
Fixpoint read_topics (fuel : nat) (src : slice) (total rl : Z) (ts : list (list Z))
  : outcome (list (list Z) * Z * option error) :=
  match fuel with
  | O => Ret (ts, total, None)
  | S fuel =>
      if 0 <? rl then
        let! s := slice_from src total in
        let! (t, n, err) := readLPBytes s in
        let total := total + n in
        match err with
        | Some e => Ret (ts, total, Some e)
        | None => read_topics fuel src total (rl - n - 1) (ts ++ [t])
        end
      else Ret (ts, total, None)
  end.

Definition Decode (m : UnsubscribeMessage) (src : slice)
  : outcome (UnsubscribeMessage * Z * option error) :=
  let total := 0 in
  let! s := slice_from src total in
  let! (h, hn, err) := decode (hdr m) s in
  let m := with_hdr h m in
  let total := total + hn in
  match err with
  | Some e => Ret (m, total, Some e)
  | None =>
      let! _ := slice_range src total (total + 2) in
      let m := with_hdr (with_packetId (Sub (Z.to_nat total) 2) (hdr m)) m in
      let total := total + 2 in
      let rl := remlen (hdr m) - (total - hn) in
      let! (ts, total, err) := read_topics (Z.to_nat rl) src total rl (topics m) in
      let m := mkUnsubscribe (hdr m) ts in
      match err with
      | Some e => Ret (m, total, Some e)
      | None =>
          if zlen (topics m) =? 0 then
            Ret (m, 0, Some (Errorf "unsubscribe/Decode: Empty topic list" []))
          else Ret (with_hdr (with_dirty false (hdr m)) m, total, None)
      end
  end.

Fixpoint write_topics (ts : list (list Z)) (dst : list Z) (total : Z)
  : outcome (list Z * Z * option error) :=
  match ts with
  | [] => Ret (dst, total, None)
  | t :: ts =>
      let! (dst, n, err) := writeLPBytes dst total t in
      let total := total + n in
      match err with
      | Some e => Ret (dst, total, Some e)
      | None => write_topics ts dst total
      end
  end.

(** [Encode(dst)], with the identifier counter [g] before and after *)
Definition Encode (m : UnsubscribeMessage) (g : Z) (dst : list Z)
  : outcome (UnsubscribeMessage * Z * list Z * Z * option error) :=
  if negb (dirty (hdr m)) then
    let! (dst, n, err) := encode_clean "unsubscribe" (hdr m) dst in Ret (m, g, dst, n, err)
  else
    let hl := Header.msglen (hdr m) in
    let ml := msglen m in
    if zlen dst <? hl + ml then
      Ret (m, g, dst, 0, Some (Errorf "unsubscribe/Encode: Insufficient buffer size. Expecting %d, got %d."
                                      [AInt (hl + ml); AInt (zlen dst)]))
    else
      match SetRemainingLength (hdr m) (i32 ml) with
      | (h, Some e) => Ret (with_hdr h m, g, dst, 0, Some e)
      | (h, None) =>
          let total := 0 in
          let! (h, dst, n, err) := encode h dst in
          let m := with_hdr h m in
          let total := total + n in
          match err with
          | Some e => Ret (m, g, dst, total, Some e)
          | None =>
              let '(h, g) := ensurePacketId (hdr m) g in
              let m := with_hdr h m in
              let! (dst, n) := gocopy dst total (rd h (packetId h)) in
              let total := total + n in
              let! (dst, total, err) := write_topics (topics m) dst total in
              Ret (m, g, dst, total, err)
          end
      end.

(** ** The topic list is a set *)

Lemma AddTopic_set m t :
  NoDup (topics m) -> NoDup (topics (AddTopic m t)) /\
  forall u, TopicExists (AddTopic m t) u = bool_decide (u = t \/ u ∈ topics m).
Proof.
  intros Hnd. unfold AddTopic, TopicExists. rewrite existsb_topic. case_bool_decide as Hin.
  - split; [done|]. intros u. rewrite existsb_topic. apply bool_decide_ext. naive_solver.
  - cbn [topics]. split.
    + apply NoDup_app. split; [done|]. split; [|apply NoDup_singleton].
      intros x Hx ->%list_elem_of_singleton. done.
    + intros u. rewrite existsb_topic. apply bool_decide_ext. rewrite elem_of_app, list_elem_of_singleton. tauto.
Qed.

Lemma RemoveTopic_set m t :
  NoDup (topics m) -> exists m', RemoveTopic m t = Ret m' /\ NoDup (topics m') /\
  forall u, TopicExists m' u = bool_decide (u <> t /\ u ∈ topics m).
Proof.
  intros Hnd. unfold RemoveTopic, TopicExists. pose proof (find_topic_split (topics m) t) as H.
  destruct (find_topic _ t) as [i|].
  - destruct H as (a & b & Hts & -> & Ha). rewrite Hts in *. rewrite remove_at_mid, !bindO_ret.
    apply NoDup_app in Hnd as (N1 & N2 & N3). apply NoDup_cons in N3 as [Nb N3].
    eexists. split; [done|]. cbn [topics with_hdr]. split.
    + apply NoDup_app. split; [done|]. split; [|done]. intros x Hx Hb. apply (N2 x Hx). by apply elem_of_cons; right.
    + intros u. rewrite existsb_topic. apply bool_decide_ext. rewrite !elem_of_app, elem_of_cons.
      split; [|naive_solver]. intros [H|H]; (split; [intros ->; done|auto]).
  - rewrite bindO_ret. eexists. split; [done|]. split; [done|]. intros u. rewrite existsb_topic.
    apply bool_decide_ext. cbn. split; [|naive_solver]. intros H'. split; [intros ->; done|done].
Qed.

(** ** Wire form *)

Definition topics_wire (ts : list (list Z)) : list Z := concat (map lp ts).
Definition unsub_body (id : list Z) (ts : list (list Z)) : list Z := id ++ topics_wire ts.
Definition unsub_wire (id : list Z) (ts : list (list Z)) : list Z :=
  hdr_wire 162 (zlen (unsub_body id ts)) ++ unsub_body id ts.

Definition topics_fit (ts : list (list Z)) : Prop := Forall (fun t => zlen t <= maxLPString) ts.

Lemma topics_wire_cons t ts : topics_wire (t :: ts) = lp t ++ topics_wire ts.
Proof. reflexivity. Qed.

Lemma unsubscribe_topics_len_spec n ts : topics_len n ts = n + zlen (topics_wire ts).
Proof.
  revert n. induction ts as [|t ts IH]; intros n; simpl.
  - change (topics_wire []) with (@nil Z). rewrite zlen_nil. lia.
  - rewrite IH, topics_wire_cons. zl.
Qed.

Lemma unsubscribe_write_topics_filled ts w dst :
  topics_fit ts -> zlen (w ++ topics_wire ts) <= zlen dst ->
  write_topics ts (filled w dst) (zlen w)
  = Ret (filled (w ++ topics_wire ts) dst, zlen (w ++ topics_wire ts), None).
Proof.
  intros Hf. revert w. induction Hf as [|t ts Ht Hf IH]; intros w Hd.
  - change (topics_wire []) with (@nil Z). by rewrite !app_nil_r.
  - rewrite topics_wire_cons in *. cbn [write_topics].
    rewrite writeLPBytes_filled, bindO_ret by (done || zl). rewrite <- zlen_app.
    rewrite IH by zl. by rewrite <- app_assoc.
Qed.

(** The topics the decoding loop keeps of [ts] when it starts with [rl] bytes to
    go: it subtracts one byte too many for each topic. *)
Fixpoint kept (rl : Z) (ts : list (list Z)) : list (list Z) :=
  match ts with
  | [] => []
  | t :: ts => if 0 <? rl then t :: kept (rl - zlen (lp t) - 1) ts else []
  end.

Lemma unsubscribe_read_topics_spec ts fuel src w rest rl acc :
  topics_fit ts -> vis src = w ++ topics_wire ts ++ rest ->
  rl <= zlen (topics_wire ts) -> rl <= Z.of_nat fuel ->
  read_topics fuel src (zlen w) rl acc
  = Ret (acc ++ kept rl ts, zlen (w ++ topics_wire (kept rl ts)), None).
Proof.
  intros Hf. revert fuel w rl acc. induction Hf as [|t ts Ht Hf IH]; intros fuel w rl acc Hs Hrl Hfu.
  - change (topics_wire []) with (@nil Z) in Hrl. rewrite zlen_nil in Hrl. cbn [kept].
    change (topics_wire []) with (@nil Z). rewrite !app_nil_r. destruct fuel; cbn [read_topics]; [done|].
    by guard_false.
  - rewrite topics_wire_cons in *. cbn [kept]. destruct fuel as [|fuel]; cbn [read_topics].
    + guard_false. change (topics_wire []) with (@nil Z). by rewrite !app_nil_r.
    + destruct (0 <? rl) eqn:Erl.
      * rewrite <- !app_assoc in Hs.
        rewrite (slice_from_at _ w (lp t ++ topics_wire ts ++ rest)), bindO_ret by done.
        rewrite readLPBytes_spec, bindO_ret by done.
        replace (zlen w + (2 + zlen t)) with (zlen (w ++ lp t)) by zl.
        rewrite (IH fuel (w ++ lp t)); [|by rewrite <- app_assoc|zl|zl].
        rewrite topics_wire_cons, <- !app_assoc, zlen_lp. done.
      * change (topics_wire []) with (@nil Z). by rewrite !app_nil_r.
Qed.

Lemma unsubscribe_Decode_spec m b0 id ts rest sp :
  rd (hdr m) (mtypeflags (hdr m)) = [b0] -> Z.shiftr b0 4 = UNSUBSCRIBE ->
  zlen id = 2 -> topics_fit ts -> ts <> [] -> remlen_ok (zlen (unsub_body id ts)) -> topics m = [] ->
  let ts' := kept (zlen (topics_wire ts)) ts in
  exists m', Decode m (Slice (unsub_wire id ts ++ rest) sp)
             = Ret (m', zlen (hdr_wire 162 (zlen (unsub_body id ts)) ++ id ++ topics_wire ts'), None) /\
    topics m' = ts' /\ rd (hdr m') (packetId (hdr m')) = id /\ dirty (hdr m') = false.
Proof.
  intros Hb0 Ht Hid Hf Hne Hr Hts ts'. unfold Decode.
  rewrite slice_from_0, bindO_ret. unfold unsub_wire. set (body := unsub_body id ts) in *. rewrite <- !app_assoc.
  rewrite (decode_spec _ b0 162 _ (body ++ rest) sp) by (done || zl).
  set (hw := hdr_wire 162 (zlen body)). rewrite bindO_ret, Z.add_0_l.
  assert (Hbl : zlen body = 2 + zlen (topics_wire ts)) by (unfold body, unsub_body; zl).
  assert (Hv : hw ++ body ++ rest = hw ++ id ++ topics_wire ts ++ rest)
    by (unfold body, unsub_body; by rewrite <- !app_assoc).
  rewrite (slice_range_at _ hw id (topics_wire ts ++ rest)), bindO_ret; [|done|done|zl].
  cbn [hdr with_hdr with_packetId remlen topics]. rewrite Hts.
  replace (zlen body - (zlen hw + 2 - zlen hw)) with (zlen (topics_wire ts)) by lia.
  replace (zlen hw + 2) with (zlen (hw ++ id)) by zl.
  rewrite (unsubscribe_read_topics_spec ts _ _ (hw ++ id) rest); [|done|cbn [vis]; by rewrite Hv, <- app_assoc|lia|zl].
  rewrite bindO_ret. cbn [app topics]. fold ts'.
  assert (Hk : (zlen ts' =? 0) = false).
  { unfold ts'. destruct ts as [|t ts0]; [done|]. cbn [kept]. rewrite topics_wire_cons. guard_true. zl. }
  rewrite Hk. eexists. split; [by rewrite <- app_assoc|].
  split; [done|]. split; [|done].
  cbn [hdr with_hdr with_dirty with_packetId packetId rd dbuf]. unfold backing. cbn [vis spare].
  rewrite Hv, <- app_assoc, drop_zlen_app by done.
  replace 2%nat with (Z.to_nat 2) by lia. rewrite <- app_assoc. by apply take_zlen_app.
Qed.

Lemma unsubscribe_Encode_spec m g dst :
  dirty (hdr m) = true -> rd (hdr m) (mtypeflags (hdr m)) = [162] ->
  topics_fit (topics m) -> 0 <= g -> remlen (hdr m) = msglen m -> remlen_ok (msglen m) ->
  zlen dst = Header.msglen (hdr m) + msglen m ->
  let '(h', g') := ensurePacketId (hdr m) g in
  let w := unsub_wire (rd h' (packetId h')) (topics m) in
  Encode m g dst = Ret (with_hdr h' m, g', w, zlen w, None).
Proof.
  intros Hd Hb Hf Hg Hs Hr Hdst.
  pose proof (ensurePacketId_spec (hdr m) g Hg) as Hen.
  destruct (ensurePacketId (hdr m) g) as [h' g'] eqn:Ee. destruct Hen as (Hid & _).
  cbv zeta. set (id := rd h' (packetId h')) in *.
  assert (Hml : msglen m = zlen (unsub_body id (topics m)))
    by (unfold msglen; rewrite unsubscribe_topics_len_spec; unfold unsub_body; zl).
  pose proof (msglen_spec (hdr m) ltac:(by rewrite Hs)) as Hhm. rewrite Hs, <- (zlen_hdr_wire 162), Hml in Hhm.
  unfold Encode. rewrite Hd. cbn [negb]. guard_false.
  rewrite i32_remlen, SetRemainingLength_ok by done.
  replace (with_dirty true (with_remlen (msglen m) (hdr m))) with (hdr m)
    by (rewrite <- Hs; revert Hd; destruct (hdr m); simpl; by intros ->).
  rewrite (encode_spec _ 162) by (done || (rewrite Hs; done) || zl).
  rewrite bindO_ret, Hs, Hml, Hhm, Z.add_0_l. cbn [hdr with_hdr]. rewrite Ee.
  set (hw := hdr_wire 162 (zlen (unsub_body id (topics m)))) in *.
  change (hw ++ drop (length hw) dst) with (filled hw dst). unfold unsub_wire. fold hw.
  assert (Hbl : zlen (unsub_body id (topics m)) = 2 + zlen (topics_wire (topics m))) by (unfold unsub_body; zl).
  fold id. rewrite gocopy_filled, bindO_ret by zl. rewrite <- zlen_app. cbn [topics with_hdr].
  rewrite (unsubscribe_write_topics_filled (topics m) (hw ++ id)) by (done || zl).
  rewrite bindO_ret, <- app_assoc. unfold unsub_body in *. rewrite filled_all by zl. done.
Qed.

(** Nothing is lost while every topic, with its prefix, is at least as long as
    the list: three non-empty topics, for instance. *)
Lemma kept_all ts k n :
  0 <= k -> k + zlen ts <= n -> Forall (fun t => n <= zlen t + 2) ts ->
  kept (zlen (topics_wire ts) - k) ts = ts.
Proof.
  intros Hk Hn Hf. revert k Hk Hn. induction Hf as [|t ts Ht Hf IH]; intros k Hk Hn; [done|].
  rewrite topics_wire_cons. cbn [kept]. guard_true. f_equal.
  replace (zlen (lp t ++ topics_wire ts) - k - zlen (lp t) - 1) with (zlen (topics_wire ts) - (k + 1)) by zl.
  apply IH; zl.
Qed.

(** UNSUBSCRIBE survives the wire when its topics are not short compared with
    their number (each, with its prefix, at least as long as the list): [Len]
    announces the size, [Encode] fills a buffer of that size, drawing a non-zero
    identifier when there is none, and [Decode] returns the topics in order and
    the identifier. *)
Theorem unsubscribe_roundtrip m g rest sp dst :
  dirty (hdr m) = true -> rd (hdr m) (mtypeflags (hdr m)) = [162] ->
  topics m <> [] -> topics_fit (topics m) ->
  Forall (fun t => zlen (topics m) <= zlen t + 2) (topics m) ->
  remlen_ok (msglen m) -> 0 <= g -> zlen dst = snd (Len m) ->
  exists m1 m2 g2 w m3,
    Len m = (m1, zlen w) /\ Encode m1 g dst = Ret (m2, g2, w, zlen w, None) /\
    Decode NewUnsubscribeMessage (Slice (w ++ rest) sp) = Ret (m3, zlen w, None) /\
    Topics m3 = Topics m /\ PacketId (hdr m3) = PacketId (hdr m2) /\ PacketId (hdr m2) <> 0.
Proof.
  intros Hd Hb Hne Hf Hlong Hr Hg Hdst. unfold Len in *. rewrite len_with_dirty in * by done.
  cbn [snd] in Hdst. set (m1 := with_hdr (with_remlen (msglen m) (hdr m)) m).
  pose proof (unsubscribe_Encode_spec m1 g dst Hd Hb Hf Hg eq_refl Hr) as HE.
  pose proof (ensurePacketId_spec (hdr m1) g Hg) as Hen.
  destruct (ensurePacketId (hdr m1) g) as [h' g'] eqn:Ee. destruct Hen as (Hid & Hnz & _).
  set (id := rd h' (packetId h')) in *.
  assert (Hml : msglen m = zlen (unsub_body id (topics m)))
    by (unfold msglen; rewrite unsubscribe_topics_len_spec; unfold unsub_body; zl).
  destruct (unsubscribe_Decode_spec NewUnsubscribeMessage 162 id (topics m) rest sp) as (m3 & HD & H1 & H2 & H3);
    [done..|by rewrite <- Hml|done|].
  pose proof (kept_all (topics m) 0 (zlen (topics m)) ltac:(lia) ltac:(lia) Hlong) as Hka.
  rewrite Z.sub_0_r in Hka. rewrite Hka in *.
  exists m1, (with_hdr h' m1), g', (unsub_wire id (topics m)), m3.
  split; [f_equal; unfold unsub_wire; rewrite zlen_app, zlen_hdr_wire, <- Hml; lia|].
  split; [apply HE; rewrite msglen_spec by done; exact Hdst|].
  split; [exact HD|]. split; [done|]. split; [|done].
  unfold PacketId. cbn [hdr with_hdr]. fold id. by rewrite H2.
Qed.

Definition sample_unsubscribe (ts : list (list Z)) : UnsubscribeMessage :=
  foldl AddTopic NewUnsubscribeMessage ts.

Lemma unsubscribe_roundtrip_witness :
  exists m1 m2 g2 w m3,
    Len (sample_unsubscribe [str "a"; str "b/c"]) = (m1, zlen w) /\
    Encode m1 9 (replicate 12 0) = Ret (m2, g2, w, zlen w, None) /\
    Decode NewUnsubscribeMessage (Slice (w ++ []) []) = Ret (m3, zlen w, None) /\
    Topics m3 = [str "a"; str "b/c"] /\ PacketId (hdr m3) = PacketId (hdr m2) /\ PacketId (hdr m2) <> 0.
Proof.
  exact (unsubscribe_roundtrip (sample_unsubscribe [str "a"; str "b/c"]) 9 [] [] (replicate 12 0)
    eq_refl eq_refl ltac:(discriminate)
    ltac:(apply (bool_decide_unpack _); vm_compute; exact I)
    ltac:(apply (bool_decide_unpack _); vm_compute; exact I)
    ltac:(vm_compute; split; discriminate) ltac:(lia) ltac:(reflexivity)).
Defined.

(** [Decode] of an UNSUBSCRIBE keeps a prefix of the topics and can drop the
    rest without an error: its loop subtracts the QoS byte a SUBSCRIBE has and
    an UNSUBSCRIBE has not.  The prefix kept is [kept], and of four one-letter
    topics the last is dropped. *)
Theorem unsubscribe_decode_prefix id ts rest sp :
  zlen id = 2 -> topics_fit ts -> ts <> [] -> remlen_ok (zlen (unsub_body id ts)) ->
  (exists m' n, Decode NewUnsubscribeMessage (Slice (unsub_wire id ts ++ rest) sp) = Ret (m', n, None) /\
     Topics m' = kept (zlen (topics_wire ts)) ts /\ (exists dropped, ts = Topics m' ++ dropped)) /\
  kept (zlen (topics_wire [[97]; [98]; [99]; [100]])) [[97]; [98]; [99]; [100]] = [[97]; [98]; [99]].
Proof.
  intros Hid Hf Hne Hr. split; [|reflexivity].
  destruct (unsubscribe_Decode_spec NewUnsubscribeMessage 162 id ts rest sp) as (m' & HD & H1 & _); [done..|].
  exists m'. eexists. split; [exact HD|]. unfold Topics. split; [done|]. rewrite H1.
  generalize (zlen (topics_wire ts)). clear. induction ts as [|t ts IH]; intros rl; [by exists []|].
  cbn [kept]. destruct (0 <? rl); [|by exists (t :: ts)].
  destruct (IH (rl - zlen (lp t) - 1)) as [d Hd]. exists d. cbn [app]. by rewrite <- Hd.
Qed.

Lemma unsubscribe_decode_prefix_witness :
  exists m' n, Decode NewUnsubscribeMessage
      (mkslice [162; 14; 0; 1; 0; 1; 97; 0; 1; 98; 0; 1; 99; 0; 1; 100]) = Ret (m', n, None) /\
    Topics m' = [[97]; [98]; [99]].
Proof.
  destruct (unsubscribe_decode_prefix [0; 1] [[97]; [98]; [99]; [100]] [] [] eq_refl
    ltac:(apply (bool_decide_unpack _); vm_compute; exact I) ltac:(discriminate)
    ltac:(vm_compute; split; discriminate)) as [(m' & n & H1 & H2 & _) H3].
  exists m', n. split; [exact H1|]. rewrite H2. exact H3.
Defined.
