(* ===== verification/Message.v ===== *)
(** * Message: the [Message] interface and its implementations

    [message.go]: the interface, the constructor [MessageType.New], and the
    dynamic dispatch of [Len], [Encode] and [Decode] over the fourteen packets. *)
From stdpp Require Import base list strings.
From Stdlib Require Import ZArith Lia.
From S2P Require Import Prelude GoLang MsgTypes Header PacketId.
From S2P Require Import Connect Connack Publish Puback Suback Subscribe Unsubscribe Disconnect.

(** ** The interface

    What the type [Message] asks of an implementation; [Encode] takes the
    identifier counter and returns it. *)
Class Packet (M : Type) : Type := {
  pk_hdr : M -> header;
  pk_len : M -> outcome (M * Z);
  pk_encode : M -> Z -> list Z -> outcome (M * Z * list Z * Z * option error);
  pk_decode : M -> slice -> outcome (M * Z * option error)
}.

(** What the server relies on when it forwards a packet it received: decoding
    keeps the buffer and marks the message unchanged, and an unchanged message
    is measured and sent as that buffer. *)
Class Retains (M : Type) `{Packet M} : Prop := {
  decode_keeps m src m' n :
    pk_decode m src = Ret (m', n, None) -> dirty (pk_hdr m') = false /\ dbuf (pk_hdr m') = src;
  clean_len m : dirty (pk_hdr m) = false -> pk_len m = Ret (m, len (dbuf (pk_hdr m)));
  clean_encode m g dst :
    dirty (pk_hdr m) = false -> len (dbuf (pk_hdr m)) <= zlen dst ->
    pk_encode m g dst = Ret (m, g, filled (vis (dbuf (pk_hdr m))) dst, len (dbuf (pk_hdr m)), None)
}.

(** A packet that is received and sent on unchanged goes out as it came in. *)
Lemma forward_packet M `{Retains M} (m : M) src m' n g :
  pk_decode m src = Ret (m', n, None) ->
  pk_len m' = Ret (m', len src) /\
  pk_encode m' g (replicate (Z.to_nat (len src)) 0) = Ret (m', g, vis src, len src, None).
Proof.
  intros HD. destruct (decode_keeps _ _ _ _ HD) as [Hd Hb].
  rewrite clean_len, clean_encode by (done || (rewrite Hb; unfold len; zl)).
  rewrite Hb. split; [done|]. unfold len. rewrite filled_all by zl. done.
Qed.

(** ** The implementations *)

(** a codec that does not use the identifier counter *)
Definition no_counter {M} (enc : M -> list Z -> outcome (M * list Z * Z * option error))
    (m : M) (g : Z) (dst : list Z) : outcome (M * Z * list Z * Z * option error) :=
  let! (m, dst, n, err) := enc m dst in Ret (m, g, dst, n, err).

#[export] Instance connect_packet : Packet Connect.ConnectMessage := {|
  pk_hdr := Connect.hdr; pk_len m := Ret (Connect.Len m);
  pk_encode := no_counter Connect.Encode; pk_decode := Connect.Decode |}.
#[export] Instance connack_packet : Packet Connack.ConnackMessage := {|
  pk_hdr := Connack.hdr; pk_len m := Ret (Connack.Len m);
  pk_encode := no_counter Connack.Encode; pk_decode := Connack.Decode |}.
#[export] Instance publish_packet : Packet Publish.PublishMessage := {|
  pk_hdr := Publish.hdr; pk_len := Publish.Len;
  pk_encode := Publish.Encode; pk_decode := Publish.Decode |}.
#[export] Instance subscribe_packet : Packet Subscribe.SubscribeMessage := {|
  pk_hdr := Subscribe.hdr; pk_len m := Ret (Subscribe.Len m);
  pk_encode := Subscribe.Encode; pk_decode := Subscribe.Decode |}.
#[export] Instance suback_packet : Packet Suback.SubackMessage := {|
  pk_hdr := Suback.hdr; pk_len m := Ret (Suback.Len m);
  pk_encode := no_counter Suback.Encode; pk_decode := Suback.Decode |}.
#[export] Instance unsubscribe_packet : Packet Unsubscribe.UnsubscribeMessage := {|
  pk_hdr := Unsubscribe.hdr; pk_len m := Ret (Unsubscribe.Len m);
  pk_encode := Unsubscribe.Encode; pk_decode := Unsubscribe.Decode |}.

(** the packets whose struct is the header alone *)
Definition ack_packet : Packet header := {|
  pk_hdr h := h; pk_len m := Ret (Puback.Len m);
  pk_encode := no_counter Puback.Encode; pk_decode := Puback.Decode |}.
Definition bare_packet : Packet header := {|
  pk_hdr h := h; pk_len m := Ret (m, Disconnect.Len m);
  pk_encode := no_counter Disconnect.Encode; pk_decode := Disconnect.Decode |}.

(** Step through a successful decoder. *)
Ltac step_decode H :=
  repeat first
    [ done
    | progress cbv beta zeta in H
    | let x := fresh "x" in let Hx := fresh "Hx" in inv_bind H as x Hx;
      repeat match goal with p : (_ * _)%type |- _ => destruct p end
    | match type of H with match ?e with _ => _ end = Ret _ => destruct e eqn:?; try done end ].

(** every instance: the unchanged-message paths *)
Ltac clean_paths :=
  let m := fresh "m" in intros m; intros;
  cbn [pk_len pk_encode pk_hdr connect_packet connack_packet publish_packet subscribe_packet
       suback_packet unsubscribe_packet ack_packet] in *;
  unfold no_counter, Connect.Len, Connack.Len, Publish.Len, Subscribe.Len, Suback.Len, Unsubscribe.Len,
    Puback.Len, Connect.Encode, Connack.Encode, Publish.Encode, Subscribe.Encode, Suback.Encode,
    Unsubscribe.Encode, Puback.Encode, len_with;
  match goal with H : dirty _ = false |- _ => rewrite H end; cbn [negb];
  rewrite ?encode_clean_spec by done; rewrite ?bindO_ret; by destruct m.

(** the buffer a successful [decode] keeps *)
Lemma decode_dbuf h src h' hn : decode h src = Ret (h', hn, None) -> dbuf h' = src.
Proof. intros H. by apply decode_inv in H as (? & _ & _ & _ & _ & H & _). Qed.

Ltac kept_buffer H := injection H as <- _; cbn; split; [done|]; eauto using decode_dbuf.

#[export] Instance connect_retains : Retains Connect.ConnectMessage.
Proof.
  split; [|clean_paths..]. intros m src m' n H. cbn in *. unfold Connect.Decode in H.
  rewrite slice_from_0, bindO_ret in H. step_decode H. injection H as <- _. cbn. split; [done|].
  apply Connect.decodeMessage_inv in Hx1 as (-> & _). cbn. eauto using decode_dbuf.
Qed.

#[export] Instance connack_retains : Retains Connack.ConnackMessage.
Proof.
  split; [|clean_paths..]. intros m src m' n H. cbn in *. unfold Connack.Decode in H.
  step_decode H. kept_buffer H.
Qed.

#[export] Instance publish_retains : Retains Publish.PublishMessage.
Proof.
  split; [|clean_paths..]. intros m src m' n H. cbn in *.
  by apply Publish.Decode_inv in H as (? & ? & ? & ? & ? & ? & ? & _ & _ & _ & _ & _ & _ & _ & _ & _ & _ & ? & ? & _).
Qed.

#[export] Instance subscribe_retains : Retains Subscribe.SubscribeMessage.
Proof.
  split; [|clean_paths..]. intros m src m' n H. cbn in *. unfold Subscribe.Decode in H.
  rewrite slice_from_0, bindO_ret in H. step_decode H. kept_buffer H.
Qed.

#[export] Instance suback_retains : Retains Suback.SubackMessage.
Proof.
  split; [|clean_paths..]. intros m src m' n H. cbn in *. unfold Suback.Decode in H.
  rewrite slice_from_0, bindO_ret in H. step_decode H. kept_buffer H.
Qed.

#[export] Instance unsubscribe_retains : Retains Unsubscribe.UnsubscribeMessage.
Proof.
  split; [|clean_paths..]. intros m src m' n H. cbn in *. unfold Unsubscribe.Decode in H.
  rewrite slice_from_0, bindO_ret in H. step_decode H. kept_buffer H.
Qed.

Lemma ack_retains : @Retains header ack_packet.
Proof.
  split; [|clean_paths..]. intros m src m' n H. cbn in *. unfold Puback.Decode in H.
  rewrite slice_from_0, bindO_ret in H. step_decode H. kept_buffer H.
Qed.

(** ** Values of the interface *)

Inductive Message : Type :=
| MConnect (m : Connect.ConnectMessage)
| MConnack (m : Connack.ConnackMessage)
| MPublish (m : Publish.PublishMessage)
| MPuback (m : header)
| MPubrec (m : header)
| MPubrel (m : header)
| MPubcomp (m : header)
| MSubscribe (m : Subscribe.SubscribeMessage)
| MSuback (m : Suback.SubackMessage)
| MUnsubscribe (m : Unsubscribe.UnsubscribeMessage)
| MUnsuback (m : header)
| MPingreq (m : header)
| MPingresp (m : header)
| MDisconnect (m : header).

(** a method call on an interface value: the implementation, the receiver and
    the way back *)
Definition dispatch {R} (x : Message) (f : forall M, Packet M -> M -> (M -> Message) -> R) : R :=
  match x with
  | MConnect m => f _ _ m MConnect
  | MConnack m => f _ _ m MConnack
  | MPublish m => f _ _ m MPublish
  | MPuback m => f _ ack_packet m MPuback
  | MPubrec m => f _ ack_packet m MPubrec
  | MPubrel m => f _ ack_packet m MPubrel
  | MPubcomp m => f _ ack_packet m MPubcomp
  | MSubscribe m => f _ _ m MSubscribe
  | MSuback m => f _ _ m MSuback
  | MUnsubscribe m => f _ _ m MUnsubscribe
  | MUnsuback m => f _ ack_packet m MUnsuback
  | MPingreq m => f _ bare_packet m MPingreq
  | MPingresp m => f _ bare_packet m MPingresp
  | MDisconnect m => f _ bare_packet m MDisconnect
  end.

Definition msg_hdr (x : Message) : header := dispatch x (fun M P m _ => pk_hdr m).

Definition msg_Type (x : Message) : Z := snd (Type_ (msg_hdr x)).
Definition msg_PacketId (x : Message) : Z := PacketId (msg_hdr x).

Definition msg_Len (x : Message) : outcome (Message * Z) :=
  dispatch x (fun M P m back => let! (m, n) := pk_len m in Ret (back m, n)).

Definition msg_Encode (x : Message) (g : Z) (dst : list Z)
  : outcome (Message * Z * list Z * Z * option error) :=
  dispatch x (fun M P m back =>
    let! (m, g, dst, n, err) := pk_encode m g dst in Ret (back m, g, dst, n, err)).

Definition msg_Decode (x : Message) (src : slice) : outcome (Message * Z * option error) :=
  dispatch x (fun M P m back =>
    let! (m, n, err) := pk_decode m src in Ret (back m, n, err)).

(** [MessageType.New] *)
Definition New (t : Z) : Message + error :=
  match t with
  | 1 => inl (MConnect NewConnectMessage)
  | 2 => inl (MConnack NewConnackMessage)
  | 3 => inl (MPublish NewPublishMessage)
  | 4 => inl (MPuback NewPubackMessage)
  | 5 => inl (MPubrec NewPubrecMessage)
  | 6 => inl (MPubrel NewPubrelMessage)
  | 7 => inl (MPubcomp NewPubcompMessage)
  | 8 => inl (MSubscribe NewSubscribeMessage)
  | 9 => inl (MSuback NewSubackMessage)
  | 10 => inl (MUnsubscribe NewUnsubscribeMessage)
  | 11 => inl (MUnsuback NewUnsubackMessage)
  | 12 => inl (MPingreq NewPingreqMessage)
  | 13 => inl (MPingresp NewPingrespMessage)
  | 14 => inl (MDisconnect NewDisconnectMessage)
  | _ => inr (Errorf "msgtype/NewMessage: Invalid message type %d" [AInt t])
  end.

Definition is_bare (x : Message) : bool :=
  match x with MPingreq _ | MPingresp _ | MDisconnect _ => true | _ => false end.

(** ** Theorems *)

Lemma New_valid t : Valid t = true ->
  exists x, New t = inl x /\ rd (msg_hdr x) (mtypeflags (msg_hdr x)) = [Puback.ack_byte t] /\
            Z.shiftr (Puback.ack_byte t) 4 = t.
Proof.
  unfold Valid, RESERVED, RESERVED2. intros H.
  assert (Hc : t = 1 \/ t = 2 \/ t = 3 \/ t = 4 \/ t = 5 \/ t = 6 \/ t = 7 \/ t = 8 \/ t = 9 \/ t = 10
    \/ t = 11 \/ t = 12 \/ t = 13 \/ t = 14) by lia.
  repeat (destruct Hc as [->|Hc]; [eexists; split; [reflexivity|split; reflexivity]|]).
  subst t. eexists. split; [reflexivity|split; reflexivity].
Qed.

(** C33: A packet that is received and sent on unchanged leaves the server byte for
    byte as it came in, for every packet type that carries a body: after a
    successful [Decode] from the buffer, [Len] is the length of the buffer and
    [Encode] into a new buffer of that length yields the received bytes, whatever
    the identifier counter is, which is not consumed. *)
Theorem message_forward_exact x src x' n g :
  is_bare x = false -> msg_Decode x src = Ret (x', n, None) ->
  msg_Len x' = Ret (x', len src) /\
  msg_Encode x' g (replicate (Z.to_nat (len src)) 0) = Ret (x', g, vis src, len src, None).
Proof.
  pose proof ack_retains as Hack.
  destruct x as [m|m|m|m|m|m|m|m|m|m|m|m|m|m]; try done; intros _ H; unfold msg_Decode, dispatch in H;
    inv_bind H as y Hy; destruct y as [[m' k] e]; injection H as <- -> ->;
    unfold msg_Len, msg_Encode, dispatch;
    match type of Hy with @pk_decode ?M ?P _ _ = _ =>
      destruct (@forward_packet M P _ _ _ _ _ g Hy) as [-> ->] end;
    by rewrite !bindO_ret.
Qed.

Lemma message_forward_exact_witness :
  exists x', msg_Decode (MPublish NewPublishMessage) (mkslice [50; 6; 0; 1; 97; 0; 9; 88]) = Ret (x', 8, None) /\
    msg_Len x' = Ret (x', 8) /\
    msg_Encode x' 41 (replicate 8 0) = Ret (x', 41, [50; 6; 0; 1; 97; 0; 9; 88], 8, None).
Proof.
  destruct (msg_Decode (MPublish NewPublishMessage) (mkslice [50; 6; 0; 1; 97; 0; 9; 88]))
    as [[[x' n] [e|]]|] eqn:E; [vm_compute in E; discriminate| |vm_compute in E; discriminate].
  exists x'. split.
  - vm_compute in E. injection E as <- <-. reflexivity.
  - exact (message_forward_exact (MPublish NewPublishMessage) (mkslice [50; 6; 0; 1; 97; 0; 9; 88]) x' n 41 eq_refl E).
Defined.

(** [MessageType.New] yields a message exactly for the fourteen packet types,
    and the message reports the type it was made for; the two reserved types are
    refused. *)
Theorem new_message_type t :
  is_byte t ->
  if Valid t then exists x, New t = inl x /\ msg_Type x = t else exists e, New t = inr e.
Proof.
  intros Hb. destruct (Valid t) eqn:Hv.
  - destruct (New_valid t Hv) as (x & Hx & Hrd & Ht). exists x. split; [done|].
    unfold msg_Type. by rewrite (Type_one _ _ Hrd).
  - unfold Valid, RESERVED, RESERVED2, is_byte in *. unfold New.
    repeat match goal with |- exists e, match ?x with _ => _ end = _ => is_var x; destruct x; try lia; try eauto end.
Qed.

Lemma new_message_type_witness : exists x, New 8 = inl x /\ msg_Type x = 8.
Proof. exact (new_message_type 8 ltac:(vm_compute; split; congruence)). Defined.

(** ** What [Len] leaves alone *)

Lemma len_with_fields h ml h' n : len_with h ml = (h', n) ->
  mtypeflags h' = mtypeflags h /\ packetId h' = packetId h /\ dbuf h' = dbuf h.
Proof.
  unfold len_with, SetRemainingLength. intros H. repeat case_in H; simplify_eq; done.
Qed.

Lemma msg_Len_fields x x' n : msg_Len x = Ret (x', n) ->
  msg_PacketId x' = msg_PacketId x /\ msg_Type x' = msg_Type x.
Proof.
  assert (Hh : forall h h' : header, mtypeflags h' = mtypeflags h /\ packetId h' = packetId h /\ dbuf h' = dbuf h ->
    PacketId h' = PacketId h /\ snd (Type_ h') = snd (Type_ h)).
  { intros h h' (H1 & H2 & H3). unfold PacketId, Type_. rewrite H1, H2.
    assert (E : forall r, rd h' r = rd h r) by (intros [b|o k]; unfold rd; by rewrite ?H3). rewrite !E.
    by destruct (rd h (mtypeflags h)) as [|b [|c l]]. }
  unfold msg_PacketId, msg_Type. intros H. apply Hh. revert H.
  unfold msg_Len, dispatch. destruct x as [m|m|m|m|m|m|m|m|m|m|m|m|m|m]; cbn [pk_len connect_packet connack_packet
    publish_packet subscribe_packet suback_packet unsubscribe_packet ack_packet bare_packet];
    unfold Connect.Len, Connack.Len, Subscribe.Len, Suback.Len, Unsubscribe.Len, Puback.Len, Publish.Len;
    try (destruct (len_with _ _) as [h' k] eqn:E; rewrite bindO_ret; intros [= <- <-];
         by apply len_with_fields in E).
  - destruct (negb _); [by intros [= <- <-]|]. intros H. inv_bind H as y Hy. inv_bind Hy as ml Hml.
    destruct (len_with _ _) as [h' k] eqn:E. injection Hy as <-. injection H as <- <-.
    by apply len_with_fields in E.
  - by intros [= <- <-].
  - by intros [= <- <-].
  - by intros [= <- <-].
Qed.
