(* ===== verification/Encoding.v ===== *)
(** * Encoding: the encoders write what [Len] promises

    Every caller asks a message for [Len], makes room for that many bytes and calls
    [Encode], which writes by index assignments and by [copy], which cuts silently.
    The class [Fits] states what the callers rely on; the six codecs behind the
    fourteen packet types are its instances. *)
From stdpp Require Import base list strings.
From Stdlib Require Import ZArith Lia.
From S2P Require Import Prelude GoLang MsgTypes Header PacketId TopicList Message.
From S2P Require Puback Disconnect Connack Suback Publish Connect Subscribe Unsubscribe.

(** ** The primitive writers *)

Lemma put_inside {A} (dst : list A) off bs d : put dst off bs = Ret d ->
  zlen d = zlen dst /\ 0 <= off /\ off + zlen bs <= zlen dst.
Proof. intros H. split; [by eapply put_zlen|]. unfold put in H. destruct (_ && _) eqn:E; [lia|done]. Qed.

Lemma gocopy_inside {A} (dst : list A) off b d n : gocopy dst off b = Ret (d, n) ->
  zlen d = zlen dst /\ 0 <= off <= zlen dst /\ n = Z.min (zlen dst - off) (zlen b).
Proof.
  intros H. split; [by eapply gocopy_zlen|]. unfold gocopy in H. destruct (_ && _) eqn:E; [|done].
  injection H as _ <-. lia.
Qed.

Lemma writeLPBytes_inside dst off b d n err : writeLPBytes dst off b = Ret (d, n, err) ->
  zlen d = zlen dst /\ (err = None -> 0 <= off /\ n = 2 + zlen b /\ off + n <= zlen dst).
Proof.
  unfold writeLPBytes. destruct (negb _) eqn:E0; [done|].
  destruct (maxLPString <? zlen b); [by intros [= <- <- <-]|].
  destruct (_ <? 2 + zlen b) eqn:E1; [by intros [= <- <- <-]|].
  intros H. inv_bind H as d1 H1. apply put_inside in H1 as (H1 & _). inv_bind H as x H2. destruct x as [d2 k].
  apply gocopy_inside in H2 as (H2 & _). injection H as <- <- <-. split; [lia|]. intros _. lia.
Qed.

Lemma copy_range_inside dst a z src d n : copy_range dst a z src = Ret (d, n) ->
  zlen d = zlen dst /\ 0 <= a <= z /\ z <= zlen dst.
Proof.
  unfold copy_range. destruct (_ && _) eqn:E; [|done]. intros [= <- <-]. pose proof (zlen_nonneg src). split; [zl|lia].
Qed.

Lemma put_packetId_inside h dst total d : put_packetId h dst total = Ret d ->
  zlen d = zlen dst /\ 0 <= total /\ total + 2 <= zlen dst.
Proof.
  unfold put_packetId. intros H. inv_bind H as x H1. destruct x as [d1 n].
  apply copy_range_inside in H1 as (H1 & H2 & H3). destruct (negb _); [|injection H as <-; lia].
  apply put_inside in H as (H & _). lia.
Qed.

(** a header that is encoded is not changed *)
Lemma encode_inside h dst h' d n err : encode h dst = Ret (h', d, n, err) ->
  zlen d = zlen dst /\ (err = None -> 0 < n /\ n = msglen h /\ n <= zlen dst /\ h' = h).
Proof.
  unfold encode. destruct (zlen dst <? msglen h) eqn:E0; [by intros [= <- <- <- <-]|].
  destruct (_ || _) eqn:E1; [by intros [= <- <- <- <-]|]. destruct (Type_ h) as [h1 t] eqn:Et.
  destruct (negb (Valid t)) eqn:Ev; [by intros [= <- <- <- <-]|]. intros H.
  inv_bind H as b Hb. inv_bind H as d1 H1. apply put_inside in H1 as (H1 & _).
  inv_bind H as x H2. destruct x as [d2 k]. injection H as <- <- <- <-.
  unfold PutUvarint in H2. inv_bind H2 as d3 H3. apply put_inside in H3 as (H3 & _ & _). injection H2 as <- <-.
  split; [lia|]. intros _.
  assert (h1 = h) as ->.
  { unfold Type_ in Et. destruct (rd h (mtypeflags h)) as [|x [|y l]]; injection Et as <- <-; done. }
  assert (Hr : remlen_ok (remlen h)) by (unfold remlen_ok; lia).
  pose proof (msglen_spec h Hr) as Hm. unfold remlen_ok, maxRemainingLength in Hr.
  assert (Hu : u64 (remlen h) = remlen h) by (unfold u64; apply Z.mod_small; lia).
  rewrite Hu. pose proof (zlen_nonneg (uvarint_bytes 10 (remlen h))). split_and!; done || lia.
Qed.

Lemma encode_clean_inside site h dst d n err : encode_clean site h dst = Ret (d, n, err) ->
  zlen d = zlen dst /\ (err = None -> n = len (dbuf h) /\ 0 <= n <= zlen dst).
Proof.
  unfold encode_clean. destruct (_ <? _) eqn:E; [by intros [= <- <- <-]|]. intros H. inv_bind H as x H1.
  destruct x as [d1 k]. apply gocopy_inside in H1 as (H1 & H2 & ->). injection H as <- <- <-.
  pose proof (zlen_nonneg (vis (dbuf h))). unfold len in *. split; [done|]. intros _. lia.
Qed.

(** ** What [Len] leaves behind *)

(** [l] is what [Len] said of a body of [ml] bytes *)
Definition measured (h : header) (ml l : Z) : Prop :=
  (dirty h = false -> l = len (dbuf h)) /\
  (dirty h = true -> forall h', SetRemainingLength h (i32 ml) = (h', None) -> l = msglen h' + ml /\ msglen h = msglen h').

Lemma len_with_measured h ml h' l : len_with h ml = (h', l) -> measured h' ml l.
Proof.
  unfold len_with. destruct (dirty h) eqn:Ed; cbn [negb].
  - unfold SetRemainingLength. destruct (_ || _) eqn:Er; intros [= <- <-]; (split; [by rewrite ?Ed|]);
      intros _ h1; unfold SetRemainingLength; rewrite Er; [done|]. by intros [= <-].
  - intros [= <- <-]. split; [done|by rewrite Ed].
Qed.

Lemma SetRemainingLength_None h n h' : SetRemainingLength h n = (h', None) -> h' = with_dirty true (with_remlen n h).
Proof. unfold SetRemainingLength. destruct (_ || _); [done|]. by intros [= <-]. Qed.

(** what the callers of a codec rely on *)
Definition fits {M} (m : M) (dst : list Z) (l : Z) (r : outcome (M * list Z * Z * option error)) : Prop :=
  forall m' d n, r = Ret (m', d, n, None) -> zlen d = zlen dst /\ n = l /\ 0 <= n <= zlen dst.

(** the code before the first byte is written, the header included *)
Ltac begin_fits Hm :=
  let H := fresh "H" in let x := fresh "x" in let H1 := fresh "H1" in let E := fresh "E" in let Hd := fresh "Hd" in
  intros ? d n H; destruct Hm as [Hclean Hdirty];
  match type of H with context [negb (dirty ?h)] => destruct (dirty h) eqn:Hd; cbn [negb] in H end;
  [specialize (Hdirty eq_refl); clear Hclean
  |inv_bind H as x H1; destruct x as [[? ?] ?]; apply encode_clean_inside in H1 as [H1 H2]; simplify_eq;
   specialize (H2 eq_refl); specialize (Hclean eq_refl); split_and!; done || lia].

Ltac room_fits H :=
  let E := fresh "E" in
  match type of H with context [if zlen ?d <? ?x then _ else _] => destruct (zlen d <? x) eqn:E; [by simplify_eq|] end.

Ltac header_fits H Hdirty h :=
  let Eh := fresh "Eh" in let H1 := fresh "H1" in let x := fresh "x" in
  match type of H with context [SetRemainingLength ?a ?b] =>
    destruct (SetRemainingLength a b) as [h [?|]] eqn:Eh; [by simplify_eq|] end;
  first [pose proof (Hdirty h Eh) as [Hl Hh]|pose proof (Hdirty h eq_refl) as [Hl Hh]]; apply SetRemainingLength_None in Eh;
  inv_bind H as x H1; destruct x as [[[? ?] ?] [?|]]; apply encode_inside in H1 as [Hd1 Hk]; [by simplify_eq|];
  specialize (Hk eq_refl) as (Hk0 & Hk1 & Hk2 & Hk3).

Lemma Puback_fits m dst l : measured m 2 l -> fits m dst l (Puback.Encode m dst).
Proof.
  intros Hm. unfold Puback.Encode. begin_fits Hm. room_fits H. header_fits H Hdirty h.
  inv_bind H as d2 H3. apply put_packetId_inside in H3. simplify_eq. lia.
Qed.

(** [Len] of a packet without a body counts the header, dirty or not *)
Lemma Disconnect_fits m dst : dirty m = true -> fits m dst (Disconnect.Len m) (Disconnect.Encode m dst).
Proof.
  intros Hd m' d n H. unfold Disconnect.Encode, Disconnect.Len in *. rewrite Hd in H. cbn [negb] in H.
  apply encode_inside in H as [H1 H2]. specialize (H2 eq_refl). unfold Header.Len. lia.
Qed.

Lemma Connack_fits m dst l : measured (Connack.hdr m) 2 l -> fits m dst l (Connack.Encode m dst).
Proof.
  intros Hm. unfold Connack.Encode, Connack.msglen. begin_fits Hm. room_fits H. header_fits H Hdirty h.
  inv_bind H as d2 H3. assert (H5 : zlen d2 = zlen l0).
  { destruct (Connack.sessionPresent _); [by apply put_inside in H3 as [? _]|by simplify_eq]. }
  inv_bind H as d3 H4. apply put_inside in H4 as (H4 & H6 & H7). change (zlen [_]) with 1 in H7.
  simplify_eq. lia.
Qed.

Lemma Suback_fits m dst l :
  measured (Suback.hdr m) (Suback.msglen m) l -> fits m dst l (Suback.Encode m dst).
Proof.
  intros Hm. unfold Suback.Encode. begin_fits Hm. destruct (Suback.check_codes _ _ _); [by simplify_eq|].
  room_fits H. header_fits H Hdirty h. inv_bind H as d2 H3. apply put_packetId_inside in H3.
  inv_bind H as x H4. destruct x as [d3 k]. apply gocopy_inside in H4 as (H4 & _).
  pose proof (zlen_nonneg (Suback.returnCodes m)). unfold Suback.msglen in *. simplify_eq. cbn in *. lia.
Qed.

(** the codecs that may allocate a packet identifier *)
Definition fits_id {M} (dst : list Z) (l : Z) (r : outcome (M * Z * list Z * Z * option error)) : Prop :=
  forall m' g' d n, r = Ret (m', g', d, n, None) -> zlen d = zlen dst /\ n = l /\ 0 <= n <= zlen dst.

Lemma ensurePacketId_two h g h' g' : 0 <= g -> ensurePacketId h g = (h', g') -> zlen (rd h' (packetId h')) = 2.
Proof. intros Hg E. pose proof (ensurePacketId_spec h g Hg) as H. rewrite E in H. apply H. Qed.

Lemma QoS_fields m h : rd h (mtypeflags h) = rd (Publish.hdr m) (mtypeflags (Publish.hdr m)) ->
  Publish.QoS (Publish.with_hdr h m) = Publish.QoS m.
Proof. intros H. unfold Publish.QoS, Flags. cbn [Publish.with_hdr Publish.hdr]. by rewrite H. Qed.

Lemma Publish_fits m g dst ml l : 0 <= g ->
  Publish.msglen m = Ret ml -> measured (Publish.hdr m) ml l -> fits_id dst l (Publish.Encode m g dst).
Proof.
  intros Hg Hml [Hclean Hdirty] m' g' d n H. unfold Publish.Encode in H.
  destruct (dirty (Publish.hdr m)) eqn:Hd; cbn [negb] in H.
  2: { inv_bind H as x H1. destruct x as [[? ?] ?]. apply encode_clean_inside in H1 as [H1 H2]. simplify_eq.
       specialize (H2 eq_refl). specialize (Hclean eq_refl). lia. }
  specialize (Hdirty eq_refl). destruct (zlen (Publish.topic m) =? 0); [done|].
  destruct (zlen (Publish.payload m) =? 0); [done|]. rewrite Hml, bindO_ret in H.
  destruct (SetRemainingLength _ (i32 ml)) as [h [e|]] eqn:Eh; [done|].
  destruct (Hdirty h eq_refl) as [Hl Hh]. apply SetRemainingLength_None in Eh.
  destruct (zlen dst <? msglen h + ml) eqn:Eg; [done|]. cbv zeta in H.
  inv_bind H as x H1. destruct x as [[[h1 d1] k1] [e|]]; apply encode_inside in H1 as [Hd1 Hk]; [done|].
  specialize (Hk eq_refl) as (Hk0 & Hk1 & Hk2 & Hk3). cbn [Publish.with_hdr Publish.hdr] in *. subst h1 k1.
  inv_bind H as x H1. destruct x as [[d2 k2] [e|]]; apply writeLPBytes_inside in H1 as [Hd2 Hk]; [done|].
  specialize (Hk eq_refl) as (_ & Hk3 & Hk4). cbn in Hk3.
  inv_bind H as q Hq. rewrite QoS_fields in Hq by (cbn; by subst h).
  unfold Publish.msglen in Hml. rewrite QoS_fields in Hq by (by subst h).
  rewrite Hq, bindO_ret in Hml. injection Hml as Hml.
  inv_bind H as x H1. destruct x as [[[m3 g3] d3] k3].
  assert (H3 : zlen d3 = zlen d2 /\ k3 = msglen h + 2 + zlen (Publish.topic m) + (if negb (q =? 0) then 2 else 0) /\
               Publish.payload m3 = Publish.payload m).
  { destruct (negb (q =? 0)).
    - destruct (ensurePacketId _ _) as [h4 g4] eqn:E4. apply ensurePacketId_two in E4; [|done].
      inv_bind H1 as x H2. destruct x as [d4 k4]. apply gocopy_inside in H2 as (H2 & H5 & H6).
      pose proof (zlen_nonneg (Publish.payload m)). simplify_eq. cbn in *. split; [done|]. split; [lia|done].
    - simplify_eq. split; [done|]. split; [lia|done]. }
  destruct H3 as (H3 & H4 & H5). inv_bind H as x H6. destruct x as [d4 k4]. apply gocopy_inside in H6 as (H6 & H7 & _).
  rewrite H5 in H. pose proof (zlen_nonneg (Publish.payload m)). simplify_eq. 
  destruct (negb (q =? 0)); lia.
Qed.

Lemma Subscribe_topics_inside ts : forall i qs dst total d n,
  Subscribe.write_topics i ts qs dst total = Ret (d, n, None) ->
  zlen d = zlen dst /\ (0 <= total <= zlen dst -> n = Subscribe.topics_len total ts /\ 0 <= n <= zlen dst).
Proof.
  induction ts as [|t ts IH]; intros i qs dst total d n H; cbn [Subscribe.write_topics Subscribe.topics_len] in *.
  - simplify_eq. split; [done|]. done.
  - inv_bind H as x H1. destruct x as [[d1 k] [e|]]; apply writeLPBytes_inside in H1 as [H1 H2]; [done|].
    destruct (H2 eq_refl) as (H3 & H4 & H5). inv_bind H as q Hq. inv_bind H as d2 H6.
    apply put_inside in H6 as (H6 & H7 & H8). change (zlen [q]) with 1 in H8. apply IH in H as [H9 H10].
    split; [lia|]. intros Ht. pose proof (zlen_nonneg t). rewrite H4 in *.
    replace (total + (2 + zlen t + 1)) with (total + (2 + zlen t) + 1) by lia. rewrite <- H1, <- H6. apply H10. lia.
Qed.

Lemma Unsubscribe_topics_inside ts : forall dst total d n,
  Unsubscribe.write_topics ts dst total = Ret (d, n, None) ->
  zlen d = zlen dst /\ (0 <= total <= zlen dst -> n = Unsubscribe.topics_len total ts /\ 0 <= n <= zlen dst).
Proof.
  induction ts as [|t ts IH]; intros dst total d n H; cbn [Unsubscribe.write_topics Unsubscribe.topics_len] in *.
  - simplify_eq. split; [done|]. done.
  - inv_bind H as x H1. destruct x as [[d1 k] [e|]]; apply writeLPBytes_inside in H1 as [H1 H2]; [done|].
    destruct (H2 eq_refl) as (H3 & H4 & H5). apply IH in H as [H9 H10]. split; [lia|].
    intros Ht. pose proof (zlen_nonneg t). rewrite H4 in *. rewrite <- H1. apply H10. lia.
Qed.

(** the steps SUBSCRIBE and UNSUBSCRIBE share up to the topics *)
Ltac id_fits H Hg :=
  let h4 := fresh "h" in let g4 := fresh "g" in let E4 := fresh "E" in let x := fresh "x" in let H2 := fresh "H" in
  match type of H with context [ensurePacketId ?a ?b] => destruct (ensurePacketId a b) as [h4 g4] eqn:E4 end;
  apply ensurePacketId_two in E4; [|exact Hg]; inv_bind H as x H2; destruct x as [d4 k4];
  apply gocopy_inside in H2 as (H5 & H6 & H7); rewrite E4 in H7.

Lemma topics_len_shift ts : forall a b, Subscribe.topics_len (a + b) ts = a + Subscribe.topics_len b ts.
Proof. induction ts as [|t ts IH]; intros a b; cbn; [done|]. rewrite <- IH. f_equal. lia. Qed.

Lemma utopics_len_shift ts : forall a b, Unsubscribe.topics_len (a + b) ts = a + Unsubscribe.topics_len b ts.
Proof. induction ts as [|t ts IH]; intros a b; cbn; [done|]. rewrite <- IH. f_equal. lia. Qed.

Lemma topics_len_ge ts : forall a, a <= Subscribe.topics_len a ts.
Proof.
  induction ts as [|t ts IH]; intros a; cbn; [lia|]. pose proof (zlen_nonneg t).
  specialize (IH (a + (2 + zlen t + 1))). lia.
Qed.

Lemma utopics_len_ge ts : forall a, a <= Unsubscribe.topics_len a ts.
Proof.
  induction ts as [|t ts IH]; intros a; cbn; [lia|]. pose proof (zlen_nonneg t).
  specialize (IH (a + (2 + zlen t))). lia.
Qed.

Lemma Subscribe_fits m g dst l : 0 <= g ->
  measured (Subscribe.hdr m) (Subscribe.msglen m) l -> fits_id dst l (Subscribe.Encode m g dst).
Proof.
  intros Hg Hm m' g' d n H. unfold Subscribe.Encode in H. destruct Hm as [Hclean Hdirty].
  destruct (dirty (Subscribe.hdr m)) eqn:Hd; cbn [negb] in H.
  2: { inv_bind H as x H1. destruct x as [[? ?] ?]. apply encode_clean_inside in H1 as [H1 H2]. simplify_eq.
       specialize (H2 eq_refl). specialize (Hclean eq_refl). lia. }
  specialize (Hdirty eq_refl). room_fits H. header_fits H Hdirty h. id_fits H Hg.
  inv_bind H as x H8. destruct x as [[d5 k5] [e|]]; [by simplify_eq|].
  apply Subscribe_topics_inside in H8 as [H8 H9]. cbn [Subscribe.with_hdr Subscribe.topics] in H9.
  pose proof (topics_len_ge (Subscribe.topics m) 2). unfold Subscribe.msglen in *.
  assert (k4 = 2) as -> by lia. destruct H9 as [H9 H10]; [lia|]. rewrite topics_len_shift in H9. simplify_eq. lia.
Qed.

Lemma Unsubscribe_fits m g dst l : 0 <= g ->
  measured (Unsubscribe.hdr m) (Unsubscribe.msglen m) l -> fits_id dst l (Unsubscribe.Encode m g dst).
Proof.
  intros Hg Hm m' g' d n H. unfold Unsubscribe.Encode in H. destruct Hm as [Hclean Hdirty].
  destruct (dirty (Unsubscribe.hdr m)) eqn:Hd; cbn [negb] in H.
  2: { inv_bind H as x H1. destruct x as [[? ?] ?]. apply encode_clean_inside in H1 as [H1 H2]. simplify_eq.
       specialize (H2 eq_refl). specialize (Hclean eq_refl). lia. }
  specialize (Hdirty eq_refl). room_fits H. header_fits H Hdirty h. id_fits H Hg.
  inv_bind H as x H8. destruct x as [[d5 k5] [e|]]; [by simplify_eq|].
  apply Unsubscribe_topics_inside in H8 as [H8 H9]. cbn [Unsubscribe.with_hdr Unsubscribe.topics] in H9.
  pose proof (utopics_len_ge (Unsubscribe.topics m) 2). unfold Unsubscribe.msglen in *.
  assert (k4 = 2) as -> by lia. destruct H9 as [H9 H10]; [lia|]. rewrite utopics_len_shift in H9. simplify_eq. lia.
Qed.

(** *** CONNECT: a chain of optional strings

    [wrote dst total n r]: a successful [r] kept the length and advanced by [n]. *)
Definition wrote (dst : list Z) (total n : Z) (r : outcome (list Z * Z * option error)) : Prop :=
  forall d k, r = Ret (d, k, None) -> zlen d = zlen dst /\ k = total + n /\ 0 <= k <= zlen dst.

Lemma wrote_end dst total : 0 <= total <= zlen dst -> wrote dst total 0 (Ret (dst, total, None)).
Proof. intros Ht d k [= <- <-]. lia. Qed.

Lemma wrote_lp dst total b n k :
  (forall d, zlen d = zlen dst -> 0 <= total + (2 + zlen b) <= zlen dst -> wrote d (total + (2 + zlen b)) n (k d (total + (2 + zlen b)))) ->
  wrote dst total (2 + zlen b + n) (Connect.write_lp dst total b k).
Proof.
  intros Hk d z H. unfold Connect.write_lp in H. inv_bind H as x H1.
  destruct x as [[d1 m] [e|]]; apply writeLPBytes_inside in H1 as [H1 H2]; [done|].
  destruct (H2 eq_refl) as (H3 & -> & H4). pose proof (zlen_nonneg b).
  destruct (Hk d1 H1 ltac:(lia) _ _ H) as (H5 & H6 & H7). lia.
Qed.

Lemma wrote_put dst total bs n k :
  (forall d, zlen d = zlen dst -> 0 <= total + zlen bs <= zlen dst -> wrote d (total + zlen bs) n (k d)) ->
  wrote dst total (zlen bs + n) (let! d := put dst total bs in k d).
Proof.
  intros Hk d z H. inv_bind H as d1 H1. apply put_inside in H1 as (H1 & H2 & H3). pose proof (zlen_nonneg bs).
  destruct (Hk d1 H1 ltac:(lia) _ _ H) as (H5 & H6 & H7). lia.
Qed.

Lemma wrote_eq dst total n m r : wrote dst total n r -> n = m -> wrote dst total m r.
Proof. by intros H <-. Qed.

(** a field behind its flag, and [k] in both cases *)
Lemma wrote_opt (c : bool) dst total b n k :
  (forall d t, zlen d = zlen dst -> 0 <= t <= zlen dst -> wrote d t n (k d t)) -> 0 <= total <= zlen dst ->
  wrote dst total ((if c then 2 + zlen b else 0) + n) (if c then Connect.write_lp dst total b k else k dst total).
Proof. intros Hk Ht. destruct c; [apply wrote_lp; intros d Hd Hr; by apply Hk|by apply Hk]. Qed.

Lemma encodeMessage_wrote m dst ver : SupportedVersions (Connect.version m) = Some ver ->
  wrote dst 0 (Connect.msglen m) (Connect.encodeMessage m dst).
Proof.
  intros Hv. unfold Connect.encodeMessage, Connect.msglen. rewrite Hv. cbn [default]. cbv zeta.
  set (cp := Connect.PasswordFlag m && _). set (cu := Connect.UsernameFlag m && _).
  set (np := if cp then 2 + zlen (Connect.password m) else 0).
  set (nu := if cu then 2 + zlen (Connect.username m) else 0).
  set (nw := if Connect.WillFlag m then 2 + zlen (Connect.willTopic m) + (2 + zlen (Connect.willMessage m)) else 0).
  apply (wrote_eq _ _ (2 + zlen ver + (1 + (1 + (2 + (2 + zlen (Connect.clientId m) + (nw + (nu + (np + 0)))))))));
    [|unfold np, nu, nw; destruct cp, cu, (Connect.WillFlag m); lia].
  apply wrote_lp. intros d1 H1 R1. apply (wrote_put d1 _ [Connect.version m]). intros d2 H2 R2.
  apply (wrote_put d2 _ [Connect.connectFlags m]). intros d3 H3 R3.
  apply (wrote_put d3 _ (be16 (Connect.keepAlive m))). intros d4 H4 R4.
  apply wrote_lp. intros d5 H5 R5. change (zlen [_]) with 1 in *. change (zlen (be16 _)) with 2 in *.
  assert (Hpass : forall d t, zlen d = zlen dst -> 0 <= t <= zlen dst -> wrote d t (np + 0)
    (if cp then Connect.write_lp d t (Connect.password m) (fun dst total => Ret (dst, total, None)) else Ret (d, t, None))).
  { intros d t Hd Ht. apply (wrote_opt cp d t (Connect.password m) 0 (fun dst total => Ret (dst, total, None))); [|lia].
    intros d' t' Hd' Ht'. apply wrote_end. lia. }
  set (kp := fun (d : list Z) (t : Z) => if cp then _ else _) in *.
  assert (Huser : forall d t, zlen d = zlen dst -> 0 <= t <= zlen dst -> wrote d t (nu + (np + 0))
    (if cu then Connect.write_lp d t (Connect.username m) kp else kp d t)).
  { intros d t Hd Ht. apply (wrote_opt cu d t (Connect.username m) (np + 0) kp); [|lia].
    intros d' t' Hd' Ht'. apply Hpass; lia. }
  unfold nw. destruct (Connect.WillFlag m); [|apply Huser; lia].
  apply (wrote_eq _ _ (2 + zlen (Connect.willTopic m) + (2 + zlen (Connect.willMessage m) + (nu + (np + 0))))); [|lia].
  apply wrote_lp. intros d6 H6 R6. apply wrote_lp. intros d7 H7 R7. apply Huser; lia.
Qed.

Lemma Connect_fits m dst l :
  measured (Connect.hdr m) (Connect.msglen m) l -> fits m dst l (Connect.Encode m dst).
Proof.
  intros Hm. unfold Connect.Encode. begin_fits Hm. destruct (Type_ (Connect.hdr m)) as [h0 t] eqn:Et.
  destruct (negb (t =? CONNECT)) eqn:E0; [by simplify_eq|].
  assert (h0 = Connect.hdr m) as ->.
  { unfold Type_ in Et. destruct (rd (Connect.hdr m) (mtypeflags (Connect.hdr m))) as [|x [|y k]]; by simplify_eq. }
  destruct (SupportedVersions _) as [ver|] eqn:Ev; [|by simplify_eq].
  room_fits H. header_fits H Hdirty h. inv_bind H as s Hs. inv_bind H as x H2. destruct x as [[d1 k] [e|]]; [by simplify_eq|].
  apply slice_from_vis in Hs as (Hz & Hs & _). cbn [vis mkslice] in Hz, Hs.
  destruct (encodeMessage_wrote _ _ _ Ev _ _ H2) as (H3 & H4 & H5).
  change (Connect.msglen _) with (Connect.msglen m) in H4.
  injection H as _ <- <-. rewrite Hs in H3, H5.
  rewrite zlen_drop in H3, H5. rewrite zlen_app, zlen_take. unfold len in Hz. cbn in Hz.
  pose proof (zlen_nonneg d1). lia.
Qed.

(** ** The interface *)

(** [ready m]: the header was set by [New] or by a decoder, not left zero *)
Class Fits (M : Type) `{Packet M} (ready : M -> Prop) : Prop := {
  encode_fits m m1 l g dst m2 g2 d n : 0 <= g -> ready m1 ->
    pk_len m = Ret (m1, l) -> pk_encode m1 g dst = Ret (m2, g2, d, n, None) ->
    zlen d = zlen dst /\ n = l /\ 0 <= n <= zlen dst
}.

Lemma fits_no_counter {M} (enc : M -> list Z -> outcome (M * list Z * Z * option error)) m g dst l m2 g2 d n :
  fits m dst l (enc m dst) -> no_counter enc m g dst = Ret (m2, g2, d, n, None) ->
  zlen d = zlen dst /\ n = l /\ 0 <= n <= zlen dst.
Proof.
  unfold no_counter. intros Hf H. inv_bind H as x H1. destruct x as [[[m3 d3] n3] e3]. simplify_eq. by eapply Hf.
Qed.

Definition always {M} (_ : M) : Prop := True.

(** a [Len] that is [len_with] *)
Lemma len_measured {M} (m m1 : M) h0 (put : header -> M -> M) ml l :
  Ret (let '(h, n) := len_with h0 ml in (put h m, n)) = Ret (m1, l) ->
  exists h, m1 = put h m /\ measured h ml l.
Proof. destruct (len_with h0 ml) as [h k] eqn:E. intros [= <- <-]. exists h. split; [done|by eapply len_with_measured]. Qed.

#[export] Instance connect_fits : Fits Connect.ConnectMessage always.
Proof.
  split; intros m m1 l g dst m2 g2 d n Hg _ HL HE. apply len_measured in HL as (h & -> & Hm).
  eapply fits_no_counter; [|exact HE]. by apply Connect_fits.
Qed.

#[export] Instance connack_fits : Fits Connack.ConnackMessage always.
Proof.
  split; intros m m1 l g dst m2 g2 d n Hg _ HL HE. apply len_measured in HL as (h & -> & Hm).
  eapply fits_no_counter; [|exact HE]. by apply Connack_fits.
Qed.

#[export] Instance suback_fits : Fits Suback.SubackMessage always.
Proof.
  split; intros m m1 l g dst m2 g2 d n Hg _ HL HE. apply len_measured in HL as (h & -> & Hm).
  eapply fits_no_counter; [|exact HE]. by apply Suback_fits.
Qed.

#[export] Instance subscribe_fits : Fits Subscribe.SubscribeMessage always.
Proof.
  split; intros m m1 l g dst m2 g2 d n Hg _ HL HE. apply len_measured in HL as (h & -> & Hm).
  eapply Subscribe_fits; [exact Hg| |exact HE]. exact Hm.
Qed.

#[export] Instance unsubscribe_fits : Fits Unsubscribe.UnsubscribeMessage always.
Proof.
  split; intros m m1 l g dst m2 g2 d n Hg _ HL HE. apply len_measured in HL as (h & -> & Hm).
  eapply Unsubscribe_fits; [exact Hg| |exact HE]. exact Hm.
Qed.

Lemma ack_fits : @Fits header ack_packet always.
Proof.
  split; intros m m1 l g dst m2 g2 d n Hg _ HL HE. assert (HL' : Puback.Len m = (m1, l)) by (by injection HL).
  unfold Puback.Len in HL'. apply len_with_measured in HL'.
  eapply fits_no_counter; [|exact HE]. apply Puback_fits. exact HL'.
Qed.

Lemma bare_fits : @Fits header bare_packet (fun h => dirty h = true).
Proof.
  split; intros m m1 l g dst m2 g2 d n Hg Hd HL HE. injection HL as <- <-.
  eapply fits_no_counter; [|exact HE]. by apply Disconnect_fits.
Qed.

#[export] Instance publish_fits : Fits Publish.PublishMessage always.
Proof.
  split; intros m m1 l g dst m2 g2 d n Hg _ HL HE. change (Publish.Len m = Ret (m1, l)) in HL.
  change (Publish.Encode m1 g dst = Ret (m2, g2, d, n, None)) in HE. unfold Publish.Len in HL.
  destruct (dirty (Publish.hdr m)) eqn:Hd; cbn [negb] in HL.
  - inv_bind HL as ml Hml. destruct (len_with _ _) as [h k] eqn:El. injection HL as <- <-.
    assert (Hrd : rd h (mtypeflags h) = rd (Publish.hdr m) (mtypeflags (Publish.hdr m))).
    { unfold len_with, SetRemainingLength in El. repeat case_in El; by simplify_eq. }
    apply len_with_measured in El. eapply (Publish_fits (Publish.with_hdr h m)); [exact Hg| |exact El|exact HE].
    unfold Publish.msglen in *. by rewrite QoS_fields.
  - injection HL as <- <-. unfold Publish.Encode in HE. rewrite Hd in HE. cbn [negb] in HE.
    inv_bind HE as x H1. destruct x as [[? ?] ?]. apply encode_clean_inside in H1 as [H1 H2]. simplify_eq.
    specialize (H2 eq_refl). unfold len in *. lia.
Qed.

Lemma encode_len x x1 l g dst x2 g2 d n :
  0 <= g -> (is_bare x = true -> dirty (msg_hdr x) = true) ->
  msg_Len x = Ret (x1, l) -> msg_Encode x1 g dst = Ret (x2, g2, d, n, None) ->
  zlen d = zlen dst /\ n = l /\ 0 <= n <= zlen dst.
Proof.
  intros Hg Hb HL HE. unfold msg_Len, msg_Encode, dispatch in *.
  destruct x as [m|m|m|m|m|m|m|m|m|m|m|m|m|m]; cbn [is_bare msg_hdr dispatch] in *;
    inv_bind HL as y Hy; destruct y as [m1 k]; injection HL as <- <-; inv_bind HE as z Hz;
    destruct z as [[[[m2 g3] d3] n3] e3]; simplify_eq;
    first [exact (encode_fits (ready := always) m m1 k g dst m2 g2 d n Hg I Hy Hz)
          |exact (@encode_fits _ ack_packet _ ack_fits m m1 k g dst m2 g2 d n Hg I Hy Hz)
          |assert (Ret (m, Disconnect.Len m) = Ret (m1, k)) as [= <- <-] by exact Hy;
           exact (@encode_fits _ bare_packet _ bare_fits m m _ g dst m2 g2 d n Hg (Hb eq_refl) Hy Hz)].
Qed.

(** C29: After [Len], [Encode] writes exactly what [Len] said: for each of the fourteen
    packet types, an encoding that succeeds has the length [Len] returned, fits the
    slice, and leaves the slice its length; nothing is cut by a [copy] that runs out
    of room.  A packet without a body must have its header set, as [New] does. *)
Theorem encode_writes_len x x1 l g dst x2 g2 d n :
  0 <= g -> (is_bare x = true -> dirty (msg_hdr x) = true) ->
  msg_Len x = Ret (x1, l) -> msg_Encode x1 g dst = Ret (x2, g2, d, n, None) ->
  zlen d = zlen dst /\ n = l /\ 0 <= n <= zlen dst.
Proof. intros Hg Hb HL HE. by eapply encode_len. Qed.

Lemma encode_writes_len_witness :
  exists x1 l x2 d, msg_Len (MPuback Puback.NewPubackMessage) = Ret (x1, l) /\
    msg_Encode x1 0 [1; 2; 3; 4; 5] = Ret (x2, 0, d, 4, None) /\ zlen d = 5 /\ 4 = l.
Proof.
  eexists _, _, _, _. split; [vm_compute; reflexivity|]. split; [vm_compute; reflexivity|].
  refine (match encode_writes_len (MPuback Puback.NewPubackMessage) _ _ 0 [1; 2; 3; 4; 5] _ 0 _ 4 _ _ eq_refl eq_refl with
          | conj H1 (conj H2 _) => conj H1 H2 end); [lia|done].
Defined.

(** Without [Len] the room for the header is computed from a stale length: a SUBACK
    with 126 codes reports one byte more than the slice it was given has, and its
    last code is cut off. *)
Definition big_suback : Message :=
  MSuback (Suback.mkSuback (Suback.hdr Suback.NewSubackMessage) (replicate 126 1)).

Lemma encode_without_len : exists x d, msg_Encode big_suback 0 (replicate 130 0) = Ret (x, 0, d, 131, None) /\
  zlen d = 130.
Proof. eexists _, _. split; vm_compute; reflexivity. Qed.

(** ** The counter of packet identifiers stays a natural number *)
Lemma ensurePacketId_nonneg h g h' g' : 0 <= g -> ensurePacketId h g = (h', g') -> 0 <= g'.
Proof. intros Hg E. pose proof (ensurePacketId_spec h g Hg) as H. rewrite E in H. apply H. Qed.

Ltac run_encoder H :=
  repeat first
    [ done
    | progress cbv beta zeta in H
    | let x := fresh "x" in let Hx := fresh "Hx" in inv_bind H as x Hx;
      repeat match goal with p : (_ * _)%type |- _ => destruct p end
    | match type of H with context [ensurePacketId ?a ?b] => destruct (ensurePacketId a b) eqn:? end
    | match type of H with match ?e with _ => _ end = Ret _ => destruct e eqn:?; try done end ].

Lemma encode_gid x g dst x2 g2 d n err : 0 <= g -> msg_Encode x g dst = Ret (x2, g2, d, n, err) -> 0 <= g2.
Proof.
  intros Hg HE. unfold msg_Encode, dispatch in HE.
  destruct x as [m|m|m|m|m|m|m|m|m|m|m|m|m|m]; inv_bind HE as z Hz; destruct z as [[[[m2 g3] d3] n3] e3];
    injection HE as _ <- _ _ _;
    cbn [pk_encode connect_packet connack_packet publish_packet subscribe_packet suback_packet unsubscribe_packet
         ack_packet bare_packet] in Hz; unfold no_counter in Hz;
    try (inv_bind Hz as y Hy; destruct y as [[[? ?] ?] ?]; by simplify_eq).
  - unfold Publish.Encode in Hz. run_encoder Hz; simplify_eq; try done.
    match goal with H : (if _ then _ else _) = Ret _ |- _ => revert H end. case_match; [|by intros; simplify_eq].
    intros H1. run_encoder H1. simplify_eq. by eapply ensurePacketId_nonneg.
  - unfold Subscribe.Encode in Hz. run_encoder Hz; simplify_eq; try done; by eapply ensurePacketId_nonneg.
  - unfold Unsubscribe.Encode in Hz. run_encoder Hz; simplify_eq; try done; by eapply ensurePacketId_nonneg.
Qed.

(** ** No encoder changes the length of the slice, whatever it returns *)
Ltac encoder_lengths :=
  repeat match goal with
  | H : put _ _ _ = Ret _ |- _ => apply put_inside in H as [H _]
  | H : gocopy _ _ _ = Ret _ |- _ => apply gocopy_inside in H as [H _]
  | H : writeLPBytes _ _ _ = Ret _ |- _ => apply writeLPBytes_inside in H as [H _]
  | H : put_packetId _ _ _ = Ret _ |- _ => apply put_packetId_inside in H as [H _]
  | H : encode _ _ = Ret _ |- _ => apply encode_inside in H as [H _]
  | H : encode_clean _ _ _ = Ret _ |- _ => apply encode_clean_inside in H as [H _]
  end.

Lemma Subscribe_topics_zlen ts : forall i qs dst total d n err,
  Subscribe.write_topics i ts qs dst total = Ret (d, n, err) -> zlen d = zlen dst.
Proof.
  induction ts as [|t ts IH]; intros i qs dst total d n err H; cbn [Subscribe.write_topics] in H; [by simplify_eq|].
  run_encoder H; simplify_eq; try (apply IH in H); encoder_lengths; congruence.
Qed.

Lemma Unsubscribe_topics_zlen ts : forall dst total d n err,
  Unsubscribe.write_topics ts dst total = Ret (d, n, err) -> zlen d = zlen dst.
Proof.
  induction ts as [|t ts IH]; intros dst total d n err H; cbn [Unsubscribe.write_topics] in H; [by simplify_eq|].
  run_encoder H; simplify_eq; try (apply IH in H); encoder_lengths; congruence.
Qed.

Lemma encodeMessage_zlen m dst d n err : Connect.encodeMessage m dst = Ret (d, n, err) -> zlen d = zlen dst.
Proof.
  unfold Connect.encodeMessage, Connect.write_lp. intros H. run_encoder H; simplify_eq; encoder_lengths; congruence.
Qed.

Lemma no_counter_inv {M} (enc : M -> list Z -> outcome (M * list Z * Z * option error)) m g dst m2 g2 d n err :
  no_counter enc m g dst = Ret (m2, g2, d, n, err) -> enc m dst = Ret (m2, d, n, err).
Proof. unfold no_counter. intros H. inv_bind H as x H1. destruct x as [[[m3 d3] n3] e3]. by simplify_eq. Qed.

Lemma encode_zlen x g dst x2 g2 d n err : msg_Encode x g dst = Ret (x2, g2, d, n, err) -> zlen d = zlen dst.
Proof.
  intros HE. unfold msg_Encode, dispatch in HE.
  destruct x as [m|m|m|m|m|m|m|m|m|m|m|m|m|m]; inv_bind HE as z Hz; destruct z as [[[[m2 g3] d3] n3] e3];
    injection HE as _ _ <- _ _;
    cbn [pk_encode connect_packet connack_packet publish_packet subscribe_packet suback_packet unsubscribe_packet
         ack_packet bare_packet] in Hz; try apply no_counter_inv in Hz;
    unfold Connect.Encode, Connack.Encode, Publish.Encode, Subscribe.Encode, Suback.Encode, Unsubscribe.Encode,
      Puback.Encode, Disconnect.Encode in Hz; run_encoder Hz; simplify_eq; try done; encoder_lengths; try congruence.
  - apply encodeMessage_zlen in Hx1. apply slice_from_vis in Hx0 as (Hz & Hs & _). unfold len in Hz.
    cbn [vis mkslice] in Hz, Hs. rewrite Hs in Hx1. rewrite zlen_app, Hx1, <- zlen_app, take_drop. done.
  - rewrite Hx1, <- Hx. destruct (Connack.sessionPresent _); [by eapply put_inside|by simplify_eq].
  - rewrite Hx4, <- Hx0, <- Hx1. revert Hx3. case_match; [|by intros; simplify_eq].
    intros H1. run_encoder H1. simplify_eq. encoder_lengths. congruence.
  - match goal with H : Subscribe.write_topics _ _ _ _ _ = _ |- _ => apply Subscribe_topics_zlen in H end. congruence.
  - match goal with H : Unsubscribe.write_topics _ _ _ = _ |- _ => apply Unsubscribe_topics_zlen in H end. congruence.
Qed.
