(* ===== verification/AckQueue.v ===== *)
(** * AckQueue: messages waiting for their acknowledgement ([sessions/ackqueue.go])

    A ring buffer of pointers with a map from packet identifiers to slots.  Each
    exported operation runs under the queue's mutex, and so does each round of
    the [Clear] goroutine, so a run of the queue is a sequence of these steps.

    An entry is referenced by one slot of the ring or by the list [Acked] returns,
    never by both, so entries are values; a nil pointer is [None].  The completion
    callback is opaque to the queue: its type is the parameter [C].  [sync.Pool]
    may hand out any buffer it holds or none: [pick] is that choice. *)
From stdpp Require Import base list strings gmap.
From Stdlib Require Import ZArith Lia.
From S2P Require Import Prelude GoLang Pow2 MsgTypes Header Publish Message.

(** ** Data *)

Definition errQueueFull : error := ErrorsNew "queue full".
Definition errQueueEmpty : error := ErrorsNew "queue empty".
Definition errWaitMessage : error := ErrorsNew "Invalid message to wait for ack".
Definition errAckMessage : error := ErrorsNew "Invalid message for acking".

Record ackmsg (C : Type) : Type := mkAck {
  Mtype : Z;
  State : Z;
  Pktid : Z;
  Msgbuf : list Z;
  Ackbuf : list Z;
  OnComplete : option C;
  timestamp : Z
}.
Arguments mkAck {C}.
Arguments Mtype {C}.
Arguments State {C}.
Arguments Pktid {C}.
Arguments Msgbuf {C}.
Arguments Ackbuf {C}.
Arguments OnComplete {C}.
Arguments timestamp {C}.

(** [&ackmsg{}] *)
Definition zero_ack {C} : ackmsg C := mkAck 0 0 0 [] [] None 0.

Definition with_state {C} (s : Z) (a : ackmsg C) : ackmsg C :=
  mkAck (Mtype a) s (Pktid a) (Msgbuf a) (Ackbuf a) (OnComplete a) (timestamp a).
Definition with_ackbuf {C} (b : list Z) (a : ackmsg C) : ackmsg C :=
  mkAck (Mtype a) (State a) (Pktid a) (Msgbuf a) b (OnComplete a) (timestamp a).

(** the pool of buffers of [width] bytes; [has_new]: its [New] function is set *)
Record BytesPool : Type := mkPool { pool : list (list Z); has_new : bool; width : Z }.

Record Ackqueue (C : Type) : Type := mkQueue {
  size : Z;
  mask : Z;
  count : Z;
  head : Z;
  tail : Z;
  ping : option (ackmsg C);
  ring : list (option (ackmsg C));
  emap : option (gmap Z Z);       (* None: a nil map *)
  ackdone : list (ackmsg C);
  bytesPool : BytesPool
}.
Arguments mkQueue {C}.
Arguments size {C}.
Arguments mask {C}.
Arguments count {C}.
Arguments head {C}.
Arguments tail {C}.
Arguments ping {C}.
Arguments ring {C}.
Arguments emap {C}.
Arguments ackdone {C}.
Arguments bytesPool {C}.

Section Ackqueue.
Context {C : Type} (pick : list (list Z) -> option nat).
Implicit Types q : Ackqueue C.

Definition with_ring (r : list (option (ackmsg C))) q : Ackqueue C :=
  mkQueue (size q) (mask q) (count q) (head q) (tail q) (ping q) r (emap q) (ackdone q) (bytesPool q).
Definition with_ping (p : option (ackmsg C)) q : Ackqueue C :=
  mkQueue (size q) (mask q) (count q) (head q) (tail q) p (ring q) (emap q) (ackdone q) (bytesPool q).
Definition with_ackdone (l : list (ackmsg C)) q : Ackqueue C :=
  mkQueue (size q) (mask q) (count q) (head q) (tail q) (ping q) (ring q) (emap q) l (bytesPool q).
Definition with_pool (bp : BytesPool) q : Ackqueue C :=
  mkQueue (size q) (mask q) (count q) (head q) (tail q) (ping q) (ring q) (emap q) (ackdone q) bp.

(** ** The buffer pool *)

(** [pool.Get().([]byte)] on a pool without [New] and without a buffer to give
    asserts the type of a nil interface and panics. *)
Definition Get (bp : BytesPool) (length : Z) : outcome (list Z * BytesPool) :=
  if length <? width bp then
    match (i ← pick (pool bp); b ← pool bp !! i; Some (i, b)) with
    | Some (i, b) => Ret (b, mkPool (delete i (pool bp)) (has_new bp) (width bp))
    | None => if has_new bp then Ret (replicate (Z.to_nat 8192) 0, bp) else Panic BadAssertion
    end
  else Ret (replicate (Z.to_nat length) 0, bp).

Definition Put (bp : BytesPool) (bs : list Z) : BytesPool :=
  if zlen bs =? width bp then mkPool (bs :: pool bp) (has_new bp) (width bp) else bp.

(** ** Sizes and indices *)

Definition index_ q (n : Z) : Z := Z.land n (mask q).
Definition full q : bool := count q =? size q.
Definition empty q : bool := count q =? 0.
Definition increment q (n : Z) : Z := index_ q (i64 (n + 1)).
Definition len_ q : Z := count q.
Definition cap_ q : Z := size q.

Definition newAckqueue (n : Z) (pub1ack : bool) : Ackqueue C :=
  let m := n in
  let m := if negb (powerOfTwo64 m) then roundUpPowerOfTwo64 m else m in
  mkQueue m (m - 1) 0 0 0 (Some zero_ack) (replicate (Z.to_nat m) None) (Some ∅) []
          (mkPool [] pub1ack 8192).

(** [this.ring[i]] dereferenced *)
Definition deref q (i : Z) : outcome (ackmsg C) :=
  let! p := index (ring q) i in
  match p with Some a => Ret a | None => Panic NilDeref end.

(** [this.ring[i].field = ...] *)
Definition update_at q (i : Z) (f : ackmsg C -> ackmsg C) : outcome (Ackqueue C) :=
  let! a := deref q i in
  let! r := put (ring q) i [Some (f a)] in
  Ret (with_ring r q).

(** a map read, a map write, a delete *)
Definition emap_get q (k : Z) : option Z := m ← emap q; m !! k.
Definition emap_delete (m : option (gmap Z Z)) (k : Z) : option (gmap Z Z) := delete k <$> m.

(** ** Growing *)

(** [for i := 0; i < tail; i++ { emap[ring[i].Pktid] = i }] *)
Fixpoint index_ring (fuel : nat) (r : list (option (ackmsg C))) (i : Z) (m : gmap Z Z)
  : outcome (gmap Z Z) :=
  match fuel with
  | O => Ret m
  | S fuel =>
      let! p := index r i in
      match p with
      | None => Panic NilDeref
      | Some a => index_ring fuel r (i + 1) (<[Pktid a:=i]> m)
      end
  end.

Definition grow q : outcome (Ackqueue C) :=
  if 2 ^ 62 - 1 <? size q then Panic (CustomPanic "new size will overflow int64")
  else
    let newsize := i64 (Z.shiftl (size q) 1) in
    let newmask := newsize - 1 in
    let newring := replicate (Z.to_nat newsize) None in
    let! newring :=
      (if head q <? tail q then
         let! s := subslice (ring q) (head q) (tail q) in
         let! (newring, _) := gocopy newring 0 s in Ret newring
       else
         let! s := subslice (ring q) (head q) (zlen (ring q)) in
         let! (newring, _) := gocopy newring 0 s in
         let! s := subslice (ring q) 0 (tail q) in
         let! (newring, _) := gocopy newring (size q - head q) s in Ret newring) in
    let tail' := count q in
    let! m := index_ring (Z.to_nat tail') newring 0 ∅ in
    Ret (mkQueue newsize newmask (count q) 0 tail' (ping q) newring (Some m) (ackdone q) (bytesPool q)).

(** ** Inserting *)

(** [insert]: the queue, the identifier counter, the message ([Len] and [Encode]
    update it) and the error *)
Definition insert q (g now : Z) (pktid : Z) (msg : Message) (onComplete : option C)
  : outcome (Ackqueue C * Z * Message * option error) :=
  let! q := (if full q then grow q else Ret q) in
  match emap_get q pktid with
  | None =>
      let! (msg, ml) := msg_Len msg in
      let! (buf, bp) := Get (bytesPool q) ml in
      let q := with_pool bp q in
      let mtype := msg_Type msg in
      let id := msg_PacketId msg in
      let! (msg, g, buf, _, err) := msg_Encode msg g buf in
      match err with
      | Some e => Ret (q, g, msg, Some e)
      | None =>
          let am := mkAck mtype RESERVED id buf [] onComplete now in
          let! r := put (ring q) (tail q) [Some am] in
          match emap q with
          | None => Panic (CustomPanic "assignment to entry in nil map")
          | Some m =>
              Ret (mkQueue (size q) (mask q) (count q + 1) (head q) (increment q (tail q)) (ping q) r
                           (Some (<[pktid:=tail q]> m)) (ackdone q) (bytesPool q), g, msg, None)
          end
      end
  | Some _ =>
      match msg with
      | MPublish pm =>
          let! d := Dup pm in
          if d then
            Ret (q, g, msg, Some (Errorf "ack/insert: duplicate packet ID for PUBLISH message, but DUP flag is not set" []))
          else Ret (q, g, msg, None)
      | _ => Ret (q, g, msg, Some (Errorf "ack/insert: duplicate packet ID for %s message"
                                          [AStr (str (Name (msg_Type msg)))]))
      end
  end.

(** [Wait] discards the error of [insert]. *)
Definition Wait q (g now : Z) (msg : Message) (onComplete : option C)
  : outcome (Ackqueue C * Z * Message * option error) :=
  let enqueue :=
    let! (q, g, msg, _) := insert q g now (msg_PacketId msg) msg onComplete in
    Ret (q, g, msg, None) in
  match msg with
  | MPublish pm =>
      let! qos := QoS pm in
      if qos =? QosAtMostOnce then Ret (q, g, msg, Some errWaitMessage) else enqueue
  | MSubscribe _ | MUnsubscribe _ => enqueue
  | MPingreq _ =>
      Ret (with_ping (Some (mkAck PINGREQ RESERVED 0 [] [] onComplete 0)) q, g, msg, None)
  | _ => Ret (q, g, msg, Some errWaitMessage)
  end.

(** ** Acknowledging *)

Definition acks_message (t : Z) : bool :=
  (t =? PUBACK) || (t =? PUBREC) || (t =? PUBREL) || (t =? PUBCOMP) || (t =? SUBACK) || (t =? UNSUBACK).

Definition Ack q (g : Z) (msg : Message) : outcome (Ackqueue C * Z * Message * option error) :=
  let t := msg_Type msg in
  if acks_message t then
    match emap_get q (msg_PacketId msg) with
    | Some i =>
        let! q := update_at q i (with_state t) in
        let! (msg, ml) := msg_Len msg in
        let! (buf, bp) := Get (bytesPool q) ml in
        let q := with_pool bp q in
        let! (msg, g, buf, _, err) := msg_Encode msg g buf in
        let! q := update_at q i (with_ackbuf buf) in
        Ret (q, g, msg, err)
    | None => Ret (q, g, msg, None)
    end
  else if t =? PINGRESP then
    match ping q with
    | None => Panic NilDeref
    | Some p =>
        Ret (if Mtype p =? PINGREQ then with_ping (Some (with_state PINGRESP p)) q else q, g, msg, None)
    end
  else Ret (q, g, msg, Some errAckMessage).

Definition removeHead q : outcome (Ackqueue C * option error) :=
  if empty q then Ret (q, Some errQueueEmpty)
  else
    let! it := deref q (head q) in
    let! r := put (ring q) (head q) [None] in
    Ret (mkQueue (size q) (mask q) (count q - 1) (increment q (head q)) (tail q) (ping q) r
                 (emap_delete (emap q) (Pktid it)) (ackdone q) (bytesPool q), None).

(** the states that end the acknowledgement of an entry *)
Definition acked_state (s : Z) : bool :=
  (s =? PUBACK) || (s =? PUBREL) || (s =? PUBCOMP) || (s =? SUBACK) || (s =? UNSUBACK).

(** [for !this.empty()]: each round removes one entry, so [count] rounds are enough *)
Fixpoint acked_loop (fuel : nat) q : outcome (Ackqueue C) :=
  match fuel with
  | O => Ret q
  | S fuel =>
      if empty q then Ret q
      else
        let! a := deref q (head q) in
        if acked_state (State a) then
          let q := with_ackdone (ackdone q ++ [a]) q in
          let! (q, _) := removeHead q in
          acked_loop fuel q
        else Ret q
  end.

Definition Acked q : outcome (Ackqueue C * list (ackmsg C)) :=
  let q := with_ackdone [] q in
  let q := match ping q with
           | Some p => if State p =? PINGRESP
                       then with_ping (Some zero_ack) (with_ackdone (ackdone q ++ [p]) q) else q
           | None => q
           end in
  let! q := acked_loop (Z.to_nat (count q)) q in
  Ret (q, ackdone q).

(** ** The [Clear] goroutine *)

(** give the buffers of the oldest entry back and drop it *)
Definition drop_head q (h : ackmsg C) : outcome (Ackqueue C) :=
  let bp := Put (Put (bytesPool q) (Msgbuf h)) (Ackbuf h) in
  let! _ := deref q (head q) in
  let! r := put (ring q) (head q) [None] in
  Ret (mkQueue (size q) (mask q) (count q - 1) (increment q (head q)) (tail q) (ping q) r
               (emap_delete (emap q) (Pktid h)) (ackdone q) bp).

(** [LOOP1], from slot [i] at time [now] *)
Fixpoint clear_loop1 (fuel : nat) q (now i : Z) : outcome (Ackqueue C) :=
  match fuel with
  | O => Ret q
  | S fuel =>
      if 0 <? count q then
        let! p := index (ring q) i in
        match p with
        | Some h =>
            if timestamp h + 5 <? now then
              let! q := drop_head q h in
              clear_loop1 fuel q now (increment q i)
            else Ret q
        | None => Ret q
        end
      else Ret q
  end.

(** [LOOP2] *)
Fixpoint clear_loop2 (fuel : nat) q : outcome (Ackqueue C) :=
  match fuel with
  | O => Ret q
  | S fuel =>
      if 0 <? count q then
        let! p := index (ring q) (head q) in
        match p with
        | Some h => let! q := drop_head q h in clear_loop2 fuel q
        | None => Ret q
        end
      else Ret q
  end.

(** one round of the goroutine on a tick, and on [Done]; the boolean says
    whether it goes on *)
Definition Clear_tick q (now : Z) : outcome (Ackqueue C * bool) :=
  if zlen (ring q) =? 0 then Ret (q, false)
  else let! q := clear_loop1 (Z.to_nat (count q)) q now (head q) in Ret (q, true).

Definition Clear_done q : outcome (Ackqueue C * bool) :=
  if zlen (ring q) =? 0 then Ret (q, false)
  else let! q := clear_loop2 (Z.to_nat (count q)) q in Ret (q, false).

Definition Stop q : Ackqueue C :=
  mkQueue (size q) (mask q) (count q) (head q) (tail q) None [] None [] (bytesPool q).

End Ackqueue.

(** ** The abstract queue

    A list of entries, oldest first, with distinct packet identifiers.
    [ack_inv q es]: the ring holds the entries [es] from [head] on, and the map
    leads from each identifier to the slot of its entry, and from no other. *)
Section Refinement.
Context {C : Type} (pick : list (list Z) -> option nat).
Implicit Types q : Ackqueue C.
Implicit Types es : list (ackmsg C).

Definition slot q (j : Z) : Z := (head q + j) mod size q.

Definition ids es : list Z := Pktid <$> es.

Record ack_inv q es : Prop := {
  ai_size : is_pow2 (size q);
  ai_mask : mask q = size q - 1;
  ai_ring : zlen (ring q) = size q;
  ai_count : count q = zlen es;
  ai_room : zlen es <= size q;
  ai_head : 0 <= head q < size q;
  ai_tail : tail q = slot q (zlen es);
  ai_slots : forall j e, es !! j = Some e -> ring q !! Z.to_nat (slot q (Z.of_nat j)) = Some (Some e);
  ai_map : exists m, emap q = Some m /\
    (forall j e, es !! j = Some e -> m !! Pktid e = Some (slot q (Z.of_nat j))) /\
    (forall id, id ∉ ids es -> m !! id = None);
  ai_ids : NoDup (ids es)
}.

Lemma slot_range q j : 0 < size q -> 0 <= slot q j < size q.
Proof. intros H. by apply Z.mod_pos_bound. Qed.

Lemma slot_inj q i j : 0 < size q -> 0 <= i < size q -> 0 <= j < size q -> slot q i = slot q j -> i = j.
Proof.
  intros Hs Hi Hj E. unfold slot in E. apply mod_window_inj in E; lia.
Qed.

(** the masked increment is addition modulo the size *)
Lemma increment_mod q n : is_pow2 (size q) -> mask q = size q - 1 -> 0 <= n < size q ->
  increment q n = (n + 1) mod size q.
Proof.
  intros Hp Hm Hn. pose proof (is_pow2_pos _ Hp). destruct Hp as (k & Hk & Hs).
  unfold increment, index_. rewrite i64_small by lia. rewrite Hm. apply land_mask. by exists k.
Qed.

Lemma increment_slot q j : is_pow2 (size q) -> mask q = size q - 1 -> increment q (slot q j) = slot q (j + 1).
Proof.
  intros Hp Hm. pose proof (is_pow2_pos _ Hp). rewrite increment_mod by (done || (apply slot_range; lia)).
  unfold slot. rewrite Zplus_mod_idemp_l. f_equal. lia.
Qed.

Lemma increment_head q es : ack_inv q es -> increment q (head q) = slot q 1.
Proof.
  intros I. rewrite increment_mod by apply I. unfold slot. done.
Qed.

Lemma slot_0 q es : ack_inv q es -> slot q 0 = head q.
Proof. intros I. unfold slot. rewrite Z.add_0_r. apply Z.mod_small, I. Qed.

(** ** Each primitive keeps the invariant *)

Lemma newAckqueue_inv n p : 1 <= n <= 2 ^ 62 -> ack_inv (newAckqueue (C:=C) n p) [].
Proof.
  intros Hn. unfold newAckqueue. set (m := if negb (powerOfTwo64 n) then _ else _).
  assert (Hm : is_pow2 m).
  { unfold m. destruct (powerOfTwo64 n) eqn:E; cbn [negb]; [by apply powerOfTwo64_spec|].
    by destruct (round_up_pow2_least n Hn). }
  pose proof (is_pow2_pos _ Hm). split; cbn; try done || lia.
  - zl.
  - rewrite zlen_nil. lia.
  - exists ∅. split_and!; done.
  - apply NoDup_nil_2.
Qed.

Lemma ack_inv_other q es p d bp :
  ack_inv q es ->
  ack_inv (mkQueue (size q) (mask q) (count q) (head q) (tail q) p (ring q) (emap q) d bp) es.
Proof. intros []. by split. Qed.

(** only the ring, its indices and the map matter *)
Lemma ack_inv_ext q q' es :
  size q' = size q -> mask q' = mask q -> count q' = count q -> head q' = head q -> tail q' = tail q ->
  ring q' = ring q -> emap q' = emap q -> ack_inv q es -> ack_inv q' es.
Proof.
  intros Hs Hm Hc Hh Ht Hr He []. split; unfold slot in *; by rewrite ?Hs, ?Hm, ?Hc, ?Hh, ?Ht, ?Hr, ?He.
Qed.

Lemma ids_lookup es j e : es !! j = Some e -> Pktid e ∈ ids es.
Proof. intros H. apply list_elem_of_fmap. exists e. split; [done|]. by apply list_elem_of_lookup_2 in H. Qed.

Lemma ids_inj es i j a b : NoDup (ids es) -> es !! i = Some a -> es !! j = Some b -> Pktid a = Pktid b -> i = j.
Proof.
  intros Hnd Hi Hj E. apply (NoDup_lookup (ids es) i j (Pktid a) Hnd); unfold ids; rewrite list_lookup_fmap.
  - by rewrite Hi.
  - by rewrite Hj, E.
Qed.

Lemma slots_differ q es i j : ack_inv q es -> (i < Z.to_nat (size q))%nat -> (j < Z.to_nat (size q))%nat -> i <> j ->
  Z.to_nat (slot q (Z.of_nat i)) <> Z.to_nat (slot q (Z.of_nat j)).
Proof.
  intros I Hi Hj Hne E. pose proof (is_pow2_pos _ (ai_size _ _ I)) as Hs.
  pose proof (slot_range q (Z.of_nat i) ltac:(lia)). pose proof (slot_range q (Z.of_nat j) ltac:(lia)).
  apply Z2Nat.inj in E; [|lia..]. apply slot_inj in E; lia.
Qed.

Lemma lookup_in_room q es j e : ack_inv q es -> es !! j = Some e -> (j < length es <= Z.to_nat (size q))%nat.
Proof. intros I H. apply lookup_lt_Some in H. pose proof (ai_room _ _ I). unfold zlen in *. lia. Qed.

Lemma slot_lookup q es j : ack_inv q es -> (Z.to_nat (slot q j) < length (ring q))%nat.
Proof.
  intros I. pose proof (is_pow2_pos _ (ai_size _ _ I)). pose proof (slot_range q j ltac:(lia)).
  pose proof (ai_ring _ _ I). unfold zlen in *. lia.
Qed.

Lemma push_inv q es a m p d bp :
  ack_inv q es -> zlen es < size q -> Pktid a ∉ ids es -> emap q = Some m ->
  ack_inv (mkQueue (size q) (mask q) (count q + 1) (head q) (increment q (tail q)) p
             (<[Z.to_nat (tail q):=Some a]> (ring q)) (Some (<[Pktid a:=tail q]> m)) d bp) (es ++ [a]).
Proof.
  intros I Hlt Hni Hm. destruct (ai_map _ _ I) as (m' & Hm' & Hmap & Hnone).
  rewrite Hm in Hm'. injection Hm' as <-. pose proof (ai_tail _ _ I) as Ht.
  split; cbn [size mask count head tail ring emap]; try apply I.
  - rewrite zlen_insert. apply I.
  - rewrite (ai_count _ _ I). zl.
  - zl.
  - rewrite Ht, increment_slot by apply I. f_equal. zl.
  - intros j e Hj. unfold slot; cbn [head size]; fold (slot q (Z.of_nat j)).
    apply lookup_app_Some in Hj as [Hj|[Hj1 Hj2]].
    + pose proof (lookup_in_room _ _ _ _ I Hj) as Hr. rewrite list_lookup_insert_ne.
      * by apply (ai_slots _ _ I).
      * rewrite Ht. apply (slots_differ q es (length es) j I); unfold zlen in *; lia.
    + apply list_lookup_singleton_Some in Hj2 as [Hj2 <-].
      replace (Z.of_nat j) with (zlen es) by (unfold zlen; lia). rewrite Ht.
      apply list_lookup_insert_eq. by apply (slot_lookup _ _ _ I).
  - eexists. split; [done|]. split.
    + intros j e Hj. unfold slot; cbn [head size]; fold (slot q (Z.of_nat j)).
      apply lookup_app_Some in Hj as [Hj|[Hj1 Hj2]].
      * rewrite lookup_insert_ne; [by apply Hmap|]. intros E. apply Hni. rewrite E. by eapply ids_lookup.
      * apply list_lookup_singleton_Some in Hj2 as [Hj2 <-]. rewrite lookup_insert_eq, Ht. do 2 f_equal.
        unfold zlen; lia.
    + intros id Hid. unfold ids in Hid. rewrite fmap_app, not_elem_of_app in Hid. destruct Hid as [H1 H2].
      rewrite lookup_insert_ne; [by apply Hnone|]. intros <-. apply H2. by apply list_elem_of_singleton.
  - unfold ids. rewrite fmap_app. apply NoDup_app. split; [apply I|]. split; [|apply NoDup_singleton].
    intros x Hx Hx2. apply list_elem_of_singleton in Hx2. subst. done.
Qed.

Lemma pop_inv q e es p d bp :
  ack_inv q (e :: es) ->
  ack_inv (mkQueue (size q) (mask q) (count q - 1) (increment q (head q)) (tail q) p
             (<[Z.to_nat (head q):=None]> (ring q)) (emap_delete (emap q) (Pktid e)) d bp) es.
Proof.
  intros I. destruct (ai_map _ _ I) as (m & Hm & Hmap & Hnone).
  pose proof (is_pow2_pos _ (ai_size _ _ I)) as Hs. pose proof (ai_room _ _ I) as Hroom.
  pose proof (increment_head _ _ I) as Hinc. pose proof (ai_ids _ _ I) as Hnd.
  unfold ids in Hnd. rewrite fmap_cons, NoDup_cons in Hnd. destruct Hnd as [Hni Hnd].
  assert (Hsl : forall j, (increment q (head q) + j) mod size q = slot q (1 + j)).
  { intros j. rewrite Hinc. unfold slot. rewrite Zplus_mod_idemp_l. f_equal. lia. }
  split; unfold slot; cbn [size mask count head tail ring emap]; try apply I; try done.
  - rewrite zlen_insert. apply I.
  - rewrite (ai_count _ _ I). zl.
  - zl.
  - rewrite Hinc. apply slot_range. lia.
  - rewrite (ai_tail _ _ I), Hsl. f_equal. zl.
  - intros j x Hj. rewrite Hsl. replace (1 + Z.of_nat j) with (Z.of_nat (S j)) by lia.
    assert (Hj' : (e :: es) !! S j = Some x) by done.
    pose proof (lookup_in_room _ _ _ _ I Hj') as Hr. rewrite list_lookup_insert_ne.
    + by apply (ai_slots _ _ I).
    + rewrite <- (slot_0 _ _ I). apply (slots_differ q (e :: es) 0 (S j) I); lia.
  - eexists. unfold emap_delete. rewrite Hm. split; [done|]. split.
    + intros j x Hj. rewrite Hsl. replace (1 + Z.of_nat j) with (Z.of_nat (S j)) by lia.
      rewrite lookup_delete_ne; [by apply Hmap|]. intros E. apply Hni. rewrite E. by eapply ids_lookup.
    + intros id Hid. destruct (decide (id = Pktid e)) as [->|Hne]; [by rewrite lookup_delete_eq|].
      rewrite lookup_delete_ne by done. apply Hnone. unfold ids. rewrite fmap_cons, not_elem_of_cons. done.
Qed.

Lemma update_inv q es j e f :
  ack_inv q es -> es !! j = Some e -> Pktid (f e) = Pktid e ->
  update_at q (slot q (Z.of_nat j)) f
  = Ret (with_ring (<[Z.to_nat (slot q (Z.of_nat j)):=Some (f e)]> (ring q)) q) /\
  ack_inv (with_ring (<[Z.to_nat (slot q (Z.of_nat j)):=Some (f e)]> (ring q)) q) (<[j:=f e]> es).
Proof.
  intros I Hj Hf. pose proof (is_pow2_pos _ (ai_size _ _ I)) as Hs.
  pose proof (slot_range q (Z.of_nat j) ltac:(lia)) as Hr. split.
  - unfold update_at, deref. rewrite (index_lookup _ _ (Some e)); [|lia|by apply (ai_slots _ _ I)].
    rewrite !bindO_ret. rewrite put_insert; [done|]. by rewrite (ai_ring _ _ I).
  - destruct (ai_map _ _ I) as (m & Hm & Hmap & Hnone).
    assert (Hids : ids (<[j:=f e]> es) = ids es).
    { unfold ids. rewrite list_fmap_insert, Hf. apply list_insert_id. by rewrite list_lookup_fmap, Hj. }
    split; unfold with_ring; cbn [size mask count head tail ring emap]; rewrite ?zlen_insert; try apply I.
    + intros i x Hi. unfold slot; cbn [head size]; fold (slot q (Z.of_nat i)).
      destruct (decide (i = j)) as [->|Hne].
      * rewrite list_lookup_insert_eq in Hi by (apply lookup_lt_Some in Hj; done). injection Hi as <-.
        apply list_lookup_insert_eq. by apply (slot_lookup _ _ _ I).
      * rewrite list_lookup_insert_ne in Hi by done. rewrite list_lookup_insert_ne; [by apply (ai_slots _ _ I)|].
        pose proof (lookup_in_room _ _ _ _ I Hj). pose proof (lookup_in_room _ _ _ _ I Hi).
        apply (slots_differ q es j i I); lia.
    + exists m. split; [done|]. split.
      * intros i x Hi. unfold slot; cbn [head size]; fold (slot q (Z.of_nat i)).
        destruct (decide (i = j)) as [->|Hne].
        -- rewrite list_lookup_insert_eq in Hi by (apply lookup_lt_Some in Hj; done). injection Hi as <-.
           rewrite Hf. by apply Hmap.
        -- rewrite list_lookup_insert_ne in Hi by done. by apply Hmap.
      * by rewrite Hids.
    + rewrite Hids. apply I.
Qed.

(** ** Removing from the front *)

(** the longest prefix that satisfies [P], and the rest *)
Fixpoint span {A} (P : A -> bool) (l : list A) : list A * list A :=
  match l with
  | [] => ([], [])
  | x :: l => if P x then let '(a, b) := span P l in (x :: a, b) else ([], x :: l)
  end.

Lemma index_head q e es : ack_inv q (e :: es) -> index (ring q) (head q) = Ret (Some e).
Proof.
  intros I. pose proof (ai_slots _ _ I 0%nat e eq_refl) as H. change (Z.of_nat 0) with 0 in H.
  rewrite (slot_0 _ _ I) in H. pose proof (ai_head _ _ I). apply index_lookup; [lia|done].
Qed.

Lemma deref_head q e es : ack_inv q (e :: es) -> deref q (head q) = Ret e.
Proof. intros I. unfold deref. by rewrite (index_head _ _ _ I). Qed.

Lemma put_head q es x : ack_inv q es -> put (ring q) (head q) [x] = Ret (<[Z.to_nat (head q):=x]> (ring q)).
Proof. intros I. apply put_insert. rewrite (ai_ring _ _ I). apply I. Qed.

Lemma removeHead_spec q e es : ack_inv q (e :: es) ->
  exists q', removeHead q = Ret (q', None) /\ ack_inv q' es /\
    ping q' = ping q /\ ackdone q' = ackdone q /\ bytesPool q' = bytesPool q.
Proof.
  intros I. unfold removeHead, empty. rewrite (ai_count _ _ I). guard_false.
  rewrite (deref_head _ _ _ I), bindO_ret, (put_head _ _ _ I), bindO_ret.
  eexists. split; [done|]. split; [|done]. rewrite <- (ai_count _ _ I). by apply pop_inv.
Qed.

Lemma acked_loop_spec es fuel q : ack_inv q es -> (length es <= fuel)%nat ->
  exists q', acked_loop fuel q = Ret q' /\
    ack_inv q' (snd (span (fun e => acked_state (State e)) es)) /\
    ackdone q' = ackdone q ++ fst (span (fun e => acked_state (State e)) es) /\
    ping q' = ping q /\ bytesPool q' = bytesPool q.
Proof.
  revert fuel q. induction es as [|e es IH]; intros fuel q I Hf.
  - exists q. rewrite app_nil_r. split; [|done]. destruct fuel; cbn [acked_loop]; [done|].
    unfold empty. rewrite (ai_count _ _ I). done.
  - destruct fuel as [|fuel]; [simpl in Hf; lia|]. cbn [acked_loop]. unfold empty.
    rewrite (ai_count _ _ I). guard_false. rewrite (deref_head _ _ _ I), bindO_ret. cbn [span].
    destruct (acked_state (State e)) eqn:Es.
    + pose proof (ack_inv_other _ _ (ping q) (ackdone q ++ [e]) (bytesPool q) I) as I1.
      fold (with_ackdone (ackdone q ++ [e]) q) in I1.
      destruct (removeHead_spec _ _ _ I1) as (q' & -> & I' & Hp & Hd & Hb). rewrite bindO_ret.
      destruct (IH fuel q' I' ltac:(simpl in Hf; lia)) as (q2 & -> & I2 & Hd2 & Hp2 & Hb2).
      destruct (span _ es) as [a b]. cbn [fst snd] in *. exists q2. split; [done|]. split; [done|].
      split; [|by rewrite Hp2, Hb2, Hp, Hb]. rewrite Hd2, Hd. cbn [with_ackdone ackdone]. by rewrite <- app_assoc.
    + exists q. by rewrite app_nil_r.
Qed.

(** what a finished ping contributes to the result of [Acked] *)
Definition ping_done q : list (ackmsg C) :=
  match ping q with
  | Some p => if State p =? PINGRESP then [p] else []
  | None => []
  end.

Definition ping_after q : option (ackmsg C) :=
  match ping q with
  | Some p => if State p =? PINGRESP then Some zero_ack else Some p
  | None => None
  end.

Lemma Acked_spec q es : ack_inv q es ->
  exists q', Acked q = Ret (q', ping_done q ++ fst (span (fun e => acked_state (State e)) es)) /\
    ack_inv q' (snd (span (fun e => acked_state (State e)) es)) /\ ping q' = ping_after q /\
    bytesPool q' = bytesPool q.
Proof.
  intros I. unfold Acked.
  set (q1 := match ping (with_ackdone [] q) with Some p => _ | None => _ end).
  assert (H1 : ack_inv q1 es /\ ackdone q1 = ping_done q /\ ping q1 = ping_after q /\ bytesPool q1 = bytesPool q).
  { unfold q1, ping_done, ping_after. cbn [with_ackdone ping]. destruct (ping q) as [p|] eqn:Ep.
    - destruct (State p =? PINGRESP) eqn:Es; split_and!; try (by apply (ack_inv_ext q)); done.
    - split_and!; try (by apply (ack_inv_ext q)); done. }
  destruct H1 as (I1 & Hd & Hp & Hb). clearbody q1.
  destruct (acked_loop_spec es (Z.to_nat (count q1)) q1 I1) as (q' & -> & I' & Hd' & Hp' & Hb').
  { rewrite (ai_count _ _ I1). unfold zlen. lia. }
  rewrite bindO_ret. exists q'. rewrite Hd', Hd. split; [done|]. split; [done|].
  split; [by rewrite Hp'|by rewrite Hb', Hb].
Qed.

Lemma drop_head_spec q e es : ack_inv q (e :: es) ->
  exists q', drop_head q e = Ret q' /\ ack_inv q' es /\ ping q' = ping q /\ head q' = slot q 1 /\ mask q' = mask q /\
    bytesPool q' = Put (Put (bytesPool q) (Msgbuf e)) (Ackbuf e).
Proof.
  intros I. unfold drop_head. rewrite (deref_head _ _ _ I), bindO_ret, (put_head _ _ _ I), bindO_ret.
  eexists. split; [done|]. split; [by apply pop_inv|]. split; [done|]. split; [|done].
  cbn [head]. by apply (increment_head _ _ I).
Qed.

(** the entries a tick at time [now] drops *)
Definition expired (now : Z) (e : ackmsg C) : bool := timestamp e + 5 <? now.

(** the pool after the buffers of [es] were given back *)
Definition put_all (bp : BytesPool) es : BytesPool :=
  fold_left (fun bp e => Put (Put bp (Msgbuf e)) (Ackbuf e)) es bp.

Lemma clear_loop1_spec es fuel q now : ack_inv q es -> (length es <= fuel)%nat ->
  exists q', clear_loop1 fuel q now (head q) = Ret q' /\
    ack_inv q' (snd (span (expired now) es)) /\ ping q' = ping q /\
    bytesPool q' = put_all (bytesPool q) (fst (span (expired now) es)).
Proof.
  revert fuel q. induction es as [|e es IH]; intros fuel q I Hf.
  - exists q. split; [|done]. destruct fuel; cbn [clear_loop1]; [done|]. rewrite (ai_count _ _ I). done.
  - destruct fuel as [|fuel]; [simpl in Hf; lia|]. cbn [clear_loop1]. rewrite (ai_count _ _ I). guard_true.
    rewrite (index_head _ _ _ I), bindO_ret. cbn [span]. change (expired now e) with (timestamp e + 5 <? now).
    destruct (timestamp e + 5 <? now) eqn:Et; [|by exists q].
    destruct (drop_head_spec _ _ _ I) as (q' & -> & I' & Hp & Hh & Hm & Hb). rewrite bindO_ret.
    replace (increment q' (head q)) with (head q').
    2:{ rewrite Hh, <- (increment_head _ _ I). unfold increment, index_. by rewrite Hm. }
    destruct (IH fuel q' I' ltac:(simpl in Hf; lia)) as (q2 & E2 & I2 & Hp2 & Hb2).
    exists q2. destruct (span _ es) as [a b]. cbn [fst snd] in *. split; [done|]. split; [done|].
    split; [by rewrite Hp2|]. by rewrite Hb2, Hb.
Qed.

Lemma clear_loop2_spec es fuel q : ack_inv q es -> (length es <= fuel)%nat ->
  exists q', clear_loop2 fuel q = Ret q' /\ ack_inv q' [] /\ bytesPool q' = put_all (bytesPool q) es.
Proof.
  revert fuel q. induction es as [|e es IH]; intros fuel q I Hf.
  - exists q. split; [|done]. destruct fuel; cbn [clear_loop2]; [done|]. rewrite (ai_count _ _ I). done.
  - destruct fuel as [|fuel]; [simpl in Hf; lia|]. cbn [clear_loop2]. rewrite (ai_count _ _ I). guard_true.
    rewrite (index_head _ _ _ I), bindO_ret.
    destruct (drop_head_spec _ _ _ I) as (q' & -> & I' & Hp & Hh & Hm & Hb). rewrite bindO_ret.
    destruct (IH fuel q' I' ltac:(simpl in Hf; lia)) as (q2 & E2 & I2 & Hb2).
    exists q2. split; [done|]. split; [done|]. by rewrite Hb2, Hb.
Qed.

(** ** Growing *)

Lemma index_ring_spec es pre rest m : NoDup (ids es) ->
  exists m', index_ring (length es) (pre ++ (Some <$> es) ++ rest) (zlen pre) m = Ret m' /\
    (forall j e, es !! j = Some e -> m' !! Pktid e = Some (zlen pre + Z.of_nat j)) /\
    (forall id, id ∉ ids es -> m' !! id = m !! id).
Proof.
  revert pre m. induction es as [|e es IH]; intros pre m Hnd; [by exists m|].
  unfold ids in Hnd. rewrite fmap_cons, NoDup_cons in Hnd. destruct Hnd as [Hni Hnd].
  cbn [length index_ring]. rewrite fmap_cons. cbn [app]. rewrite index_app, bindO_ret by done.
  destruct (IH (pre ++ [Some e]) (<[Pktid e:=zlen pre]> m) Hnd) as (m' & E & H1 & H2).
  exists m'. split; [|split].
  - rewrite <- E. rewrite <- !app_assoc. f_equal. zl.
  - intros [|j] x Hj.
    + injection Hj as <-. rewrite H2 by done. rewrite lookup_insert_eq. f_equal. lia.
    + rewrite (H1 j x Hj). f_equal. zl.
  - intros id Hid. unfold ids in Hid. rewrite fmap_cons, not_elem_of_cons in Hid. destruct Hid as [Hne Hid].
    rewrite H2 by done. by apply lookup_insert_ne.
Qed.

(** read from [head] around, a full ring is the list of its entries *)
Lemma rotated_ring q es : ack_inv q es -> zlen es = size q ->
  drop (Z.to_nat (head q)) (ring q) ++ take (Z.to_nat (head q)) (ring q) = Some <$> es.
Proof.
  intros I Hfull. pose proof (ai_head _ _ I) as Hh. pose proof (ai_ring _ _ I) as Hr.
  apply list_eq. intros i. rewrite list_lookup_fmap.
  destruct (es !! i) as [e|] eqn:Ei.
  - pose proof (ai_slots _ _ I i e Ei) as Hs. pose proof (lookup_in_room _ _ _ _ I Ei) as Hi.
    unfold slot in Hs. cbn [fmap option_fmap option_map].
    assert (Hl : length (ring q) = Z.to_nat (size q)) by (unfold zlen in Hr; lia).
    destruct (decide (head q + Z.of_nat i < size q)) as [Hlt|Hge].
    + rewrite Z.mod_small in Hs by lia. rewrite lookup_app_l by (rewrite length_drop; lia).
      rewrite lookup_drop. rewrite <- Hs. f_equal. lia.
    + rewrite lookup_app_r by (rewrite length_drop; lia). rewrite length_drop.
      rewrite lookup_take_lt by lia. rewrite <- Hs. f_equal.
      replace (head q + Z.of_nat i) with (head q + Z.of_nat i - size q + 1 * size q) by lia.
      rewrite Z_mod_plus_full, Z.mod_small by lia. lia.
  - apply lookup_ge_None in Ei. apply lookup_ge_None. rewrite length_app, length_drop, length_take.
    unfold zlen in *. lia.
Qed.

Lemma grow_spec q es : ack_inv q es -> full q = true -> size q < 2 ^ 62 ->
  exists q', grow q = Ret q' /\ ack_inv q' es /\ size q' = 2 * size q /\
    ping q' = ping q /\ ackdone q' = ackdone q /\ bytesPool q' = bytesPool q.
Proof.
  intros I Hfull Hs. unfold full in Hfull. rewrite (ai_count _ _ I) in Hfull.
  assert (Hes : zlen es = size q) by lia. pose proof (is_pow2_pos _ (ai_size _ _ I)) as Hpos.
  pose proof (ai_head _ _ I) as Hh. pose proof (ai_ring _ _ I) as Hr.
  assert (Ht : tail q = head q).
  { rewrite (ai_tail _ _ I), Hes. unfold slot. rewrite <- (Z.mul_1_l (size q)) at 1.
    rewrite Z_mod_plus_full. by apply Z.mod_small. }
  unfold grow. guard_false. rewrite Ht. guard_false.
  assert (Hn : i64 (Z.shiftl (size q) 1) = 2 * size q)
    by (rewrite Z.shiftl_mul_pow2 by lia; rewrite i64_small; lia).
  rewrite Hn. set (nr := replicate (Z.to_nat (2 * size q)) None).
  assert (Hnr : zlen nr = 2 * size q) by (unfold nr; zl).
  set (h := Z.to_nat (head q)).
  assert (E1 : subslice (ring q) (head q) (zlen (ring q)) = Ret (drop h (ring q))).
  { pose proof (subslice_app (take h (ring q)) (drop h (ring q)) [] (head q) (zlen (ring q))) as H.
    rewrite app_nil_r, take_drop in H. apply H; unfold h; zl. }
  assert (E2 : subslice (ring q) 0 (head q) = Ret (take h (ring q))).
  { pose proof (subslice_app [] (take h (ring q)) (drop h (ring q)) 0 (head q) eq_refl) as H.
    cbn [app] in H. rewrite take_drop in H. apply H; unfold h; zl. }
  pose proof (gocopy_filled [] nr (drop h (ring q)) 0 eq_refl) as G1. rewrite filled_nil in G1. cbn [app] in G1.
  rewrite E1, bindO_ret, G1 by (unfold h; zl). rewrite bindO_ret, E2, bindO_ret.
  rewrite gocopy_filled by (unfold h; zl). rewrite !bindO_ret.
  unfold h. rewrite (rotated_ring q es I Hes).
  destruct (index_ring_spec es [] (drop (length es) nr) ∅ (ai_ids _ _ I)) as (m & Em & Hm1 & Hm2).
  replace (Z.to_nat (count q)) with (length es) by (rewrite (ai_count _ _ I); unfold zlen; lia).
  unfold filled. rewrite length_fmap. cbn [app] in Em. rewrite zlen_nil in Em. rewrite Em, bindO_ret.
  eexists. split; [done|]. split; [|done].
  assert (Hslot : forall j, 0 <= j < 2 * size q -> (0 + j) mod (2 * size q) = j)
    by (intros j Hj; rewrite Z.mod_small; lia).
  split; unfold slot; cbn [size mask count head tail ring emap]; try apply I; try done; try lia.
  - destruct (ai_size _ _ I) as (k & Hk & Hsk). exists (k + 1). split; [|rewrite Z.pow_add_r; lia].
    split; [lia|]. rewrite Hsk in Hs. apply Z.pow_lt_mono_r_iff in Hs; lia.
  - rewrite zlen_app, zlen_drop, Hnr. unfold zlen. rewrite length_fmap. unfold zlen in *. lia.
  - rewrite (ai_count _ _ I). symmetry. apply Hslot. lia.
  - intros j e Hj. pose proof (lookup_in_room _ _ _ _ I Hj). rewrite Hslot by lia.
    rewrite Nat2Z.id. rewrite lookup_app_l by (rewrite length_fmap; lia). by rewrite list_lookup_fmap, Hj.
  - exists m. split; [done|]. split; [|by apply Hm2].
    intros j e Hj. pose proof (lookup_in_room _ _ _ _ I Hj). rewrite Hslot by lia. by rewrite (Hm1 j e Hj).
Qed.

(** ** The operations against the abstract queue *)

Lemma emap_get_spec q es id : ack_inv q es ->
  match emap_get q id with
  | Some i => exists j e, es !! j = Some e /\ Pktid e = id /\ i = slot q (Z.of_nat j)
  | None => id ∉ ids es
  end.
Proof.
  intros I. destruct (ai_map _ _ I) as (m & Hm & H1 & H2). unfold emap_get. rewrite Hm. cbn.
  destruct (decide (id ∈ ids es)) as [Hin|Hni].
  - apply list_elem_of_fmap in Hin as (e & -> & Hin). apply list_elem_of_lookup_1 in Hin as [j Hj].
    rewrite (H1 j e Hj). eauto.
  - by rewrite (H2 id Hni).
Qed.

(** an entry [insert] makes for a message with identifier [id] *)
Definition fresh_entry (now : Z) (msg : Message) (oc : option C) (a : ackmsg C) : Prop :=
  Mtype a = msg_Type msg /\ State a = RESERVED /\ Pktid a = msg_PacketId msg /\
  Ackbuf a = [] /\ OnComplete a = oc /\ timestamp a = now.

Lemma insert_spec q es g now msg oc q' g' msg' err :
  ack_inv q es -> insert pick q g now (msg_PacketId msg) msg oc = Ret (q', g', msg', err) ->
  ping q' = ping q /\
  (ack_inv q' es \/ exists a, fresh_entry now msg oc a /\ (Pktid a ∉ ids es) /\ ack_inv q' (es ++ [a])).
Proof.
  intros I H. unfold insert in H. inv_bind H as q1 Hq1.
  assert (I1 : ack_inv q1 es /\ zlen es < size q1 /\ ping q1 = ping q).
  { destruct (full q) eqn:Ef.
    - destruct (Z_lt_dec (size q) (2 ^ 62)) as [Hlt|Hge].
      + destruct (grow_spec q es I Ef Hlt) as (q2 & E2 & I2 & Hs2 & Hp2 & _). rewrite E2 in Hq1.
        injection Hq1 as <-. pose proof (is_pow2_pos _ (ai_size _ _ I)). pose proof (ai_room _ _ I).
        split_and!; [done|lia|done].
      + unfold grow in Hq1. replace (2 ^ 62 - 1 <? size q) with true in Hq1 by lia. done.
    - injection Hq1 as <-. split_and!; [done| |done]. unfold full in Ef. rewrite (ai_count _ _ I) in Ef.
      pose proof (ai_room _ _ I). lia. }
  clear Hq1 I. destruct I1 as (I & Hlt & Hp). pose proof (emap_get_spec q1 es (msg_PacketId msg) I) as Hg.
  destruct (emap_get q1 _) as [i|].
  - assert (q' = q1) as ->; [|by split; [|left]].
    destruct msg; try (by injection H as <- _ _ _). inv_bind H as d Hd. case_in H; by injection H as <- _ _ _.
  - inv_bind H as x Hx. destruct x as [msg1 ml]. apply msg_Len_fields in Hx as [Hid Hty].
    inv_bind H as y Hy. destruct y as [buf bp]. inv_bind H as z Hz. destruct z as [[[[msg2 g2] buf2] n2] [e|]].
    + injection H as <- _ _ _. split; [done|]. left. by apply (ack_inv_ext q1).
    + cbn [with_pool ring tail emap] in H. pose proof (ai_tail _ _ I) as Ht.
      pose proof (is_pow2_pos _ (ai_size _ _ I)).
      rewrite put_insert, bindO_ret in H by (rewrite (ai_ring _ _ I), Ht; apply slot_range; lia).
      destruct (emap q1) as [m|] eqn:Em; [|done]. injection H as <- _ _ _. split; [done|]. right.
      eexists. split; [|split; [|]]; cycle 2.
      * rewrite <- Hid. by apply (push_inv q1 es (mkAck _ _ _ _ _ _ _)); [done|done|rewrite Hid|].
      * by split_and!.
      * cbn [Pktid]. by rewrite Hid.
Qed.

(** an entry after its acknowledgement [msg] *)
Definition marked (msg : Message) (e e' : ackmsg C) : Prop :=
  State e' = msg_Type msg /\ Mtype e' = Mtype e /\ Pktid e' = Pktid e /\ Msgbuf e' = Msgbuf e /\
  OnComplete e' = OnComplete e /\ timestamp e' = timestamp e.

Lemma Ack_spec q es g msg q' g' msg' err :
  ack_inv q es -> acks_message (msg_Type msg) = true -> Ack pick q g msg = Ret (q', g', msg', err) ->
  ping q' = ping q /\
  (((msg_PacketId msg ∉ ids es) /\ ack_inv q' es) \/
   exists j e e', es !! j = Some e /\ Pktid e = msg_PacketId msg /\ marked msg e e' /\
                  ack_inv q' (<[j:=e']> es)).
Proof.
  intros I Ht H. unfold Ack in H. rewrite Ht in H.
  pose proof (emap_get_spec q es (msg_PacketId msg) I) as Hg. destruct (emap_get q _) as [i|].
  - destruct Hg as (j & e & Hj & Hid & ->).
    destruct (update_inv q es j e (with_state (msg_Type msg)) I Hj eq_refl) as [E I1].
    rewrite E, bindO_ret in H. inv_bind H as x Hx. destruct x as [msg1 ml].
    inv_bind H as y Hy. destruct y as [buf bp]. inv_bind H as z Hz. destruct z as [[[[msg2 g2] buf2] n2] e2].
    set (q1 := with_ring _ q) in *. set (e1 := with_state _ e) in *.
    assert (I2 : ack_inv (with_pool bp q1) (<[j:=e1]> es)) by (by apply (ack_inv_ext q1)).
    assert (Hj1 : (<[j:=e1]> es) !! j = Some e1) by (apply list_lookup_insert_eq; by apply lookup_lt_Some in Hj).
    destruct (update_inv _ _ j e1 (with_ackbuf buf2) I2 Hj1 eq_refl) as [E2 I3].
    change (slot (with_pool bp q1) (Z.of_nat j)) with (slot q (Z.of_nat j)) in *.
    rewrite E2, bindO_ret in H. injection H as <- _ _ _. split; [done|]. right.
    exists j, e, (with_ackbuf buf2 e1). rewrite list_insert_insert_eq in I3. by split_and!.
  - injection H as <- _ _ _. split; [done|]. by left.
Qed.

(** ** Runs

    The operations of the queue, in any order, as the connection's goroutines
    perform them under the mutex; [run_op] returns the entries handed out. *)
Inductive ack_op : Type :=
| OWait (now : Z) (msg : Message) (onComplete : option C)
| OAck (msg : Message)
| OAcked
| OTick (now : Z).

Definition run_op q (g : Z) (op : ack_op) : outcome (Ackqueue C * Z * list (ackmsg C)) :=
  match op with
  | OWait now msg oc => let! (q, g, _, _) := Wait pick q g now msg oc in Ret (q, g, [])
  | OAck msg => let! (q, g, _, _) := Ack pick q g msg in Ret (q, g, [])
  | OAcked => let! (q, l) := Acked q in Ret (q, g, l)
  | OTick now => let! (q, _) := Clear_tick q now in Ret (q, g, [])
  end.

Fixpoint run q (g : Z) (ops : list ack_op) : outcome (Ackqueue C * Z * list (ackmsg C)) :=
  match ops with
  | [] => Ret (q, g, [])
  | op :: ops =>
      let! (q, g, l) := run_op q g op in
      let! (q, g, l') := run q g ops in Ret (q, g, l ++ l')
  end.

(** The abstract machine: the list of waiting entries and the ping entry. *)
Inductive abs_step : list (ackmsg C) * option (ackmsg C) -> ack_op -> list (ackmsg C) ->
    list (ackmsg C) * option (ackmsg C) -> Prop :=
| abs_refused es p now msg oc :
    abs_step (es, p) (OWait now msg oc) [] (es, p)
| abs_enqueue es p now msg oc a :
    fresh_entry now msg oc a -> Pktid a ∉ ids es ->
    abs_step (es, p) (OWait now msg oc) [] (es ++ [a], p)
| abs_ping es p now m oc :
    abs_step (es, p) (OWait now (MPingreq m) oc) [] (es, Some (mkAck PINGREQ RESERVED 0 [] [] oc 0))
| abs_ack es p msg j e e' :
    es !! j = Some e -> Pktid e = msg_PacketId msg -> marked msg e e' ->
    abs_step (es, p) (OAck msg) [] (<[j:=e']> es, p)
| abs_ack_unknown es p msg :
    (acks_message (msg_Type msg) = true -> msg_PacketId msg ∉ ids es) ->
    abs_step (es, p) (OAck msg) [] (es, p)
| abs_pong es a msg :
    msg_Type msg = PINGRESP -> Mtype a = PINGREQ ->
    abs_step (es, Some a) (OAck msg) [] (es, Some (with_state PINGRESP a))
| abs_acked es p done rest :
    span (fun e => acked_state (State e)) es = (done, rest) ->
    (forall a, p = Some a -> State a <> PINGRESP) ->
    abs_step (es, p) OAcked done (rest, p)
| abs_acked_ping es a done rest :
    span (fun e => acked_state (State e)) es = (done, rest) -> State a = PINGRESP ->
    abs_step (es, Some a) OAcked (a :: done) (rest, Some zero_ack)
| abs_tick es p now gone rest :
    span (expired now) es = (gone, rest) ->
    abs_step (es, p) (OTick now) [] (rest, p).

Inductive abs_run : list (ackmsg C) * option (ackmsg C) -> list ack_op -> list (ackmsg C) ->
    list (ackmsg C) * option (ackmsg C) -> Prop :=
| abs_run_nil s : abs_run s [] [] s
| abs_run_cons s op l s' ops l' s'' :
    abs_step s op l s' -> abs_run s' ops l' s'' -> abs_run s (op :: ops) (l ++ l') s''.

Lemma Wait_sim q es g now msg oc q' g' msg' err :
  ack_inv q es -> Wait pick q g now msg oc = Ret (q', g', msg', err) ->
  exists es', abs_step (es, ping q) (OWait now msg oc) [] (es', ping q') /\ ack_inv q' es'.
Proof.
  intros I H. unfold Wait in H.
  assert (Hins : forall X, (let! (q, g, msg, _) := insert pick q g now (msg_PacketId msg) msg oc in
      Ret (q, g, msg, @None error)) = Ret (q', g', X, err) ->
    exists es', abs_step (es, ping q) (OWait now msg oc) [] (es', ping q') /\ ack_inv q' es').
  { intros X HX. inv_bind HX as x Hx. destruct x as [[[q1 g1] m1] e1]. injection HX as <- _ _ _.
    apply insert_spec with (es := es) in Hx as [-> [I'|(a & Hf & Hni & I')]]; [| |done].
    - exists es. split; [apply abs_refused|done].
    - exists (es ++ [a]). split; [by apply abs_enqueue|done]. }
  destruct msg; try (injection H as <- _ _ _; exists es; split; [apply abs_refused|done]); try by apply Hins in H.
  - inv_bind H as d Hd. case_in H; [injection H as <- _ _ _; exists es; split; [apply abs_refused|done]|].
    by apply Hins in H.
  - injection H as <- _ _ _. exists es. split; [apply abs_ping|]. by apply (ack_inv_ext q).
Qed.

Lemma Ack_sim q es g msg q' g' msg' err :
  ack_inv q es -> Ack pick q g msg = Ret (q', g', msg', err) ->
  exists es', abs_step (es, ping q) (OAck msg) [] (es', ping q') /\ ack_inv q' es'.
Proof.
  intros I H. destruct (acks_message (msg_Type msg)) eqn:Ht.
  - apply Ack_spec with (es := es) in H as [-> [[Hni I']|(j & e & e' & Hj & Hid & Hm & I')]]; [| |done..].
    + exists es. split; [by apply abs_ack_unknown|done].
    + exists (<[j:=e']> es). split; [by eapply abs_ack|done].
  - unfold Ack in H. rewrite Ht in H. case_in H.
    + destruct (ping q) as [p|] eqn:Ep; [|done]. injection H as <- _ _ _. exists es.
      destruct (Mtype p =? PINGREQ) eqn:Em.
      * split; [apply abs_pong; lia|by apply (ack_inv_ext q)].
      * rewrite Ep. split; [apply abs_ack_unknown; congruence|done].
    + injection H as <- _ _ _. exists es. split; [apply abs_ack_unknown; congruence|done].
Qed.

Lemma Acked_sim q es : ack_inv q es ->
  exists q' l es', Acked q = Ret (q', l) /\ abs_step (es, ping q) OAcked l (es', ping q') /\ ack_inv q' es'.
Proof.
  intros I. destruct (Acked_spec q es I) as (q' & E & I' & Hp & _). do 3 eexists.
  split; [exact E|]. split; [|exact I']. rewrite Hp. unfold ping_done, ping_after.
  destruct (span _ es) as [d r] eqn:Es. destruct (ping q) as [p|].
  - destruct (State p =? PINGRESP) eqn:Ep; cbn [app fst snd].
    + apply abs_acked_ping; [done|lia].
    + apply abs_acked; [done|]. intros a [= <-]. lia.
  - by apply abs_acked.
Qed.

Lemma Clear_tick_spec q es now : ack_inv q es ->
  exists q', Clear_tick q now = Ret (q', true) /\ ack_inv q' (snd (span (expired now) es)) /\ ping q' = ping q /\
    bytesPool q' = put_all (bytesPool q) (fst (span (expired now) es)).
Proof.
  intros I. pose proof (is_pow2_pos _ (ai_size _ _ I)). unfold Clear_tick. rewrite (ai_ring _ _ I). guard_false.
  destruct (clear_loop1_spec es (Z.to_nat (count q)) q now I) as (q' & -> & I' & Hp & Hb).
  { rewrite (ai_count _ _ I). unfold zlen. lia. }
  rewrite bindO_ret. by exists q'.
Qed.

Lemma run_op_sim q es g op q' g' l :
  ack_inv q es -> run_op q g op = Ret (q', g', l) ->
  exists es', abs_step (es, ping q) op l (es', ping q') /\ ack_inv q' es'.
Proof.
  intros I H. destruct op as [now msg oc|msg| |now]; unfold run_op in H; inv_bind H as x Hx.
  - destruct x as [[[q1 g1] m1] e1]. injection H as <- _ <-. by eapply Wait_sim.
  - destruct x as [[[q1 g1] m1] e1]. injection H as <- _ <-. by eapply Ack_sim.
  - destruct x as [q1 l1]. injection H as <- _ <-. destruct (Acked_sim q es I) as (q2 & l2 & es2 & E & S & I2).
    rewrite E in Hx. injection Hx as <- <-. eauto.
  - destruct x as [q1 b]. injection H as <- _ <-. destruct (Clear_tick_spec q es now I) as (q2 & E & I2 & Hp & _).
    rewrite E in Hx. injection Hx as <- _. exists (snd (span (expired now) es)). split; [|done].
    rewrite Hp. destruct (span _ es) eqn:Es. by eapply abs_tick.
Qed.

Lemma run_sim ops q es g q' g' l :
  ack_inv q es -> run q g ops = Ret (q', g', l) ->
  exists es', abs_run (es, ping q) ops l (es', ping q') /\ ack_inv q' es'.
Proof.
  revert q es g l. induction ops as [|op ops IH]; intros q es g l I H; cbn [run] in H.
  - injection H as <- _ <-. exists es. split; [constructor|done].
  - inv_bind H as x Hx. destruct x as [[q1 g1] l1]. inv_bind H as y Hy. destruct y as [[q2 g2] l2].
    injection H as <- <- <-. destruct (run_op_sim _ _ _ _ _ _ _ I Hx) as (es1 & S1 & I1).
    destruct (IH _ _ _ _ I1 Hy) as (es2 & R2 & I2). exists es2. split; [|done]. by econstructor.
Qed.

(** ** Progress *)

(** the pool of a queue made with [init]: [New] is set and every buffer it holds
    has the pool's width *)
Record pool_ok (bp : BytesPool) : Prop := {
  po_new : has_new bp = true;
  po_width : width bp = 8192;
  po_bufs : Forall (fun b => zlen b = 8192) (pool bp)
}.

Lemma Get_ok bp n : pool_ok bp -> 0 <= n ->
  exists b bp', Get pick bp n = Ret (b, bp') /\ n <= zlen b /\ pool_ok bp'.
Proof.
  intros [Hn Hw Hb] H0. unfold Get. rewrite Hw. destruct (n <? 8192) eqn:E.
  - destruct (pick (pool bp)) as [i|]; cbn; [destruct (pool bp !! i) as [b|] eqn:Ei; cbn|].
    + eexists _, _. split; [done|]. pose proof (Forall_lookup_1 _ _ _ _ Hb Ei) as Hbl. cbn in Hbl. split; [lia|].
      split; cbn; [done|done|]. by apply Forall_delete.
    + rewrite Hn. eexists _, _. split; [done|]. split; [zl|done].
    + rewrite Hn. eexists _, _. split; [done|]. split; [zl|done].
  - eexists _, _. split; [done|]. split; [zl|done].
Qed.

Lemma Put_ok bp b : pool_ok bp -> pool_ok (Put bp b).
Proof.
  intros [Hn Hw Hb]. unfold Put. destruct (zlen b =? width bp) eqn:E; split; cbn; try done.
  constructor; [lia|done].
Qed.

Lemma put_all_ok es bp : pool_ok bp -> pool_ok (put_all bp es).
Proof.
  unfold put_all. revert bp. induction es as [|e es IH]; intros bp H; cbn; [done|].
  apply IH. by do 2 apply Put_ok.
Qed.

(** [Len] and [Encode] of the message return, whatever the counter and the
    (large enough) buffer are. *)
Definition encodable (msg : Message) : Prop :=
  forall g, 0 <= g -> exists msg1 n, msg_Len msg = Ret (msg1, n) /\ 0 <= n /\
    forall dst, n <= zlen dst ->
      exists msg2 g2 dst2 k err, msg_Encode msg1 g dst = Ret (msg2, g2, dst2, k, err) /\ 0 <= g2.

Definition op_ok (op : ack_op) : Prop :=
  match op with
  | OWait _ (MPublish pm) _ => encodable (MPublish pm) /\ returns (QoS pm) /\ returns (Dup pm)
  | OWait _ msg _ | OAck msg => encodable msg
  | _ => True
  end.

Lemma insert_total q es g now msg oc :
  ack_inv q es -> pool_ok (bytesPool q) -> size q < 2 ^ 62 -> 0 <= g -> encodable msg ->
  (forall pm, msg = MPublish pm -> returns (Dup pm)) ->
  exists q' g' msg' err, insert pick q g now (msg_PacketId msg) msg oc = Ret (q', g', msg', err) /\
    pool_ok (bytesPool q') /\ 0 <= g'.
Proof.
  intros I Hpo Hs Hg He Hdup. unfold insert.
  assert (H1 : exists q1, (if full q then grow q else Ret q) = Ret q1 /\ ack_inv q1 es /\ bytesPool q1 = bytesPool q).
  { destruct (full q) eqn:Ef; [|by exists q].
    destruct (grow_spec q es I Ef Hs) as (q1 & E & I1 & _ & _ & _ & Hb). by exists q1. }
  destruct H1 as (q1 & -> & I1 & Hb). rewrite bindO_ret. rewrite <- Hb in Hpo.
  destruct (emap_get q1 _) as [i|].
  - destruct msg; try (by eexists _, _, _, _).
    destruct (Hdup _ eq_refl) as [d ->]. rewrite bindO_ret. destruct d; by eexists _, _, _, _.
  - destruct (He g Hg) as (msg1 & n & -> & Hn & Henc). rewrite bindO_ret.
    destruct (Get_ok _ n Hpo Hn) as (b & bp & -> & Hb2 & Hpo2). rewrite bindO_ret.
    destruct (Henc b Hb2) as (msg2 & g2 & dst2 & k & err & -> & Hg2). rewrite bindO_ret.
    destruct err; [by eexists _, _, _, _|].
    cbn [with_pool ring tail emap]. pose proof (is_pow2_pos _ (ai_size _ _ I1)).
    rewrite put_insert, bindO_ret by (rewrite (ai_ring _ _ I1), (ai_tail _ _ I1); apply slot_range; lia).
    destruct (ai_map _ _ I1) as (m & -> & _). by eexists _, _, _, _.
Qed.

Lemma Wait_total q es g now msg oc :
  ack_inv q es -> pool_ok (bytesPool q) -> size q < 2 ^ 62 -> 0 <= g -> op_ok (OWait now msg oc) ->
  exists q' g' msg' err, Wait pick q g now msg oc = Ret (q', g', msg', err) /\
    pool_ok (bytesPool q') /\ 0 <= g'.
Proof.
  intros I Hpo Hs Hg Hop.
  assert (Hins : encodable msg -> (forall pm, msg = MPublish pm -> returns (Dup pm)) ->
    exists q' g' msg' err, (let! (q, g, msg, _) := insert pick q g now (msg_PacketId msg) msg oc in
      Ret (q, g, msg, @None error)) = Ret (q', g', msg', err) /\ pool_ok (bytesPool q') /\ 0 <= g').
  { intros He Hd. destruct (insert_total q es g now msg oc I Hpo Hs Hg He Hd) as (q' & g' & m' & e & -> & H1 & H2).
    by eexists _, _, _, _. }
  unfold Wait. destruct msg; try (by eexists _, _, _, _); try (apply Hins; [exact Hop|done]).
  destruct Hop as (He & [v Hv] & Hd). rewrite Hv, bindO_ret.
  destruct (v =? QosAtMostOnce); [by eexists _, _, _, _|]. apply Hins; [done|]. by intros pm [= <-].
Qed.

Lemma Ack_total q es g msg :
  ack_inv q es -> pool_ok (bytesPool q) -> is_Some (ping q) -> 0 <= g -> encodable msg ->
  exists q' g' msg' err, Ack pick q g msg = Ret (q', g', msg', err) /\ pool_ok (bytesPool q') /\ 0 <= g'.
Proof.
  intros I Hpo [p Hp] Hg He. unfold Ack. destruct (acks_message _).
  - pose proof (emap_get_spec q es (msg_PacketId msg) I) as Hgt.
    destruct (emap_get q _) as [i|]; [|by eexists _, _, _, _]. destruct Hgt as (j & e & Hj & _ & ->).
    destruct (update_inv q es j e (with_state (msg_Type msg)) I Hj eq_refl) as [-> I1]. rewrite bindO_ret.
    destruct (He g Hg) as (msg1 & n & -> & Hn & Henc). rewrite bindO_ret.
    destruct (Get_ok _ n Hpo Hn) as (b & bp & Hget & Hb2 & Hpo2). cbn [with_ring bytesPool].
    rewrite Hget, bindO_ret.
    destruct (Henc b Hb2) as (msg2 & g2 & dst2 & k & err & -> & Hg2). rewrite bindO_ret.
    set (q1 := with_ring _ q) in *. set (e1 := with_state _ e) in *.
    assert (I2 : ack_inv (with_pool bp q1) (<[j:=e1]> es)) by (by apply (ack_inv_ext q1)).
    assert (Hj1 : (<[j:=e1]> es) !! j = Some e1) by (apply list_lookup_insert_eq; by apply lookup_lt_Some in Hj).
    destruct (update_inv _ _ j e1 (with_ackbuf dst2) I2 Hj1 eq_refl) as [E2 I3].
    change (slot (with_pool bp q1) (Z.of_nat j)) with (slot q (Z.of_nat j)) in *.
    rewrite E2, bindO_ret. by eexists _, _, _, _.
  - destruct (_ =? PINGRESP); [|by eexists _, _, _, _]. rewrite Hp.
    destruct (Mtype p =? PINGREQ); by eexists _, _, _, _.
Qed.

Lemma abs_step_ping es p op l es' p' :
  abs_step (es, p) op l (es', p') -> is_Some p -> is_Some p'.
Proof. intros H Hp. inversion H; subst; eauto. Qed.

Lemma run_op_total q es g op :
  ack_inv q es -> pool_ok (bytesPool q) -> is_Some (ping q) -> size q < 2 ^ 62 -> 0 <= g -> op_ok op ->
  exists q' g' l, run_op q g op = Ret (q', g', l) /\ pool_ok (bytesPool q') /\ 0 <= g'.
Proof.
  intros I Hpo Hp Hs Hg Hop. destruct op as [now msg oc|msg| |now]; unfold run_op.
  - destruct (Wait_total q es g now msg oc I Hpo Hs Hg Hop) as (q' & g' & m' & e & -> & H1 & H2).
    by eexists _, _, _.
  - destruct (Ack_total q es g msg I Hpo Hp Hg Hop) as (q' & g' & m' & e & -> & H1 & H2). by eexists _, _, _.
  - destruct (Acked_spec q es I) as (q' & -> & _ & _ & Hb). rewrite bindO_ret. eexists _, _, _.
    split; [done|]. by rewrite Hb.
  - destruct (Clear_tick_spec q es now I) as (q' & -> & _ & _ & Hb). rewrite bindO_ret. eexists _, _, _.
    split; [done|]. rewrite Hb. split; [by apply put_all_ok|done].
Qed.

End Refinement.

Lemma span_spec {A} (P : A -> bool) l :
  l = fst (span P l) ++ snd (span P l) /\ Forall (fun x => P x = true) (fst (span P l)) /\
  match snd (span P l) with x :: _ => P x = false | [] => True end.
Proof.
  induction l as [|x l IH]; [done|]. cbn [span]. destruct (P x) eqn:E; [|done].
  destruct (span P l) as [a b]. cbn [fst snd] in *. destruct IH as (-> & H1 & H2). split_and!; [done|by constructor|done].
Qed.

(** ** PUBLISH messages in the queue *)

Lemma publish_len_sent m b : sendable m b ->
  exists n, Publish.Len m = Ret (Publish.with_hdr (with_remlen n (Publish.hdr m)) m,
                                 1 + zlen (uvarint_bytes 10 n) + n) /\ remlen_ok n /\
    forall id, id_ok b id -> n = zlen (publish_body (topic m) id (payload m)).
Proof.
  intros S. set (id := if qos_of b =? 0 then [] else [0; 0]).
  assert (Hid : id_ok b id) by (unfold id_ok, id; by destruct (qos_of b =? 0)).
  exists (zlen (publish_body (topic m) id (payload m))). unfold Publish.Len. rewrite (s_dirty _ _ S). cbn [negb].
  rewrite (msglen_byte m b (s_byte _ _ S) id Hid), bindO_ret.
  pose proof (sendable_body m b id S Hid) as Hr.
  rewrite len_with_dirty by (done || apply S). split; [done|]. split; [done|].
  intros id' Hid'. unfold publish_body, id_ok, id in *. destruct (qos_of b =? 0); [by subst|zl].
Qed.

Lemma sendable_sized m b n : sendable m b -> sendable (Publish.with_hdr (with_remlen n (Publish.hdr m)) m) b.
Proof. intros []. by split. Qed.

Lemma publish_encodable m b : sendable m b -> encodable (MPublish m).
Proof.
  intros S g Hg. destruct (publish_len_sent m b S) as (n & HL & Hr & Hn).
  eexists _, _. unfold msg_Len, msg_Encode, dispatch. cbn [pk_len pk_encode publish_packet].
  rewrite HL, bindO_ret. split; [done|]. unfold remlen_ok in Hr.
  split; [zlen_facts; lia|]. intros dst Hd. pose proof (sendable_sized m b n S) as S1.
  pose proof (Publish.publish_Encode_spec _ b g dst S1 Hg) as HE. pose proof (sent_id_ok (Publish.with_hdr (with_remlen n (Publish.hdr m)) m) b g Hg) as Hid.
  assert (Hg' : 0 <= snd (sent_id (Publish.with_hdr (with_remlen n (Publish.hdr m)) m) b g)).
  { unfold sent_id. destruct (qos_of b =? 0); [done|].
    pose proof (PacketId.ensurePacketId_spec (Publish.hdr (Publish.with_hdr (with_remlen n (Publish.hdr m)) m)) g Hg) as H.
    destruct (PacketId.ensurePacketId _ g). apply H. }
  destruct (sent_id _ b g) as [h' g'] eqn:Es. cbn [fst snd] in *. cbv zeta in HE.
  rewrite HE, bindO_ret; [by eexists _, _, _, _, _|].
  cbn [topic payload Publish.with_hdr]. unfold publish_wire. rewrite zlen_app, zlen_hdr_wire, <- (Hn _ Hid). lia.
Qed.

(** ** Theorems *)

(** Every operation of the queue, on a queue that holds the entries [es],
    returns (no panic, no endless loop) and does what the abstract queue does:
    [Wait] appends one entry with a fresh identifier or changes nothing, [Ack]
    marks the entry with the identifier of the acknowledgement, [Acked] hands out
    the completed prefix and a finished ping, a tick of [Clear] drops the expired
    prefix.  The ring, the map and the pool are consistent again afterwards. *)
Theorem ackqueue_step_refines (C : Type) pick (q : Ackqueue C) es g op :
  ack_inv q es -> pool_ok (bytesPool q) -> is_Some (ping q) -> size q < 2 ^ 62 -> 0 <= g -> op_ok op ->
  exists q' g' l es', run_op pick q g op = Ret (q', g', l) /\
    abs_step (es, ping q) op l (es', ping q') /\ ack_inv q' es' /\
    pool_ok (bytesPool q') /\ is_Some (ping q') /\ 0 <= g'.
Proof.
  intros I Hpo Hp Hs Hg Hop. destruct (run_op_total pick q es g op I Hpo Hp Hs Hg Hop) as (q' & g' & l & E & H1 & H2).
  destruct (run_op_sim pick q es g op q' g' l I E) as (es' & S & I'). exists q', g', l, es'.
  split_and!; try done. by eapply abs_step_ping.
Qed.

(** a PUBLISH at QoS 1 with identifier 7 *)
Definition sample_qos1 : PublishMessage :=
  Publish.mkPublish (SetPacketId (mkHeader 0 (Own [50]) (Own []) (mkslice []) true) 7) [97] [88].

Lemma sample_qos1_sendable : sendable sample_qos1 50.
Proof. split; try reflexivity; try (vm_compute; split; congruence). Qed.

Lemma ackqueue_step_refines_witness :
  exists q' g' l es',
    run_op (fun _ => None) (newAckqueue (C:=unit) 16 true) 0 (OWait 100 (MPublish sample_qos1) None) = Ret (q', g', l) /\
    abs_step ([], Some zero_ack) (OWait 100 (MPublish sample_qos1) None) l (es', ping q') /\ ack_inv q' es' /\
    pool_ok (bytesPool q') /\ is_Some (ping q') /\ 0 <= g'.
Proof.
  apply (ackqueue_step_refines unit (fun _ => None) (newAckqueue 16 true) [] 0 (OWait 100 (MPublish sample_qos1) None)).
  - apply newAckqueue_inv. lia.
  - split; [reflexivity|reflexivity|constructor].
  - eexists. reflexivity.
  - vm_compute. reflexivity.
  - lia.
  - split; [exact (publish_encodable _ _ sample_qos1_sendable)|].
    split; [exists 1; reflexivity|exists false; reflexivity].
Defined.

(** C16: Any sequence of operations on a new queue, in any order, is a run of the
    abstract queue with the same entries handed out, and ends in a consistent
    ring: whatever the queue returned, it returned in the order of insertion. *)
Theorem ackqueue_run_refines (C : Type) pick n p g ops (q' : Ackqueue C) g' l :
  1 <= n <= 2 ^ 62 -> run pick (newAckqueue n p) g ops = Ret (q', g', l) ->
  exists es', abs_run ([], Some zero_ack) ops l (es', ping q') /\ ack_inv q' es'.
Proof. intros Hn H. exact (run_sim pick ops _ [] g q' g' l (newAckqueue_inv n p Hn) H). Qed.

Definition sample_ops : list (ack_op (C:=unit)) :=
  [OWait 100 (MPublish sample_qos1) (Some tt); OAck (MPuback (Puback.new_ack PUBACK 7)); OAcked; OTick 200].

Lemma ackqueue_run_refines_witness :
  exists q' g' a es', run (fun _ => None) (newAckqueue (C:=unit) 16 true) 0 sample_ops = Ret (q', g', [a]) /\
    Pktid a = 7 /\ OnComplete a = Some tt /\
    abs_run ([], Some zero_ack) sample_ops [a] (es', ping q').
Proof.
  destruct (run (fun _ => None) (newAckqueue (C:=unit) 16 true) 0 sample_ops) as [[[q' g'] l]|] eqn:E;
    [|vm_compute in E; discriminate].
  destruct (ackqueue_run_refines unit (fun _ => None) 16 true 0 sample_ops q' g' l ltac:(lia) E) as (es' & H & _).
  destruct l as [|a [|]]; [vm_compute in E; discriminate| |vm_compute in E; discriminate].
  exists q', g', a, es'. split; [reflexivity|]. split; [|split; [|exact H]].
  - vm_compute in E. injection E as <- <- <-. reflexivity.
  - vm_compute in E. injection E as <- <- <-. reflexivity.
Defined.

(** [Acked] hands out exactly the longest run of completed entries at the
    front of the queue, oldest first, after a finished ping, and keeps the rest:
    an entry that is not acknowledged holds back every entry behind it. *)
Theorem acked_in_order (C : Type) (q : Ackqueue C) es :
  ack_inv q es ->
  exists q' done rest, Acked q = Ret (q', ping_done q ++ done) /\ es = done ++ rest /\ ack_inv q' rest /\
    Forall (fun e => acked_state (State e) = true) done /\
    match rest with e :: _ => acked_state (State e) = false | [] => True end.
Proof.
  intros I. destruct (Acked_spec q es I) as (q' & E & I' & _).
  destruct (span_spec (fun e => acked_state (State e)) es) as (H1 & H2 & H3).
  eexists q', _, _. split_and!; [exact E|exact H1|done..].
Qed.

Lemma acked_in_order_witness :
  exists (q' : Ackqueue unit) done rest, Acked (newAckqueue 16 true) = Ret (q', done) /\ [] = done ++ rest /\
    ack_inv q' rest.
Proof.
  destruct (acked_in_order unit (newAckqueue 16 true) [] (newAckqueue_inv 16 true ltac:(lia)))
    as (q' & d & r & H1 & H2 & H3 & _). exists q', d, r. split; [exact H1|]. split; assumption.
Defined.

(** A tick of [Clear] drops exactly the longest run of entries at the front
    that are more than five seconds old, gives both of their buffers back to the
    pool, and leaves the goroutine running. *)
Theorem clear_drops_expired (C : Type) (q : Ackqueue C) es now :
  ack_inv q es ->
  exists q' gone rest, Clear_tick q now = Ret (q', true) /\ es = gone ++ rest /\ ack_inv q' rest /\
    Forall (fun e => timestamp e + 5 < now) gone /\
    match rest with e :: _ => now <= timestamp e + 5 | [] => True end /\
    bytesPool q' = put_all (bytesPool q) gone.
Proof.
  intros I. destruct (Clear_tick_spec q es now I) as (q' & E & I' & _ & Hb).
  destruct (span_spec (expired now) es) as (H1 & H2 & H3).
  eexists q', _, _. split; [exact E|]. split; [exact H1|]. split; [done|]. split; [|split; [|done]].
  - eapply Forall_impl; [exact H2|]. intros e He. unfold expired in He. lia.
  - destruct (snd (span (expired now) es)); [done|]. unfold expired in H3. lia.
Qed.

Lemma clear_drops_expired_witness :
  exists (q' : Ackqueue unit) gone rest, Clear_tick (newAckqueue 16 true) 7 = Ret (q', true) /\
    @nil (ackmsg unit) = gone ++ rest.
Proof.
  destruct (clear_drops_expired unit (newAckqueue 16 true) [] 7 (newAckqueue_inv 16 true ltac:(lia)))
    as (q' & d & r & H1 & H2 & _). exists q', d, r. split; assumption.
Defined.

(** [Wait] on a PUBLISH, step by step *)
Lemma Wait_publish_ok (C : Type) pick (q : Ackqueue C) es g now m b oc :
  ack_inv q es -> pool_ok (bytesPool q) -> size q < 2 ^ 62 -> 0 <= g ->
  sendable m b -> qos_of b <> 0 -> ValidQos (qos_of b) = true -> ValidTopic (topic m) = true ->
  PacketId (Publish.hdr m) <> 0 -> PacketId (Publish.hdr m) ∉ ids es ->
  exists q' g' msg' a m2 k, Wait pick q g now (MPublish m) oc = Ret (q', g', msg', None) /\
    ack_inv q' (es ++ [a]) /\ Pktid a = PacketId (Publish.hdr m) /\ OnComplete a = oc /\ timestamp a = now /\
    Publish.Decode NewPublishMessage (mkslice (Msgbuf a)) = Ret (m2, k, None) /\
    Topic m2 = topic m /\ Payload m2 = payload m /\ PacketId (Publish.hdr m2) = PacketId (Publish.hdr m) /\
    Mtype a = PUBLISH /\ ping q' = ping q /\ pool_ok (bytesPool q').
Proof.
  intros I Hpo Hs Hg S Hq Hvq Hvt Hnz Hni.
  assert (H1 : exists q1, (if full q then grow q else Ret q) = Ret q1 /\ ack_inv q1 es /\
      zlen es < size q1 /\ bytesPool q1 = bytesPool q /\ ping q1 = ping q).
  { pose proof (is_pow2_pos _ (ai_size _ _ I)). pose proof (ai_room _ _ I). destruct (full q) eqn:Ef.
    - destruct (grow_spec q es I Ef Hs) as (q1 & E & I1 & Hs1 & Hpi & _ & Hb). exists q1. split_and!; try done. lia.
    - exists q. split_and!; try done. unfold full in Ef. rewrite (ai_count _ _ I) in Ef. lia. }
  destruct H1 as (q1 & Hq1 & I1 & Hlt & Hb & Hping). rewrite <- Hb in Hpo.
  destruct (publish_len_sent m b S) as (n & HL & Hr & Hn). unfold remlen_ok in Hr.
  destruct (Get_ok pick _ (1 + zlen (uvarint_bytes 10 n) + n) Hpo ltac:(zlen_facts; lia)) as (buf & bp & Hget & Hbuf & Hbp).
  set (m1 := Publish.with_hdr (with_remlen n (Publish.hdr m)) m) in *.
  assert (Hid : exists id, rd (Publish.hdr m) (packetId (Publish.hdr m)) = id /\ zlen id = 2).
  { unfold PacketId in Hnz. destruct (rd _ (packetId _)) as [|x [|y [|z l]]]; [done|done| |done]. exists [x; y]. by split. }
  destruct Hid as (id & Hrd & Hid2). assert (Eq : (qos_of b =? 0) = false) by lia.
  assert (Hsent : sent_id m1 b g = (Publish.hdr m1, g)).
  { unfold sent_id. rewrite Eq. unfold PacketId.ensurePacketId.
    change (PacketId (Publish.hdr m1)) with (PacketId (Publish.hdr m)). by guard_false. }
  pose proof (Publish.publish_Encode_spec m1 b g buf (sendable_sized m b n S) Hg) as HE. rewrite Hsent in HE. cbv zeta in HE.
  assert (Hsb : sent_bytes b (Publish.hdr m1) = id) by (unfold sent_bytes; by rewrite Eq). rewrite Hsb in HE.
  change (topic m1) with (topic m) in HE. change (payload m1) with (payload m) in HE.
  assert (Hidok : id_ok b id) by (unfold id_ok; by rewrite Eq).
  set (w := publish_wire b (topic m) id (payload m)) in *.
  assert (Hw : zlen w = 1 + zlen (uvarint_bytes 10 n) + n).
  { unfold w, publish_wire. rewrite zlen_app, zlen_hdr_wire, <- (Hn id Hidok). lia. }
  specialize (HE ltac:(lia)).
  destruct (Publish.publish_Decode_spec NewPublishMessage 48 b (topic m) id (payload m) (drop (length w) buf) [])
    as (m2 & HD & T1 & T2 & T3 & T4 & _); try done; [apply S|apply S|rewrite <- (Hn id Hidok); done|]. fold w in HD.
  unfold Wait. rewrite (QoS_byte m b (s_byte _ _ S)), bindO_ret. unfold QosAtMostOnce. rewrite Eq.
  unfold insert. rewrite Hq1, bindO_ret. change (msg_PacketId (MPublish m)) with (PacketId (Publish.hdr m)).
  pose proof (emap_get_spec q1 es (PacketId (Publish.hdr m)) I1) as Hgt.
  destruct (emap_get q1 _) as [i|]; [destruct Hgt as (j & e & Hj & Hje & _); rewrite <- Hje in Hni; by apply ids_lookup in Hj|].
  unfold msg_Len, dispatch. cbn [pk_len publish_packet]. rewrite HL, !bindO_ret. rewrite Hget, bindO_ret.
  unfold msg_Encode, dispatch. cbn [pk_encode publish_packet]. rewrite HE, !bindO_ret.
  cbn [with_pool ring tail emap]. pose proof (is_pow2_pos _ (ai_size _ _ I1)).
  rewrite put_insert, bindO_ret by (rewrite (ai_ring _ _ I1), (ai_tail _ _ I1); apply slot_range; lia).
  destruct (ai_map _ _ I1) as (mm & Hmm & _). rewrite Hmm, bindO_ret.
  eexists _, _, _, (mkAck _ _ (PacketId (Publish.hdr m)) (w ++ drop (length w) buf) _ _ _), m2, _.
  split; [reflexivity|]. split; [by apply (push_inv q1 es (mkAck _ _ _ _ _ _ _))|].
  split; [done|]. split; [done|]. split; [done|]. split; [exact HD|]. split; [done|]. split; [done|].
  split; [unfold PacketId; rewrite T4 by done; by rewrite Hrd|]. split; [change (snd (Type_ (Publish.hdr m1)) = PUBLISH); rewrite (Type_one (Publish.hdr m1) b) by apply S; apply S|by split].
Qed.

(** A PUBLISH handed to [Wait] is stored so that it can be resent: on a
    consistent queue whose pool is set up, a message ready to be sent at QoS 1 or
    2 whose identifier is set and not waiting yet is appended as one entry, and
    decoding the entry's buffer, which may be longer than the packet and hold
    stale bytes after it, gives back the topic, payload and identifier. *)
Theorem wait_publish_stored (C : Type) pick (q : Ackqueue C) es g now m b oc :
  ack_inv q es -> pool_ok (bytesPool q) -> size q < 2 ^ 62 -> 0 <= g ->
  sendable m b -> qos_of b <> 0 -> ValidQos (qos_of b) = true -> ValidTopic (topic m) = true ->
  PacketId (Publish.hdr m) <> 0 -> PacketId (Publish.hdr m) ∉ ids es ->
  exists q' g' msg' a m2 k, Wait pick q g now (MPublish m) oc = Ret (q', g', msg', None) /\
    ack_inv q' (es ++ [a]) /\ Pktid a = PacketId (Publish.hdr m) /\ OnComplete a = oc /\ timestamp a = now /\
    Publish.Decode NewPublishMessage (mkslice (Msgbuf a)) = Ret (m2, k, None) /\
    Topic m2 = topic m /\ Payload m2 = payload m /\ PacketId (Publish.hdr m2) = PacketId (Publish.hdr m).
Proof.
  intros I Hpo Hs Hg S Hq Hvq Hvt Hnz Hni.
  destruct (Wait_publish_ok C pick q es g now m b oc I Hpo Hs Hg S Hq Hvq Hvt Hnz Hni)
    as (q' & g' & msg' & a & m2 & k & H1 & H2 & H3 & H4 & H5 & H6 & H7 & H8 & H9 & _). by exists q', g', msg', a, m2, k.
Qed.

Lemma wait_publish_stored_witness :
  exists (q' : Ackqueue unit) g' msg' a m2 k,
    Wait (fun _ => None) (newAckqueue 16 true) 0 100 (MPublish sample_qos1) None = Ret (q', g', msg', None) /\
    ack_inv q' [a] /\ Pktid a = 7 /\ OnComplete a = None /\ timestamp a = 100 /\
    Publish.Decode NewPublishMessage (mkslice (Msgbuf a)) = Ret (m2, k, None) /\
    Topic m2 = [97] /\ Payload m2 = [88] /\ PacketId (Publish.hdr m2) = 7.
Proof.
  apply (wait_publish_stored unit (fun _ => None) (newAckqueue 16 true) [] 0 100 sample_qos1 50 None
    (newAckqueue_inv 16 true ltac:(lia))).
  - split; [reflexivity|reflexivity|constructor].
  - vm_compute. reflexivity.
  - lia.
  - exact sample_qos1_sendable.
  - vm_compute. discriminate.
  - reflexivity.
  - reflexivity.
  - vm_compute. discriminate.
  - apply not_elem_of_nil.
Defined.

(** A queue whose pool was not initialised (every queue of a session but
    [Pub1ack]) cannot store a message of less than 8192 bytes: [Wait] takes a
    buffer from a pool that has no [New] function, asserts the type of the nil it
    gets, and panics.  A PUBLISH at QoS 2 handed to [Pub2out] is such a message. *)
Theorem wait_without_pool_panics (C : Type) pick n g now m b (oc : option C) :
  1 <= n <= 2 ^ 62 -> pick [] = None -> sendable m b -> qos_of b <> 0 ->
  2 + zlen (topic m) + 2 + zlen (payload m) + maxFixedHeaderLength < 8192 ->
  panics (Wait pick (newAckqueue n false) g now (MPublish m) oc).
Proof.
  intros Hn Hpick S Hq Hsmall. pose proof (newAckqueue_inv (C:=C) n false Hn) as I.
  unfold Wait. rewrite (QoS_byte m b (s_byte _ _ S)), bindO_ret. unfold QosAtMostOnce.
  assert (Eq : (qos_of b =? 0) = false) by lia. rewrite Eq. unfold insert.
  pose proof (is_pow2_pos _ (ai_size _ _ I)) as Hs.
  assert (Hf : full (newAckqueue (C:=C) n false) = false) by (unfold full; cbn [newAckqueue count size] in *; lia).
  rewrite Hf, bindO_ret.
  change (emap_get (newAckqueue n false) (msg_PacketId (MPublish m))) with (@None Z). cbv iota.
  destruct (publish_len_sent m b S) as (k & HL & Hr & Hk). unfold msg_Len, dispatch. cbn [pk_len publish_packet].
  rewrite HL, !bindO_ret. unfold Get. cbn [bytesPool newAckqueue width pool has_new].
  assert (Hkl : 1 + zlen (uvarint_bytes 10 k) + k < 8192).
  { rewrite (uvarint_bytes_len k Hr). rewrite (Hk (if qos_of b =? 0 then [] else [0;0])) by (unfold id_ok; by rewrite Eq).
    rewrite Eq. unfold publish_body, maxFixedHeaderLength in *. repeat destruct (_ <=? _); zl. }
  guard_true. rewrite Hpick. cbn. by eexists.
Qed.

Lemma wait_without_pool_panics_witness :
  panics (Wait (C:=unit) (fun _ => None) (newAckqueue 16 false) 0 100 (MPublish sample_qos1) None).
Proof.
  exact (wait_without_pool_panics unit (fun _ => None) 16 0 100 sample_qos1 50 None ltac:(lia) eq_refl
    sample_qos1_sendable ltac:(vm_compute; discriminate) ltac:(vm_compute; reflexivity)).
Defined.

(** The check on a repeated identifier is the wrong way round: of two PUBLISH
    messages with an identifier that is already waiting, [insert] refuses the one
    with the DUP flag, saying the flag is not set, and accepts the one without. *)
Theorem duplicate_check_inverted (C : Type) pick (q : Ackqueue C) es g now m d (oc : option C) :
  ack_inv q es -> full q = false -> PacketId (Publish.hdr m) ∈ ids es -> Dup m = Ret d ->
  insert pick q g now (PacketId (Publish.hdr m)) (MPublish m) oc
  = Ret (q, g, MPublish m,
         if d then Some (Errorf "ack/insert: duplicate packet ID for PUBLISH message, but DUP flag is not set" [])
         else None).
Proof.
  intros I Hf Hin Hd. unfold insert. rewrite Hf, bindO_ret.
  pose proof (emap_get_spec q es (PacketId (Publish.hdr m)) I) as Hg.
  destruct (emap_get q _) as [i|]; [|done]. rewrite Hd, bindO_ret. by destruct d.
Qed.

Lemma duplicate_check_inverted_witness :
  exists (q : Ackqueue unit) (es : list (ackmsg unit)), ids es = [7] /\
    insert (fun _ => None) q 0 100 7 (MPublish sample_qos1) None = Ret (q, 0, MPublish sample_qos1, None).
Proof.
  destruct (Wait (C:=unit) (fun _ => None) (newAckqueue 16 true) 0 100 (MPublish sample_qos1) None)
    as [[[[q g'] msg'] err]|] eqn:E; [|vm_compute in E; discriminate].
  destruct (Wait_sim (fun _ => None) (newAckqueue 16 true) [] 0 100 (MPublish sample_qos1) None q g' msg' err
    (newAckqueue_inv 16 true ltac:(lia)) E) as (es & S & I).
  assert (Hc : count q = 1 /\ full q = false) by (vm_compute in E; injection E as <- _ _ _; split; reflexivity).
  destruct Hc as [Hc Hf]. exists q, es. pose proof (ai_count _ _ I) as Hz. rewrite Hc in Hz. clear E.
  inversion S; subst; try (vm_compute in Hz; discriminate).
  match goal with H : fresh_entry _ _ _ _ |- _ => destruct H as (_ & _ & Hp & _) end.
  assert (Hids : ids ([] ++ [a]) = [7]) by (unfold ids; cbn; rewrite Hp; reflexivity).
  split; [exact Hids|].
  apply (duplicate_check_inverted unit (fun _ => None) q ([] ++ [a]) 0 100 sample_qos1 false None I Hf).
  - rewrite Hids. by apply list_elem_of_singleton.
  - reflexivity.
Defined.
