(* ===== verification/LibQueue.v ===== *)
(** * LibQueue: the acknowledgement queue of the library
      ([utils/surgemq/surgemq/sessions/ackqueue.go])

    The queue of [AckQueue] before it was given pooled buffers, timestamps and the
    [Clear] goroutine: the ring holds entries, not pointers, and buffers are made
    to measure.  [forget] leads from that queue to this one; the operations commute
    with it, so what is proved of the one holds of the other. *)
From stdpp Require Import base list strings gmap.
From Stdlib Require Import ZArith Lia.
From S2P Require Import Prelude GoLang Pow2 MsgTypes Header Publish Message.
From S2P Require AckQueue.

Definition errQueueFull : error := ErrorsNew "queue full".
Definition errQueueEmpty : error := ErrorsNew "queue empty".
Definition errWaitMessage : error := ErrorsNew "Invalid message to wait for ack".
Definition errAckMessage : error := ErrorsNew "Invalid message for acking".

Record ackmsg (C : Type) : Type := mkAck {
  Mtype : Z;
  State : Z;
  Pktid : Z;
  Msgbuf : list Z;
  Ackbuf : list Z;
  OnComplete : option C
}.
Arguments mkAck {C}.
Arguments Mtype {C}.
Arguments State {C}.
Arguments Pktid {C}.
Arguments Msgbuf {C}.
Arguments Ackbuf {C}.
Arguments OnComplete {C}.

(** [ackmsg{}] *)
Definition zero_ack {C} : ackmsg C := mkAck 0 0 0 [] [] None.

Definition with_state {C} (s : Z) (a : ackmsg C) : ackmsg C :=
  mkAck (Mtype a) s (Pktid a) (Msgbuf a) (Ackbuf a) (OnComplete a).
Definition with_ackbuf {C} (b : list Z) (a : ackmsg C) : ackmsg C :=
  mkAck (Mtype a) (State a) (Pktid a) (Msgbuf a) b (OnComplete a).

Record Ackqueue (C : Type) : Type := mkQueue {
  size : Z;
  mask : Z;
  count : Z;
  head : Z;
  tail : Z;
  ping : ackmsg C;
  ring : list (ackmsg C);
  emap : gmap Z Z;
  ackdone : list (ackmsg C)
}.
Arguments mkQueue {C}.
Arguments size {C}.
Arguments mask {C}.
Arguments count {C}.
Arguments head {C}.
Arguments tail {C}.
Arguments ping {C}.
Arguments ring {C}.
Arguments emap {C}.
Arguments ackdone {C}.

Section Ackqueue.
Context {C : Type}.
Implicit Types q : Ackqueue C.

Definition with_ring (r : list (ackmsg C)) q : Ackqueue C :=
  mkQueue (size q) (mask q) (count q) (head q) (tail q) (ping q) r (emap q) (ackdone q).
Definition with_ping (p : ackmsg C) q : Ackqueue C :=
  mkQueue (size q) (mask q) (count q) (head q) (tail q) p (ring q) (emap q) (ackdone q).
Definition with_ackdone (l : list (ackmsg C)) q : Ackqueue C :=
  mkQueue (size q) (mask q) (count q) (head q) (tail q) (ping q) (ring q) (emap q) l.

Definition newAckqueue (n : Z) : Ackqueue C :=
  let m := n in
  let m := if negb (powerOfTwo64 m) then roundUpPowerOfTwo64 m else m in
  mkQueue m (m - 1) 0 0 0 zero_ack (replicate (Z.to_nat m) zero_ack) ∅ [].

Definition len_ q : Z := count q.
Definition cap_ q : Z := size q.
Definition index_ q (n : Z) : Z := Z.land n (mask q).
Definition full q : bool := count q =? size q.
Definition empty q : bool := count q =? 0.
Definition increment q (n : Z) : Z := index_ q (i64 (n + 1)).

(** [this.ring[i].field = ...] *)
Definition update_at q (i : Z) (f : ackmsg C -> ackmsg C) : outcome (Ackqueue C) :=
  let! a := index (ring q) i in
  let! r := put (ring q) i [f a] in
  Ret (with_ring r q).

(** [for i := 0; i < tail; i++ { emap[ring[i].Pktid] = i }] *)
Fixpoint index_ring (fuel : nat) (r : list (ackmsg C)) (i : Z) (m : gmap Z Z) : outcome (gmap Z Z) :=
  match fuel with
  | O => Ret m
  | S fuel => let! a := index r i in index_ring fuel r (i + 1) (<[Pktid a:=i]> m)
  end.

Definition grow q : outcome (Ackqueue C) :=
  if 2 ^ 62 - 1 <? size q then Panic (CustomPanic "new size will overflow int64")
  else
    let newsize := i64 (Z.shiftl (size q) 1) in
    let newmask := newsize - 1 in
    let newring := replicate (Z.to_nat newsize) zero_ack in
    let! newring :=
      (if head q <? tail q then
         let! s := subslice (ring q) (head q) (tail q) in
         let! (newring, _) := gocopy newring 0 s in Ret newring
       else
         let! s := subslice (ring q) (head q) (zlen (ring q)) in
         let! (newring, _) := gocopy newring 0 s in
         let! s := subslice (ring q) 0 (tail q) in
         let! (newring, _) := gocopy newring (size q - head q) s in Ret newring) in
    let tail' := count q in
    let! m := index_ring (Z.to_nat tail') newring 0 ∅ in
    Ret (mkQueue newsize newmask (count q) 0 tail' (ping q) newring m (ackdone q)).

(** the queue, the identifier counter, the message as [Len] and [Encode] leave it,
    the error *)
Definition insert q (g : Z) (pktid : Z) (msg : Message) (onComplete : option C)
  : outcome (Ackqueue C * Z * Message * option error) :=
  let! q := (if full q then grow q else Ret q) in
  match emap q !! pktid with
  | None =>
      let! (msg, ml) := msg_Len msg in
      let mtype := msg_Type msg in
      let id := msg_PacketId msg in
      let! (msg, g, buf, _, err) := msg_Encode msg g (replicate (Z.to_nat ml) 0) in
      match err with
      | Some e => Ret (q, g, msg, Some e)
      | None =>
          let am := mkAck mtype RESERVED id buf [] onComplete in
          let! r := put (ring q) (tail q) [am] in
          Ret (mkQueue (size q) (mask q) (count q + 1) (head q) (increment q (tail q)) (ping q) r
                       (<[pktid:=tail q]> (emap q)) (ackdone q), g, msg, None)
      end
  | Some _ =>
      match msg with
      | MPublish pm =>
          let! d := Dup pm in
          if d then
            Ret (q, g, msg, Some (Errorf "ack/insert: duplicate packet ID for PUBLISH message, but DUP flag is not set" []))
          else Ret (q, g, msg, None)
      | _ => Ret (q, g, msg, Some (Errorf "ack/insert: duplicate packet ID for %s message"
                                          [AStr (str (Name (msg_Type msg)))]))
      end
  end.

(** [Wait] discards the error of [insert]. *)
Definition Wait q (g : Z) (msg : Message) (onComplete : option C)
  : outcome (Ackqueue C * Z * Message * option error) :=
  let enqueue :=
    let! (q, g, msg, _) := insert q g (msg_PacketId msg) msg onComplete in
    Ret (q, g, msg, None) in
  match msg with
  | MPublish pm =>
      let! qos := QoS pm in
      if qos =? QosAtMostOnce then Ret (q, g, msg, Some errWaitMessage) else enqueue
  | MSubscribe _ | MUnsubscribe _ => enqueue
  | MPingreq _ => Ret (with_ping (mkAck PINGREQ RESERVED 0 [] [] onComplete) q, g, msg, None)
  | _ => Ret (q, g, msg, Some errWaitMessage)
  end.

Definition acks_message (t : Z) : bool :=
  (t =? PUBACK) || (t =? PUBREC) || (t =? PUBREL) || (t =? PUBCOMP) || (t =? SUBACK) || (t =? UNSUBACK).

Definition Ack q (g : Z) (msg : Message) : outcome (Ackqueue C * Z * Message * option error) :=
  let t := msg_Type msg in
  if acks_message t then
    match emap q !! msg_PacketId msg with
    | Some i =>
        let! q := update_at q i (with_state t) in
        let! (msg, ml) := msg_Len msg in
        let! (msg, g, buf, _, err) := msg_Encode msg g (replicate (Z.to_nat ml) 0) in
        let! q := update_at q i (with_ackbuf buf) in
        Ret (q, g, msg, err)
    | None => Ret (q, g, msg, None)
    end
  else if t =? PINGRESP then
    Ret (if Mtype (ping q) =? PINGREQ then with_ping (with_state PINGRESP (ping q)) q else q, g, msg, None)
  else Ret (q, g, msg, Some errAckMessage).

Definition removeHead q : outcome (Ackqueue C * option error) :=
  if empty q then Ret (q, Some errQueueEmpty)
  else
    let! it := index (ring q) (head q) in
    let! r := put (ring q) (head q) [zero_ack] in
    Ret (mkQueue (size q) (mask q) (count q - 1) (increment q (head q)) (tail q) (ping q) r
                 (delete (Pktid it) (emap q)) (ackdone q), None).

Definition acked_state (s : Z) : bool :=
  (s =? PUBACK) || (s =? PUBREL) || (s =? PUBCOMP) || (s =? SUBACK) || (s =? UNSUBACK).

(** each round removes one entry, so [count] rounds are enough *)
Fixpoint acked_loop (fuel : nat) q : outcome (Ackqueue C) :=
  match fuel with
  | O => Ret q
  | S fuel =>
      if empty q then Ret q
      else
        let! a := index (ring q) (head q) in
        if acked_state (State a) then
          let! (q, _) := removeHead (with_ackdone (ackdone q ++ [a]) q) in
          acked_loop fuel q
        else Ret q
  end.

Definition Acked q : outcome (Ackqueue C * list (ackmsg C)) :=
  let q := with_ackdone [] q in
  let q := if State (ping q) =? PINGRESP
           then with_ping zero_ack (with_ackdone (ackdone q ++ [ping q]) q) else q in
  let! q := acked_loop (Z.to_nat (count q)) q in
  Ret (q, ackdone q).
End Ackqueue.

(** ** The queue of [AckQueue] seen without pointers, buffers and times *)

Definition on_ret {A B} (f : A -> B) (o : outcome A) : outcome B := let! a := o in Ret (f a).

Lemma index_fmap {A B} (f : A -> B) l i : index (f <$> l) i = on_ret f (index l i).
Proof.
  unfold index, zlen. rewrite length_fmap, list_lookup_fmap. destruct (_ && _); [|done]. by destruct (l !! _).
Qed.

Lemma put_fmap {A B} (f : A -> B) l i bs : put (f <$> l) i (f <$> bs) = on_ret (fmap f) (put l i bs).
Proof.
  unfold put, zlen. rewrite !length_fmap. destruct (_ && _); [|done].
  cbn. by rewrite !fmap_app, fmap_take, fmap_drop.
Qed.

Lemma subslice_fmap {A B} (f : A -> B) l a b : subslice (f <$> l) a b = on_ret (fmap f) (subslice l a b).
Proof.
  unfold subslice, zlen. rewrite length_fmap. destruct (_ && _); [|done]. cbn. by rewrite fmap_take, fmap_drop.
Qed.

Lemma gocopy_fmap {A B} (f : A -> B) l i bs :
  gocopy (f <$> l) i (f <$> bs) = on_ret (fun '(r, n) => (f <$> r, n)) (gocopy l i bs).
Proof.
  unfold gocopy, zlen. rewrite !length_fmap. destruct (_ && _); [|done].
  cbn. by rewrite !fmap_app, fmap_take, fmap_take, fmap_drop.
Qed.

Section Forget.
Context {C : Type}.

Definition forget_entry (a : AckQueue.ackmsg C) : ackmsg C :=
  mkAck (AckQueue.Mtype a) (AckQueue.State a) (AckQueue.Pktid a) (AckQueue.Msgbuf a) (AckQueue.Ackbuf a) (AckQueue.OnComplete a).
Definition recall_entry (a : ackmsg C) : AckQueue.ackmsg C :=
  AckQueue.mkAck (Mtype a) (State a) (Pktid a) (Msgbuf a) (Ackbuf a) (OnComplete a) 0.
Definition forget_slot (o : option (AckQueue.ackmsg C)) : ackmsg C :=
  match o with Some a => forget_entry a | None => zero_ack end.

Definition forget (q : AckQueue.Ackqueue C) : Ackqueue C :=
  mkQueue (AckQueue.size q) (AckQueue.mask q) (AckQueue.count q) (AckQueue.head q) (AckQueue.tail q)
          (forget_slot (AckQueue.ping q)) (forget_slot <$> AckQueue.ring q) (default ∅ (AckQueue.emap q))
          (forget_entry <$> AckQueue.ackdone q).

Lemma forget_recall a : forget_entry (recall_entry a) = a.
Proof. by destruct a. Qed.

(** the queue holds the entries [es], oldest first *)
Definition holds (q : Ackqueue C) (es : list (ackmsg C)) : Prop :=
  exists q0, q = forget q0 /\ AckQueue.ack_inv q0 (recall_entry <$> es).

Lemma index_ring_forget fuel : forall r i m m',
  AckQueue.index_ring fuel r i m = Ret m' -> index_ring fuel (forget_slot <$> r) i m = Ret m'.
Proof.
  induction fuel as [|fuel IH]; intros r i m m' H; [done|]. cbn in *. rewrite index_fmap.
  inv_bind H as p Hp. rewrite Hp. cbn. destruct p as [a|]; [|done]. by apply IH.
Qed.

Lemma grow_forget q q' : AckQueue.grow q = Ret q' -> grow (forget q) = Ret (forget q').
Proof.
  unfold AckQueue.grow, grow. cbn [size head tail ring count forget]. destruct (_ <? AckQueue.size q); [done|]. intros H.
  assert (Hz : zlen (forget_slot <$> AckQueue.ring q) = zlen (AckQueue.ring q)) by (unfold zlen; by rewrite length_fmap).
  rewrite Hz, !subslice_fmap.
  replace (replicate _ zero_ack) with (forget_slot <$> replicate (Z.to_nat (i64 (Z.shiftl (AckQueue.size q) 1))) (@None (AckQueue.ackmsg C)))
    by (by rewrite fmap_replicate).
  inv_bind H as r Hr. inv_bind H as m Hm. injection H as <-. apply index_ring_forget in Hm.
  destruct (AckQueue.head q <? AckQueue.tail q).
  - inv_bind Hr as s Hs. rewrite Hs. cbn. inv_bind Hr as x Hx. destruct x as [r1 n1]. injection Hr as <-.
    rewrite gocopy_fmap, Hx. cbn. by rewrite Hm.
  - inv_bind Hr as s Hs. rewrite Hs. cbn. inv_bind Hr as x Hx. destruct x as [r1 n1].
    inv_bind Hr as s2 Hs2. inv_bind Hr as y Hy. destruct y as [r2 n2]. injection Hr as <-.
    rewrite gocopy_fmap, Hx. cbn. rewrite Hs2. cbn. rewrite gocopy_fmap, Hy. cbn. by rewrite Hm.
Qed.

Definition ids (es : list (ackmsg C)) : list Z := Pktid <$> es.

Lemma qids_lookup es j e : es !! j = Some e -> Pktid e ∈ ids es.
Proof. intros H. apply list_elem_of_fmap. exists e. split; [done|]. by apply list_elem_of_lookup_2 in H. Qed.

Lemma ids_recall es : AckQueue.ids (recall_entry <$> es) = ids es.
Proof. unfold AckQueue.ids, ids. by rewrite <- list_fmap_compose. Qed.

Lemma zlen_recall (es : list (ackmsg C)) : zlen (recall_entry <$> es) = zlen es.
Proof. unfold zlen. by rewrite length_fmap. Qed.

Lemma holds_count q es : holds q es -> count q = zlen es.
Proof. intros (q0 & -> & I). cbn. by rewrite (AckQueue.ai_count _ _ I), zlen_recall. Qed.

Lemma holds_ids q es : holds q es -> NoDup (ids es).
Proof. intros (q0 & -> & I). rewrite <- ids_recall. apply I. Qed.

Lemma holds_ext q q' es :
  size q' = size q -> mask q' = mask q -> count q' = count q -> head q' = head q -> tail q' = tail q ->
  ring q' = ring q -> emap q' = emap q -> holds q es -> holds q' es.
Proof.
  intros Hs Hm Hc Hh Ht Hr He (q0 & -> & I).
  exists (AckQueue.mkQueue (AckQueue.size q0) (AckQueue.mask q0) (AckQueue.count q0) (AckQueue.head q0) (AckQueue.tail q0)
    (Some (recall_entry (ping q'))) (AckQueue.ring q0) (AckQueue.emap q0) (recall_entry <$> ackdone q') (AckQueue.bytesPool q0)).
  split; [|by apply AckQueue.ack_inv_other].
  destruct q' as [s m c h t p r e d]. cbn in *. subst. unfold forget; cbn. f_equal; [by rewrite forget_recall|].
  rewrite <- list_fmap_compose. symmetry. rewrite <- (list_fmap_id d) at 2. apply list_fmap_ext. intros ???. apply forget_recall.
Qed.

Lemma holds_new n : 1 <= n <= 2 ^ 62 -> holds (newAckqueue (C:=C) n) [].
Proof.
  intros Hn. exists (AckQueue.newAckqueue n false). split; [|by apply AckQueue.newAckqueue_inv].
  unfold newAckqueue, AckQueue.newAckqueue, forget. cbn. by rewrite fmap_replicate.
Qed.

Lemma holds_room q es : holds q es -> zlen es < 2 ^ 62 ->
  exists q1, (if full q then grow q else Ret q) = Ret q1 /\ holds q1 es /\ zlen es < size q1 /\ ping q1 = ping q.
Proof.
  intros (q0 & -> & I) Hl. pose proof (AckQueue.ai_room _ _ I) as Hr. pose proof (AckQueue.ai_count _ _ I) as Hc.
  rewrite zlen_recall in *. unfold full. cbn [count size forget].
  destruct (AckQueue.count q0 =? AckQueue.size q0) eqn:Ef.
  - destruct (AckQueue.grow_spec q0 _ I Ef ltac:(lia)) as (q1 & E & I1 & Hs & Hp & _).
    exists (forget q1). split; [by apply grow_forget|]. split; [by exists q1|]. cbn. rewrite Hs, Hp.
    pose proof (is_pow2_pos _ (AckQueue.ai_size _ _ I)). split; [lia|done].
  - exists (forget q0). split; [done|]. split; [by exists q0|]. cbn. split; [lia|done].
Qed.

Lemma holds_push q es a : holds q es -> zlen es < size q -> Pktid a ∉ ids es ->
  exists r, put (ring q) (tail q) [a] = Ret r /\
    forall d, holds (mkQueue (size q) (mask q) (count q + 1) (head q) (increment q (tail q)) (ping q) r
             (<[Pktid a:=tail q]> (emap q)) d) (es ++ [a]).
Proof.
  intros (q0 & -> & I) Hl Hni. destruct (AckQueue.ai_map _ _ I) as (m & Hm & _).
  pose proof (is_pow2_pos _ (AckQueue.ai_size _ _ I)) as Hp.
  assert (Hput : put (ring (forget q0)) (tail (forget q0)) [a] =
    Ret (forget_slot <$> <[Z.to_nat (AckQueue.tail q0):=Some (recall_entry a)]> (AckQueue.ring q0))).
  { assert (E : [a] = forget_slot <$> [Some (recall_entry a)]) by (cbn; by rewrite forget_recall). rewrite E.
    cbn [ring tail forget]. rewrite put_fmap, put_insert; [done|].
    rewrite (AckQueue.ai_ring _ _ I), (AckQueue.ai_tail _ _ I). apply AckQueue.slot_range. lia. }
  eexists. split; [exact Hput|]. intros d.
  pose proof (AckQueue.push_inv q0 _ (recall_entry a) m (AckQueue.ping q0) (recall_entry <$> d) (AckQueue.bytesPool q0) I) as H.
  eexists. split; [|rewrite fmap_app; apply H; [by rewrite zlen_recall|by rewrite ids_recall|done]].
  unfold forget; cbn. rewrite Hm. cbn. f_equal.
  rewrite <- list_fmap_compose. symmetry. rewrite <- (list_fmap_id d) at 2. apply list_fmap_ext. intros ???. apply forget_recall.
Qed.

Lemma holds_get q es k : holds q es ->
  match emap q !! k with
  | Some i => exists j e, es !! j = Some e /\ Pktid e = k /\
      forall f, Pktid (f e) = Pktid e -> exists q', update_at q i f = Ret q' /\ holds q' (<[j:=f e]> es) /\
        emap q' = emap q /\ ping q' = ping q
  | None => k ∉ ids es
  end.
Proof.
  intros (q0 & -> & I). destruct (AckQueue.ai_map _ _ I) as (m & Hm & _).
  pose proof (AckQueue.emap_get_spec q0 _ k I) as H. unfold AckQueue.emap_get in H. rewrite Hm in H.
  cbn [emap forget]. rewrite Hm. cbn in *. destruct (m !! k) as [i|]; [|by rewrite ids_recall in H].
  destruct H as (j & e0 & Hj & Hk & ->). rewrite list_lookup_fmap in Hj.
  destruct (es !! j) as [e|] eqn:Ee; [|done]. injection Hj as <-. exists j, e. split; [done|]. split; [done|]. intros f Hf.
  destruct (AckQueue.update_inv q0 _ j (recall_entry e) (fun a => recall_entry (f (forget_entry a))) I) as [E I1];
    [by rewrite list_lookup_fmap, Ee|by cbn; rewrite forget_recall|].
  rewrite forget_recall in E, I1. unfold AckQueue.update_at in E. inv_bind E as x Hx. inv_bind E as r Hr.
  unfold AckQueue.deref in Hx. inv_bind Hx as p Hp. destruct p as [a|]; [|done]. injection Hx as ->.
  exists (forget (AckQueue.with_ring r q0)). split.
  - unfold update_at. cbn [ring forget]. rewrite index_fmap, Hp. cbn.
    pose proof (AckQueue.ai_slots _ _ I j (recall_entry e)) as Hs. rewrite list_lookup_fmap, Ee in Hs. specialize (Hs eq_refl).
    pose proof (is_pow2_pos _ (AckQueue.ai_size _ _ I)) as Hp2.
    pose proof (AckQueue.slot_range q0 (Z.of_nat j) ltac:(lia)) as Hsr.
    rewrite (index_lookup _ _ _ (proj1 Hsr) Hs) in Hp. injection Hp as <-. cbn in Hr. rewrite !forget_recall in Hr. rewrite forget_recall.
    assert (E1 : [f e] = forget_slot <$> [Some (recall_entry (f e))]) by (cbn; by rewrite forget_recall).
    rewrite E1, put_fmap, Hr. done.
  - split_and!; [|cbn; by rewrite Hm|reflexivity]. eexists. split; [done|]. rewrite list_fmap_insert. injection E as E. by rewrite E.
Qed.

Lemma holds_first q e es : holds q (e :: es) -> index (ring q) (head q) = Ret e.
Proof.
  intros (q0 & -> & I). cbn [ring head forget]. rewrite index_fmap, (AckQueue.index_head _ _ _ I). cbn. by rewrite forget_recall.
Qed.

Lemma removeHead_holds q e es : holds q (e :: es) ->
  exists q', removeHead q = Ret (q', None) /\ holds q' es /\ ping q' = ping q /\ ackdone q' = ackdone q.
Proof.
  intros H. pose proof (holds_count _ _ H) as Hc. unfold removeHead, empty. rewrite Hc. guard_false.
  rewrite (holds_first _ _ _ H), bindO_ret. destruct H as (q0 & -> & I). cbn [ring head forget].
  change [zero_ack] with (forget_slot <$> [@None (AckQueue.ackmsg C)]). rewrite put_fmap, (AckQueue.put_head _ _ _ I). cbn [on_ret bindO].
  eexists. split; [done|]. split; [|done].
  destruct (AckQueue.ai_map _ _ I) as (m & Hm & _). eexists. split; cycle 1.
  - exact (AckQueue.pop_inv q0 _ _ (AckQueue.ping q0) (AckQueue.ackdone q0) (AckQueue.bytesPool q0) I).
  - unfold forget; cbn. rewrite Hm. cbn. f_equal. by rewrite (AckQueue.ai_count _ _ I), zlen_recall.
Qed.

Definition finished (e : ackmsg C) : bool := acked_state (State e).

Lemma acked_loop_holds es : forall fuel q, holds q es -> (length es <= fuel)%nat ->
  exists q', acked_loop fuel q = Ret q' /\ holds q' (snd (AckQueue.span finished es)) /\
    ackdone q' = ackdone q ++ fst (AckQueue.span finished es) /\ ping q' = ping q.
Proof.
  induction es as [|e es IH]; intros fuel q H Hf; pose proof (holds_count _ _ H) as Hc.
  - exists q. rewrite app_nil_r. split; [|done]. destruct fuel; cbn [acked_loop]; [done|]. unfold empty. by rewrite Hc.
  - destruct fuel as [|fuel]; [simpl in Hf; lia|]. cbn [acked_loop]. unfold empty. rewrite Hc. guard_false.
    rewrite (holds_first _ _ _ H), bindO_ret. cbn [AckQueue.span]. change (finished e) with (acked_state (State e)).
    destruct (acked_state (State e)); [|exists q; by rewrite app_nil_r].
    assert (H1 : holds (with_ackdone (ackdone q ++ [e]) q) (e :: es)) by (by apply (holds_ext q)).
    destruct (removeHead_holds _ _ _ H1) as (q1 & -> & H2 & Hp & Hd). rewrite bindO_ret.
    destruct (IH fuel q1 H2 ltac:(simpl in Hf; lia)) as (q2 & -> & H3 & Hd2 & Hp2).
    destruct (AckQueue.span finished es) as [a b]. cbn [fst snd] in *. exists q2. split; [done|]. split; [done|].
    rewrite Hd2, Hd, Hp2, Hp. cbn. by rewrite <- app_assoc.
Qed.

Definition ping_done (p : ackmsg C) : list (ackmsg C) := if State p =? PINGRESP then [p] else [].
Definition ping_after (p : ackmsg C) : ackmsg C := if State p =? PINGRESP then zero_ack else p.

(** ** The operations on the list of entries *)

Lemma Acked_holds q es : holds q es ->
  exists q', Acked q = Ret (q', ping_done (ping q) ++ fst (AckQueue.span finished es)) /\
    holds q' (snd (AckQueue.span finished es)) /\ ping q' = ping_after (ping q).
Proof.
  intros H. unfold Acked, ping_done, ping_after. cbn [with_ackdone ping].
  set (q1 := if State (ping q) =? PINGRESP then _ else _).
  assert (H1 : holds q1 es /\ ackdone q1 = (if State (ping q) =? PINGRESP then [ping q] else []) /\
    ping q1 = (if State (ping q) =? PINGRESP then zero_ack else ping q)).
  { unfold q1. destruct (_ =? _); (split; [by apply (holds_ext q)|done]). }
  destruct H1 as (H1 & Hd & Hp). clearbody q1. pose proof (holds_count _ _ H1) as Hc.
  destruct (acked_loop_holds es (Z.to_nat (count q1)) q1 H1) as (q' & -> & H2 & Hd2 & Hp2); [unfold zlen in Hc; lia|].
  rewrite bindO_ret. exists q'. rewrite Hd2, Hd. split; [done|]. split; [done|]. by rewrite Hp2.
Qed.

(** the message encoded into a buffer of its length: the bytes, the message and the
    counter afterwards *)
Definition encoded (msg : Message) (g : Z) (bs : list Z) (msg' : Message) (g' : Z) : Prop :=
  exists msg1 ml n, msg_Len msg = Ret (msg1, ml) /\
    msg_Encode msg1 g (replicate (Z.to_nat ml) 0) = Ret (msg', g', bs, n, None).

Lemma insert_new q es g msg oc bs msg' g' : holds q es -> zlen es < 2 ^ 62 -> msg_PacketId msg ∉ ids es ->
  encoded msg g bs msg' g' ->
  exists q', insert q g (msg_PacketId msg) msg oc = Ret (q', g', msg', None) /\ ping q' = ping q /\
    holds q' (es ++ [mkAck (msg_Type msg) RESERVED (msg_PacketId msg) bs [] oc]).
Proof.
  intros H Hl Hni (msg1 & ml & n & HL & HE). unfold insert.
  destruct (holds_room q es H Hl) as (q1 & -> & H1 & Hlt & Hp). rewrite bindO_ret.
  pose proof (holds_get q1 es (msg_PacketId msg) H1) as Hg. destruct (emap q1 !! _) as [i|].
  { destruct Hg as (j & e & Hj & Hk & _). exfalso. apply Hni. rewrite <- Hk. by eapply qids_lookup. }
  rewrite HL, bindO_ret. apply msg_Len_fields in HL as [Hid Hty].
  rewrite HE, bindO_ret.
  destruct (holds_push q1 es (mkAck (msg_Type msg1) RESERVED (msg_PacketId msg1) bs [] oc) H1 Hlt) as (r & -> & H2);
    [by cbn; rewrite Hid|]. rewrite bindO_ret. eexists. split; [done|]. split; [done|].
  specialize (H2 (ackdone q1)). cbn [Pktid] in H2. by rewrite Hid, Hty in H2.
Qed.

Lemma insert_old q es g msg oc r : holds q es -> zlen es < 2 ^ 62 -> msg_PacketId msg ∈ ids es ->
  (forall pm, msg = MPublish pm -> Dup pm = Ret r) ->
  exists q' err, insert q g (msg_PacketId msg) msg oc = Ret (q', g, msg, err) /\ ping q' = ping q /\ holds q' es.
Proof.
  intros H Hl Hin Hd. unfold insert.
  destruct (holds_room q es H Hl) as (q1 & -> & H1 & Hlt & Hp). rewrite bindO_ret.
  pose proof (holds_get q1 es (msg_PacketId msg) H1) as Hg. destruct (emap q1 !! _) as [i|]; [|done].
  destruct msg; try (by eexists _, _). rewrite (Hd _ eq_refl), bindO_ret. destruct r; by eexists _, _.
Qed.

(** [Wait] for a message whose identifier is not in the queue, and for one whose is *)
Definition waits (msg : Message) : Prop :=
  match msg with
  | MPublish pm => exists k, QoS pm = Ret k /\ k <> QosAtMostOnce
  | MSubscribe _ | MUnsubscribe _ => True
  | _ => False
  end.

Lemma Wait_enqueues q g msg (oc : option C) : waits msg ->
  Wait q g msg oc = (let! (q, g, msg, _) := insert q g (msg_PacketId msg) msg oc in Ret (q, g, msg, None)).
Proof.
  unfold Wait. destruct msg; try done. intros (k & -> & Hk). rewrite bindO_ret. by rewrite (proj2 (Z.eqb_neq _ _) Hk).
Qed.

Lemma Wait_new q es g msg oc bs msg' g' : waits msg -> holds q es -> zlen es < 2 ^ 62 -> msg_PacketId msg ∉ ids es ->
  encoded msg g bs msg' g' ->
  exists q', Wait q g msg oc = Ret (q', g', msg', None) /\ ping q' = ping q /\
    holds q' (es ++ [mkAck (msg_Type msg) RESERVED (msg_PacketId msg) bs [] oc]).
Proof.
  intros Hw H Hl Hni He. rewrite Wait_enqueues by done.
  destruct (insert_new q es g msg oc bs msg' g' H Hl Hni He) as (q' & -> & Hp & H'). by exists q'.
Qed.

Lemma Wait_old q es g msg oc r : waits msg -> holds q es -> zlen es < 2 ^ 62 -> msg_PacketId msg ∈ ids es ->
  (forall pm, msg = MPublish pm -> Dup pm = Ret r) ->
  exists q', Wait q g msg oc = Ret (q', g, msg, None) /\ ping q' = ping q /\ holds q' es.
Proof.
  intros Hw H Hl Hin Hd. rewrite Wait_enqueues by done.
  destruct (insert_old q es g msg oc r H Hl Hin Hd) as (q' & err & -> & Hp & H'). by exists q'.
Qed.

Lemma Ack_known q es g msg bs msg' g' j e : acks_message (msg_Type msg) = true -> holds q es -> es !! j = Some e ->
  Pktid e = msg_PacketId msg -> encoded msg g bs msg' g' ->
  exists q', Ack q g msg = Ret (q', g', msg', None) /\ ping q' = ping q /\
    holds q' (<[j:=with_ackbuf bs (with_state (msg_Type msg) e)]> es).
Proof.
  intros Ht H Hj Hk (msg1 & ml & n & HL & HE). unfold Ack. rewrite Ht.
  pose proof (holds_get q es (msg_PacketId msg) H) as Hg. destruct (emap q !! _) as [i|] eqn:Em.
  2:{ exfalso. apply Hg. rewrite <- Hk. by eapply qids_lookup. }
  destruct Hg as (j' & e' & Hj' & Hk' & Hu).
  assert (j' = j) as ->.
  { eapply (NoDup_lookup (ids es)); [by eapply holds_ids|unfold ids; rewrite list_lookup_fmap, Hj'; done|].
    unfold ids. rewrite list_lookup_fmap, Hj. cbn. by rewrite Hk, Hk'. }
  rewrite Hj in Hj'. injection Hj' as <-.
  destruct (Hu (with_state (msg_Type msg)) eq_refl) as (q1 & -> & H1 & Hm1 & Hp1). rewrite bindO_ret, HL, bindO_ret, HE, bindO_ret.
  pose proof (holds_get q1 _ (msg_PacketId msg) H1) as Hg1. rewrite Hm1, Em in Hg1.
  destruct Hg1 as (j2 & e2 & Hj2 & Hk2 & Hu2).
  assert (j2 = j) as ->.
  { eapply (NoDup_lookup (ids _)); [by eapply (holds_ids q1)|unfold ids; rewrite list_lookup_fmap, Hj2; done|].
    unfold ids. rewrite list_lookup_fmap, list_lookup_insert_eq by (by apply lookup_lt_Some in Hj). cbn. by rewrite Hk, Hk2. }
  rewrite list_lookup_insert_eq in Hj2 by (by apply lookup_lt_Some in Hj). injection Hj2 as <-.
  destruct (Hu2 (with_ackbuf bs) eq_refl) as (q2 & -> & H2 & _ & Hp2). rewrite bindO_ret. rewrite list_insert_insert_eq in H2.
  exists q2. by rewrite Hp2, Hp1.
Qed.

Lemma Ack_unknown (q : Ackqueue C) es g msg : acks_message (msg_Type msg) = true -> holds q es -> msg_PacketId msg ∉ ids es ->
  Ack q g msg = Ret (q, g, msg, None).
Proof.
  intros Ht H Hni. unfold Ack. rewrite Ht. pose proof (holds_get q es (msg_PacketId msg) H) as Hg.
  destruct (emap q !! _) as [i|]; [|done]. destruct Hg as (j & e & Hj & Hk & _). exfalso. apply Hni.
  rewrite <- Hk. by eapply qids_lookup.
Qed.
End Forget.
