(* ===== verification/Session.v ===== *)
(** * Session: client sessions and their store
      ([sessions/session.go], [sessions/memprovider.go], [sessions/sessions.go])

    A session owns six acknowledgement queues, a copy of the CONNECT message, the
    will and the retained message, and the subscriptions of the client.  Sessions
    are shared by pointer between the connection and the provider's map, so the
    provider works on a heap of sessions. *)
From stdpp Require Import base list strings gmap.
From Stdlib Require Import ZArith Lia.
From S2P Require Import Prelude GoLang MsgTypes Header Publish Connect Message AckQueue.

Definition defaultQueueSize : Z := 16.

(** the map [st] of the in-memory provider, from identifiers to sessions *)
Abbreviation memProvider := (gmap (list Z) Z).

Section Session.
Context {C : Type}.

Record Session : Type := mkSession {
  Pub1ack : option (Ackqueue C);
  Pub2in : option (Ackqueue C);
  Pub2out : option (Ackqueue C);
  Suback : option (Ackqueue C);
  Unsuback : option (Ackqueue C);
  Pingack : option (Ackqueue C);
  Cmsg : option ConnectMessage;
  Will : option PublishMessage;
  Retained : option PublishMessage;
  cbuf : list Z;
  rbuf : list Z;
  sess_topics : option (gmap (list Z) Z);   (* None: a nil map *)
  initted : bool;
  id : list Z
}.

(** [&Session{id: id}] *)
Definition newSession (i : list Z) : Session :=
  mkSession None None None None None None None None None [] [] None false i.

Definition with_connect (buf : list Z) (c : ConnectMessage) (s : Session) : Session :=
  mkSession (Pub1ack s) (Pub2in s) (Pub2out s) (Suback s) (Unsuback s) (Pingack s) (Some c)
            (Will s) (Retained s) buf (rbuf s) (sess_topics s) (initted s) (id s).
Definition with_will (w : PublishMessage) (s : Session) : Session :=
  mkSession (Pub1ack s) (Pub2in s) (Pub2out s) (Suback s) (Unsuback s) (Pingack s) (Cmsg s)
            (Some w) (Retained s) (cbuf s) (rbuf s) (sess_topics s) (initted s) (id s).
Definition with_retained (buf : list Z) (m : PublishMessage) (s : Session) : Session :=
  mkSession (Pub1ack s) (Pub2in s) (Pub2out s) (Suback s) (Unsuback s) (Pingack s) (Cmsg s)
            (Will s) (Some m) (cbuf s) buf (sess_topics s) (initted s) (id s).
Definition with_topics (m : option (gmap (list Z) Z)) (s : Session) : Session :=
  mkSession (Pub1ack s) (Pub2in s) (Pub2out s) (Suback s) (Unsuback s) (Pingack s) (Cmsg s)
            (Will s) (Retained s) (cbuf s) (rbuf s) m (initted s) (id s).

(** [make([]byte, n)] *)
Definition make_bytes (n : Z) : outcome (list Z) :=
  if n <? 0 then Panic (CustomPanic "makeslice: len out of range") else Ret (replicate (Z.to_nat n) 0).

(** the lines [Init] and [Update] share: copy the CONNECT message through its
    wire form; the session, the message (changed by [Len] and [Encode]), the error *)
Definition store_connect (s : Session) (msg : ConnectMessage)
  : outcome (Session * ConnectMessage * option error) :=
  let '(msg, n) := Connect.Len msg in
  let! buf := make_bytes n in
  let s := with_connect buf NewConnectMessage s in
  let! (msg, buf, _, err) := Connect.Encode msg buf in
  let s := with_connect buf NewConnectMessage s in
  match err with
  | Some e => Ret (s, msg, Some e)
  | None =>
      let! (c, _, err) := Connect.Decode NewConnectMessage (mkslice buf) in
      Ret (with_connect buf c s, msg, err)
  end.

(** the will of the CONNECT message as a PUBLISH; a refused topic or QoS is
    ignored *)
Definition make_will (c : ConnectMessage) : outcome PublishMessage :=
  let w := NewPublishMessage in
  let! (w, _) := SetQoS w (WillQos c) in
  let '(w, _) := SetTopic w (WillTopic c) in
  let w := SetPayload w (WillMessage c) in
  SetRetain w (WillRetain c).

Definition Init (s : Session) (msg : ConnectMessage)
  : outcome (Session * ConnectMessage * option error) :=
  if initted s then Ret (s, msg, Some (Errorf "Session already initialized" []))
  else
    let! (s, msg, err) := store_connect s msg in
    match err, Cmsg s with
    | Some e, _ => Ret (s, msg, Some e)
    | None, None => Panic NilDeref
    | None, Some c =>
        let! s := (if WillFlag c then let! w := make_will c in Ret (with_will w s) else Ret s) in
        Ret (mkSession (Some (newAckqueue defaultQueueSize true))
                       (Some (newAckqueue defaultQueueSize false))
                       (Some (newAckqueue defaultQueueSize false))
                       (Some (newAckqueue defaultQueueSize false))
                       (Some (newAckqueue defaultQueueSize false))
                       (Some (newAckqueue defaultQueueSize false))
                       (Cmsg s) (Will s) (Retained s) (cbuf s) (rbuf s) (Some ∅) true (ClientId msg),
             msg, None)
    end.

Definition Update (s : Session) (msg : ConnectMessage)
  : outcome (Session * ConnectMessage * option error) :=
  store_connect s msg.

(** [RetainMessage], with the identifier counter *)
Definition RetainMessage (s : Session) (g : Z) (msg : PublishMessage)
  : outcome (Session * Z * PublishMessage * option error) :=
  let! (msg, n) := Publish.Len msg in
  let! buf := make_bytes n in
  let s := with_retained buf NewPublishMessage s in
  let! (msg, g, buf, _, err) := Publish.Encode msg g buf in
  let s := with_retained buf NewPublishMessage s in
  match err with
  | Some e => Ret (s, g, msg, Some e)
  | None =>
      let! (r, _, err) := Publish.Decode NewPublishMessage (mkslice buf) in
      Ret (with_retained buf r s, g, msg, err)
  end.

Definition errNotInit : error := Errorf "Session not yet initialized" [].

Definition AddTopic (s : Session) (topic : list Z) (qos : Z) : outcome (Session * option error) :=
  if negb (initted s) then Ret (s, Some errNotInit)
  else match sess_topics s with
       | None => Panic (CustomPanic "assignment to entry in nil map")
       | Some m => Ret (with_topics (Some (<[topic:=qos]> m)) s, None)
       end.

Definition RemoveTopic (s : Session) (topic : list Z) : Session * option error :=
  if negb (initted s) then (s, Some errNotInit)
  else (with_topics (delete topic <$> sess_topics s) s, None).

(** Go's map iteration order is unspecified; one order is chosen here. *)
Definition Topics (s : Session) : (list (list Z) * list Z) + error :=
  if negb (initted s) then inr errNotInit
  else let l := match sess_topics s with Some m => map_to_list m | None => [] end in
       inl (l.*1, l.*2).

Definition ID (s : Session) : list Z :=
  match Cmsg s with Some c => ClientId c | None => id s end.

(** [q.Stop()] on a possibly nil queue *)
Definition stop_queue (q : option (Ackqueue C)) : outcome unit :=
  match q with None => Panic NilDeref | Some _ => Ret tt end.

Definition Stop (s : Session) : outcome Session :=
  let! _ := stop_queue (Pub1ack s) in
  let! _ := stop_queue (Pingack s) in
  let! _ := stop_queue (Pub2out s) in
  let! _ := stop_queue (Pub2in s) in
  let! _ := stop_queue (Unsuback s) in
  let! _ := stop_queue (Suback s) in
  Ret (mkSession None None None None None None None (Will s) (Retained s) [] (rbuf s) None (initted s) (id s)).

(** ** The provider *)

Record heap : Type := mkHeap { cells : gmap Z Session; next_loc : Z }.

Definition alloc (h : heap) (s : Session) : heap * Z :=
  (mkHeap (<[next_loc h:=s]> (cells h)) (next_loc h + 1), next_loc h).

(** the interface [SessionsProvider]; a pointer is a location of the heap *)
Class SessionsProvider (P : Type) : Type := {
  pv_New : P -> heap -> list Z -> P * heap * (Z + error);
  pv_Get : P -> list Z -> Z + error;
  pv_Del : P -> list Z -> P;
  pv_Save : P -> list Z -> option error;
  pv_Count : P -> Z;
  pv_Close : P -> P * option error
}.

Definition NewMemProvider : memProvider := ∅.

Definition mem_New (st : memProvider) (h : heap) (i : list Z) : memProvider * heap * (Z + error) :=
  let '(h, l) := alloc h (newSession i) in (<[i:=l]> st, h, inl l).

Definition mem_Get (st : memProvider) (i : list Z) : Z + error :=
  match st !! i with
  | Some l => inl l
  | None => inr (Errorf "store/Get: No session found for key %s" [AStr i])
  end.

Definition mem_Del (st : memProvider) (i : list Z) : memProvider := delete i st.
Definition mem_Save (st : memProvider) (i : list Z) : option error := None.
Definition mem_Count (st : memProvider) : Z := Z.of_nat (base.size st).
Definition mem_Close (st : memProvider) : memProvider * option error := (∅, None).

#[export] Instance memProvider_provider : SessionsProvider memProvider := {|
  pv_New := mem_New; pv_Get := mem_Get; pv_Del := mem_Del; pv_Save := mem_Save;
  pv_Count := mem_Count; pv_Close := mem_Close |}.

(** what a client of the provider may rely on *)
Class ProviderLaws (P : Type) `{SessionsProvider P} : Prop := {
  New_Get p h i p' h' l :
    pv_New p h i = (p', h', inl l) ->
    pv_Get p' i = inl l /\ (forall j, j <> i -> pv_Get p' j = pv_Get p j);
  New_fresh p h i p' h' l :
    pv_New p h i = (p', h', inl l) -> (forall k, is_Some (cells h !! k) -> k < next_loc h) ->
    cells h !! l = None /\ cells h' !! l = Some (newSession i) /\
    (forall k, is_Some (cells h' !! k) -> k < next_loc h');
  Del_Get p i :
    (exists e, pv_Get (pv_Del p i) i = inr e) /\ (forall j, j <> i -> pv_Get (pv_Del p i) j = pv_Get p j);
  Close_Get p i : exists e, pv_Get (fst (pv_Close p)) i = inr e
}.

#[export] Instance memProvider_laws : ProviderLaws memProvider.
Proof.
  split; cbn.
  - intros p h i p' h' l [= <- <- <-]. unfold mem_Get. split; [by rewrite lookup_insert_eq|].
    intros j Hj. by rewrite lookup_insert_ne.
  - intros p h i p' h' l [= <- <- <-] Hb. cbn. split_and!.
    + destruct (cells h !! next_loc h) eqn:E; [|done]. specialize (Hb (next_loc h) ltac:(by eexists)). lia.
    + by rewrite lookup_insert_eq.
    + intros k Hk. destruct (decide (k = next_loc h)); [lia|]. rewrite lookup_insert_ne in Hk by done.
      apply Hb in Hk. lia.
  - intros p i. unfold mem_Get, mem_Del. split; [rewrite lookup_delete_eq; by eexists|].
    intros j Hj. by rewrite lookup_delete_ne.
  - intros p i. unfold mem_Get. rewrite lookup_empty. by eexists.
Qed.

(** ** The manager ([sessions.go]) *)

(** [base64.URLEncoding.EncodeToString] *)
Definition b64_alphabet : list Z :=
  str "ABCDEFGHIJKLMNOPQRSTUVWXYZabcdefghijklmnopqrstuvwxyz0123456789-_".
Definition b64_char (v : Z) : Z := default 0 (b64_alphabet !! Z.to_nat v).

Fixpoint base64url (l : list Z) : list Z :=
  match l with
  | a :: b :: c :: l =>
      let v := Z.lor (Z.lor (Z.shiftl a 16) (Z.shiftl b 8)) c in
      b64_char (Z.shiftr v 18) :: b64_char (Z.land (Z.shiftr v 12) 63)
        :: b64_char (Z.land (Z.shiftr v 6) 63) :: b64_char (Z.land v 63) :: base64url l
  | [a; b] =>
      let v := Z.lor (Z.shiftl a 16) (Z.shiftl b 8) in
      [b64_char (Z.shiftr v 18); b64_char (Z.land (Z.shiftr v 12) 63);
       b64_char (Z.land (Z.shiftr v 6) 63); 61]
  | [a] =>
      let v := Z.shiftl a 16 in
      [b64_char (Z.shiftr v 18); b64_char (Z.land (Z.shiftr v 12) 63); 61; 61]
  | [] => []
  end.

(** [rnd]: the fifteen bytes read from [rand.Reader], [None] when the read fails *)
Definition sessionId (rnd : option (list Z)) : list Z :=
  match rnd with Some b => base64url b | None => [] end.

Section Manager.
Context {P : Type} `{SessionsProvider P}.

Definition mgr_New (p : P) (h : heap) (rnd : option (list Z)) (i : list Z) : P * heap * (Z + error) :=
  let i := match i with [] => sessionId rnd | _ => i end in pv_New p h i.
Definition mgr_Get (p : P) (i : list Z) : Z + error := pv_Get p i.
Definition mgr_Del (p : P) (i : list Z) : P := pv_Del p i.
Definition mgr_Save (p : P) (i : list Z) : option error := pv_Save p i.
Definition mgr_Count (p : P) : Z := pv_Count p.
Definition mgr_Close (p : P) : P * option error := pv_Close p.

(** the registry of providers; [None] is a nil provider *)
Definition Register (reg : gmap string P) (name : string) (p : option P) : outcome (gmap string P) :=
  match p with
  | None => Panic (CustomPanic "session: Register provide is nil")
  | Some p =>
      match reg !! name with
      | Some _ => Panic (CustomPanic ("session: Register called twice for provider " +:+ name))
      | None => Ret (<[name:=p]> reg)
      end
  end.

Definition Unregister (reg : gmap string P) (name : string) : gmap string P := delete name reg.

Definition NewManager (reg : gmap string P) (name : string) : P + error :=
  match reg !! name with
  | Some p => inl p
  | None => inr (Errorf "session: unknown provider %q" [AStr (str name)])
  end.

End Manager.

End Session.
Arguments Session : clear implicits.
Arguments heap : clear implicits.
Arguments SessionsProvider : clear implicits.

(** ** Theorems *)

(** a fresh queue is the empty queue *)
Definition queue_empty {C} (q : option (Ackqueue C)) : Prop := exists q', q = Some q' /\ ack_inv q' [].

Lemma newAckqueue_empty {C} p : queue_empty (Some (newAckqueue (C:=C) defaultQueueSize p)).
Proof. eexists. split; [done|]. apply newAckqueue_inv. unfold defaultQueueSize. lia. Qed.

Lemma make_bytes_ok n : 0 <= n -> make_bytes n = Ret (replicate (Z.to_nat n) 0).
Proof. intros H. unfold make_bytes. by guard_false. Qed.

(** the will carries the QoS, the retain flag, the payload and, when it is a
    valid topic name, the topic of the CONNECT message *)
Lemma make_will_spec c : WillQos c <= QosExactlyOnce ->
  exists w, make_will c = Ret w /\ QoS w = Ret (WillQos c) /\ Retain w = Ret (WillRetain c) /\
    Payload w = WillMessage c /\ Topic w = (if ValidTopic (WillTopic c) then WillTopic c else []).
Proof.
  intros Hq. assert (H0 : 0 <= WillQos c) by (unfold WillQos; apply Z.land_nonneg; right; lia).
  unfold make_will, QosExactlyOnce in *. set (q := WillQos c) in *. set (r := WillRetain c).
  set (t := WillTopic c). clearbody q r t.
  assert (Hc : q = 0 \/ q = 1 \/ q = 2) by lia.
  assert (E : SetQoS NewPublishMessage q
    = Ret (Publish.mkPublish (mkHeader 0 (Own [48 + 2 * q]) (Own []) (mkslice []) true) [] [], None))
    by (destruct Hc as [->|[->| ->]]; reflexivity).
  rewrite E, bindO_ret. unfold SetTopic. destruct (ValidTopic t); cbn [negb]; destruct r;
    destruct Hc as [->|[->| ->]];
    (eexists; split; [reflexivity|split; [reflexivity|split; [reflexivity|split; reflexivity]]]).
Qed.

(** [m] was decoded in front of the spare capacity [sp]; the session decodes its own
    copy of the bytes *)
Lemma store_connect_copy {C} (s : Session C) bs sp m m0 n :
  Connect.Decode NewConnectMessage (Slice bs sp) = Ret (m, n, None) ->
  Connect.Decode NewConnectMessage (mkslice bs) = Ret (m0, n, None) ->
  store_connect s m = Ret (with_connect bs m0 s, m, None).
Proof.
  intros HD HD0. destruct (@forward_packet ConnectMessage connect_packet connect_retains NewConnectMessage (Slice bs sp) m n 0 HD) as [HL HE].
  cbn [pk_len pk_encode connect_packet] in HL, HE. injection HL as HL. unfold store_connect. rewrite HL.
  unfold len in *. cbn [vis mkslice] in *. rewrite make_bytes_ok, bindO_ret by (zlen_facts; lia).
  unfold no_counter in HE. inv_bind HE as x Hx. destruct x as [[[m1 b1] n1] e1].
  injection HE as -> -> _ ->. rewrite Hx, bindO_ret, HD0, bindO_ret. done.
Qed.

Lemma store_connect_clean {C} (s : Session C) bs m n :
  Connect.Decode NewConnectMessage (mkslice bs) = Ret (m, n, None) ->
  store_connect s m = Ret (with_connect bs m s, m, None).
Proof. intros HD. by eapply store_connect_copy. Qed.

(** a decoded CONNECT has a will QoS the protocol knows *)
Lemma decoded_WillQos bs sp m n :
  Connect.Decode NewConnectMessage (Slice bs sp) = Ret (m, n, None) -> WillQos m <= QosExactlyOnce.
Proof.
  intros H. unfold Connect.Decode in H. rewrite slice_from_0, bindO_ret in H. step_decode H.
  apply Connect.decodeMessage_inv in Hx1 as (_ & _ & Hf & _). injection H as <- _.
  by apply check_flags_inv in Hf as (_ & Hf & _).
Qed.

(** [Init] on a message from the wire *)
Lemma Init_copy (C : Type) (s : Session C) bs sp m m0 n :
  Connect.Decode NewConnectMessage (Slice bs sp) = Ret (m, n, None) ->
  Connect.Decode NewConnectMessage (mkslice bs) = Ret (m0, n, None) -> initted s = false ->
  exists s', Init s m = Ret (s', m, None) /\ Cmsg s' = Some m0 /\ ID s' = ClientId m0.
Proof.
  intros HD HD0 Hi. unfold Init. rewrite Hi, (store_connect_copy s bs sp m m0 n HD HD0), bindO_ret. cbn [with_connect Cmsg].
  destruct (WillFlag m0).
  - destruct (make_will_spec m0 (decoded_WillQos bs [] m0 n HD0)) as (w & -> & _). rewrite !bindO_ret. eexists. split; [reflexivity|]. split; reflexivity.
  - rewrite bindO_ret. eexists. split; [reflexivity|]. split; reflexivity.
Qed.

(** A session initialised from a received CONNECT keeps the message unchanged
    (the copy through the wire form loses nothing), answers to its client
    identifier, starts with six empty acknowledgement queues and no topics, and
    holds the will when there is one: its QoS, retain flag, payload and, if it is
    a valid topic name, its topic.  A second [Init] is refused. *)
Theorem session_init_ok (C : Type) (s : Session C) bs m n :
  Connect.Decode NewConnectMessage (mkslice bs) = Ret (m, n, None) -> initted s = false ->
  exists s', Init s m = Ret (s', m, None) /\
    Cmsg s' = Some m /\ ID s' = ClientId m /\ sess_topics s' = Some ∅ /\ initted s' = true /\
    Forall queue_empty [Pub1ack s'; Pub2in s'; Pub2out s'; Suback s'; Unsuback s'; Pingack s'] /\
    (if WillFlag m
     then exists w, Will s' = Some w /\ QoS w = Ret (WillQos m) /\ Retain w = Ret (WillRetain m) /\
            Payload w = WillMessage m /\ Topic w = (if ValidTopic (WillTopic m) then WillTopic m else [])
     else Will s' = Will s) /\
    exists e, Init s' m = Ret (s', m, Some e).
Proof.
  intros HD Hi.
  pose proof (decoded_WillQos bs [] m n HD) as Hwq.
  unfold Init at 1. rewrite Hi, (store_connect_clean s bs m n HD), bindO_ret. cbn [with_connect Cmsg].
  assert (Hq : forall p, queue_empty (Some (newAckqueue (C:=C) defaultQueueSize p))) by apply newAckqueue_empty.
  destruct (WillFlag m).
  - destruct (make_will_spec m Hwq) as (w & -> & Hw). rewrite !bindO_ret. eexists. split; [done|].
    split_and!; try done; [by rewrite !Forall_cons; split_and!; try apply Hq; apply Forall_nil|by exists w|by eexists].
  - rewrite bindO_ret. eexists. split; [done|]. split_and!; try done; [by rewrite !Forall_cons; split_and!; try apply Hq; apply Forall_nil|by eexists].
Qed.

Lemma session_init_ok_witness :
  exists m n (s' : Session unit),
    Connect.Decode NewConnectMessage (mkslice (connect_wire (str "MQTT") sample_connect)) = Ret (m, n, None) /\
    Init (newSession (str "d1")) m = Ret (s', m, None) /\ ID s' = ClientId m.
Proof.
  destruct (Connect.Decode NewConnectMessage (mkslice (connect_wire (str "MQTT") sample_connect)))
    as [[[m n] [e|]]|] eqn:E; [vm_compute in E; discriminate| |vm_compute in E; discriminate].
  destruct (session_init_ok unit (newSession (str "d1")) (connect_wire (str "MQTT") sample_connect) m n E eq_refl)
    as (s' & H1 & _ & H2 & _).
  exists m, n, s'. split; [reflexivity|]. split; assumption.
Defined.

(** [RetainMessage] keeps a faithful copy: for a PUBLISH ready to be sent, the
    retained message has its topic, payload, QoS and retain flag, and the copy is
    unchanged, so it is later sent from its own buffer. *)
Theorem session_retain_ok (C : Type) (s : Session C) g m b :
  sendable m b -> 0 <= g -> ValidTopic (topic m) = true -> ValidQos (qos_of b) = true ->
  exists s' g' m' r, RetainMessage s g m = Ret (s', g', m', None) /\ Retained s' = Some r /\
    Topic r = Topic m /\ Payload r = Payload m /\ QoS r = QoS m /\ Retain r = Retain m /\
    dirty (Publish.hdr r) = false.
Proof.
  intros S Hg Hvt Hvq. destruct (publish_len_sent m b S) as (n & HL & Hr & Hn). unfold remlen_ok in Hr.
  unfold RetainMessage. rewrite HL, bindO_ret. rewrite make_bytes_ok, bindO_ret by (zlen_facts; lia).
  set (m1 := Publish.with_hdr (with_remlen n (Publish.hdr m)) m) in *.
  set (dst := replicate _ 0).
  pose proof (Publish.publish_Encode_spec m1 b g dst (sendable_sized m b n S) Hg) as HE.
  pose proof (sent_id_ok m1 b g Hg) as Hid. destruct (sent_id m1 b g) as [h' g']. cbv zeta in HE. cbn [fst] in Hid.
  set (id := sent_bytes b h') in *. change (topic m1) with (topic m) in HE. change (payload m1) with (payload m) in HE.
  set (w := publish_wire b (topic m) id (payload m)) in *.
  assert (Hw : zlen w = 1 + zlen (uvarint_bytes 10 n) + n).
  { unfold w, publish_wire. rewrite zlen_app, zlen_hdr_wire, <- (Hn id Hid). lia. }
  assert (Hdst : zlen dst = zlen w) by (unfold dst; zl).
  rewrite HE, bindO_ret by lia. rewrite drop_ge, app_nil_r by zl.
  destruct (Publish.publish_Decode_spec NewPublishMessage 48 b (topic m) id (payload m) [] [])
    as (r & HD & T1 & T2 & T3 & _ & T5 & _); try done; [apply S|apply S|rewrite <- (Hn id Hid); done|].
  fold w in HD. rewrite app_nil_r in HD. change (Slice w []) with (mkslice w) in HD. rewrite HD, bindO_ret.
  eexists _, _, _, r. split; [done|]. split; [done|]. unfold Topic, Payload.
  rewrite (QoS_byte r b), (QoS_byte m b), (Retain_byte r b), (Retain_byte m b) by (done || apply S). done.
Qed.

Lemma session_retain_ok_witness :
  exists (s' : Session unit) g' m' r,
    RetainMessage (newSession []) 0 sample_qos1 = Ret (s', g', m', None) /\ Retained s' = Some r /\
    Topic r = [97] /\ Payload r = [88] /\ QoS r = Ret 1 /\ Retain r = Ret false /\ dirty (Publish.hdr r) = false.
Proof.
  exact (session_retain_ok unit (newSession []) 0 sample_qos1 50 sample_qos1_sendable ltac:(lia) eq_refl eq_refl).
Defined.

(** The subscriptions of a session are a finite map: before [Init] every
    access is an error; afterwards [AddTopic] and [RemoveTopic] bind and unbind
    one topic and [Topics] lists exactly the bound topics with their QoS.  After
    [Stop] the session still counts as initialised but its map is nil, and
    [AddTopic] panics. *)
Theorem session_topics_lifecycle (C : Type) (s : Session C) m t q u v :
  (initted s = false ->
     AddTopic s t q = Ret (s, Some errNotInit) /\ RemoveTopic s t = (s, Some errNotInit) /\ Topics s = inr errNotInit) /\
  (initted s = true -> sess_topics s = Some m ->
     (exists s' ts qs, AddTopic s t q = Ret (s', None) /\ Topics s' = inl (ts, qs) /\
        ((u, v) ∈ zip ts qs <-> (if decide (u = t) then v = q else m !! u = Some v))) /\
     (exists s' ts qs, RemoveTopic s t = (s', None) /\ Topics s' = inl (ts, qs) /\
        ((u, v) ∈ zip ts qs <-> u <> t /\ m !! u = Some v)) /\
     (forall s', Stop s = Ret s' -> panics (AddTopic s' t q))).
Proof.
  split.
  - intros Hi. unfold AddTopic, RemoveTopic, Topics. by rewrite Hi.
  - intros Hi Hm. unfold AddTopic at 1, RemoveTopic, Topics. rewrite Hi, Hm. cbn [negb].
    split; [|split].
    + eexists _, _, _. split; [done|]. cbn. rewrite Hi. split; [done|].
      rewrite zip_fst_snd, elem_of_map_to_list. case_decide as Hd; subst.
      * rewrite lookup_insert_eq. naive_solver.
      * by rewrite lookup_insert_ne.
    + eexists _, _, _. split; [done|]. cbn. rewrite Hi. split; [done|].
      rewrite zip_fst_snd, elem_of_map_to_list, lookup_delete_Some. naive_solver.
    + intros s' H. unfold Stop in H. do 6 inv_bind H. injection H as <-. unfold AddTopic. cbn. rewrite Hi. by eexists.
Qed.

Section ProviderClient.
Context {C P : Type} `{Hp : @ProviderLaws C P Hops}.

(** With any provider that keeps the interface's promises: a client identifier
    that connects again gets a session of its own and the provider then leads to
    it; when the first connection ends and deletes "its" identifier, the second
    session, still in use, is no longer found. *)
Theorem provider_delete_hits_newer (p p1 p2 : P) (h h1 h2 : heap C) rnd i l1 l2 :
  i <> [] -> (forall k, is_Some (cells h !! k) -> k < next_loc h) ->
  mgr_New p h rnd i = (p1, h1, inl l1) -> mgr_New p1 h1 rnd i = (p2, h2, inl l2) ->
  l1 <> l2 /\ mgr_Get p2 i = inl l2 /\ cells h2 !! l2 = Some (newSession i) /\
  exists e, mgr_Get (mgr_Del p2 i) i = inr e.
Proof.
  intros Hi Hb H1 H2. unfold mgr_New, mgr_Get, mgr_Del in *. destruct i as [|c i]; [done|].
  destruct (New_fresh _ _ _ _ _ _ H1 Hb) as (_ & Hc1 & Hb1).
  destruct (New_fresh _ _ _ _ _ _ H2 Hb1) as (Hn2 & Hc2 & _).
  destruct (New_Get _ _ _ _ _ _ H2) as [Hg _]. split; [intros ->; congruence|]. split; [done|]. split; [done|].
  apply Del_Get.
Qed.

End ProviderClient.

Lemma provider_delete_hits_newer_witness :
  let p1 := <[[1]:=0]> (∅ : memProvider) in let p2 := <[[1]:=1]> p1 in
  0 <> 1 /\ mgr_Get (C:=unit) p2 [1] = inl 1.
Proof.
  destruct (provider_delete_hits_newer (C:=unit) (P:=memProvider) ∅ (<[[1]:=0]> ∅) (<[[1]:=1]> (<[[1]:=0]> ∅))
    (mkHeap ∅ 0) (mkHeap {[0 := newSession [1]]} 1) (mkHeap (<[1:=newSession [1]]> {[0 := newSession [1]]}) 2)
    None [1] 0 1) as (H1 & H2 & _).
  - discriminate.
  - intros k [x Hx]. cbn in Hx. rewrite lookup_empty in Hx. discriminate.
  - reflexivity.
  - reflexivity.
  - split; assumption.
Defined.

Lemma session_topics_lifecycle_witness :
  exists s' ts qs, AddTopic (with_topics (Some ∅) (mkSession (C:=unit) None None None None None None None None None [] [] None true [])) [97] 1
    = Ret (s', None) /\ Topics s' = inl (ts, qs) /\ (([97], 1) ∈ zip ts qs <-> 1 = 1).
Proof.
  exact (proj1 (proj2 (session_topics_lifecycle unit
    (with_topics (Some ∅) (mkSession None None None None None None None None None [] [] None true []))
    ∅ [97] 1 [97] 1) eq_refl eq_refl)).
Defined.
