(* ===== verification/LibSession.v ===== *)
(** * LibSession: the sessions of the library
      ([utils/surgemq/surgemq/sessions]: session.go, memprovider.go, sessions.go)

    As in [Session], over the queues of [LibQueue].  Here a session outlives its
    connection: the provider is asked for the session of a client that comes back. *)
From stdpp Require Import base list strings gmap.
From Stdlib Require Import ZArith Lia.
From S2P Require Import Prelude GoLang MsgTypes Header Publish Connect Message LibQueue.
From S2P Require Session.

Definition defaultQueueSize : Z := 16.

Record Session (C : Type) : Type := mkSession {
  Pub1ack : option (Ackqueue C);
  Pub2in : option (Ackqueue C);
  Pub2out : option (Ackqueue C);
  Suback : option (Ackqueue C);
  Unsuback : option (Ackqueue C);
  Pingack : option (Ackqueue C);
  Cmsg : option ConnectMessage;
  Will : option PublishMessage;
  Retained : option PublishMessage;
  cbuf : list Z;
  rbuf : list Z;
  sess_topics : option (gmap (list Z) Z);   (* None: a nil map *)
  initted : bool;
  id : list Z
}.
Arguments mkSession {C}.
Arguments Pub1ack {C}.
Arguments Pub2in {C}.
Arguments Pub2out {C}.
Arguments Suback {C}.
Arguments Unsuback {C}.
Arguments Pingack {C}.
Arguments Cmsg {C}.
Arguments Will {C}.
Arguments Retained {C}.
Arguments cbuf {C}.
Arguments rbuf {C}.
Arguments sess_topics {C}.
Arguments initted {C}.
Arguments id {C}.

(** the map of the in-memory provider, from identifiers to sessions *)
Abbreviation memProvider := (gmap (list Z) Z).

Section Session.
Context {C : Type}.
Implicit Types s : Session C.

(** [&Session{}], and [&Session{id: id}] *)
Definition newSession (i : list Z) : Session C :=
  mkSession None None None None None None None None None [] [] None false i.

Definition with_connect (buf : list Z) (c : ConnectMessage) s : Session C :=
  mkSession (Pub1ack s) (Pub2in s) (Pub2out s) (Suback s) (Unsuback s) (Pingack s) (Some c)
            (Will s) (Retained s) buf (rbuf s) (sess_topics s) (initted s) (id s).
Definition with_will (w : PublishMessage) s : Session C :=
  mkSession (Pub1ack s) (Pub2in s) (Pub2out s) (Suback s) (Unsuback s) (Pingack s) (Cmsg s)
            (Some w) (Retained s) (cbuf s) (rbuf s) (sess_topics s) (initted s) (id s).
Definition with_retained (buf : list Z) (m : PublishMessage) s : Session C :=
  mkSession (Pub1ack s) (Pub2in s) (Pub2out s) (Suback s) (Unsuback s) (Pingack s) (Cmsg s)
            (Will s) (Some m) (cbuf s) buf (sess_topics s) (initted s) (id s).
Definition with_topics (m : option (gmap (list Z) Z)) s : Session C :=
  mkSession (Pub1ack s) (Pub2in s) (Pub2out s) (Suback s) (Unsuback s) (Pingack s) (Cmsg s)
            (Will s) (Retained s) (cbuf s) (rbuf s) m (initted s) (id s).
Definition with_cmsg (c : ConnectMessage) s : Session C := with_connect (cbuf s) c s.

(** the lines [Init] and [Update] share *)
Definition store_connect s (msg : ConnectMessage) : outcome (Session C * ConnectMessage * option error) :=
  let '(msg, n) := Connect.Len msg in
  let! buf := Session.make_bytes n in
  let s := with_connect buf NewConnectMessage s in
  let! (msg, buf, _, err) := Connect.Encode msg buf in
  let s := with_connect buf NewConnectMessage s in
  match err with
  | Some e => Ret (s, msg, Some e)
  | None =>
      let! (c, _, err) := Connect.Decode NewConnectMessage (mkslice buf) in
      Ret (with_connect buf c s, msg, err)
  end.

(** the will as a PUBLISH; a refused topic or QoS is ignored *)
Definition make_will (c : ConnectMessage) : outcome PublishMessage :=
  let! (w, _) := SetQoS NewPublishMessage (WillQos c) in
  let '(w, _) := SetTopic w (WillTopic c) in
  SetRetain (SetPayload w (WillMessage c)) (WillRetain c).

Definition Init s (msg : ConnectMessage) : outcome (Session C * ConnectMessage * option error) :=
  if initted s then Ret (s, msg, Some (Errorf "Session already initialized" []))
  else
    let! (s, msg, err) := store_connect s msg in
    match err, Cmsg s with
    | Some e, _ => Ret (s, msg, Some e)
    | None, None => Panic NilDeref
    | None, Some c =>
        let! s := (if WillFlag c then let! w := make_will c in Ret (with_will w s) else Ret s) in
        let q := Some (newAckqueue defaultQueueSize) in
        Ret (mkSession q q q q q q (Cmsg s) (Will s) (Retained s) (cbuf s) (rbuf s) (Some ∅) true (ClientId msg),
             msg, None)
    end.

(** [Will] is left as it was *)
Definition Update s (msg : ConnectMessage) : outcome (Session C * ConnectMessage * option error) :=
  store_connect s msg.

Definition RetainMessage s (g : Z) (msg : PublishMessage) : outcome (Session C * Z * PublishMessage * option error) :=
  let! (msg, n) := Publish.Len msg in
  let! buf := Session.make_bytes n in
  let s := with_retained buf NewPublishMessage s in
  let! (msg, g, buf, _, err) := Publish.Encode msg g buf in
  let s := with_retained buf NewPublishMessage s in
  match err with
  | Some e => Ret (s, g, msg, Some e)
  | None =>
      let! (r, _, err) := Publish.Decode NewPublishMessage (mkslice buf) in
      Ret (with_retained buf r s, g, msg, err)
  end.

Definition errNotInit : error := Errorf "Session not yet initialized" [].

Definition AddTopic s (topic : list Z) (qos : Z) : outcome (Session C * option error) :=
  if negb (initted s) then Ret (s, Some errNotInit)
  else match sess_topics s with
       | None => Panic (CustomPanic "assignment to entry in nil map")
       | Some m => Ret (with_topics (Some (<[topic:=qos]> m)) s, None)
       end.

Definition RemoveTopic s (topic : list Z) : Session C * option error :=
  if negb (initted s) then (s, Some errNotInit)
  else (with_topics (delete topic <$> sess_topics s) s, None).

(** Go's map iteration order is unspecified; one order is chosen here. *)
Definition Topics s : (list (list Z) * list Z) + error :=
  if negb (initted s) then inr errNotInit
  else let l := match sess_topics s with Some m => map_to_list m | None => [] end in
       inl (l.*1, l.*2).

Definition ID s : outcome (list Z) :=
  match Cmsg s with Some c => Ret (ClientId c) | None => Panic NilDeref end.

(** ** The provider and the manager *)

Record heap : Type := mkHeap { cells : gmap Z (Session C); next_loc : Z }.

Definition set_cell (l : Z) s (h : heap) : heap := mkHeap (<[l:=s]> (cells h)) (next_loc h).

Definition alloc (h : heap) s : heap * Z := (mkHeap (<[next_loc h:=s]> (cells h)) (next_loc h + 1), next_loc h).

Definition mem_New (st : memProvider) (h : heap) (i : list Z) : memProvider * heap * Z :=
  let '(h, l) := alloc h (newSession i) in (<[i:=l]> st, h, l).

Definition mem_Get (st : memProvider) (i : list Z) : Z + error :=
  match st !! i with
  | Some l => inl l
  | None => inr (Errorf "store/Get: No session found for key %s" [AStr i])
  end.

Definition mem_Del (st : memProvider) (i : list Z) : memProvider := delete i st.
Definition mem_Save (st : memProvider) (i : list Z) : option error := None.
Definition mem_Count (st : memProvider) : Z := Z.of_nat (base.size st).
Definition mem_Close (st : memProvider) : memProvider * option error := (∅, None).

(** [rnd]: the bytes of [rand.Reader] for an empty identifier *)
Definition mgr_New (st : memProvider) (h : heap) (rnd : option (list Z)) (i : list Z) : memProvider * heap * Z :=
  mem_New st h (match i with [] => Session.sessionId rnd | _ => i end).
End Session.
Arguments heap : clear implicits.

(** ** Facts *)

Definition queue_empty {C} (q : option (Ackqueue C)) : Prop := exists q', q = Some q' /\ holds q' [].

Lemma fresh_queue_empty {C} : queue_empty (Some (newAckqueue (C:=C) defaultQueueSize)).
Proof. eexists. split; [done|]. apply holds_new. unfold defaultQueueSize. lia. Qed.

(** the session keeps a clean copy of a CONNECT message that was decoded *)
Lemma lib_store_connect_copy {C} (s : Session C) bs sp m m0 n :
  Connect.Decode NewConnectMessage (Slice bs sp) = Ret (m, n, None) ->
  Connect.Decode NewConnectMessage (mkslice bs) = Ret (m0, n, None) ->
  store_connect s m = Ret (with_connect bs m0 s, m, None).
Proof.
  intros HD HD0. pose proof (Session.store_connect_copy (@Session.newSession C []) bs sp m m0 n HD HD0) as H.
  unfold Session.store_connect, store_connect in *. destruct (Connect.Len m) as [m1 k]. inv_bind H as b Hb. rewrite Hb, bindO_ret.
  inv_bind H as x Hx. destruct x as [[[m2 b2] n2] e2]. rewrite Hx, bindO_ret. destruct e2; [done|].
  inv_bind H as y Hy. destruct y as [[c nc] ec]. rewrite Hy, bindO_ret. by injection H as -> -> -> ->.
Qed.

(** the will that a CONNECT announces: its QoS, retain flag, payload and, if it is a valid
    topic name, its topic *)
Definition will_of (c : ConnectMessage) (will : option PublishMessage) : Prop :=
  if WillFlag c
  then exists v, will = Some v /\ QoS v = Ret (WillQos c) /\ Retain v = Ret (WillRetain c) /\ Payload v = WillMessage c /\
         Topic v = (if ValidTopic (WillTopic c) then WillTopic c else [])
  else will = None.

Lemma Init_ok {C} (s : Session C) bs sp m m0 n :
  Connect.Decode NewConnectMessage (Slice bs sp) = Ret (m, n, None) ->
  Connect.Decode NewConnectMessage (mkslice bs) = Ret (m0, n, None) ->
  initted s = false -> Will s = None ->
  exists s', Init s m = Ret (s', m, None) /\ Cmsg s' = Some m0 /\ sess_topics s' = Some ∅ /\ initted s' = true /\
    will_of m0 (Will s') /\
    queue_empty (Pub1ack s') /\ queue_empty (Pub2in s') /\ queue_empty (Pub2out s') /\
    queue_empty (Suback s') /\ queue_empty (Unsuback s') /\ queue_empty (Pingack s').
Proof.
  intros HD HD0 Hi Hw. unfold Init. rewrite Hi, (lib_store_connect_copy s bs sp m m0 n HD HD0), bindO_ret.
  cbn [with_connect Cmsg]. unfold will_of. destruct (WillFlag m0).
  - destruct (Session.make_will_spec m0 (Session.decoded_WillQos bs [] m0 n HD0)) as (v & Ev & Hv).
    change (make_will m0) with (Session.make_will m0). rewrite Ev, !bindO_ret. eexists. split; [reflexivity|]. cbn.
    split_and!; try done; try apply fresh_queue_empty. by exists v.
  - rewrite bindO_ret. eexists. split; [reflexivity|]. cbn. split_and!; try done; apply fresh_queue_empty.
Qed.
