(* ===== verification/Buffer.v ===== *)
(** * Buffer: the ring buffer between two goroutines ([service/buffer.go])

    One goroutine produces ([ReadFrom], [Write], [WriteWait], [WriteCommit]), one
    consumes ([WriteTo], [Read], [ReadPeek], [ReadWait], [ReadCommit]), and any may
    close.  Every method is a small program whose steps touch the shared memory at
    most once: an atomic load or store of a cursor, [Lock], [Unlock], [Broadcast],
    the two halves of [Cond.Wait], or a copy in or out of the ring.  A step yields
    [None] while it is blocked, a [Panic] where Go would stop the program, and
    otherwise the new memory with the next program point or the result. *)
From stdpp Require Import base list strings.
From Stdlib Require Import ZArith Lia.
From S2P Require Import Prelude GoLang Pow2.

(** ** Memory *)

Inductive thread : Type := Producer | Consumer | Closer.

#[export] Instance thread_eq_dec : EqDecision thread.
Proof. solve_decision. Defined.

(** the two condition variables, each with its own mutex *)
Inductive cond : Type := PCond | CCond.

Record buffer : Type := mkBuffer {
  id : Z;
  buf : list Z;
  tmp : list Z;
  size : Z;
  mask : Z;
  done : Z;
  pcur : Z;              (* pseq.cursor *)
  pgate : Z;             (* pseq.gate; cseq.gate is never used *)
  ccur : Z;              (* cseq.cursor *)
  pmutex : option thread;  (* holder of pcond.L *)
  cmutex : option thread;  (* holder of ccond.L *)
  pparked : bool;        (* a goroutine is on pcond's list of waiters *)
  cparked : bool;
  cwait : Z;
  pwait : Z
}.

Definition with_buf (x : list Z) (b : buffer) : buffer :=
  mkBuffer (id b) x (tmp b) (size b) (mask b) (done b) (pcur b) (pgate b) (ccur b)
           (pmutex b) (cmutex b) (pparked b) (cparked b) (cwait b) (pwait b).
Definition with_tmp (x : list Z) (b : buffer) : buffer :=
  mkBuffer (id b) (buf b) x (size b) (mask b) (done b) (pcur b) (pgate b) (ccur b)
           (pmutex b) (cmutex b) (pparked b) (cparked b) (cwait b) (pwait b).
Definition with_done (x : Z) (b : buffer) : buffer :=
  mkBuffer (id b) (buf b) (tmp b) (size b) (mask b) x (pcur b) (pgate b) (ccur b)
           (pmutex b) (cmutex b) (pparked b) (cparked b) (cwait b) (pwait b).
Definition with_pcur (x : Z) (b : buffer) : buffer :=
  mkBuffer (id b) (buf b) (tmp b) (size b) (mask b) (done b) x (pgate b) (ccur b)
           (pmutex b) (cmutex b) (pparked b) (cparked b) (cwait b) (pwait b).
Definition with_pgate (x : Z) (b : buffer) : buffer :=
  mkBuffer (id b) (buf b) (tmp b) (size b) (mask b) (done b) (pcur b) x (ccur b)
           (pmutex b) (cmutex b) (pparked b) (cparked b) (cwait b) (pwait b).
Definition with_ccur (x : Z) (b : buffer) : buffer :=
  mkBuffer (id b) (buf b) (tmp b) (size b) (mask b) (done b) (pcur b) (pgate b) x
           (pmutex b) (cmutex b) (pparked b) (cparked b) (cwait b) (pwait b).
Definition with_cwait (x : Z) (b : buffer) : buffer :=
  mkBuffer (id b) (buf b) (tmp b) (size b) (mask b) (done b) (pcur b) (pgate b) (ccur b)
           (pmutex b) (cmutex b) (pparked b) (cparked b) x (pwait b).
Definition with_pwait (x : Z) (b : buffer) : buffer :=
  mkBuffer (id b) (buf b) (tmp b) (size b) (mask b) (done b) (pcur b) (pgate b) (ccur b)
           (pmutex b) (cmutex b) (pparked b) (cparked b) (cwait b) x.

Definition mutex (b : buffer) (c : cond) : option thread :=
  match c with PCond => pmutex b | CCond => cmutex b end.
Definition with_mutex (c : cond) (x : option thread) (b : buffer) : buffer :=
  mkBuffer (id b) (buf b) (tmp b) (size b) (mask b) (done b) (pcur b) (pgate b) (ccur b)
           (match c with PCond => x | CCond => pmutex b end)
           (match c with PCond => cmutex b | CCond => x end)
           (pparked b) (cparked b) (cwait b) (pwait b).
Definition parked (b : buffer) (c : cond) : bool :=
  match c with PCond => pparked b | CCond => cparked b end.
Definition with_parked (c : cond) (x : bool) (b : buffer) : buffer :=
  mkBuffer (id b) (buf b) (tmp b) (size b) (mask b) (done b) (pcur b) (pgate b) (ccur b)
           (pmutex b) (cmutex b)
           (match c with PCond => x | CCond => pparked b end)
           (match c with PCond => cparked b | CCond => x end)
           (cwait b) (pwait b).

Definition defaultBufferSize : Z := 1024 * 256.
Definition defaultReadBlockSize : Z := 8192.
Definition defaultWriteBlockSize : Z := 8192.

Definition ErrNegativeCount : error := ErrorsNew "bufio: negative count".
Definition ErrBufferFull : error := ErrorsNew "bufio: buffer full".
Definition ErrBufferInsufficientData : error := ErrorsNew "service: buffer has insufficient data".

(** [bufcnt] is the package's counter of buffers *)
Definition newBuffer (bufcnt sz : Z) : Z * (buffer + error) :=
  if sz <? 0 then (bufcnt, inr ErrNegativeCount)
  else
    let sz := if sz =? 0 then defaultBufferSize else sz in
    if negb (powerOfTwo64 sz)
    then (bufcnt, inr (Errorf "Size must be power of two. Try %d." [AInt (roundUpPowerOfTwo64 sz)]))
    else if sz <? 2 * defaultReadBlockSize
    then (bufcnt, inr (Errorf "Size must at least be %d. Try %d."
                         [AInt (2 * defaultReadBlockSize); AInt (2 * defaultReadBlockSize)]))
    else
      let bufcnt := i64 (bufcnt + 1) in
      (bufcnt, inl (mkBuffer bufcnt (replicate (Z.to_nat sz) 0) [] sz (sz - 1) 0 0 0 0
                             None None false false 0 0)).

Definition Len (b : buffer) : Z := i64 (pcur b - ccur b).
Definition isDone (b : buffer) : bool := done b =? 1.

(** ** Steps *)

Inductive next (L R : Type) : Type := Run (l : L) | Fin (r : R).
Arguments Run {L R} l.
Arguments Fin {L R} r.

Abbreviation step A := (option (outcome A)).

Definition run {L R} (b : buffer) (l : L) : step (buffer * next L R) := Some (Ret (b, Run l)).
Definition fin {L R} (b : buffer) (r : R) : step (buffer * next L R) := Some (Ret (b, Fin r)).

(** a run-time panic of [o] stops the program, otherwise go on *)
Definition try {A B} (o : outcome A) (k : A -> step B) : step B :=
  match o with Ret a => k a | Panic p => Some (Panic p) end.

(** a step of a callee: [f] wraps its program points, [k] uses its result *)
Definition call {L R L' R'} (m : step (buffer * next L R)) (f : L -> L')
    (k : R -> next L' R') : step (buffer * next L' R') :=
  match m with
  | None => None
  | Some (Panic p) => Some (Panic p)
  | Some (Ret (b, Run l)) => Some (Ret (b, Run (f l)))
  | Some (Ret (b, Fin r)) => Some (Ret (b, k r))
  end.

(** [Lock] blocks while anyone, the caller included, holds the mutex *)
Definition Lock {A} (me : thread) (c : cond) (b : buffer) (k : buffer -> step A) : step A :=
  match mutex b c with
  | None => k (with_mutex c (Some me) b)
  | Some _ => None
  end.

Definition Unlock (c : cond) (b : buffer) : outcome buffer :=
  match mutex b c with
  | Some _ => Ret (with_mutex c None b)
  | None => Panic (CustomPanic "sync: unlock of unlocked mutex")
  end.

(** [l.Lock(); c.Broadcast(); l.Unlock()] *)
Inductive sig : Type := SLock | SBroadcast | SUnlock.

Definition signal_step (me : thread) (l c : cond) (b : buffer) (s : sig)
  : step (buffer * next sig unit) :=
  match s with
  | SLock => Lock me l b (fun b => run b SBroadcast)
  | SBroadcast => run (with_parked c false b) SUnlock
  | SUnlock => try (Unlock l b) (fun b => fin b tt)
  end.

(** ** [Close]: the second broadcast is on [ccond], under the mutex of [pcond] *)
Inductive close_pc : Type := ClDone | ClProducer (s : sig) | ClConsumer (s : sig).

Definition close_step (me : thread) (b : buffer) (pc : close_pc) : step (buffer * next close_pc unit) :=
  match pc with
  | ClDone => run (with_done 1 b) (ClProducer SLock)
  | ClProducer s => call (signal_step me PCond PCond b s) ClProducer (fun _ => Run (ClConsumer SLock))
  | ClConsumer s => call (signal_step me PCond CCond b s) ClConsumer (fun _ => Fin tt)
  end.

(** ** [waitForWriteSpace]

    [wrap := next - size] with [next := ppos + n]. *)
Definition wrap_of (b : buffer) (ppos n : Z) : Z := i64 (i64 (ppos + n) - size b).

Inductive wfs_pc : Type :=
| WDone
| WLoad
| WLock (ppos : Z)
| WTest (ppos : Z)
| WTestDone (ppos : Z)
| WPark (ppos : Z)
| WAsleep (ppos : Z)
| WGate (ppos cpos : Z).

Definition wfs_step (b : buffer) (n : Z) (pc : wfs_pc)
  : step (buffer * next wfs_pc (Z * Z * option error)) :=
  match pc with
  | WDone => if isDone b then fin b (0, 0, Some EOF) else run b WLoad
  | WLoad =>
      let ppos := pcur b in
      let gate := pgate b in
      if (gate <? wrap_of b ppos n) || (ppos <? gate) then run b (WLock ppos)
      else fin b (ppos, n, None)
  | WLock ppos => Lock Producer PCond b (fun b => run b (WTest ppos))
  | WTest ppos =>
      let cpos := ccur b in
      if cpos <? wrap_of b ppos n then run b (WTestDone ppos) else run b (WGate ppos cpos)
  | WTestDone ppos => if isDone b then fin b (0, 0, Some EOF) else run b (WPark ppos)
  | WPark ppos =>
      try (Unlock PCond (with_parked PCond true (with_pwait (i64 (pwait b + 1)) b)))
          (fun b => run b (WAsleep ppos))
  | WAsleep ppos =>
      if parked b PCond then None else Lock Producer PCond b (fun b => run b (WTest ppos))
  | WGate ppos cpos =>
      try (Unlock PCond (with_pgate cpos b)) (fun b => fin b (ppos, n, None))
  end.

(** ** The producer's methods *)

(** the loop copies until the source is used up, starting over at index 0; each
    round copies at least one byte, so [length src] rounds are enough *)
Fixpoint ringCopy_loop (fuel : nat) (dst src : list Z) (start i n : Z) : outcome (list Z * Z) :=
  if n <=? 0 then Ret (dst, i)
  else
    match fuel with
    | O => Ret (dst, i)
    | S fuel =>
        let! rest := subslice src i (zlen src) in
        let! (dst, l) := gocopy dst start rest in
        let i := i + l in
        let n := n - l in
        ringCopy_loop fuel dst src (if 0 <? n then 0 else start) i n
    end.

Definition ringCopy (dst src : list Z) (start : Z) : outcome (list Z * Z) :=
  ringCopy_loop (length src) dst src start 0 (zlen src).

(** a slice that aliases the ring or [tmp]; nil otherwise *)
Inductive view : Type :=
| VNil
| VBuf (off n : Z)
| VTmp (n : Z).

(** what the slice shows in the memory [b] *)
Definition read_view (b : buffer) (v : view) : list Z :=
  match v with
  | VNil => []
  | VBuf off n => take (Z.to_nat n) (drop (Z.to_nat off) (buf b))
  | VTmp n => take (Z.to_nat n) (tmp b)
  end.

(** [this.buf[a:b]], a slice of the ring *)
Definition buf_view (b : buffer) (a z : Z) : outcome view :=
  let! _ := subslice (buf b) a z in Ret (VBuf a (z - a)).

Inductive write_pc : Type :=
| WrDone
| WrWait (w : wfs_pc)
| WrCopy (start : Z)
| WrSet (start total : Z)
| WrSig (s : sig) (total : Z).

Definition Write_step (b : buffer) (p : list Z) (pc : write_pc)
  : step (buffer * next write_pc (Z * option error)) :=
  match pc with
  | WrDone => if isDone b then fin b (0, Some EOF) else run b (WrWait WDone)
  | WrWait w =>
      call (wfs_step b (zlen p) w) WrWait (fun '(start, _, err) =>
        match err with Some e => Fin (0, Some e) | None => Run (WrCopy start) end)
  | WrCopy start =>
      try (ringCopy (buf b) p (Z.land start (mask b)))
          (fun '(d, total) => run (with_buf d b) (WrSet start total))
  | WrSet start total => run (with_pcur (i64 (start + zlen p)) b) (WrSig SLock total)
  | WrSig s total =>
      call (signal_step Producer CCond CCond b s) (fun s => WrSig s total) (fun _ => Fin (total, None))
  end.

Definition WriteWait_step (b : buffer) (n : Z) (w : wfs_pc)
  : step (buffer * next wfs_pc (view * bool * option error)) :=
  match wfs_step b n w with
  | Some (Ret (b, Fin (start, cnt, err))) =>
      match err with
      | Some e => fin b (VNil, false, Some e)
      | None =>
          let pstart := Z.land start (mask b) in
          if size b <? i64 (pstart + cnt)
          then try (buf_view b pstart (zlen (buf b))) (fun v => fin b (v, true, None))
          else try (buf_view b pstart (i64 (pstart + cnt))) (fun v => fin b (v, false, None))
      end
  | Some (Ret (b, Run w)) => run b w
  | Some (Panic p) => Some (Panic p)
  | None => None
  end.

Inductive commit_pc : Type :=
| CmWait (w : wfs_pc)
| CmSet (start cnt : Z)
| CmSig (s : sig) (cnt : Z).

Definition WriteCommit_step (b : buffer) (n : Z) (pc : commit_pc)
  : step (buffer * next commit_pc (Z * option error)) :=
  match pc with
  | CmWait w =>
      call (wfs_step b n w) CmWait (fun '(start, cnt, err) =>
        match err with Some e => Fin (0, Some e) | None => Run (CmSet start cnt) end)
  | CmSet start cnt => run (with_pcur (i64 (start + cnt)) b) (CmSig SLock cnt)
  | CmSig s cnt =>
      call (signal_step Producer CCond CCond b s) (fun s => CmSig s cnt) (fun _ => Fin (cnt, None))
  end.

(** An [io.Reader] as the list of the chunks it will deliver, each with the error
    that comes with it; it never returns more than it is asked for, and ends with
    [EOF]. *)
Abbreviation reader := (list (list Z * option error)).

Definition reader_Read (r : reader) (l : Z) : reader * list Z * option error :=
  match r with
  | [] => ([], [], Some EOF)
  | (bs, e) :: r =>
      if zlen bs <=? l then (r, bs, e)
      else ((drop (Z.to_nat l) bs, e) :: r, take (Z.to_nat l) bs, None)
  end.

(** [got]: what the reader has delivered so far; [n] is the length of [bs] *)
Inductive readfrom_pc : Type :=
| RfTop (r : reader) (total : Z) (got : list Z)
| RfWait (r : reader) (total : Z) (got : list Z) (w : wfs_pc)
| RfRead (r : reader) (total : Z) (got : list Z) (start cnt : Z)
| RfCommit (r : reader) (total : Z) (got bs : list Z) (err : option error) (c : commit_pc)
| RfClose (c : close_pc) (res : Z * option error) (got : list Z).

(** [return res], after the deferred [Close] *)
Definition rf_return (res : Z * option error) (got : list Z)
  : next readfrom_pc (Z * option error * list Z) := Run (RfClose ClDone res got).

Definition rf_again (r : reader) (total : Z) (got : list Z) (err : option error)
  : next readfrom_pc (Z * option error * list Z) :=
  match err with Some e => rf_return (total, Some e) got | None => Run (RfTop r total got) end.

Definition ReadFrom_step (b : buffer) (pc : readfrom_pc)
  : step (buffer * next readfrom_pc (Z * option error * list Z)) :=
  match pc with
  | RfTop r total got =>
      if isDone b then Some (Ret (b, rf_return (total, Some EOF) got))
      else run b (RfWait r total got WDone)
  | RfWait r total got w =>
      call (wfs_step b defaultReadBlockSize w) (RfWait r total got) (fun '(start, cnt, err) =>
        match err with
        | Some e => rf_return (0, Some e) got
        | None => Run (RfRead r total got start cnt)
        end)
  | RfRead r total got start cnt =>
      let pstart := Z.land start (mask b) in
      let pend := i64 (pstart + cnt) in
      let pend := if size b <? pend then size b else pend in
      try (subslice (buf b) pstart pend) (fun region =>
        let '(r, bs, err) := reader_Read r (zlen region) in
        let n := zlen bs in
        try (put (buf b) pstart bs) (fun d =>
          let b := with_buf d b in
          if 0 <? n then run b (RfCommit r (i64 (total + n)) (got ++ bs) bs err (CmWait WDone))
          else Some (Ret (b, rf_again r total got err))))
  | RfCommit r total got bs err c =>
      call (WriteCommit_step b (zlen bs) c) (RfCommit r total got bs err) (fun '(_, cerr) =>
        match cerr with Some e => rf_return (total, Some e) got | None => rf_again r total got err end)
  | RfClose c res got =>
      call (close_step Producer b c) (fun c => RfClose c res got) (fun _ => Fin (res, got))
  end.

(** ** Waiting for data

    [for ...; wait ppos; ppos = this.pseq.get() { if isDone ... Wait() }] under
    [ccond.L].  [KLock (Some ppos)] tests a cursor loaded before the mutex was taken,
    [KLock None] loads it afterwards; [count] increments [cwait]. *)
Inductive kw_pc : Type :=
| KLock (stale : option Z)
| KLoad
| KTest (ppos : Z)
| KTestDone
| KPark
| KAsleep.

Definition kw_step (b : buffer) (wait : Z -> bool) (count : bool) (pc : kw_pc)
  : step (buffer * next kw_pc (Z + error)) :=
  match pc with
  | KLock stale =>
      Lock Consumer CCond b (fun b => run b (match stale with Some ppos => KTest ppos | None => KLoad end))
  | KLoad => run b (KTest (pcur b))
  | KTest ppos =>
      if wait ppos then run b KTestDone else try (Unlock CCond b) (fun b => fin b (inl ppos))
  | KTestDone => if isDone b then fin b (inr EOF) else run b KPark
  | KPark =>
      try (Unlock CCond (with_parked CCond true (if count then with_cwait (i64 (cwait b + 1)) b else b)))
          (fun b => run b KAsleep)
  | KAsleep => if parked b CCond then None else Lock Consumer CCond b (fun b => run b KLoad)
  end.

(** ** The consumer's methods *)

Inductive read_pc : Type :=
| RdDone
| RdLen
| RdLoad
| RdCopy (cpos : Z) (avail : option Z)
| RdSet (cpos : Z) (out : list Z)
| RdSig (s : sig) (out : list Z)
| RdWait (cpos : Z) (k : kw_pc).

(** [Read] into a slice of [pl] bytes; the result lists the bytes copied into it *)
Definition Read_step (b : buffer) (pl : Z) (pc : read_pc)
  : step (buffer * next read_pc (list Z * option error)) :=
  match pc with
  | RdDone => run b (if isDone b then RdLen else RdLoad)
  | RdLen => if Len b =? 0 then fin b ([], Some EOF) else run b RdLoad
  | RdLoad =>
      let cpos := ccur b in
      let ppos := pcur b in
      if i64 (cpos + pl) <? ppos then run b (RdCopy cpos None)
      else if cpos <? ppos then run b (RdCopy cpos (Some (i64 (ppos - cpos))))
      else run b (RdWait cpos (KLock None))
  | RdCopy cpos avail =>
      let cindex := Z.land cpos (mask b) in
      let stop := match avail with
                  | Some n => if i64 (cindex + n) <? size b then i64 (cindex + n) else zlen (buf b)
                  | None => zlen (buf b)
                  end in
      try (subslice (buf b) cindex stop) (fun src => run b (RdSet cpos (take (Z.to_nat pl) src)))
  | RdSet cpos out => run (with_ccur (i64 (cpos + zlen out)) b) (RdSig SLock out)
  | RdSig s out =>
      call (signal_step Consumer PCond PCond b s) (fun s => RdSig s out) (fun _ => Fin (out, None))
  | RdWait cpos k =>
      call (kw_step b (fun ppos => ppos <=? cpos) true k) (RdWait cpos) (fun r =>
        match r with inl _ => Run RdLoad | inr e => Fin ([], Some e) end)
  end.

(** the slice of [m] bytes from position [cpos], through [tmp] when it wraps *)
Definition contiguous (b : buffer) (cpos m : Z) (k : buffer -> view -> step (buffer * next unit (view * option error)))
  : step (buffer * next unit (view * option error)) :=
  let cindex := Z.land cpos (mask b) in
  if size b <? i64 (cindex + m)
  then try (subslice (buf b) cindex (zlen (buf b))) (fun x =>
       try (subslice (buf b) 0 (i64 (m - zlen x))) (fun y =>
         let b := with_tmp (x ++ y) b in k b (VTmp (zlen (tmp b)))))
  else try (buf_view b cindex (i64 (cindex + m))) (k b).

Inductive peek_pc : Type :=
| PkEnter
| PkWait (cpos : Z) (k : kw_pc)
| PkView (cpos ppos : Z).

Definition ReadPeek_step (b : buffer) (n : Z) (pc : peek_pc)
  : step (buffer * next peek_pc (view * option error)) :=
  match pc with
  | PkEnter =>
      if size b <? n then fin b (VNil, Some ErrBufferFull)
      else if n <? 0 then fin b (VNil, Some ErrNegativeCount)
      else run b (PkWait (ccur b) (KLock (Some (pcur b))))
  | PkWait cpos k =>
      call (kw_step b (fun ppos => ppos <=? cpos) true k) (PkWait cpos) (fun r =>
        match r with inl ppos => Run (PkView cpos ppos) | inr e => Fin (VNil, Some e) end)
  | PkView cpos ppos =>
      let m := i64 (ppos - cpos) in
      let '(m, err) := if n <=? m then (n, None) else (m, Some ErrBufferInsufficientData) in
      if i64 (cpos + m) <=? ppos
      then call (contiguous b cpos m (fun b v => fin b (v, err))) (fun _ => PkView cpos ppos) Fin
      else fin b (VNil, Some ErrBufferInsufficientData)
  end.

Definition ReadWait_step (b : buffer) (n : Z) (pc : peek_pc)
  : step (buffer * next peek_pc (view * option error)) :=
  match pc with
  | PkEnter =>
      if size b <? n then fin b (VNil, Some ErrBufferFull)
      else if n <? 0 then fin b (VNil, Some ErrNegativeCount)
      else run b (PkWait (ccur b) (KLock (Some (pcur b))))
  | PkWait cpos k =>
      call (kw_step b (fun ppos => ppos <? i64 (cpos + n)) false k) (PkWait cpos) (fun r =>
        match r with inl ppos => Run (PkView cpos ppos) | inr e => Fin (VNil, Some e) end)
  | PkView cpos ppos =>
      call (contiguous b cpos n (fun b v => fin b (v, None))) (fun _ => PkView cpos ppos) Fin
  end.

Inductive rcommit_pc : Type :=
| RcEnter
| RcSet (cpos : Z)
| RcSig (s : sig).

Definition ReadCommit_step (b : buffer) (n : Z) (pc : rcommit_pc)
  : step (buffer * next rcommit_pc (Z * option error)) :=
  match pc with
  | RcEnter =>
      if size b <? n then fin b (0, Some ErrBufferFull)
      else if n <? 0 then fin b (0, Some ErrNegativeCount)
      else if i64 (ccur b + n) <=? pcur b then run b (RcSet (ccur b))
      else fin b (0, Some ErrBufferInsufficientData)
  | RcSet cpos => run (with_ccur (i64 (cpos + n)) b) (RcSig SLock)
  | RcSig s => call (signal_step Consumer PCond PCond b s) RcSig (fun _ => Fin (n, None))
  end.

(** An [io.Writer] as the list of its answers: [None] takes everything, [Some (n, e)]
    takes at most [n] bytes and fails with [e]; once the list is used up it takes
    everything. *)
Abbreviation writer := (list (option (Z * error))).

Definition writer_Write (w : writer) (p : list Z) : writer * Z * option error :=
  match w with
  | Some (n, e) :: w => (w, Z.max 0 (Z.min n (zlen p)), Some e)
  | None :: w => (w, zlen p, None)
  | [] => ([], zlen p, None)
  end.

(** [out]: what the writer has received so far *)
Inductive writeto_pc : Type :=
| WtTop (w : writer) (total : Z) (out : list Z)
| WtPeek (w : writer) (total : Z) (out : list Z) (k : peek_pc)
| WtWrite (w : writer) (total : Z) (out : list Z) (v : view) (err : option error)
| WtCommit (w : writer) (total : Z) (out : list Z) (n : Z) (err : option error) (c : rcommit_pc)
| WtClose (c : close_pc) (res : Z * option error) (out : list Z).

Definition wt_return (res : Z * option error) (out : list Z)
  : next writeto_pc (Z * option error * list Z) := Run (WtClose ClDone res out).

(** the end of the loop's body *)
Definition wt_again (w : writer) (total : Z) (out : list Z) (err : option error)
  : next writeto_pc (Z * option error * list Z) :=
  match err with
  | Some e => if bool_decide (e = ErrBufferInsufficientData) then Run (WtTop w total out)
              else wt_return (total, Some e) out
  | None => Run (WtTop w total out)
  end.

Definition WriteTo_step (b : buffer) (pc : writeto_pc)
  : step (buffer * next writeto_pc (Z * option error * list Z)) :=
  match pc with
  | WtTop w total out =>
      if isDone b then Some (Ret (b, wt_return (total, Some EOF) out))
      else run b (WtPeek w total out PkEnter)
  | WtPeek w total out k =>
      call (ReadPeek_step b defaultWriteBlockSize k) (WtPeek w total out)
        (fun '(v, err) => Run (WtWrite w total out v err))
  | WtWrite w total out v err =>
      let p := read_view b v in
      if 0 <? zlen p then
        let '(w, n, werr) := writer_Write w p in
        let total := i64 (total + n) in
        let out := out ++ take (Z.to_nat n) p in
        match werr with
        | Some e => Some (Ret (b, wt_return (total, Some e) out))
        | None => run b (WtCommit w total out n err RcEnter)
        end
      else Some (Ret (b, wt_again w total out err))
  | WtCommit w total out n err c =>
      call (ReadCommit_step b n c) (WtCommit w total out n err) (fun '(_, cerr) =>
        match cerr with Some e => wt_return (total, Some e) out | None => wt_again w total out err end)
  | WtClose c res out => call (close_step Consumer b c) (fun c => WtClose c res out) (fun _ => Fin (res, out))
  end.
