(* ===== verification/BufferSpec.v ===== *)
(** * BufferSpec: the methods of the ring buffer, step by step

    The assertion at every program point of every method, and that each step keeps
    them: it does not panic, leaves the memory consistent ([mem_ok]), and touches
    only what its thread may touch ([frame]). *)
From stdpp Require Import base list strings.
From Stdlib Require Import ZArith Lia.
From S2P Require Import Prelude GoLang Pow2 Buffer.

(** ** Lists by index *)

Definition zat (l : list Z) (i : Z) : Z := default 0 (l !! Z.to_nat i).
Definition subseq (l : list Z) (a n : Z) : list Z := take (Z.to_nat n) (drop (Z.to_nat a) l).

Lemma zat_app l k i : 0 <= i -> zat (l ++ k) i = if i <? zlen l then zat l i else zat k (i - zlen l).
Proof.
  intros Hi. unfold zat, zlen. destruct (i <? _) eqn:E.
  - by rewrite lookup_app_l by lia.
  - rewrite lookup_app_r by lia. do 2 f_equal. lia.
Qed.

Lemma zat_take n l i : 0 <= i < n -> zat (take (Z.to_nat n) l) i = zat l i.
Proof. intros Hi. unfold zat. by rewrite lookup_take_lt by lia. Qed.

Lemma zat_drop n l i : 0 <= n -> 0 <= i -> zat (drop (Z.to_nat n) l) i = zat l (n + i).
Proof. intros Hn Hi. unfold zat. rewrite lookup_drop. do 2 f_equal. lia. Qed.

Lemma zat_ext l k :
  zlen l = zlen k -> (forall i, 0 <= i < zlen l -> zat l i = zat k i) -> l = k.
Proof.
  intros Hl H. apply list_eq_same_length with (length l); [unfold zlen in Hl; lia|done|].
  intros i x y Hi Hx Hy. specialize (H (Z.of_nat i) ltac:(unfold zlen; lia)). unfold zat in H.
  rewrite Nat2Z.id, Hx, Hy in H. done.
Qed.

Lemma zlen_subseq l a n : 0 <= a -> 0 <= n -> a + n <= zlen l -> zlen (subseq l a n) = n.
Proof. intros Ha Hn H. unfold subseq. zl. Qed.

Lemma zat_subseq l a n i : 0 <= a -> 0 <= i < n -> zat (subseq l a n) i = zat l (a + i).
Proof. intros Ha Hi. unfold subseq. rewrite zat_take by done. apply zat_drop; lia. Qed.

Lemma subseq_app l k a n : 0 <= a -> 0 <= n -> a + n <= zlen l -> subseq (l ++ k) a n = subseq l a n.
Proof.
  intros Ha Hn H. unfold subseq. rewrite drop_app_le by zl. rewrite take_app_le; [done|zl].
Qed.

(** two adjacent pieces *)
Lemma subseq_glue l a n m : 0 <= a -> 0 <= n -> 0 <= m ->
  subseq l a n ++ subseq l (a + n) m = subseq l a (n + m).
Proof.
  intros Ha Hn Hm. unfold subseq. replace (Z.to_nat (a + n)) with (Z.to_nat a + Z.to_nat n)%nat by lia.
  rewrite <- drop_drop. rewrite (Z2Nat.inj_add n m) by lia. apply take_take_drop.
Qed.

Lemma gocopy_at dst off b d n :
  gocopy dst off b = Ret (d, n) -> n = Z.min (zlen dst - off) (zlen b) /\ zlen d = zlen dst /\
  forall i, 0 <= i < zlen dst -> zat d i = if (off <=? i) && (i <? off + n) then zat b (i - off) else zat dst i.
Proof.
  unfold gocopy. destruct (_ && _) eqn:E; [|done]. intros [= <- <-]. split; [done|]. split; [zl|].
  intros i Hi. remember (Z.min _ _) as n eqn:Hn. zlen_facts.
  assert (E1 : zlen (take (Z.to_nat off) dst) = off) by zl.
  assert (E2 : zlen (take (Z.to_nat n) b) = n) by zl.
  rewrite zat_app, E1 by lia. destruct (i <? off) eqn:E3.
  - rewrite zat_take by lia. by replace (off <=? i) with false by lia.
  - rewrite zat_app, E2 by lia. replace (off <=? i) with true by lia.
    destruct (i - off <? n) eqn:E4.
    + replace (i <? off + n) with true by lia. apply zat_take. lia.
    + replace (i <? off + n) with false by lia. rewrite zat_drop by lia. cbn. f_equal. lia.
Qed.

Lemma put_at dst off bs d :
  put dst off bs = Ret d -> 0 <= off /\ off + zlen bs <= zlen dst /\ zlen d = zlen dst /\
  forall i, 0 <= i < zlen dst -> zat d i = if (off <=? i) && (i <? off + zlen bs) then zat bs (i - off) else zat dst i.
Proof.
  intros H. assert (Hr : 0 <= off /\ off + zlen bs <= zlen dst) by (unfold put in H; case_in H; [lia|done]).
  assert (Hc : gocopy dst off bs = Ret (d, zlen bs)).
  { unfold put in H. unfold gocopy. zlen_facts. revert H. guard_true. guard_true. intros [= <-]. cbv zeta.
    replace (Z.min (zlen dst - off) (zlen bs)) with (zlen bs) by lia. by rewrite (take_all_zlen bs) by lia. }
  apply gocopy_at in Hc as (_ & Hl & Hi). split_and!; try lia. exact Hi.
Qed.

(** ** Slots *)

(** the byte in the slot of position [i] *)
Definition ring_at (b : buffer) (i : Z) : Z := zat (buf b) (i mod size b).

Definition ring_range (b : buffer) (pos n : Z) : list Z :=
  map (fun i => ring_at b (pos + Z.of_nat i)) (seq 0 (Z.to_nat n)).

Lemma zlen_ring_range b pos n : 0 <= n -> zlen (ring_range b pos n) = n.
Proof. intros Hn. unfold ring_range. rewrite zlen_map. unfold zlen. rewrite length_seq. lia. Qed.

Lemma zat_ring_range b pos n i : 0 <= i < n -> zat (ring_range b pos n) i = ring_at b (pos + i).
Proof.
  intros Hi. unfold ring_range, zat. rewrite list_lookup_fmap.
  rewrite lookup_seq_lt by lia. cbn. f_equal. lia.
Qed.

Lemma ring_range_nil b pos : ring_range b pos 0 = [].
Proof. reflexivity. Qed.

(** the slots of [m] positions that do not wrap, as a piece of the array *)
Lemma subseq_ring b pos m :
  0 < size b -> zlen (buf b) = size b -> 0 <= m -> pos mod size b + m <= size b ->
  subseq (buf b) (pos mod size b) m = ring_range b pos m.
Proof.
  intros Hs Hb Hm Hw. pose proof (Z.mod_pos_bound pos (size b) Hs).
  apply zat_ext; rewrite zlen_subseq by lia; [by rewrite zlen_ring_range|].
  intros i Hi. rewrite zat_subseq, zat_ring_range by lia. unfold ring_at. f_equal.
  rewrite <- (Z.mod_small (pos mod size b + i) (size b)) by lia. apply Zplus_mod_idemp_l.
Qed.

(** the slots of [m] positions that wrap, as two pieces *)
Lemma subseq_ring_wrap b pos m :
  0 < size b -> zlen (buf b) = size b -> size b < pos mod size b + m -> m <= size b ->
  subseq (buf b) (pos mod size b) (size b - pos mod size b) ++
  subseq (buf b) 0 (m - (size b - pos mod size b)) = ring_range b pos m.
Proof.
  intros Hs Hb Hw Hm. pose proof (Z.mod_pos_bound pos (size b) Hs).
  set (c := pos mod size b) in *. set (x := subseq _ c _). set (y := subseq _ 0 _).
  assert (Hx : zlen x = size b - c) by (apply zlen_subseq; lia).
  assert (Hy : zlen y = m - (size b - c)) by (apply zlen_subseq; lia).
  apply zat_ext; rewrite zlen_app, Hx, Hy; [rewrite zlen_ring_range; lia|].
  intros i Hi. rewrite zat_app, Hx, zat_ring_range by lia. unfold ring_at.
  assert (Hmod : (pos + i) mod size b = (c + i) mod size b) by (symmetry; apply Zplus_mod_idemp_l).
  rewrite Hmod. destruct (i <? size b - c) eqn:E.
  - unfold x. rewrite zat_subseq by lia. f_equal. by rewrite Z.mod_small by lia.
  - unfold y. rewrite zat_subseq by lia. f_equal.
    replace (c + i) with (c + i - size b + 1 * size b) by lia. rewrite Z.mod_add, Z.mod_small; lia.
Qed.

(** ** [ringCopy] writes a string into consecutive positions *)

Lemma ringCopy_done fuel dst src start i n : n <= 0 -> ringCopy_loop fuel dst src start i n = Ret (dst, i).
Proof. intros Hn. destruct fuel; cbn [ringCopy_loop]; by guard_true. Qed.

(** a round that copies what is left of the source or of the destination *)
Lemma ringCopy_round fuel dst src start i :
  0 <= start < zlen dst -> 0 <= i < zlen src ->
  exists d, ringCopy_loop (S fuel) dst src start i (zlen src - i)
      = (let l := Z.min (zlen dst - start) (zlen src - i) in
         ringCopy_loop fuel d src (if 0 <? zlen src - i - l then 0 else start) (i + l) (zlen src - i - l)) /\
    zlen d = zlen dst /\
    forall j, 0 <= j < zlen dst ->
      zat d j = if (start <=? j) && (j <? start + Z.min (zlen dst - start) (zlen src - i))
                then zat src (j - start + i) else zat dst j.
Proof.
  intros Hs Hi. cbn [ringCopy_loop]. guard_false. unfold subslice. guard_true. cbn [bindO].
  set (rest := take _ _). assert (Hr : zlen rest = zlen src - i) by (unfold rest; zl).
  assert (Hra : forall j, 0 <= j < zlen src - i -> zat rest j = zat src (j + i)).
  { intros j Hj. unfold rest. rewrite zat_take by lia. rewrite zat_drop by lia. f_equal. lia. }
  destruct (gocopy dst start rest) as [[d n]|p] eqn:E.
  - pose proof (gocopy_at _ _ _ _ _ E) as (-> & Hd & Hat). rewrite Hr in *. cbn [bindO].
    exists d. split; [done|]. split; [done|]. intros j Hj. rewrite Hat by lia.
    destruct (_ && _) eqn:Ec; [|done]. apply Hra. lia.
  - unfold gocopy in E. revert E. by guard_true.
Qed.

(** no more than two rounds *)
Lemma ringCopy_spec dst src start :
  0 <= start < zlen dst -> zlen src <= zlen dst ->
  exists d, ringCopy dst src start = Ret (d, zlen src) /\ zlen d = zlen dst /\
    forall i, 0 <= i < zlen dst ->
      zat d i = if (start <=? i) && (i <? start + zlen src) then zat src (i - start)
                else if i <? start + zlen src - zlen dst then zat src (i + zlen dst - start)
                else zat dst i.
Proof.
  intros Hs Hl. unfold ringCopy. pose proof (zlen_nonneg src). rewrite length_to_nat.
  destruct (Z_le_dec (zlen src) 0) as [H0|Hpos].
  { exists dst. rewrite ringCopy_done by lia. split; [do 2 f_equal; lia|]. split; [done|]. intros i Hi.
    replace ((start <=? i) && (i <? start + zlen src)) with false by lia.
    by replace (i <? start + zlen src - zlen dst) with false by lia. }
  replace (Z.to_nat (zlen src)) with (S (Z.to_nat (zlen src - 1))) by lia.
  destruct (ringCopy_round (Z.to_nat (zlen src - 1)) dst src start 0) as (d1 & E1 & Hd1 & Hat1); [lia..|].
  rewrite Z.sub_0_r in *. rewrite E1. cbv zeta. clear E1.
  destruct (Z_le_dec (zlen src) (zlen dst - start)) as [Hfit|Hwrap].
  - rewrite Z.min_r in * by lia. exists d1. split; [rewrite ringCopy_done by lia; do 2 f_equal; lia|].
    split; [lia|]. intros i Hi. rewrite Hat1 by lia.
    destruct (_ && _) eqn:Ec; [f_equal; lia|]. by replace (i <? _) with false by lia.
  - rewrite Z.min_l in * by lia. guard_true. rewrite Z.add_0_l.
    replace (Z.to_nat (zlen src - 1)) with (S (Z.to_nat (zlen src - 2))) by lia.
    destruct (ringCopy_round (Z.to_nat (zlen src - 2)) d1 src 0 (zlen dst - start)) as (d2 & E2 & Hd2 & Hat2); [lia..|].
    rewrite E2. cbv zeta. clear E2. rewrite Z.min_r in * by lia. exists d2.
    split; [rewrite ringCopy_done by lia; do 2 f_equal; lia|].
    split; [lia|]. intros i Hi. rewrite Hat2 by lia. rewrite Z.sub_0_r.
    destruct ((0 <=? i) && _) eqn:Ec.
    + replace ((start <=? i) && (i <? start + zlen src)) with false by lia.
      replace (i <? _) with true by lia. f_equal. lia.
    + rewrite Hat1 by lia. replace (i <? start + zlen src - zlen dst) with false by lia.
      destruct (start <=? i) eqn:Es; cbn [andb]; [|done].
      replace (i <? start + (zlen dst - start)) with true by lia.
      replace (i <? start + zlen src) with true by lia. f_equal. lia.
Qed.

(** ** The state of the memory

    [mem_ok b sent]: [sent] is what the producer has published since the buffer was
    made; the slots from the consumer's cursor to the producer's hold its end. *)
Record mem_ok (b : buffer) (sent : list Z) : Prop := {
  mo_size : is_pow2 (size b);
  mo_block : 2 * defaultReadBlockSize <= size b;
  mo_mask : mask b = size b - 1;
  mo_buf : zlen (buf b) = size b;
  mo_sent : pcur b = zlen sent;
  mo_cur : 0 <= ccur b <= pcur b;
  mo_room : pcur b <= ccur b + size b;
  mo_gate : 0 <= pgate b <= ccur b;
  mo_ring : forall i, ccur b <= i < pcur b -> ring_at b i = zat sent i
}.

(** [frame me b b']: what a step of [me] from [b] to [b'] leaves to the others *)
Record frame (me : thread) (b b' : buffer) : Prop := {
  fr_size : size b' = size b;
  fr_prod : me <> Producer -> pcur b' = pcur b /\ buf b' = buf b;
  fr_cons : me <> Consumer -> ccur b' = ccur b /\ tmp b' = tmp b;
  fr_pcur : pcur b <= pcur b';
  fr_ccur : ccur b <= ccur b';
  fr_ring : forall i, ccur b <= i < pcur b -> ring_at b' i = ring_at b i;
  fr_mutex : forall c t, t <> me -> mutex b c = Some t -> mutex b' c = Some t;
  fr_pparked : me <> Producer -> pparked b' = true -> pparked b = true;
  fr_cparked : me <> Consumer -> cparked b' = true -> cparked b = true
}.

(** what a step publishes: the bytes between the old cursor and the new one *)
Definition publish (b b' : buffer) (sent : list Z) : list Z :=
  sent ++ ring_range b' (pcur b) (pcur b' - pcur b).

Lemma publish_same b b' sent : pcur b' = pcur b -> publish b b' sent = sent.
Proof. intros H. unfold publish. rewrite H, Z.sub_diag, ring_range_nil. apply app_nil_r. Qed.

(** a step that moves no data: mutexes, lists of waiters, flags and the gate *)
Record quiet (me : thread) (b b' : buffer) : Prop := {
  q_size : size b' = size b;
  q_mask : mask b' = mask b;
  q_buf : buf b' = buf b;
  q_tmp : tmp b' = tmp b;
  q_pcur : pcur b' = pcur b;
  q_ccur : ccur b' = ccur b;
  q_gate : pgate b' = pgate b \/ 0 <= pgate b' <= ccur b;
  q_mutex : forall c t, t <> me -> mutex b c = Some t -> mutex b' c = Some t;
  q_pparked : me <> Producer -> pparked b' = true -> pparked b = true;
  q_cparked : me <> Consumer -> cparked b' = true -> cparked b = true
}.

Lemma quiet_refl me b : quiet me b b.
Proof. split; auto. Qed.

Lemma quiet_trans me b1 b2 b3 : quiet me b1 b2 -> quiet me b2 b3 -> quiet me b1 b3.
Proof.
  intros H1 H2. pose proof (q_gate _ _ _ H1). pose proof (q_gate _ _ _ H2). pose proof (q_ccur _ _ _ H1).
  split; try (etransitivity; [apply H2|apply H1]).
  - destruct H0 as [->|?]; [done|right; lia].
  - intros c t Ht Hc. by apply (q_mutex _ _ _ H2), (q_mutex _ _ _ H1).
  - intros Hm Hp. by apply (q_pparked _ _ _ H1), (q_pparked _ _ _ H2).
  - intros Hm Hp. by apply (q_cparked _ _ _ H1), (q_cparked _ _ _ H2).
Qed.

Lemma quiet_lock me c b : mutex b c = None -> quiet me b (with_mutex c (Some me) b).
Proof. intros H. split; auto. intros d t Ht Hd. destruct c, d; cbn in *; congruence. Qed.

Lemma quiet_unlock me c b : mutex b c = Some me -> quiet me b (with_mutex c None b).
Proof. intros H. split; auto. intros d t Ht Hd. destruct c, d; cbn in *; congruence. Qed.

Lemma quiet_wake me c b : quiet me b (with_parked c false b).
Proof. split; auto; destruct c; auto; try done. all: intros d t Ht Hd; by destruct d. Qed.

Lemma quiet_park_producer b : quiet Producer b (with_parked PCond true b).
Proof. split; auto; try done. all: intros d t Ht Hd; by destruct d. Qed.

Lemma quiet_park_consumer b : quiet Consumer b (with_parked CCond true b).
Proof. split; auto; try done. all: intros d t Ht Hd; by destruct d. Qed.

Lemma quiet_done me b : quiet me b (with_done 1 b).
Proof. split; auto. all: intros d t Ht Hd; by destruct d. Qed.
Lemma quiet_pwait me x b : quiet me b (with_pwait x b).
Proof. split; auto. all: intros d t Ht Hd; by destruct d. Qed.
Lemma quiet_cwait me x b : quiet me b (with_cwait x b).
Proof. split; auto. all: intros d t Ht Hd; by destruct d. Qed.
Lemma quiet_gate me g b : 0 <= g <= ccur b -> quiet me b (with_pgate g b).
Proof. intros H. split; auto. all: intros d t Ht Hd; by destruct d. Qed.

Lemma quiet_frame me b b' : quiet me b b' -> frame me b b'.
Proof.
  intros [H1 H2 H3 H4 H5 H6 H7 H8 H9 H10]. split; auto; try lia.
  intros i Hi. unfold ring_at. by rewrite H1, H3.
Qed.

Lemma quiet_mem me b b' sent : quiet me b b' -> mem_ok b sent -> mem_ok b' sent.
Proof.
  intros [H1 H2 H3 H4 H5 H6 H7 _ _ _] [G1 G2 G3 G4 G5 G6 G7 G8 G9].
  split; try (rewrite ?H1, ?H2, ?H3, ?H5, ?H6; done).
  - rewrite H6. destruct H7 as [->|]; lia.
  - rewrite H5, H6. intros i Hi. unfold ring_at. rewrite H1, H3. by apply G9.
Qed.

(** [ok_step me b sent m Q]: if [m] can step, it does not panic, the memory stays
    consistent, the others' frame is kept, and [Q] holds of what comes next *)
Definition ok_step {A} (me : thread) (b : buffer) (sent : list Z) (m : step (buffer * A))
    (Q : buffer -> list Z -> A -> Prop) : Prop :=
  match m with
  | None => True
  | Some (Panic _) => False
  | Some (Ret (b', a)) =>
      frame me b b' /\ mem_ok b' (publish b b' sent) /\ Q b' (publish b b' sent) a
  end.

Lemma ok_quiet {A} me b b' sent (a : A) (Q : buffer -> list Z -> A -> Prop) :
  quiet me b b' -> mem_ok b sent -> Q b' sent a -> ok_step me b sent (Some (Ret (b', a))) Q.
Proof.
  intros Hq Hm HQ. cbn. rewrite publish_same by apply Hq.
  split; [by apply quiet_frame|]. split; [by eapply quiet_mem|done].
Qed.

Lemma ok_call {L R L' R'} me b sent (m : step (buffer * next L R)) (f : L -> L') (k : R -> next L' R')
    (Q : buffer -> list Z -> next L R -> Prop) (Q' : buffer -> list Z -> next L' R' -> Prop) :
  ok_step me b sent m Q ->
  (forall b' sent' l, Q b' sent' (Run l) -> Q' b' sent' (Run (f l))) ->
  (forall b' sent' r, Q b' sent' (Fin r) -> Q' b' sent' (k r)) ->
  ok_step me b sent (call m f k) Q'.
Proof.
  intros Hm Hf Hk. destruct m as [[[b' [l|r]]|p]|]; try done; destruct Hm as (H1 & H2 & H3); split; auto.
Qed.

Lemma ok_call_frame {L R L' R'} me b sent (m : step (buffer * next L R)) (f : L -> L') (k : R -> next L' R')
    (Q : buffer -> list Z -> next L R -> Prop) (Q' : buffer -> list Z -> next L' R' -> Prop) :
  ok_step me b sent m Q ->
  (forall b' sent' l, frame me b b' -> mem_ok b' sent' -> Q b' sent' (Run l) -> Q' b' sent' (Run (f l))) ->
  (forall b' sent' r, frame me b b' -> mem_ok b' sent' -> Q b' sent' (Fin r) -> Q' b' sent' (k r)) ->
  ok_step me b sent (call m f k) Q'.
Proof.
  intros Hm Hf Hk. destruct m as [[[b' [l|r]]|p]|]; try done; destruct Hm as (H1 & H2 & H3); split; auto.
Qed.

Lemma ok_Lock {A} me c b sent (k : buffer -> step (buffer * A)) (Q : buffer -> list Z -> A -> Prop) :
  (forall b', quiet me b b' -> mutex b' c = Some me -> ok_step me b sent (k b') Q) ->
  ok_step me b sent (Lock me c b k) Q.
Proof.
  intros H. unfold Lock. destruct (mutex b c) eqn:E; [done|].
  apply H; [by apply quiet_lock|]. by destruct c.
Qed.

Lemma ok_Unlock {A} me c b b0 sent (k : buffer -> step (buffer * A)) (Q : buffer -> list Z -> A -> Prop) :
  mutex b c = Some me -> quiet me b0 b ->
  (forall b', quiet me b0 b' -> ok_step me b0 sent (k b') Q) ->
  ok_step me b0 sent (try (Unlock c b) k) Q.
Proof.
  intros Hm Hq H. unfold Unlock. rewrite Hm. cbn [try]. apply H.
  eapply quiet_trans; [exact Hq|]. by apply quiet_unlock.
Qed.

(** ** Assertions at the program points shared by both sides *)

Definition sig_ok (me : thread) (l : cond) (b : buffer) (s : sig) : Prop :=
  match s with SLock => True | _ => mutex b l = Some me end.

Lemma signal_ok me l c b sent s :
  mem_ok b sent -> sig_ok me l b s ->
  ok_step me b sent (signal_step me l c b s) (fun b' sent' r =>
    quiet me b b' /\ sent' = sent /\ match r with Run s' => sig_ok me l b' s' | Fin _ => True end).
Proof.
  intros Hm Hs. destruct s; cbn [signal_step].
  - apply ok_Lock. intros b' Hq Hl. by apply ok_quiet.
  - apply ok_quiet; [apply quiet_wake|done|]. split; [apply quiet_wake|]. split; [done|]. by destruct l.
  - apply ok_Unlock; [done|apply quiet_refl|]. intros b' Hq. by apply ok_quiet.
Qed.

Definition close_ok (me : thread) (b : buffer) (pc : close_pc) : Prop :=
  match pc with ClDone => True | ClProducer s | ClConsumer s => sig_ok me PCond b s end.

Lemma close_step_ok me b sent pc :
  mem_ok b sent -> close_ok me b pc ->
  ok_step me b sent (close_step me b pc) (fun b' sent' r =>
    quiet me b b' /\ sent' = sent /\ match r with Run pc' => close_ok me b' pc' | Fin _ => True end).
Proof.
  intros Hm Hs. destruct pc; cbn [close_step].
  - apply ok_quiet; [apply quiet_done|done|]. split; [apply quiet_done|]. done.
  - eapply ok_call; [by apply signal_ok|intros ??? H; exact H|]. intros b' sent' r (H1 & H2 & _). done.
  - eapply ok_call; [by apply signal_ok|intros ??? H; exact H|]. intros b' sent' r H. exact H.
Qed.

(** ** Waiting for space *)

Definition has_room (b : buffer) (n : Z) : Prop := pcur b + n <= ccur b + size b.

Definition wfs_ok (b : buffer) (n : Z) (pc : wfs_pc) : Prop :=
  match pc with
  | WDone | WLoad => True
  | WLock ppos | WAsleep ppos => ppos = pcur b
  | WTest ppos | WTestDone ppos | WPark ppos => ppos = pcur b /\ mutex b PCond = Some Producer
  | WGate ppos cpos =>
      ppos = pcur b /\ mutex b PCond = Some Producer /\ 0 <= cpos <= ccur b /\ pcur b + n <= cpos + size b
  end.

(** the cursors stay far below [2^63], so the [int64] sums are exact *)
Lemma wrap_exact b sent n :
  mem_ok b sent -> zlen sent < 2 ^ 62 -> 0 <= n < 2 ^ 62 -> wrap_of b (pcur b) n = pcur b + n - size b.
Proof.
  intros [[k [Hk Hs]] H1 H2 H3 H4 H5 H6 H7 H8] Hb Hn. pose proof (is_pow2_pos (size b) ltac:(by exists k)).
  unfold wrap_of. rewrite (i64_small (pcur b + n)) by lia. apply i64_small. lia.
Qed.

Definition wfs_post (b0 : buffer) (sent : list Z) (n : Z) (b' : buffer) (sent' : list Z)
    (r : next wfs_pc (Z * Z * option error)) : Prop :=
  quiet Producer b0 b' /\ sent' = sent /\
  match r with
  | Run pc' => wfs_ok b' n pc'
  | Fin (start, cnt, None) => start = pcur b' /\ cnt = n /\ has_room b' n
  | Fin (_, _, Some e) => e = EOF
  end.

Lemma wfs_step_ok b sent n pc :
  mem_ok b sent -> zlen sent < 2 ^ 62 -> 0 <= n < 2 ^ 62 -> wfs_ok b n pc ->
  ok_step Producer b sent (wfs_step b n pc) (wfs_post b sent n).
Proof.
  intros Hm Hb Hn Hp. pose proof (wrap_exact b sent n Hm Hb Hn) as Hw.
  pose proof (mo_gate _ _ Hm) as Hg. pose proof (mo_cur _ _ Hm) as Hc.
  assert (Hstay : forall r, wfs_post b sent n b sent r -> ok_step Producer b sent (Some (Ret (b, r))) (wfs_post b sent n)).
  { intros r Hr. by apply ok_quiet; [apply quiet_refl|..]. }
  destruct pc; cbn [wfs_step wfs_ok] in *; unfold run, fin.
  - destruct (isDone b); apply Hstay; (split; [apply quiet_refl|done]).
  - rewrite Hw. unfold has_room in *.
    destruct (_ || _) eqn:E; apply Hstay; (split; [apply quiet_refl|]); (split; [done|]); cbn; [done|].
    unfold has_room. split_and!; [done..|lia].
  - apply ok_Lock. intros b' Hq Hl. apply ok_quiet; [done..|]. split; [done|]. split; [done|].
    split; [|done]. rewrite Hp. symmetry. apply Hq.
  - destruct Hp as [-> Hl]. rewrite Hw. destruct (_ <? _) eqn:E; apply Hstay; (split; [apply quiet_refl|]); (split; [done|]); cbn; [done|].
    split_and!; [done..|lia|lia|lia].
  - destruct Hp as [-> Hl]. destruct (isDone b); apply Hstay; (split; [apply quiet_refl|done]).
  - destruct Hp as [-> Hl]. apply ok_Unlock.
    + done.
    + eapply quiet_trans; [apply quiet_pwait|]. apply quiet_park_producer.
    + intros b' Hq. apply ok_quiet; [done..|]. split; [done|]. split; [done|]. symmetry. apply Hq.
  - destruct (parked b PCond); [done|]. apply ok_Lock. intros b' Hq Hl. apply ok_quiet; [done..|].
    split; [done|]. split; [done|]. split; [|done]. rewrite Hp. symmetry. apply Hq.
  - destruct Hp as (-> & Hl & Hc1 & Hc2). apply ok_Unlock; [done|apply quiet_gate; lia|].
    intros b' Hq. apply ok_quiet; [done..|]. split; [done|]. split; [done|].
    unfold has_room. pose proof (q_size _ _ _ Hq). pose proof (q_pcur _ _ _ Hq). pose proof (q_ccur _ _ _ Hq).
    cbn. unfold has_room. split_and!; [done..|lia].
Qed.

(** ** Storing into reserved slots and publishing them *)

Lemma mod_add_cases a d s : 0 < s -> - s <= d < s ->
  (a + d) mod s = if a mod s + d <? 0 then a mod s + d + s
                  else if a mod s + d <? s then a mod s + d else a mod s + d - s.
Proof.
  intros Hs Hd. pose proof (Z.mod_pos_bound a s Hs). rewrite <- Zplus_mod_idemp_l.
  destruct (_ <? 0) eqn:E1; [|destruct (_ <? s) eqn:E2].
  - rewrite <- (Z.mod_add _ 1) by lia. rewrite Z.mod_small; lia.
  - apply Z.mod_small. lia.
  - replace (a mod s + d) with (a mod s + d - s + 1 * s) at 1 by lia.
    rewrite Z.mod_add by lia. apply Z.mod_small. lia.
Qed.

(** [src] at the positions from [pos] on, the positions before it untouched *)
Lemma ringCopy_ring dst src pos s :
  zlen dst = s -> 0 < s -> zlen src <= s ->
  exists d, ringCopy dst src (pos mod s) = Ret (d, zlen src) /\ zlen d = s /\
    (forall j, 0 <= j < zlen src -> zat d ((pos + j) mod s) = zat src j) /\
    (forall i, pos + zlen src - s <= i < pos -> zat d (i mod s) = zat dst (i mod s)).
Proof.
  intros Es Hs Hl. pose proof (zlen_nonneg src). pose proof (Z.mod_pos_bound pos s Hs) as Hc.
  destruct (ringCopy_spec dst src (pos mod s)) as (d & E & Hd & Hat); [lia..|]. exists d.
  rewrite Es in *. split; [done|]. split; [done|]. split.
  - intros j Hj. pose proof (Z.mod_pos_bound (pos + j) s Hs). rewrite Hat by done.
    rewrite mod_add_cases by lia. destruct (_ <? 0) eqn:E1; [lia|]. destruct (_ <? s) eqn:E2.
    + guard_true. f_equal. lia.
    + guard_false. guard_true. f_equal. lia.
  - intros i Hi. pose proof (Z.mod_pos_bound i s Hs). rewrite Hat by done.
    assert (Him : i mod s = if pos mod s + (i - pos) <? 0 then pos mod s + (i - pos) + s else pos mod s + (i - pos)).
    { replace i with (pos + (i - pos)) at 1 by lia. rewrite mod_add_cases by lia.
      destruct (_ <? 0); [done|]. by guard_true. }
    rewrite Him. destruct (_ <? 0) eqn:E1; guard_false; by guard_false.
Qed.

(** bytes at consecutive slots, without wrapping *)
Lemma put_ring dst bs pos d s :
  zlen dst = s -> 0 < s -> put dst (pos mod s) bs = Ret d ->
  zlen d = s /\ (forall j, 0 <= j < zlen bs -> zat d ((pos + j) mod s) = zat bs j) /\
  (forall i, pos + zlen bs - s <= i < pos -> zat d (i mod s) = zat dst (i mod s)).
Proof.
  intros Es Hs E. apply put_at in E as (Hc & Hr & Hd & Hat). pose proof (Z.mod_pos_bound pos s Hs) as Hc'.
  rewrite Es in *. split; [done|]. split.
  - intros j Hj. rewrite mod_add_cases by lia. guard_false. guard_true.
    rewrite Hat by lia. guard_true. f_equal. lia.
  - intros i Hi. pose proof (Z.mod_pos_bound i s Hs). rewrite Hat by done.
    assert (Him : i mod s = if pos mod s + (i - pos) <? 0 then pos mod s + (i - pos) + s else pos mod s + (i - pos)).
    { replace i with (pos + (i - pos)) at 1 by lia. zlen_facts. rewrite mod_add_cases by lia.
      destruct (_ <? 0); [done|]. by guard_true. }
    rewrite Him. destruct (_ <? 0) eqn:E1; by guard_false.
Qed.

Lemma mem_pos b sent : mem_ok b sent -> 0 < size b <= 2 ^ 62.
Proof. intros H. apply is_pow2_pos, H. Qed.

Lemma mem_mask b sent n : mem_ok b sent -> Z.land n (mask b) = n mod size b.
Proof. intros H. rewrite (mo_mask _ _ H). apply land_mask, H. Qed.

(** overwriting slots that hold no published byte *)
Lemma with_buf_ok b sent d n :
  mem_ok b sent -> has_room b n -> zlen d = size b ->
  (forall i, pcur b + n - size b <= i < pcur b -> zat d (i mod size b) = ring_at b i) ->
  frame Producer b (with_buf d b) /\ mem_ok (with_buf d b) sent.
Proof.
  intros [G1 G2 G3 G4 G5 G6 G7 G8 G9] Hr Hd Hi. unfold has_room in Hr. split.
  - split; auto; try done; try (cbn; lia). intros i Hi'. apply Hi. lia.
  - split; auto. intros i Hi'. cbn in Hi'. unfold ring_at. cbn. rewrite Hi by lia. by apply G9.
Qed.

Lemma set_pcur_ok b sent n :
  mem_ok b sent -> 0 <= n -> has_room b n ->
  let b' := with_pcur (pcur b + n) b in
  frame Producer b b' /\ publish b b' sent = sent ++ ring_range b (pcur b) n /\ mem_ok b' (publish b b' sent).
Proof.
  intros [G1 G2 G3 G4 G5 G6 G7 G8 G9] Hn Hr b'. unfold has_room in Hr.
  assert (Hp : publish b b' sent = sent ++ ring_range b (pcur b) n).
  { unfold publish, b'. cbn. by replace (pcur b + n - pcur b) with n by lia. }
  split; [|split; [done|]].
  - split; auto; try done; cbn; lia.
  - rewrite Hp. split; auto; cbn.
    + rewrite zlen_app, zlen_ring_range by done. lia.
    + lia.
    + intros i Hi. change (ring_at b' i) with (ring_at b i). rewrite zat_app by lia.
      destruct (i <? zlen sent) eqn:E; [apply G9; lia|].
      rewrite zat_ring_range by lia. f_equal. lia.
Qed.

(** a published window is a piece of what was sent *)
Lemma ring_sent b sent a n :
  mem_ok b sent -> ccur b <= a -> 0 <= n -> a + n <= pcur b -> ring_range b a n = subseq sent a n.
Proof.
  intros Hm Ha Hn Hp. pose proof (mo_sent _ _ Hm). pose proof (mo_cur _ _ Hm).
  apply zat_ext; rewrite zlen_ring_range by done; [by rewrite zlen_subseq by lia|].
  intros i Hi. rewrite zat_ring_range, zat_subseq by lia. apply (mo_ring _ _ Hm). lia.
Qed.

(** ** The producer's assertions *)

(** [Write p] when [base] had been published *)
Definition write_ok (b : buffer) (base sent p : list Z) (pc : write_pc) : Prop :=
  match pc with
  | WrDone => sent = base
  | WrWait w => sent = base /\ wfs_ok b (zlen p) w
  | WrCopy start => sent = base /\ start = pcur b /\ has_room b (zlen p)
  | WrSet start total =>
      sent = base /\ start = pcur b /\ has_room b (zlen p) /\ total = zlen p /\ ring_range b (pcur b) (zlen p) = p
  | WrSig s total => sent = base ++ p /\ sig_ok Producer CCond b s /\ total = zlen p
  end.

(** after a [Write] of [p] without error, [p] is the last thing published *)
Definition wrote_ok (base sent p : list Z) (r : Z * option error) : Prop :=
  match r with
  | (n, None) => n = zlen p /\ sent = base ++ p
  | (_, Some e) => e = EOF /\ sent = base
  end.

Lemma Write_step_ok b base sent p pc :
  mem_ok b sent -> zlen sent < 2 ^ 62 -> zlen p < 2 ^ 62 -> write_ok b base sent p pc ->
  ok_step Producer b sent (Write_step b p pc) (fun b' sent' r =>
    match r with Run pc' => write_ok b' base sent' p pc' | Fin res => wrote_ok base sent' p res end).
Proof.
  intros Hm Hb Hlp Hp. pose proof (zlen_nonneg p) as Hp0. pose proof (mem_pos _ _ Hm) as Hsz.
  pose proof (mo_cur _ _ Hm) as Hcur. pose proof (mo_room _ _ Hm) as Hroom. pose proof (mo_sent _ _ Hm) as Hsent.
  destruct pc as [|w|start|start total|s total]; cbn [Write_step write_ok] in *.
  - destruct (isDone b); unfold run, fin; apply ok_quiet; auto using quiet_refl; done.
  - destruct Hp as [<- Hp]. eapply ok_call; [by apply wfs_step_ok| |].
    + intros b' sent' l (_ & -> & H). done.
    + intros b' sent' [[start cnt] [e|]] (_ & -> & H); [done|]. destruct H as (-> & _ & H). done.
  - destruct Hp as (<- & -> & Hr). rewrite (mem_mask _ sent) by done.
    destruct (ringCopy_ring (buf b) p (pcur b) (size b)) as (d & E & Hd & Hin & Hout);
      [apply Hm|lia|unfold has_room in Hr; lia|].
    rewrite E. cbn [try]. unfold run.
    destruct (with_buf_ok b sent d (zlen p) Hm Hr Hd Hout) as [F M]. cbn. rewrite publish_same by done.
    split; [done|]. split; [done|]. split_and!; [done..|].
    apply zat_ext; rewrite zlen_ring_range by lia; [done|]. intros i Hi. rewrite zat_ring_range by lia. by apply Hin.
  - destruct Hp as (<- & -> & Hr & -> & Hpr). unfold run. rewrite i64_small by (unfold has_room in Hr; lia).
    destruct (set_pcur_ok b sent (zlen p) Hm Hp0 Hr) as (F & Hpub & M). split; [done|]. split; [done|].
    split; [by rewrite Hpub, Hpr|]. done.
  - destruct Hp as (-> & Hs & ->). eapply ok_call; [by apply signal_ok| |].
    + intros b' sent' l (_ & -> & H). done.
    + intros b' sent' [] (_ & -> & _). done.
Qed.

(** [WriteCommit (zlen bs)] when [base] had been published and the next slots hold [bs] *)
Definition commit_ok (b : buffer) (sent base bs : list Z) (pc : commit_pc) : Prop :=
  match pc with
  | CmWait w => wfs_ok b (zlen bs) w /\ sent = base /\ ring_range b (pcur b) (zlen bs) = bs
  | CmSet start cnt =>
      start = pcur b /\ cnt = zlen bs /\ has_room b (zlen bs) /\ sent = base /\
      ring_range b (pcur b) (zlen bs) = bs
  | CmSig s cnt => sig_ok Producer CCond b s /\ cnt = zlen bs /\ sent = base ++ bs
  end.

Definition committed_ok (sent base bs : list Z) (r : Z * option error) : Prop :=
  match r with
  | (cnt, None) => cnt = zlen bs /\ sent = base ++ bs
  | (_, Some e) => e = EOF /\ sent = base
  end.

Lemma ring_range_quiet me b b' pos n : quiet me b b' -> ring_range b' pos n = ring_range b pos n.
Proof. intros Hq. unfold ring_range, ring_at. by rewrite (q_buf _ _ _ Hq), (q_size _ _ _ Hq). Qed.

Lemma WriteCommit_step_ok b sent base bs pc :
  mem_ok b sent -> zlen sent < 2 ^ 62 -> zlen bs < 2 ^ 62 -> commit_ok b sent base bs pc ->
  ok_step Producer b sent (WriteCommit_step b (zlen bs) pc) (fun b' sent' r =>
    match r with Run pc' => commit_ok b' sent' base bs pc' | Fin res => committed_ok sent' base bs res end).
Proof.
  intros Hm Hb Hn Hp. pose proof (zlen_nonneg bs) as Hn0. pose proof (mem_pos _ _ Hm) as Hsz.
  pose proof (mo_cur _ _ Hm) as Hcur. pose proof (mo_sent _ _ Hm) as Hsent.
  destruct pc as [w|start cnt|s cnt]; cbn [WriteCommit_step commit_ok] in *.
  - destruct Hp as (Hw & Hs & Hr). eapply ok_call; [by apply wfs_step_ok| |].
    + intros b' sent' l (H1 & -> & H3). split; [done|]. split; [done|].
      by rewrite (q_pcur _ _ _ H1), (ring_range_quiet _ _ _ _ _ H1).
    + intros b' sent' [[start cnt] [e|]] (H1 & -> & H3); [done|]. destruct H3 as (-> & -> & H3).
      split_and!; try done. by rewrite (q_pcur _ _ _ H1), (ring_range_quiet _ _ _ _ _ H1).
  - destruct Hp as (-> & -> & Hr & Hs & Hbs). unfold run. rewrite i64_small by (unfold has_room in Hr; lia).
    destruct (set_pcur_ok b sent (zlen bs) Hm ltac:(lia) Hr) as (F & Hpub & M). split; [done|]. split; [done|].
    split; [done|]. split; [done|]. by rewrite Hpub, Hbs, Hs.
  - destruct Hp as (Hs & -> & Hse). eapply ok_call; [by apply signal_ok| |].
    + intros b' sent' l (H1 & -> & H). done.
    + intros b' sent' [] (H1 & -> & _). done.
Qed.

(** the region a [WriteWait n] grants: unpublished slots from the cursor on *)
Definition grant_ok (b : buffer) (v : view) : Prop :=
  match v with
  | VBuf off n => off = pcur b mod size b /\ 0 <= n /\ off + n <= size b /\ has_room b n
  | _ => False
  end.

Definition waited_ok (b : buffer) (n : Z) (r : view * bool * option error) : Prop :=
  match r with
  | (v, wrap, None) =>
      grant_ok b v /\ if wrap then size b < pcur b mod size b + n else v = VBuf (pcur b mod size b) n
  | (_, _, Some e) => e = EOF
  end.

Lemma buf_view_ok b a z : 0 <= a <= z -> z <= zlen (buf b) -> buf_view b a z = Ret (VBuf a (z - a)).
Proof. intros Ha Hz. unfold buf_view, subslice. by guard_true. Qed.

Lemma WriteWait_step_ok b sent n w :
  mem_ok b sent -> zlen sent < 2 ^ 62 -> 0 <= n < 2 ^ 62 -> wfs_ok b n w ->
  ok_step Producer b sent (WriteWait_step b n w) (fun b' sent' r =>
    sent' = sent /\ match r with Run w' => wfs_ok b' n w' | Fin res => waited_ok b' n res end).
Proof.
  intros Hm Hb Hn Hw. pose proof (wfs_step_ok b sent n w Hm Hb Hn Hw) as H. unfold WriteWait_step.
  destruct (wfs_step b n w) as [[[b' [w'|[[start cnt] [e|]]]]|p]|]; try done; destruct H as (H1 & H2 & H3 & H4 & H5).
  - split; [done|]. split; [done|]. done.
  - split; [done|]. split; [done|]. done.
  - destruct H5 as (-> & -> & Hr). rewrite H4 in H2. pose proof (mem_pos _ _ H2) as Hsz.
    pose proof (Z.mod_pos_bound (pcur b') (size b')) as Hmod. pose proof (mo_buf _ _ H2) as Hbuf.
    rewrite (mem_mask _ sent) by done. rewrite i64_small by lia.
    unfold has_room in Hr. destruct (_ <? _) eqn:E; rewrite buf_view_ok by lia; cbn [try]; unfold fin; (split; [done|]);
      rewrite H4; (split; [done|]); (split; [done|]); cbn; unfold has_room.
    + split_and!; lia.
    + split_and!; try lia. f_equal. lia.
Qed.

Lemma reader_Read_le r l r' bs err : 0 <= l -> reader_Read r l = (r', bs, err) -> zlen bs <= l.
Proof.
  intros Hl. unfold reader_Read. destruct r as [|[cs e] r]; [intros [= <- <- <-]; done|].
  destruct (zlen cs <=? l) eqn:E; intros [= <- <- <-]; [lia|]. zl.
Qed.

(** [got] is what the reader has delivered; all of it is published, except the last
    chunk while it is being committed *)
Definition published (base sent got : list Z) : Prop := sent = base ++ got.
Definition published_init (base sent got : list Z) : Prop := exists gs bs, got = gs ++ bs /\ published base sent gs.

(** [base]: what was published before the call *)
Definition readfrom_ok (b : buffer) (base sent : list Z) (pc : readfrom_pc) : Prop :=
  match pc with
  | RfTop r total got => published base sent got
  | RfWait r total got w => wfs_ok b defaultReadBlockSize w /\ published base sent got
  | RfRead r total got start cnt =>
      start = pcur b /\ cnt = defaultReadBlockSize /\ has_room b cnt /\ published base sent got
  | RfCommit r total got bs err c =>
      exists gs, got = gs ++ bs /\ 0 < zlen bs <= defaultReadBlockSize /\
        commit_ok b sent (base ++ gs) bs c
  | RfClose c res got => close_ok Producer b c /\ published_init base sent got
  end.

Lemma published_all base sent got : published base sent got -> published_init base sent got.
Proof. intros H. exists got, []. by rewrite app_nil_r. Qed.

Lemma rf_again_ok b base sent r total got err :
  published base sent got ->
  match rf_again r total got err with
  | Run pc' => readfrom_ok b base sent pc'
  | Fin (res, got) => published_init base sent got
  end.
Proof. intros H. destruct err as [e|]; cbn; [|done]. split; [done|]. by apply published_all. Qed.

Lemma ReadFrom_step_ok b base sent pc :
  mem_ok b sent -> zlen sent < 2 ^ 62 -> readfrom_ok b base sent pc ->
  ok_step Producer b sent (ReadFrom_step b pc) (fun b' sent' r =>
    match r with Run pc' => readfrom_ok b' base sent' pc' | Fin (_, got) => published_init base sent' got end).
Proof.
  intros Hm Hb Hp. pose proof (mem_pos _ _ Hm) as Hsz.
  destruct pc as [r total got|r total got w|r total got start cnt|r total got bs err c|c res got];
    cbn [ReadFrom_step readfrom_ok] in *.
  - destruct (isDone b); unfold run, rf_return; apply ok_quiet; auto using quiet_refl; try done.
    split; [done|]. by apply published_all.
  - destruct Hp as [Hw Hpub].
    eapply ok_call; [by apply (wfs_step_ok b sent defaultReadBlockSize)| |].
    + intros b' sent' l (_ & -> & H). done.
    + intros b' sent' [[start cnt] [e|]] (_ & -> & H); cbn; [split; [done|by apply published_all]|].
      by destruct H as (-> & -> & H).
  - destruct Hp as (-> & -> & Hr & Hpub). rewrite (mem_mask _ sent) by done. cbv zeta.
    pose proof (Z.mod_pos_bound (pcur b) (size b) ltac:(lia)) as Hmod. pose proof (mo_buf _ _ Hm) as Hbuf.
    assert (Hblk : defaultReadBlockSize = 8192) by reflexivity. rewrite i64_small by lia.
    set (pend := if _ <? _ then _ else _).
    assert (Hpend : pcur b mod size b <= pend <= size b /\ pend - pcur b mod size b <= 8192).
    { unfold pend. destruct (_ <? _) eqn:E; lia. }
    unfold subslice. guard_true. cbn [try]. set (region := take _ _).
    assert (Hreg : zlen region = pend - pcur b mod size b) by (unfold region; zl).
    destruct (reader_Read r (zlen region)) as [[r' bs] err] eqn:Er.
    apply reader_Read_le in Er; [|lia]. pose proof (zlen_nonneg bs) as Hb0.
    destruct (put (buf b) _ bs) as [d|p] eqn:Ep; [|unfold put in Ep; revert Ep; by guard_true]. cbn [try].
    apply (put_ring _ _ _ _ (size b)) in Ep as (Hd & Hin & Hout); [|done|lia].
    assert (Hr' : has_room b (zlen bs)) by (unfold has_room in *; lia).
    destruct (with_buf_ok b sent d (zlen bs) Hm Hr' Hd Hout) as [F M].
    unfold run. destruct (0 <? zlen bs) eqn:E; (split; [done|]); rewrite publish_same by done; (split; [done|]).
    + exists got. split; [done|]. split; [lia|]. cbn. split; [done|]. split; [done|].
      apply zat_ext; rewrite zlen_ring_range by lia; [done|]. intros i Hi. rewrite zat_ring_range by lia. by apply Hin.
    + apply (rf_again_ok (with_buf d b) base) with (r:=r') (total:=total) (err:=err) in Hpub. done.
  - destruct Hp as (gs & -> & Hlb & Hc). unfold defaultReadBlockSize in Hlb.
    eapply ok_call; [apply (WriteCommit_step_ok b sent (base ++ gs) bs c); [done..|lia|done]| |].
    + intros b' sent' l H. exists gs. done.
    + intros b' sent' [cnt [e|]] [H1 H2]; cbn.
      * split; [done|]. by exists gs, bs.
      * apply rf_again_ok. unfold published. by rewrite H2, app_assoc.
  - destruct Hp as [Hc Hpub]. eapply ok_call; [by apply close_step_ok| |].
    + intros b' sent' l (_ & -> & H). done.
    + intros b' sent' [] (_ & -> & _). done.
Qed.

(** ** The consumer's assertions *)

Definition kw_ok (b : buffer) (pc : kw_pc) : Prop :=
  match pc with
  | KLock (Some ppos) => ppos <= pcur b
  | KLock None | KAsleep => True
  | KTest ppos => mutex b CCond = Some Consumer /\ ppos <= pcur b
  | KLoad | KTestDone | KPark => mutex b CCond = Some Consumer
  end.

(** the cursor that is tested is loaded under the mutex *)
Definition reloads (pc : kw_pc) : Prop := match pc with KLock (Some _) => False | _ => True end.

Lemma kw_step_ok b sent wait count pc :
  mem_ok b sent -> kw_ok b pc ->
  ok_step Consumer b sent (kw_step b wait count pc) (fun b' sent' r =>
    quiet Consumer b b' /\ sent' = sent /\
    match r with
    | Run pc' => kw_ok b' pc' /\ reloads pc'
    | Fin (inl ppos) => ppos <= pcur b' /\ wait ppos = false
    | Fin (inr e) => e = EOF
    end).
Proof.
  intros Hm Hp. destruct pc as [[ppos|]| |ppos| | |]; cbn [kw_step kw_ok] in *; unfold run, fin.
  - apply ok_Lock. intros b' Hq Hl. apply ok_quiet; [done..|]. split; [done|]. split; [done|].
    split; [|done]. split; [done|]. by rewrite (q_pcur _ _ _ Hq).
  - apply ok_Lock. intros b' Hq Hl. apply ok_quiet; [done..|]. done.
  - apply ok_quiet; [apply quiet_refl|done|]. split; [apply quiet_refl|]. split; [done|].
    split; [|done]. split; [done|]. lia.
  - destruct Hp as [Hl Hle]. destruct (wait ppos) eqn:E.
    + apply ok_quiet; [apply quiet_refl|done|]. split; [apply quiet_refl|]. done.
    + apply ok_Unlock; [done|apply quiet_refl|]. intros b' Hq. apply ok_quiet; [done..|].
      split; [done|]. split; [done|]. split; [by rewrite (q_pcur _ _ _ Hq)|done].
  - destruct (isDone b); apply ok_quiet; auto using quiet_refl; (split; [apply quiet_refl|done]).
  - apply ok_Unlock; [by destruct count| |].
    + destruct count; [eapply quiet_trans; [apply quiet_cwait|]|]; apply quiet_park_consumer.
    + intros b' Hq. apply ok_quiet; [done..|]. done.
  - destruct (parked b CCond); [done|]. apply ok_Lock. intros b' Hq Hl. apply ok_quiet; [done..|]. done.
Qed.

Lemma set_ccur_ok b sent c :
  mem_ok b sent -> ccur b <= c <= pcur b ->
  let b' := with_ccur c b in
  frame Consumer b b' /\ publish b b' sent = sent /\ mem_ok b' sent.
Proof.
  intros [G1 G2 G3 G4 G5 G6 G7 G8 G9] Hc b'. split; [|split; [by apply publish_same|]].
  - split; auto; try done; cbn; lia.
  - split; auto; cbn; try lia. intros i Hi. apply G9. lia.
Qed.

Lemma with_tmp_ok b sent x :
  mem_ok b sent -> frame Consumer b (with_tmp x b) /\ mem_ok (with_tmp x b) sent.
Proof.
  intros [G1 G2 G3 G4 G5 G6 G7 G8 G9]. split; [|by split].
  split; auto; try done; cbn; lia.
Qed.

(** [out] is what was sent just before the consumer's cursor *)
Definition consumed (b : buffer) (sent out : list Z) : Prop :=
  zlen out <= ccur b /\ out = subseq sent (ccur b - zlen out) (zlen out).

Definition read_ok (b : buffer) (sent : list Z) (pl : Z) (pc : read_pc) : Prop :=
  match pc with
  | RdDone | RdLen | RdLoad => True
  | RdCopy cpos None => cpos = ccur b /\ ccur b + pl < pcur b
  | RdCopy cpos (Some n) => cpos = ccur b /\ 0 < n <= pl /\ ccur b + n <= pcur b
  | RdSet cpos out =>
      cpos = ccur b /\ ccur b + zlen out <= pcur b /\ out = subseq sent (ccur b) (zlen out) /\
      zlen out <= pl /\ (0 < pl -> 0 < zlen out)
  | RdSig s out => sig_ok Consumer PCond b s /\ consumed b sent out /\ zlen out <= pl /\ (0 < pl -> 0 < zlen out)
  | RdWait cpos k => cpos = ccur b /\ kw_ok b k /\ reloads k
  end.

Definition was_read (b : buffer) (sent : list Z) (pl : Z) (r : list Z * option error) : Prop :=
  match r with
  | (out, None) => consumed b sent out /\ zlen out <= pl /\ (0 < pl -> 0 < zlen out)
  | (out, Some e) => out = [] /\ e = EOF
  end.

Lemma consumed_quiet me b b' sent out : quiet me b b' -> consumed b sent out -> consumed b' sent out.
Proof. intros Hq [H1 H2]. unfold consumed. by rewrite (q_ccur _ _ _ Hq). Qed.

Lemma take_subseq l a n m : 0 <= m <= n -> take (Z.to_nat m) (subseq l a n) = subseq l a m.
Proof. intros H. unfold subseq. rewrite take_take. f_equal. lia. Qed.

(** [copy(p, buf[cindex:stop])] *)
Lemma read_copy b sent pl stop :
  mem_ok b sent -> 0 <= pl -> ccur b mod size b <= stop <= size b ->
  let m := Z.min pl (stop - ccur b mod size b) in
  ccur b + m <= pcur b ->
  exists src, subslice (buf b) (ccur b mod size b) stop = Ret src /\
    take (Z.to_nat pl) src = subseq sent (ccur b) m /\ zlen (subseq sent (ccur b) m) = m.
Proof.
  intros Hm Hpl Hst m Hle. pose proof (mem_pos _ _ Hm) as Hsz. pose proof (mo_cur _ _ Hm) as Hcur.
  pose proof (mo_buf _ _ Hm) as Hbuf. pose proof (Z.mod_pos_bound (ccur b) (size b) ltac:(lia)) as Hmod.
  pose proof (mo_sent _ _ Hm) as Hsent. unfold subslice. guard_true. eexists. split; [done|].
  fold (subseq (buf b) (ccur b mod size b) (stop - ccur b mod size b)).
  assert (Hm0 : 0 <= m) by lia. split; [|by rewrite zlen_subseq by lia].
  rewrite <- (ring_sent b sent) by (done || lia). rewrite <- subseq_ring by lia.
  destruct (Z_le_dec pl (stop - ccur b mod size b)).
  - replace m with pl by lia. apply take_subseq. lia.
  - replace m with (stop - ccur b mod size b) by lia. apply take_all_zlen. rewrite zlen_subseq; lia.
Qed.

Lemma Read_step_ok b sent pl pc :
  mem_ok b sent -> zlen sent < 2 ^ 62 -> 0 <= pl < 2 ^ 62 -> read_ok b sent pl pc ->
  ok_step Consumer b sent (Read_step b pl pc) (fun b' sent' r =>
    match r with Run pc' => read_ok b' sent' pl pc' | Fin res => was_read b' sent' pl res end).
Proof.
  intros Hm Hb Hpl Hp. pose proof (mem_pos _ _ Hm) as Hsz. pose proof (mo_cur _ _ Hm) as Hcur.
  pose proof (mo_sent _ _ Hm) as Hsent. pose proof (mo_room _ _ Hm) as Hroom. pose proof (mo_buf _ _ Hm) as Hbuf.
  pose proof (Z.mod_pos_bound (ccur b) (size b) ltac:(lia)) as Hmod.
  assert (Hstay : forall r : next read_pc (list Z * option error),
    match r with Run pc' => read_ok b sent pl pc' | Fin res => was_read b sent pl res end ->
    ok_step Consumer b sent (Some (Ret (b, r))) (fun b' sent' r =>
      match r with Run pc' => read_ok b' sent' pl pc' | Fin res => was_read b' sent' pl res end)).
  { intros r Hr. apply ok_quiet; [apply quiet_refl|done|done]. }
  destruct pc as [| | |cpos avail|cpos out|s out|cpos k]; cbn [Read_step]; unfold run, fin.
  - apply Hstay. by destruct (isDone b).
  - destruct (_ =? _); by apply Hstay.
  - rewrite i64_small by lia. destruct (_ <? _) eqn:E1; [apply Hstay; cbn; lia|].
    destruct (ccur b <? pcur b) eqn:E2; apply Hstay; cbn; [|done]. rewrite i64_small by lia. lia.
  - rewrite (mem_mask _ sent) by done.
    set (stop := match avail with Some _ => _ | None => _ end).
    assert (Hc : cpos = ccur b) by (destruct avail; apply Hp). subst cpos.
    assert (Hst : ccur b mod size b <= stop <= size b /\
                  ccur b + Z.min pl (stop - ccur b mod size b) <= pcur b /\
                  (0 < pl -> 0 < Z.min pl (stop - ccur b mod size b))).
    { unfold stop. destruct avail as [n|]; cbn in Hp; [|lia]. rewrite i64_small by lia.
      destruct (ccur b mod size b + n <? size b) eqn:E; lia. }
    destruct Hst as (Hst1 & Hst2 & Hst3).
    destruct (read_copy b sent pl stop Hm ltac:(lia) Hst1 Hst2) as (src & E & Ht & Hl).
    rewrite E. cbn [try]. rewrite Ht. apply Hstay. cbn. rewrite Hl. split_and!; try done. lia.
  - destruct Hp as (-> & Hle & Hout & Hpl1 & Hpl2). pose proof (zlen_nonneg out) as Ho0. rewrite i64_small by lia.
    destruct (set_ccur_ok b sent (ccur b + zlen out) Hm ltac:(lia)) as (F & Hpub & M). cbn. rewrite Hpub.
    split; [done|]. split; [done|]. split; [done|]. split; [|done]. unfold consumed. cbn. split; [lia|].
    by replace (ccur b + zlen out - zlen out) with (ccur b) by lia.
  - destruct Hp as (Hs & Hc & Hpl1). eapply ok_call; [by apply signal_ok| |].
    + intros b' sent' l (H1 & -> & H). split; [done|]. split; [by eapply consumed_quiet|done].
    + intros b' sent' [] (H1 & -> & _). split; [by eapply consumed_quiet|done].
  - destruct Hp as (-> & Hk & _). eapply ok_call; [by apply kw_step_ok| |].
    + intros b' sent' l (H1 & -> & H). split; [symmetry; apply H1|done].
    + intros b' sent' [ppos|e] (_ & -> & H); [done|]. by subst e.
Qed.

(** ** Slices of the ring handed to the consumer *)

(** [v] shows the next [m] bytes *)
Definition view_at (b : buffer) (sent : list Z) (v : view) (m : Z) : Prop :=
  0 <= m /\ ccur b + m <= pcur b /\
  match v with
  | VNil => m = 0
  | VBuf off n => n = m /\ off = ccur b mod size b /\ off + m <= size b
  | VTmp n => n = m /\ tmp b = subseq sent (ccur b) m
  end.

Lemma view_at_read b sent v m : mem_ok b sent -> view_at b sent v m -> read_view b v = subseq sent (ccur b) m.
Proof.
  intros Hm (H0 & Hle & Hv). pose proof (mem_pos _ _ Hm). pose proof (mo_cur _ _ Hm). pose proof (mo_sent _ _ Hm).
  destruct v as [|off n|n]; cbn [read_view].
  - subst m. done.
  - destruct Hv as (-> & -> & Hw). rewrite <- (ring_sent b sent) by (done || lia).
    rewrite <- subseq_ring by (done || lia || apply Hm). done.
  - destruct Hv as (-> & ->). apply take_all_zlen. rewrite zlen_subseq; lia.
Qed.

(** the slice is still good after a step of another thread *)
Lemma view_at_frame me b b' sent sent' v m :
  me <> Consumer -> frame me b b' -> (exists x, sent' = sent ++ x) -> mem_ok b sent ->
  view_at b sent v m -> view_at b' sent' v m.
Proof.
  intros Hme F [x ->] Hm (H0 & Hle & Hv). destruct (fr_cons _ _ _ F Hme) as [Hc Ht].
  pose proof (fr_pcur _ _ _ F). pose proof (mo_sent _ _ Hm). pose proof (mo_cur _ _ Hm).
  unfold view_at. rewrite Hc, (fr_size _ _ _ F), Ht. split; [done|]. split; [lia|].
  destruct v; [done|done|]. destruct Hv as (-> & ->). split; [done|]. by rewrite subseq_app by lia.
Qed.

Lemma contiguous_ok b sent m (err : option error) :
  mem_ok b sent -> zlen sent < 2 ^ 62 -> 0 <= m -> ccur b + m <= pcur b ->
  ok_step Consumer b sent (contiguous b (ccur b) m (fun b v => fin b (v, err))) (fun b' sent' r =>
    sent' = sent /\ ccur b' = ccur b /\
    match r with Run _ => False | Fin (v, err') => view_at b' sent v m /\ err' = err end).
Proof.
  intros Hm Hb Hm0 Hle. pose proof (mem_pos _ _ Hm) as Hsz. pose proof (mo_cur _ _ Hm) as Hcur.
  pose proof (mo_buf _ _ Hm) as Hbuf. pose proof (Z.mod_pos_bound (ccur b) (size b) ltac:(lia)) as Hmod.
  pose proof (mo_sent _ _ Hm) as Hsent. pose proof (mo_room _ _ Hm) as Hroom.
  unfold contiguous. rewrite (mem_mask _ sent) by done. rewrite i64_small by lia. destruct (_ <? _) eqn:E.
  - unfold subslice at 1. guard_true. cbn [try].
    fold (subseq (buf b) (ccur b mod size b) (zlen (buf b) - ccur b mod size b)).
    set (x := subseq _ _ _). assert (Hx : zlen x = size b - ccur b mod size b) by (unfold x; rewrite zlen_subseq; lia).
    rewrite Hx. rewrite i64_small by lia. unfold subslice. guard_true. cbn [try].
    rewrite Z.sub_0_r. fold (subseq (buf b) 0 (m - (size b - ccur b mod size b))). unfold x. rewrite Hbuf.
    rewrite subseq_ring_wrap by (done || lia). unfold fin.
    destruct (with_tmp_ok b sent (ring_range b (ccur b) m) Hm) as [F M]. split; [done|].
    rewrite publish_same by done. split; [done|]. split; [done|]. split; [done|]. split; [|done]. cbn.
    split_and!; try done; [by rewrite zlen_ring_range|]. apply ring_sent; done || lia.
  - rewrite buf_view_ok by lia. cbn [try]. unfold fin. apply ok_quiet; [apply quiet_refl|done|].
    split; [done|]. split; [done|]. split; [|done]. split_and!; try done; lia.
Qed.

Definition peek_ok (b : buffer) (n : Z) (pc : peek_pc) : Prop :=
  match pc with
  | PkEnter => True
  | PkWait cpos k => 0 <= n <= size b /\ cpos = ccur b /\ kw_ok b k
  | PkView cpos ppos => 0 <= n <= size b /\ cpos = ccur b /\ cpos < ppos <= pcur b
  end.

(** a peek shows all that is asked for, or, with the error, less *)
Definition peeked_ok (b : buffer) (sent : list Z) (n : Z) (r : view * option error) : Prop :=
  match r with
  | (v, None) => view_at b sent v n
  | (v, Some e) => v = VNil \/ (e = ErrBufferInsufficientData /\ exists m, 0 < m < n /\ view_at b sent v m)
  end.

Lemma ReadPeek_step_ok b sent n pc :
  mem_ok b sent -> zlen sent < 2 ^ 62 -> peek_ok b n pc ->
  ok_step Consumer b sent (ReadPeek_step b n pc) (fun b' sent' r =>
    sent' = sent /\ ccur b' = ccur b /\
    match r with Run pc' => peek_ok b' n pc' | Fin res => peeked_ok b' sent' n res end).
Proof.
  intros Hm Hb Hp. pose proof (mem_pos _ _ Hm) as Hsz. pose proof (mo_cur _ _ Hm) as Hcur.
  pose proof (mo_sent _ _ Hm) as Hsent.
  destruct pc as [|cpos k|cpos ppos]; cbn [ReadPeek_step]; unfold run, fin.
  - destruct (size b <? n) eqn:E1; [|destruct (n <? 0) eqn:E2]; (apply ok_quiet; [apply quiet_refl|done|]);
      (split; [done|]); (split; [done|]); [by left|by left|]. split; [lia|]. split; [done|]. cbn. lia.
  - destruct Hp as (Hn & -> & Hk). eapply ok_call; [by apply kw_step_ok| |].
    + intros b' sent' l (H1 & -> & H). split; [done|]. split; [apply H1|]. split; [by rewrite (q_size _ _ _ H1)|].
      split; [symmetry; apply H1|apply H].
    + intros b' sent' [ppos|e] (H1 & -> & H); (split; [done|]); (split; [apply H1|]); [|by left].
      cbn. rewrite (q_size _ _ _ H1), (q_ccur _ _ _ H1). lia.
  - destruct Hp as (Hn & -> & Hle). rewrite (i64_small (ppos - ccur b)) by lia.
    destruct (n <=? ppos - ccur b) eqn:E; (rewrite i64_small by lia); guard_true.
    + eapply ok_call; [apply (contiguous_ok b sent n None Hm Hb); lia| |].
      * intros b' sent' [] (_ & _ & []).
      * intros b' sent' [v err] (-> & Hc & Hv & ->). done.
    + eapply ok_call; [apply (contiguous_ok b sent (ppos - ccur b) (Some ErrBufferInsufficientData) Hm Hb); lia| |].
      * intros b' sent' [] (_ & _ & []).
      * intros b' sent' [v err] (-> & Hc & Hv & ->). split; [done|]. split; [done|]. right. split; [done|].
        exists (ppos - ccur b). split; [lia|done].
Qed.

Definition wait_ok (b : buffer) (n : Z) (pc : peek_pc) : Prop :=
  match pc with
  | PkEnter => True
  | PkWait cpos k => 0 <= n <= size b /\ cpos = ccur b /\ kw_ok b k
  | PkView cpos ppos => 0 <= n <= size b /\ cpos = ccur b /\ cpos + n <= pcur b
  end.

Definition rwaited_ok (b : buffer) (sent : list Z) (n : Z) (r : view * option error) : Prop :=
  match r with (v, None) => view_at b sent v n | (v, Some _) => v = VNil end.

Lemma ReadWait_step_ok b sent n pc :
  mem_ok b sent -> zlen sent < 2 ^ 62 -> wait_ok b n pc ->
  ok_step Consumer b sent (ReadWait_step b n pc) (fun b' sent' r =>
    sent' = sent /\ ccur b' = ccur b /\
    match r with Run pc' => wait_ok b' n pc' | Fin res => rwaited_ok b' sent' n res end).
Proof.
  intros Hm Hb Hp. pose proof (mem_pos _ _ Hm) as Hsz. pose proof (mo_cur _ _ Hm) as Hcur.
  pose proof (mo_sent _ _ Hm) as Hsent.
  destruct pc as [|cpos k|cpos ppos]; cbn [ReadWait_step]; unfold run, fin.
  - destruct (size b <? n) eqn:E1; [|destruct (n <? 0) eqn:E2]; (apply ok_quiet; [apply quiet_refl|done|]);
      (split; [done|]); (split; [done|]); [done|done|]. split; [lia|]. split; [done|]. cbn. lia.
  - destruct Hp as (Hn & -> & Hk). eapply ok_call; [by apply kw_step_ok| |].
    + intros b' sent' l (H1 & -> & H). split; [done|]. split; [apply H1|]. split; [by rewrite (q_size _ _ _ H1)|].
      split; [symmetry; apply H1|apply H].
    + intros b' sent' [ppos|e] (H1 & -> & H); (split; [done|]); (split; [apply H1|]); [|done].
      destruct H as [H2 H3]. cbn. rewrite i64_small in H3 by lia.
      rewrite (q_size _ _ _ H1), (q_ccur _ _ _ H1). lia.
  - destruct Hp as (Hn & -> & Hle). eapply ok_call; [apply (contiguous_ok b sent n None Hm Hb); lia| |].
    + intros b' sent' [] (_ & _ & []).
    + intros b' sent' [v err] (-> & Hc & Hv & ->). done.
Qed.

(** ** [ReadCommit] and [WriteTo] *)

(** [c0]: the consumer's cursor when [ReadCommit n] was called *)
Definition rcommit_ok (b : buffer) (c0 n : Z) (pc : rcommit_pc) : Prop :=
  match pc with
  | RcEnter => ccur b = c0
  | RcSet cpos => cpos = ccur b /\ ccur b = c0 /\ 0 <= n <= size b /\ ccur b + n <= pcur b
  | RcSig s => sig_ok Consumer PCond b s /\ 0 <= n /\ ccur b = c0 + n
  end.

Definition rcommitted_ok (b : buffer) (c0 n : Z) (r : Z * option error) : Prop :=
  match r with
  | (cnt, None) => cnt = n /\ 0 <= n /\ ccur b = c0 + n
  | (_, Some _) => ccur b = c0 /\ (n < 0 \/ size b < n \/ pcur b < c0 + n)
  end.

Lemma ReadCommit_step_ok b sent c0 n pc :
  mem_ok b sent -> zlen sent < 2 ^ 62 -> rcommit_ok b c0 n pc ->
  ok_step Consumer b sent (ReadCommit_step b n pc) (fun b' sent' r =>
    sent' = sent /\ match r with Run pc' => rcommit_ok b' c0 n pc' | Fin res => rcommitted_ok b' c0 n res end).
Proof.
  intros Hm Hb Hp. pose proof (mem_pos _ _ Hm) as Hsz. pose proof (mo_cur _ _ Hm) as Hcur.
  pose proof (mo_sent _ _ Hm) as Hsent.
  destruct pc as [|cpos|s]; cbn [ReadCommit_step rcommit_ok] in *; unfold run, fin.
  - destruct (size b <? n) eqn:E1; [|destruct (n <? 0) eqn:E2; [|rewrite i64_small by lia; destruct (_ <=? _) eqn:E3]];
      (apply ok_quiet; [apply quiet_refl|done|]); (split; [done|]); cbn; lia.
  - destruct Hp as (-> & <- & Hn & Hle). rewrite i64_small by lia.
    destruct (set_ccur_ok b sent (ccur b + n) Hm ltac:(lia)) as (F & Hpub & M). cbn. rewrite Hpub.
    split; [done|]. split; [done|]. split; [done|]. split; [done|]. lia.
  - destruct Hp as (Hs & Hn & Hc). eapply ok_call; [by apply signal_ok| |].
    + intros b' sent' l (H1 & -> & H). split; [done|]. split; [done|]. split; [done|]. rewrite <- Hc. apply H1.
    + intros b' sent' [] (H1 & -> & _). split; [done|]. split; [done|]. split; [done|]. rewrite <- Hc. apply H1.
Qed.

(** [out] is what was sent from position [a] on, and the consumer's cursor follows it *)
Definition delivered (a : Z) (sent out : list Z) : Prop :=
  0 <= a /\ a + zlen out <= zlen sent /\ out = subseq sent a (zlen out).
Definition streamed (a : Z) (b : buffer) (sent out : list Z) : Prop := a + zlen out = ccur b /\ delivered a sent out.

(** [a]: the consumer's cursor when [WriteTo] was called *)
Definition writeto_ok (b : buffer) (a : Z) (sent : list Z) (pc : writeto_pc) : Prop :=
  match pc with
  | WtTop w total out => streamed a b sent out
  | WtPeek w total out k => streamed a b sent out /\ peek_ok b defaultWriteBlockSize k
  | WtWrite w total out v err => streamed a b sent out /\ exists m, m <= defaultWriteBlockSize /\ view_at b sent v m
  | WtCommit w total out n err c =>
      exists c0, rcommit_ok b c0 n c /\ 0 <= n <= defaultWriteBlockSize /\ c0 + n <= pcur b /\
        a + zlen out = c0 + n /\ delivered a sent out
  | WtClose c res out => close_ok Consumer b c /\ delivered a sent out
  end.

Lemma wt_again_ok b a sent w total out err :
  streamed a b sent out ->
  match wt_again w total out err with
  | Run pc' => writeto_ok b a sent pc'
  | Fin (res, out) => delivered a sent out
  end.
Proof.
  intros H. unfold wt_again. destruct err as [e|]; [|done]. destruct (bool_decide _); [done|].
  cbn. split; [done|]. apply H.
Qed.

Lemma writer_Write_range w p w' n e : writer_Write w p = (w', n, e) ->
  0 <= n <= zlen p /\ (e = None -> n = zlen p).
Proof.
  unfold writer_Write. pose proof (zlen_nonneg p).
  destruct w as [|[[k x]|] w]; intros [= <- <- <-]; split; try lia; done.
Qed.

(** what the writer takes continues what it got *)
Lemma streamed_more b a sent out v m n :
  mem_ok b sent -> streamed a b sent out -> view_at b sent v m -> 0 <= n <= m ->
  let out' := out ++ take (Z.to_nat n) (read_view b v) in
  zlen out' = zlen out + n /\ delivered a sent out'.
Proof.
  intros Hm (H0 & H1 & H2 & H3) Hv Hn. pose proof (mo_cur _ _ Hm). pose proof (mo_sent _ _ Hm). zlen_facts.
  rewrite (view_at_read _ _ _ _ Hm Hv), take_subseq by lia. destruct Hv as (Hv1 & Hv2 & _).
  unfold delivered. cbv zeta. rewrite zlen_app, zlen_subseq by lia. split; [done|]. split; [done|]. split; [lia|].
  rewrite <- subseq_glue by lia. rewrite <- H3. do 2 f_equal. lia.
Qed.

Lemma WriteTo_step_ok b a sent pc :
  mem_ok b sent -> zlen sent < 2 ^ 62 -> writeto_ok b a sent pc ->
  ok_step Consumer b sent (WriteTo_step b pc) (fun b' sent' r =>
    match r with Run pc' => writeto_ok b' a sent' pc' | Fin (_, out) => delivered a sent' out end).
Proof.
  intros Hm Hb Hp. pose proof (mem_pos _ _ Hm) as Hsz. pose proof (mo_block _ _ Hm) as Hblk.
  pose proof (mo_cur _ _ Hm) as Hcur. pose proof (mo_sent _ _ Hm) as Hsent.
  assert (Hw : defaultWriteBlockSize = 8192 /\ defaultReadBlockSize = 8192) by done. destruct Hw as [Hw1 Hw2].
  destruct pc as [w total out|w total out k|w total out v err|w total out n err c|c res out];
    cbn [WriteTo_step writeto_ok] in *.
  - destruct (isDone b); unfold run, wt_return; (apply ok_quiet; [apply quiet_refl|done|]); cbn; [|done].
    split; [done|]. apply Hp.
  - destruct Hp as [Hc Hk].
    eapply ok_call_frame; [by apply (ReadPeek_step_ok b sent defaultWriteBlockSize)| |].
    + intros b' sent' l _ _ (-> & H1 & H2). split; [|done]. unfold streamed. by rewrite H1.
    + intros b' sent' [v err] _ Hm' (-> & H1 & H2). split; [unfold streamed; by rewrite H1|].
      destruct err as [e|]; [|by exists defaultWriteBlockSize].
      destruct H2 as [->|(-> & m & Hm2 & Hv)]; [|by exists m; split; [lia|]].
      exists 0. split; [lia|]. pose proof (mo_cur _ _ Hm'). split_and!; lia.
  - destruct Hp as (Hc & m & Hm8 & Hv). pose proof (view_at_read _ _ _ _ Hm Hv) as Hrv.
    assert (Hlv : zlen (read_view b v) = m) by (destruct Hv as (? & ? & _); rewrite Hrv, zlen_subseq; lia).
    destruct (0 <? zlen (read_view b v)) eqn:E.
    + destruct (writer_Write w (read_view b v)) as [[w' n] werr] eqn:Ew. apply writer_Write_range in Ew as [Hn Hnone].
      destruct (streamed_more b a sent out v m n Hm Hc Hv ltac:(lia)) as (Hl & Hout).
      destruct Hv as (_ & Hv2 & _). destruct Hc as [Hc _].
      destruct werr as [e|]; unfold run, wt_return; (apply ok_quiet; [apply quiet_refl|done|]); cbn; [done|].
      exists (ccur b). split; [done|]. split_and!; try lia. exact Hout.
    + apply ok_quiet; [apply quiet_refl|done|]. by apply (wt_again_ok b a sent w total out err).
  - destruct Hp as (c0 & Hc & Hn & Hle & Hlo & Hout).
    eapply ok_call_frame; [by apply (ReadCommit_step_ok b sent c0 n c)| |].
    + intros b' sent' l F _ (-> & H). exists c0. pose proof (fr_pcur _ _ _ F). split_and!; try done; lia.
    + intros b' sent' [cnt [e|]] F Hm' (-> & H).
      * destruct H as (H1 & H2). pose proof (fr_pcur _ _ _ F). rewrite (fr_size _ _ _ F) in H2. lia.
      * destruct H as (-> & _ & H). apply wt_again_ok. split; [by rewrite H|done].
  - destruct Hp as [Hc Hd]. eapply ok_call; [by apply close_step_ok| |].
    + intros b' sent' l (_ & -> & H). done.
    + intros b' sent' [] (_ & -> & _). done.
Qed.

(** ** Steps that may panic, for the clients of the buffer *)

(** [keeps]: like [ok_step], of a step that may panic *)
Definition keeps {A} (me : thread) (b : buffer) (sent : list Z) (m : step (buffer * A))
    (Q : buffer -> list Z -> A -> Prop) : Prop :=
  forall b' a, m = Some (Ret (b', a)) ->
    frame me b b' /\ mem_ok b' (publish b b' sent) /\ Q b' (publish b b' sent) a.

Lemma ok_keeps {A} me b sent (m : step (buffer * A)) Q : ok_step me b sent m Q -> keeps me b sent m Q.
Proof. intros H b' a ->. exact H. Qed.

Lemma keeps_here {A} me b sent (a : A) (Q : buffer -> list Z -> A -> Prop) :
  mem_ok b sent -> Q b sent a -> keeps me b sent (Some (Ret (b, a))) Q.
Proof. intros Hm HQ. apply ok_keeps, ok_quiet; [apply quiet_refl|done..]. Qed.

Lemma keeps_run {L R} me b sent (l : L) (Q : buffer -> list Z -> next L R -> Prop) :
  mem_ok b sent -> Q b sent (Run l) -> keeps me b sent (run b l) Q.
Proof. apply keeps_here. Qed.

Lemma keeps_fin {L R} me b sent (r : R) (Q : buffer -> list Z -> next L R -> Prop) :
  mem_ok b sent -> Q b sent (Fin r) -> keeps me b sent (fin b r) Q.
Proof. apply keeps_here. Qed.

Lemma keeps_try {A B} me b sent (o : outcome A) (k : A -> step (buffer * B)) Q :
  (forall a, o = Ret a -> keeps me b sent (k a) Q) -> keeps me b sent (try o k) Q.
Proof. intros H. destruct o; [by apply H|by intros b' x]. Qed.

Lemma keeps_through {L R L' R'} me b sent (m : step (buffer * next L R)) (f : L -> L') (k : R -> next L' R')
    (Q : buffer -> list Z -> next L R -> Prop) (Q' : buffer -> list Z -> next L' R' -> Prop) :
  keeps me b sent m Q ->
  (forall b' sent' l, Q b' sent' (Run l) -> Q' b' sent' (Run (f l))) ->
  (forall b' sent' r, Q b' sent' (Fin r) -> Q' b' sent' (k r)) ->
  keeps me b sent (call m f k) Q'.
Proof.
  intros Hm Hf Hk b' a H. unfold call in H. destruct m as [[[b1 [l|r]]|p]|]; simplify_eq;
    destruct (Hm _ _ eq_refl) as (H1 & H2 & H3); auto.
Qed.
