(* ===== verification/BufferSys.v ===== *)
(** * BufferSys: every interleaving of the ring buffer's threads

    [sys] runs one producer, one consumer and one closer on the memory of [Buffer],
    one step of one of them at a time, in any order.  [sent] collects what the
    producer publishes.  The invariant [sys_ok] is proved by rely and guarantee: the
    steps of [BufferSpec] keep their thread's own assertions and a frame under which
    the assertions of the other threads are stable. *)
From stdpp Require Import base list strings.
From Stdlib Require Import ZArith Lia.
From S2P Require Import Prelude GoLang Pow2 Buffer BufferSpec.

(** ** One producer, one consumer, one closer *)

Inductive presult : Type :=
| PNone
| PWrote (p : list Z) (res : Z * option error)
| PWaited (n : Z) (res : view * bool * option error)
| PCommitted (n : Z) (res : Z * option error)
| PReadFrom (got : list Z) (res : Z * option error).

Inductive pstate : Type :=
| PIdle (r : presult)
| PWriting (p : list Z) (pc : write_pc)
| PWaiting (n : Z) (pc : wfs_pc)
| PCommitting (n : Z) (pc : commit_pc)
| PReadingFrom (pc : readfrom_pc).

Inductive cresult : Type :=
| CNone
| CRead (pl : Z) (res : list Z * option error)
| CPeeked (n : Z) (res : view * option error)
| CWaited (n : Z) (res : view * option error)
| CCommitted (n : Z) (res : Z * option error)
| CWroteTo (out : list Z) (res : Z * option error).

Inductive cstate : Type :=
| CIdle (r : cresult)
| CReading (pl : Z) (pc : read_pc)
| CPeeking (n : Z) (pc : peek_pc)
| CWaiting (n : Z) (pc : peek_pc)
| CCommitting (n : Z) (pc : rcommit_pc)
| CWritingTo (pc : writeto_pc).

Record sys : Type := mkSys {
  mem : buffer;
  prod : pstate;
  cons : cstate;
  closer : option close_pc;
  sent : list Z
}.

Inductive event : Type :=
| BeginWrite (p : list Z)
| BeginWriteWait (n : Z)
| BeginWriteCommit (n : Z)
| BeginReadFrom (r : reader)
| Fill (off : Z) (bs : list Z)   (* the caller of WriteWait stores into the slice it got *)
| BeginRead (pl : Z)
| BeginReadPeek (n : Z)
| BeginReadWait (n : Z)
| BeginReadCommit (n : Z)
| BeginWriteTo (w : writer)
| BeginClose
| Tick (t : thread).             (* one step of a thread *)

Definition start_p (s : sys) (p : pstate) : step sys :=
  match prod s with PIdle _ => Some (Ret (mkSys (mem s) p (cons s) (closer s) (sent s))) | _ => None end.
Definition start_c (s : sys) (c : cstate) : step sys :=
  match cons s with CIdle _ => Some (Ret (mkSys (mem s) (prod s) c (closer s) (sent s))) | _ => None end.

(** a step of the producer, with its program points and results wrapped *)
Definition tick_p {L R} (s : sys) (m : step (buffer * next L R)) (f : L -> pstate) (k : R -> presult) : step sys :=
  match m with
  | None => None
  | Some (Panic p) => Some (Panic p)
  | Some (Ret (b, r)) =>
      Some (Ret (mkSys b (match r with Run l => f l | Fin r => PIdle (k r) end) (cons s) (closer s)
                       (publish (mem s) b (sent s))))
  end.

Definition tick_c {L R} (s : sys) (m : step (buffer * next L R)) (f : L -> cstate) (k : R -> cresult) : step sys :=
  match m with
  | None => None
  | Some (Panic p) => Some (Panic p)
  | Some (Ret (b, r)) =>
      Some (Ret (mkSys b (prod s) (match r with Run l => f l | Fin r => CIdle (k r) end) (closer s)
                       (publish (mem s) b (sent s))))
  end.

Definition tick_x (s : sys) (m : step (buffer * next close_pc unit)) : step sys :=
  match m with
  | None => None
  | Some (Panic p) => Some (Panic p)
  | Some (Ret (b, r)) =>
      Some (Ret (mkSys b (prod s) (cons s) (match r with Run l => Some l | Fin _ => None end)
                       (publish (mem s) b (sent s))))
  end.

Definition sys_step (s : sys) (e : event) : step sys :=
  let b := mem s in
  match e with
  | BeginWrite p => start_p s (PWriting p WrDone)
  | BeginWriteWait n => start_p s (PWaiting n WDone)
  | BeginWriteCommit n => start_p s (PCommitting n (CmWait WDone))
  | BeginReadFrom r => start_p s (PReadingFrom (RfTop r 0 []))
  | Fill off bs =>
      match prod s with
      | PIdle (PWaited _ (VBuf o k, _, None)) =>
          if (0 <=? off) && (off + zlen bs <=? k) then
            match put (buf b) (o + off) bs with
            | Ret d => Some (Ret (mkSys (with_buf d b) (prod s) (cons s) (closer s) (sent s)))
            | Panic p => Some (Panic p)
            end
          else None
      | _ => None
      end
  | BeginRead pl => start_c s (CReading pl RdDone)
  | BeginReadPeek n => start_c s (CPeeking n PkEnter)
  | BeginReadWait n => start_c s (CWaiting n PkEnter)
  | BeginReadCommit n => start_c s (CCommitting n RcEnter)
  | BeginWriteTo w => start_c s (CWritingTo (WtTop w 0 []))
  | BeginClose =>
      match closer s with
      | None => Some (Ret (mkSys b (prod s) (cons s) (Some ClDone) (sent s)))
      | Some _ => None
      end
  | Tick Producer =>
      match prod s with
      | PIdle _ => None
      | PWriting p pc => tick_p s (Write_step b p pc) (PWriting p) (PWrote p)
      | PWaiting n pc => tick_p s (WriteWait_step b n pc) (PWaiting n) (PWaited n)
      | PCommitting n pc => tick_p s (WriteCommit_step b n pc) (PCommitting n) (PCommitted n)
      | PReadingFrom pc => tick_p s (ReadFrom_step b pc) PReadingFrom (fun '(res, got) => PReadFrom got res)
      end
  | Tick Consumer =>
      match cons s with
      | CIdle _ => None
      | CReading pl pc => tick_c s (Read_step b pl pc) (CReading pl) (CRead pl)
      | CPeeking n pc => tick_c s (ReadPeek_step b n pc) (CPeeking n) (CPeeked n)
      | CWaiting n pc => tick_c s (ReadWait_step b n pc) (CWaiting n) (CWaited n)
      | CCommitting n pc => tick_c s (ReadCommit_step b n pc) (CCommitting n) (CCommitted n)
      | CWritingTo pc => tick_c s (WriteTo_step b pc) CWritingTo (fun '(res, out) => CWroteTo out res)
      end
  | Tick Closer =>
      match closer s with
      | None => None
      | Some pc => tick_x s (close_step Closer b pc)
      end
  end.

(** arguments are lengths of slices or counts below [2^62]; committing a negative
    count is not guarded by the code and is left out *)
Definition event_ok (e : event) : Prop :=
  match e with
  | BeginWrite p => zlen p < 2 ^ 62
  | BeginWriteWait n | BeginWriteCommit n | BeginRead n => 0 <= n < 2 ^ 62
  | _ => True
  end.

Definition init (b : buffer) : sys := mkSys b (PIdle PNone) (CIdle CNone) None [].

(** [2^62] bytes are not published in one run: a century at a gigabyte a second *)
Inductive reachable : sys -> Prop :=
| reach_new cnt sz cnt' b : newBuffer cnt sz = (cnt', inl b) -> sz < 2 ^ 63 -> reachable (init b)
| reach_step s e s' :
    reachable s -> zlen (sent s) < 2 ^ 62 -> event_ok e -> sys_step s e = Some (Ret s') -> reachable s'.

(** ** The invariant *)

Definition presult_ok (b : buffer) (sent : list Z) (r : presult) : Prop :=
  match r with
  | PNone => True
  | PWrote p res => exists base, wrote_ok base sent p res
  | PWaited n res => waited_ok b n res
  | PCommitted n res => exists base bs, zlen bs = n /\ committed_ok sent base bs res
  | PReadFrom got res => exists base, published_init base sent got
  end.

Definition pstate_ok (b : buffer) (sent : list Z) (p : pstate) : Prop :=
  match p with
  | PIdle r => presult_ok b sent r
  | PWriting p pc => zlen p < 2 ^ 62 /\ exists base, write_ok b base sent p pc
  | PWaiting n pc => 0 <= n < 2 ^ 62 /\ wfs_ok b n pc
  | PCommitting n pc => exists base bs, zlen bs = n /\ n < 2 ^ 62 /\ commit_ok b sent base bs pc
  | PReadingFrom pc => exists base, readfrom_ok b base sent pc
  end.

Definition cresult_ok (b : buffer) (sent : list Z) (r : cresult) : Prop :=
  match r with
  | CNone => True
  | CRead pl res => was_read b sent pl res
  | CPeeked n res => peeked_ok b sent n res
  | CWaited n res => rwaited_ok b sent n res
  | CCommitted n (cnt, err) => err = None -> cnt = n
  | CWroteTo out res => exists a, delivered a sent out
  end.

Definition cstate_ok (b : buffer) (sent : list Z) (c : cstate) : Prop :=
  match c with
  | CIdle r => cresult_ok b sent r
  | CReading pl pc => 0 <= pl < 2 ^ 62 /\ read_ok b sent pl pc
  | CPeeking n pc => peek_ok b n pc
  | CWaiting n pc => wait_ok b n pc
  | CCommitting n pc => exists c0, rcommit_ok b c0 n pc
  | CWritingTo pc => exists a, writeto_ok b a sent pc
  end.

Definition xstate_ok (b : buffer) (x : option close_pc) : Prop :=
  match x with Some pc => close_ok Closer b pc | None => True end.

Record sys_ok (s : sys) : Prop := {
  so_mem : mem_ok (mem s) (sent s);
  so_prod : pstate_ok (mem s) (sent s) (prod s);
  so_cons : cstate_ok (mem s) (sent s) (cons s);
  so_closer : xstate_ok (mem s) (closer s)
}.

(** ** Stability: a thread's assertions survive the steps of the others *)

Section Stable.
Context (me : thread) (b b' : buffer) (F : frame me b b').

Lemma sig_ok_stable t l s : t <> me -> sig_ok t l b s -> sig_ok t l b' s.
Proof. intros Ht. destruct s; [done|..]; apply (fr_mutex _ _ _ F); done. Qed.

Lemma close_ok_stable t pc : t <> me -> close_ok t b pc -> close_ok t b' pc.
Proof. intros Ht. destruct pc; [done|..]; by apply sig_ok_stable. Qed.

Section ProducerStable.
Context (Hme : me <> Producer).

Lemma pcur_stable : pcur b' = pcur b.
Proof. by destruct (fr_prod _ _ _ F Hme). Qed.

Lemma room_stable n : has_room b n -> has_room b' n.
Proof.
  unfold has_room. rewrite pcur_stable, (fr_size _ _ _ F). pose proof (fr_ccur _ _ _ F). lia.
Qed.

Lemma range_stable pos n : ring_range b' pos n = ring_range b pos n.
Proof.
  destruct (fr_prod _ _ _ F Hme) as [_ Hb]. unfold ring_range, ring_at. by rewrite Hb, (fr_size _ _ _ F).
Qed.

Lemma held_stable c : mutex b c = Some Producer -> mutex b' c = Some Producer.
Proof. apply (fr_mutex _ _ _ F). done. Qed.

Lemma wfs_ok_stable n pc : wfs_ok b n pc -> wfs_ok b' n pc.
Proof.
  pose proof (fr_ccur _ _ _ F). pose proof held_stable as Hh. pose proof (fr_size _ _ _ F) as Hs.
  destruct pc; cbn -[mutex]; rewrite ?pcur_stable, ?Hs; try done; try (intros [H1 H2]; split; auto; fail).
  intros (H1 & H2 & H3 & H4). split_and!; auto; lia.
Qed.

Lemma commit_ok_stable sent base bs pc : commit_ok b sent base bs pc -> commit_ok b' sent base bs pc.
Proof.
  destruct pc; cbn; rewrite ?pcur_stable, ?range_stable.
  - intros (H1 & H2). split; [by apply wfs_ok_stable|done].
  - intros (H1 & H2 & H3 & H4). split_and!; try done; by apply room_stable || apply H4.
  - intros (H1 & H2). split; [|done]. apply sig_ok_stable; done.
Qed.

Lemma grant_ok_stable v : grant_ok b v -> grant_ok b' v.
Proof.
  destruct v; cbn; try done. rewrite pcur_stable, (fr_size _ _ _ F). intros (H1 & H2 & H3 & H4).
  split_and!; try done. by apply room_stable.
Qed.

Lemma write_ok_stable base sent p pc : write_ok b base sent p pc -> write_ok b' base sent p pc.
Proof.
  destruct pc; cbn; rewrite ?pcur_stable, ?range_stable; try done.
  - intros [H1 H2]. split; [done|by apply wfs_ok_stable].
  - intros (H1 & H2 & H3). split_and!; try done. by apply room_stable.
  - intros (H1 & H2 & H3 & H4). split_and!; try done; [by apply room_stable|apply H4..].
  - intros (H1 & H2 & H3). split_and!; try done. by apply sig_ok_stable.
Qed.

Lemma readfrom_ok_stable base sent pc : readfrom_ok b base sent pc -> readfrom_ok b' base sent pc.
Proof.
  destruct pc; cbn; rewrite ?pcur_stable; try done.
  - intros [H1 H2]. split; [by apply wfs_ok_stable|done].
  - intros (H1 & H2 & H3 & H4). split_and!; try done. by apply room_stable.
  - intros (gs & H1 & H2 & H3). exists gs. split_and!; try done; try apply H2. by apply commit_ok_stable.
  - intros [H1 H2]. split; [|done]. by apply close_ok_stable.
Qed.

Lemma pstate_ok_stable sent p : pstate_ok b sent p -> pstate_ok b' sent p.
Proof.
  destruct p as [r|p pc|n pc|n pc|pc]; cbn.
  - destruct r as [|p res|n [[v wr] [e|]]|n res|got res]; cbn; try done.
    intros [H1 H2]. split; [by apply grant_ok_stable|]. by rewrite pcur_stable, (fr_size _ _ _ F).
  - intros (H1 & base & H2). split; [done|]. exists base. by apply write_ok_stable.
  - intros [H1 H2]. split; [done|by apply wfs_ok_stable].
  - intros (base & bs & H1 & H2 & H3). exists base, bs. split_and!; try done. by apply commit_ok_stable.
  - intros [base H]. exists base. by apply readfrom_ok_stable.
Qed.
End ProducerStable.

Section ConsumerStable.
Context (Hme : me <> Consumer) (sent more : list Z) (Hm : mem_ok b sent).

Lemma ccur_stable : ccur b' = ccur b.
Proof. by destruct (fr_cons _ _ _ F Hme). Qed.

Lemma cheld_stable c : mutex b c = Some Consumer -> mutex b' c = Some Consumer.
Proof. apply (fr_mutex _ _ _ F). done. Qed.

Lemma kw_ok_stable pc : kw_ok b pc -> kw_ok b' pc.
Proof.
  pose proof (fr_pcur _ _ _ F). pose proof cheld_stable as Hh.
  destruct pc as [[ppos|]| |ppos| | |]; cbn -[mutex]; auto; try lia. intros [H1 H2]. split; [auto|lia].
Qed.

Lemma sent_stable a n : 0 <= a -> 0 <= n -> a + n <= ccur b -> subseq (sent ++ more) a n = subseq sent a n.
Proof.
  intros Ha Hn Hc. apply subseq_app; [done..|]. pose proof (mo_cur _ _ Hm). pose proof (mo_sent _ _ Hm). lia.
Qed.

Lemma consumed_stable out : consumed b sent out -> consumed b' (sent ++ more) out.
Proof.
  intros [H1 H2]. unfold consumed. rewrite ccur_stable. zlen_facts. split; [done|]. by rewrite sent_stable by lia.
Qed.

Lemma delivered_stable a out : delivered a sent out -> delivered a (sent ++ more) out.
Proof.
  intros (H1 & H2 & H3). zlen_facts. split; [done|]. split; [zl|]. by rewrite subseq_app by lia.
Qed.

Lemma streamed_stable a out : streamed a b sent out -> streamed a b' (sent ++ more) out.
Proof. intros [H1 H2]. split; [by rewrite ccur_stable|by apply delivered_stable]. Qed.

Lemma view_stable v m : view_at b sent v m -> view_at b' (sent ++ more) v m.
Proof. apply (view_at_frame me); try done. by exists more. Qed.

Lemma peek_ok_stable n pc : peek_ok b n pc -> peek_ok b' n pc.
Proof.
  pose proof (fr_pcur _ _ _ F). destruct pc; cbn; rewrite ?ccur_stable, ?(fr_size _ _ _ F); [done| |lia].
  intros (H1 & H2 & H3). split_and!; try apply H1; try done. by apply kw_ok_stable.
Qed.

Lemma wait_ok_stable n pc : wait_ok b n pc -> wait_ok b' n pc.
Proof.
  pose proof (fr_pcur _ _ _ F). destruct pc; cbn; rewrite ?ccur_stable, ?(fr_size _ _ _ F); [done| |lia].
  intros (H1 & H2 & H3). split_and!; try apply H1; try done. by apply kw_ok_stable.
Qed.

Lemma rcommit_ok_stable c0 n pc : rcommit_ok b c0 n pc -> rcommit_ok b' c0 n pc.
Proof.
  pose proof (fr_pcur _ _ _ F). destruct pc; cbn; rewrite ?ccur_stable, ?(fr_size _ _ _ F); [done|lia|].
  intros (H1 & H2). split; [|done]. by apply sig_ok_stable.
Qed.

Lemma writeto_ok_stable a pc : writeto_ok b a sent pc -> writeto_ok b' a (sent ++ more) pc.
Proof.
  pose proof (fr_pcur _ _ _ F) as Hp. destruct pc; cbn.
  - apply streamed_stable.
  - intros [H1 H2]. split; [by apply streamed_stable|by apply peek_ok_stable].
  - intros (H1 & m & H2 & H3). split; [by apply streamed_stable|]. exists m. split; [done|by apply view_stable].
  - intros (c0 & H1 & H2 & H3 & H4 & H5). exists c0.
    split; [by apply rcommit_ok_stable|]. split; [done|]. split; [lia|]. split; [done|by apply delivered_stable].
  - intros [H1 H2]. split; [by apply close_ok_stable|by apply delivered_stable].
Qed.

Lemma cresult_ok_stable r : cresult_ok b sent r -> cresult_ok b' (sent ++ more) r.
Proof.
  destruct r as [|pl [out [e|]]|n [v [e|]]|n [v [e|]]|n res|out res]; cbn; try done.
  - intros [H1 H2]. split; [by apply consumed_stable|done].
  - intros [->|(-> & m & H1 & H2)]; [by left|]. right. split; [done|]. exists m. split; [done|by apply view_stable].
  - apply view_stable.
  - apply view_stable.
  - intros [a H]. exists a. by apply delivered_stable.
Qed.

Lemma cstate_ok_stable c : cstate_ok b sent c -> cstate_ok b' (sent ++ more) c.
Proof.
  pose proof (fr_pcur _ _ _ F) as Hp. pose proof (mo_sent _ _ Hm) as Hs. pose proof (mo_cur _ _ Hm) as Hc.
  destruct c as [r|pl pc|n pc|n pc|n pc|pc]; cbn.
  - apply cresult_ok_stable.
  - intros [H1 H2]. split; [done|]. destruct pc as [| | |cpos [n|]|cpos out|s out|cpos k]; cbn in *; rewrite ?ccur_stable; try done; try lia.
    + destruct H2 as (H2 & H3 & H4 & H5 & H6). zlen_facts. split; [done|]. split; [lia|].
      split; [by rewrite subseq_app by lia|done].
    + destruct H2 as (H2 & H3 & H4). split; [by apply sig_ok_stable|]. split; [by apply consumed_stable|done].
    + destruct H2 as (H2 & H3 & H4). split; [done|]. split; [by apply kw_ok_stable|done].
  - apply peek_ok_stable.
  - apply wait_ok_stable.
  - intros (c0 & H). exists c0. by apply rcommit_ok_stable.
  - intros [a H]. exists a. by apply writeto_ok_stable.
Qed.
End ConsumerStable.
End Stable.

Lemma xstate_ok_stable me b b' x : frame me b b' -> me <> Closer -> xstate_ok b x -> xstate_ok b' x.
Proof. intros F Hme. destruct x; [|done]. by eapply close_ok_stable. Qed.

(** ** Every step keeps the invariant *)

Lemma publish_prefix b b' l : exists more, publish b b' l = l ++ more.
Proof. by eexists. Qed.

(** a step that may be blocked, does not panic, and keeps the invariant *)
Definition safe (m : step sys) : Prop :=
  match m with None => True | Some (Panic _) => False | Some (Ret s') => sys_ok s' end.

Lemma tick_p_ok {L R} s (m : step (buffer * next L R)) (f : L -> pstate) (k : R -> presult) Q :
  sys_ok s -> ok_step Producer (mem s) (sent s) m Q ->
  (forall b' l r, Q b' l r -> pstate_ok b' l (match r with Run x => f x | Fin r => PIdle (k r) end)) ->
  safe (tick_p s m f k).
Proof.
  intros [S1 S2 S3 S4] H HQ. unfold tick_p. destruct m as [[[b r]|p]|]; try done.
  destruct H as (F & M & Hp). split; cbn; [done|by apply HQ| |].
  - destruct (publish_prefix (mem s) b (sent s)) as [more ->]. by eapply cstate_ok_stable.
  - destruct (closer s); [|done]. by eapply close_ok_stable.
Qed.

Lemma tick_c_ok {L R} s (m : step (buffer * next L R)) (f : L -> cstate) (k : R -> cresult) Q :
  sys_ok s -> ok_step Consumer (mem s) (sent s) m Q ->
  (forall b' l r, Q b' l r -> cstate_ok b' l (match r with Run x => f x | Fin r => CIdle (k r) end)) ->
  safe (tick_c s m f k).
Proof.
  intros [S1 S2 S3 S4] H HQ. unfold tick_c. destruct m as [[[b r]|p]|]; try done.
  destruct H as (F & M & Hp). split; cbn; [done| |by apply HQ|].
  - rewrite publish_same by (by apply pcur_stable with (me:=Consumer)). by eapply pstate_ok_stable.
  - destruct (closer s); [|done]. by eapply close_ok_stable.
Qed.

Lemma tick_x_ok s m Q :
  sys_ok s -> ok_step Closer (mem s) (sent s) m Q ->
  (forall b' l r, Q b' l r -> match r with Run x => close_ok Closer b' x | Fin _ => True end) ->
  safe (tick_x s m).
Proof.
  intros [S1 S2 S3 S4] H HQ. unfold tick_x. destruct m as [[[b r]|p]|]; try done.
  destruct H as (F & M & Hp). assert (Hpc : pcur b = pcur (mem s)) by (by apply pcur_stable with (me:=Closer)).
  apply HQ in Hp. split; cbn; [done| | |by destruct r].
  - rewrite publish_same by done. by eapply pstate_ok_stable.
  - destruct (publish_prefix (mem s) b (sent s)) as [more ->]. by eapply cstate_ok_stable.
Qed.

Lemma fill_ok s off bs : sys_ok s -> safe (sys_step s (Fill off bs)).
Proof.
  intros [S1 S2 S3 S4]. cbn [sys_step].
  destruct (prod s) as [[|p res|n [[[|o k|k] wr] [e|]]|n res|got res]|p pc|n pc|n pc|pc] eqn:Ep; try done.
  destruct ((0 <=? off) && _) eqn:Eo; [|done]. pose proof (mem_pos _ _ S1) as Hsz. pose proof (zlen_nonneg bs).
  cbn in S2. destruct S2 as [(-> & Hk & Hok & Hr) Hwr]. pose proof (mo_buf _ _ S1) as Hbuf.
  pose proof (Z.mod_pos_bound (pcur (mem s)) (size (mem s)) ltac:(lia)) as Hmod.
  destruct (put _ _ bs) as [d|q] eqn:Ed; [|unfold put in Ed; revert Ed; by guard_true].
  assert (Hd : zlen d = size (mem s)) by (apply put_zlen in Ed; lia).
  apply put_at in Ed as (_ & _ & _ & Hat).
  destruct (with_buf_ok (mem s) (sent s) d k S1 Hr Hd) as [F M].
  { intros i Hi. pose proof (Z.mod_pos_bound i (size (mem s)) ltac:(lia)). rewrite Hat by lia.
    assert (Him : i mod size (mem s) = pcur (mem s) mod size (mem s) + (i - pcur (mem s)) \/
                  i mod size (mem s) = pcur (mem s) mod size (mem s) + (i - pcur (mem s)) + size (mem s)).
    { replace i with (pcur (mem s) + (i - pcur (mem s))) at 1 3 by lia. rewrite mod_add_cases by lia.
      destruct (_ <? 0) eqn:E1; [by right|left]. by guard_true. }
    by guard_false. }
  split; cbn; [done| | |].
  - split; [|done]. done.
  - rewrite <- (app_nil_r (sent s)). by eapply cstate_ok_stable.
  - destruct (closer s); [|done]. by eapply close_ok_stable.
Qed.

Lemma start_p_ok s p : sys_ok s -> pstate_ok (mem s) (sent s) p -> safe (start_p s p).
Proof. intros [S1 S2 S3 S4] Hp. unfold start_p. by destruct (prod s). Qed.

Lemma start_c_ok s c : sys_ok s -> cstate_ok (mem s) (sent s) c -> safe (start_c s c).
Proof. intros [S1 S2 S3 S4] Hc. unfold start_c. by destruct (cons s). Qed.

Lemma producer_ok s : sys_ok s -> zlen (sent s) < 2 ^ 62 -> safe (sys_step s (Tick Producer)).
Proof.
  intros S Hb. pose proof (so_mem _ S) as S1. pose proof (so_prod _ S) as S2. cbn [sys_step].
  destruct (prod s) as [r|p pc|n pc|n pc|pc]; [done|..]; cbn in S2.
  - destruct S2 as (Hp & base & Hw). eapply tick_p_ok; [done|by apply (Write_step_ok _ base)|].
    intros b' l [pc'|res] Hq; [split; [done|]|]; by exists base.
  - destruct S2 as [Hn Hw]. eapply tick_p_ok; [done|by apply WriteWait_step_ok|].
    intros b' l [pc'|res] [_ Hq]; done.
  - destruct S2 as (base & bs & <- & Hn & Hc). eapply tick_p_ok; [done|by apply WriteCommit_step_ok|].
    intros b' l [pc'|res] Hq; exists base, bs; done.
  - destruct S2 as [base S2]. eapply tick_p_ok; [done|by apply (ReadFrom_step_ok _ base)|].
    intros b' l [pc'|[res got]] Hq; by exists base.
Qed.

Lemma consumer_ok s : sys_ok s -> zlen (sent s) < 2 ^ 62 -> safe (sys_step s (Tick Consumer)).
Proof.
  intros S Hb. pose proof (so_mem _ S) as S1. pose proof (so_cons _ S) as S2. cbn [sys_step].
  destruct (cons s) as [r|pl pc|n pc|n pc|n pc|pc]; [done|..]; cbn in S2.
  - destruct S2 as [Hp Hw]. eapply tick_c_ok; [done|by apply Read_step_ok|]. intros b' l [pc'|res] Hq; done.
  - eapply tick_c_ok; [done|by apply ReadPeek_step_ok|]. intros b' l [pc'|res] (_ & _ & Hq); done.
  - eapply tick_c_ok; [done|by apply ReadWait_step_ok|]. intros b' l [pc'|res] (_ & _ & Hq); done.
  - destruct S2 as [c0 Hc]. eapply tick_c_ok; [done|by apply (ReadCommit_step_ok _ _ c0)|].
    intros b' l [pc'|[cnt [e|]]] (_ & Hq); [by exists c0|done|]. intros _. apply Hq.
  - destruct S2 as [a S2]. eapply tick_c_ok; [done|by apply (WriteTo_step_ok _ a)|].
    intros b' l [pc'|[res out]] Hq; by exists a.
Qed.

(** no event makes a thread panic, and each keeps the invariant *)
Lemma sys_step_ok s e : sys_ok s -> zlen (sent s) < 2 ^ 62 -> event_ok e -> safe (sys_step s e).
Proof.
  intros S Hb He. pose proof (so_mem _ S) as S1. pose proof (mo_cur _ _ S1).
  destruct e as [p|n|n|r|off bs|pl|n|n|n|w| |[]]; cbn [event_ok] in He;
    try (by apply fill_ok); try (by apply producer_ok); try (by apply consumer_ok); cbn [sys_step].
  - apply start_p_ok; [done|]. split; [done|]. by exists (sent s).
  - by apply start_p_ok.
  - apply start_p_ok; [done|]. exists (sent s), (ring_range (mem s) (pcur (mem s)) n).
    rewrite zlen_ring_range by lia. split; [done|]. split; [lia|]. cbn. by rewrite zlen_ring_range by lia.
  - apply start_p_ok; [done|]. exists (sent s). unfold readfrom_ok, published. by rewrite app_nil_r.
  - by apply start_c_ok.
  - by apply start_c_ok.
  - by apply start_c_ok.
  - apply start_c_ok; [done|]. by exists (ccur (mem s)).
  - apply start_c_ok; [done|]. exists (ccur (mem s)). pose proof (mo_sent _ _ S1). cbn.
    unfold streamed, delivered. change (zlen []) with 0. split_and!; lia || done.
  - destruct (closer s); [done|]. destruct S as [T1 T2 T3 T4]. by split.
  - destruct (closer s) as [pc|] eqn:Ex; [|done]. eapply tick_x_ok; [done| |].
    + apply close_step_ok; [done|]. pose proof (so_closer _ S) as S4. by rewrite Ex in S4.
    + intros b' l [pc'|[]] (_ & _ & Hq); done.
Qed.

Lemma newBuffer_ok cnt sz cnt' b :
  newBuffer cnt sz = (cnt', inl b) -> sz < 2 ^ 63 -> sys_ok (init b).
Proof.
  unfold newBuffer. destruct (sz <? 0) eqn:E0; [done|]. set (n := if sz =? 0 then _ else _).
  destruct (powerOfTwo64 n) eqn:Ep; cbn [negb]; [|done]. destruct (n <? _) eqn:E1; [done|].
  intros [= <- <-] Hsz. unfold defaultReadBlockSize in E1.
  assert (Hn : is_pow2 n).
  { apply powerOfTwo64_wide; [|done]. unfold n, defaultBufferSize. destruct (sz =? 0); lia. }
  split; cbn; try done. split; cbn; try done; try lia.
  - unfold defaultReadBlockSize. lia.
  - rewrite zlen_replicate. lia.
Qed.

Lemma reachable_ok s : reachable s -> sys_ok s.
Proof.
  induction 1 as [cnt sz cnt' b H Hs|s e s' Hr IH Hb He Hstep]; [by eapply newBuffer_ok|].
  pose proof (sys_step_ok s e IH Hb He) as H. by rewrite Hstep in H.
Qed.

(** ** No wake-up is lost between [Read] and the producer's methods *)

(** the broadcast a thread is making after it moved its cursor *)
Definition psig (p : pstate) : option sig :=
  match p with
  | PWriting _ (WrSig s _) | PCommitting _ (CmSig s _) | PReadingFrom (RfCommit _ _ _ _ _ (CmSig s _)) => Some s
  | _ => None
  end.

Definition csig (c : cstate) : option sig :=
  match c with
  | CReading _ (RdSig s _) | CCommitting _ (RcSig s) | CWritingTo (WtCommit _ _ _ _ _ (RcSig s)) => Some s
  | _ => None
  end.

(** the broadcast is still to come *)
Definition pending (s : option sig) : Prop := s = Some SLock \/ s = Some SBroadcast.

(** where the producer waits for space, and for how much *)
Definition pwfs (p : pstate) : option (Z * wfs_pc) :=
  match p with
  | PWriting p (WrWait w) => Some (zlen p, w)
  | PWaiting n w => Some (n, w)
  | PCommitting n (CmWait w) => Some (n, w)
  | PReadingFrom (RfWait _ _ _ w) => Some (defaultReadBlockSize, w)
  | PReadingFrom (RfCommit _ _ _ bs _ (CmWait w)) => Some (zlen bs, w)
  | _ => None
  end.

Definition wake_p (b : buffer) (w : option (Z * wfs_pc)) (c : option sig) : Prop :=
  match w with
  | Some (n, WTestDone _) | Some (n, WPark _) => has_room b n -> pending c
  | Some (n, WAsleep _) => pparked b = true -> has_room b n -> pending c
  | _ => True
  end.

Definition wake_c (b : buffer) (c : cstate) (p : option sig) : Prop :=
  match c with
  | CReading _ (RdWait cpos k) =>
      match k with
      | KTest ppos => ppos < pcur b -> pending p
      | KTestDone | KPark => cpos < pcur b -> pending p
      | KAsleep => cparked b = true -> cpos < pcur b -> pending p
      | _ => True
      end
  | _ => True
  end.

Definition wake (s : sys) : Prop :=
  wake_p (mem s) (pwfs (prod s)) (csig (cons s)) /\ wake_c (mem s) (cons s) (psig (prod s)).

(** what a step of the producer does to the consumer's wake-up *)
Record p_wakes (b b' : buffer) (w w' : option (Z * wfs_pc)) (s s' : option sig) : Prop := {
  pw_ccur : ccur b' = ccur b;
  pw_size : size b' = size b;
  pw_moves : pcur b' <> pcur b -> s' = Some SLock;
  pw_keeps : pending s -> pending s' \/ (mutex b CCond = Some Producer /\ cparked b' = false);
  pw_parks : match w' with
             | Some (n, WTestDone _) => ~ has_room b' n
             | Some (n, WPark x) => w = Some (n, WTestDone x) /\ pcur b' = pcur b
             | Some (n, WAsleep x) => w = Some (n, WPark x) /\ pcur b' = pcur b
             | _ => True
             end
}.

(** what a step of the consumer does to the producer's wake-up *)
Record c_wakes (b b' : buffer) (c c' : cstate) : Prop := {
  cw_pcur : pcur b' = pcur b;
  cw_size : size b' = size b;
  cw_moves : ccur b' <> ccur b -> csig c' = Some SLock;
  cw_keeps : pending (csig c) -> pending (csig c') \/ (mutex b PCond = Some Consumer /\ pparked b' = false);
  cw_parks : match c' with
             | CReading pl (RdWait cpos k') =>
                 match k' with
                 | KTest ppos => ppos = pcur b'
                 | KTestDone => exists ppos, c = CReading pl (RdWait cpos (KTest ppos)) /\ ppos <= cpos
                 | KPark => c = CReading pl (RdWait cpos KTestDone)
                 | KAsleep => c = CReading pl (RdWait cpos KPark)
                 | _ => True
                 end
             | _ => True
             end
}.

(** waiting for space: nothing the consumer waits for changes *)
Lemma wfs_wakes b sent n pc b' r :
  mem_ok b sent -> zlen sent < 2 ^ 62 -> 0 <= n < 2 ^ 62 -> wfs_ok b n pc ->
  wfs_step b n pc = Some (Ret (b', r)) ->
  pcur b' = pcur b /\ ccur b' = ccur b /\ size b' = size b /\
  match r with
  | Run (WTestDone _) => ~ has_room b' n
  | Run (WPark x) => pc = WTestDone x
  | Run (WAsleep x) => pc = WPark x
  | _ => True
  end.
Proof.
  intros Hm Hb Hn Hp H. pose proof (wrap_exact b sent n Hm Hb Hn) as Hw.
  destruct pc; cbn [wfs_step wfs_ok] in *; unfold run, fin, Lock, Unlock, try in H;
    repeat case_match; simplify_eq; cbn; split_and!; try done.
  destruct Hp as [-> _]. rewrite Hw in *. unfold has_room. lia.
Qed.

Lemma signal_wakes me c b s b' r :
  sig_ok me c b s -> signal_step me c c b s = Some (Ret (b', r)) ->
  pcur b' = pcur b /\ ccur b' = ccur b /\ size b' = size b /\
  (pending (Some s) -> match r with Run s' => pending (Some s') | Fin _ => False end \/
                       (mutex b c = Some me /\ parked b' c = false)).
Proof.
  intros Hs H. destruct s; cbn [signal_step sig_ok] in *; unfold run, fin, Lock, Unlock, try in H;
    repeat case_match; simplify_eq; cbn; split_and!; try done; unfold pending; intros [?|?]; simplify_eq; auto;
    destruct c; auto.
Qed.

Lemma close_wakes me b pc b' r :
  close_step me b pc = Some (Ret (b', r)) -> pcur b' = pcur b /\ ccur b' = ccur b /\ size b' = size b.
Proof.
  intros H. destruct pc as [|s|s]; [|destruct s..]; cbn [close_step signal_step] in H;
    unfold call, run, fin, Lock, Unlock, try in H; repeat case_match; simplify_eq; done.
Qed.

(** a producer that is not broadcasting and leaves the cursor alone *)
Lemma p_wakes_idle b b' w w' s s' :
  pcur b' = pcur b -> ccur b' = ccur b -> size b' = size b -> ~ pending s ->
  match w' with
  | Some (n, WTestDone _) => ~ has_room b' n
  | Some (n, WPark x) => w = Some (n, WTestDone x)
  | Some (n, WAsleep x) => w = Some (n, WPark x)
  | _ => True
  end -> p_wakes b b' w w' s s'.
Proof.
  intros H1 H2 H3 H4 H5. split; try done. destruct w' as [[n []]|]; done.
Qed.

Lemma not_pending_None : ~ pending None.
Proof. intros [?|?]; done. Qed.

Lemma Write_wakes b base sent p pc b' r :
  mem_ok b sent -> zlen sent < 2 ^ 62 -> zlen p < 2 ^ 62 -> write_ok b base sent p pc ->
  Write_step b p pc = Some (Ret (b', r)) ->
  let next := match r with Run pc' => PWriting p pc' | Fin res => PIdle (PWrote p res) end in
  p_wakes b b' (pwfs (PWriting p pc)) (pwfs next) (psig (PWriting p pc)) (psig next).
Proof.
  intros Hm Hb Hp Hw H. pose proof not_pending_None as Hnp. pose proof (zlen_nonneg p) as Hz.
  destruct pc as [|w|start|start total|s total]; cbn [Write_step write_ok] in *.
  - unfold run, fin in H. case_match; simplify_eq; by apply p_wakes_idle.
  - destruct Hw as [_ Hw]. unfold call in H.
    destruct (wfs_step b (zlen p) w) as [[[b1 [w'|[[start cnt] e]]]|]|] eqn:E; simplify_eq.
    + apply (wfs_wakes b sent) in E as (H1 & H2 & H3 & H4); [|done..]. apply p_wakes_idle; try done.
      cbn. destruct w'; try done; by rewrite H4.
    + apply (wfs_wakes b sent) in E as (H1 & H2 & H3 & _); [|done..]. destruct e; by apply p_wakes_idle.
  - unfold try in H. case_match; [|done]. destruct a as [d total]. unfold run in H. simplify_eq. by apply p_wakes_idle.
  - unfold run in H. simplify_eq. by split.
  - unfold call in H. destruct (signal_step _ _ _ b s) as [[[b1 [s'|[]]]|]|] eqn:E; simplify_eq;
      apply signal_wakes in E as (H1 & H2 & H3 & H4); try apply Hw; (split; [done|done|done| |done]).
    + intros Hpe. destruct (H4 Hpe) as [?|[? ?]]; [by left|by right].
    + intros Hpe. destruct (H4 Hpe) as [[]|[? ?]]. by right.
Qed.

Lemma WriteCommit_wakes (f : commit_pc -> pstate) (k : Z * option error -> pstate) b sent base bs pc b' r :
  (forall c, pwfs (f c) = match c with CmWait w => Some (zlen bs, w) | _ => None end) ->
  (forall c, psig (f c) = match c with CmSig s _ => Some s | _ => None end) ->
  (forall x, psig (k x) = None) -> (forall x, pwfs (k x) = None) ->
  mem_ok b sent -> zlen sent < 2 ^ 62 -> zlen bs < 2 ^ 62 -> commit_ok b sent base bs pc ->
  WriteCommit_step b (zlen bs) pc = Some (Ret (b', r)) ->
  let next := match r with Run pc' => f pc' | Fin res => k res end in
  p_wakes b b' (pwfs (f pc)) (pwfs next) (psig (f pc)) (psig next).
Proof.
  intros Hf1 Hf2 Hk1 Hk2 Hm Hb Hp Hw H. pose proof not_pending_None as Hnp. pose proof (zlen_nonneg bs) as Hz. cbv zeta.
  rewrite Hf1, Hf2. destruct pc as [w|start cnt|s cnt]; cbn [WriteCommit_step commit_ok] in *.
  - unfold call in H. destruct (wfs_step b (zlen bs) w) as [[[b1 [w'|[[start cnt] e]]]|]|] eqn:E; simplify_eq.
    + apply (wfs_wakes b sent) in E as (H1 & H2 & H3 & H4); [|done|done|done|apply Hw].
      rewrite Hf1, Hf2. apply p_wakes_idle; try done. destruct w'; try done; by rewrite H4.
    + apply (wfs_wakes b sent) in E as (H1 & H2 & H3 & _); [|done|done|done|apply Hw].
      destruct e; rewrite ?Hk1, ?Hk2, ?Hf1, ?Hf2; by apply p_wakes_idle.
  - unfold run in H. simplify_eq. rewrite Hf1, Hf2. by split.
  - unfold call in H. destruct (signal_step _ _ _ b s) as [[[b1 [s'|[]]]|]|] eqn:E; simplify_eq;
      apply signal_wakes in E as (H1 & H2 & H3 & H4); try apply Hw; rewrite ?Hk1, ?Hk2, ?Hf1, ?Hf2; (split; [done|done|done| |done]).
    + intros Hpe. destruct (H4 Hpe) as [?|[? ?]]; [by left|by right].
    + intros Hpe. destruct (H4 Hpe) as [[]|[? ?]]. by right.
Qed.

Lemma WriteWait_is_wfs b n w b' r :
  WriteWait_step b n w = Some (Ret (b', r)) ->
  exists r', wfs_step b n w = Some (Ret (b', r')) /\
    match r with Run w' => r' = Run w' | Fin _ => exists x, r' = Fin x end.
Proof.
  unfold WriteWait_step, run, fin, try. intros H. repeat case_match; simplify_eq; eauto.
Qed.

Lemma wfs_p_wakes (f : wfs_pc -> pstate) b sent n w b' r p' :
  (forall w, pwfs (f w) = Some (n, w)) -> (forall w, psig (f w) = None) ->
  mem_ok b sent -> zlen sent < 2 ^ 62 -> 0 <= n < 2 ^ 62 -> wfs_ok b n w ->
  wfs_step b n w = Some (Ret (b', r)) ->
  match r with Run w' => p' = f w' | Fin _ => pwfs p' = None \/ exists m, pwfs p' = Some (m, WDone) end ->
  p_wakes b b' (pwfs (f w)) (pwfs p') (psig (f w)) (psig p').
Proof.
  intros Hf1 Hf2 Hm Hb Hn Hw E Hr. apply (wfs_wakes b sent) in E as (H1 & H2 & H3 & H4); [|done..].
  rewrite Hf1, Hf2. destruct r as [w'|x].
  - subst p'. rewrite Hf1. apply p_wakes_idle; try done; [apply not_pending_None|]. destruct w'; try done; by rewrite H4.
  - apply p_wakes_idle; try done; [apply not_pending_None|]. destruct Hr as [->|[m ->]]; done.
Qed.

Lemma ReadFrom_wakes b base sent pc b' r :
  mem_ok b sent -> zlen sent < 2 ^ 62 -> readfrom_ok b base sent pc ->
  ReadFrom_step b pc = Some (Ret (b', r)) ->
  let next := match r with Run pc' => PReadingFrom pc' | Fin (res, got) => PIdle (PReadFrom got res) end in
  p_wakes b b' (pwfs (PReadingFrom pc)) (pwfs next) (psig (PReadingFrom pc)) (psig next).
Proof.
  intros Hm Hb Hp H. pose proof not_pending_None as Hnp. cbv zeta.
  destruct pc as [rd total got|rd total got w|rd total got start cnt|rd total got bs err c|c res got];
    cbn [ReadFrom_step readfrom_ok] in *.
  - unfold run, rf_return in H. case_match; simplify_eq; by apply p_wakes_idle.
  - destruct Hp as [Hw _]. unfold call in H.
    destruct (wfs_step b defaultReadBlockSize w) as [[[b1 rr]|]|] eqn:E; [|done..].
    assert (b1 = b') as -> by (by destruct rr as [w'|[[? ?] [e|]]]; simplify_eq).
    eapply (wfs_p_wakes (fun w => PReadingFrom (RfWait rd total got w))); try done.
    destruct rr as [w'|[[start cnt] [e|]]]; unfold rf_return in H; simplify_eq; [done|by left|by left].
  - unfold try, run, rf_again, rf_return in H. repeat case_match; simplify_eq; by apply p_wakes_idle.
  - destruct Hp as (gs & _ & Hl & Hc). unfold defaultReadBlockSize in Hl. unfold call in H.
    destruct (WriteCommit_step b (zlen bs) c) as [[[b1 rr]|]|] eqn:E; [|done..].
    pose proof (WriteCommit_wakes (fun c => PReadingFrom (RfCommit rd total got bs err c))
      (fun _ => PIdle PNone) b sent (base ++ gs) bs c b1 rr
      (fun c => match c with CmWait _ => eq_refl | CmSet _ _ => eq_refl | CmSig _ _ => eq_refl end)
      (fun c => match c with CmWait _ => eq_refl | CmSet _ _ => eq_refl | CmSig _ _ => eq_refl end)
      (fun _ => eq_refl) (fun _ => eq_refl) Hm Hb ltac:(lia) Hc E) as Hk. cbv zeta in Hk.
    destruct rr as [c'|[cnt e]]; simplify_eq; [done|]. destruct e, err; exact Hk.
  - unfold call in H. destruct (close_step Producer b c) as [[[b1 rr]|]|] eqn:E; [|done..].
    apply close_wakes in E as (H1 & H2 & H3). destruct rr as [c'|[]]; simplify_eq; by apply p_wakes_idle.
Qed.

Lemma producer_wakes s s' :
  sys_ok s -> zlen (sent s) < 2 ^ 62 -> sys_step s (Tick Producer) = Some (Ret s') ->
  cons s' = cons s /\ p_wakes (mem s) (mem s') (pwfs (prod s)) (pwfs (prod s')) (psig (prod s)) (psig (prod s')).
Proof.
  intros S Hb H. pose proof (so_mem _ S) as S1. pose proof (so_prod _ S) as S2.
  cbn [sys_step] in H. destruct (prod s) as [r|p pc|n pc|n pc|pc] eqn:Ep; [done|..]; cbn in S2; unfold tick_p in H.
  - destruct S2 as (Hp & base & Hw). destruct (Write_step _ p pc) as [[[b' r]|]|] eqn:E; simplify_eq. split; [done|].
    pose proof (Write_wakes _ _ _ _ _ _ _ S1 Hb Hp Hw E) as Hk. by destruct r.
  - destruct S2 as [Hn Hw]. destruct (WriteWait_step _ n pc) as [[[b' r]|]|] eqn:E; simplify_eq. split; [done|].
    apply WriteWait_is_wfs in E as (r' & E & Hr).
    eapply (wfs_p_wakes (PWaiting n)); try done. cbn [prod].
    destruct r as [w'|x]; [by subst r'|]. destruct Hr as [y ->]. by left.
  - destruct S2 as (base & bs & <- & Hn & Hc). destruct (WriteCommit_step _ _ pc) as [[[b' r]|]|] eqn:E; simplify_eq.
    split; [done|]. cbn [mem prod].
    exact (WriteCommit_wakes (PCommitting (zlen bs)) (fun r => PIdle (PCommitted (zlen bs) r)) _ _ _ _ _ _ _
      (fun c => match c with CmWait _ => eq_refl | CmSet _ _ => eq_refl | CmSig _ _ => eq_refl end)
      (fun c => match c with CmWait _ => eq_refl | CmSet _ _ => eq_refl | CmSig _ _ => eq_refl end)
      (fun _ => eq_refl) (fun _ => eq_refl) S1 Hb Hn Hc E).
  - destruct S2 as [base S2]. destruct (ReadFrom_step _ pc) as [[[b' r]|]|] eqn:E; simplify_eq. split; [done|].
    pose proof (ReadFrom_wakes _ _ _ _ _ _ S1 Hb S2 E) as Hk. by destruct r as [|[]].
Qed.

Lemma kw_wakes b wait count k b' r :
  reloads k -> kw_step b wait count k = Some (Ret (b', r)) ->
  pcur b' = pcur b /\ ccur b' = ccur b /\ size b' = size b /\
  match r with
  | Run (KTest ppos) => ppos = pcur b'
  | Run KTestDone => exists ppos, k = KTest ppos /\ wait ppos = true
  | Run KPark => k = KTestDone
  | Run KAsleep => k = KPark
  | _ => True
  end.
Proof.
  intros Hk H. destruct k as [[?|]| |ppos| | |]; cbn [kw_step] in *; unfold run, fin, Lock, Unlock, try in H;
    repeat case_match; simplify_eq; cbn; split_and!; try done; eauto; by destruct count.
Qed.

(** a consumer that is not broadcasting and leaves the cursor alone *)
Lemma c_wakes_idle b b' c c' :
  pcur b' = pcur b -> ccur b' = ccur b -> size b' = size b -> csig c = None ->
  match c' with
  | CReading pl (RdWait cpos k') =>
      match k' with
      | KTest ppos => ppos = pcur b'
      | KTestDone => exists ppos, c = CReading pl (RdWait cpos (KTest ppos)) /\ ppos <= cpos
      | KPark => c = CReading pl (RdWait cpos KTestDone)
      | KAsleep => c = CReading pl (RdWait cpos KPark)
      | _ => True
      end
  | _ => True
  end -> c_wakes b b' c c'.
Proof.
  intros H1 H2 H3 H4 H5. split; try done. rewrite H4. intros H. by apply not_pending_None in H.
Qed.

Lemma Read_wakes b sent pl pc b' r :
  read_ok b sent pl pc -> Read_step b pl pc = Some (Ret (b', r)) ->
  c_wakes b b' (CReading pl pc) (match r with Run pc' => CReading pl pc' | Fin res => CIdle (CRead pl res) end).
Proof.
  intros Hw H. destruct pc as [| | |cpos avail|cpos out|s out|cpos k]; cbn [Read_step read_ok] in *.
  - unfold run in H. case_match; simplify_eq; by apply c_wakes_idle.
  - unfold run, fin in H. case_match; simplify_eq; by apply c_wakes_idle.
  - unfold run in H. repeat case_match; simplify_eq; by apply c_wakes_idle.
  - unfold run, try in H. repeat case_match; simplify_eq; by apply c_wakes_idle.
  - unfold run in H. simplify_eq. split; try done. by intros [?|?].
  - unfold call in H. destruct (signal_step _ _ _ b s) as [[[b1 [s'|[]]]|]|] eqn:E; simplify_eq;
      apply signal_wakes in E as (H1 & H2 & H3 & H4); try apply Hw; (split; [done|done|done| |done]).
    + intros Hpe. destruct (H4 Hpe) as [?|[? ?]]; [by left|by right].
    + intros Hpe. destruct (H4 Hpe) as [[]|[? ?]]. by right.
  - destruct Hw as (-> & Hk & Hre). unfold call in H.
    destruct (kw_step b _ true k) as [[[b1 [k'|[ppos|e]]]|]|] eqn:E; simplify_eq;
      apply kw_wakes in E as (H1 & H2 & H3 & H4); try done; apply c_wakes_idle; try done.
    destruct k' as [| |ppos| | |]; try done; try (by rewrite H4). destruct H4 as (ppos & -> & H4). exists ppos. split; [done|lia].
Qed.

Lemma peek_wakes b n pc b' r :
  ReadPeek_step b n pc = Some (Ret (b', r)) \/ ReadWait_step b n pc = Some (Ret (b', r)) ->
  pcur b' = pcur b /\ ccur b' = ccur b /\ size b' = size b.
Proof.
  assert (Hkw : forall wait count k b' r, kw_step b wait count k = Some (Ret (b', r)) ->
    pcur b' = pcur b /\ ccur b' = ccur b /\ size b' = size b).
  { intros wait count k b1 r1 H. destruct k; cbn [kw_step] in H; unfold run, fin, Lock, Unlock, try in H;
      repeat case_match; simplify_eq; cbn; done || by destruct count. }
  assert (Hct : forall cpos m err b' r, contiguous b cpos m (fun b v => fin b (v, err)) = Some (Ret (b', r)) ->
    pcur b' = pcur b /\ ccur b' = ccur b /\ size b' = size b).
  { intros cpos m err b1 r1 H. unfold contiguous, try, fin in H. repeat case_match; simplify_eq; done. }
  intros [H|H]; destruct pc as [|cpos k|cpos ppos]; cbn [ReadPeek_step ReadWait_step] in H; unfold run, fin, call in H.
  - repeat case_match; simplify_eq; done.
  - destruct (kw_step b _ true k) as [[[b1 [k'|[ppos|e]]]|]|] eqn:E; simplify_eq; by eapply Hkw.
  - destruct (if n <=? _ then _ else _) as [m err]. destruct (_ <=? _); [|by simplify_eq].
    destruct (contiguous b cpos m _) as [[[b1 rr]|]|] eqn:E; [|done..]. assert (b1 = b') as -> by (destruct rr; by simplify_eq).
    by eapply Hct.
  - repeat case_match; simplify_eq; done.
  - destruct (kw_step b _ false k) as [[[b1 [k'|[ppos|e]]]|]|] eqn:E; simplify_eq; by eapply Hkw.
  - destruct (contiguous b cpos n _) as [[[b1 rr]|]|] eqn:E; [|done..]. assert (b1 = b') as -> by (destruct rr; by simplify_eq).
    by eapply Hct.
Qed.

Lemma ReadCommit_wakes (f : rcommit_pc -> cstate) (c' : cstate) b c0 n pc b' r :
  (forall c, csig (f c) = match c with RcSig s => Some s | _ => None end) ->
  (forall c, match f c with CReading _ _ => False | _ => True end) ->
  match r with Run pc' => c' = f pc' | Fin _ => csig c' = None /\ match c' with CReading _ _ => False | _ => True end end ->
  rcommit_ok b c0 n pc -> ReadCommit_step b n pc = Some (Ret (b', r)) -> c_wakes b b' (f pc) c'.
Proof.
  intros Hf1 Hf2 Hc' Hw H.
  assert (Hnr : match c' with CReading _ _ => False | _ => True end).
  { destruct r as [pc'|x]; [subst c'; apply Hf2|apply Hc']. }
  assert (Hcs : csig c' = match r with Run (RcSig s) => Some s | _ => None end).
  { destruct r as [pc'|x]; [by subst c'; rewrite Hf1|apply Hc']. }
  clear Hc'.
  destruct pc as [|cpos|s]; cbn [ReadCommit_step rcommit_ok] in *.
  - unfold run, fin in H. destruct (size b <? n); [|destruct (n <? 0); [|destruct (_ <=? _)]]; simplify_eq;
      (apply c_wakes_idle; [done..|by rewrite Hf1|by destruct c']).
  - unfold run in H. simplify_eq. split; try done; [|by destruct c' as [|? []| | | |]].
    rewrite Hf1. intros Hp. by apply not_pending_None in Hp.
  - unfold call in H. destruct (signal_step _ _ _ b s) as [[[b1 rr]|]|] eqn:E; [|done..].
    apply signal_wakes in E as (H1 & H2 & H3 & H4); [|apply Hw].
    assert (b1 = b' /\ r = match rr with Run s' => Run (RcSig s') | Fin _ => Fin (n, None) end) as [-> ->]
      by (destruct rr as [|[]]; by simplify_eq).
    split; try done; [|by destruct c' as [|? []| | | |]].
    rewrite Hf1, Hcs. intros Hpe. destruct (H4 Hpe) as [?|[? ?]]; [left|by right]. by destruct rr.
Qed.

Lemma WriteTo_wakes b a sent pc b' r c' :
  writeto_ok b a sent pc -> WriteTo_step b pc = Some (Ret (b', r)) ->
  c' = match r with Run pc' => CWritingTo pc' | Fin (res, out) => CIdle (CWroteTo out res) end ->
  c_wakes b b' (CWritingTo pc) c'.
Proof.
  intros Hp H ->.
  destruct pc as [w total out|w total out k|w total out v err|w total out n err c|c res out];
    cbn [WriteTo_step writeto_ok] in *.
  - unfold run, wt_return in H. case_match; simplify_eq; by apply c_wakes_idle.
  - unfold call in H. destruct (ReadPeek_step b _ k) as [[[b1 rr]|]|] eqn:E; [|done..].
    destruct (peek_wakes b defaultWriteBlockSize k b1 rr ltac:(by left)) as (H1 & H2 & H3).
    destruct rr as [k'|[v err]]; simplify_eq; by apply c_wakes_idle.
  - unfold run, wt_return, wt_again, wt_return in H.
    destruct (0 <? zlen (read_view b v)).
    + destruct (writer_Write w (read_view b v)) as [[w' n] [e|]]; simplify_eq; by apply c_wakes_idle.
    + destruct err as [e|]; [destruct (bool_decide _)|]; simplify_eq; by apply c_wakes_idle.
  - destruct Hp as (c0 & Hc & _). unfold call in H.
    destruct (ReadCommit_step b n c) as [[[b1 rr]|]|] eqn:E; [|done..].
    assert (b1 = b') as -> by (by destruct rr as [|[? [|]]]; simplify_eq).
    eapply (ReadCommit_wakes (fun c => CWritingTo (WtCommit w total out n err c))); [by intros []|done| |exact Hc|exact E].
    destruct rr as [c1|[cnt [e|]]]; unfold wt_return, wt_again, wt_return in H; simplify_eq; [done|done|].
    destruct err as [e|]; [destruct (bool_decide _)|]; done.
  - unfold call in H. destruct (close_step Consumer b c) as [[[b1 rr]|]|] eqn:E; [|done..].
    apply close_wakes in E as (H1 & H2 & H3). destruct rr as [c1|[]]; simplify_eq; by apply c_wakes_idle.
Qed.

Lemma consumer_wakes s s' :
  sys_ok s -> sys_step s (Tick Consumer) = Some (Ret s') ->
  prod s' = prod s /\ c_wakes (mem s) (mem s') (cons s) (cons s').
Proof.
  intros S H. pose proof (so_cons _ S) as S2. cbn [sys_step] in H.
  destruct (cons s) as [r|pl pc|n pc|n pc|n pc|pc] eqn:Ec; [done|..]; cbn in S2; unfold tick_c in H.
  - destruct S2 as [Hp Hw]. destruct (Read_step _ pl pc) as [[[b' r]|]|] eqn:E; simplify_eq. split; [done|].
    by eapply Read_wakes.
  - destruct (ReadPeek_step _ n pc) as [[[b' r]|]|] eqn:E; simplify_eq. split; [done|].
    destruct (peek_wakes (mem s) n pc b' r ltac:(by left)) as (H1 & H2 & H3). apply c_wakes_idle; try done. by destruct r.
  - destruct (ReadWait_step _ n pc) as [[[b' r]|]|] eqn:E; simplify_eq. split; [done|].
    destruct (peek_wakes (mem s) n pc b' r ltac:(by right)) as (H1 & H2 & H3). apply c_wakes_idle; try done. by destruct r.
  - destruct S2 as [c0 Hc]. destruct (ReadCommit_step _ n pc) as [[[b' r]|]|] eqn:E; simplify_eq. split; [done|].
    eapply (ReadCommit_wakes (CCommitting n)); [by intros []|done| |exact Hc|exact E]. by destruct r.
  - destruct S2 as [a S2]. destruct (WriteTo_step _ pc) as [[[b' r]|]|] eqn:E; simplify_eq. split; [done|].
    eapply WriteTo_wakes; [exact S2|exact E|]. by destruct r as [|[]].
Qed.

(** every step keeps the frame of its thread *)
Lemma tick_frame s t s' :
  sys_ok s -> zlen (sent s) < 2 ^ 62 -> sys_step s (Tick t) = Some (Ret s') -> frame t (mem s) (mem s').
Proof.
  intros S Hb H. pose proof (so_mem _ S) as S1. pose proof (so_prod _ S) as Sp. pose proof (so_cons _ S) as Sc.
  pose proof (so_closer _ S) as Sx.
  assert (Hof : forall A (m : step (buffer * A)) Q b' a,
    ok_step t (mem s) (sent s) m Q -> m = Some (Ret (b', a)) -> frame t (mem s) b').
  { intros A m Q b' a Hok ->. apply Hok. }
  destruct t; cbn [sys_step] in H.
  - destruct (prod s) as [r|p pc|n pc|n pc|pc]; [done|..]; cbn in Sp; unfold tick_p in H.
    + destruct Sp as (Hlp & base & Hw). destruct (Write_step _ p pc) as [[[b' r]|]|] eqn:E; simplify_eq.
      eapply Hof; [|exact E]. by apply (Write_step_ok _ base).
    + destruct (WriteWait_step _ n pc) as [[[b' r]|]|] eqn:E; simplify_eq.
      eapply Hof; [|exact E]. destruct Sp. by apply WriteWait_step_ok.
    + destruct Sp as (base & bs & <- & Hn & Hc). destruct (WriteCommit_step _ _ pc) as [[[b' r]|]|] eqn:E; simplify_eq.
      eapply Hof; [|exact E]. by apply WriteCommit_step_ok.
    + destruct Sp as [base Sp]. destruct (ReadFrom_step _ pc) as [[[b' r]|]|] eqn:E; simplify_eq.
      eapply Hof; [|exact E]. by apply (ReadFrom_step_ok _ base).
  - destruct (cons s) as [r|pl pc|n pc|n pc|n pc|pc]; [done|..]; cbn in Sc; unfold tick_c in H.
    + destruct (Read_step _ pl pc) as [[[b' r]|]|] eqn:E; simplify_eq.
      eapply Hof; [|exact E]. destruct Sc. by apply Read_step_ok.
    + destruct (ReadPeek_step _ n pc) as [[[b' r]|]|] eqn:E; simplify_eq.
      eapply Hof; [|exact E]. by apply ReadPeek_step_ok.
    + destruct (ReadWait_step _ n pc) as [[[b' r]|]|] eqn:E; simplify_eq.
      eapply Hof; [|exact E]. by apply ReadWait_step_ok.
    + destruct Sc as [c0 Hc]. destruct (ReadCommit_step _ n pc) as [[[b' r]|]|] eqn:E; simplify_eq.
      eapply Hof; [|exact E]. by apply (ReadCommit_step_ok _ _ c0).
    + destruct Sc as [a Sc]. destruct (WriteTo_step _ pc) as [[[b' r]|]|] eqn:E; simplify_eq.
      eapply Hof; [|exact E]. by apply (WriteTo_step_ok _ a).
  - destruct (closer s) as [pc|]; [|done]. cbn in Sx. unfold tick_x in H.
    destruct (close_step Closer _ pc) as [[[b' r]|]|] eqn:E; simplify_eq.
    eapply Hof; [|exact E]. by apply close_step_ok.
Qed.

(** the wake-up invariant survives a step of the producer *)
Lemma wake_producer s s' :
  sys_ok s -> zlen (sent s) < 2 ^ 62 -> wake s -> sys_step s (Tick Producer) = Some (Ret s') -> wake s'.
Proof.
  intros S Hb [Wp Wc] H. destruct (producer_wakes s s' S Hb H) as [Hc [H1 H2 H3 H4 H5]].
  pose proof (so_cons _ S) as Sc. unfold wake. rewrite Hc. split.
  - unfold wake_p in *. destruct (pwfs (prod s')) as [[n []]|]; try done.
    + destruct H5 as [H5 H6]. rewrite H5 in Wp. unfold has_room in *. rewrite H1, H2, H6. done.
    + destruct H5 as [H5 H6]. rewrite H5 in Wp. unfold has_room in *. rewrite H1, H2, H6. done.
  - assert (Hlost : mutex (mem s) CCond = Some Consumer -> pending (psig (prod s)) -> pending (psig (prod s'))).
    { intros Hm Hp. destruct (H4 Hp) as [?|[Hx _]]; [done|]. by rewrite Hx in Hm. }
    assert (Hmove : pcur (mem s') = pcur (mem s) \/ pending (psig (prod s'))).
    { destruct (Z.eq_dec (pcur (mem s')) (pcur (mem s))); [by left|]. right. left. by apply H3. }
    assert (Hpark : cparked (mem s') = true -> cparked (mem s) = true).
    { apply (fr_cparked _ _ _ (tick_frame s Producer s' S Hb H)). done. }
    unfold wake_c in *. destruct (cons s) as [|pl pc| | | |]; try done. destruct pc as [| | | | | |cpos k]; try done.
    cbn in Sc. destruct Sc as (_ & _ & Hk & _).
    destruct k as [| |ppos| | |]; try done; destruct Hmove as [Hmv|]; try done; rewrite Hmv; intros.
    + apply Hlost; [apply Hk|]. by apply Wc.
    + apply Hlost; [apply Hk|]. by apply Wc.
    + apply Hlost; [apply Hk|]. by apply Wc.
    + destruct (H4 (Wc (Hpark H0) H6)) as [?|[_ Hx]]; [done|]. by rewrite Hx in H0.
Qed.

Lemma pwfs_ok b sent p : pstate_ok b sent p ->
  match pwfs p with Some (n, w) => wfs_ok b n w | None => True end.
Proof.
  destruct p as [r|p []|n pc|n []|[| | |r total got bs err []|]]; cbn; try done; try (by intros [? ?]).
  - by intros (_ & base & _ & ?).
  - by intros (base & bs & <- & _ & ? & _).
  - by intros (base & ? & _).
  - by intros (base & gs & _ & _ & ? & _).
Qed.

(** and a step of the consumer *)
Lemma wake_consumer s s' :
  sys_ok s -> zlen (sent s) < 2 ^ 62 -> wake s -> sys_step s (Tick Consumer) = Some (Ret s') -> wake s'.
Proof.
  intros S Hb [Wp Wc] H. destruct (consumer_wakes s s' S H) as [Hc [H1 H2 H3 H4 H5]].
  pose proof (so_prod _ S) as Sp. unfold wake. rewrite Hc. split.
  - assert (Hlost : mutex (mem s) PCond = Some Producer -> pending (csig (cons s)) -> pending (csig (cons s'))).
    { intros Hm Hp. destruct (H4 Hp) as [?|[Hx _]]; [done|]. by rewrite Hx in Hm. }
    assert (Hmove : ccur (mem s') = ccur (mem s) \/ pending (csig (cons s'))).
    { destruct (Z.eq_dec (ccur (mem s')) (ccur (mem s))); [by left|]. right. left. by apply H3. }
    assert (Hpark : pparked (mem s') = true -> pparked (mem s) = true).
    { apply (fr_pparked _ _ _ (tick_frame s Consumer s' S Hb H)). done. }
    pose proof (pwfs_ok _ _ _ Sp) as Hheld.
    unfold wake_p in *. destruct (pwfs (prod s)) as [[n []]|]; try done; destruct Hmove as [Hmv|]; try done;
      unfold has_room in *; rewrite Hmv, H1, H2; intros.
    + apply Hlost; [apply Hheld|auto].
    + apply Hlost; [apply Hheld|auto].
    + destruct (H4 (Wp (Hpark H0) H6)) as [?|[_ Hx]]; [done|]. by rewrite Hx in H0.
  - unfold wake_c in *. destruct (cons s') as [|pl pc| | | |]; try done. destruct pc as [| | | | | |cpos k]; try done.
    destruct k as [| |ppos| | |]; try done.
    + intros. lia.
    + destruct H5 as (ppos & Hcs & H5). rewrite Hcs in Wc. rewrite H1. intros. apply Wc. lia.
    + rewrite H5 in Wc. by rewrite H1.
    + rewrite H5 in Wc. rewrite H1. auto.
Qed.

Lemma wake_step s e s' :
  sys_ok s -> zlen (sent s) < 2 ^ 62 -> wake s -> sys_step s e = Some (Ret s') -> wake s'.
Proof.
  intros S Hb W H.
  assert (Hp : forall p, pwfs p = None \/ (exists n, pwfs p = Some (n, WDone)) -> psig p = None ->
               start_p s p = Some (Ret s') -> wake s').
  { intros p Hw Hs. unfold start_p. destruct (prod s) eqn:Ep; try done. intros [= <-]. destruct W as [_ Wc].
    rewrite Ep in Wc. split; cbn; [|by rewrite Hs]. by destruct Hw as [->|[n ->]]. }
  assert (Hc : forall c, match c with CReading _ (RdWait _ _) => False | _ => True end -> csig c = None ->
               start_c s c = Some (Ret s') -> wake s').
  { intros c Hw Hs. unfold start_c. destruct (cons s) eqn:Ec; try done. intros [= <-]. destruct W as [Wp _].
    rewrite Ec in Wp. split; cbn; [by rewrite Hs|]. by destruct c as [|? []| | | |]. }
  destruct e as [p|n|n|r|off bs|pl|n|n|n|w| |[]]; try (by eapply wake_producer); try (by eapply wake_consumer);
    cbn [sys_step] in H; 
    try (eapply Hp; [| |exact H]; cbn; eauto; fail); try (by eapply Hc; [| |exact H]).
  - destruct (prod s) as [[|p res|n [[[|o k|k] wr] [e|]]|n res|got res]|p pc|n pc|n pc|pc] eqn:Ep; try done.
    destruct (_ && _); [|done]. destruct (put _ _ _) as [d|]; [|done]. injection H as <-. destruct W as [Wp Wc].
    rewrite Ep in Wp, Wc. done.
  - destruct (closer s); [done|]. by injection H as <-.
  - assert (F : frame Closer (mem s) (mem s')) by (by apply tick_frame).
    destruct (closer s) as [pc|]; [|done]. unfold tick_x in H.
    destruct (close_step Closer (mem s) pc) as [[[b r]|]|] eqn:E; simplify_eq. cbn in F.
    apply close_wakes in E as (H1 & H2 & H3). destruct W as [Wp Wc]. split; cbn.
    + unfold wake_p in *. destruct (pwfs (prod s)) as [[n []]|]; try done; unfold has_room in *; rewrite H1, H2, H3; auto.
      intros Hx. apply Wp. by apply (fr_pparked _ _ _ F).
    + unfold wake_c in *. destruct (cons s) as [|pl c| | | |]; try done. destruct c as [| | | | | |cpos k]; try done.
      destruct k; try done; rewrite H1; auto. intros Hx. apply Wc. by apply (fr_cparked _ _ _ F).
Qed.

Lemma reachable_wake s : reachable s -> wake s.
Proof.
  induction 1 as [cnt sz cnt' b H Hs|s e s' Hr IH Hb He Hstep]; [done|].
  eapply wake_step; [by apply reachable_ok|done..].
Qed.

(** ** Runs *)

#[export] Instance event_ok_dec e : Decision (event_ok e).
Proof. destruct e; cbn; apply _. Defined.

(** the state after a list of events; [None] if one of them is blocked *)
Fixpoint exec (s : sys) (es : list event) : option sys :=
  match es with
  | [] => Some s
  | e :: es =>
      if bool_decide (event_ok e) && (zlen (sent s) <? 2 ^ 62) then
        match sys_step s e with Some (Ret s') => exec s' es | _ => None end
      else None
  end.

Lemma exec_reachable s es s' : reachable s -> exec s es = Some s' -> reachable s'.
Proof.
  revert s. induction es as [|e es IH]; cbn; intros s Hr H; [by simplify_eq|].
  destruct (bool_decide (event_ok e) && (zlen (sent s) <? 2 ^ 62)) eqn:E; [|done].
  apply andb_true_iff in E as [E1 E2]. apply bool_decide_eq_true in E1.
  destruct (sys_step s e) as [[s1|]|] eqn:Es; [|done..]. eapply IH; [|exact H].
  eapply reach_step; [exact Hr|lia|exact E1|exact Es].
Qed.

Definition fresh : buffer := mkBuffer 1 (replicate (Z.to_nat 16384) 0) [] 16384 16383 0 0 0 0 None None false false 0 0.

Lemma fresh_new : newBuffer 0 16384 = (1, inl fresh).
Proof. vm_compute. reflexivity. Qed.

Lemma fresh_reachable : reachable (init fresh).
Proof. eapply reach_new; [exact fresh_new|lia]. Qed.

(** a check of the state a concrete run ends in, by evaluation *)
Lemma run_check (P : sys -> bool) es :
  match exec (init fresh) es with Some s => P s | None => false end = true ->
  exists s, reachable s /\ P s = true.
Proof.
  intros H. destruct (exec (init fresh) es) as [s|] eqn:E; [|done]. exists s. split; [|done].
  eapply exec_reachable; [apply fresh_reachable|exact E].
Qed.

Abbreviation ticks n t := (replicate n (Tick t)).

(** every thread is idle or blocked *)
Definition quiescent (s : sys) : Prop := forall t, sys_step s (Tick t) = None.
Definition is_none {A} (o : option A) : bool := match o with None => true | Some _ => false end.
Definition quiescentb (s : sys) : bool :=
  is_none (sys_step s (Tick Producer)) && is_none (sys_step s (Tick Consumer)) && is_none (sys_step s (Tick Closer)).

Lemma quiescentb_ok s : quiescentb s = true -> quiescent s.
Proof.
  unfold quiescentb. intros H. apply andb_true_iff in H as [H H3]. apply andb_true_iff in H as [H1 H2].
  assert (Hn : forall A (o : option A), is_none o = true -> o = None) by (by intros A []).
  intros []; by apply Hn.
Qed.

(** ** Theorems *)

(** C13: In every interleaving of a producer, a consumer and a closer, the ring buffer
    is a queue of bytes: the consumer's cursor never passes the producer's, at most
    [size] bytes lie between them, and the slots between the cursors hold exactly the
    published bytes that have not been consumed, in order.  No unread byte is
    overwritten. *)
Theorem buffer_is_queue s :
  reachable s ->
  let b := mem s in
  0 <= ccur b <= pcur b /\ pcur b = zlen (sent s) /\ pcur b - ccur b <= size b /\
  ring_range b (ccur b) (pcur b - ccur b) = drop (Z.to_nat (ccur b)) (sent s).
Proof.
  intros Hr b. pose proof (so_mem _ (reachable_ok s Hr)) as M. fold b in M.
  pose proof (mo_cur _ _ M). pose proof (mo_sent _ _ M). pose proof (mo_room _ _ M).
  split; [done|]. split; [done|]. split; [lia|]. rewrite (ring_sent b (sent s)) by (done || lia).
  unfold subseq. apply take_all_zlen. zl.
Qed.

(** two writes and a read, the read overtaking the second write *)
Definition sample_events : list event :=
  [BeginWrite [1; 2; 3]] ++ ticks 8 Producer ++ [BeginWrite [4; 5]] ++ ticks 3 Producer ++
  [BeginRead 2] ++ ticks 7 Consumer ++ ticks 2 Producer.

Lemma sample_run : exists s, reachable s /\
  sent s = [1; 2; 3; 4; 5] /\ ccur (mem s) = 2 /\ cons s = CIdle (CRead 2 ([1; 2], None)).
Proof.
  destruct (run_check (fun s => bool_decide (sent s = [1; 2; 3; 4; 5]) && (ccur (mem s) =? 2) &&
      match cons s with CIdle (CRead 2 ([1; 2], None)) => true | _ => false end) sample_events) as (s & Hr & H);
    [vm_compute; reflexivity|]. exists s. split; [done|].
  apply andb_true_iff in H as [H H3]. apply andb_true_iff in H as [H1 H2].
  apply bool_decide_eq_true in H1. split; [done|]. split; [lia|]. repeat (case_match; try done).
Qed.

Lemma buffer_is_queue_witness : exists s, reachable s /\ sent s = [1; 2; 3; 4; 5] /\
  ring_range (mem s) (ccur (mem s)) (pcur (mem s) - ccur (mem s)) = [3; 4; 5].
Proof.
  destruct sample_run as (s & Hr & H1 & H2 & _). exists s.
  split; [exact Hr|]. split; [exact H1|]. destruct (buffer_is_queue s Hr) as (_ & _ & _ & H).
  rewrite H, H1, H2. reflexivity.
Defined.

(** Bytes come out as they went in, whatever the other threads do meanwhile: when a
    [Write] of [p] has returned without error, it returned [len p] and the last bytes
    published are [p]; when a [Read] has returned without error, the bytes it copied
    are the ones published next after those consumed before it, at most as many as
    asked for and at least one. *)
Theorem buffer_write_read s :
  reachable s ->
  (forall p n, prod s = PIdle (PWrote p (n, None)) -> n = zlen p /\ exists pre, sent s = pre ++ p) /\
  (forall pl out, cons s = CIdle (CRead pl (out, None)) ->
     zlen out <= ccur (mem s) /\ out = subseq (sent s) (ccur (mem s) - zlen out) (zlen out) /\
     zlen out <= pl /\ (0 < pl -> 0 < zlen out)).
Proof.
  intros Hr. destruct (reachable_ok s Hr) as [M Sp Sc Sx]. split.
  - intros p n Hp. rewrite Hp in Sp. destruct Sp as (base & -> & H). split; [done|by exists base].
  - intros pl out Hc. rewrite Hc in Sc. destruct Sc as [[H1 H2] H3]. done.
Qed.

Lemma buffer_write_read_witness : exists s, reachable s /\ cons s = CIdle (CRead 2 ([1; 2], None)) /\
  [1; 2] = subseq (sent s) (ccur (mem s) - 2) 2.
Proof.
  destruct sample_run as (s & Hr & _ & _ & H3). exists s.
  split; [exact Hr|]. split; [exact H3|]. exact (proj1 (proj2 (proj2 (buffer_write_read s Hr) 2 [1; 2] H3))).
Defined.

(** A slice that [ReadPeek] or [ReadWait] returned shows the next unread bytes, and
    keeps showing them while the producer goes on writing, until the consumer acts
    again: the bytes are not overwritten under it, whether it lies in the ring or was
    copied to [tmp] because it wraps.  [ReadPeek] returns fewer bytes than asked for
    only with [ErrBufferInsufficientData]. *)
Theorem buffer_peek_stable s n v err :
  reachable s -> cons s = CIdle (CPeeked n (v, err)) \/ cons s = CIdle (CWaited n (v, err)) ->
  (err = None -> read_view (mem s) v = subseq (sent s) (ccur (mem s)) n /\ zlen (read_view (mem s) v) = n) /\
  (err <> None -> v = VNil \/
     (err = Some ErrBufferInsufficientData /\ 0 < zlen (read_view (mem s) v) < n /\
      read_view (mem s) v = subseq (sent s) (ccur (mem s)) (zlen (read_view (mem s) v)))).
Proof.
  intros Hr Hc. destruct (reachable_ok s Hr) as [M Sp Sc Sx].
  assert (Hp : peeked_ok (mem s) (sent s) n (v, err)).
  { destruct Hc as [Hc|Hc]; rewrite Hc in Sc; [exact Sc|]. cbn in *. destruct err; [by left|done]. }
  pose proof (mo_cur _ _ M). pose proof (mo_sent _ _ M).
  assert (Hv : forall m, view_at (mem s) (sent s) v m ->
    read_view (mem s) v = subseq (sent s) (ccur (mem s)) m /\ zlen (read_view (mem s) v) = m).
  { intros m Hv. pose proof (view_at_read _ _ _ _ M Hv) as E. split; [done|]. destruct Hv as (? & ? & _).
    rewrite E, zlen_subseq; lia. }
  destruct err as [e|]; cbn in Hp; split; try done.
  - intros _. destruct Hp as [->|(-> & m & Hm & Hp)]; [by left|]. right. split; [done|].
    destruct (Hv m Hp) as [E1 E2]. rewrite E2. split; [lia|done].
  - intros _. by apply Hv.
Qed.

Definition peek_events : list event :=
  [BeginWrite [1; 2; 3]] ++ ticks 8 Producer ++ [BeginReadPeek 8] ++ ticks 4 Consumer ++
  [BeginWrite [4]] ++ ticks 8 Producer.

Lemma peek_run : exists s, reachable s /\
  cons s = CIdle (CPeeked 8 (VBuf 0 3, Some ErrBufferInsufficientData)).
Proof.
  destruct (run_check (fun s => match cons s with
      | CIdle (CPeeked 8 (VBuf 0 3, Some e)) => bool_decide (e = ErrBufferInsufficientData)
      | _ => false end) peek_events) as (s & Hr & H); [vm_compute; reflexivity|]. exists s. split; [done|].
  repeat (case_match; try done). by apply bool_decide_eq_true in H as ->.
Qed.

Lemma buffer_peek_stable_witness : exists s, reachable s /\
  read_view (mem s) (VBuf 0 3) = subseq (sent s) (ccur (mem s)) (zlen (read_view (mem s) (VBuf 0 3))).
Proof.
  destruct peek_run as (s & Hr & H). exists s.
  split; [exact Hr|].
  destruct (proj2 (buffer_peek_stable s 8 (VBuf 0 3) (Some ErrBufferInsufficientData) Hr (or_introl H)) ltac:(discriminate))
    as [H1|(_ & _ & H1)]; [discriminate H1|exact H1].
Defined.

(** [ReadFrom] and [WriteTo] move a stream: whatever a [ReadFrom] that has returned
    took from its reader stands at the end of what was published, in order, except
    for a last chunk that was read but not committed because the buffer was closed;
    whatever a [WriteTo] that has returned gave its writer is a contiguous piece of
    what was published. *)
Theorem buffer_streams s :
  reachable s ->
  (forall got res, prod s = PIdle (PReadFrom got res) ->
     exists base committed rest, got = committed ++ rest /\ sent s = base ++ committed) /\
  (forall out res, cons s = CIdle (CWroteTo out res) ->
     exists a, 0 <= a /\ a + zlen out <= zlen (sent s) /\ out = subseq (sent s) a (zlen out)).
Proof.
  intros Hr. destruct (reachable_ok s Hr) as [M Sp Sc Sx]. split.
  - intros got res Hp. rewrite Hp in Sp. destruct Sp as (base & gs & bs & H1 & H2). by exists base, gs, bs.
  - intros out res Hc. rewrite Hc in Sc. exact Sc.
Qed.

Definition stream_events : list event :=
  [BeginReadFrom [([7; 8], None)]] ++ ticks 11 Producer ++
  [BeginWriteTo [Some (1, EOF)]] ++ ticks 13 Consumer ++ ticks 8 Producer.

Lemma stream_run : exists s r1 r2, reachable s /\
  prod s = PIdle (PReadFrom [7; 8] r1) /\ cons s = CIdle (CWroteTo [7] r2).
Proof.
  destruct (run_check (fun s => match prod s, cons s with
      | PIdle (PReadFrom [7; 8] _), CIdle (CWroteTo [7] _) => true
      | _, _ => false end) stream_events) as (s & Hr & H); [vm_compute; reflexivity|]. exists s.
  repeat (case_match; try done). by eexists _, _.
Qed.

Lemma buffer_streams_witness : exists s, reachable s /\
  exists a, 0 <= a /\ a + 1 <= zlen (sent s) /\ [7] = subseq (sent s) a 1.
Proof.
  destruct stream_run as (s & r1 & r2 & Hr & _ & H).
  exists s. split; [exact Hr|]. exact (proj2 (buffer_streams s Hr) [7] r2 H).
Defined.

(** C31: No interleaving makes the buffer's code panic: every slice expression and index
    is in range, and no mutex is unlocked that is not held. *)
Theorem buffer_no_panic s e p :
  reachable s -> zlen (sent s) < 2 ^ 62 -> event_ok e -> sys_step s e <> Some (Panic p).
Proof.
  intros Hr Hb He H. pose proof (sys_step_ok s e (reachable_ok s Hr) Hb He) as Hs. by rewrite H in Hs.
Qed.

Lemma buffer_no_panic_witness : exists s, reachable s /\ sys_step s (BeginRead 1) <> Some (Panic SliceBounds).
Proof.
  destruct sample_run as (s & Hr & H1 & _). exists s.
  split; [exact Hr|]. apply (buffer_no_panic s (BeginRead 1) SliceBounds Hr); [rewrite H1; vm_compute; reflexivity|].
  split; [lia|vm_compute; reflexivity].
Defined.

(** C28: Between [Read] and the producer's methods no wake-up is lost: if a reader sleeps
    although there is data, the producer has yet to broadcast on [ccond]; if the
    producer sleeps although the space it asked for is there, the consumer has yet to
    broadcast on [pcond].  So the two never sleep both, as long as the producer does
    not ask for more than the buffer's size. *)
Theorem buffer_no_lost_wakeup s pl cpos :
  reachable s ->
  (cons s = CReading pl (RdWait cpos KAsleep) -> cparked (mem s) = true -> ccur (mem s) < pcur (mem s) ->
     pending (psig (prod s))) /\
  (forall n ppos, pwfs (prod s) = Some (n, WAsleep ppos) -> pparked (mem s) = true ->
     pcur (mem s) + n - ccur (mem s) <= size (mem s) -> pending (csig (cons s))) /\
  (forall n ppos, cons s = CReading pl (RdWait cpos KAsleep) -> cparked (mem s) = true ->
     pwfs (prod s) = Some (n, WAsleep ppos) -> pparked (mem s) = true -> size (mem s) < n).
Proof.
  intros Hr. pose proof (reachable_ok s Hr) as S. destruct (reachable_wake s Hr) as [Wp Wc].
  pose proof (so_cons _ S) as Sc. pose proof (mo_cur _ _ (so_mem _ S)).
  assert (H1 : cons s = CReading pl (RdWait cpos KAsleep) -> cparked (mem s) = true -> ccur (mem s) < pcur (mem s) ->
     pending (psig (prod s))).
  { intros Hc Hk Hd. rewrite Hc in Wc, Sc. destruct Sc as (_ & -> & _). by apply Wc. }
  assert (H2 : forall n ppos, pwfs (prod s) = Some (n, WAsleep ppos) -> pparked (mem s) = true ->
     pcur (mem s) + n - ccur (mem s) <= size (mem s) -> pending (csig (cons s))).
  { intros n ppos Hp Hk Hd. rewrite Hp in Wp. apply Wp; [done|]. unfold has_room. lia. }
  split; [done|]. split; [done|]. intros n ppos Hc Hk Hp Hk'.
  destruct (Z_lt_dec (size (mem s)) n) as [|Hn]; [done|exfalso].
  assert (Hno : ~ pending (psig (prod s))).
  { intros [E|E]; destruct (prod s) as [r|p []|m pc|m []|[| | |? ? ? ? ? []|]]; cbn in *; done. }
  destruct (Z_lt_dec (ccur (mem s)) (pcur (mem s))); [by apply Hno, H1|].
  specialize (H2 n ppos Hp Hk' ltac:(lia)). rewrite Hc in H2. by apply not_pending_None in H2.
Qed.

(** a reader asleep and a write that has stored its cursor but not yet broadcast *)
Definition asleep_events : list event :=
  [BeginRead 1] ++ ticks 7 Consumer ++ [BeginWrite [9]] ++ ticks 5 Producer.

Lemma asleep_run : exists s, reachable s /\
  cons s = CReading 1 (RdWait 0 KAsleep) /\ cparked (mem s) = true /\ ccur (mem s) = 0 /\ pcur (mem s) = 1.
Proof.
  destruct (run_check (fun s => match cons s with CReading 1 (RdWait 0 KAsleep) => cparked (mem s) | _ => false end &&
      (ccur (mem s) =? 0) && (pcur (mem s) =? 1)) asleep_events) as (s & Hr & H); [vm_compute; reflexivity|]. exists s.
  apply andb_true_iff in H as [H H3]. apply andb_true_iff in H as [H1 H2].
  split; [done|]. split; [repeat (case_match; try done)|]. split; [repeat (case_match; try done)|]. lia.
Qed.

Lemma buffer_no_lost_wakeup_witness : exists s, reachable s /\ cparked (mem s) = true /\ pending (psig (prod s)).
Proof.
  destruct asleep_run as (s & Hr & H1 & H2 & H3 & H4).
  exists s. split; [exact Hr|]. split; [exact H2|].
  apply (proj1 (buffer_no_lost_wakeup s 1 0 Hr) H1 H2). rewrite H3, H4. lia.
Defined.

(** ** What the waiting and closing protocol gets wrong *)

(** [ReadWait] and [ReadPeek] test a producer cursor they loaded before they took
    the mutex, so a write that falls between the load and the lock is missed: in a
    reachable state two bytes lie in the buffer, the write has returned, nobody has
    closed the buffer, and the [ReadWait(2)] they would satisfy sleeps, with no thread
    left that could wake it. *)
Theorem read_wait_misses_wakeup :
  exists s, reachable s /\ prod s = PIdle (PWrote [192; 0] (2, None)) /\ closer s = None /\
    cons s = CWaiting 2 (PkWait 0 KAsleep) /\ Len (mem s) = 2 /\ quiescent s.
Proof.
  destruct (run_check (fun s => match prod s, closer s, cons s with
      | PIdle (PWrote [192; 0] (2, None)), None, CWaiting 2 (PkWait 0 KAsleep) => true
      | _, _, _ => false end && (Len (mem s) =? 2) && quiescentb s)
    ([BeginReadWait 2] ++ ticks 1 Consumer ++ [BeginWrite [192; 0]] ++ ticks 8 Producer ++ ticks 4 Consumer))
    as (s & Hr & H); [vm_compute; reflexivity|]. exists s.
  apply andb_true_iff in H as [H H3]. apply andb_true_iff in H as [H1 H2]. split; [done|].
  split; [repeat (case_match; try done)|]. split; [repeat (case_match; try done)|].
  split; [repeat (case_match; try done)|]. split; [lia|]. by apply quiescentb_ok.
Qed.

(** a producer waiting in its own [Close] for the mutex it holds never moves again *)
Lemma self_deadlock_step s e s' res got :
  sys_ok s -> zlen (sent s) < 2 ^ 62 ->
  prod s = PReadingFrom (RfClose (ClProducer SLock) res got) -> pmutex (mem s) = Some Producer ->
  sys_step s e = Some (Ret s') -> prod s' = prod s /\ pmutex (mem s') = Some Producer.
Proof.
  intros S Hb Hp Hm H.
  destruct e as [p|n|n|r|off bs|pl|n|n|n|w| |t]; try (cbn [sys_step] in H; unfold start_p in H; by rewrite Hp in H);
    try (cbn [sys_step] in H; unfold start_c in H; destruct (cons s); [|done..]; by injection H as <-).
  - cbn [sys_step] in H. destruct (closer s); [done|]. by injection H as <-.
  - pose proof (tick_frame s t s' S Hb H) as F. destruct t.
    + cbn [sys_step] in H. rewrite Hp in H. cbn in H. unfold Lock in H. cbn in H. by rewrite Hm in H.
    + split; [|by apply (fr_mutex _ _ _ F PCond)]. by apply consumer_wakes in H as [? _].
    + split; [|by apply (fr_mutex _ _ _ F PCond)]. cbn [sys_step] in H. destruct (closer s); [|done].
      unfold tick_x in H. destruct (close_step _ _ _) as [[[]|]|]; by simplify_eq.
Qed.

Lemma self_deadlock s es s' res got :
  reachable s -> prod s = PReadingFrom (RfClose (ClProducer SLock) res got) -> pmutex (mem s) = Some Producer ->
  exec s es = Some s' -> prod s' = prod s.
Proof.
  revert s. induction es as [|e es IH]; cbn; intros s Hr Hp Hm H; [by simplify_eq|].
  destruct (bool_decide (event_ok e) && (zlen (sent s) <? 2 ^ 62)) eqn:E; [|done].
  apply andb_true_iff in E as [E1 E2]. apply bool_decide_eq_true in E1.
  destruct (sys_step s e) as [[s1|]|] eqn:Es; [|done..].
  destruct (self_deadlock_step s e s1 res got (reachable_ok s Hr) ltac:(lia) Hp Hm Es) as [P1 P2].
  rewrite <- P1. apply (IH s1); [eapply reach_step; [exact Hr|lia|exact E1|exact Es]|by rewrite P1|done|done].
Qed.

(** Closing a buffer whose producer is waiting for space deadlocks the producer:
    [waitForWriteSpace] returns [EOF] without unlocking [pcond.L], and the deferred
    [Close] of [ReadFrom] then waits for that mutex.  From a reachable state on, the
    producer stays at this lock whatever the other threads do. *)
Theorem close_deadlocks_producer :
  exists s got, reachable s /\ prod s = PReadingFrom (RfClose (ClProducer SLock) (0, Some EOF) got) /\
    closer s = None /\ (forall es s', exec s es = Some s' -> prod s' = prod s).
Proof.
  destruct (run_check (fun s => match prod s, closer s, pmutex (mem s) with
      | PReadingFrom (RfClose (ClProducer SLock) (0, Some e) _), None, Some Producer => bool_decide (e = EOF)
      | _, _, _ => false end)
    (let chunk := replicate (Z.to_nat 8192) 7 in
     [BeginReadFrom [(chunk, None); (chunk, None)]] ++ ticks 27 Producer ++ [BeginClose] ++ ticks 7 Closer ++
     ticks 4 Producer)) as (s & Hr & H); [vm_compute; reflexivity|]. exists s.
  destruct (prod s) as [| | | |[| | | |[|[]|] [[] [e|]] got]] eqn:Ep; try done.
  destruct (closer s) eqn:Ex; [done|]. destruct (pmutex (mem s)) as [[]|] eqn:Em; try done.
  apply bool_decide_eq_true in H as ->. exists got. split; [done|]. split; [done|]. split; [done|].
  rewrite <- Ep. intros es' s' He. by eapply self_deadlock.
Qed.

(** [Close] can miss a sleeping reader: it broadcasts on [ccond] while it holds the
    mutex of [pcond], so the broadcast can fall between a reader's check of [done] and
    its wait.  In a reachable state [Close] has returned, and the [Read] still
    sleeps, with no thread left that could wake it. *)
Theorem close_misses_reader :
  exists s, reachable s /\ isDone (mem s) = true /\ closer s = None /\ prod s = PIdle PNone /\
    cons s = CReading 1 (RdWait 0 KAsleep) /\ quiescent s.
Proof.
  destruct (run_check (fun s => match prod s, closer s, cons s with
      | PIdle PNone, None, CReading 1 (RdWait 0 KAsleep) => true
      | _, _, _ => false end && isDone (mem s) && quiescentb s)
    ([BeginRead 1] ++ ticks 6 Consumer ++ [BeginClose] ++ ticks 7 Closer ++ ticks 1 Consumer))
    as (s & Hr & H); [vm_compute; reflexivity|]. exists s.
  apply andb_true_iff in H as [H H3]. apply andb_true_iff in H as [H1 H2]. split; [done|].
  split; [done|]. split; [repeat (case_match; try done)|]. split; [repeat (case_match; try done)|].
  split; [repeat (case_match; try done)|]. by apply quiescentb_ok.
Qed.
