(* ===== verification/GoStrings.v ===== *)
(** * GoStrings: [strings] and [strconv] as the broker uses them

    Strings are byte lists.  [Split] by one byte, [Join], [Contains], [Atoi] and
    [Itoa] with what the callers rely on. *)
From stdpp Require Import base list strings.
From Stdlib Require Import ZArith Lia.
From S2P Require Import Prelude GoLang.

(** ** [strings] *)

(** [strings.Split(s, sep)] for a separator of one byte *)
Fixpoint Split (s : list Z) (sep : Z) : list (list Z) :=
  match s with
  | [] => [[]]
  | x :: s =>
      if x =? sep then [] :: Split s sep
      else match Split s sep with
           | [] => [[x]]
           | p :: ps => (x :: p) :: ps
           end
  end.

(** [strings.Join] *)
Fixpoint Join (l : list (list Z)) (sep : list Z) : list Z :=
  match l with
  | [] => []
  | [p] => p
  | p :: l => p ++ sep ++ Join l sep
  end.

Fixpoint has_prefix (p s : list Z) : bool :=
  match p, s with
  | [], _ => true
  | x :: p, y :: s => (x =? y) && has_prefix p s
  | _ :: _, [] => false
  end.

(** [strings.Contains(s, sub)] *)
Fixpoint Contains (s sub : list Z) : bool :=
  has_prefix sub s || match s with [] => false | _ :: s => Contains s sub end.

Lemma Split_not_nil s sep : Split s sep <> [].
Proof. destruct s as [|x s]; cbn; [done|]. destruct (_ =? _); [done|]. by destruct (Split s sep). Qed.

Lemma Split_none s sep : sep ∉ s -> Split s sep = [s].
Proof.
  induction s as [|x s IH]; [done|]. rewrite not_elem_of_cons. intros [H1 H2]. cbn.
  destruct (x =? sep) eqn:E; [lia|]. by rewrite IH.
Qed.

Lemma Split_cons p s sep : sep ∉ p -> Split (p ++ sep :: s) sep = p :: Split s sep.
Proof.
  induction p as [|x p IH]; cbn.
  - by rewrite Z.eqb_refl.
  - rewrite not_elem_of_cons. intros [H1 H2]. destruct (x =? sep) eqn:E; [lia|]. by rewrite IH.
Qed.

(** splitting a joined list gives the list back *)
Lemma Split_app a b sep : Split (a ++ sep :: b) sep = Split a sep ++ Split b sep.
Proof.
  induction a as [|x a IH]; cbn; [by rewrite Z.eqb_refl|]. rewrite IH.
  destruct (x =? sep); [done|]. pose proof (Split_not_nil a sep). by destruct (Split a sep).
Qed.

Lemma Split_Join l sep : l <> [] -> Forall (fun p => sep ∉ p) l -> Split (Join l [sep]) sep = l.
Proof.
  induction l as [|p l IH]; [done|]. intros _ [H1 H2]%Forall_cons. destruct l as [|q l].
  - cbn [Join]. by apply Split_none.
  - change (Join (p :: q :: l) [sep]) with (p ++ sep :: Join (q :: l) [sep]).
    rewrite Split_cons by done. by rewrite IH.
Qed.

(** joining the pieces gives the string back, and no piece holds the separator *)
Lemma Join_Split s sep : Join (Split s sep) [sep] = s /\ Forall (fun p => sep ∉ p) (Split s sep).
Proof.
  induction s as [|x s [IH1 IH2]]; cbn [Split]; [split; [done|]; apply Forall_singleton, not_elem_of_nil|].
  pose proof (Split_not_nil s sep) as Hn. destruct (Split s sep) as [|p ps] eqn:E; [done|].
  apply Forall_cons in IH2 as [Hp Hps]. destruct (x =? sep) eqn:Ex.
  - split; [|apply Forall_cons; split; [apply not_elem_of_nil|by apply Forall_cons]].
    change (Join ([] :: p :: ps) [sep]) with (sep :: Join (p :: ps) [sep]). rewrite IH1. f_equal. lia.
  - split.
    + destruct ps as [|q ps]; cbn in *; congruence.
    + apply Forall_cons. split; [|done]. rewrite not_elem_of_cons. split; [lia|done].
Qed.

(** ** [strconv] *)

Definition ErrSyntax (s : list Z) : error := Errorf "strconv.Atoi: parsing %q: invalid syntax" [AStr s].
Definition ErrRange (s : list Z) : error := Errorf "strconv.Atoi: parsing %q: value out of range" [AStr s].

Definition digit (b : Z) : option Z := if (48 <=? b) && (b <=? 57) then Some (b - 48) else None.

Fixpoint digits (acc : Z) (s : list Z) : option Z :=
  match s with
  | [] => Some acc
  | b :: s => d ← digit b; digits (10 * acc + d) s
  end.

(** [strconv.Atoi] *)
Definition Atoi (s : list Z) : Z + error :=
  let '(neg, t) := match s with
                   | 43 :: t => (false, t)
                   | 45 :: t => (true, t)
                   | _ => (false, s)
                   end in
  match t with
  | [] => inr (ErrSyntax s)
  | _ =>
      match digits 0 t with
      | None => inr (ErrSyntax s)
      | Some n =>
          let v := if neg then - n else n in
          if (v <? - 2 ^ 63) || (2 ^ 63 <=? v) then inr (ErrRange s) else inl v
      end
  end.

(** the decimal digits of a non-negative number, as [%d] prints them *)
Fixpoint dec_digits (fuel : nat) (n : Z) (acc : list Z) : list Z :=
  match fuel with
  | O => acc
  | S fuel =>
      let acc := (48 + n mod 10) :: acc in
      if n <? 10 then acc else dec_digits fuel (n / 10) acc
  end.

(** [%d] of a [uint64]: twenty digits at most *)
Definition Itoa (n : Z) : list Z := dec_digits 20 n [].

Lemma digits_dec fuel : forall n acc k, 0 <= n < 10 ^ Z.of_nat fuel ->
  digits k (dec_digits fuel n acc) =
  match fuel with O => digits k acc | _ =>
    digits (k * 10 ^ (zlen (dec_digits fuel n acc) - zlen acc) + n) acc end.
Proof.
  induction fuel as [|fuel IH]; intros n acc k Hn; [done|]. cbn [dec_digits].
  pose proof (Z.mod_pos_bound n 10 ltac:(lia)) as Hm. pose proof (Z.div_mod n 10 ltac:(lia)) as Hd.
  assert (Hdig : digit (48 + n mod 10) = Some (n mod 10)).
  { unfold digit. destruct (_ && _) eqn:E; [f_equal; lia|lia]. }
  destruct (n <? 10) eqn:E.
  - cbn [digits]. rewrite Hdig. cbn. rewrite zlen_cons. replace (1 + zlen acc - zlen acc) with 1 by lia.
    rewrite Z.pow_1_r. f_equal. rewrite Z.mod_small by lia. lia.
  - destruct fuel as [|fuel]; [change (10 ^ Z.of_nat 1) with 10 in Hn; lia|].
    rewrite IH.
    2: { split; [apply Z.div_pos; lia|]. apply Z.div_lt_upper_bound; [lia|].
      rewrite <- Z.pow_succ_r by lia. replace (Z.succ (Z.of_nat (S fuel))) with (Z.of_nat (S (S fuel))) by lia. lia. }
    set (l := dec_digits (S fuel) (n / 10) ((48 + n mod 10) :: acc)).
    cbn [digits]. rewrite Hdig. cbn [mbind option_bind]. f_equal. rewrite zlen_cons.
    assert (Hl : 1 + zlen acc <= zlen l).
    { assert (G : forall f m a, zlen a <= zlen (dec_digits f m a)).
      { intros f. induction f as [|f IHf]; intros m a; cbn; [lia|]. destruct (m <? 10); [rewrite zlen_cons; lia|].
        etrans; [|apply IHf]. rewrite zlen_cons. lia. }
      specialize (G (S fuel) (n / 10) ((48 + n mod 10) :: acc)). rewrite zlen_cons in G. done. }
    assert (Hp : 10 ^ (zlen l - zlen acc) = 10 * 10 ^ (zlen l - (1 + zlen acc))).
    { rewrite <- Z.pow_succ_r by lia. f_equal. lia. }
    rewrite Hp. lia.
Qed.

Lemma dec_digits_range fuel : forall n acc, Forall (fun b => 48 <= b <= 57) acc ->
  Forall (fun b => 48 <= b <= 57) (dec_digits fuel n acc).
Proof.
  induction fuel as [|fuel IH]; intros n acc Ha; cbn; [done|].
  pose proof (Z.mod_pos_bound n 10 ltac:(lia)).
  assert (Forall (fun b => 48 <= b <= 57) ((48 + n mod 10) :: acc)) by (apply Forall_cons; split; [lia|done]).
  destruct (n <? 10); auto.
Qed.

Lemma dec_digits_not_nil fuel : forall n acc, acc <> [] -> dec_digits fuel n acc <> [].
Proof. induction fuel as [|fuel IH]; intros n acc Ha; cbn; [done|]. destruct (n <? 10); [done|]. by apply IH. Qed.

Lemma Itoa_not_nil n : Itoa n <> [].
Proof. unfold Itoa. cbn [dec_digits]. destruct (n <? 10); [done|]. by apply (dec_digits_not_nil 19). Qed.

(** [Atoi] reads back what [%d] prints *)
Lemma Atoi_Itoa n : 0 <= n < 2 ^ 63 -> Atoi (Itoa n) = inl n.
Proof.
  intros Hn. pose proof (digits_dec 20 n [] 0) as H. fold (Itoa n) in H.
  change (10 ^ Z.of_nat 20) with 100000000000000000000 in H. specialize (H ltac:(lia)).
  pose proof (dec_digits_range 20 n [] (Forall_nil_2 _)) as Hr. fold (Itoa n) in Hr.
  pose proof (Itoa_not_nil n) as Hne. set (l := Itoa n) in *. clearbody l.
  destruct l as [|d l]; [done|]. apply Forall_cons in Hr as [Hd Hr]. cbn beta iota in H.
  rewrite Z.mul_0_l, Z.add_0_l in H. cbn [digits] in H.
  assert (E : Atoi (d :: l) = match digits 0 (d :: l) with
    | None => inr (ErrSyntax (d :: l))
    | Some n => if (n <? - 2 ^ 63) || (2 ^ 63 <=? n) then inr (ErrRange (d :: l)) else inl n end).
  { assert (Hc : d = 48 \/ d = 49 \/ d = 50 \/ d = 51 \/ d = 52 \/ d = 53 \/ d = 54 \/ d = 55 \/ d = 56 \/ d = 57) by lia.
    repeat (destruct Hc as [->|Hc]; [reflexivity|]). subst d. reflexivity. }
  rewrite E. cbn [digits]. rewrite H. by guard_false.
Qed.
