(* ===== verification/NetConn.v ===== *)
(** * NetConn: connections, [bufio] and [io.ReadFull]

    What the broker uses of [net.Conn], [bufio.Reader], [bufio.Writer] and
    [io.ReadFull].  The peer is the sequence of segments it has sent, in the
    sizes the transport delivers them, followed by the error that ends the
    stream (io.EOF after a close, a timeout, a reset); a [Read] never returns
    more than one segment, so the segmentation is visible to the code. *)
From stdpp Require Import base list strings.
From Stdlib Require Import ZArith Lia.
From S2P Require Import Prelude GoLang.

(** ** Connections *)

Definition errClosed : error := ErrorsNew "use of closed network connection".
Definition ErrUnexpectedEOF : error := ErrorsNew "unexpected EOF".
Definition ErrNoProgress : error := ErrorsNew "multiple Read calls return no data or error".
Definition ErrBufferFull : error := ErrorsNew "bufio: buffer full".
Definition ErrNegativeCount : error := ErrorsNew "bufio: negative count".

Record Conn : Type := mkConn {
  segs : list (list Z);             (* segments still to be delivered *)
  rd_err : error;                   (* what [Read] returns after the last one *)
  written : list Z;                 (* what the server has sent *)
  wr_fault : option (Z * error);    (* bytes the peer still accepts, then the error *)
  deadline : Z;                     (* seconds given by the last [SetReadDeadline] *)
  closed : bool
}.

(** a connection from a peer that sends [ss] and reads everything *)
Definition dial (ss : list (list Z)) (e : error) : Conn := mkConn ss e [] None 0 false.

Definition with_segs (ss : list (list Z)) (c : Conn) : Conn :=
  mkConn ss (rd_err c) (written c) (wr_fault c) (deadline c) (closed c).
Definition with_deadline (d : Z) (c : Conn) : Conn :=
  mkConn (segs c) (rd_err c) (written c) (wr_fault c) d (closed c).

Definition conn_Read (c : Conn) (k : Z) : list Z * option error * Conn :=
  if closed c then ([], Some errClosed, c)
  else match segs c with
  | [] => ([], Some (rd_err c), c)
  | s :: ss =>
      if zlen s <=? k then (s, None, with_segs ss c)
      else (take (Z.to_nat k) s, None, with_segs (drop (Z.to_nat k) s :: ss) c)
  end.

Definition conn_Write (c : Conn) (b : list Z) : Z * option error * Conn :=
  if closed c then (0, Some errClosed, c)
  else match wr_fault c with
  | None => (zlen b, None,
      mkConn (segs c) (rd_err c) (written c ++ b) None (deadline c) false)
  | Some (room, e) =>
      if zlen b <=? room then
        (zlen b, None, mkConn (segs c) (rd_err c) (written c ++ b) (Some (room - zlen b, e)) (deadline c) false)
      else
        (room, Some e, mkConn (segs c) (rd_err c) (written c ++ take (Z.to_nat room) b) (Some (0, e)) (deadline c) false)
  end.

Definition SetReadDeadline (c : Conn) (d : Z) : option error * Conn :=
  if closed c then (Some errClosed, c) else (None, with_deadline d c).

Definition conn_Close (c : Conn) : Conn :=
  mkConn (segs c) (rd_err c) (written c) (wr_fault c) (deadline c) true.

(** every [Read] makes progress: what [net.Conn] promises of a TCP connection *)
Definition conn_ok (c : Conn) : Prop := Forall (fun s => s <> []) (segs c) /\ closed c = false.

(** enough reads to drain a connection *)
Definition conn_fuel (c : Conn) : nat := S (length (concat (segs c)) + length (segs c)).

(** two connections that differ in the input that was consumed only *)
Definition same_output (c c' : Conn) : Prop :=
  rd_err c' = rd_err c /\ written c' = written c /\ wr_fault c' = wr_fault c /\
  deadline c' = deadline c /\ closed c' = closed c.

#[export] Instance same_output_preorder : PreOrder same_output.
Proof. split; [by intros c|]. unfold same_output. intros x y z H1 H2. intuition congruence. Qed.

Lemma conn_Read_spec c k : conn_ok c -> 0 < k ->
  match conn_Read c k with
  | (b, None, c') => b <> [] /\ zlen b <= k /\ concat (segs c) = b ++ concat (segs c') /\
                     conn_ok c' /\ same_output c c'
  | (b, Some e, c') => b = [] /\ e = rd_err c /\ segs c = [] /\ c' = c
  end.
Proof.
  intros [Hs Hc] Hk. unfold conn_Read. rewrite Hc. destruct (segs c) as [|s ss] eqn:E; [done|].
  apply Forall_cons in Hs as [Hs Hss]. destruct (zlen s <=? k) eqn:E1.
  - split_and!; try done; lia.
  - split_and!; try done.
    + destruct s; [done|]. intros H%(f_equal zlen). rewrite zlen_take in H. rewrite zlen_nil in H.
      pose proof (zlen_nonneg s). rewrite zlen_cons in H. lia.
    + rewrite zlen_take. lia.
    + cbn. by rewrite app_assoc, take_drop.
    + split; [|done]. cbn. apply Forall_cons. split; [|done]. intros H%(f_equal zlen). change (zlen (@nil Z)) with 0 in H. zl.
Qed.

(** ** [bufio.Reader]

    [rbuf] is the part of the buffer that has not been read; [size] its capacity.
    The source is a [timeoutReader]: [src] reads up to [k] bytes from the
    connection. *)
Record Reader : Type := mkReader { rbuf : list Z; rerr : option error }.

Definition NewReader : Reader := mkReader [] None.

(** the output side and the final error are left alone *)
Definition same_peer (c c' : Conn) : Prop :=
  rd_err c' = rd_err c /\ written c' = written c /\ wr_fault c' = wr_fault c.

Lemma same_peer_trans x y z : same_peer x y -> same_peer y z -> same_peer x z.
Proof. unfold same_peer. intuition congruence. Qed.

Lemma same_peer_refl c : same_peer c c.
Proof. done. Qed.

Section Bufio.
Context (src : Conn -> Z -> list Z * option error * Conn) (size : Z).
Implicit Types (r : Reader) (c : Conn).

Fixpoint fill_loop (tries : nat) r c : Reader * Conn :=
  match tries with
  | O => (mkReader (rbuf r) (Some ErrNoProgress), c)
  | S tries =>
      let '(b, err, c) := src c (size - zlen (rbuf r)) in
      let r := mkReader (rbuf r ++ b) (rerr r) in
      match err with
      | Some e => (mkReader (rbuf r) (Some e), c)
      | None => if 0 <? zlen b then (r, c) else fill_loop tries r c
      end
  end.

(** [fill]: maxConsecutiveEmptyReads is 100 *)
Definition fill r c : Reader * Conn := fill_loop 100 r c.

Definition readErr r : option error * Reader := (rerr r, mkReader (rbuf r) None).

(** the loop of [Peek]; every round adds a byte or records an error *)
Fixpoint peek_loop (fuel : nat) r c (n : Z) : Reader * Conn :=
  match fuel with
  | O => (r, c)
  | S fuel =>
      if (zlen (rbuf r) <? n) && (zlen (rbuf r) <? size) && (match rerr r with None => true | _ => false end)
      then let '(r, c) := fill r c in peek_loop fuel r c n
      else (r, c)
  end.

Definition Peek r c (n : Z) : list Z * option error * Reader * Conn :=
  if n <? 0 then ([], Some ErrNegativeCount, r, c)
  else
    let '(r, c) := peek_loop (S (Z.to_nat n)) r c n in
    if size <? n then (rbuf r, Some ErrBufferFull, r, c)
    else if zlen (rbuf r) <? n then
      let '(err, r) := readErr r in
      (rbuf r, Some (match err with Some e => e | None => ErrBufferFull end), r, c)
    else (take (Z.to_nat n) (rbuf r), None, r, c).

(** [Read] into a slice of [k] bytes *)
Definition Read r c (k : Z) : list Z * option error * Reader * Conn :=
  let copy r c := (take (Z.to_nat k) (rbuf r), None, mkReader (drop (Z.to_nat k) (rbuf r)) (rerr r), c) in
  if k =? 0 then
    if 0 <? zlen (rbuf r) then ([], None, r, c)
    else let '(err, r) := readErr r in ([], err, r, c)
  else if zlen (rbuf r) =? 0 then
    match rerr r with
    | Some _ => let '(err, r) := readErr r in ([], err, r, c)
    | None =>
        if size <=? k then
          let '(b, err, c) := src c k in
          let '(err, r) := readErr (mkReader [] err) in
          (b, err, r, c)
        else
          let '(b, err, c) := src c size in
          let r := mkReader b err in
          if zlen b =? 0 then let '(err, r) := readErr r in ([], err, r, c)
          else copy r c
    end
  else copy r c.

(** [io.ReadFull]: the bytes read and the error *)
Fixpoint readfull_loop (fuel : nat) r c (acc : list Z) (k : Z) : list Z * option error * Reader * Conn :=
  match fuel with
  | O => (acc, None, r, c)
  | S fuel =>
      if zlen acc <? k then
        let '(b, err, r, c) := Read r c (k - zlen acc) in
        match err with
        | Some e => (acc ++ b, Some e, r, c)
        | None => readfull_loop fuel r c (acc ++ b) k
        end
      else (acc, None, r, c)
  end.

Definition ReadFull r c (k : Z) : list Z * option error * Reader * Conn :=
  let '(b, err, r, c) := readfull_loop (S (length (rbuf r) + conn_fuel c)) r c [] k in
  if k <=? zlen b then (b, None, r, c)
  else if (0 <? zlen b) && bool_decide (err = Some EOF) then (b, Some ErrUnexpectedEOF, r, c)
  else (b, err, r, c).

Lemma fill_loop_error n r c e c' : src c (size - zlen (rbuf r)) = ([], Some e, c') ->
  fill_loop (S n) r c = (mkReader (rbuf r) (Some e), c').
Proof. intros H. cbn [fill_loop]. rewrite H. cbn. by rewrite app_nil_r. Qed.

Lemma fill_error r c e c' : src c (size - zlen (rbuf r)) = ([], Some e, c') ->
  fill r c = (mkReader (rbuf r) (Some e), c').
Proof. apply (fill_loop_error 99). Qed.

(** whatever a read from the source keeps, the reader's operations keep *)
Section Frame.
Context (P : Conn -> Prop) (Hsrc : forall c k b e c', src c k = (b, e, c') -> P c -> P c').

Lemma fill_loop_frame tries : forall r c r' c', fill_loop tries r c = (r', c') -> P c -> P c'.
Proof.
  induction tries as [|tries IH]; intros r c r' c'; cbn [fill_loop]; [by intros [= <- <-]|].
  destruct (src c _) as [[b e] c1] eqn:E. intros Hr Hc. apply (Hsrc _ _ _ _ _ E) in Hc. cbv zeta in Hr.
  destruct e; [by injection Hr as <- <-|]. destruct (0 <? zlen b); [by injection Hr as <- <-|by eapply IH].
Qed.

Lemma fill_frame r c r' c' : fill r c = (r', c') -> P c -> P c'.
Proof. apply (fill_loop_frame 100). Qed.

Lemma peek_loop_frame fuel : forall r c n r' c', peek_loop fuel r c n = (r', c') -> P c -> P c'.
Proof.
  induction fuel as [|fuel IH]; intros r c n r' c'; cbn [peek_loop]; [by intros [= <- <-]|].
  destruct (_ && _); [|by intros [= <- <-]]. destruct (fill r c) as [r1 c1] eqn:E. intros Hr Hc.
  eapply IH; [exact Hr|]. exact (fill_frame _ _ _ _ E Hc).
Qed.

Lemma Peek_frame r c n b e r' c' : Peek r c n = (b, e, r', c') -> P c -> P c'.
Proof.
  unfold Peek. destruct (n <? 0); [by intros [= <- <- <- <-]|].
  destruct (peek_loop _ r c n) as [r1 c1] eqn:E. intros Hr Hc. apply (peek_loop_frame _ _ _ _ _ _ E) in Hc.
  destruct (size <? n); [by injection Hr as <- <- <- <-|].
  destruct (_ <? n); [|by injection Hr as <- <- <- <-]. destruct (readErr r1). by injection Hr as <- <- <- <-.
Qed.

Lemma Read_frame r c k b e r' c' : Read r c k = (b, e, r', c') -> P c -> P c'.
Proof.
  unfold Read. cbv zeta. intros Hr Hc. destruct (k =? 0).
  { destruct (0 <? _); [by injection Hr as <- <- <- <-|]. destruct (readErr r). by injection Hr as <- <- <- <-. }
  destruct (zlen (rbuf r) =? 0); [|by injection Hr as <- <- <- <-].
  destruct (rerr r). { destruct (readErr r). by injection Hr as <- <- <- <-. }
  destruct (size <=? k).
  - destruct (src c k) as [[b1 e1] c1] eqn:E. apply (Hsrc _ _ _ _ _ E) in Hc. by injection Hr as <- <- <- <-.
  - destruct (src c size) as [[b1 e1] c1] eqn:E. apply (Hsrc _ _ _ _ _ E) in Hc.
    destruct (_ =? 0); by injection Hr as <- <- <- <-.
Qed.

Lemma readfull_loop_frame fuel : forall r c acc k b e r' c',
  readfull_loop fuel r c acc k = (b, e, r', c') -> P c -> P c'.
Proof.
  induction fuel as [|fuel IH]; intros r c acc k b e r' c'; cbn [readfull_loop]; [by intros [= <- <- <- <-]|].
  destruct (_ <? k); [|by intros [= <- <- <- <-]]. destruct (Read r c _) as [[[b1 e1] r1] c1] eqn:E. intros Hr Hc.
  apply (Read_frame _ _ _ _ _ _ _ E) in Hc. destruct e1; [by injection Hr as <- <- <- <-|by eapply IH].
Qed.

Lemma ReadFull_frame r c k b e r' c' : ReadFull r c k = (b, e, r', c') -> P c -> P c'.
Proof.
  unfold ReadFull. destruct (readfull_loop _ r c [] k) as [[[b1 e1] r1] c1] eqn:E. intros Hr Hc.
  apply (readfull_loop_frame _ _ _ _ _ _ _ _ _ E) in Hc.
  destruct (_ <=? _); [by injection Hr as <- <- <- <-|]. destruct (_ && _); by injection Hr as <- <- <- <-.
Qed.
End Frame.

(** ** What the reader promises: the stream, whatever its segmentation *)

(** the bytes ahead of the reader *)
Definition ahead r c : list Z := rbuf r ++ concat (segs c).

(** no pending error, within its capacity, on a live connection *)
Definition reader_ok r c : Prop := rerr r = None /\ zlen (rbuf r) <= size /\ conn_ok c.

(** how the source relates to the connection *)
Definition src_ok : Prop := forall c k, conn_ok c -> 0 < k ->
  match src c k with
  | (b, None, c') => b <> [] /\ zlen b <= k /\ concat (segs c) = b ++ concat (segs c') /\
       conn_ok c' /\ rd_err c' = rd_err c /\ written c' = written c /\ wr_fault c' = wr_fault c
  | (b, Some e, c') => b = [] /\ e = rd_err c /\ segs c = [] /\ segs c' = [] /\ conn_ok c' /\
       rd_err c' = rd_err c /\ written c' = written c /\ wr_fault c' = wr_fault c
  end.


Context (Hsize : 0 < size) (Hsrc : src_ok).

Lemma reader_ok_intro b c : zlen b <= size -> conn_ok c -> reader_ok (mkReader b None) c.
Proof. intros H Hc. split; [done|]. by split. Qed.

Lemma reader_ok_nil c : conn_ok c -> reader_ok (mkReader [] None) c.
Proof. apply reader_ok_intro. change (zlen (@nil Z)) with 0. lia. Qed.

Lemma fill_loop_S n r c :
  fill_loop (S n) r c =
    let '(b, err, c) := src c (size - zlen (rbuf r)) in
    let r := mkReader (rbuf r ++ b) (rerr r) in
    match err with
    | Some e => (mkReader (rbuf r) (Some e), c)
    | None => if 0 <? zlen b then (r, c) else fill_loop n r c
    end.
Proof. reflexivity. Qed.

Lemma fill_spec r c : rerr r = None -> zlen (rbuf r) < size -> conn_ok c ->
  match fill r c with
  | (r', c') => conn_ok c' /\ same_peer c c' /\ ahead r' c' = ahead r c /\ zlen (rbuf r') <= size /\
      ((rerr r' = None /\ zlen (rbuf r) < zlen (rbuf r')) \/
       (rerr r' = Some (rd_err c) /\ segs c' = [] /\ rbuf r' = rbuf r /\ segs c = []))
  end.
Proof.
  intros He Hl Hc. unfold fill. rewrite fill_loop_S. generalize 99%nat as tries. intros tries.
  pose proof (Hsrc c (size - zlen (rbuf r)) Hc ltac:(lia)) as H.
  destruct (src c _) as [[b [e|]] c'].
  - destruct H as (-> & -> & H1 & H2 & H3 & H4). cbn. rewrite app_nil_r. unfold ahead. cbn.
    rewrite H1, H2, app_nil_r. split_and!; try done; [lia|]. right. done.
  - destruct H as (Hb & Hk & H1 & H2 & H3). assert (0 < zlen b) by (destruct b; [done|]; zl).
    destruct (0 <? zlen b) eqn:E; [|lia]. unfold ahead. cbn. rewrite H1, app_assoc. rewrite zlen_app.
    split_and!; try done; [lia|]. left. rewrite He. split; [done|lia].
Qed.

Lemma peek_loop_spec fuel r c n : rerr r = None -> zlen (rbuf r) <= size -> conn_ok c -> n <= size ->
  n - zlen (rbuf r) < Z.of_nat fuel ->
  match peek_loop fuel r c n with
  | (r', c') => conn_ok c' /\ same_peer c c' /\ ahead r' c' = ahead r c /\ zlen (rbuf r') <= size /\
      ((rerr r' = None /\ n <= zlen (rbuf r')) \/
       (rerr r' = Some (rd_err c) /\ segs c' = [] /\ zlen (rbuf r') < n))
  end.
Proof.
  revert r c. induction fuel as [|fuel IH]; intros r c He Hl Hc Hn Hf; cbn [peek_loop].
  { split_and!; try done. left. split; [done|lia]. }
  rewrite He. destruct (zlen (rbuf r) <? n) eqn:E1; cbn [andb].
  2: { split_and!; try done. left. split; [done|lia]. }
  destruct (zlen (rbuf r) <? size) eqn:E2; [|lia]. cbn [andb].
  pose proof (fill_spec r c He ltac:(lia) Hc) as H. destruct (fill r c) as [r1 c1].
  destruct H as (Hc1 & Hp & Ha & Hs & [[He1 Hg]|(He1 & Hs1 & Hb & _)]).
  - pose proof (IH r1 c1 He1 Hs Hc1 Hn ltac:(lia)) as H. destruct (peek_loop fuel r1 c1 n) as [r' c'].
    destruct H as (? & Hp' & Ha' & ? & H). split_and!; try done; [by eapply same_peer_trans|congruence|].
    destruct Hp as [Hp _]. rewrite Hp in H. done.
  - destruct fuel as [|fuel]; [lia|]. cbn [peek_loop]. rewrite He1, andb_false_r.
    split_and!; try done. right. split_and!; try done. rewrite Hb. lia.
Qed.

(** [Peek] shows the next bytes of the stream without consuming them, or fails
    with the error that ends the stream when there are not enough. *)
Lemma Peek_spec r c n : reader_ok r c -> 0 <= n <= size ->
  exists r' c', reader_ok r' c' /\ same_peer c c' /\ ahead r' c' = ahead r c /\
    if n <=? zlen (ahead r c) then Peek r c n = (take (Z.to_nat n) (ahead r c), None, r', c')
    else Peek r c n = (ahead r c, Some (rd_err c), r', c') /\ segs c' = [].
Proof.
  intros (He & Hl & Hc) Hn. unfold Peek. destruct (n <? 0) eqn:E0; [lia|].
  pose proof (peek_loop_spec (S (Z.to_nat n)) r c n He Hl Hc ltac:(lia)) as H.
  pose proof (zlen_nonneg (rbuf r)). specialize (H ltac:(lia)).
  destruct (peek_loop _ r c n) as [r' c']. destruct H as (Hc' & Hp & Ha & Hs & H).
  destruct (size <? n) eqn:E1; [lia|].
  assert (Hz : zlen (ahead r c) = zlen (rbuf r') + zlen (concat (segs c'))) by (rewrite <- Ha; apply zlen_app).
  destruct H as [[He' Hg]|(He' & Hs' & Hg)].
  - exists r', c'. split; [done|]. split; [done|]. split; [done|]. pose proof (zlen_nonneg (concat (segs c'))).
    destruct (n <=? zlen (ahead r c)) eqn:E2; [|lia]. destruct (zlen (rbuf r') <? n) eqn:E3; [lia|].
    rewrite <- Ha. unfold ahead. rewrite take_app_le; [done|zl].
  - exists (mkReader (rbuf r') None), c'. split; [done|]. split; [done|]. split; [done|].
    rewrite Hs' in Hz. change (zlen (concat (@nil (list Z)))) with 0 in Hz.
    destruct (n <=? zlen (ahead r c)) eqn:E2; [lia|]. destruct (zlen (rbuf r') <? n) eqn:E3; [|lia].
    unfold readErr. rewrite He', <- Ha. unfold ahead. rewrite Hs'. cbn [concat rbuf]. by rewrite app_nil_r.
Qed.

(** one [Read] of [k] bytes yields a non-empty piece of the stream *)
Lemma Read_spec r c k : reader_ok r c -> 0 < k ->
  match Read r c k with
  | (b, None, r', c') => b <> [] /\ zlen b <= k /\ ahead r c = b ++ ahead r' c' /\ reader_ok r' c' /\ same_peer c c'
  | (b, Some e, r', c') => b = [] /\ e = rd_err c /\ ahead r c = [] /\ ahead r' c' = [] /\ reader_ok r' c' /\ same_peer c c'
  end.
Proof.
  intros (He & Hl & Hc) Hk. unfold Read. destruct (k =? 0) eqn:E0; [lia|].
  assert (Hcopy : forall r c, rerr r = None -> zlen (rbuf r) <= size -> conn_ok c -> rbuf r <> [] ->
    take (Z.to_nat k) (rbuf r) <> [] /\ zlen (take (Z.to_nat k) (rbuf r)) <= k /\
    ahead r c = take (Z.to_nat k) (rbuf r) ++ ahead (mkReader (drop (Z.to_nat k) (rbuf r)) (rerr r)) c /\
    reader_ok (mkReader (drop (Z.to_nat k) (rbuf r)) (rerr r)) c).
  { clear r c He Hl Hc. intros r c He Hl Hc Hb. split_and!; cbn; try done.
    - destruct (rbuf r) as [|x l]; [done|]. destruct (Z.to_nat k) eqn:Ek; [lia|done].
    - rewrite zlen_take. lia.
    - unfold ahead. cbn. by rewrite app_assoc, take_drop.
    - rewrite He. apply reader_ok_intro; [|done]. rewrite zlen_drop. pose proof (zlen_nonneg (rbuf r)). lia. }
  destruct (zlen (rbuf r) =? 0) eqn:E1.
  - assert (Hnil : rbuf r = []) by (apply zlen_zero_nil; lia). rewrite He.
    destruct (size <=? k) eqn:E2.
    + pose proof (Hsrc c k Hc Hk) as H. destruct (src c k) as [[b [e|]] c'].
      * destruct H as (-> & -> & Hs & Hs' & Hc' & Hp). unfold readErr. cbn. unfold ahead. rewrite Hnil, Hs. cbn.
        rewrite Hs'. split_and!; try done. by apply reader_ok_nil.
      * destruct H as (Hb & Hbk & Hs & Hc' & Hp). unfold readErr. cbn. unfold ahead. rewrite Hnil. cbn.
        split_and!; try done. by apply reader_ok_nil.
    + pose proof (Hsrc c size Hc ltac:(lia)) as H. destruct (src c size) as [[b [e|]] c'].
      * destruct H as (-> & -> & Hs & Hs' & Hc' & Hp). change (zlen (@nil Z)) with 0. cbn [Z.eqb]. unfold readErr. cbn.
        unfold ahead. rewrite Hnil, Hs. cbn. rewrite Hs'. split_and!; try done. by apply reader_ok_nil.
      * destruct H as (Hb & Hbk & Hs & Hc' & Hp). destruct (zlen b =? 0) eqn:E3.
        { assert (b = []) by (apply zlen_zero_nil; lia). done. }
        destruct (Hcopy (mkReader b None) c') as (H1 & H2 & H3 & H4); try done.
        cbn [rbuf rerr] in *. split_and!; try done. unfold ahead at 1. rewrite Hnil, Hs. cbn. exact H3.
  - destruct (Hcopy r c) as (H1 & H2 & H3 & H4); try done. intros Hn. rewrite Hn in E1. done.
Qed.

Lemma readfull_loop_spec fuel r c acc k : reader_ok r c -> zlen acc <= k ->
  zlen (ahead r c) < Z.of_nat fuel ->
  exists r' c', reader_ok r' c' /\ same_peer c c' /\
    if k <=? zlen acc + zlen (ahead r c) then
      readfull_loop fuel r c acc k = (acc ++ take (Z.to_nat (k - zlen acc)) (ahead r c), None, r', c') /\
    ahead r' c' = drop (Z.to_nat (k - zlen acc)) (ahead r c)
    else readfull_loop fuel r c acc k = (acc ++ ahead r c, Some (rd_err c), r', c') /\ ahead r' c' = [].
Proof.
  revert r c acc. induction fuel as [|fuel IH]; intros r c acc Hr Hk Hf; [pose proof (zlen_nonneg (ahead r c)); lia|].
  cbn [readfull_loop]. destruct (zlen acc <? k) eqn:E1.
  2: { exists r, c. split_and!; try done. pose proof (zlen_nonneg (ahead r c)).
    destruct (k <=? _) eqn:E2; [|lia]. replace (k - zlen acc) with 0 by lia. cbn. by rewrite app_nil_r. }
  pose proof (Read_spec r c (k - zlen acc) Hr ltac:(lia)) as H.
  destruct (Read r c (k - zlen acc)) as [[[b [e|]] r1] c1].
  - destruct H as (-> & -> & Ha & Ha' & Hr' & Hp). exists r1, c1. split_and!; try done. rewrite Ha.
    change (zlen (@nil Z)) with 0. destruct (k <=? _) eqn:E2; [lia|done].
  - destruct H as (Hb & Hbk & Ha & Hr' & Hp). assert (Hpos : 0 < zlen b) by (destruct b; [done|]; zl).
    assert (Hz : zlen (ahead r c) = zlen b + zlen (ahead r1 c1)) by (rewrite Ha; apply zlen_app).
    destruct (IH r1 c1 (acc ++ b) Hr' ltac:(rewrite zlen_app; lia) ltac:(lia)) as (r' & c' & Hr'' & Hp' & H).
    exists r', c'. split_and!; try done; [by eapply same_peer_trans|].
    rewrite zlen_app, <- Z.add_assoc, <- Hz in H. destruct (k <=? _) eqn:E2.
    + destruct H as [-> ->]. rewrite Ha. rewrite <- app_assoc. rewrite take_app_ge, drop_app_ge by zl.
      replace (Z.to_nat (k - zlen acc) - length b)%nat with (Z.to_nat (k - (zlen acc + zlen b))) by (unfold zlen; lia).
      done.
    + destruct H as [-> ->]. rewrite Ha, app_assoc. destruct Hp as [-> _]. done.
Qed.

(** [ReadFull] takes exactly the next [k] bytes off the stream, or everything
    there is and an error. *)
Lemma ReadFull_spec r c k : reader_ok r c -> 0 <= k ->
  exists r' c', reader_ok r' c' /\ same_peer c c' /\
    if k <=? zlen (ahead r c) then
      ReadFull r c k = (take (Z.to_nat k) (ahead r c), None, r', c') /\ ahead r' c' = drop (Z.to_nat k) (ahead r c)
    else exists e, ReadFull r c k = (ahead r c, Some e, r', c') /\ ahead r' c' = [].
Proof.
  intros Hr Hk. unfold ReadFull. set (fuel := S _).
  assert (Hf : zlen (ahead r c) < Z.of_nat fuel).
  { unfold fuel, conn_fuel, ahead, zlen. rewrite length_app. lia. }
  destruct (readfull_loop_spec fuel r c [] k Hr ltac:(by change (zlen (@nil Z)) with 0) Hf) as (r' & c' & Hr' & Hp & H).
  change (zlen (@nil Z)) with 0 in H. rewrite Z.sub_0_r, Z.add_0_l in H.
  exists r', c'. split_and!; try done. destruct (k <=? zlen (ahead r c)) eqn:E; destruct H as [-> Ha]; cbn [app].
  - rewrite zlen_take. apply Z.leb_le in E. rewrite (proj2 (Z.leb_le k _)); [done|]. lia.
  - rewrite E. destruct (_ && _); by eexists.
Qed.

End Bufio.

(** ** [bufio.Writer]

    A writer of [wsize] bytes over a connection; [wbuf] is what has not been
    flushed. *)
Record Writer : Type := mkWriter { wsize : Z; wbuf : list Z; werr : option error }.

Definition NewWriterSize (size : Z) : Writer := mkWriter (if size <=? 0 then 4096 else size) [] None.

Definition Available (w : Writer) : Z := wsize w - zlen (wbuf w).

(** [Reset] keeps the buffer and drops what is in it. *)
Definition Reset (w : Writer) : Writer := mkWriter (wsize w) [] None.

Definition ErrShortWrite : error := ErrorsNew "short write".

Definition Flush (w : Writer) (c : Conn) : option error * Writer * Conn :=
  match werr w with
  | Some e => (Some e, w, c)
  | None =>
      if zlen (wbuf w) =? 0 then (None, w, c)
      else
        let '(n, err, c) := conn_Write c (wbuf w) in
        let err := if (n <? zlen (wbuf w)) && bool_decide (err = None) then Some ErrShortWrite else err in
        match err with
        | Some e => (Some e, mkWriter (wsize w) (drop (Z.to_nat n) (wbuf w)) (Some e), c)
        | None => (None, mkWriter (wsize w) [] None, c)
        end
  end.

(** the loop of [Write]: while the data does not fit, write it directly when the
    buffer is empty, else fill the buffer and flush *)
Fixpoint write_loop (fuel : nat) (w : Writer) (c : Conn) (p : list Z) (nn : Z) : Z * option error * Writer * Conn :=
  match fuel with
  | O => (nn, werr w, w, c)
  | S fuel =>
      if (Available w <? zlen p) && bool_decide (werr w = None) then
        if zlen (wbuf w) =? 0 then
          let '(n, err, c) := conn_Write c p in
          write_loop fuel (mkWriter (wsize w) [] err) c (drop (Z.to_nat n) p) (nn + n)
        else
          let n := Z.min (Available w) (zlen p) in
          let w := mkWriter (wsize w) (wbuf w ++ take (Z.to_nat n) p) (werr w) in
          let '(_, w, c) := Flush w c in
          write_loop fuel w c (drop (Z.to_nat n) p) (nn + n)
      else
        match werr w with
        | Some e => (nn, Some e, w, c)
        | None => (nn + zlen p, None, mkWriter (wsize w) (wbuf w ++ p) None, c)
        end
  end.

Definition Write (w : Writer) (c : Conn) (p : list Z) : Z * option error * Writer * Conn :=
  write_loop (S (S (length p))) w c p 0.
