(* ===== verification/Framing.v ===== *)
(** * Framing: packets on a connection

    [service/misc.go] reads and writes the packets of the handshake directly on
    the connection; [service/readwrite.go] cuts the stream of an established
    connection into packets through a [bufio.Reader] and sends packets through
    pooled [bufio.Writer]s; [timeoutReader] is in [service/sendrecv.go]. *)
From stdpp Require Import base list strings.
From Stdlib Require Import ZArith Lia.
From S2P Require Import Prelude GoLang NetConn MsgTypes Header Connect Connack Message.

Definition ErrInvalidConnectionType : error := ErrorsNew "service: Invalid connection type".
Definition ErrMessageTooLarge : error := ErrorsNew "mqtt: message size exceeds 256K".

(** an [io.Closer] as the code meets it: nil, a [net.Conn], or something else *)
Inductive closer : Type :=
| CNil
| COther
| CNet (c : Conn).

(** ** The handshake: [getMessageBuffer], [getConnectMessage], [writeMessage] *)

(** the first loop: one byte at a time up to the end of the remaining length *)
Fixpoint header_loop (fuel : nat) (c : Conn) (buf : list Z) (l : Z) : (list Z * Z + error) * Conn :=
  match fuel with
  | O => (inr ErrNoProgress, c)
  | S fuel =>
      if 5 <? l then
        (inr (Errorf "connect/getMessage: 4th byte of remaining length has continuation bit set" []), c)
      else
        let '(b, err, c) := conn_Read c 1 in
        match err with
        | Some e => (inr e, c)
        | None =>
            match b with
            | [] => header_loop fuel c buf l
            | b0 :: _ =>
                let n := zlen b in
                let buf := buf ++ b in
                let l := l + n in
                if (1 <? l) && (b0 <? 128) then (inl (buf, l), c) else header_loop fuel c buf l
            end
        end
  end.

(** the second loop: the rest of the packet *)
Fixpoint body_loop (fuel : nat) (c : Conn) (buf : list Z) (l : Z) : (list Z + error) * Conn :=
  match fuel with
  | O => (inr ErrNoProgress, c)
  | S fuel =>
      if l <? zlen buf then
        let '(b, err, c) := conn_Read c (zlen buf - l) in
        match err with
        | Some e => (inr e, c)
        | None => body_loop fuel c (take (Z.to_nat l) buf ++ b ++ drop (Z.to_nat (l + zlen b)) buf) (l + zlen b)
        end
      else (inl buf, c)
  end.

(** the length of the buffer the packet is read into *)
Definition body_size (buf : list Z) : Z := fst (Uvarint (drop 1 buf)).

Definition getMessageBuffer (cl : closer) : (list Z + error) * closer :=
  match cl with
  | CNil | COther => (inr ErrInvalidConnectionType, cl)
  | CNet c =>
      match header_loop (conn_fuel c) c [] 0 with
      | (inr e, c) => (inr e, CNet c)
      | (inl (buf, l), c) =>
          let buf := buf ++ replicate (Z.to_nat (body_size buf)) 0 in
          let '(r, c) := body_loop (conn_fuel c) c buf l in (r, CNet c)
      end
  end.

(** [sp]: the capacity [append] left behind the buffer *)
Definition getConnectMessage (sp : list Z) (cl : closer)
  : outcome ((ConnectMessage + error) * option error * closer) :=
  match getMessageBuffer cl with
  | (inr e, cl) => Ret (inr e, Some e, cl)
  | (inl buf, cl) =>
      let! (msg, _, err) := Connect.Decode NewConnectMessage (Slice buf sp) in
      Ret (inl msg, err, cl)
  end.

Definition getConnackMessage (sp : list Z) (cl : closer)
  : outcome ((ConnackMessage + error) * option error * closer) :=
  match getMessageBuffer cl with
  | (inr e, cl) => Ret (inr e, Some e, cl)
  | (inl buf, cl) =>
      let! (msg, _, err) := Connack.Decode NewConnackMessage (Slice buf sp) in
      Ret (inl msg, err, cl)
  end.

Definition writeMessageBuffer (cl : closer) (b : list Z) : option error * closer :=
  match cl with
  | CNil | COther => (Some ErrInvalidConnectionType, cl)
  | CNet c => let '(_, err, c) := conn_Write c b in (err, CNet c)
  end.

(** [writeMessage] on the counter [g] of packet identifiers *)
Definition writeMessage (cl : closer) (g : Z) (msg : Message)
  : outcome (option error * Message * Z * closer) :=
  let! (msg, ml) := msg_Len msg in
  let! (msg, g, buf, _, err) := msg_Encode msg g (replicate (Z.to_nat ml) 0) in
  match err with
  | Some e => Ret (Some e, msg, g, cl)
  | None => let '(err, cl) := writeMessageBuffer cl buf in Ret (err, msg, g, cl)
  end.

(** ** The established connection: [timeoutReader], [getPeekMessageSize],
    [getPeekMessage] *)

Definition defaultReadSize : Z := 1024.

(** [d]: the seconds of the heartbeat *)
Definition timeoutReader_Read (d : Z) (c : Conn) (k : Z) : list Z * option error * Conn :=
  match SetReadDeadline c d with
  | (Some e, c) => ([], Some e, c)
  | (None, c) => conn_Read c k
  end.

Section Receive.
Context (d : Z).

Abbreviation Peek := (Peek (timeoutReader_Read d) defaultReadSize).
Abbreviation ReadFull := (ReadFull (timeoutReader_Read d) defaultReadSize).

(** [cnt] goes from 2 to 6; a short [Peek] without an error would repeat a round *)
Fixpoint peek_header (fuel : nat) (r : Reader) (c : Conn) (cnt : Z) : (list Z + error) * Reader * Conn :=
  match fuel with
  | O => (inr ErrNoProgress, r, c)
  | S fuel =>
      if 5 <? cnt then
        (inr (Errorf "readwrite/getPeekMessageSize: 4th byte of remaining length has continuation bit set" []), r, c)
      else
        let '(b, err, r, c) := Peek r c cnt in
        match err with
        | Some e => (inr e, r, c)
        | None =>
            if zlen b <? cnt then peek_header fuel r c cnt
            else
              match b !! Z.to_nat (cnt - 1) with
              | Some x => if 128 <=? x then peek_header fuel r c (cnt + 1) else (inl b, r, c)
              | None => (inr ErrNoProgress, r, c)
              end
        end
  end.

(** the packet type and the length of the packet *)
Definition getPeekMessageSize (r : Reader) (c : Conn) : outcome ((Z * Z + error) * Reader * Conn) :=
  match peek_header 5 r c 2 with
  | (inr e, r, c) => Ret (inr e, r, c)
  | (inl b, r, c) =>
      let! rest := slice_from (mkslice b) 1 in
      let '(remlen, m) := Uvarint (vis rest) in
      let total := i64 remlen + 1 + m in
      let! b0 := index b 0 in
      let mtype := Z.shiftr b0 4 in
      Ret (inl (mtype, total), r, c)
  end.

(** The error of [io.ReadFull] is logged and dropped: the buffer then holds what
    was read, followed by zeros. *)
Definition getPeekMessage (r : Reader) (c : Conn) (mtype total : Z)
  : outcome (option Message * Z * option error * Reader * Conn) :=
  if total <? 0 then Panic (CustomPanic "makeslice: len out of range")
  else
    let '(got, _, r, c) := ReadFull r c total in
    let b := got ++ replicate (Z.to_nat (total - zlen got)) 0 in
    match New mtype with
    | inr e => Ret (None, 0, Some e, r, c)
    | inl msg =>
        let! (msg, n, err) := msg_Decode msg (mkslice b) in
        Ret (Some msg, n, err, r, c)
    end.

End Receive.

(** ** Sending: [sendData] and its pools of writers *)

Definition defaultWriteSize2K : Z := Z.shiftl 2 10.
Definition defaultWriteSize4K : Z := Z.shiftl 4 10.
Definition defaultWriteSize8K : Z := Z.shiftl 8 10.

(** the three pools; [bufioWriter8kPool] is declared and never reached *)
Record Pools : Type := mkPools { pool2k : list Writer; pool4k : list Writer; pool8k : list Writer }.

Inductive poolref : Type := P2k | P4k.

Definition bufioWriterPool (size : Z) : option poolref :=
  if size =? Z.shiftl 2 10 then Some P2k
  else if size =? Z.shiftl 4 10 then Some P4k
  else None.

Definition pool_of (ps : Pools) (p : poolref) : list Writer :=
  match p with P2k => pool2k ps | P4k => pool4k ps end.
Definition set_pool (ps : Pools) (p : poolref) (l : list Writer) : Pools :=
  match p with P2k => mkPools l (pool4k ps) (pool8k ps) | P4k => mkPools (pool2k ps) l (pool8k ps) end.

Section Send.
(** [sync.Pool.Get] may give any writer it holds, or none *)
Context (wpick : list Writer -> option nat).

Definition newBufioWriterSize (ps : Pools) (size : Z) : Writer * Pools :=
  match bufioWriterPool size with
  | Some p =>
      match (i ← wpick (pool_of ps p); w ← pool_of ps p !! i; Some (i, w)) with
      | Some (i, w) => (Reset w, set_pool ps p (delete i (pool_of ps p)))
      | None => (NewWriterSize size, ps)
      end
  | None => (NewWriterSize size, ps)
  end.

Definition putBufioWriter (ps : Pools) (w : Writer) : Pools :=
  let w := Reset w in
  match bufioWriterPool (Available w) with
  | Some p => set_pool ps p (w :: pool_of ps p)
  | None => ps
  end.

(** the size class of a packet of [n] bytes *)
Definition writer_size (n : Z) : Z :=
  if n <=? defaultWriteSize2K then defaultWriteSize2K
  else if (defaultWriteSize2K <? n) && (n <=? defaultWriteSize4K) then defaultWriteSize4K
  else if (defaultWriteSize4K <? n) && (n <=? defaultWriteSize8K) then defaultWriteSize8K
  else n.

Record Sent : Type := mkSent {
  sn_pools : Pools; sn_g : Z; sn_msg : Message; sn_conn : option Conn; sn_n : Z; sn_err : option error
}.

(** [sendData]; the connection of the service may be nil.  The deferred function
    does not recover panics: [recover] is not called by it directly. *)
Definition sendData (ps : Pools) (g : Z) (conn : option Conn) (msg : Message) : outcome Sent :=
  let! (msg, l) := msg_Len msg in
  let! (msg, g, buf, n, err) := msg_Encode msg g (replicate (Z.to_nat l) 0) in
  match err with
  | Some e => Ret (mkSent ps g msg conn n (Some e))
  | None =>
      let! buf := subslice buf 0 n in
      match conn with
      | None => Ret (mkSent ps g msg None 0 None)
      | Some c =>
          let size := writer_size n in
          let '(w, ps) := newBufioWriterSize ps size in
          let '(_, err, w, c) := Write w c buf in
          match err with
          | Some e => Ret (mkSent ps g msg (Some c) 0 (Some e))
          | None =>
              let '(err, w, c) := Flush w c in
              match err with
              | Some e => Ret (mkSent ps g msg (Some c) 0 (Some e))
              | None =>
                  let ps := if (size =? defaultWriteSize2K) || (size =? defaultWriteSize4K)
                               || (size =? defaultWriteSize8K)
                            then putBufioWriter ps w else ps in
                  Ret (mkSent ps g msg (Some c) 0 None)
              end
          end
      end
  end.

End Send.

(** ** Packets on the wire *)

(** a packet: a header byte, the length of the body, the body *)
Definition frame (b : Z) (body : list Z) : list Z := hdr_wire b (zlen body) ++ body.

(** the bytes of a length: continuation bytes, then a last one *)
Lemma uvarint_shape f : forall x, 0 <= x < 2 ^ (7 * (Z.of_nat f + 1)) ->
  exists init last, uvarint_bytes f x = init ++ [last] /\ Forall (fun b => 128 <= b) init /\ last < 128 /\
    (length init <= f)%nat.
Proof.
  induction f as [|f IH]; intros x Hx.
  - change (2 ^ (7 * (Z.of_nat 0 + 1))) with 128 in Hx. exists [], (u8 x). rewrite uvarint_bytes_0.
    split_and!; try done. rewrite u8_small by (unfold is_byte; lia). lia.
  - rewrite uvarint_bytes_S. destruct (128 <=? x) eqn:E.
    + destruct (IH (Z.shiftr x 7)) as (init & last & -> & Hi & Hl & Hn).
      { rewrite Z.shiftr_div_pow2 by lia. split; [apply Z.div_pos; lia|].
        apply Z.div_lt_upper_bound; [lia|]. rewrite <- Z.pow_add_r by lia.
        replace (7 + 7 * (Z.of_nat f + 1)) with (7 * (Z.of_nat (S f) + 1)) by lia. lia. }
      exists (Z.lor (u8 x) 128 :: init), last. split_and!; try done; [|cbn; lia].
      apply Forall_cons. split; [|done]. destruct (uvarint_head x); lia.
    + exists [], (u8 x). split_and!; try done; [|cbn; lia]. rewrite u8_small by (unfold is_byte; lia). lia.
Qed.

Lemma uvarint_shape_at f x : (f <= 9)%nat -> 0 <= x < 2 ^ (7 * (Z.of_nat f + 1)) ->
  exists init last, uvarint_bytes 10 x = init ++ [last] /\ Forall (fun b => 128 <= b) init /\ last < 128 /\
    (length init <= f)%nat.
Proof. intros Hf Hx. rewrite (uvarint_bytes_fuel f 10 x) by (done || lia). by apply uvarint_shape. Qed.

(** ** Reading the handshake *)

Lemma conn_Read_one c x xs : conn_ok c -> concat (segs c) = x :: xs ->
  exists c', conn_Read c 1 = ([x], None, c') /\ concat (segs c') = xs /\ conn_ok c' /\ same_output c c'.
Proof.
  intros Hc Hx. pose proof (conn_Read_spec c 1 Hc ltac:(lia)) as H.
  destruct (conn_Read c 1) as [[b [e|]] c'].
  - destruct H as (_ & _ & Hs & _). rewrite Hs in Hx. done.
  - destruct H as (Hb & Hk & Hs & Hc' & Ho). rewrite Hx in Hs.
    destruct b as [|y [|z b]]; [done| |].
    + injection Hs as -> ->. by exists c'.
    + rewrite !zlen_cons in Hk. pose proof (zlen_nonneg b). lia.
Qed.

Lemma header_loop_tail init : forall c buf last rest fuel,
  conn_ok c -> concat (segs c) = init ++ last :: rest ->
  Forall (fun b => 128 <= b) init -> last < 128 -> 1 <= zlen buf -> zlen buf + zlen init <= 5 ->
  (length init < fuel)%nat ->
  exists c', header_loop fuel c buf (zlen buf) = (inl (buf ++ init ++ [last], zlen (buf ++ init ++ [last])), c') /\
    concat (segs c') = rest /\ conn_ok c' /\ same_output c c'.
Proof.
  induction init as [|x init IH]; intros c buf last rest fuel Hc Hs Hi Hl Hb Hz Hf;
    (destruct fuel as [|fuel]; [cbn in Hf; lia|]); cbn [header_loop]; cbn [app] in Hs;
    destruct (conn_Read_one _ _ _ Hc Hs) as (c1 & -> & Hs1 & Hc1 & Ho).
  - change (zlen (@nil Z)) with 0 in Hz. destruct (5 <? zlen buf) eqn:E; [lia|]. cbv zeta.
    change (zlen [last]) with 1. destruct (_ && _) eqn:E1; [|lia]. exists c1.
    rewrite app_nil_l, zlen_app. by change (zlen [last]) with 1.
  - apply Forall_cons in Hi as [Hx Hi]. rewrite zlen_cons in Hz. pose proof (zlen_nonneg init).
    destruct (5 <? zlen buf) eqn:E; [lia|]. cbv zeta. change (zlen [x]) with 1.
    destruct (_ && _) eqn:E1; [lia|].
    replace (zlen buf + 1) with (zlen (buf ++ [x])) by (rewrite zlen_app; by change (zlen [x]) with 1).
    destruct (IH c1 (buf ++ [x]) last rest fuel) as (c' & -> & H1 & H2 & H3); try done.
    + rewrite zlen_app. pose proof (zlen_nonneg [x]). lia.
    + rewrite zlen_app. change (zlen [x]) with 1. lia.
    + cbn in Hf. lia.
    + exists c'. rewrite <- app_assoc. cbn [app]. split_and!; try done. by etrans.
Qed.

Lemma conn_fuel_len c : (length (concat (segs c)) < conn_fuel c)%nat.
Proof. unfold conn_fuel. lia. Qed.

(** the fixed header is read up to the end of the length, which may take five
    bytes *)
Lemma header_loop_spec c b n rest : conn_ok c -> 0 <= n < 2 ^ 35 ->
  concat (segs c) = hdr_wire b n ++ rest ->
  exists c', header_loop (conn_fuel c) c [] 0 = (inl (hdr_wire b n, zlen (hdr_wire b n)), c') /\
    concat (segs c') = rest /\ conn_ok c' /\ same_output c c'.
Proof.
  intros Hc Hn Hs. pose proof (conn_fuel_len c) as Hf. rewrite Hs in Hf.
  destruct (uvarint_shape_at 4 n) as (init & last & Hu & Hi & Hl & Hk); [lia|done|].
  unfold hdr_wire in *. rewrite Hu in *. cbn [app] in Hs. rewrite <- app_assoc in Hs. cbn [app] in Hs.
  destruct (conn_fuel c) as [|fuel]; [cbn in Hf; lia|]. cbn [header_loop].
  destruct (conn_Read_one _ _ _ Hc Hs) as (c1 & -> & Hs1 & Hc1 & Ho). change (5 <? 0) with false. cbv beta iota zeta.
  change (0 + zlen [b]) with (zlen [b]). change (1 <? zlen [b]) with false. cbn [andb app].
  destruct (header_loop_tail init c1 [b] last rest fuel) as (c' & -> & H1 & H2 & H3); try done.
  - change (zlen [b]) with 1. unfold zlen. lia.
  - cbn in Hf. rewrite !length_app in Hf. lia.
  - exists c'. cbn [app]. split_and!; try done. by etrans.
Qed.

Lemma body_loop_spec fuel : forall c pre zs body rest,
  conn_ok c -> concat (segs c) = body ++ rest -> zlen zs = zlen body -> (length body < fuel)%nat ->
  exists c', body_loop fuel c (pre ++ zs) (zlen pre) = (inl (pre ++ body), c') /\
    concat (segs c') = rest /\ conn_ok c' /\ same_output c c'.
Proof.
  induction fuel as [|fuel IH]; intros c pre zs body rest Hc Hs Hz Hf; [lia|]. cbn [body_loop].
  rewrite zlen_app. destruct (zlen pre <? zlen pre + zlen zs) eqn:E.
  - pose proof (conn_Read_spec c (zlen pre + zlen zs - zlen pre) Hc ltac:(lia)) as H.
    destruct (conn_Read c _) as [[b [e|]] c1].
    + destruct H as (_ & _ & Hn & _). rewrite Hn in Hs. destruct body; [|done]. zl.
    + destruct H as (Hb & Hk & Hs1 & Hc1 & Ho). rewrite Hs in Hs1.
      assert (Hp : body = b ++ drop (length b) body).
      { rewrite <- (take_drop (length b) body) at 1. f_equal.
        apply (f_equal (take (length b))) in Hs1. rewrite take_app_length in Hs1.
        rewrite take_app_le in Hs1 by zl. done. }
      set (body' := drop (length b) body) in *. clearbody body'. subst body.
      rewrite <- app_assoc in Hs1. apply app_inv_head in Hs1.
      rewrite take_zlen_app by done. rewrite drop_app_ge by zl.
      replace (Z.to_nat (zlen pre + zlen b) - length pre)%nat with (length b) by (unfold zlen; lia).
      rewrite app_assoc. rewrite <- zlen_app. rewrite zlen_app in Hz.
      assert (Hpos : 0 < zlen b) by (destruct b; [done|]; zl).
      destruct (IH c1 (pre ++ b) (drop (length b) zs) body' rest) as (c' & -> & H1 & H2 & H3); try done.
      * zl.
      * rewrite length_app in Hf. unfold zlen in Hpos. lia.
      * exists c'. rewrite <- app_assoc. split_and!; try done. by etrans.
  - assert (zs = []) as -> by (apply zlen_zero_nil; pose proof (zlen_nonneg zs); lia).
    assert (body = []) as -> by (apply zlen_zero_nil; rewrite <- Hz; done).
    exists c. by rewrite !app_nil_r.
Qed.

(** the bytes of a CONNECT, in whatever segments *)
Lemma getMessageBuffer_ok c b body rest :
  conn_ok c -> zlen body < 2 ^ 35 -> concat (segs c) = frame b body ++ rest ->
  exists c', getMessageBuffer (CNet c) = (inl (frame b body), CNet c') /\
    concat (segs c') = rest /\ same_output c c' /\ body_size (hdr_wire b (zlen body)) = zlen body.
Proof.
  intros Hc Hn Hs. unfold frame in Hs. rewrite <- app_assoc in Hs. pose proof (zlen_nonneg body).
  assert (Hu : body_size (hdr_wire b (zlen body)) = zlen body).
  { pose proof (Uvarint_roundtrip (zlen body) [] ltac:(lia)) as E. rewrite app_nil_r in E.
    unfold body_size, hdr_wire. change (drop 1 (b :: uvarint_bytes 10 (zlen body))) with (uvarint_bytes 10 (zlen body)).
    by rewrite E. }
  destruct (header_loop_spec c b (zlen body) (body ++ rest)) as (c1 & H1 & Hs1 & Hc1 & Ho1); try done.
  unfold getMessageBuffer. rewrite H1, Hu.
  pose proof (conn_fuel_len c1) as Hf. rewrite Hs1, length_app in Hf.
  destruct (body_loop_spec (conn_fuel c1) c1 (hdr_wire b (zlen body)) (replicate (Z.to_nat (zlen body)) 0) body rest)
    as (c' & -> & Hs2 & Hc2 & Ho2); try done; [zl|lia|].
  exists c'. split_and!; try done. by etrans.
Qed.

(** C25: Whatever the segments in which a packet arrives, [getMessageBuffer] returns
    exactly the packet: type byte, length and body, and leaves the bytes that
    follow on the connection.  It does so within the reads the connection can
    deliver.  The length may take five bytes, one more than MQTT allows, so a peer
    that has not authenticated yet can make it allocate up to [2^35 - 1] bytes. *)
Theorem handshake_packet_exact c b body rest :
  conn_ok c -> zlen body < 2 ^ 35 -> concat (segs c) = frame b body ++ rest ->
  exists c', getMessageBuffer (CNet c) = (inl (frame b body), CNet c') /\
    concat (segs c') = rest /\ same_output c c' /\ body_size (hdr_wire b (zlen body)) = zlen body.
Proof. apply getMessageBuffer_ok. Qed.

Lemma handshake_packet_exact_witness :
  exists c', getMessageBuffer (CNet (dial [[16]; [2; 7]; [8; 9]] EOF)) = (inl [16; 2; 7; 8], CNet c') /\
    concat (segs c') = [9].
Proof.
  destruct (handshake_packet_exact (dial [[16]; [2; 7]; [8; 9]] EOF) 16 [7; 8] [9]) as (c' & H1 & H2 & _);
    [split; [repeat constructor; discriminate|reflexivity]|vm_compute; reflexivity|reflexivity|].
  exists c'. split; [exact H1|exact H2].
Defined.

(** ** Cutting the stream of an established connection *)

Lemma timeoutReader_ok d : src_ok (timeoutReader_Read d).
Proof.
  intros c k Hc Hk. unfold timeoutReader_Read, SetReadDeadline.
  pose proof Hc as [_ Hcl]. rewrite Hcl.
  pose proof (conn_Read_spec (with_deadline d c) k Hc Hk) as H.
  destruct (conn_Read (with_deadline d c) k) as [[b [e|]] c'].
  - destruct H as (-> & -> & Hs & ->). cbn in Hs. split_and!; done.
  - destruct H as (Hb & Hz & Hs & Hc' & H1 & H2 & H3 & _). by split_and!.
Qed.

Section ReceiveSpec.
Context (d : Z).

Abbreviation Peek := (NetConn.Peek (timeoutReader_Read d) defaultReadSize).
Abbreviation live := (reader_ok defaultReadSize).

(** peeking [cnt] bytes of a stream that has them *)
Lemma peek_some r c n : live r c -> 0 <= n <= defaultReadSize -> n <= zlen (ahead r c) ->
  exists r' c', Peek r c n = (take (Z.to_nat n) (ahead r c), None, r', c') /\
    live r' c' /\ same_peer c c' /\ ahead r' c' = ahead r c.
Proof.
  intros Hr Hn Hz. destruct (Peek_spec (timeoutReader_Read d) defaultReadSize (timeoutReader_ok d) r c n Hr Hn)
    as (r' & c' & Hr' & Hp & Ha & H). destruct (n <=? zlen (ahead r c)) eqn:E; [|lia]. by exists r', c'.
Qed.

Lemma peek_header_spec fuel : forall r c cnt b init last rest,
  live r c -> ahead r c = b :: init ++ last :: rest -> Forall (fun x => 128 <= x) init -> last < 128 ->
  2 <= cnt -> cnt <= zlen init + 2 -> zlen init <= 3 -> zlen init + 2 - cnt < Z.of_nat fuel ->
  exists r' c', peek_header d fuel r c cnt = (inl (b :: init ++ [last]), r', c') /\
    live r' c' /\ same_peer c c' /\ ahead r' c' = ahead r c.
Proof.
  induction fuel as [|fuel IH]; intros r c cnt b init last rest Hr Ha Hi Hl H2 Hc H3 Hf; [lia|].
  cbn [peek_header]. destruct (5 <? cnt) eqn:E; [lia|].
  assert (Hz : zlen (ahead r c) = zlen init + 2 + zlen rest).
  { rewrite Ha, zlen_cons, zlen_app, zlen_cons. lia. }
  pose proof (zlen_nonneg rest). pose proof (zlen_nonneg init).
  destruct (peek_some r c cnt Hr ltac:(unfold defaultReadSize; lia) ltac:(lia)) as (r1 & c1 & -> & Hr1 & Hp1 & Ha1).
  rewrite zlen_take, Z2Nat.id by lia. destruct (Z.min cnt (zlen (ahead r c)) <? cnt) eqn:E1; [lia|].
  rewrite lookup_take_lt by lia. rewrite Ha.
  assert (Hix : (b :: init ++ last :: rest) !! Z.to_nat (cnt - 1) = (init ++ last :: rest) !! Z.to_nat (cnt - 2)).
  { replace (Z.to_nat (cnt - 1)) with (S (Z.to_nat (cnt - 2))) by lia. done. }
  rewrite Hix. destruct (decide (cnt = zlen init + 2)) as [->|Hne].
  - rewrite lookup_app_r by (unfold zlen; lia).
    replace (Z.to_nat (zlen init + 2 - 2) - length init)%nat with 0%nat by (unfold zlen; lia). cbn [lookup list_lookup].
    destruct (128 <=? last) eqn:E2; [lia|]. exists r1, c1. split_and!; try done; [|by rewrite Ha1].
    assert (Ht : take (Z.to_nat (zlen init + 2)) (b :: init ++ last :: rest) = b :: init ++ [last]); [|by rewrite Ht].
    replace (b :: init ++ last :: rest) with ((b :: init ++ [last]) ++ rest) by (cbn; by rewrite <- app_assoc).
    apply take_zlen_app. rewrite zlen_cons, zlen_app. change (zlen [last]) with 1. lia.
  - rewrite lookup_app_l by (unfold zlen in *; lia).
    destruct (lookup_lt_is_Some_2 init (Z.to_nat (cnt - 2))) as [x Hx]; [unfold zlen in *; lia|].
    rewrite Hx. pose proof (Forall_lookup_1 _ _ _ _ Hi Hx) as Hge. cbn in Hge.
    destruct (128 <=? x) eqn:E2; [|lia].
    destruct (IH r1 c1 (cnt + 1) b init last rest) as (r' & c' & -> & Hr' & Hp' & Ha');
      try done; try congruence; try lia.
    exists r', c'. split_and!; try done; [|by rewrite Ha', Ha1]. exact (same_peer_trans _ _ _ Hp1 Hp').
Qed.

(** what a header says of its packet *)
Definition header_total (init : list Z) (last : Z) : Z :=
  let '(remlen, m) := Uvarint (init ++ [last]) in i64 remlen + 1 + m.

Lemma getPeekMessageSize_header r c b init last rest :
  live r c -> ahead r c = b :: init ++ last :: rest -> Forall (fun x => 128 <= x) init -> last < 128 ->
  zlen init <= 3 ->
  exists r' c', getPeekMessageSize d r c = Ret (inl (Z.shiftr b 4, header_total init last), r', c') /\
    live r' c' /\ same_peer c c' /\ ahead r' c' = ahead r c.
Proof.
  intros Hr Ha Hi Hl Hz. pose proof (zlen_nonneg init).
  destruct (peek_header_spec 5 r c 2 b init last rest) as (r' & c' & Hp & Hr' & Hs & Ha'); try done; try lia.
  exists r', c'. split_and!; try done. unfold getPeekMessageSize, header_total. rewrite Hp.
  pose proof (slice_from_app [b] (init ++ [last]) [] 1 eq_refl) as Hf. cbn [app] in Hf. unfold mkslice.
  rewrite Hf, bindO_ret. cbn [vis]. destruct (Uvarint _) as [remlen m]. by rewrite index_0, bindO_ret.
Qed.

(** the type and the size of the packet at the front of the stream *)
Lemma getPeekMessageSize_spec r c b body rest :
  live r c -> remlen_ok (zlen body) -> ahead r c = frame b body ++ rest ->
  exists r' c', getPeekMessageSize d r c = Ret (inl (Z.shiftr b 4, zlen (frame b body)), r', c') /\
    live r' c' /\ same_peer c c' /\ ahead r' c' = ahead r c.
Proof.
  intros Hr Hn Ha. unfold remlen_ok, maxRemainingLength in Hn.
  destruct (uvarint_shape_at 3 (zlen body)) as (init & last & Hu & Hi & Hl & Hk);
    [lia|change (2 ^ (7 * (Z.of_nat 3 + 1))) with 268435456; lia|].
  assert (Hfr : frame b body ++ rest = b :: init ++ last :: (body ++ rest)).
  { unfold frame, hdr_wire. rewrite Hu. cbn [app]. rewrite <- !app_assoc. done. }
  destruct (getPeekMessageSize_header r c b init last (body ++ rest)) as (r' & c' & Hp & H); try done;
    [by rewrite Ha, Hfr|unfold zlen; lia|].
  exists r', c'. split; [|done]. rewrite Hp. unfold header_total. rewrite <- Hu.
  pose proof (Uvarint_roundtrip (zlen body) [] ltac:(lia)) as E. rewrite app_nil_r in E. rewrite E.
  rewrite i64_small by lia.
  assert (Ht : zlen body + 1 + zlen (uvarint_bytes 10 (zlen body)) = zlen (frame b body)); [|by rewrite Ht].
  unfold frame. rewrite zlen_app, zlen_hdr_wire. lia.
Qed.

(** the packet itself, once its size is known *)
Lemma getPeekMessage_bytes r c mtype bs rest :
  live r c -> ahead r c = bs ++ rest ->
  exists r2 c2, getPeekMessage d r c mtype (zlen bs) =
      (match New mtype with
       | inr e => Ret (None, 0, Some e, r2, c2)
       | inl msg => let! (msg, n, err) := msg_Decode msg (mkslice bs) in Ret (Some msg, n, err, r2, c2)
       end) /\
    ahead r2 c2 = rest /\ live r2 c2 /\ same_peer c c2.
Proof.
  intros Hr Ha. pose proof (zlen_nonneg bs) as Hfz.
  destruct (ReadFull_spec (timeoutReader_Read d) defaultReadSize eq_refl (timeoutReader_ok d) r c
    (zlen bs) Hr Hfz) as (r2 & c2 & Hr2 & Hp2 & H).
  rewrite Ha in H. rewrite zlen_app in H. pose proof (zlen_nonneg rest).
  destruct (zlen bs <=? zlen bs + zlen rest) eqn:E; [|lia].
  rewrite take_zlen_app, drop_zlen_app in H by done. destruct H as [H2 Ha2].
  exists r2, c2. split_and!; try done.
  unfold getPeekMessage. destruct (zlen bs <? 0) eqn:E0; [lia|]. rewrite H2.
  rewrite Z.sub_diag. cbn [Z.to_nat replicate]. by rewrite app_nil_r.
Qed.

(** C24: Whatever the segments in which the stream arrives, the receive loop cuts
    it into the packets that were sent: with a packet at the front of the
    stream, [getPeekMessageSize] reports its type and its length and consumes
    nothing, and [getPeekMessage] consumes exactly the packet and decodes exactly
    its bytes, leaving the rest of the stream. *)
Theorem stream_cut_exact r c b body rest :
  live r c -> remlen_ok (zlen body) -> ahead r c = frame b body ++ rest ->
  exists r' c' r2 c2,
    getPeekMessageSize d r c = Ret (inl (Z.shiftr b 4, zlen (frame b body)), r', c') /\
    ahead r' c' = ahead r c /\
    getPeekMessage d r' c' (Z.shiftr b 4) (zlen (frame b body)) =
      (match New (Z.shiftr b 4) with
       | inr e => Ret (None, 0, Some e, r2, c2)
       | inl msg =>
           let! (msg, n, err) := msg_Decode msg (mkslice (frame b body)) in Ret (Some msg, n, err, r2, c2)
       end) /\
    ahead r2 c2 = rest /\ live r2 c2 /\ same_peer c c2.
Proof.
  intros Hr Hn Ha. destruct (getPeekMessageSize_spec r c b body rest Hr Hn Ha) as (r1 & c1 & H1 & Hr1 & Hp1 & Ha1).
  destruct (getPeekMessage_bytes r1 c1 (Z.shiftr b 4) (frame b body) rest Hr1 ltac:(congruence)) as (r2 & c2 & H2 & Ha2 & Hr2 & Hp2).
  exists r1, c1, r2, c2. split_and!; try done. by eapply same_peer_trans.
Qed.

(** A peer that closes the connection in the middle of a packet has the packet
    processed nevertheless: the error of [io.ReadFull] is dropped and the missing
    bytes are decoded as zeros. *)
Theorem truncated_packet_padded r c mtype total msg :
  live r c -> zlen (ahead r c) < total -> New mtype = inl msg ->
  exists r' c', getPeekMessage d r c mtype total =
    (let! (msg, n, err) := msg_Decode msg
       (mkslice (ahead r c ++ replicate (Z.to_nat (total - zlen (ahead r c))) 0)) in
     Ret (Some msg, n, err, r', c')) /\ ahead r' c' = [].
Proof.
  intros Hr Ht Hm. pose proof (zlen_nonneg (ahead r c)) as Hge.
  destruct (ReadFull_spec (timeoutReader_Read d) defaultReadSize eq_refl (timeoutReader_ok d) r c total Hr ltac:(lia))
    as (r' & c' & Hr' & Hp' & H). destruct (total <=? zlen (ahead r c)) eqn:E; [lia|].
  destruct H as (e & H & Ha). exists r', c'. split; [|done]. unfold getPeekMessage.
  destruct (total <? 0) eqn:E0; [lia|]. by rewrite H, Hm.
Qed.

Lemma peek_header_refuses fuel : forall r c cnt b xs rest,
  live r c -> ahead r c = b :: xs ++ rest -> Forall (fun x => 128 <= x) xs -> zlen xs = 4 ->
  2 <= cnt <= 6 -> 6 - cnt < Z.of_nat fuel ->
  exists r' c' e, peek_header d fuel r c cnt = (inr e, r', c') /\ same_peer c c'.
Proof.
  induction fuel as [|fuel IH]; intros r c cnt b xs rest Hr Ha Hi Hx Hc Hf; [lia|].
  cbn [peek_header]. destruct (5 <? cnt) eqn:E; [by eexists _, _, _|].
  pose proof (zlen_nonneg rest) as Hrest.
  assert (Hz : zlen (ahead r c) = 5 + zlen rest) by (rewrite Ha, zlen_cons, zlen_app; lia).
  destruct (peek_some r c cnt Hr ltac:(unfold defaultReadSize; lia) ltac:(lia)) as (r1 & c1 & -> & Hr1 & Hp1 & Ha1).
  rewrite zlen_take, Z2Nat.id by lia. destruct (Z.min cnt (zlen (ahead r c)) <? cnt) eqn:E1; [lia|].
  rewrite lookup_take_lt by lia. rewrite Ha.
  destruct (lookup_lt_is_Some_2 xs (Z.to_nat (cnt - 2))) as [x Hxl]; [unfold zlen in *; lia|].
  replace (Z.to_nat (cnt - 1)) with (S (Z.to_nat (cnt - 2))) by lia.
  change ((b :: xs ++ rest) !! S (Z.to_nat (cnt - 2))) with ((xs ++ rest) !! Z.to_nat (cnt - 2)).
  rewrite (lookup_app_l_Some _ _ _ _ Hxl). pose proof (Forall_lookup_1 _ _ _ _ Hi Hxl) as Hge. cbn in Hge.
  destruct (128 <=? x) eqn:E2; [|lia].
  destruct (IH r1 c1 (cnt + 1) b xs rest) as (r' & c' & e & -> & Hp'); try done; try congruence; try lia.
  eexists _, _, _. split; [done|]. exact (same_peer_trans _ _ _ Hp1 Hp').
Qed.

(** A length of more than four bytes is refused before anything is allocated. *)
Lemma long_length_refused r c b xs rest :
  live r c -> ahead r c = b :: xs ++ rest -> Forall (fun x => 128 <= x) xs -> zlen xs = 4 ->
  exists r' c' e, getPeekMessageSize d r c = Ret (inr e, r', c').
Proof.
  intros Hr Ha Hx Hz. destruct (peek_header_refuses 5 r c 2 b xs rest) as (r' & c' & e & H & _); try done.
  exists r', c', e. unfold getPeekMessageSize. by rewrite H.
Qed.

End ReceiveSpec.

Lemma stream_cut_exact_witness :
  exists r' c' r2 c2,
    getPeekMessageSize 7 NewReader (dial [[64]; [2; 0; 9; 192]; [0]] EOF) = Ret (inl (4, 4), r', c') /\
    getPeekMessage 7 r' c' 4 4 =
      (let! (msg, n, err) := msg_Decode (MPuback Puback.NewPubackMessage) (mkslice [64; 2; 0; 9]) in
       Ret (Some msg, n, err, r2, c2)) /\ ahead r2 c2 = [192; 0].
Proof.
  destruct (stream_cut_exact 7 NewReader (dial [[64]; [2; 0; 9; 192]; [0]] EOF) 64 [0; 9] [192; 0])
    as (r' & c' & r2 & c2 & H1 & _ & H2 & H3 & _).
  - split; [reflexivity|]. split; [vm_compute; discriminate|]. split; [repeat constructor; discriminate|reflexivity].
  - split; vm_compute; discriminate.
  - reflexivity.
  - exists r', c', r2, c2. split; [exact H1|]. split; [exact H2|exact H3].
Defined.

Lemma truncated_packet_padded_witness :
  exists r' c', getPeekMessage 7 NewReader (dial [[50; 8; 0; 1; 97; 0; 9]] EOF) 3 10 =
    (let! (msg, n, err) := msg_Decode (MPublish Publish.NewPublishMessage) (mkslice [50; 8; 0; 1; 97; 0; 9; 0; 0; 0]) in
     Ret (Some msg, n, err, r', c')) /\ ahead r' c' = [].
Proof.
  destruct (truncated_packet_padded 7 NewReader (dial [[50; 8; 0; 1; 97; 0; 9]] EOF) 3 10
    (MPublish Publish.NewPublishMessage)) as (r' & c' & H1 & H2).
  - split; [reflexivity|]. split; [vm_compute; discriminate|]. split; [repeat constructor; discriminate|reflexivity].
  - vm_compute. reflexivity.
  - reflexivity.
  - exists r', c'. rewrite H1. split; [reflexivity|exact H2].
Defined.

(** ** Sending *)

(** the writers a pool holds are empty and of the size of the pool *)
Definition writer_fresh (size : Z) (w : Writer) : Prop := wsize w = size /\ wbuf w = [] /\ werr w = None.

Definition pools_ok (ps : Pools) : Prop :=
  Forall (writer_fresh defaultWriteSize2K) (pool2k ps) /\ Forall (writer_fresh defaultWriteSize4K) (pool4k ps).

Lemma newBufioWriterSize_spec wpick ps size w ps' :
  pools_ok ps -> 0 < size -> newBufioWriterSize wpick ps size = (w, ps') -> writer_fresh size w /\ pools_ok ps'.
Proof.
  intros [H2 H4] Hs. assert (Hn : writer_fresh size (NewWriterSize size)).
  { split; [|done]. cbn. destruct (size <=? 0) eqn:E; [lia|done]. }
  unfold newBufioWriterSize, bufioWriterPool.
  destruct (size =? Z.shiftl 2 10) eqn:E2; [|destruct (size =? Z.shiftl 4 10) eqn:E4; [|by intros [= <- <-]]].
  all: cbn [pool_of]; destruct (wpick _) as [i|]; cbn [option_bind mbind]; [|by intros [= <- <-]];
    match goal with |- context [?l !! i] => destruct (l !! i) as [w0|] eqn:Ei end; cbn; intros [= <- <-]; [|done];
    (split; [|split; cbn; try done; by apply Forall_delete]).
  - pose proof (Forall_lookup_1 _ _ _ _ H2 Ei) as (Hw & _). split; [|done]. cbn. rewrite Hw. unfold defaultWriteSize2K. lia.
  - pose proof (Forall_lookup_1 _ _ _ _ H4 Ei) as (Hw & _). split; [|done]. cbn. rewrite Hw. unfold defaultWriteSize4K. lia.
Qed.

Lemma putBufioWriter_spec ps w : pools_ok ps -> pools_ok (putBufioWriter ps w).
Proof.
  intros [H2 H4]. unfold putBufioWriter, bufioWriterPool, Available. cbn [Reset wsize wbuf].
  change (zlen (@nil Z)) with 0. rewrite Z.sub_0_r.
  destruct (wsize w =? Z.shiftl 2 10) eqn:E2; [|destruct (wsize w =? Z.shiftl 4 10) eqn:E4; [|done]];
    (split; cbn; try done; apply Forall_cons; split; [|done]; split; [|done]; cbn).
  - unfold defaultWriteSize2K. lia.
  - unfold defaultWriteSize4K. lia.
Qed.

Lemma writer_size_ge n : n <= writer_size n.
Proof.
  unfold writer_size. destruct (n <=? defaultWriteSize2K) eqn:E1; [lia|].
  destruct (_ && (n <=? defaultWriteSize4K)) eqn:E2; [lia|].
  destruct (_ && (n <=? defaultWriteSize8K)) eqn:E3; lia.
Qed.

Lemma writer_size_pos n : 0 < writer_size n.
Proof.
  unfold writer_size, defaultWriteSize2K, defaultWriteSize4K, defaultWriteSize8K.
  change (Z.shiftl 2 10) with 2048. change (Z.shiftl 4 10) with 4096. change (Z.shiftl 8 10) with 8192.
  destruct (n <=? 2048) eqn:E1; [lia|]. destruct (_ && _); [lia|]. destruct (_ && _); lia.
Qed.

(** data that fits into an empty writer is kept until the flush *)
Lemma Write_fits w c p : werr w = None -> wbuf w = [] -> zlen p <= wsize w ->
  Write w c p = (zlen p, None, mkWriter (wsize w) p None, c).
Proof.
  intros He Hb Hp. unfold Write. cbn [write_loop]. unfold Available. rewrite Hb.
  change (zlen (@nil Z)) with 0. destruct (wsize w - 0 <? zlen p) eqn:E; [lia|]. cbn [andb]. rewrite He. done.
Qed.

(** what the peer receives of [b] *)
Lemma conn_Write_prefix c b n err c' : conn_Write c b = (n, err, c') ->
  0 <= match wr_fault c with Some (room, _) => room | None => 0 end ->
  exists k, written c' = written c ++ take k b /\ (err = None -> take k b = b /\ n = zlen b) /\
    closed c' = closed c /\ rd_err c' = rd_err c /\ segs c' = segs c /\ deadline c' = deadline c.
Proof.
  unfold conn_Write. intros H Hr. destruct (closed c) eqn:Ec.
  { injection H as <- <- <-. exists 0%nat. rewrite take_0, app_nil_r. by split_and!. }
  destruct (wr_fault c) as [[room e]|] eqn:Ef.
  - destruct (zlen b <=? room) eqn:E; injection H as <- <- <-.
    + exists (length b). cbn. by rewrite take_ge by lia.
    + exists (Z.to_nat room). by cbn.
  - injection H as <- <- <-. exists (length b). cbn. by rewrite take_ge by lia.
Qed.

Lemma Flush_spec size p c : 0 <= match wr_fault c with Some (room, _) => room | None => 0 end ->
  match Flush (mkWriter size p None) c with
  | (err, _, c') => exists k, written c' = written c ++ take k p /\ (err = None -> take k p = p) /\
      closed c' = closed c /\ rd_err c' = rd_err c /\ segs c' = segs c /\ deadline c' = deadline c
  end.
Proof.
  intros Hr. unfold Flush. cbn [werr wbuf wsize]. destruct (zlen p =? 0) eqn:E.
  { exists 0%nat. rewrite take_0, app_nil_r. split_and!; try done. intros _. symmetry. apply zlen_zero_nil. lia. }
  destruct (conn_Write c p) as [[n err] c'] eqn:Ew.
  destruct (conn_Write_prefix _ _ _ _ _ Ew Hr) as (k & Hk & Hall & Hrest).
  destruct err as [e|].
  - rewrite bool_decide_eq_false_2, andb_false_r by done. by exists k.
  - destruct (Hall eq_refl) as [Ht ->]. rewrite Z.ltb_irrefl. cbn [andb]. by exists k.
Qed.

(** [sendData] puts a packet on the connection exactly once and whole: when it
    reports no error, the peer's stream has grown by the encoded packet, whatever
    the size class and whatever writer the pools hand out, and when the write
    fails the peer has a prefix of the packet.  The pools keep holding empty
    writers of their size only, so no byte of another connection's packet can
    appear. *)
Theorem send_data_exact wpick ps g c msg m1 l m2 g2 buf n :
  pools_ok ps -> 0 <= match wr_fault c with Some (room, _) => room | None => 0 end ->
  msg_Len msg = Ret (m1, l) ->
  msg_Encode m1 g (replicate (Z.to_nat l) 0) = Ret (m2, g2, buf, n, None) -> 0 <= n <= zlen buf ->
  exists r k c', sendData wpick ps g (Some c) msg = Ret r /\ pools_ok (sn_pools r) /\
    sn_g r = g2 /\ sn_msg r = m2 /\ sn_conn r = Some c' /\ sn_n r = 0 /\
    written c' = written c ++ take k (take (Z.to_nat n) buf) /\
    (sn_err r = None -> written c' = written c ++ take (Z.to_nat n) buf) /\
    (wr_fault c = None -> closed c = false -> sn_err r = None) /\
    closed c' = closed c /\ segs c' = segs c.
Proof.
  intros Hps Hf HL HE Hn. unfold sendData. rewrite HL, bindO_ret, HE, bindO_ret.
  unfold subslice. destruct (_ && _) eqn:E0; [|lia]. rewrite bindO_ret, Z.sub_0_r. change (Z.to_nat 0) with 0%nat.
  rewrite drop_0. set (p := take (Z.to_nat n) buf). assert (Hp : zlen p = n) by (unfold p; rewrite zlen_take; lia).
  clearbody p. destruct (newBufioWriterSize wpick ps (writer_size n)) as [w ps'] eqn:Ew.
  destruct (newBufioWriterSize_spec _ _ _ _ _ Hps (writer_size_pos n) Ew) as [(Hw1 & Hw2 & Hw3) Hps'].
  pose proof (writer_size_ge n). rewrite (Write_fits w c p Hw3 Hw2) by lia. cbv beta iota.
  pose proof (Flush_spec (wsize w) p c Hf) as HF.
  assert (Hlive : wr_fault c = None -> closed c = false -> fst (fst (Flush (mkWriter (wsize w) p None) c)) = None).
  { intros H1 H2. unfold Flush. cbn [werr wbuf wsize]. destruct (zlen p =? 0); [done|].
    unfold conn_Write. rewrite H2, H1. rewrite Z.ltb_irrefl. done. }
  destruct (Flush (mkWriter (wsize w) p None) c) as [[err w'] c'] eqn:EF. cbn [fst] in Hlive.
  destruct HF as (k & Hk & Hall & Hc1 & _ & Hc2 & _). destruct err as [e|].
  - eexists _, k, c'. split; [done|]. cbn. by split_and!.
  - eexists _, k, c'. split; [done|]. cbn. split_and!; try done.
    + destruct (_ || _); [by apply putBufioWriter_spec|done].
    + intros _. by rewrite Hk, Hall.
Qed.

Lemma send_data_exact_witness :
  exists r k c', sendData (fun _ => None) (mkPools [] [] []) 0 (Some (dial [] EOF)) (MPingresp Disconnect.NewPingrespMessage) = Ret r /\
    sn_conn r = Some c' /\ written c' = [] ++ take k [208; 0] /\ sn_err r = None.
Proof.
  destruct (send_data_exact (fun _ => None) (mkPools [] [] []) 0 (dial [] EOF) (MPingresp Disconnect.NewPingrespMessage)
    (MPingresp Disconnect.NewPingrespMessage) 2 (MPingresp Disconnect.NewPingrespMessage) 0 [208; 0] 2)
    as (r & k & c' & H1 & _ & _ & _ & H2 & _ & H3 & _ & H4 & _).
  - split; constructor.
  - vm_compute. discriminate.
  - vm_compute. reflexivity.
  - vm_compute. reflexivity.
  - vm_compute. split; discriminate.
  - exists r, k, c'. split; [exact H1|]. split; [exact H2|]. split; [exact H3|]. apply H4; reflexivity.
Defined.
