(* ===== verification/Connectivity.v ===== *)
(** * Connectivity: the connectivity state of a service ([service/connection.go])

    Every method holds the mutex of the manager for its whole body, so a run is a
    sequence of operations.  Channels are numbered; [chans] is how many have been
    made and [shut] the ones that have been closed. *)
From stdpp Require Import base list strings gmap.
From Stdlib Require Import ZArith Lia.
From S2P Require Import Prelude GoLang.

Definition Idle : Z := 0.
Definition Connecting : Z := 1.
Definition Ready : Z := 2.
Definition TransientFailure : Z := 3.
Definition Shutdown : Z := 4.

Definition String_ (s : Z) : string :=
  if s =? Idle then "IDLE"
  else if s =? Connecting then "CONNECTING"
  else if s =? Ready then "READY"
  else if s =? TransientFailure then "TRANSIENT_FAILURE"
  else if s =? Shutdown then "SHUTDOWN"
  else "Invalid-State".

Record csm : Type := mkCsm {
  state : Z;
  notifyChan : option Z;
  chans : Z;
  shut : gset Z
}.

(** [&connectivityStateManager{}] *)
Definition zero_csm : csm := mkCsm Idle None 0 ∅.

(** [close(ch)] panics on a closed channel *)
Definition close_chan (m : csm) (ch : Z) : outcome csm :=
  if decide (ch ∈ shut m) then Panic (CustomPanic "close of closed channel")
  else Ret (mkCsm (state m) (notifyChan m) (chans m) ({[ch]} ∪ shut m)).

Definition updateState (m : csm) (s : Z) : outcome csm :=
  if state m =? Shutdown then Ret m
  else if state m =? s then Ret m
  else
    let m := mkCsm s (notifyChan m) (chans m) (shut m) in
    match notifyChan m with
    | Some ch =>
        let! m := close_chan m ch in
        Ret (mkCsm (state m) None (chans m) (shut m))
    | None => Ret m
    end.

Definition getState (m : csm) : Z := state m.

Definition getNotifyChan (m : csm) : csm * Z :=
  match notifyChan m with
  | Some ch => (m, ch)
  | None => (mkCsm (state m) (Some (chans m)) (chans m + 1) (shut m), chans m)
  end.

(** ** Runs *)

Inductive op : Type := OUpdate (s : Z) | OGetState | OGetNotify.

Definition run_op (m : csm) (o : op) : outcome csm :=
  match o with
  | OUpdate s => updateState m s
  | OGetState => Ret m
  | OGetNotify => Ret (fst (getNotifyChan m))
  end.

(** the manager after each operation *)
Fixpoint run (m : csm) (os : list op) : outcome (list csm) :=
  match os with
  | [] => Ret []
  | o :: os => 
      let! m := run_op m o in
      let! ms := run m os in
      Ret (m :: ms)
  end.

(** the channel waiters hold is open, and every channel was made by the manager *)
Record csm_ok (m : csm) : Prop := {
  co_shut : forall ch, ch ∈ shut m -> ch < chans m;
  co_open : forall ch, notifyChan m = Some ch -> (ch ∉ shut m) /\ ch < chans m
}.

Lemma zero_csm_ok : csm_ok zero_csm.
Proof. split; cbn; [set_solver|done]. Qed.

Lemma run_op_ok m o : csm_ok m ->
  exists m', run_op m o = Ret m' /\ csm_ok m' /\ shut m ⊆ shut m' /\
    (state m = Shutdown -> state m' = Shutdown) /\
    (forall ch, notifyChan m = Some ch ->
       if decide (state m' = state m) then notifyChan m' = Some ch else ch ∈ shut m').
Proof.
  intros Hm. pose proof Hm as [Hs Ho]. destruct o as [s| |]; cbn [run_op].
  - unfold updateState. destruct (state m =? Shutdown) eqn:E1.
    { exists m. split_and!; try done. intros ch Hch. by rewrite decide_True. }
    destruct (state m =? s) eqn:E2.
    { exists m. split_and!; try done. intros ch Hch. by rewrite decide_True. }
    cbn [notifyChan]. destruct (notifyChan m) as [ch|] eqn:En.
    + destruct (Ho ch eq_refl) as [Hn Hlt]. unfold close_chan. cbn [shut]. rewrite decide_False by done.
      rewrite bindO_ret. eexists. split; [done|]. cbn. split_and!; [|set_solver|lia|].
      * split; cbn; [|done]. intros c'. rewrite elem_of_union, elem_of_singleton. intros [->|H]; auto.
      * intros c' [= <-]. rewrite decide_False by lia. set_solver.
    + eexists. split; [done|]. cbn. split_and!; try done. lia.
  - exists m. split_and!; try done. intros ch Hch. by rewrite decide_True.
  - unfold getNotifyChan. destruct (notifyChan m) as [ch|] eqn:En.
    + exists m. split; [done|]. split; [done|]. split; [done|]. split; [done|]. intros c' [= <-]. by rewrite decide_True.
    + eexists. split; [done|]. cbn. split_and!; try done. split; cbn.
      * intros ch H%Hs. lia.
      * intros ch [= <-]. split; [|lia]. intros H%Hs. lia.
Qed.

Lemma run_ok os : forall m, csm_ok m ->
  exists ms, run m os = Ret ms /\ (state m = Shutdown -> Forall (fun m' => state m' = Shutdown) ms) /\
    csm_ok (List.last ms m) /\ shut m ⊆ shut (List.last ms m) /\
    (forall ch, notifyChan m = Some ch ->
       (ch ∈ shut (List.last ms m) <-> Exists (fun m' => state m' <> state m) ms)).
Proof.
  induction os as [|o os IH]; intros m Hm.
  - exists []. cbn. split; [done|]. split; [constructor|]. split; [done|]. split; [done|]. intros ch Hch. split; [|by intros H%Exists_nil].
    intros H. destruct (co_open m Hm ch Hch). done.
  - destruct (run_op_ok m o Hm) as (m1 & H1 & Hm1 & Hsub & Hsh & Hno).
    destruct (IH m1 Hm1) as (ms & H2 & Hf & Hl & Hsub2 & Hex). exists (m1 :: ms). cbn [run].
    rewrite H1, bindO_ret, H2, bindO_ret.
    assert (El : List.last (m1 :: ms) m = List.last ms m1).
    { destruct ms as [|x ms] using rev_ind; [done|]. change (m1 :: ms ++ [x]) with ((m1 :: ms) ++ [x]).
      by rewrite !List.last_last. }
    rewrite El. split_and!; try done.
    + intros H. apply Forall_cons. auto.
    + set_solver.
    + intros ch Hch. specialize (Hno ch Hch). rewrite Exists_cons. destruct (decide (state m1 = state m)) as [Es|Es].
      * rewrite <- Es. rewrite (Hex ch Hno). naive_solver.
      * split; [by left|]. set_solver.
Qed.

(** The connectivity state is a state machine in which [Shutdown] is final: no
    sequence of operations panics, and from [Shutdown] every later state is
    [Shutdown].  Whoever asked for the notification channel is notified exactly
    when there is something to see: the channel is closed if and only if the state
    has differed at some point since. *)
Theorem connectivity_notifies m m1 ch os :
  csm_ok m -> getNotifyChan m = (m1, ch) ->
  exists ms, run m1 os = Ret ms /\ csm_ok (List.last ms m1) /\
    (ch ∈ shut (List.last ms m1) <-> Exists (fun m' => getState m' <> getState m) ms) /\
    (getState m = Shutdown -> Forall (fun m' => getState m' = Shutdown) ms).
Proof.
  intros Hm Hg. assert (Hm1 : csm_ok m1 /\ notifyChan m1 = Some ch /\ state m1 = state m).
  { destruct (run_op_ok m OGetNotify Hm) as (m' & [= <-] & Hok & _). rewrite Hg in Hok. split; [done|].
    unfold getNotifyChan in Hg. destruct (notifyChan m) eqn:En; by injection Hg as <- <-. }
  destruct Hm1 as (Hok & Hn & Hs). destruct (run_ok os m1 Hok) as (ms & H1 & H2 & H3 & _ & H4).
  exists ms. unfold getState. rewrite <- Hs. split_and!; try done. by apply H4.
Qed.

Lemma connectivity_notifies_witness :
  exists ms, run (fst (getNotifyChan zero_csm)) [OUpdate Idle; OUpdate Ready; OUpdate Shutdown; OUpdate Idle] = Ret ms /\
    0 ∈ shut (List.last ms (fst (getNotifyChan zero_csm))).
Proof.
  destruct (connectivity_notifies zero_csm (fst (getNotifyChan zero_csm)) 0
    [OUpdate Idle; OUpdate Ready; OUpdate Shutdown; OUpdate Idle] zero_csm_ok eq_refl) as (ms & H1 & _ & H2 & _).
  exists ms. split; [exact H1|]. apply H2. vm_compute in H1. injection H1 as <-.
  apply Exists_exists. eexists. split; [right; left|vm_compute; discriminate].
Defined.
