(* ===== verification/World.v ===== *)
(** * World: the state of the running broker

    The objects the goroutines of the server share by pointer (services,
    connections, sessions) are cells of maps from locations; the counters, the
    pools, the timer wheel and the channel of uploaded messages are fields.  A
    handler is a computation that reads and changes this state and returns a value
    or panics; a panic keeps the changes made before it, which is what the next
    handler finds after a [recover].

    The parts: [service/service.go] (the struct [service]), [service/pool.go],
    [service/server.go] (the struct [Server]). *)
From stdpp Require Import base list strings gmap.
From Stdlib Require Import ZArith Lia.
From S2P Require Import Prelude GoLang NetConn Framing Connectivity.
From S2P Require Import MsgTypes Header Publish Connect Message AckQueue Session.

(** ** Callbacks *)

Abbreviation OnCompleteFunc := (Message -> option Message -> option error -> option error).

(** the functions that are given to [Ackqueue.Wait]: a nil [OnCompleteFunc], the
    method value [svc.onComplete], the closures of [subscribe] and [unsubscribe]
    around a function of the caller (possibly nil), a function of the caller *)
Inductive callback : Type :=
| CbNil
| CbOnComplete (svc : Z)
| CbSubscribe (f : option OnCompleteFunc)
| CbUnsubscribe (f : option OnCompleteFunc)
| CbCaller (f : OnCompleteFunc).

(** ** The timer wheel

    [github.com/rfyiamcool/go-timewheel]: [Add] schedules a function once and
    returns its task, [Remove] cancels a task, a task that has run is gone.  A
    task is known by its address; what it will do is a [timer]: the service and
    the message the closure in [publish] captures. *)
Record timer : Type := mkTimer { tm_svc : Z; tm_msg : PublishMessage }.

Class TimeWheel (TW : Type) : Type := {
  tw_Add : TW -> Z -> timer -> TW * Z;
  tw_Remove : TW -> Z -> TW;
  tw_tasks : TW -> gmap Z timer
}.

Class TimeWheelLaws (TW : Type) `{TimeWheel TW} : Prop := {
  tw_add_fresh w d t w' k : tw_Add w d t = (w', k) ->
    tw_tasks w !! k = None /\ tw_tasks w' = <[k:=t]> (tw_tasks w);
  tw_remove_gone w k : tw_tasks (tw_Remove w k) = delete k (tw_tasks w)
}.

(** a wheel with the next address and the tasks by address *)
Definition simple_wheel : Type := Z * gmap Z timer.

#[export] Instance simple_wheel_ops : TimeWheel simple_wheel := {|
  tw_Add w _ t := ((w.1 + 1, <[fresh (dom w.2):=t]> w.2), fresh (dom w.2));
  tw_Remove w k := (w.1, delete k w.2);
  tw_tasks w := w.2
|}.

#[export] Instance simple_wheel_laws : TimeWheelLaws simple_wheel.
Proof.
  split; [|done]. intros w d t w' k. cbn. intros [= <- <-]. cbn. split; [|done].
  apply not_elem_of_dom, is_fresh.
Qed.

(** ** Pools of PUBLISH messages ([pool.go]) *)

(** [pm_new]: [init] has set the pool's [New] *)
Record PMPool : Type := mkPMPool { pm_items : list PublishMessage; pm_new : bool }.

Definition pm_init (p : PMPool) : PMPool := mkPMPool (pm_items p) true.

(** [&message.PublishMessage{}] with [SetType(PUBLISH)] *)
Definition pm_fresh : PublishMessage :=
  mkPublish (fst (SetType zero_header PUBLISH)) [] [].

Section PMPool.
Context (ppick : list PublishMessage -> option nat).

Definition PMPoolGet (p : PMPool) : outcome (PublishMessage * PMPool) :=
  match (i ← ppick (pm_items p); m ← pm_items p !! i; Some (i, m)) with
  | Some (i, m) => Ret (m, mkPMPool (delete i (pm_items p)) (pm_new p))
  | None => if pm_new p then Ret (pm_fresh, p) else Panic BadAssertion
  end.

Definition PMPoolPut (p : PMPool) (b : PublishMessage) : PMPool :=
  let b := Publish.with_hdr (ClearPacketId (Publish.hdr b)) b in
  mkPMPool (b :: pm_items p) (pm_new p).
End PMPool.

(** ** Services *)

(** the constants [LogReasonVal...] of [consts/constants.go], and the empty string *)
Inductive logReason : Type :=
| LogReasonNone
| LogReasonValTickOffDevice
| LogReasonValServerClose
| LogReasonValDeviceDisconnect
| LogReasonValAckTimeout
| LogReasonValKeepaliveTimeout
| LogReasonValConnectionResetByPeer.

Record stat : Type := mkStat { st_bytes : Z; st_msgs : Z }.

Definition stat_increment (s : stat) (n : Z) : stat := mkStat (i64 (st_bytes s + n)) (i64 (st_msgs s + 1)).

(** the fields of a [service] that [handleConnection] sets once *)
Record svc_conf : Type := mkConf {
  svc_id : Z;
  client : bool;
  clientAddr : list Z;
  productKey : list Z;
  deviceName : list Z;
  nodeID : list Z;
  keepAlive : Z;
  connectTimeout : Z;
  ackTimeout : Z;
  timeoutRetries : Z;
  clientId : list Z
}.

(** the fields that change; [conn] and [sess] are pointers, [None] is nil;
    [done_closed] and [ka_closed] say whether [done] and [keepAliveCH] are closed;
    [Map] holds the timer of each packet identifier.  [in] and [out], which only the
    goroutines of [Sendrecv] use, and the fields the server never sets are left out. *)
Record service : Type := mkService {
  cfg : svc_conf;
  conn : option Z;
  sess : option Z;
  done_closed : bool;
  ka_closed : bool;
  Map : gmap Z Z;
  pm : PMPool;
  loginValue : list Z;
  reason : logReason;
  inStat : stat;
  outStat : stat;
  csMgr : csm
}.

Definition svc_productKey (s : service) : list Z := productKey (cfg s).
Definition svc_deviceName (s : service) : list Z := deviceName (cfg s).

Definition set_sconn (c : option Z) (s : service) : service :=
  mkService (cfg s) c (sess s) (done_closed s) (ka_closed s) (Map s) (pm s) (loginValue s) (reason s)
            (inStat s) (outStat s) (csMgr s).
Definition set_ssess (x : option Z) (s : service) : service :=
  mkService (cfg s) (conn s) x (done_closed s) (ka_closed s) (Map s) (pm s) (loginValue s) (reason s)
            (inStat s) (outStat s) (csMgr s).
Definition set_sdone (s : service) : service :=
  mkService (cfg s) (conn s) (sess s) true (ka_closed s) (Map s) (pm s) (loginValue s) (reason s)
            (inStat s) (outStat s) (csMgr s).
Definition set_ska (s : service) : service :=
  mkService (cfg s) (conn s) (sess s) (done_closed s) true (Map s) (pm s) (loginValue s) (reason s)
            (inStat s) (outStat s) (csMgr s).
Definition set_sMap (m : gmap Z Z) (s : service) : service :=
  mkService (cfg s) (conn s) (sess s) (done_closed s) (ka_closed s) m (pm s) (loginValue s) (reason s)
            (inStat s) (outStat s) (csMgr s).
Definition set_spm (p : PMPool) (s : service) : service :=
  mkService (cfg s) (conn s) (sess s) (done_closed s) (ka_closed s) (Map s) p (loginValue s) (reason s)
            (inStat s) (outStat s) (csMgr s).
Definition set_slogin (v : list Z) (s : service) : service :=
  mkService (cfg s) (conn s) (sess s) (done_closed s) (ka_closed s) (Map s) (pm s) v (reason s)
            (inStat s) (outStat s) (csMgr s).
Definition set_sreason (r : logReason) (s : service) : service :=
  mkService (cfg s) (conn s) (sess s) (done_closed s) (ka_closed s) (Map s) (pm s) (loginValue s) r
            (inStat s) (outStat s) (csMgr s).
Definition set_sstats (i o : stat) (s : service) : service :=
  mkService (cfg s) (conn s) (sess s) (done_closed s) (ka_closed s) (Map s) (pm s) (loginValue s) (reason s)
            i o (csMgr s).

Definition set_scsm (m : csm) (s : service) : service :=
  mkService (cfg s) (conn s) (sess s) (done_closed s) (ka_closed s) (Map s) (pm s) (loginValue s) (reason s)
            (inStat s) (outStat s) m.

(** ** The server *)

Record Server : Type := mkServer {
  KeepAlive : Z;
  ConnectTimeout : Z;
  AckTimeout : Z;
  TimeoutRetries : Z;
  MaxBufferSize : Z;
  SessionsProvider : string;
  sessMgr : option memProvider;      (* nil before the first connection *)
  srv_nodeID : list Z;
  svcMap : gmap (list Z) Z;
  ln_closed : bool;                  (* the listeners have been closed *)
  configured : bool;                 (* [configOnce] has run *)
  srv_pm : PMPool
}.

Definition set_mgr (m : option memProvider) (s : Server) : Server :=
  mkServer (KeepAlive s) (ConnectTimeout s) (AckTimeout s) (TimeoutRetries s) (MaxBufferSize s)
           (SessionsProvider s) m (srv_nodeID s) (svcMap s) (ln_closed s) (configured s) (srv_pm s).
Definition set_svcMap (m : gmap (list Z) Z) (s : Server) : Server :=
  mkServer (KeepAlive s) (ConnectTimeout s) (AckTimeout s) (TimeoutRetries s) (MaxBufferSize s)
           (SessionsProvider s) (sessMgr s) (srv_nodeID s) m (ln_closed s) (configured s) (srv_pm s).
Definition set_srv_pm (p : PMPool) (s : Server) : Server :=
  mkServer (KeepAlive s) (ConnectTimeout s) (AckTimeout s) (TimeoutRetries s) (MaxBufferSize s)
           (SessionsProvider s) (sessMgr s) (srv_nodeID s) (svcMap s) (ln_closed s) (configured s) p.
Definition set_ln_closed (s : Server) : Server :=
  mkServer (KeepAlive s) (ConnectTimeout s) (AckTimeout s) (TimeoutRetries s) (MaxBufferSize s)
           (SessionsProvider s) (sessMgr s) (srv_nodeID s) (svcMap s) true (configured s) (srv_pm s).

(** an uploaded message on its way to [PushMsg] *)
Record UploadMsg : Type := mkUpload { up_Msg : PublishMessage; up_DeviceName : list Z; up_ProductKey : list Z }.

(** the capacity of [MsgChan] *)
Definition msgChanCap : Z := 1024.

(** the local state of a [receiverData] goroutine: not begun yet, or in its loop
    with the connection it reads, the heartbeat of its [timeoutReader] and its
    [bufio.Reader] *)
Inductive Receiver : Type :=
| RxNew
| RxLoop (c : Z) (d : Z) (r : Reader).

Record world (TW : Type) : Type := mkWorld {
  svcs : gmap Z service;
  conns : gmap Z Conn;
  sessions : heap callback;
  receivers : gmap Z Receiver;       (* the goroutines that are running *)
  gid : Z;                           (* gPacketId *)
  gsvcid : Z;
  wheel : TW;
  wpools : Pools;
  msgChan : list UploadMsg;
  pushing : bool;                    (* the goroutine of [PushMsg] is running *)
  srv : Server;
  now : Z                            (* time.Now().Unix() *)
}.
Arguments mkWorld {TW}.
Arguments svcs {TW}.
Arguments conns {TW}.
Arguments sessions {TW}.
Arguments receivers {TW}.
Arguments gid {TW}.
Arguments gsvcid {TW}.
Arguments wheel {TW}.
Arguments wpools {TW}.
Arguments msgChan {TW}.
Arguments pushing {TW}.
Arguments srv {TW}.
Arguments now {TW}.

Section Setters.
Context {TW : Type}.
Implicit Types w : world TW.

Definition set_svcs x w := mkWorld x (conns w) (sessions w) (receivers w) (gid w) (gsvcid w) (wheel w) (wpools w) (msgChan w) (pushing w) (srv w) (now w).
Definition set_conns x w := mkWorld (svcs w) x (sessions w) (receivers w) (gid w) (gsvcid w) (wheel w) (wpools w) (msgChan w) (pushing w) (srv w) (now w).
Definition set_sessions x w := mkWorld (svcs w) (conns w) x (receivers w) (gid w) (gsvcid w) (wheel w) (wpools w) (msgChan w) (pushing w) (srv w) (now w).
Definition set_receivers x w := mkWorld (svcs w) (conns w) (sessions w) x (gid w) (gsvcid w) (wheel w) (wpools w) (msgChan w) (pushing w) (srv w) (now w).
Definition set_gid x w := mkWorld (svcs w) (conns w) (sessions w) (receivers w) x (gsvcid w) (wheel w) (wpools w) (msgChan w) (pushing w) (srv w) (now w).
Definition set_gsvcid x w := mkWorld (svcs w) (conns w) (sessions w) (receivers w) (gid w) x (wheel w) (wpools w) (msgChan w) (pushing w) (srv w) (now w).
Definition set_wheel (x : TW) w := mkWorld (svcs w) (conns w) (sessions w) (receivers w) (gid w) (gsvcid w) x (wpools w) (msgChan w) (pushing w) (srv w) (now w).
Definition set_wpools x w := mkWorld (svcs w) (conns w) (sessions w) (receivers w) (gid w) (gsvcid w) (wheel w) x (msgChan w) (pushing w) (srv w) (now w).
Definition set_msgChan x w := mkWorld (svcs w) (conns w) (sessions w) (receivers w) (gid w) (gsvcid w) (wheel w) (wpools w) x (pushing w) (srv w) (now w).
Definition set_pushing x w := mkWorld (svcs w) (conns w) (sessions w) (receivers w) (gid w) (gsvcid w) (wheel w) (wpools w) (msgChan w) x (srv w) (now w).
Definition set_srv x w := mkWorld (svcs w) (conns w) (sessions w) (receivers w) (gid w) (gsvcid w) (wheel w) (wpools w) (msgChan w) (pushing w) x (now w).

Definition set_now x w := mkWorld (svcs w) (conns w) (sessions w) (receivers w) (gid w) (gsvcid w) (wheel w) (wpools w) (msgChan w) (pushing w) (srv w) x.

(** ** Handlers *)

Definition M (A : Type) : Type := world TW -> outcome A * world TW.

Definition retM {A} (a : A) : M A := fun w => (Ret a, w).
Definition bindM {A B} (m : M A) (k : A -> M B) : M B := fun w =>
  match m w with
  | (Ret a, w) => k a w
  | (Panic p, w) => (Panic p, w)
  end.

Definition panicM {A} (p : panic) : M A := fun w => (Panic p, w).
Definition lift {A} (o : outcome A) : M A := fun w => (o, w).
Definition gets {A} (f : world TW -> A) : M A := fun w => (Ret (f w), w).
Definition modify (f : world TW -> world TW) : M unit := fun w => (Ret tt, f w).

(** [defer recover.PanicHandler()]: a panic ends the function with [a] *)
Definition recovered {A} (m : M A) (a : A) : M A := fun w =>
  match m w with
  | (Panic _, w) => (Ret a, w)
  | r => r
  end.

(** a pointer dereference *)
Definition deref_some {A} (o : option A) : M A :=
  match o with Some a => retM a | None => panicM NilDeref end.

End Setters.

Declare Scope handler_scope.
Delimit Scope handler_scope with hd.
Notation "'do' x <- m ;; k" := (bindM m (fun x => k))
  (at level 20, x pattern, m at level 99, k at level 200, right associativity) : handler_scope.
Notation "m ;;; k" := (bindM m (fun _ => k))
  (at level 100, k at level 200, right associativity) : handler_scope.
#[global] Open Scope handler_scope.

Lemma bindM_ret {TW A B} (a : A) (k : A -> M (TW:=TW) B) w : bindM (retM a) k w = k a w.
Proof. reflexivity. Qed.

Lemma bindM_gets {TW A B} (f : world TW -> A) (k : A -> M (TW:=TW) B) w : bindM (gets f) k w = k (f w) w.
Proof. reflexivity. Qed.

Lemma bindM_modify {TW B} f (k : unit -> M (TW:=TW) B) w : bindM (modify f) k w = k tt (f w).
Proof. reflexivity. Qed.

Lemma bindM_lift {TW A B} (a : A) (k : A -> M (TW:=TW) B) w : bindM (lift (Ret a)) k w = k a w.
Proof. reflexivity. Qed.

Lemma bindM_assoc {TW A B D} (m : M (TW:=TW) A) (k : A -> M B) (h : B -> M D) w :
  bindM (bindM m k) h w = bindM m (fun a => bindM (k a) h) w.
Proof. unfold bindM. by destruct (m w) as [[a|p] w1]. Qed.

Create Rewrite HintDb handler.
#[export] Hint Rewrite @bindM_ret @bindM_gets @bindM_modify @bindM_lift @bindM_assoc : handler.

Lemma bindM_step {TW A B} (m : M (TW:=TW) A) (k : A -> M B) w a w' :
  m w = (Ret a, w') -> bindM m k w = k a w'.
Proof. intros H. unfold bindM. by rewrite H. Qed.

Lemma bindM_panic {TW A B} (m : M (TW:=TW) A) (k : A -> M B) w p w' :
  m w = (Panic p, w') -> bindM m k w = (Panic p, w').
Proof. intros H. unfold bindM. by rewrite H. Qed.

Lemma bindM_inv {TW A B} (m : M (TW:=TW) A) (k : A -> M B) w r w' :
  bindM m k w = (r, w') ->
  (exists a w1, m w = (Ret a, w1) /\ k a w1 = (r, w')) \/
  (exists p, m w = (Panic p, w') /\ r = Panic p).
Proof.
  unfold bindM. destruct (m w) as [[a|p] w1]; intros H; [left; by exists a, w1|].
  right. exists p. by injection H as <- <-.
Qed.
