(* ===== verification/Service.v ===== *)
(** * Service: one client connection

    The packet handlers of [service/process.go], [publish], [subscribe],
    [unsubscribe], [ping] and [onComplete] of [service/service.go], the heartbeat
    of [service/sendrecv.go], over the state of [World].  [this] is the location of
    the service.  Log lines are left out; so is [rmsgs], which stays empty. *)
From stdpp Require Import base list strings gmap.
From Stdlib Require Import ZArith Lia.
From S2P Require Import MsgTypes Header Publish Connect Message AckQueue Session.
From S2P Require Import Prelude GoLang GoStrings NetConn Framing Connectivity World.

Definition errDisconnect : error := ErrorsNew "Disconnect".

(** the queues of a session *)
Inductive qsel : Type := QPub1ack | QPub2in | QPub2out | QSuback | QUnsuback | QPingack.

#[export] Instance qsel_eq_dec : EqDecision qsel.
Proof. solve_decision. Defined.

Definition get_q (s : Session callback) (k : qsel) : option (Ackqueue callback) :=
  match k with
  | QPub1ack => Pub1ack s | QPub2in => Pub2in s | QPub2out => Pub2out s
  | QSuback => Session.Suback s | QUnsuback => Unsuback s | QPingack => Pingack s
  end.

Definition set_q (s : Session callback) (k : qsel) (q : Ackqueue callback) : Session callback :=
  let f k' old := if decide (k = k') then Some q else old in
  mkSession (f QPub1ack (Pub1ack s)) (f QPub2in (Pub2in s)) (f QPub2out (Pub2out s))
            (f QSuback (Session.Suback s)) (f QUnsuback (Unsuback s)) (f QPingack (Pingack s))
            (Cmsg s) (Will s) (Retained s) (cbuf s) (Session.rbuf s) (sess_topics s) (initted s) (id s).

Definition set_Cmsg (c : ConnectMessage) (s : Session callback) : Session callback :=
  mkSession (Pub1ack s) (Pub2in s) (Pub2out s) (Session.Suback s) (Unsuback s) (Pingack s) (Some c)
            (Will s) (Retained s) (cbuf s) (Session.rbuf s) (sess_topics s) (initted s) (id s).

(** ** Completion functions given to the queues *)

(** [onc(msg, ack, err)] of [subscribe] around the caller's function *)
Definition finish (f : option OnCompleteFunc) (msg : Message) (ack : option Message) (e : error) : option error :=
  match f with Some f => f msg ack (Some e) | None => None end.

(** the errors of the return codes, the last one outermost *)
Fixpoint sub_failures (ts : list (list Z)) (codes : list Z) (err2 : option error) : option error :=
  match ts, codes with
  | t :: ts, c :: codes =>
      let err2 := if c =? QosFailure then Some (Errorf "Failed to subscribe to '%s'\n%v" [AStr t]) else err2 in
      sub_failures ts codes err2
  | _, _ => err2
  end.

Definition onc_subscribe (f : option OnCompleteFunc) (msg : Message) (ack : option Message) (err : option error)
  : option error :=
  match err with
  | Some e => match f with Some f => f msg ack (Some e) | None => Some e end
  | None =>
      match msg with
      | MSubscribe sub =>
          match ack with
          | Some (MSuback suback) =>
              if negb (PacketId (Subscribe.hdr sub) =? PacketId (Suback.hdr suback)) then
                finish f msg ack (Errorf "Sub and Suback packet ID not the same. %d != %d."
                  [AInt (PacketId (Subscribe.hdr sub)); AInt (PacketId (Suback.hdr suback))])
              else
                let retcodes := Suback.ReturnCodes suback in
                let topics := Subscribe.Topics sub in
                if negb (zlen topics =? zlen retcodes) then
                  finish f msg ack (Errorf "Incorrect number of return codes received. Expecting %d, got %d."
                    [AInt (zlen topics); AInt (zlen retcodes)])
                else
                  let err2 := sub_failures topics retcodes None in
                  match f with Some f => f msg ack err2 | None => err2 end
          | _ => finish f msg ack (Errorf "Invalid SubackMessage received" [])
          end
      | _ => finish f msg ack (Errorf "Invalid SubscribeMessage received" [])
      end
  end.

Definition onc_unsubscribe (f : option OnCompleteFunc) (msg : Message) (ack : option Message) (err : option error)
  : option error :=
  match err with
  | Some e => match f with Some f => f msg ack (Some e) | None => Some e end
  | None =>
      match msg with
      | MUnsubscribe unsub =>
          match ack with
          | Some (MUnsuback unsuback) =>
              if negb (PacketId (Unsubscribe.hdr unsub) =? PacketId unsuback) then
                finish f msg ack (Errorf "Unsub and Unsuback packet ID not the same. %d != %d."
                  [AInt (PacketId (Unsubscribe.hdr unsub)); AInt (PacketId unsuback)])
              else match f with Some f => f msg ack None | None => None end
          | _ => finish f msg ack (Errorf "Invalid UnsubackMessage received" [])
          end
      | _ => finish f msg ack (Errorf "Invalid UnsubscribeMessage received" [])
      end
  end.

Section Service.
Context {TW : Type} `{TimeWheel TW}.
(** the choices of the three kinds of [sync.Pool], and [copier.Copy(dst, src)] *)
Context (pick : list (list Z) -> option nat) (wpick : list Writer -> option nat)
        (ppick : list PublishMessage -> option nat)
        (copy : PublishMessage -> PublishMessage -> PublishMessage).

Abbreviation M := (M (TW:=TW)).

(** ** Access to the shared objects *)

Definition get_svc (this : Z) : M service :=
  do o <- gets (fun w => svcs w !! this) ;; deref_some o.

Definition upd_svc (this : Z) (f : service -> service) : M unit :=
  do s <- get_svc this ;; modify (fun w => set_svcs (<[this:=f s]> (svcs w)) w).

(** [this.sess]: its location and its contents *)
Definition get_sess (this : Z) : M (Z * Session callback) :=
  do s <- get_svc this ;;
  do l <- deref_some (sess s) ;;
  do o <- gets (fun w => cells (sessions w) !! l) ;;
  do ss <- deref_some o ;;
  retM (l, ss).

Definition put_sess (l : Z) (ss : Session callback) : M unit :=
  modify (fun w => set_sessions (mkHeap (<[l:=ss]> (cells (sessions w))) (next_loc (sessions w))) w).

(** [this.sess.<queue>] *)
Definition get_queue (this : Z) (k : qsel) : M (Z * Session callback * Ackqueue callback) :=
  do x <- get_sess this ;;
  do q <- deref_some (get_q x.2 k) ;;
  retM (x.1, x.2, q).

(** [this.sendData(msg)]: the message as [Len] and [Encode] leave it, the error *)
Definition send (this : Z) (msg : Message) : M (Message * option error) :=
  do s <- get_svc this ;;
  do w <- gets (fun w => w) ;;
  do r <- lift (sendData wpick (wpools w) (gid w) (c ← conn s; conns w !! c) msg) ;;
  modify (fun w => set_wpools (sn_pools r) (set_gid (sn_g r) w)) ;;;
  match conn s, sn_conn r with
  | Some l, Some c => modify (fun w => set_conns (<[l:=c]> (conns w)) w)
  | _, _ => retM tt
  end ;;;
  retM (sn_msg r, sn_err r).

(** [this.sess.<queue>.Wait(msg, onComplete)]; the interface value is never nil,
    it may hold a nil function *)
Definition iface (oc : option callback) : option callback :=
  Some (match oc with Some c => c | None => CbNil end).

Definition wait (this : Z) (k : qsel) (msg : Message) (oc : option callback) : M (option error) :=
  do x <- get_queue this k ;;
  let '(l, ss, q) := x in
  do w <- gets (fun w => w) ;;
  do r <- lift (Wait pick q (gid w) (now w) msg (iface oc)) ;;
  let '(q, g, _, err) := r in
  put_sess l (set_q ss k q) ;;;
  modify (set_gid g) ;;;
  retM err.

(** [this.sess.<queue>.Ack(msg)] *)
Definition ack (this : Z) (k : qsel) (msg : Message) : M (option error) :=
  do x <- get_queue this k ;;
  let '(l, ss, q) := x in
  do g <- gets gid ;;
  do r <- lift (Ack pick q g msg) ;;
  let '(q, g, _, err) := r in
  put_sess l (set_q ss k q) ;;;
  modify (set_gid g) ;;;
  retM err.

(** ** Completion of acknowledged messages *)

Definition onComplete (this : Z) (msg : Message) (ak : option Message) (err : option error) : M (option error) :=
  do a <- deref_some ak ;;
  let t := msg_Type a in
  if t =? PUBACK then
    let ackPacketId := msg_PacketId a in
    do s <- get_svc this ;;
    match Map s !! ackPacketId with
    | Some task =>
        modify (fun w => set_wheel (tw_Remove (wheel w) task) w) ;;;
        upd_svc this (fun s => set_sMap (delete ackPacketId (Map s)) s) ;;;
        retM None
    | None => retM None
    end
  else if (t =? PUBCOMP) || (t =? SUBACK) || (t =? UNSUBACK) || (t =? PINGRESP) then
    retM (Some (ErrorsNew "does not support these ack types"))
  else retM (Some (ErrorsNew "invalid message for acking")).

Definition call (cb : callback) (msg : Message) (ak : option Message) (err : option error) : M (option error) :=
  match cb with
  | CbNil => panicM NilDeref
  | CbOnComplete svc => onComplete svc msg ak err
  | CbSubscribe f => retM (onc_subscribe f msg ak err)
  | CbUnsubscribe f => retM (onc_unsubscribe f msg ak err)
  | CbCaller f => retM (f msg ak err)
  end.

(** [onPublish] logs *)
Definition onPublish (msg : PublishMessage) : option error := None.

(** the rest of the loop body of [processAcked], after both messages have been
    decoded *)
Definition complete (this : Z) (k : qsel) (am : ackmsg callback) (msg ak : Message) : M unit :=
  let finish :=
    match OnComplete am with
    | Some CbNil | None => retM tt
    | Some cb => do _ <- call cb msg (Some ak) None ;; retM tt
    end ;;;
    do x <- get_queue this k ;;
    let '(l, ss, q) := x in
    put_sess l (set_q ss k (with_pool (Put (Put (bytesPool q) (Ackbuf am)) (Msgbuf am)) q)) in
  let st := State am in
  if st =? PUBREL then
    match msg with
    | MPublish m => let _ := onPublish m in finish
    | _ => panicM BadAssertion
    end
  else if (st =? PUBACK) || (st =? PUBCOMP) || (st =? SUBACK) || (st =? UNSUBACK) || (st =? PINGRESP) then finish
  else retM tt.

(** one round of the loop; an entry that cannot be decoded is skipped *)
Definition process_acked_one (this : Z) (k : qsel) (am : ackmsg callback) : M unit :=
  match New (Mtype am) with
  | inr _ => retM tt
  | inl msg =>
      do r <- lift (msg_Decode msg (mkslice (Msgbuf am))) ;;
      let '(msg, _, err) := r in
      match err with
      | Some _ => retM tt
      | None =>
          match New (State am) with
          | inr _ => retM tt
          | inl ak =>
              do r <- lift (msg_Decode ak (mkslice (Ackbuf am))) ;;
              let '(ak, _, err) := r in
              match err with
              | Some _ => retM tt
              | None => complete this k am msg ak
              end
          end
      end
  end.

Fixpoint process_acked_all (this : Z) (k : qsel) (l : list (ackmsg callback)) : M unit :=
  match l with
  | [] => retM tt
  | am :: l => process_acked_one this k am ;;; process_acked_all this k l
  end.

Definition processAcked (this : Z) (k : qsel) : M unit :=
  do x <- get_queue this k ;;
  let '(l, ss, q) := x in
  do r <- lift (Acked q) ;;
  let '(q, acked) := r in
  put_sess l (set_q ss k q) ;;;
  process_acked_all this k acked.

(** ** Publishing to the client *)

Definition wrap_send (msg : Message) (e : error) : error :=
  Errorf "(%s) Error sending %s message: %v" [AStr (str (Name (msg_Type msg)))].

Definition publish (this : Z) (msg : PublishMessage) (oc : option callback) : M (PublishMessage * option error) :=
  do r <- send this (MPublish msg) ;;
  let '(msg', err) := r in
  let msg := match msg' with MPublish m => m | _ => msg end in
  match err with
  | Some e => retM (msg, Some (wrap_send (MPublish msg) e))
  | None =>
      do q <- lift (QoS msg) ;;
      if q =? QosAtMostOnce then
        match oc with
        | Some cb => do err <- call cb (MPublish msg) None None ;; retM (msg, err)
        | None => retM (msg, None)
        end
      else if q =? QosAtLeastOnce then
        do s <- get_svc this ;;
        do r <- lift (PMPoolGet ppick (pm s)) ;;
        let '(copyMsg, p) := r in
        upd_svc this (set_spm p) ;;;
        let copyMsg := copy copyMsg msg in
        do w <- gets (fun w => w) ;;
        let '(tw, task) := tw_Add (wheel w) (ackTimeout (cfg s)) (mkTimer this copyMsg) in
        modify (set_wheel tw) ;;;
        upd_svc this (fun s => set_sMap (<[PacketId (Publish.hdr msg):=task]> (Map s)) s) ;;;
        do s <- get_svc this ;;
        match sess s with
        | None => retM (msg, None)
        | Some l =>
            do o <- gets (fun w => cells (sessions w) !! l) ;;
            do ss <- deref_some o ;;
            match Pub1ack ss with
            | None => retM (msg, None)
            | Some _ => do err <- wait this QPub1ack (MPublish msg) oc ;; retM (msg, err)
            end
        end
      else if q =? QosExactlyOnce then
        do err <- wait this QPub2out (MPublish msg) oc ;; retM (msg, err)
      else retM (msg, None)
  end.

(** the function the timer wheel runs when no acknowledgement came in time *)
Definition ack_timeout (t : timer) : M unit :=
  let pid := PacketId (Publish.hdr (tm_msg t)) in
  upd_svc (tm_svc t) (fun s => set_sMap (delete pid (Map s)) s) ;;;
  upd_svc (tm_svc t) (fun s => set_spm (PMPoolPut (pm s) (tm_msg t)) s).

(** [start]'s [onPub] *)
Definition onPub (this : Z) (msg : PublishMessage) : M (option error) :=
  do r <- publish this msg None ;; retM (snd r).

Definition subscribe (this : Z) (msg : Subscribe.SubscribeMessage) (f : option OnCompleteFunc) (onPublish : bool)
  : M (option error) :=
  if negb onPublish then retM (Some (Errorf "onPublish function is nil. No need to subscribe." []))
  else
    do r <- send this (MSubscribe msg) ;;
    let '(msg, err) := r in
    match err with
    | Some e => retM (Some (wrap_send msg e))
    | None => wait this QSuback msg (Some (CbSubscribe f))
    end.

Definition unsubscribe (this : Z) (msg : Unsubscribe.UnsubscribeMessage) (f : option OnCompleteFunc) : M (option error) :=
  do r <- send this (MUnsubscribe msg) ;;
  let '(msg, err) := r in
  match err with
  | Some e => retM (Some (wrap_send msg e))
  | None => wait this QUnsuback msg (Some (CbUnsubscribe f))
  end.

Definition ping (this : Z) (f : option OnCompleteFunc) : M (option error) :=
  do r <- send this (MPingreq Disconnect.NewPingreqMessage) ;;
  let '(msg, err) := r in
  match err with
  | Some e => retM (Some (wrap_send msg e))
  | None => wait this QPingack msg (CbCaller <$> f)
  end.

Definition isDone (this : Z) : M bool := do s <- get_svc this ;; retM (done_closed s).

(** ** Packets from the client *)

Definition heartbeatTopic : list Z := str "/sys/service/heartbeat/update".

(** the rounds of [updateHeartbeat]: the receiver's heartbeat and the deadline of
    its connection *)
Definition updateHeartbeat (this : Z) (newKeepAlive : Z) : M unit :=
  do o <- gets (fun w => receivers w !! this) ;;
  match o with
  | Some (RxLoop c d r) =>
      let temp := i32 (newKeepAlive + 5) in
      modify (fun w => set_receivers (<[this:=RxLoop c temp r]> (receivers w)) w) ;;;
      modify (fun w =>
        match conns w !! c with
        | Some x => set_conns (<[c:=snd (SetReadDeadline x temp)]> (conns w)) w
        | None => w
        end)
  | _ => retM tt
  end.

(** [this.keepAliveCH <- v], which [updateHeartbeat] is waiting for as long as the
    service is not stopped *)
Definition send_keepAlive (this : Z) (v : Z) : M unit :=
  do s <- get_svc this ;;
  if ka_closed s then panicM (CustomPanic "send on closed channel") else updateHeartbeat this v.

(** [message.NewXxxMessage()] with the identifier set, sent *)
Definition reply (this : Z) (mk : header -> Message) (new : header) (pid : Z) : M (option error) :=
  do r <- send this (mk (SetPacketId new pid)) ;; retM (snd r).

Definition clamp_heartbeat (h : Z) : Z := if h <? 1 then 1 else if 2 * 3600 <? h then 2 * 3600 else h.

Definition processPublish (this : Z) (msg : PublishMessage) : M (option error) :=
  let pid := PacketId (Publish.hdr msg) in
  if bool_decide (Topic msg = heartbeatTopic) then
    match Atoi (Payload msg) with
    | inr e => retM (Some e)
    | inl heartbeat =>
        send_keepAlive this (i32 (clamp_heartbeat heartbeat)) ;;;
        do q <- lift (QoS msg) ;;
        if q =? QosAtLeastOnce then reply this MPuback Puback.NewPubackMessage pid
        else retM None
    end
  else
    do q <- lift (QoS msg) ;;
    if q =? QosAtLeastOnce then
      do err <- reply this MPuback Puback.NewPubackMessage pid ;;
      match err with
      | Some e => retM (Some e)
      | None =>
          do s <- get_svc this ;;
          modify (fun w =>
            if zlen (msgChan w) <? msgChanCap
            then set_msgChan (msgChan w ++ [mkUpload msg (svc_productKey s) (svc_deviceName s)]) w
            else w) ;;;
          retM None
      end
    else
      do s <- get_svc this ;;
      retM (Some (Errorf "productKey %s deviceName %s invalid message QoS %d."
                         [AStr (svc_productKey s); AStr (svc_deviceName s); AInt q])).

(** [retcodes = append(retcodes, qos[i])] for every topic *)
Fixpoint retcodes_for (n : nat) (i : Z) (qos : list Z) : outcome (list Z) :=
  match n with
  | O => Ret []
  | S n => let! q := index qos i in let! r := retcodes_for n (i + 1) qos in Ret (q :: r)
  end.

Definition processSubscribe (this : Z) (msg : Subscribe.SubscribeMessage) : M (option error) :=
  let resp := Suback.with_hdr (SetPacketId (Suback.hdr Suback.NewSubackMessage) (PacketId (Subscribe.hdr msg)))
                              Suback.NewSubackMessage in
  do retcodes <- lift (retcodes_for (length (Subscribe.Topics msg)) 0 (Subscribe.Qos msg)) ;;
  let '(resp, err) := Suback.AddReturnCodes resp retcodes in
  match err with
  | Some e => retM (Some e)
  | None => do r <- send this (MSuback resp) ;; retM (snd r)
  end.

Definition processUnsubscribe (this : Z) (msg : Unsubscribe.UnsubscribeMessage) : M (option error) :=
  reply this MUnsuback Puback.NewUnsubackMessage (PacketId (Unsubscribe.hdr msg)).

Definition processIncoming (this : Z) (msg : Message) : M (option error) :=
  match msg with
  | MPublish m => processPublish this m
  | MPuback m =>
      do _ <- ack this QPub1ack msg ;;
      processAcked this QPub1ack ;;;
      retM None
  | MPubrec m =>
      do err <- ack this QPub2out msg ;;
      match err with
      | Some e => retM (Some e)
      | None => reply this MPubrel Puback.NewPubrelMessage (PacketId m)
      end
  | MPubrel m =>
      do err <- ack this QPub2in msg ;;
      match err with
      | Some e => retM (Some e)
      | None =>
          processAcked this QPub2in ;;;
          reply this MPubcomp Puback.NewPubcompMessage (PacketId m)
      end
  | MPubcomp m =>
      do err <- ack this QPub2out msg ;;
      match err with
      | Some e => retM (Some e)
      | None => processAcked this QPub2out ;;; retM None
      end
  | MSubscribe m => processSubscribe this m
  | MSuback m =>
      do _ <- ack this QSuback msg ;;
      processAcked this QSuback ;;;
      retM None
  | MUnsubscribe m => processUnsubscribe this m
  | MUnsuback m =>
      do _ <- ack this QUnsuback msg ;;
      processAcked this QUnsuback ;;;
      retM None
  | MPingreq m =>
      do r <- send this (MPingresp Disconnect.NewPingrespMessage) ;; retM (snd r)
  | MPingresp m =>
      do _ <- ack this QPingack msg ;;
      processAcked this QPingack ;;;
      retM None
  | MDisconnect m =>
      do x <- get_sess this ;;
      do c <- deref_some (Cmsg x.2) ;;
      put_sess x.1 (set_Cmsg (SetWillFlag c false) x.2) ;;;
      retM (Some errDisconnect)
  | MConnect _ | MConnack _ =>
      do s <- get_svc this ;;
      retM (Some (Errorf "%s invalid message type %s."
             [AStr (svc_productKey s ++ str ":" ++ svc_deviceName s); AStr (str (Name (msg_Type msg)))]))
  end.

End Service.
