(* ===== verification/ServiceSpec.v ===== *)
(** * ServiceSpec: what the packet handlers leave alone

    A handler that serves a connection (a packet from the client, a publication to
    it, a timer) never starts, stops or registers a service.  [calm w w'] says so;
    every handler keeps it, on every path and also when it panics.  The rules for
    the primitives and for sequencing are hints of the base [keeps]. *)
From stdpp Require Import base list strings gmap.
From Stdlib Require Import ZArith Lia.
From S2P Require Import MsgTypes Header Publish Connect Message AckQueue Session.
From S2P Require Import Prelude GoLang GoStrings NetConn Framing Connectivity World Service.

(** ** The relation *)

(** the six queues and the CONNECT message are there *)
Definition sess_live (s : Session callback) : Prop :=
  (forall k, is_Some (get_q s k)) /\ is_Some (Cmsg s).

Definition same_life (s s' : service) : Prop :=
  cfg s' = cfg s /\ conn s' = conn s /\ sess s' = sess s /\ done_closed s' = done_closed s /\ ka_closed s' = ka_closed s.

Definition same_rx (r r' : Receiver) : Prop :=
  match r, r' with
  | RxNew, RxNew => True
  | RxLoop c _ r, RxLoop c' _ r' => c' = c /\ r' = r
  | _, _ => False
  end.

(** two maps with the same keys and related values *)
Definition map_rel {K V} `{Countable K} (R : V -> V -> Prop) (m m' : gmap K V) : Prop :=
  forall k, option_relation R (fun _ => False) (fun _ => False) (m !! k) (m' !! k).

Section MapRel.
Context {K V : Type} `{Countable K} (R : V -> V -> Prop).
Implicit Types m : gmap K V.

#[export] Instance map_rel_preorder : PreOrder R -> PreOrder (map_rel (K:=K) R).
Proof.
  intros [Hr Ht]. split.
  - intros m k. destruct (m !! k); cbn; [apply Hr|done].
  - intros m1 m2 m3 H1 H2 k. specialize (H1 k). specialize (H2 k).
    destruct (m1 !! k), (m2 !! k), (m3 !! k); cbn in *; try done. by etrans.
Qed.

Lemma map_rel_insert m k x y : PreOrder R -> m !! k = Some x -> R x y -> map_rel R m (<[k:=y]> m).
Proof.
  intros Hp Hk HR j. destruct (decide (j = k)) as [->|Hne].
  - by rewrite lookup_insert_eq, Hk.
  - rewrite lookup_insert_ne by done. destruct (m !! j); cbn; [reflexivity|done].
Qed.

Lemma map_rel_lookup m m' k x : map_rel R m m' -> m !! k = Some x -> exists y, m' !! k = Some y /\ R x y.
Proof. intros HR Hk. specialize (HR k). rewrite Hk in HR. destruct (m' !! k); cbn in HR; [by eexists|done]. Qed.

Lemma map_rel_lookup_inv m m' k y : map_rel R m m' -> m' !! k = Some y -> exists x, m !! k = Some x /\ R x y.
Proof. intros HR Hk. specialize (HR k). rewrite Hk in HR. destruct (m !! k); cbn in HR; [by eexists|done]. Qed.
End MapRel.

#[export] Instance same_life_preorder : PreOrder same_life.
Proof. split; [by intros s|]. unfold same_life. intros x y z H1 H2. intuition congruence. Qed.

#[export] Instance same_rx_preorder : PreOrder same_rx.
Proof. split; [by intros []|]. intros [] [] []; cbn; try done. intuition congruence. Qed.

Definition sess_step (s s' : Session callback) : Prop := sess_live s -> sess_live s'.

#[export] Instance sess_step_preorder : PreOrder sess_step.
Proof. split; unfold sess_step; [by intros s|by auto]. Qed.

(** what the peer has sent is left alone, and the connection is as open as it was *)
Definition conn_step (c c' : Conn) : Prop := closed c' = closed c /\ segs c' = segs c /\ rd_err c' = rd_err c.

#[export] Instance conn_step_preorder : PreOrder conn_step.
Proof. split; unfold conn_step; [by intros c|]. intros x y z H1 H2. intuition congruence. Qed.

(** the server's fields that the handlers of a connection do not touch *)
Definition same_srv (s s' : Server) : Prop :=
  svcMap s' = svcMap s /\ sessMgr s' = sessMgr s /\ configured s' = configured s /\
  MaxBufferSize s' = MaxBufferSize s.

#[export] Instance same_srv_preorder : PreOrder same_srv.
Proof. split; [by intros s|]. unfold same_srv. intros x y z H1 H2. intuition congruence. Qed.

Section Calm.
Context {TW : Type}.
Implicit Types w : world TW.

Record calm w w' : Prop := {
  cm_svcs : map_rel same_life (svcs w) (svcs w');
  cm_conns : map_rel conn_step (conns w) (conns w');
  cm_sess : map_rel sess_step (cells (sessions w)) (cells (sessions w'));
  cm_next : next_loc (sessions w') = next_loc (sessions w);
  cm_rx : map_rel same_rx (receivers w) (receivers w');
  cm_srv : same_srv (srv w) (srv w');
  cm_gsvc : gsvcid w' = gsvcid w
}.

#[export] Instance calm_preorder : PreOrder calm.
Proof.
  split; [by intros w; split|]. intros x y z [H1 H2 H3 H4 H5 H6 H7] [K1 K2 K3 K4 K5 K6 K7].
  split; solve [by etrans | congruence].
Qed.

(** ** Handlers that keep it *)

Definition keeps {A} (m : M (TW:=TW) A) : Prop := forall w r w', m w = (r, w') -> calm w w'.

Lemma keeps_ret {A} (a : A) : keeps (retM a).
Proof. by intros w r w' [= <- <-]. Qed.

Lemma keeps_panic {A} p : keeps (panicM (A:=A) p).
Proof. by intros w r w' [= <- <-]. Qed.

Lemma keeps_lift {A} (o : outcome A) : keeps (lift o).
Proof. by intros w r w' [= <- <-]. Qed.

Lemma keeps_gets {A} (f : world TW -> A) : keeps (gets f).
Proof. by intros w r w' [= <- <-]. Qed.

Lemma keeps_deref {A} (o : option A) : keeps (deref_some o).
Proof. destruct o; [apply keeps_ret|apply keeps_panic]. Qed.

Lemma keeps_bind {A B} (m : M A) (k : A -> M B) : keeps m -> (forall a, keeps (k a)) -> keeps (bindM m k).
Proof.
  intros Hm Hk w r w' H. apply bindM_inv in H as [(a & w1 & H1 & H2)|(p & H1 & _)]; [|by eapply Hm].
  etrans; [by eapply Hm|by eapply Hk].
Qed.

Lemma keeps_recovered {A} (m : M A) a : keeps m -> keeps (recovered m a).
Proof.
  intros Hm w r w'. unfold recovered. destruct (m w) as [[b|p] w1] eqn:E; intros [= <- <-]; by eapply Hm.
Qed.

Lemma keeps_modify f : (forall w, calm w (f w)) -> keeps (modify f).
Proof. intros Hf w r w' [= <- <-]. apply Hf. Qed.

(** changes to the fields the relation does not mention *)
Lemma calm_same w w' :
  svcs w' = svcs w -> conns w' = conns w -> sessions w' = sessions w -> receivers w' = receivers w ->
  srv w' = srv w -> gsvcid w' = gsvcid w -> calm w w'.
Proof. intros E1 E2 E3 E4 E5 E6. split; rewrite ?E1, ?E2, ?E3, ?E4, ?E5, ?E6; done. Qed.

End Calm.

Create HintDb keeps.
#[export] Hint Resolve keeps_ret keeps_panic keeps_lift keeps_gets keeps_deref keeps_recovered : keeps.

(** one step of the proof that a handler keeps [calm]: sequencing, the branches
    of the code, the primitives *)
Ltac keep_step :=
  first
    [ progress cbv zeta
    | match goal with |- keeps (bindM _ _) => apply keeps_bind; [|intros ?] end
    | match goal with |- keeps (match ?x with _ => _ end) => destruct x end
    | match goal with |- keeps (if ?b then _ else _) => destruct b end
    | solve [eauto with keeps nocore]
    | solve [apply keeps_modify; intros; apply calm_same; reflexivity] ].
Ltac keep := repeat keep_step.

Section Handlers.
Context {TW : Type} `{TimeWheel TW}.
Context (pick : list (list Z) -> option nat) (wpick : list Writer -> option nat)
        (ppick : list PublishMessage -> option nat)
        (copy : PublishMessage -> PublishMessage -> PublishMessage).
Abbreviation keeps := (keeps (TW:=TW)).
Implicit Types w : world TW.

Lemma keeps_get_svc this : keeps (get_svc this).
Proof. unfold get_svc. keep. Qed.
Hint Resolve keeps_get_svc : keeps.

Lemma keeps_upd_svc this f : (forall s, same_life s (f s)) -> keeps (upd_svc this f).
Proof.
  intros Hf w r w'. unfold upd_svc, get_svc, bindM, gets, deref_some, retM, panicM, modify.
  destruct (svcs w !! this) as [s|] eqn:E; intros [= <- <-]; [|done].
  split; cbn; try done. by eapply map_rel_insert; [apply _| |].
Qed.

Lemma keeps_get_sess this : keeps (get_sess this).
Proof. unfold get_sess. keep. Qed.

Lemma keeps_get_queue this k : keeps (get_queue this k).
Proof. unfold get_queue. pose proof (keeps_get_sess this). keep. Qed.

Lemma set_q_live s k q : sess_live s -> sess_live (set_q s k q).
Proof. intros [Hq Hc]. split; [|done]. intros k'. specialize (Hq k'). destruct k', k; cbn in *; done. Qed.

(** reading a queue, computing, storing the queue *)
Lemma keeps_with_queue {A} this k (body : Z -> Session callback -> Ackqueue callback -> M A) :
  (forall l ss q w, (exists s, svcs w !! this = Some s /\ sess s = Some l) -> cells (sessions w) !! l = Some ss ->
     forall r w', body l ss q w = (r, w') -> calm w w') ->
  keeps (do x <- get_queue this k ;; let '(l, ss, q) := x in body l ss q).
Proof.
  intros Hb w r w'. unfold get_queue, get_sess, get_svc, bindM, gets, deref_some, retM, panicM.
  destruct (svcs w !! this) as [s|] eqn:E1; [|by intros [= <- <-]]. cbn.
  destruct (sess s) as [l|] eqn:E2; [|by intros [= <- <-]]. cbn.
  destruct (cells (sessions w) !! l) as [ss|] eqn:E3; [|by intros [= <- <-]]. cbn.
  destruct (get_q ss k) as [q|] eqn:E4; [|by intros [= <- <-]]. cbn.
  intros Hr. eapply Hb; [by exists s|done|done].
Qed.

Lemma calm_put_sess w l ss ss' : cells (sessions w) !! l = Some ss -> (sess_live ss -> sess_live ss') ->
  calm w (set_sessions (mkHeap (<[l:=ss']> (cells (sessions w))) (next_loc (sessions w))) w).
Proof. intros Hl Hs. split; cbn; try done. by eapply map_rel_insert; [apply _| |]. Qed.

(** storing a queue and then going on *)
Lemma calm_store_queue {A} l ss k q (m : M A) w r w' :
  cells (sessions w) !! l = Some ss -> keeps m ->
  (put_sess l (set_q ss k q) ;;; m) w = (r, w') -> calm w w'.
Proof.
  intros Hl Hm. unfold put_sess. rewrite bindM_modify. intros Hr.
  etrans; [by eapply calm_put_sess; [|apply set_q_live]|by eapply Hm].
Qed.

Lemma keeps_wait this k msg oc : keeps (wait pick this k msg oc).
Proof.
  unfold wait. apply keeps_with_queue. intros l ss q w _ Hl r w' Hr.
  rewrite bindM_gets in Hr.
  apply bindM_inv in Hr as [([[[q1 g1] m1] e1] & w1 & H1 & H2)|(p & H1 & _)];
    [|by injection H1 as _ <-]. injection H1 as _ <-. eapply calm_store_queue; [done| |exact H2]. keep.
Qed.

Lemma keeps_ack this k msg : keeps (ack pick this k msg).
Proof.
  unfold ack. apply keeps_with_queue. intros l ss q w _ Hl r w' Hr.
  rewrite bindM_gets in Hr.
  apply bindM_inv in Hr as [([[[q1 g1] m1] e1] & w1 & H1 & H2)|(p & H1 & _)];
    [|by injection H1 as _ <-]. injection H1 as _ <-. eapply calm_store_queue; [done| |exact H2]. keep.
Qed.

(** writing keeps a connection as open as it was *)
Lemma conn_Write_step c b n err c' : conn_Write c b = (n, err, c') -> conn_step c c'.
Proof.
  unfold conn_Write. destruct (closed c) eqn:E; [by intros [= <- <- <-]|].
  destruct (wr_fault c) as [[room e]|]; [destruct (_ <=? _)|]; by intros [= <- <- <-].
Qed.

Lemma Flush_step wr c e wr' c' : Flush wr c = (e, wr', c') -> conn_step c c'.
Proof.
  unfold Flush. destruct (werr wr); [by intros [= <- <- <-]|]. destruct (_ =? 0); [by intros [= <- <- <-]|].
  destruct (conn_Write c (wbuf wr)) as [[n err] c1] eqn:E. apply conn_Write_step in E.
  destruct (if _ && _ then _ else _); intros [= <- <- <-]; done.
Qed.

Lemma write_loop_step fuel : forall wr c p nn n e wr' c',
  write_loop fuel wr c p nn = (n, e, wr', c') -> conn_step c c'.
Proof.
  induction fuel as [|fuel IH]; intros wr c p nn n e wr' c'; cbn [write_loop]; [by intros [= <- <- <- <-]|].
  destruct (_ && _).
  - destruct (_ =? 0).
    + destruct (conn_Write c p) as [[k err] c1] eqn:E. apply conn_Write_step in E. intros Hl. apply IH in Hl. by etrans.
    + cbv zeta. destruct (Flush _ c) as [[e1 w1] c1] eqn:E. apply Flush_step in E. intros Hl. apply IH in Hl. by etrans.
  - destruct (werr wr); by intros [= <- <- <- <-].
Qed.

Lemma sendData_step ps g c msg r c' :
  sendData wpick ps g (Some c) msg = Ret r -> sn_conn r = Some c' -> conn_step c c'.
Proof.
  unfold sendData. intros Hs Hc. inv_bind Hs as x Hx. destruct x as [m1 l]. inv_bind Hs as y Hy.
  destruct y as [[[[m2 g2] buf] n] [e|]]; [by injection Hs as <-; injection Hc as <-|].
  inv_bind Hs as b Hb. destruct (newBufioWriterSize _ _ _) as [wr ps']. unfold Write in Hs.
  destruct (write_loop _ wr c b 0) as [[[k e] wr1] c1] eqn:E1. apply write_loop_step in E1.
  destruct e; [injection Hs as <-; injection Hc as <-; done|].
  destruct (Flush wr1 c1) as [[e2 wr2] c2] eqn:E2. apply Flush_step in E2.
  destruct e2; injection Hs as <-; injection Hc as <-; by etrans.
Qed.

Lemma keeps_send this msg : keeps (send wpick this msg).
Proof.
  intros w r w'. unfold send, get_svc, bindM, gets, deref_some, retM, panicM, lift, modify.
  destruct (svcs w !! this) as [s|] eqn:E1; [|by intros [= <- <-]]. cbn.
  destruct (sendData _ _ _ _ msg) as [sr|p] eqn:E2; [|by intros [= <- <-]]. cbn.
  destruct (conn s) as [l|] eqn:E3; [|intros [= <- <-]; by apply calm_same]. cbn in E2.
  destruct (sn_conn sr) as [c'|] eqn:E4; [|intros [= <- <-]; by apply calm_same]. intros [= <- <-].
  destruct (conns w !! l) as [c|] eqn:E5.
  - cbn in E2. split; cbn; try done. eapply map_rel_insert; [apply _|done|]. by eapply sendData_step.
  - cbn in E2. exfalso. unfold sendData in E2. inv_bind E2 as x Hx. destruct x as [m1 n1]. inv_bind E2 as y Hy.
    destruct y as [[[[m2 g2] buf] n] [e|]]; [by injection E2 as <-|]. inv_bind E2 as b Hb. by injection E2 as <-.
Qed.

End Handlers.
#[export] Hint Resolve keeps_get_svc keeps_get_sess keeps_get_queue keeps_wait keeps_ack keeps_send : keeps.

Section Handlers2.
Context {TW : Type} `{TimeWheel TW}.
Context (pick : list (list Z) -> option nat) (wpick : list Writer -> option nat)
        (ppick : list PublishMessage -> option nat)
        (copy : PublishMessage -> PublishMessage -> PublishMessage).
Abbreviation keeps := (keeps (TW:=TW)).
Implicit Types w : world TW.

(** the fields of a service the handlers change *)
Lemma keeps_upd_Map this f : keeps (upd_svc this (fun s => set_sMap (f s) s)).
Proof. apply keeps_upd_svc. done. Qed.
Lemma keeps_upd_pm this f : keeps (upd_svc this (fun s => set_spm (f s) s)).
Proof. apply keeps_upd_svc. done. Qed.
Lemma keeps_upd_pm' this p : keeps (upd_svc this (set_spm p)).
Proof. apply keeps_upd_svc. done. Qed.
Hint Resolve keeps_upd_Map keeps_upd_pm keeps_upd_pm' : keeps.

Lemma keeps_onComplete this msg ak err : keeps (onComplete this msg ak err).
Proof. unfold onComplete. keep. Qed.
Hint Resolve keeps_onComplete : keeps.

Lemma keeps_call cb msg ak err : keeps (call cb msg ak err).
Proof. unfold call. keep. Qed.
Hint Resolve keeps_call : keeps.

(** giving the buffers of an entry back to the pool of its queue *)
Lemma keeps_put_buffers this k (am : ackmsg callback) :
  keeps (do x <- get_queue this k ;; let '(l, ss, q) := x in
         put_sess l (set_q ss k (with_pool (Put (Put (bytesPool q) (Ackbuf am)) (Msgbuf am)) q))).
Proof.
  apply keeps_with_queue. intros l ss q w _ Hl r w' [= <- <-]. eapply calm_put_sess; [done|]. apply set_q_live.
Qed.
Hint Resolve keeps_put_buffers : keeps.

Lemma keeps_complete this k am msg ak : keeps (complete this k am msg ak).
Proof.
  unfold complete. cbv zeta.
  assert (Hf : keeps (match OnComplete am with
    | Some CbNil | None => retM tt
    | Some cb => do _ <- call cb msg (Some ak) None ;; retM tt
    end ;;;
    do x <- get_queue this k ;;
    let '(l, ss, q) := x in
    put_sess l (set_q ss k (with_pool (Put (Put (bytesPool q) (Ackbuf am)) (Msgbuf am)) q)))).
  { apply keeps_bind; [keep|]. intros _. apply keeps_put_buffers. }
  destruct (_ =? _); [destruct msg; try done; apply keeps_panic|]. destruct (_ || _); [done|apply keeps_ret].
Qed.
Hint Resolve keeps_complete : keeps.

Lemma keeps_process_acked_one this k am : keeps (process_acked_one this k am).
Proof. unfold process_acked_one. keep. Qed.

Lemma keeps_process_acked_all this k l : keeps (process_acked_all this k l).
Proof.
  induction l as [|am l IH]; cbn; [apply keeps_ret|]. apply keeps_bind; [apply keeps_process_acked_one|done].
Qed.
Hint Resolve keeps_process_acked_all : keeps.

Lemma keeps_processAcked this k : keeps (processAcked this k).
Proof.
  unfold processAcked. apply keeps_with_queue. intros l ss q w _ Hl r w' Hr.
  apply bindM_inv in Hr as [([q1 acked] & w1 & H1 & H2)|(p & H1 & _)]; [|by injection H1 as _ <-].
  injection H1 as _ <-. eapply calm_store_queue; [done| |exact H2]. keep.
Qed.
Hint Resolve keeps_processAcked : keeps.

Lemma keeps_publish this msg oc : keeps (publish pick wpick ppick copy this msg oc).
Proof. unfold publish. keep. Qed.

Lemma keeps_ack_timeout t : keeps (ack_timeout t).
Proof. unfold ack_timeout. keep. Qed.

Lemma keeps_subscribe this msg f b : keeps (subscribe pick wpick this msg f b).
Proof. unfold subscribe. keep. Qed.
Lemma keeps_unsubscribe this msg f : keeps (unsubscribe pick wpick this msg f).
Proof. unfold unsubscribe. keep. Qed.
Lemma keeps_ping this f : keeps (ping pick wpick this f).
Proof. unfold ping. keep. Qed.

Lemma keeps_updateHeartbeat this v : keeps (updateHeartbeat this v).
Proof.
  intros w r w'. unfold updateHeartbeat. rewrite bindM_gets.
  destruct (receivers w !! this) as [[|c d rd]|] eqn:E; [by intros [= <- <-]| |by intros [= <- <-]].
  cbv zeta. rewrite bindM_modify. unfold modify. cbn. destruct (conns w !! c) as [x|] eqn:Ec; intros [= <- <-].
  - split; cbn; try done.
    + eapply map_rel_insert; [apply _|done|]. unfold conn_step, SetReadDeadline. destruct (closed x) eqn:Ex; cbn; by rewrite Ex.
    + by eapply map_rel_insert; [apply _|done|].
  - split; cbn; try done. by eapply map_rel_insert; [apply _|done|].
Qed.
Hint Resolve keeps_updateHeartbeat : keeps.

Lemma keeps_reply this mk new pid : keeps (reply wpick this mk new pid).
Proof. unfold reply. keep. Qed.
Hint Resolve keeps_reply : keeps.

Lemma keeps_processPublish this msg : keeps (processPublish wpick this msg).
Proof.
  unfold processPublish, send_keepAlive. keep. apply keeps_modify. intros w. destruct (_ <? _); by apply calm_same.
Qed.
Hint Resolve keeps_processPublish : keeps.

Lemma keeps_disconnect this :
  keeps (do x <- get_sess this ;; do c <- deref_some (Cmsg x.2) ;;
         put_sess x.1 (set_Cmsg (SetWillFlag c false) x.2) ;;; retM (Some errDisconnect)).
Proof.
  intros w r w'. unfold get_sess, get_svc, bindM, gets, deref_some, retM, panicM, put_sess, modify.
  destruct (svcs w !! this) as [s|] eqn:E1; [|by intros [= <- <-]]. cbn.
  destruct (sess s) as [l|] eqn:E2; [|by intros [= <- <-]]. cbn.
  destruct (cells (sessions w) !! l) as [ss|] eqn:E3; [|by intros [= <- <-]]. cbn.
  destruct (Cmsg ss) as [c|] eqn:E4; [|by intros [= <- <-]]. intros [= <- <-].
  eapply calm_put_sess; [done|]. intros [Hq _]. split; [|by eexists].
  intros k. specialize (Hq k). by destruct k.
Qed.
Hint Resolve keeps_disconnect : keeps.

Lemma keeps_processIncoming this msg : keeps (processIncoming pick wpick this msg).
Proof.
  unfold processIncoming, processSubscribe, processUnsubscribe.
  destruct msg; try apply keeps_disconnect; keep.
Qed.

Lemma keeps_isDone this : keeps (isDone this).
Proof. unfold isDone. keep. Qed.

End Handlers2.
#[export] Hint Resolve keeps_publish keeps_ack_timeout keeps_processIncoming keeps_isDone
  keeps_subscribe keeps_unsubscribe keeps_ping : keeps.
