(* ===== verification/Server.v ===== *)
(** * Server: accepting, dispatching and ending connections

    [service/server.go], the receive loop and [exceptionDisconnect] of
    [service/readwrite.go], [PushMsg] of [service/biz.go], [newStopConnect] of
    [service/service.go] and the stub of [auth/auth.go].

    [handleConnection] starts the receiving goroutine before it stores the service
    in [svcMap]; the two parts are separate steps of the system, since the
    goroutine runs in between.  [reg] is the registry of session providers. *)
From stdpp Require Import base list strings gmap.
From Stdlib Require Import ZArith Lia.
From S2P Require Import MsgTypes Header Publish Connect Connack Message AckQueue Session.
From S2P Require Import Prelude GoLang GoStrings NetConn Framing Connectivity World Service.

Definition ErrInvalidUsername : error := ErrorsNew "service：invalid Username".
Definition ErrInvalidPassword : error := ErrorsNew "service：invalid Password".

Definition DefaultKeepAlive : Z := 300.
Definition DefaultConnectTimeout : Z := 2.
Definition DefaultAckTimeout : Z := 20.
Definition DefaultTimeoutRetries : Z := 3.

(** ** The authentication stub *)

Record LoginInput : Type := mkLogin { li_ClientId : list Z; li_Password : list Z }.

(** the [Value] of [LoginOutput] *)
Definition Login (input : LoginInput) : list Z * option error := ([], None).

Record LogoutInput : Type := mkLogout { lo_DeviceName : list Z; lo_ProductKey : list Z; lo_Value : list Z }.

Definition Logout (input : LogoutInput) : option error := None.

(** ** Error texts, as far as [exceptionDisconnect] looks at them *)

(** [fmt.Errorf] with the arguments in place of the verbs *)
Fixpoint format (f : list Z) (args : list arg) : list Z :=
  match f with
  | 37 :: _ :: f =>
      match args with
      | AInt z :: args => (if z <? 0 then 45 :: Itoa (- z) else Itoa z) ++ format f args
      | AStr b :: args => b ++ format f args
      | [] => format f args
      end
  | x :: f => x :: format f args
  | [] => []
  end.

Definition Error_ (e : error) : list Z :=
  match e with
  | Errorf f args => format (str f) args
  | ErrorsNew s => str s
  | ErrCode c => str (Code_Error c)
  end.

Section Server.
Context {TW : Type} `{TimeWheel TW}.
Context (pick : list (list Z) -> option nat) (wpick : list Writer -> option nat)
        (ppick : list PublishMessage -> option nat)
        (copy : PublishMessage -> PublishMessage -> PublishMessage)
        (reg : gmap string memProvider).
Abbreviation M := (M (TW:=TW)).

Definition upd_srv (f : Server -> Server) : M unit := modify (fun w => set_srv (f (srv w)) w).

(** ** Ending a connection *)

Definition newStopConnect (this : Z) : M unit :=
  recovered (
    do s <- get_svc this ;;
    (if done_closed s then panicM (CustomPanic "close of closed channel") else upd_svc this set_sdone) ;;;
    match conn s with
    | Some c =>
        modify (fun w => match conns w !! c with
                         | Some x => set_conns (<[c:=conn_Close x]> (conns w)) w
                         | None => w end)
    | None => retM tt
    end ;;;
    (if ka_closed s then panicM (CustomPanic "close of closed channel") else upd_svc this set_ska) ;;;
    upd_svc this (set_sconn None) ;;;
    do x <- get_sess this ;;
    do ss <- lift (Session.Stop x.2) ;;
    put_sess x.1 ss ;;;
    upd_svc this (set_ssess None)) tt.

(** [strings.Join([]string{pk, dn}, ":")] *)
Definition svc_key (s : service) : list Z := Join [svc_productKey s; svc_deviceName s] (str ":").

Definition deleteMapAndLogout (svc : Z) : M (option error) :=
  do s <- get_svc svc ;;
  upd_srv (fun sv => set_svcMap (delete (svc_key s) (svcMap sv)) sv) ;;;
  retM (Logout (mkLogout (svc_deviceName s) (svc_productKey s) (loginValue s))).

(** [this.sessMgr.Del(svc.sess.ID())] *)
Definition del_session (svc : Z) : M unit :=
  do m <- gets (fun w => sessMgr (srv w)) ;;
  do x <- get_sess svc ;;
  do m <- deref_some m ;;
  upd_srv (set_mgr (Some (mgr_Del (C:=callback) m (ID x.2)))).


(** [e.Error()] on a possibly nil error *)
Definition error_text (e : option error) : M (list Z) :=
  do e <- deref_some e ;; retM (Error_ e).

Definition exceptionDisconnect (this : Z) (err : option error) : M unit :=
  do s <- get_svc this ;;
  let key := Join [svc_productKey s; str ":"; svc_deviceName s] [] in
  do o <- gets (fun w => svcMap (srv w) !! key) ;;
  match o with
  | None => retM tt
  | Some svc =>
      if negb (bool_decide (err = Some EOF)) then
        do t <- error_text err ;;
        let reset := Contains t (str "connection reset by peer") in
        upd_svc svc (set_sreason (if reset then LogReasonValConnectionResetByPeer else LogReasonValKeepaliveTimeout)) ;;;
        do val <- deleteMapAndLogout svc ;;
        (* the log line calls val.Error() *)
        do _ <- error_text val ;;
        del_session svc ;;;
        newStopConnect svc
      else
        upd_svc svc (set_sreason LogReasonValDeviceDisconnect) ;;;
        do val <- deleteMapAndLogout svc ;;
        (match val with Some e => do _ <- error_text (Some e) ;; retM tt | None => retM tt end) ;;;
        del_session svc ;;;
        newStopConnect svc
  end.

(** ** The receive loop *)

Definition set_receiver (this : Z) (r : Receiver) : M unit :=
  modify (fun w => set_receivers (<[this:=r]> (receivers w)) w).
Definition end_receiver (this : Z) : M unit :=
  modify (fun w => set_receivers (delete this (receivers w)) w).

Definition set_conn (c : Z) (x : Conn) : M unit := modify (fun w => set_conns (<[c:=x]> (conns w)) w).

(** before the loop: whether the loop is entered *)
Definition receiverData_begin (this : Z) : M bool :=
  do s <- get_svc this ;;
  match conn s with
  | None => retM false
  | Some c =>
      do o <- gets (fun w => conns w !! c) ;;
      do x <- deref_some o ;;
      let '(err, x) := SetReadDeadline x (keepAlive (cfg s)) in
      set_conn c x ;;;
      match err with
      | Some _ => retM false
      | None => set_receiver this (RxLoop c (keepAlive (cfg s) + 5) NewReader) ;;; retM true
      end
  end.

(** one round of the loop: whether it goes on *)
Definition receiverData_round (this : Z) (c d : Z) (r : Reader) : M bool :=
  do o <- gets (fun w => conns w !! c) ;;
  do x <- deref_some o ;;
  do y <- lift (getPeekMessageSize d r x) ;;
  let '(res, r, x) := y in
  set_conn c x ;;;
  match res with
  | inr e => exceptionDisconnect this (Some e) ;;; retM false
  | inl (mType, total) =>
      do max <- gets (fun w => MaxBufferSize (srv w)) ;;
      (* err is nil here *)
      if max <? total then exceptionDisconnect this None ;;; retM false
      else
        do y <- lift (getPeekMessage d r x mType total) ;;
        let '(msg, _, err, r, x) := y in
        set_conn c x ;;;
        set_receiver this (RxLoop c d r) ;;;
        match err, msg with
        | Some e, _ => exceptionDisconnect this (Some e) ;;; retM false
        | None, None => panicM NilDeref
        | None, Some msg =>
            do err <- processIncoming pick wpick this msg ;;
            match err with
            | Some e => exceptionDisconnect this (Some e) ;;; retM false
            | None => do b <- isDone this ;; retM (negb b)
            end
        end
  end.

(** a turn of the goroutine; a panic ends it *)
Definition receiverData (this : Z) : M bool :=
  do o <- gets (fun w => receivers w !! this) ;;
  match o with
  | None => retM false
  | Some rx =>
      do b <- recovered (match rx with
                         | RxNew => receiverData_begin this
                         | RxLoop c d r => receiverData_round this c d r
                         end) false ;;
      (if b then retM tt else end_receiver this) ;;;
      retM b
  end.

(** ** The handshake *)

Definition checkConfiguration : M (option error) :=
  do sv <- gets srv ;;
  if configured sv then retM None
  else
    let dflt v d := if v =? 0 then d else v in
    let provider := if bool_decide (SessionsProvider sv = "") then "mem" else SessionsProvider sv in
    let '(mgr, err) := match NewManager reg provider with
                       | inl p => (Some p, None)
                       | inr e => (None, Some e)
                       end in
    upd_srv (fun _ => mkServer (dflt (KeepAlive sv) DefaultKeepAlive) (dflt (ConnectTimeout sv) DefaultConnectTimeout)
      (dflt (AckTimeout sv) DefaultAckTimeout) (dflt (TimeoutRetries sv) DefaultTimeoutRetries)
      (MaxBufferSize sv) provider mgr (srv_nodeID sv) (svcMap sv) (ln_closed sv) true (srv_pm sv)) ;;;
    retM err.

(** [getSession]: the reply and the error *)
Definition getSession (rnd : option (list Z)) (svc : Z) (req : ConnectMessage) (resp : ConnackMessage)
  : M (ConnectMessage * ConnackMessage * option error) :=
  do s <- get_svc svc ;;
  let req := if zlen (ClientId req) =? 0
             then SetCleanSession (fst (SetClientId req (str "internalclient" ++ Itoa (svc_id (cfg s))))) true
             else req in
  let cid := ClientId req in
  match sess s with
  | Some _ => retM (req, resp, None)
  | None =>
      do m <- gets (fun w => sessMgr (srv w)) ;;
      do m <- deref_some m ;;
      do h <- gets sessions ;;
      let '(m, h, res) := mgr_New m h rnd cid in
      upd_srv (set_mgr (Some m)) ;;;
      modify (set_sessions h) ;;;
      match res with
      | inr e => retM (req, resp, Some e)
      | inl l =>
          upd_svc svc (set_ssess (Some l)) ;;;
          let resp := SetSessionPresent resp false in
          do x <- get_sess svc ;;
          do y <- lift (Init x.2 req) ;;
          let '(ss, req, err) := y in
          put_sess l ss ;;;
          retM (req, resp, err)
      end
  end.

(** [writeMessage(conn, resp)] *)
Definition write_connack (c : Z) (resp : ConnackMessage) : M (ConnackMessage * option error) :=
  do w <- gets (fun w => w) ;;
  do x <- deref_some (conns w !! c) ;;
  do y <- lift (writeMessage (CNet x) (gid w) (MConnack resp)) ;;
  let '(err, msg, g, cl) := y in
  modify (set_gid g) ;;;
  (match cl with CNet x => set_conn c x | _ => retM tt end) ;;;
  retM (match msg with MConnack m => m | _ => resp end, err).

(** refuse with a return code; [e] is what [handleConnection] returns when the
    reply could be written *)
Definition refuse (c : Z) (resp : ConnackMessage) (code : Z) (e : option error) : M (option error) :=
  do r <- write_connack c (SetSessionPresent (SetReturnCode resp code) false) ;;
  match r.2 with
  | Some e => retM (Some e)
  | None => retM e
  end.

(** the new [service] of an accepted CONNECT *)
Definition new_service (sv : Server) (n : Z) (addr productKey deviceName splitClientId : list Z) (keepAlive c : Z) : service :=
  mkService (mkConf n false addr productKey deviceName (srv_nodeID sv) keepAlive (ConnectTimeout sv)
               (AckTimeout sv) (TimeoutRetries sv) splitClientId)
            (Some c) None false false ∅ (pm_init (mkPMPool [] false)) [] LogReasonNone (mkStat 0 0) (mkStat 0 0) zero_csm.

(** end the connection that holds the key *)
Definition tick_off (key : list Z) : M unit :=
  do o <- gets (fun w => svcMap (srv w) !! key) ;;
  match o with
  | None => retM tt
  | Some old =>
      upd_svc old (set_sreason LogReasonValTickOffDevice) ;;;
      do val <- deleteMapAndLogout old ;;
      (match val with Some e => do _ <- error_text (Some e) ;; retM tt | None => retM tt end) ;;;
      del_session old ;;;
      newStopConnect old
  end.

Inductive hresult : Type :=
| HFail (e : option error)             (* return nil, e *)
| HStarted (key : list Z) (svc : Z).   (* the goroutine has been started *)

(** [handleConnection] from the first read to [svc.start] *)
Definition handle_connect (sp addr : list Z) (rnd : option (list Z)) (c : Z) : M hresult :=
  do sv <- gets srv ;;
  do o <- gets (fun w => conns w !! c) ;;
  do x <- deref_some o ;;
  let '(_, x) := SetReadDeadline x (ConnectTimeout sv) in
  let resp := NewConnackMessage in
  do y <- lift (getConnectMessage sp (CNet x)) ;;
  let '(req, err, cl) := y in
  (match cl with CNet x => set_conn c x | _ => retM tt end) ;;;
  match err, req with
  | Some e, _ =>
      match e with
      | ErrCode code => do e <- refuse c resp code None ;; retM (HFail e)
      | _ => retM (HFail (Some e))
      end
  | None, inr e => retM (HFail (Some e))
  | None, inl req =>
      let req := if Connect.KeepAlive req =? 0 then SetKeepAlive req (5 * 60) else req in
      let userName := Username req in
      let clientID := ClientId req in
      let passWord := Password req in
      match Split userName 38 with
      | [deviceName; productKey] =>
          if bool_decide (passWord = []) then
            do e <- refuse c resp ErrBadClientIdOrUsernameOrPassword (Some ErrInvalidPassword) ;; retM (HFail e)
          else
            do splitClientId <- lift (index (Split clientID 124) 0) ;;
            do n <- gets (fun w => u64 (gsvcid w + 1)) ;;
            modify (set_gsvcid n) ;;;
            modify (fun w => set_svcs (<[n:=new_service sv n addr productKey deviceName splitClientId
                                          (Connect.KeepAlive req) c]> (svcs w)) w) ;;;
            let key := Join [productKey; str ":"; deviceName] [] in
            tick_off key ;;;
            let '(value, err) := Login (mkLogin clientID passWord) in
            upd_svc n (set_slogin value) ;;;
            match err with
            | Some e => do e <- refuse c resp ErrAuthServerLoginFailed None ;; retM (HFail e)
            | None =>
                do y <- getSession rnd n req resp ;;
                let '(req, resp, err) := y in
                match err with
                | Some e => retM (HFail (Some e))
                | None =>
                    do r <- write_connack c (SetReturnCode resp ConnectionAccepted) ;;
                    let '(resp, err) := r in
                    match err with
                    | Some e => retM (HFail (Some e))
                    | None =>
                        upd_svc n (fun s => set_sstats (stat_increment (inStat s) (snd (Connect.Len req)))
                                                       (stat_increment (outStat s) (snd (Connack.Len resp))) s) ;;;
                        set_receiver n RxNew ;;;
                        retM (HStarted key n)
                    end
                end
            end
      | _ =>
          do e <- refuse c resp ErrBadClientIdOrUsernameOrPassword (Some ErrInvalidUsername) ;; retM (HFail e)
      end
  end.

(** the deferred [conn.Close()] of a connection that failed with an error *)
Definition close_conn (c : Z) : M unit :=
  modify (fun w => match conns w !! c with
                   | Some x => set_conns (<[c:=conn_Close x]> (conns w)) w
                   | None => w end).

(** [handleConnection] on an accepted connection up to the start of the goroutine,
    with its deferred functions; a panic is recovered, and [err] is nil at every
    point that can panic *)
Definition accept (sp addr : list Z) (rnd : option (list Z)) (c : Z) : M hresult :=
  recovered (
    do err <- checkConfiguration ;;
    match err with
    | Some e => retM (HFail (Some e))
    | None =>
        do r <- handle_connect sp addr rnd c ;;
        match r with
        | HFail (Some e) => close_conn c ;;; retM r
        | _ => retM r
        end
    end) (HFail None).

Definition storeMap (key : list Z) (svc : Z) : M unit :=
  upd_srv (fun sv => set_svcMap (<[key:=svc]> (svcMap sv)) sv).

(** [handleConnection] when nothing runs in between *)
Definition handleConnection (sp addr : list Z) (rnd : option (list Z)) (c : Z) : M hresult :=
  do r <- accept sp addr rnd c ;;
  match r with
  | HStarted key svc => storeMap key svc ;;; retM r
  | HFail _ => retM r
  end.

(** ** Dispatching uploads *)

Definition downloadTopic (pKey dName : list Z) : list Z :=
  str "/sys/" ++ pKey ++ str "/" ++ dName ++ str "/thing/download".

(** one message of the channel: whether the goroutine goes on *)
Definition push_one (u : UploadMsg) : M bool :=
  let topic := Topic (up_Msg u) in
  let path := Split topic 47 in
  if zlen path <? 2 then retM false
  else
    do pKey <- lift (index path (zlen path - 2)) ;;
    do dName <- lift (index path (zlen path - 1)) ;;
    do tl <- lift (subslice path (zlen path - 2) (zlen path)) ;;
    let key := Join tl (str ":") in
    do o <- gets (fun w => svcMap (srv w) !! key) ;;
    match o with
    | None => retM true
    | Some svc =>
        do sv <- gets srv ;;
        do r <- lift (PMPoolGet ppick (srv_pm sv)) ;;
        let '(pmsg, p) := r in
        upd_srv (set_srv_pm p) ;;;
        do r <- lift (SetQoS pmsg QosAtLeastOnce) ;;
        let '(pmsg, _) := SetTopic (fst r) (downloadTopic pKey dName) in
        let pmsg := SetPayload pmsg (Payload (up_Msg u)) in
        do r <- publish pick wpick ppick copy svc pmsg (Some (CbOnComplete svc)) ;;
        upd_srv (fun sv => set_srv_pm (PMPoolPut (srv_pm sv) (fst r)) sv) ;;;
        retM true
    end.

(** a turn of the goroutine of [PushMsg]; it waits on an empty channel *)
Definition PushMsg : M unit :=
  do w <- gets (fun w => w) ;;
  if pushing w then
    match msgChan w with
    | [] => retM tt
    | u :: us =>
        modify (set_msgChan us) ;;;
        do b <- push_one u ;;
        modify (set_pushing b)
    end
  else retM tt.

(** ** Shutting down *)

(** the function [Close] gives to [svcMap.Range] *)
Definition close_one (svc : Z) : M unit :=
  upd_svc svc (set_sreason LogReasonValServerClose) ;;;
  do val <- deleteMapAndLogout svc ;;
  (match val with Some e => do _ <- error_text (Some e) ;; retM tt | None => retM tt end) ;;;
  del_session svc ;;;
  newStopConnect svc.

Fixpoint close_all (l : list Z) : M unit :=
  match l with
  | [] => retM tt
  | svc :: l => close_one svc ;;; close_all l
  end.

Definition Close : M unit :=
  upd_srv set_ln_closed ;;;
  do l <- gets (fun w => (map_to_list (svcMap (srv w))).*2) ;;
  close_all l ;;;
  do m <- gets (fun w => sessMgr (srv w)) ;;
  match m with
  | Some m => upd_srv (set_mgr (Some (fst (mgr_Close (C:=callback) m))))
  | None => retM tt
  end.

End Server.
