(* ===== verification/Sample.v ===== *)
(** * Sample: a small server run

    A server with one in-memory provider, a device [d1] of product [pk] that
    connects, and the worlds this leads to.  The theorems about handlers are tried
    on these worlds. *)
From stdpp Require Import base list strings gmap.
From Stdlib Require Import ZArith Lia.
From S2P Require Import MsgTypes Header Publish Connect Connack Message AckQueue Session.
From S2P Require Import Prelude GoLang GoStrings NetConn Framing Connectivity World Service Server.

(** pools that never hand out what they hold, a [copier.Copy] that copies all *)
Definition no_pick {A} : A -> option nat := fun _ => None.
Definition copy_all (dst src : PublishMessage) : PublishMessage := src.

Definition mem_registry : gmap string memProvider := {["mem" := ∅]}.

(** the server before its first connection, with messages of at most [max] bytes *)
Definition fresh_server (max : Z) (u : list UploadMsg) : world simple_wheel :=
  mkWorld ∅ ∅ (mkHeap ∅ 0) ∅ 0 0 (0, ∅) (mkPools [] [] []) u true
    (mkServer 0 0 0 0 max "" None [] ∅ false false (mkPMPool [] true)) 1000.

(** the CONNECT of device [d1] *)
Definition d1_connect : ConnectMessage :=
  let m := fst (SetVersion NewConnectMessage 4) in
  let m := SetCleanSession m true in
  let m := fst (SetClientId m (str "c1")) in
  let m := SetKeepAlive m 60 in
  SetPassword (SetUsername m (str "d1&pk")) (str "x").

Definition d1_bytes : list Z := connect_wire (str "MQTT") d1_connect.

Definition d1_key : list Z := str "pk:d1".

(** a connection [c] that sends the CONNECT and then [ss], and ends with [e] *)
Definition d1_dial (ss : list (list Z)) (e : error) : Conn := dial ([take 5 d1_bytes; drop 5 d1_bytes] ++ ss) e.

Definition arrive (c : Z) (x : Conn) (w : world simple_wheel) : world simple_wheel := set_conns (<[c:=x]> (conns w)) w.

(** the handshake on connection [c], the registration, the first turn of the receiver *)
Definition shake (c : Z) (w : world simple_wheel) := accept mem_registry [] [] None c w.
Definition register (n : Z) (w : world simple_wheel) := snd (storeMap d1_key n w).
Definition turn (n : Z) (w : world simple_wheel) := receiverData no_pick no_pick n w.

Definition d1_up (max : Z) (u : list UploadMsg) (ss : list (list Z)) (e : error) : world simple_wheel :=
  snd (turn 1 (register 1 (snd (shake 0 (arrive 0 (d1_dial ss e) (fresh_server max u)))))).

(** a field of an object looked up in a sample world *)
Ltac of_sample E := vm_compute in E; injection E as <-; first [reflexivity | by constructor | done].
