(* ===== verification/Sendrecv.v ===== *)
(** * Sendrecv: the goroutines between a connection and its two ring buffers

    [service/sendrecv.go] ([receiver], [sender], [peekMessageSize], [peekMessage],
    [readMessage], [writeMessage]), [service/process.go] ([processor]) and
    [stopConnect] of [service/service.go].  They are written in the style of
    [Buffer]: programs whose steps touch the shared memory at most once, made of the
    steps of the buffer's methods with [call].

    The methods take a buffer that may be nil where they test it; their loops run on
    the buffer itself.  [wgStarted.Done] needs an [Add] by whoever starts the
    goroutine; log lines are left out. *)
From stdpp Require Import base list strings gmap.
From Stdlib Require Import ZArith Lia.
From S2P Require Import Prelude GoLang GoStrings NetConn Framing Connectivity World.
From S2P Require Import MsgTypes Header Publish Connect Message AckQueue Session Service Server Buffer BufferSpec.

Definition ErrBufferNotReady : error := ErrorsNew "service: buffer is not ready".

(** ** Slices of the ring as arguments of [Decode]

    [sp]: what the capacity of [tmp] hides behind its length. *)
Definition view_slice (b : buffer) (sp : list Z) (v : view) : slice :=
  match v with
  | VNil => mkslice []
  | VBuf off n => Slice (read_view b v) (drop (Z.to_nat (off + n)) (buf b))
  | VTmp n => Slice (read_view b v) sp
  end.

(** ** [peekMessageSize] *)

Inductive size_pc : Type :=
| SzTop (cnt : Z)
| SzWait (cnt : Z) (k : peek_pc)
| SzLook (cnt : Z) (v : view).

Definition peekMessageSize (inb : option buffer) : next size_pc (Z * Z + error) :=
  match inb with None => Fin (inr ErrBufferNotReady) | Some _ => Run (SzTop 2) end.

Definition peekMessageSize_step (b : buffer) (pc : size_pc) : step (buffer * next size_pc (Z * Z + error)) :=
  match pc with
  | SzTop cnt =>
      if 5 <? cnt then
        fin b (inr (Errorf "sendrecv/peekMessageSize: 4th byte of remaining length has continuation bit set" []))
      else run b (SzWait cnt PkEnter)
  | SzWait cnt k =>
      call (ReadWait_step b cnt k) (SzWait cnt) (fun '(v, err) =>
        match err with Some e => Fin (inr e) | None => Run (SzLook cnt v) end)
  | SzLook cnt v =>
      let bs := read_view b v in
      if zlen bs <? cnt then run b (SzTop cnt)
      else
        try (index bs (cnt - 1)) (fun x =>
          if 128 <=? x then run b (SzTop (cnt + 1))
          else
            try (slice_from (mkslice bs) 1) (fun rest =>
              let '(remlen, m) := Uvarint (vis rest) in
              let total := i64 remlen + 1 + m in
              try (index bs 0) (fun b0 => fin b (inl (Z.shiftr b0 4, total)))))
  end.

(** ** [peekMessage] *)

Inductive msg_pc : Type :=
| MgWait (k : peek_pc)
| MgLook (v : view)
| MgDecode (v : view).

Definition peekMessage (inb : option buffer) : next msg_pc (option Message * Z * option error) :=
  match inb with None => Fin (None, 0, Some ErrBufferNotReady) | Some _ => Run (MgWait PkEnter) end.

Definition peekMessage_step (sp : list Z) (b : buffer) (mtype total : Z) (pc : msg_pc)
  : step (buffer * next msg_pc (option Message * Z * option error)) :=
  match pc with
  | MgWait k =>
      call (ReadWait_step b total k) MgWait (fun '(v, err) =>
        match err with
        | Some e => if bool_decide (e = ErrBufferInsufficientData) then Run (MgLook v) else Fin (None, 0, Some e)
        | None => Run (MgLook v)
        end)
  | MgLook v => if total <=? zlen (read_view b v) then run b (MgDecode v) else run b (MgWait PkEnter)
  | MgDecode v =>
      match New mtype with
      | inr e => fin b (None, 0, Some e)
      | inl msg => try (msg_Decode msg (view_slice b sp v)) (fun '(msg, n, err) => fin b (Some msg, n, err))
      end
  end.

(** ** [readMessage]

    [intmp] is the service's scratch slice; [l] bytes of it are filled.  [Read]
    gets all the rest of [intmp], which may be more than the packet. *)
Inductive rmsg_pc : Type :=
| RmTop (intmp : list Z) (l : Z)
| RmRead (intmp : list Z) (l : Z) (p : read_pc)
| RmDecode (intmp : list Z).

Definition readMessage (inb : option buffer) (intmp : list Z) (total : Z)
  : next rmsg_pc (list Z * (option Message * Z * option error)) :=
  match inb with
  | None => Fin (intmp, (None, 0, Some ErrBufferNotReady))
  | Some _ => Run (RmTop (if zlen intmp <? total then replicate (Z.to_nat total) 0 else intmp) 0)
  end.

Definition readMessage_step (b : buffer) (mtype total : Z) (pc : rmsg_pc)
  : step (buffer * next rmsg_pc (list Z * (option Message * Z * option error))) :=
  match pc with
  | RmTop intmp l =>
      if l <? total then try (subslice intmp l (zlen intmp)) (fun _ => run b (RmRead intmp l RdDone))
      else run b (RmDecode intmp)
  | RmRead intmp l p =>
      match Read_step b (zlen intmp - l) p with
      | None => None
      | Some (Panic e) => Some (Panic e)
      | Some (Ret (b, Run p)) => run b (RmRead intmp l p)
      | Some (Ret (b, Fin (out, err))) =>
          try (put intmp l out) (fun intmp =>
            match err with
            | Some e => fin b (intmp, (None, 0, Some e))
            | None => run b (RmTop intmp (l + zlen out))
            end)
      end
  | RmDecode intmp =>
      try (subslice intmp 0 total) (fun bs =>
        match New mtype with
        | inr e => fin b (intmp, (None, 0, Some e))
        | inl msg =>
            try (msg_Decode msg (Slice bs (drop (Z.to_nat total) intmp))) (fun '(msg, n, err) =>
              fin b (intmp, (Some msg, n, err)))
        end)
  end.

(** ** [writeMessage]

    What the writers of one service share besides the buffer: the counter of packet
    identifiers, the scratch slice [outtmp], the mutex [wmu] and the statistics.  A
    writer is known by a number. *)
Record outgoing : Type := mkOutgoing {
  og_gid : Z;
  og_tmp : list Z;
  og_wmu : option nat;
  og_stat : stat
}.

Definition og_set_tmp (t : list Z) (o : outgoing) : outgoing := mkOutgoing (og_gid o) t (og_wmu o) (og_stat o).
Definition og_set_gid (g : Z) (o : outgoing) : outgoing := mkOutgoing g (og_tmp o) (og_wmu o) (og_stat o).
Definition og_set_wmu (h : option nat) (o : outgoing) : outgoing := mkOutgoing (og_gid o) (og_tmp o) h (og_stat o).
Definition og_count (m : Z) (o : outgoing) : outgoing :=
  mkOutgoing (og_gid o) (og_tmp o) (og_wmu o) (stat_increment (og_stat o) m).

Inductive wm_pc : Type :=
| WmLock
| WmWait (w : wfs_pc)
| WmTmp                                   (* encode into [outtmp] *)
| WmEnc (v : view)                        (* encode into the ring *)
| WmWrite (p : list Z) (c : write_pc)
| WmCommit (n : Z) (c : commit_pc).

(** [l := msg.Len()], before the test of the buffer *)
Definition writeMessage (outb : option buffer) (msg : Message)
  : outcome (Message * Z * next wm_pc (Z * option error)) :=
  let! (msg, l) := msg_Len msg in
  match outb with
  | None => Ret (msg, l, Fin (0, Some ErrBufferNotReady))
  | Some _ => Ret (msg, l, Run WmLock)
  end.

(** return, with the deferred [Unlock] *)
Definition wm_return (b : buffer) (o : outgoing) (r : Z * option error)
  : step (buffer * (outgoing * next wm_pc (Z * option error))) :=
  Some (Ret (b, (og_set_wmu None o, Fin r))).
Definition wm_run (b : buffer) (o : outgoing) (pc : wm_pc)
  : step (buffer * (outgoing * next wm_pc (Z * option error))) := Some (Ret (b, (o, Run pc))).

Definition writeMessage_step (me : nat) (msg : Message) (l : Z) (b : buffer) (o : outgoing) (pc : wm_pc)
  : step (buffer * (outgoing * next wm_pc (Z * option error))) :=
  match pc with
  | WmLock => match og_wmu o with None => wm_run b (og_set_wmu (Some me) o) (WmWait WDone) | Some _ => None end
  | WmWait w =>
      match WriteWait_step b l w with
      | None => None
      | Some (Panic p) => Some (Panic p)
      | Some (Ret (b, Run w)) => wm_run b o (WmWait w)
      | Some (Ret (b, Fin (v, wrap, err))) =>
          match err with
          | Some e => wm_return b o (0, Some e)
          | None => wm_run b o (if (wrap : bool) then WmTmp else WmEnc v)
          end
      end
  | WmTmp =>
      let tmp := if zlen (og_tmp o) <? l then replicate (Z.to_nat l) 0 else og_tmp o in
      try (msg_Encode msg (og_gid o) tmp) (fun '(_, g, tmp, n, err) =>
        let o := og_set_gid g (og_set_tmp tmp o) in
        match err with
        | Some e => wm_return b o (0, Some e)
        | None => try (subslice tmp 0 n) (fun p => wm_run b o (WmWrite p WrDone))
        end)
  | WmEnc v =>
      match v with
      | VBuf off k =>
          try (msg_Encode msg (og_gid o) (read_view b v)) (fun '(_, g, d, n, err) =>
            try (put (buf b) off d) (fun ring =>
              let b := with_buf ring b in
              let o := og_set_gid g o in
              match err with
              | Some e => wm_return b o (0, Some e)
              | None => wm_run b o (WmCommit n (CmWait WDone))
              end))
      | _ => Some (Panic SliceBounds)
      end
  | WmWrite p c =>
      match Write_step b p c with
      | None => None
      | Some (Panic e) => Some (Panic e)
      | Some (Ret (b, Run c)) => wm_run b o (WmWrite p c)
      | Some (Ret (b, Fin (m, err))) =>
          match err with
          | Some e => wm_return b o (m, Some e)
          | None => wm_return b (og_count m o) (m, None)
          end
      end
  | WmCommit n c =>
      match WriteCommit_step b n c with
      | None => None
      | Some (Panic e) => Some (Panic e)
      | Some (Ret (b, Run c)) => wm_run b o (WmCommit n c)
      | Some (Ret (b, Fin (m, err))) =>
          match err with
          | Some e => wm_return b o (0, Some e)
          | None => wm_return b (og_count m o) (m, None)
          end
      end
  end.

(** ** The goroutines

    They act on the services, connections and sessions of [World] too.  A step
    yields the buffer, the world and the next program point; a panic is not
    recovered, since [recover] is called by a function the deferred one calls. *)
Section Goroutines.
Context {TW : Type} `{TimeWheel TW}.
Context (pick : list (list Z) -> option nat) (wpick : list Writer -> option nat) (sp : list Z).
Abbreviation M := (M (TW:=TW)).

(** a step on the buffer, and a handler as one step *)
Definition on_buf {L R L' R'} (w : world TW) (m : step (buffer * next L R)) (f : L -> L') (k : R -> next L' R')
  : step (buffer * (world TW * next L' R')) :=
  match call m f k with
  | None => None
  | Some (Panic p) => Some (Panic p)
  | Some (Ret (b, r)) => Some (Ret (b, (w, r)))
  end.

Definition on_world {A L R} (b : buffer) (m : M A) (w : world TW) (k : A -> next L R)
  : step (buffer * (world TW * next L R)) :=
  match m w with
  | (Ret a, w) => Some (Ret (b, (w, k a)))
  | (Panic p, _) => Some (Panic p)
  end.

(** *** [processor] *)
Inductive proc_pc : Type :=
| PrSize (p : size_pc)
| PrMsg (mtype total : Z) (p : msg_pc)
| PrHandle (total : Z) (msg : Message) (n : Z)
| PrCommit (total : Z) (c : rcommit_pc)
| PrDone.

(** the goroutine returns unless its call goes on *)
Definition proc_size (r : next size_pc (Z * Z + error)) : next proc_pc unit :=
  match r with
  | Run p => Run (PrSize p)
  | Fin (inr _) => Fin tt
  | Fin (inl (mtype, total)) => Run (PrMsg mtype total (MgWait PkEnter))
  end.

Definition proc_msg (mtype total : Z) (r : next msg_pc (option Message * Z * option error)) : next proc_pc unit :=
  match r with
  | Run p => Run (PrMsg mtype total p)
  | Fin (Some msg, n, None) => Run (PrHandle total msg n)
  | Fin _ => Fin tt
  end.

(** [this.inStat.increment(int64(n))] *)
Definition count_in (this n : Z) : M unit :=
  upd_svc this (fun s => set_sstats (stat_increment (inStat s) n) (outStat s) s).

Definition processor_step (this : Z) (w : world TW) (b : buffer) (pc : proc_pc)
  : step (buffer * (world TW * next proc_pc unit)) :=
  match pc with
  | PrSize p => on_buf w (peekMessageSize_step b p) PrSize (fun r => proc_size (Fin r))
  | PrMsg mtype total p =>
      on_buf w (peekMessage_step sp b mtype total p) (PrMsg mtype total) (fun r => proc_msg mtype total (Fin r))
  | PrHandle total msg n =>
      on_world b (count_in this n ;;; processIncoming pick wpick this msg) w (fun err =>
        if bool_decide (err = Some errDisconnect) then Fin tt else Run (PrCommit total RcEnter))
  | PrCommit total c =>
      on_buf w (ReadCommit_step b total c) (PrCommit total) (fun '(_, err) =>
        match err with Some _ => Fin tt | None => Run PrDone end)
  | PrDone =>
      on_world b (Service.isDone this) w (fun d =>
        if d && (Len b =? 0) then Fin tt else proc_size (peekMessageSize (Some b)))
  end.

(** *** [receiver] *)

(** [this.csMgr.updateState(s)] *)
Definition update_cs (this s : Z) : M unit :=
  do x <- get_svc this ;;
  do m <- lift (updateState (csMgr x) s) ;;
  upd_svc this (set_scsm m).

(** what follows an error of [ReadFrom] *)
Definition receiver_failed (this : Z) (err : error) : M unit :=
  do s <- get_svc this ;;
  let key := Join [svc_productKey s; str ":"; svc_deviceName s] [] in
  do o <- gets (fun w => svcMap (srv w) !! key) ;;
  if negb (bool_decide (err = EOF)) then
    match o with
    | Some svc =>
        let reset := Contains (Error_ err) (str "connection reset by peer") in
        upd_svc svc (set_sreason (if reset then LogReasonValConnectionResetByPeer else LogReasonValKeepaliveTimeout)) ;;;
        do val <- deleteMapAndLogout svc ;;
        (* the log line calls val.Error() *)
        do _ <- error_text val ;;
        del_session svc ;;;
        newStopConnect svc
    | None => retM tt
    end ;;;
    update_cs this TransientFailure
  else
    match o with
    | Some svc =>
        upd_svc svc (set_sreason LogReasonValDeviceDisconnect) ;;;
        do val <- deleteMapAndLogout svc ;;
        (match val with Some e => do _ <- error_text (Some e) ;; retM tt | None => retM tt end) ;;;
        del_session svc ;;;
        newStopConnect svc
    | None => retM tt
    end ;;;
    update_cs this Shutdown.

(** what a [timeoutReader] on [c] will deliver, as a script *)
Definition conn_script (c : Conn) : reader :=
  if closed c then [([], Some errClosed)]
  else map (fun s => (s, None)) (segs c) ++ [([], Some (rd_err c))].

Inductive recv_pc : Type :=
| RvBegin
| RvRead (p : readfrom_pc)
| RvFail (err : error).

Definition receiver_step (this : Z) (w : world TW) (b : buffer) (pc : recv_pc)
  : step (buffer * (world TW * next recv_pc unit)) :=
  match pc with
  | RvBegin =>
      on_world b (
        do s <- get_svc this ;;
        match conn s with
        | None => retM None
        | Some c =>
            do o <- gets (fun w => conns w !! c) ;;
            do x <- deref_some o ;;
            let '(err, x) := SetReadDeadline x (World.keepAlive (World.cfg s)) in
            set_conn c x ;;;
            retM (match err with Some _ => None | None => Some (conn_script x) end)
        end) w (fun r => match r with None => Fin tt | Some r => Run (RvRead (RfTop r 0 [])) end)
  | RvRead p =>
      (* without an error, which ReadFrom never returns, it is called again *)
      on_buf w (ReadFrom_step b p) RvRead (fun '(_, err, _) =>
        match err with Some e => Run (RvFail e) | None => Run (RvRead (RfTop [] 0 [])) end)
  | RvFail err => on_world b (receiver_failed this err) w (fun _ => Fin tt)
  end.

(** *** [sender] *)

Inductive send_pc : Type :=
| SdBegin
| SdWrite (p : writeto_pc)
| SdFail (err : error).

(** [wr]: what the connection will answer to the writes *)
Definition sender_step (wr : writer) (this : Z) (w : world TW) (b : buffer) (pc : send_pc)
  : step (buffer * (world TW * next send_pc unit)) :=
  match pc with
  | SdBegin =>
      on_world b (do s <- get_svc this ;; retM (conn s)) w (fun c =>
        match c with None => Fin tt | Some _ => Run (SdWrite (WtTop wr 0 [])) end)
  | SdWrite p =>
      on_buf w (WriteTo_step b p) SdWrite (fun '(_, err, _) =>
        match err with Some e => Run (SdFail e) | None => Run (SdWrite (WtTop [] 0 [])) end)
  | SdFail err =>
      on_world b (update_cs this (if bool_decide (err = EOF) then Shutdown else TransientFailure)) w (fun _ => Fin tt)
  end.

(** *** [stopConnect]

    [running]: a goroutine of the service has not called [wgStopped.Done].  The
    function recovers its own panics, so a panic is a return. *)
Inductive stop_pc : Type :=
| StDone
| StConn
| StIn (c : close_pc)
| StOut (c : close_pc)
| StWait
| StEnd.

Definition stop_world {A} (m : M A) (w : world TW) (k : A -> next stop_pc unit) : world TW * next stop_pc unit :=
  match m w with (Ret a, w) => (w, k a) | (Panic _, w) => (w, Fin tt) end.

Definition stopConnect_step (this : Z) (running : bool) (w : world TW) (bin bout : buffer) (pc : stop_pc)
  : option (buffer * buffer * (world TW * next stop_pc unit)) :=
  match pc with
  | StDone =>
      Some (bin, bout, stop_world (
        do s <- get_svc this ;;
        if done_closed s then panicM (CustomPanic "close of closed channel") else upd_svc this set_sdone) w
        (fun _ => Run StConn))
  | StConn =>
      Some (bin, bout, stop_world (
        do s <- get_svc this ;;
        match conn s with
        | Some c => modify (fun w => match conns w !! c with
                                     | Some x => set_conns (<[c:=conn_Close x]> (conns w)) w
                                     | None => w end)
        | None => retM tt
        end) w (fun _ => Run (StIn ClDone)))
  | StIn c =>
      match close_step Closer bin c with
      | None => None
      | Some (Panic _) => Some (bin, bout, (w, Fin tt))
      | Some (Ret (bin, Run c)) => Some (bin, bout, (w, Run (StIn c)))
      | Some (Ret (bin, Fin _)) => Some (bin, bout, (w, Run (StOut ClDone)))
      end
  | StOut c =>
      match close_step Closer bout c with
      | None => None
      | Some (Panic _) => Some (bin, bout, (w, Fin tt))
      | Some (Ret (bout, Run c)) => Some (bin, bout, (w, Run (StOut c)))
      | Some (Ret (bout, Fin _)) => Some (bin, bout, (w, Run StWait))
      end
  | StWait => if running then None else Some (bin, bout, (w, Run StEnd))
  | StEnd =>
      Some (bin, bout, stop_world (
        do s <- get_svc this ;;
        (if ka_closed s then panicM (CustomPanic "close of closed channel") else upd_svc this set_ska) ;;;
        upd_svc this (set_sconn None)) w (fun _ => Fin tt))
  end.

End Goroutines.

(** ** Steps of the goroutines against the assertions of [BufferSpec] *)
Section Steps.
Context {TW : Type} `{TimeWheel TW}.
Abbreviation M := (M (TW:=TW)).

Lemma keeps_on_buf {L R L' R'} me b sent (w : world TW) (m : step (buffer * next L R)) (f : L -> L') (k : R -> next L' R')
    (Q : buffer -> list Z -> next L' R' -> Prop) :
  keeps me b sent (call m f k) Q ->
  keeps me b sent (on_buf w m f k) (fun b' sent' x => Q b' sent' x.2).
Proof.
  intros Hk b' [w' r] E. unfold on_buf in E. destruct (call m f k) as [[[b1 r1]|]|]; simplify_eq. by apply Hk.
Qed.

Lemma keeps_on_world {A L R} me b sent (w : world TW) (m : M A) (k : A -> next L R) (Q : buffer -> list Z -> next L R -> Prop) :
  mem_ok b sent -> (forall a, Q b sent (k a)) ->
  keeps me b sent (on_world b m w k) (fun b' sent' x => Q b' sent' x.2).
Proof. intros Hm HQ. unfold on_world. destruct (m w) as [[a|p] w']; [apply keeps_here; [done|apply HQ]|by intros b' x]. Qed.

End Steps.
