(* ===== verification/ServerSpec.v ===== *)
(** * ServerSpec: the life of a connection

    The parts of a registered service are there and are its own ([server_inv]);
    every step of the system keeps this, and from it follow what a handshake, a
    disconnect and a shutdown do. *)
From stdpp Require Import base list strings gmap.
From Stdlib Require Import ZArith Lia.
From S2P Require Import MsgTypes Header Publish Connect Connack Message AckQueue Session.
From S2P Require Import Prelude GoLang GoStrings NetConn Framing Connectivity World Service ServiceSpec Server.

(** the two spellings of the key in the code agree *)
Lemma key_spellings pk dn : Join [pk; str ":"; dn] [] = Join [pk; dn] (str ":").
Proof. reflexivity. Qed.

Section Live.
Context {TW : Type}.
Implicit Types w : world TW.

(** service [l] runs under key [k] on connection [c] with session [sl] *)
Record live w (l : Z) (k : list Z) (s : service) (c : Z) (x : Conn) (sl : Z) (ss : Session callback) : Prop := {
  lv_svc : svcs w !! l = Some s;
  lv_key : svc_key s = k;
  lv_done : done_closed s = false;
  lv_ka : ka_closed s = false;
  lv_conn : conn s = Some c;
  lv_conn_at : conns w !! c = Some x;
  lv_open : closed x = false;
  lv_sess : sess s = Some sl;
  lv_sess_at : cells (sessions w) !! sl = Some ss;
  lv_sess_live : sess_live ss
}.

Definition is_live w (l : Z) (k : list Z) : Prop := exists s c x sl ss, live w l k s c x sl ss.

(** ** Taking a service down *)

Definition stopped (s : service) : service := set_ssess None (set_sconn None (set_ska (set_sdone s))).

Definition stopped_sess (s : Session callback) : Session callback :=
  mkSession None None None None None None None (Will s) (Retained s) [] (Session.rbuf s) None (initted s) (id s).

Lemma Stop_live ss : sess_live ss -> Session.Stop ss = Ret (stopped_sess ss).
Proof.
  intros [Hq _]. unfold Session.Stop.
  destruct (Hq QPub1ack) as [q1 E1], (Hq QPub2in) as [q2 E2], (Hq QPub2out) as [q3 E3],
    (Hq QSuback) as [q4 E4], (Hq QUnsuback) as [q5 E5], (Hq QPingack) as [q6 E6].
  cbn in E1, E2, E3, E4, E5, E6. by rewrite E1, E2, E3, E4, E5, E6.
Qed.

(** the world in which service [l] has been stopped *)
Definition after_stop w (l : Z) (s : service) (c : Z) (x : Conn) (sl : Z) (ss : Session callback) : world TW :=
  set_svcs (<[l:=stopped s]> (svcs w))
    (set_conns (<[c:=conn_Close x]> (conns w))
       (set_sessions (mkHeap (<[sl:=stopped_sess ss]> (cells (sessions w))) (next_loc (sessions w))) w)).

Lemma get_svc_ok w l s : svcs w !! l = Some s -> get_svc l w = (Ret s, w).
Proof. intros Hs. unfold get_svc. rewrite bindM_gets, Hs. done. Qed.

Lemma upd_svc_ok w l s f : svcs w !! l = Some s -> upd_svc l f w = (Ret tt, set_svcs (<[l:=f s]> (svcs w)) w).
Proof. intros Hs. unfold upd_svc. by rewrite (bindM_step _ _ _ _ _ (get_svc_ok w l s Hs)). Qed.

Lemma get_sess_ok w l s sl ss : svcs w !! l = Some s -> sess s = Some sl -> cells (sessions w) !! sl = Some ss ->
  get_sess l w = (Ret (sl, ss), w).
Proof.
  intros Hs Hl Hc. unfold get_sess. rewrite (bindM_step _ _ _ _ _ (get_svc_ok w l s Hs)), Hl. cbn [deref_some].
  rewrite bindM_ret, bindM_gets, Hc. done.
Qed.

Lemma newStopConnect_ok w l k s c x sl ss : live w l k s c x sl ss ->
  newStopConnect l w = (Ret tt, after_stop w l s c x sl ss).
Proof.
  intros [Hs Hk Hd Ha Hc Hca Ho Hse Hsa Hl]. unfold newStopConnect, recovered.
  rewrite (bindM_step _ _ _ _ _ (get_svc_ok w l s Hs)), Hd, Ha, Hc.
  rewrite (bindM_step _ _ _ _ _ (upd_svc_ok w l s _ Hs)), bindM_modify. cbn [conns set_svcs]. rewrite Hca.
  erewrite bindM_step by (apply upd_svc_ok; cbn; apply lookup_insert_eq).
  erewrite bindM_step by (apply upd_svc_ok; cbn; apply lookup_insert_eq).
  erewrite bindM_step by (eapply get_sess_ok; [cbn; apply lookup_insert_eq|cbn; exact Hse|exact Hsa]).
  cbn [snd fst]. rewrite (Stop_live ss Hl), bindM_lift. unfold put_sess. rewrite bindM_modify.
  erewrite upd_svc_ok by (cbn; apply lookup_insert_eq). cbn. unfold after_stop, set_svcs, set_conns, set_sessions. cbn.
  by rewrite !insert_insert_eq.
Qed.

Lemma del_session_ok w l s sl ss m : svcs w !! l = Some s -> sess s = Some sl -> cells (sessions w) !! sl = Some ss ->
  sessMgr (srv w) = Some m ->
  del_session l w = (Ret tt, set_srv (set_mgr (Some (mgr_Del (C:=callback) m (ID ss))) (srv w)) w).
Proof.
  intros Hs Hl Hc Hm. unfold del_session. rewrite bindM_gets, Hm.
  rewrite (bindM_step _ _ _ _ _ (get_sess_ok w l s sl ss Hs Hl Hc)). done.
Qed.

Lemma deleteMapAndLogout_ok w l s : svcs w !! l = Some s ->
  deleteMapAndLogout l w = (Ret None, set_srv (set_svcMap (delete (svc_key s) (svcMap (srv w))) (srv w)) w).
Proof. intros Hs. unfold deleteMapAndLogout. by rewrite (bindM_step _ _ _ _ _ (get_svc_ok w l s Hs)). Qed.

(** the world in which service [l] has been removed and stopped *)
Definition after_down w (l : Z) (s : service) (c : Z) (x : Conn) (sl : Z) (ss : Session callback)
    (m : memProvider) (r : logReason) : world TW :=
  set_srv (set_mgr (Some (mgr_Del (C:=callback) m (ID ss))) (set_svcMap (delete (svc_key s) (svcMap (srv w))) (srv w)))
    (after_stop w l (set_sreason r s) c x sl ss).

(** the service [l] has been ended: its connection is closed *)
Definition ended w (l c0 : Z) : Prop :=
  (exists y, conns w !! c0 = Some y /\ closed y = true) /\
  (exists s, svcs w !! l = Some s /\ done_closed s = true /\ ka_closed s = true /\ conn s = None /\ sess s = None).

Lemma down_ended w l s c x sl ss m r : ended (after_down w l s c x sl ss m r) l c.
Proof. split; eexists; (split; [cbn; apply lookup_insert_eq|done]). Qed.

(** what has been ended stays ended when another service is *)
Lemma ended_down w l0 c0 l s c x sl ss m r : ended w l0 c0 -> ended (after_down w l s c x sl ss m r) l0 c0.
Proof.
  intros [(y & Hy & Hc) (s0 & Hs0 & E)]. split; cbn.
  - destruct (decide (c0 = c)) as [->|]; [rewrite lookup_insert_eq; by eexists|rewrite lookup_insert_ne by done; by exists y].
  - destruct (decide (l0 = l)) as [->|]; [rewrite lookup_insert_eq; by eexists|rewrite lookup_insert_ne by done; by exists s0].
Qed.

(** the lines [tick_off], [exceptionDisconnect] after io.EOF and [Close] share *)
Lemma take_down_ok w l k s c x sl ss m r : live w l k s c x sl ss -> sessMgr (srv w) = Some m ->
  (upd_svc l (set_sreason r) ;;;
   do val <- deleteMapAndLogout l ;;
   (match val with Some e => do _ <- error_text (Some e) ;; retM tt | None => retM tt end) ;;;
   del_session l ;;;
   newStopConnect l) w = (Ret tt, after_down w l s c x sl ss m r).
Proof.
  intros L Hm. pose proof L as [Hs Hk Hd Ha Hc Hca Ho Hse Hsa Hl].
  rewrite (bindM_step _ _ _ _ _ (upd_svc_ok w l s _ Hs)).
  erewrite bindM_step by (apply deleteMapAndLogout_ok; cbn; apply lookup_insert_eq).
  cbv beta iota. rewrite bindM_ret. erewrite bindM_step by
    (eapply del_session_ok; [cbn; apply lookup_insert_eq|cbn; exact Hse|exact Hsa|exact Hm]).
  erewrite newStopConnect_ok by (split; cbn; try apply lookup_insert_eq; try done; apply Hca).
  unfold after_down, after_stop, set_svcs, set_conns, set_sessions, set_srv. cbn. by rewrite !insert_insert_eq.
Qed.

End Live.

(** ** The invariant *)

(** [p]: the services whose goroutine has been started and that are about to be
    stored in [svcMap] *)
Section Invariant.
Context {TW : Type}.
Implicit Types w : world TW.
Implicit Types p : list (list Z * Z).

(** not registered and not about to be *)
Definition loose w p (l : Z) : Prop := (forall k, svcMap (srv w) !! k <> Some l) /\ l ∉ p.*2.

Record server_inv w p : Prop := {
  si_reg : forall k l, svcMap (srv w) !! k = Some l -> is_live w l k;
  si_pend : forall k l, (k, l) ∈ p -> is_live w l k /\ forall k', svcMap (srv w) !! k' <> Some l;
  si_nodup : NoDup p.*2;
  si_conn : forall l1 l2 s1 s2 c, svcs w !! l1 = Some s1 -> svcs w !! l2 = Some s2 ->
    conn s1 = Some c -> conn s2 = Some c -> l1 = l2;
  si_sess : forall l1 l2 s1 s2 sl, svcs w !! l1 = Some s1 -> svcs w !! l2 = Some s2 ->
    sess s1 = Some sl -> sess s2 = Some sl -> l1 = l2;
  si_conn_dom : forall l s c, svcs w !! l = Some s -> conn s = Some c -> is_Some (conns w !! c);
  si_sess_dom : forall l s sl, svcs w !! l = Some s -> sess s = Some sl -> sl < next_loc (sessions w);
  si_cells : forall sl, is_Some (cells (sessions w) !! sl) -> sl < next_loc (sessions w);
  si_ids : forall l, is_Some (svcs w !! l) -> l <= gsvcid w;
  si_gsvc : 0 <= gsvcid w;
  si_mgr : forall k l, svcMap (srv w) !! k = Some l \/ (k, l) ∈ p -> is_Some (sessMgr (srv w)) /\ configured (srv w) = true
}.

Lemma is_live_calm w w' l k : calm w w' -> is_live w l k -> is_live w' l k.
Proof.
  intros Hc (s & c & x & sl & ss & [H1 H2 H3 H4 H5 H6 H7 H8 H9 H10]).
  destruct (map_rel_lookup _ _ _ _ _ (cm_svcs _ _ Hc) H1) as (s' & Hs' & E1 & E2 & E3 & E4 & E5).
  destruct (map_rel_lookup _ _ _ _ _ (cm_conns _ _ Hc) H6) as (x' & Hx' & Ex).
  destruct (map_rel_lookup _ _ _ _ _ (cm_sess _ _ Hc) H9) as (ss' & Hss' & Ess).
  exists s', c, x', sl, ss'. destruct Ex as [Ex _]. split; try congruence; [|by apply Ess].
  rewrite <- H2. unfold svc_key, svc_productKey, svc_deviceName. by rewrite E1.
Qed.

(** the handlers of a connection keep the invariant *)
Lemma calm_inv w w' p : calm w w' -> server_inv w p -> server_inv w' p.
Proof.
  intros Hc I. pose proof (cm_srv _ _ Hc) as (Em & Eg & Ec & _). split; rewrite ?Em, ?Eg, ?Ec, ?(cm_next _ _ Hc), ?(cm_gsvc _ _ Hc).
  - intros k l Hk. eapply is_live_calm; [done|]. by apply I.
  - intros k l Hk. destruct (si_pend _ _ I k l Hk). split; [by eapply is_live_calm|done].
  - apply I.
  - intros l1 l2 s1 s2 c H1 H2 E1 E2.
    destruct (map_rel_lookup_inv _ _ _ _ _ (cm_svcs _ _ Hc) H1) as (s1' & G1 & _ & F1 & _).
    destruct (map_rel_lookup_inv _ _ _ _ _ (cm_svcs _ _ Hc) H2) as (s2' & G2 & _ & F2 & _).
    apply (si_conn _ _ I l1 l2 s1' s2' c G1 G2); congruence.
  - intros l1 l2 s1 s2 sl H1 H2 E1 E2.
    destruct (map_rel_lookup_inv _ _ _ _ _ (cm_svcs _ _ Hc) H1) as (s1' & G1 & _ & _ & F1 & _).
    destruct (map_rel_lookup_inv _ _ _ _ _ (cm_svcs _ _ Hc) H2) as (s2' & G2 & _ & _ & F2 & _).
    apply (si_sess _ _ I l1 l2 s1' s2' sl G1 G2); congruence.
  - intros l s c H1 E1. destruct (map_rel_lookup_inv _ _ _ _ _ (cm_svcs _ _ Hc) H1) as (s1' & G1 & _ & F1 & _).
    destruct (si_conn_dom _ _ I l s1' c G1 ltac:(congruence)) as [x Hx].
    destruct (map_rel_lookup _ _ _ _ _ (cm_conns _ _ Hc) Hx) as (x' & Hx' & _). by eexists.
  - intros l s sl H1 E1. destruct (map_rel_lookup_inv _ _ _ _ _ (cm_svcs _ _ Hc) H1) as (s1' & G1 & _ & _ & F1 & _).
    apply (si_sess_dom _ _ I l s1' sl G1). congruence.
  - intros sl [ss Hs]. destruct (map_rel_lookup_inv _ _ _ _ _ (cm_sess _ _ Hc) Hs) as (ss' & G & _).
    apply (si_cells _ _ I). by eexists.
  - intros l [s Hs]. destruct (map_rel_lookup_inv _ _ _ _ _ (cm_svcs _ _ Hc) Hs) as (s' & G & _).
    apply (si_ids _ _ I). by eexists.
  - apply (si_gsvc _ _ I).
  - apply (si_mgr _ _ I).
Qed.

End Invariant.

(** a clause of the invariant that is not touched *)
Ltac unchanged I :=
  first [ exact (si_reg _ _ I) | exact (si_nodup _ _ I) | exact (si_conn _ _ I) | exact (si_sess _ _ I)
        | exact (si_conn_dom _ _ I) | exact (si_sess_dom _ _ I) | exact (si_cells _ _ I) | exact (si_ids _ _ I)
        | exact (si_gsvc _ _ I) | exact (si_mgr _ _ I) ].

Section InvariantRules.
Context {TW : Type}.
Implicit Types w : world TW.
Implicit Types p : list (list Z * Z).

(** a live service does not notice changes to other objects *)
Lemma is_live_frame w w' l k s :
  svcs w !! l = Some s -> svcs w' !! l = Some s ->
  (forall c, conn s = Some c -> conns w' !! c = conns w !! c) ->
  (forall sl, sess s = Some sl -> cells (sessions w') !! sl = cells (sessions w) !! sl) ->
  is_live w l k -> is_live w' l k.
Proof.
  intros Hs Hs' Hc Hse (s0 & c & x & sl & ss & [H1 H2 H3 H4 H5 H6 H7 H8 H9 H10]).
  assert (s0 = s) as -> by congruence. exists s, c, x, sl, ss. split; try done; [by rewrite Hc|by rewrite Hse].
Qed.

(** taking the service of a key down keeps the invariant *)
Lemma down_inv w p k l s c x sl ss m r :
  server_inv w p -> svcMap (srv w) !! k = Some l -> live w l k s c x sl ss -> sessMgr (srv w) = Some m ->
  server_inv (after_down w l s c x sl ss m r) p.
Proof.
  intros I Hk L Hm. pose proof L as [Hs Hkey Hd Ha Hc Hca Ho Hse Hsa Hl].
  assert (Hfr : forall l' k', l' <> l -> is_live w l' k' -> is_live (after_down w l s c x sl ss m r) l' k').
  { intros l' k' Hne Hlv. pose proof Hlv as (s' & c' & x' & sl' & ss' & L').
    apply (is_live_frame w _ _ _ s'); [apply L'| | | |done]; cbn.
    - rewrite lookup_insert_ne by done. apply L'.
    - intros c0 Hc0. rewrite lookup_insert_ne; [done|]. intros <-.
      apply Hne. eapply (si_conn _ _ I); [apply L'|exact Hs|exact Hc0|exact Hc].
    - intros sl0 Hsl0. rewrite lookup_insert_ne; [done|]. intros <-.
      apply Hne. eapply (si_sess _ _ I); [apply L'|exact Hs|exact Hsl0|exact Hse]. }
  assert (Hother : forall l' s', <[l:=stopped (set_sreason r s)]> (svcs w) !! l' = Some s' ->
    forall y, conn s' = Some y \/ sess s' = Some y -> svcs w !! l' = Some s').
  { intros l' s' Hl' y Hy. destruct (decide (l' = l)) as [->|Hne].
    - rewrite lookup_insert_eq in Hl'. injection Hl' as <-. cbn in Hy. by destruct Hy.
    - by rewrite lookup_insert_ne in Hl'. }
  split; cbn -[svc_key].
  - intros k' l' H'. rewrite Hkey in H'. apply lookup_delete_Some in H' as [Hne H'].
    apply Hfr; [|by apply I]. intros ->. destruct (si_reg _ _ I k' l H') as (s1 & ? & ? & ? & ? & L1).
    destruct L1 as [L1 L2 _ _ _ _ _ _ _ _]. congruence.
  - intros k' l' H'. destruct (si_pend _ _ I k' l' H') as [Hlv Hn]. split.
    + apply Hfr; [|done]. intros ->. by eapply Hn.
    + intros k'' G. apply lookup_delete_Some in G as [_ G]. by eapply Hn.
  - apply (si_nodup _ _ I).
  - intros l1 l2 s1 s2 c0 H1 H2 E1 E2.
    exact (si_conn _ _ I l1 l2 s1 s2 c0 (Hother _ _ H1 c0 (or_introl E1)) (Hother _ _ H2 c0 (or_introl E2)) E1 E2).
  - intros l1 l2 s1 s2 c0 H1 H2 E1 E2.
    exact (si_sess _ _ I l1 l2 s1 s2 c0 (Hother _ _ H1 c0 (or_intror E1)) (Hother _ _ H2 c0 (or_intror E2)) E1 E2).
  - intros l' s' c0 H1 E1. destruct (decide (c0 = c)) as [->|]; [rewrite lookup_insert_eq; by eexists|].
    rewrite lookup_insert_ne by done. exact (si_conn_dom _ _ I l' s' c0 (Hother _ _ H1 c0 (or_introl E1)) E1).
  - intros l' s' c0 H1 E1. exact (si_sess_dom _ _ I l' s' c0 (Hother _ _ H1 c0 (or_intror E1)) E1).
  - intros sl0 H1. apply (si_cells _ _ I). destruct (decide (sl0 = sl)) as [->|]; [by eexists|].
    by rewrite lookup_insert_ne in H1.
  - intros l' H1. apply (si_ids _ _ I). destruct (decide (l' = l)) as [->|]; [by eexists|].
    by rewrite lookup_insert_ne in H1.
  - apply (si_gsvc _ _ I).
  - intros k' l' H1. split; [by eexists|]. eapply (si_mgr _ _ I k l). by left.
Qed.

(** changing a service that is not registered *)
Lemma loose_inv w p n s' :
  server_inv w p -> loose w p n -> n <= gsvcid w ->
  (forall l s c, l <> n -> svcs w !! l = Some s -> conn s = Some c -> conn s' <> Some c) ->
  (forall l s sl, l <> n -> svcs w !! l = Some s -> sess s = Some sl -> sess s' <> Some sl) ->
  (forall c, conn s' = Some c -> is_Some (conns w !! c)) ->
  (forall sl, sess s' = Some sl -> sl < next_loc (sessions w)) ->
  server_inv (set_svcs (<[n:=s']> (svcs w)) w) p.
Proof.
  intros I [Hn1 Hn2] Hid Hc Hse Hcd Hsd.
  assert (Hfr : forall l' k', l' <> n -> is_live w l' k' -> is_live (set_svcs (<[n:=s']> (svcs w)) w) l' k').
  { intros l' k' Hne Hlv. pose proof Hlv as (s1 & ? & ? & ? & ? & L'). apply (is_live_frame w _ _ _ s1); try done; [apply L'|].
    cbn. rewrite lookup_insert_ne by done. apply L'. }
  assert (Hlk : forall l s, <[n:=s']> (svcs w) !! l = Some s -> (l = n /\ s = s') \/ (l <> n /\ svcs w !! l = Some s)).
  { intros l s Hl. destruct (decide (l = n)) as [->|Hne]; [rewrite lookup_insert_eq in Hl; injection Hl as <-; by left|].
    rewrite lookup_insert_ne in Hl by done. by right. }
  split; cbn; try solve [unchanged I].
  - intros k l Hk. apply Hfr; [|by apply I]. intros ->. by eapply Hn1.
  - intros k l Hk. destruct (si_pend _ _ I k l Hk) as [Hlv Hx]. split; [|done]. apply Hfr; [|done]. intros ->.
    apply Hn2. apply list_elem_of_fmap. by exists (k, n).
  - intros l1 l2 s1 s2 c H1 H2 E1 E2. apply Hlk in H1 as [[-> ->]|[N1 H1]], H2 as [[-> ->]|[N2 H2]]; try done.
    + by destruct (Hc _ _ _ N2 H2 E2).
    + by destruct (Hc _ _ _ N1 H1 E1).
    + by eapply (si_conn _ _ I).
  - intros l1 l2 s1 s2 c H1 H2 E1 E2. apply Hlk in H1 as [[-> ->]|[N1 H1]], H2 as [[-> ->]|[N2 H2]]; try done.
    + by destruct (Hse _ _ _ N2 H2 E2).
    + by destruct (Hse _ _ _ N1 H1 E1).
    + by eapply (si_sess _ _ I).
  - intros l s c H1 E1. apply Hlk in H1 as [[-> ->]|[N1 H1]]; [by apply Hcd|by eapply (si_conn_dom _ _ I)].
  - intros l s c H1 E1. apply Hlk in H1 as [[-> ->]|[N1 H1]]; [by apply Hsd|by eapply (si_sess_dom _ _ I)].
  - intros l [s Hs]. apply Hlk in Hs as [[-> ->]|[N1 H1]]; [done|]. apply (si_ids _ _ I). by eexists.
Qed.

(** replacing the session manager *)
Lemma inv_set_mgr w p m : server_inv w p -> server_inv (set_srv (set_mgr (Some m) (srv w)) w) p.
Proof.
  intros I. assert (Hfr : forall l k, is_live w l k -> is_live (set_srv (set_mgr (Some m) (srv w)) w) l k).
  { intros l k (s & c & x & sl & ss & []). by exists s, c, x, sl, ss. }
  split; cbn; try solve [unchanged I].
  - intros k l Hk. apply Hfr. by apply I.
  - intros k l Hk. destruct (si_pend _ _ I k l Hk). split; [by apply Hfr|done].
  - intros k l Hk. split; [by eexists|]. exact (proj2 (si_mgr _ _ I k l Hk)).
Qed.

(** reading from a connection, or what its peer does *)
Lemma set_conn_inv c x x' w p : server_inv w p -> conns w !! c = Some x -> closed x' = closed x ->
  server_inv (set_conns (<[c:=x']> (conns w)) w) p.
Proof.
  intros I Hx Hc. set (w' := set_conns _ w).
  assert (Hfr : forall l k, is_live w l k -> is_live w' l k).
  { intros l k (s & c1 & x1 & sl & ss & [H1 H2 H3 H4 H5 H6 H7 H8 H9 H10]). destruct (decide (c1 = c)) as [->|Hne].
    - assert (x1 = x) as -> by congruence. exists s, c, x', sl, ss. split; try done; [apply lookup_insert_eq|congruence].
    - exists s, c1, x1, sl, ss. split; try done. cbn. by rewrite lookup_insert_ne. }
  split; try solve [unchanged I].
  - intros k l Hk. apply Hfr. by apply (si_reg _ _ I).
  - intros k l Hk. destruct (si_pend _ _ I k l Hk). split; [by apply Hfr|done].
  - intros l s c1 Hl Hcc. cbn. destruct (decide (c1 = c)) as [->|]; [rewrite lookup_insert_eq; by eexists|].
    rewrite lookup_insert_ne by done. exact (si_conn_dom _ _ I l s c1 Hl Hcc).
Qed.

(** changing objects that no registered service owns *)
Lemma unowned_inv w w' p :
  server_inv w p -> svcs w' = svcs w -> srv w' = srv w -> gsvcid w' = gsvcid w ->
  next_loc (sessions w) <= next_loc (sessions w') ->
  (forall sl, is_Some (cells (sessions w') !! sl) -> sl < next_loc (sessions w')) ->
  (forall c, is_Some (conns w !! c) -> is_Some (conns w' !! c)) ->
  (forall l s c, svcs w !! l = Some s -> ~ loose w p l -> conn s = Some c -> conns w' !! c = conns w !! c) ->
  (forall l s sl, svcs w !! l = Some s -> ~ loose w p l -> sess s = Some sl ->
     cells (sessions w') !! sl = cells (sessions w) !! sl) ->
  server_inv w' p.
Proof.
  intros I Es Ev Eg En Hcells Hd Hc Hse.
  assert (Hfr : forall l k, ~ loose w p l -> is_live w l k -> is_live w' l k).
  { intros l k Hn Hlv. pose proof Hlv as (s & ? & ? & ? & ? & L). apply (is_live_frame w _ _ _ s); try done; [apply L|rewrite Es; apply L| |].
    - intros c Hcc. eapply Hc; [apply L|done|done].
    - intros sl Hss. eapply Hse; [apply L|done|done]. }
  split; rewrite ?Es, ?Ev, ?Eg; try solve [unchanged I].
  - intros k l Hk. apply Hfr; [|by apply I]. intros [Hl _]. by eapply Hl.
  - intros k l Hk. destruct (si_pend _ _ I k l Hk) as [Hlv Hx]. split; [|done]. apply Hfr; [|done]. intros [_ Hl].
    apply Hl, list_elem_of_fmap. by exists (k, l).
  - intros l s c Hl Hcc. apply Hd. by eapply (si_conn_dom _ _ I).
  - intros l s sl Hl Hss. eapply Z.lt_le_trans; [by eapply (si_sess_dom _ _ I)|done].
  - exact Hcells.
Qed.

End InvariantRules.

(** ** The handshake keeps the invariant *)

Section Handshake.
Context {TW : Type} `{TimeWheel TW}.
Context (reg : gmap string memProvider).
Context (p : list (list Z * Z)) (c : Z).
Implicit Types w : world TW.
Abbreviation M := (M (TW:=TW)).

(** from [P], a computation ends in [Q], or panics and keeps the invariant *)
Definition triple {A} (P : world TW -> Prop) (m : M A) (Q : A -> world TW -> Prop) : Prop :=
  forall w r w', P w -> m w = (r, w') -> match r with Ret a => Q a w' | Panic _ => server_inv w' p end.

Definition stable (P : world TW -> Prop) : Prop :=
  (forall w, P w -> server_inv w p) /\ (forall w w', calm w w' -> P w -> P w').

Lemma triple_bind {A B} P (m : M A) Q (k : A -> M B) R :
  triple P m Q -> (forall a, triple (Q a) (k a) R) -> triple P (bindM m k) R.
Proof.
  intros Hm Hk w r w' HP Hr. apply bindM_inv in Hr as [(a & w1 & H1 & H2)|(q & H1 & ->)].
  - eapply (Hk a); [|exact H2]. exact (Hm _ _ _ HP H1).
  - exact (Hm _ _ _ HP H1).
Qed.

Lemma triple_calm {A} P (m : M A) : stable P -> keeps m -> triple P m (fun _ => P).
Proof.
  intros [H1 H2] Hk w r w' HP Hr. pose proof (H2 _ _ (Hk _ _ _ Hr) HP) as H3. destruct r; [done|]. by apply H1.
Qed.

(** a calm computation first *)
Lemma triple_calm_bind {A B} P (m : M A) (k : A -> M B) R :
  stable P -> keeps m -> (forall a, triple P (k a) R) -> triple P (bindM m k) R.
Proof. intros Hs Hm Hk. eapply triple_bind; [by apply triple_calm|done]. Qed.

Lemma triple_ret {A} P (a : A) (Q : A -> world TW -> Prop) : (forall w, P w -> Q a w) -> triple P (retM a) Q.
Proof. intros HQ w r w' HP [= <- <-]. by apply HQ. Qed.

Lemma triple_weaken {A} P P' (m : M A) Q : (forall w, P w -> P' w) -> triple P' m Q -> triple P m Q.
Proof. intros Hp Hm w r w' HP Hr. eapply Hm; [by apply Hp|done]. Qed.

(** no registered service runs on [c] *)
Definition conn_loose w : Prop := forall l s, svcs w !! l = Some s -> conn s = Some c -> loose w p l.

Definition conn_live w : Prop := exists x, conns w !! c = Some x /\ closed x = false.

Definition before w : Prop := server_inv w p /\ conn_loose w /\ conn_live w.

(** the new service [n] under key [k] on [c], not registered yet *)
Definition during (n : Z) (k : list Z) w : Prop :=
  server_inv w p /\ loose w p n /\ conn_live w /\ configured (srv w) = true /\
  exists s, svcs w !! n = Some s /\ svc_key s = k /\ done_closed s = false /\ ka_closed s = false /\ conn s = Some c /\
    sess s = None.

Lemma loose_calm w w' l : calm w w' -> loose w p l -> loose w' p l.
Proof. intros Hc [H1 H2]. pose proof (cm_srv _ _ Hc) as (E & _). split; [by rewrite E|done]. Qed.

Lemma conn_live_calm w w' : calm w w' -> conn_live w -> conn_live w'.
Proof.
  intros Hc (x & Hx & Ho). destruct (map_rel_lookup _ _ _ _ _ (cm_conns _ _ Hc) Hx) as (x' & Hx' & E).
  exists x'. split; [done|]. destruct E as [E _]. congruence.
Qed.

Lemma conn_loose_calm w w' : calm w w' -> conn_loose w -> conn_loose w'.
Proof.
  intros Hc Hl l s Hs Hcs. eapply loose_calm; [done|].
  destruct (map_rel_lookup_inv _ _ _ _ _ (cm_svcs _ _ Hc) Hs) as (s1 & H1 & _ & E & _).
  apply (Hl l s1 H1). congruence.
Qed.

Lemma before_stable : stable before.
Proof.
  split; [by intros w (I & _)|]. intros w w' Hc (I & Hl & Hx). split; [by eapply calm_inv|].
  split; [by eapply conn_loose_calm|by eapply conn_live_calm].
Qed.

Lemma during_stable n k : stable (during n k).
Proof.
  split; [by intros w (I & _)|]. intros w w' Hc (I & Hl & Hx & Hcf & s & Hs & Hk & H1 & H2 & H3 & H4).
  pose proof (cm_srv _ _ Hc) as (_ & _ & Ec & _).
  split; [by eapply calm_inv|]. split; [by eapply loose_calm|]. split; [by eapply conn_live_calm|].
  split; [congruence|]. destruct (map_rel_lookup _ _ _ _ _ (cm_svcs _ _ Hc) Hs) as (s' & Hs' & E1 & E2 & E3 & E4 & E5).
  exists s'. split; [done|]. rewrite E2, E3, E4, E5. split; [|done]. rewrite <- Hk.
  unfold svc_key, svc_productKey, svc_deviceName. by rewrite E1.
Qed.

Lemma during_loose n k w : during n k w -> server_inv w p /\ conn_loose w.
Proof.
  intros (I & Hl & _ & _ & s & Hs & _ & _ & _ & Hc & _). split; [done|]. intros l s' Hs' Hc'.
  by rewrite (si_conn _ _ I l n s' s c Hs' Hs Hc' Hc).
Qed.

(** writing to the connection, storing what was read from it *)
Lemma writeMessage_step x g msg err m' g' cl :
  writeMessage (CNet x) g msg = Ret (err, m', g', cl) -> exists x', cl = CNet x' /\ conn_step x x'.
Proof.
  unfold writeMessage. intros Hw. inv_bind Hw as y Hy. destruct y as [m1 ml]. inv_bind Hw as z Hz.
  destruct z as [[[[m2 g2] buf] n] [e|]]; [injection Hw as <- <- <- <-; by eexists|].
  cbn [writeMessageBuffer] in Hw. destruct (conn_Write x buf) as [[k e] x'] eqn:Ew.
  apply conn_Write_step in Ew. injection Hw as <- <- <- <-. by exists x'.
Qed.

Lemma keeps_write_connack resp : keeps (TW:=TW) (write_connack c resp).
Proof.
  intros w r w'. unfold write_connack. rewrite bindM_gets. destruct (conns w !! c) as [x|] eqn:Ex; [|by intros [= <- <-]].
  cbn [deref_some]. rewrite bindM_ret. destruct (writeMessage _ _ _) as [[[[err m'] g'] cl]|q] eqn:Ew; [|by intros [= <- <-]].
  destruct (writeMessage_step _ _ _ _ _ _ _ Ew) as (x' & -> & Hcl). rewrite bindM_lift. cbv beta iota.
  rewrite bindM_modify. unfold set_conn. rewrite bindM_modify. intros [= <- <-]. split; cbn; try done.
  by eapply map_rel_insert; [apply _|done|].
Qed.

Lemma keeps_refuse resp code e : keeps (TW:=TW) (refuse c resp code e).
Proof. unfold refuse. pose proof (keeps_write_connack (SetSessionPresent (SetReturnCode resp code) false)). keep. Qed.

Lemma header_loop_closed fuel : forall x buf l res x', header_loop fuel x buf l = (res, x') -> closed x' = closed x.
Proof.
  induction fuel as [|fuel IH]; intros x buf l res x'; cbn [header_loop]; [by intros [= <- <-]|].
  destruct (5 <? l); [by intros [= <- <-]|].
  assert (Hr : closed (snd (conn_Read x 1)) = closed x).
  { unfold conn_Read. destruct (closed x) eqn:E; [done|]. destruct (segs x); [done|]. by destruct (_ <=? _). }
  destruct (conn_Read x 1) as [[b [e|]] x1]; cbn in Hr; [by intros [= <- <-]|].
  destruct b as [|b0 b]; [intros G; apply IH in G; congruence|]. cbv zeta.
  destruct (_ && _); [by intros [= <- <-]|]. intros G. apply IH in G. congruence.
Qed.

Lemma body_loop_closed fuel : forall x buf l res x', body_loop fuel x buf l = (res, x') -> closed x' = closed x.
Proof.
  induction fuel as [|fuel IH]; intros x buf l res x'; cbn [body_loop]; [by intros [= <- <-]|].
  destruct (l <? zlen buf); [|by intros [= <- <-]].
  assert (Hr : forall k, closed (snd (conn_Read x k)) = closed x).
  { intros k. unfold conn_Read. destruct (closed x) eqn:E; [done|]. destruct (segs x); [done|]. by destruct (_ <=? _). }
  specialize (Hr (zlen buf - l)). destruct (conn_Read x _) as [[b [e|]] x1]; cbn in Hr; [by intros [= <- <-]|].
  intros G. apply IH in G. congruence.
Qed.

Lemma getConnectMessage_closed sp x req err cl :
  getConnectMessage sp (CNet x) = Ret (req, err, cl) -> exists x', cl = CNet x' /\ closed x' = closed x.
Proof.
  unfold getConnectMessage, getMessageBuffer.
  destruct (header_loop _ x [] 0) as [[[buf l]|e] x1] eqn:E1; apply header_loop_closed in E1.
  - destruct (body_loop _ x1 _ l) as [[b|e] x2] eqn:E2; apply body_loop_closed in E2.
    + intros G. inv_bind G as y Hy. destruct y as [[m n] er]. injection G as <- <- <-. exists x2. split; [done|congruence].
    + intros [= <- <- <-]. exists x2. split; [done|congruence].
  - intros [= <- <- <-]. by exists x1.
Qed.

(** ticking off the old connection *)
Lemma tick_off_spec w k : server_inv w p ->
  exists w', tick_off k w = (Ret tt, w') /\ server_inv w' p /\ svcMap (srv w') !! k = None /\
    match svcMap (srv w) !! k with
    | None => w' = w
    | Some l => exists s c x sl ss m, live w l k s c x sl ss /\ sessMgr (srv w) = Some m /\
                  w' = after_down w l s c x sl ss m LogReasonValTickOffDevice
    end.
Proof.
  intros I. unfold tick_off. rewrite bindM_gets. destruct (svcMap (srv w) !! k) as [l|] eqn:E; [|by exists w].
  destruct (si_reg _ _ I k l E) as (s & c0 & x & sl & ss & L).
  destruct (si_mgr _ _ I k l (or_introl E)) as [[m Hm] _].
  exists (after_down w l s c0 x sl ss m LogReasonValTickOffDevice). split; [by eapply take_down_ok|].
  split; [by eapply down_inv|]. split; [|by exists s, c0, x, sl, ss, m].
  cbn -[svc_key]. rewrite (lv_key _ _ _ _ _ _ _ _ L). apply lookup_delete_eq.
Qed.

Lemma tick_off_during n k : triple (during n k) (tick_off k) (fun _ => during n k).
Proof.
  intros w r w' (I & Hl & Hx & Hcf & s & Hs & Hk & H1 & H2 & H3 & H4) Hr.
  destruct (tick_off_spec w k I) as (w1 & E & I' & _ & Hw). rewrite Hr in E. injection E as -> ->.
  destruct (svcMap (srv w) !! k) as [l|] eqn:El.
  2: { subst w1. split; [done|]. split; [done|]. split; [done|]. split; [done|]. by exists s. }
  destruct Hw as (s' & c' & x' & sl & ss & m & L & Hm & ->). pose proof L as [L1 _ _ _ L5 _ _ _ _ _].
  assert (Hne : n <> l) by (intros ->; by destruct Hl as [Hl _]; eapply Hl).
  assert (Hnc : c <> c') by (intros ->; apply Hne; eapply (si_conn _ _ I); [exact Hs|exact L1|exact H3|exact L5]).
  split; [done|]. split; [|split; [|split; [done|]]].
  - destruct Hl as [Hl1 Hl2]. split; [|done]. cbn -[svc_key]. intros k' G. apply lookup_delete_Some in G as [_ G]. by eapply Hl1.
  - destruct Hx as (x & Hx & Ho). exists x. cbn. by rewrite lookup_insert_ne.
  - exists s. cbn. by rewrite lookup_insert_ne.
Qed.

(** a session of its own has been initialised for the new service *)
Definition started (n : Z) (k : list Z) w : Prop :=
  server_inv w p /\ loose w p n /\ is_live w n k /\ is_Some (sessMgr (srv w)) /\ configured (srv w) = true /\
  exists s, svcs w !! n = Some s /\ conn s = Some c.

Definition failed w : Prop := server_inv w p /\ conn_loose w.

Lemma failed_stable : stable failed.
Proof.
  split; [by intros w (I & _)|]. intros w w' Hc (I & Hl). split; [by eapply calm_inv|by eapply conn_loose_calm].
Qed.

Lemma started_stable n k : stable (started n k).
Proof.
  split; [by intros w (I & _)|]. intros w w' Hc (I & Hl & Hv & Hm & Hcf & s & Hs & Hcs).
  pose proof (cm_srv _ _ Hc) as (_ & Em & Ec & _).
  split; [by eapply calm_inv|]. split; [by eapply loose_calm|]. split; [by eapply is_live_calm|].
  split; [by rewrite Em|]. split; [congruence|].
  destruct (map_rel_lookup _ _ _ _ _ (cm_svcs _ _ Hc) Hs) as (s' & Hs' & _ & E & _). exists s'. split; [done|congruence].
Qed.

Lemma started_failed n k w : started n k w -> failed w.
Proof.
  intros (I & Hl & _ & _ & _ & s & Hs & Hc). split; [done|]. intros l s' Hs' Hc'.
  by rewrite (si_conn _ _ I l n s' s c Hs' Hs Hc' Hc).
Qed.

Lemma Init_live (s s' : Session callback) m m' : Session.Init s m = Ret (s', m', None) -> sess_live s'.
Proof.
  unfold Session.Init. destruct (initted s); [by intros [=]|]. intros G. inv_bind G as y Hy.
  destruct y as [[s1 m1] [e|]]; [done|]. destruct (Cmsg s1) as [cm|] eqn:Ec; [|done].
  inv_bind G as s2 Hs2. injection G as <- _. split; [intros []; by eexists|]. cbn.
  destruct (WillFlag cm); [inv_bind Hs2 as wl Hwl|]; injection Hs2 as <-; cbn; by rewrite Ec.
Qed.

(** the world in which session [l] has been made for the service [n] *)
Definition with_session w (n : Z) (s : service) (m : memProvider) (cid : list Z) : world TW :=
  let l := next_loc (sessions w) in
  set_svcs (<[n:=set_ssess (Some l) s]> (svcs w))
    (set_sessions (mkHeap (<[l:=newSession cid]> (cells (sessions w))) (l + 1))
       (set_srv (set_mgr (Some (<[cid:=l]> m)) (srv w)) w)).

Lemma with_session_inv w n k s m cid : during n k w -> svcs w !! n = Some s -> sessMgr (srv w) = Some m ->
  server_inv (with_session w n s m cid) p.
Proof.
  intros (I & Hl & Hx & Hcf & s0 & Hs & Hk & H1 & H2 & H3 & H4) Hs' Hm. assert (s0 = s) as -> by congruence.
  set (l := next_loc (sessions w)).
  assert (I1 : server_inv (set_sessions (mkHeap (<[l:=newSession cid]> (cells (sessions w))) (l + 1)) w) p).
  { apply (unowned_inv w); try done; cbn.
    - lia.
    - intros sl Hsl. destruct (decide (sl = l)) as [->|Hne]; [lia|]. rewrite lookup_insert_ne in Hsl by done.
      apply (si_cells _ _ I) in Hsl. fold l in Hsl. lia.
    - intros l' s' sl Hl' _ Hsl. rewrite lookup_insert_ne; [done|]. pose proof (si_sess_dom _ _ I _ _ _ Hl' Hsl). fold l in H0. lia. }
  assert (I2 : server_inv (set_srv (set_mgr (Some (<[cid:=l]> m)) (srv w))
    (set_sessions (mkHeap (<[l:=newSession cid]> (cells (sessions w))) (l + 1)) w)) p).
  { exact (inv_set_mgr _ p (<[cid:=l]> m) I1). }
  unfold with_session. fold l.
  apply (loose_inv (set_srv (set_mgr (Some (<[cid:=l]> m)) (srv w))
    (set_sessions (mkHeap (<[l:=newSession cid]> (cells (sessions w))) (l + 1)) w)) p n (set_ssess (Some l) s) I2); cbn.
  - done.
  - apply (si_ids _ _ I). by eexists.
  - intros l' s' c' Hne Hl' Hc' Hcc. apply Hne. exact (si_conn _ _ I l' n s' s c' Hl' Hs Hc' Hcc).
  - intros l' s' sl Hne Hl' Hsl [= <-]. pose proof (si_sess_dom _ _ I _ _ _ Hl' Hsl). fold l in H0. lia.
  - intros c' Hc'. exact (si_conn_dom _ _ I n s c' Hs Hc').
  - intros sl [= <-]. lia.
Qed.

Lemma getSession_triple rnd n k req resp :
  triple (during n k) (getSession rnd n req resp)
    (fun r w => match r with (_, _, None) => started n k w | (_, _, Some _) => failed w end).
Proof.
  intros w r w' D Hr. pose proof D as (I & Hl & (x & Hx & Ho) & Hcf & s & Hs & Hk & H1 & H2 & H3 & H4).
  unfold getSession in Hr. rewrite (bindM_step _ _ _ _ _ (get_svc_ok w n s Hs)), H4 in Hr. cbv zeta in Hr.
  rewrite bindM_gets in Hr. destruct (sessMgr (srv w)) as [m|] eqn:Em; [|by injection Hr as <- <-].
  cbn [deref_some] in Hr. rewrite bindM_ret, bindM_gets in Hr. set (req0 := if _ =? 0 then _ else req) in *.
  assert (Hnew : exists cid, mgr_New m (sessions w) rnd (ClientId req0) =
    (<[cid:=next_loc (sessions w)]> m,
     mkHeap (<[next_loc (sessions w):=newSession cid]> (cells (sessions w))) (next_loc (sessions w) + 1),
     inl (next_loc (sessions w)))).
  { unfold mgr_New. destruct (ClientId req0); by eexists. }
  destruct Hnew as [cid Hnew]. rewrite Hnew in Hr. unfold upd_srv in Hr. rewrite !bindM_modify in Hr.
  erewrite bindM_step in Hr by (apply upd_svc_ok; cbn; exact Hs).
  assert (Iw : server_inv (with_session w n s m cid) p) by (by eapply with_session_inv).
  erewrite bindM_step in Hr by (eapply get_sess_ok; cbn; [apply lookup_insert_eq|done|apply lookup_insert_eq]).
  cbn [snd] in Hr. destruct (Session.Init (newSession cid) req0) as [[[ss req1] err]|q] eqn:Ei;
    [|injection Hr as <- <-; exact Iw].
  rewrite bindM_lift in Hr. cbv beta iota in Hr. unfold put_sess in Hr. rewrite bindM_modify in Hr. injection Hr as <- <-.
  set (l := next_loc (sessions w)) in *.
  match goal with |- match _ with None => _ ?w' | _ => _ end => set (w1 := w') end.
  assert (I1 : server_inv w1 p).
  { apply (unowned_inv (with_session w n s m cid)); try done; cbn.
    - intros sl Hsl. destruct (decide (sl = l)) as [->|Hne]; [unfold l; lia|]. rewrite lookup_insert_ne in Hsl by done.
      apply (si_cells _ _ Iw). cbn. done.
    - intros l' s' sl Hl' Hn Hsl. rewrite lookup_insert_ne; [done|]. intros <-. apply Hn.
      assert (l' = n) as ->.
      { eapply (si_sess _ _ Iw); [exact Hl'|cbn; apply lookup_insert_eq|exact Hsl|done]. }
      done. }
  assert (Hsn : svcs w1 !! n = Some (set_ssess (Some l) s)) by (cbn; apply lookup_insert_eq).
  destruct err as [e|].
  - split; [done|]. intros l' s' Hl' Hc'.
    by rewrite (si_conn _ _ I1 l' n s' _ c Hl' Hsn Hc' H3).
  - split; [done|]. split; [done|]. split; [|split; [by eexists|split; [done|by eexists]]].
    exists (set_ssess (Some l) s), c, x, l, ss. split; try done.
    + cbn. apply lookup_insert_eq.
    + by eapply Init_live.
Qed.

(** what [handle_connect] leaves behind *)
Definition handshake_post (r : hresult) w : Prop :=
  match r with
  | HStarted k n => server_inv w (p ++ [(k, n)])
  | HFail _ => failed w
  end.

Lemma started_pending n k w : started n k w -> server_inv (set_receivers (<[n:=RxNew]> (receivers w)) w) (p ++ [(k, n)]).
Proof.
  intros (I & [Hl1 Hl2] & Hv & Hm & Hcf & _).
  assert (Hfr : forall l k, is_live w l k -> is_live (set_receivers (<[n:=RxNew]> (receivers w)) w) l k).
  { intros l k' (s & c' & x & sl & ss & []). by exists s, c', x, sl, ss. }
  split; cbn; try solve [unchanged I].
  - intros k' l Hk. apply Hfr. by apply I.
  - intros k' l [Hk|Hk%list_elem_of_singleton]%elem_of_app.
    + destruct (si_pend _ _ I k' l Hk). split; [by apply Hfr|done].
    + injection Hk as -> ->. split; [by apply Hfr|done].
  - rewrite fmap_app. apply NoDup_app. split; [apply (si_nodup _ _ I)|]. split; [|apply NoDup_singleton].
    intros l Hl. cbn. rewrite list_elem_of_singleton. intros ->. done.
  - intros k' l [Hk|[Hk|Hk%list_elem_of_singleton]%elem_of_app]; [apply (si_mgr _ _ I k' l); by left|apply (si_mgr _ _ I k' l); by right|done].
Qed.

Lemma triple_refuse P resp code e e' : stable P -> (forall w, P w -> failed w) ->
  triple P (do e0 <- refuse c resp code e ;; retM (HFail (e' e0))) handshake_post.
Proof.
  intros Hs Hf. apply triple_calm_bind; [done|apply keeps_refuse|]. intros a. by apply triple_ret.
Qed.

(** the rest of the handshake once the service object exists *)
Definition handshake_tail (rnd : option (list Z)) (req : ConnectMessage) (resp : ConnackMessage) (key : list Z) (n : Z) : M hresult :=
  tick_off key ;;;
  let '(value, err) := Login (mkLogin (ClientId req) (Password req)) in
  upd_svc n (set_slogin value) ;;;
  match err with
  | Some e => do e <- refuse c resp ErrAuthServerLoginFailed None ;; retM (HFail e)
  | None =>
      do y <- getSession rnd n req resp ;;
      let '(req, resp, err) := y in
      match err with
      | Some e => retM (HFail (Some e))
      | None =>
          do r <- write_connack c (SetReturnCode resp ConnectionAccepted) ;;
          let '(resp, err) := r in
          match err with
          | Some e => retM (HFail (Some e))
          | None =>
              upd_svc n (fun s => set_sstats (stat_increment (inStat s) (snd (Connect.Len req)))
                                             (stat_increment (outStat s) (snd (Connack.Len resp))) s) ;;;
              set_receiver n RxNew ;;;
              retM (HStarted key n)
          end
      end
  end.

Lemma handshake_tail_triple rnd req resp key n :
  triple (during n key) (handshake_tail rnd req resp key n) handshake_post.
Proof.
  unfold handshake_tail. eapply triple_bind; [apply tick_off_during|]. intros ?. cbn [Login].
  apply triple_calm_bind; [apply during_stable|by apply keeps_upd_svc|]. intros _.
  eapply triple_bind; [apply getSession_triple|]. intros [[req' resp'] [e|]].
  { apply triple_ret. by intros w. }
  apply triple_calm_bind; [apply started_stable|apply keeps_write_connack|]. intros [resp2 [e|]].
  { apply triple_ret. intros w Hw. by eapply started_failed. }
  apply triple_calm_bind; [apply started_stable|by apply keeps_upd_svc|]. intros _.
  intros w r w' Hw. unfold set_receiver. rewrite bindM_modify. intros [= <- <-]. by apply started_pending.
Qed.

(** a connection no service uses *)
Definition conn_free w : Prop := forall l s, svcs w !! l = Some s -> conn s <> Some c.

(** a fresh connection at a configured server *)
Definition ready w : Prop :=
  server_inv w p /\ conn_free w /\ conn_live w /\ configured (srv w) = true /\ gsvcid w + 1 < 2 ^ 64.

Lemma ready_failed w : ready w -> failed w.
Proof. intros (I & Hf & _). split; [done|]. intros l s Hs Hc. by destruct (Hf l s Hs). Qed.

Lemma ready_stable : stable ready.
Proof.
  split; [by intros w (I & _)|]. intros w w' Hc (I & Hf & Hx & Hcf & Hg).
  pose proof (cm_srv _ _ Hc) as (_ & _ & Ec & _).
  split; [by eapply calm_inv|]. split; [|split; [by eapply conn_live_calm|split; [congruence|by rewrite (cm_gsvc _ _ Hc)]]].
  intros l s Hs. destruct (map_rel_lookup_inv _ _ _ _ _ (cm_svcs _ _ Hc) Hs) as (s1 & H1 & _ & E & _).
  rewrite E. by apply (Hf l).
Qed.

Lemma ready_set_conn w x x' : ready w -> conns w !! c = Some x -> closed x' = closed x ->
  ready (set_conns (<[c:=x']> (conns w)) w).
Proof.
  intros (I & Hf & (x0 & Hx0 & Ho) & Hr) Hx Hc. split; [by eapply set_conn_inv|]. split; [done|]. split; [|done].
  exists x'. split; [apply lookup_insert_eq|congruence].
Qed.

Lemma fresh_id_loose w l : server_inv w p -> gsvcid w < l -> loose w p l.
Proof.
  intros I Hl. assert (Hn : forall k, is_live w l k -> False).
  { intros k (s & ? & ? & ? & ? & L). assert (l <= gsvcid w); [|lia]. apply (si_ids _ _ I). eexists. apply L. }
  split.
  - intros k Hk. apply (Hn k). by apply I.
  - intros ([k l'] & -> & Hk)%list_elem_of_fmap. apply (Hn k). by apply (si_pend _ _ I).
Qed.

(** the service object *)
Lemma new_service_during w n sv addr pk dn cid ka :
  ready w -> n = u64 (gsvcid w + 1) ->
  during n (Join [pk; str ":"; dn] [])
    (set_svcs (<[n:=new_service sv n addr pk dn cid ka c]> (svcs w)) (set_gsvcid n w)).
Proof.
  intros (I & Hfree & Hx & Hcf & Hg) En. pose proof (si_gsvc _ _ I).
  unfold u64 in En. rewrite Z.mod_small in En by lia. subst n.
  pose proof (fresh_id_loose w (gsvcid w + 1) I ltac:(lia)) as Hl.
  assert (I1 : server_inv (set_gsvcid (gsvcid w + 1) w) p).
  { assert (Hfr : forall l k, is_live w l k -> is_live (set_gsvcid (gsvcid w + 1) w) l k).
    { intros l k (s & c' & x & sl & ss & []). by exists s, c', x, sl, ss. }
    split; cbn; try solve [unchanged I]; [..|lia].
    - intros k l Hk. apply Hfr. by apply I.
    - intros k l Hk. destruct (si_pend _ _ I k l Hk). split; [by apply Hfr|done].
    - intros l Hs. apply (si_ids _ _ I) in Hs. lia. }
  split; [|split; [done|split; [done|split; [done|]]]].
  - apply (loose_inv (set_gsvcid (gsvcid w + 1) w) p (gsvcid w + 1) (new_service sv (gsvcid w + 1) addr pk dn cid ka c) I1);
      cbn; try done.
    + intros l s c' _ Hs Hc' [= <-]. by eapply Hfree.
    + intros c' [= <-]. destruct Hx as (x & Hx & _). by eexists.
  - eexists. split; [cbn; apply lookup_insert_eq|]. done.
Qed.

(** the answers to a CONNECT the server cannot decode, and what follows it *)
Definition handshake_body (sv : Server) (addr : list Z) (rnd : option (list Z))
    (req : ConnectMessage + error) (err : option error) : M hresult :=
  match err, req with
  | Some e, _ =>
      match e with
      | ErrCode code => do e <- refuse c NewConnackMessage code None ;; retM (HFail e)
      | _ => retM (HFail (Some e))
      end
  | None, inr e => retM (HFail (Some e))
  | None, inl req =>
      let req := if Connect.KeepAlive req =? 0 then SetKeepAlive req (5 * 60) else req in
      match Split (Username req) 38 with
      | [deviceName; productKey] =>
          if bool_decide (Password req = []) then
            do e <- refuse c NewConnackMessage ErrBadClientIdOrUsernameOrPassword (Some ErrInvalidPassword) ;; retM (HFail e)
          else
            do splitClientId <- lift (index (Split (ClientId req) 124) 0) ;;
            do n <- gets (fun w => u64 (gsvcid w + 1)) ;;
            modify (set_gsvcid n) ;;;
            modify (fun w => set_svcs (<[n:=new_service sv n addr productKey deviceName splitClientId
                                          (Connect.KeepAlive req) c]> (svcs w)) w) ;;;
            handshake_tail rnd req NewConnackMessage (Join [productKey; str ":"; deviceName] []) n
      | _ => do e <- refuse c NewConnackMessage ErrBadClientIdOrUsernameOrPassword (Some ErrInvalidUsername) ;; retM (HFail e)
      end
  end.

(** [handle_connect] reads the CONNECT and goes on with [handshake_body] *)
Lemma handle_connect_cases sp addr rnd w x r w' :
  conns w !! c = Some x -> closed x = false -> handle_connect sp addr rnd c w = (r, w') ->
  (exists q, r = Panic q /\ w' = w) \/
  (exists req err x1, closed x1 = closed x /\
     handshake_body (srv w) addr rnd req err (set_conns (<[c:=x1]> (conns w)) w) = (r, w')).
Proof.
  intros Hx Ho. unfold handle_connect. rewrite !bindM_gets, Hx. cbn [deref_some]. rewrite bindM_ret.
  unfold SetReadDeadline. rewrite Ho. cbv beta iota.
  destruct (getConnectMessage sp _) as [[[req err] cl]|q] eqn:Eg; [|intros [= <- <-]; left; by exists q].
  destruct (getConnectMessage_closed _ _ _ _ _ Eg) as (x1 & -> & Hc1). rewrite bindM_lift. cbv beta iota.
  unfold set_conn. rewrite bindM_modify. intros Hr. right. exists req, err, x1. split; [cbn in Hc1; congruence|exact Hr].
Qed.

Lemma handshake_body_triple sv addr rnd req err : triple ready (handshake_body sv addr rnd req err) handshake_post.
Proof.
  unfold handshake_body. destruct err as [e|].
  { destruct e; try (apply triple_ret; intros w; apply ready_failed).
    apply (triple_refuse _ _ _ _ (fun e => e)); [apply ready_stable|apply ready_failed]. }
  destruct req as [req|e]; [|apply triple_ret; intros w; apply ready_failed]. cbv zeta.
  set (req1 := if _ =? 0 then _ else req). clearbody req1.
  assert (Hrf : forall code e, triple ready (do e <- refuse c NewConnackMessage code e ;; retM (HFail e)) handshake_post).
  { intros code e. apply (triple_refuse _ _ _ _ (fun e => e)); [apply ready_stable|apply ready_failed]. }
  destruct (Split (Username req1) 38) as [|dn [|pk [|]]]; try apply Hrf.
  destruct (bool_decide _); [apply Hrf|].
  apply triple_calm_bind; [apply ready_stable|apply keeps_lift|]. intros cid w r w' R.
  rewrite bindM_gets, !bindM_modify. apply handshake_tail_triple.
  exact (new_service_during w _ sv addr pk dn cid _ R eq_refl).
Qed.

Lemma handle_connect_triple sp addr rnd : triple ready (handle_connect sp addr rnd c) handshake_post.
Proof.
  intros w r w' R Hr. pose proof R as (_ & _ & (x & Hx & Ho) & _).
  destruct (handle_connect_cases _ _ _ _ _ _ _ Hx Ho Hr) as [(q & -> & ->)|(req & err & x1 & Hc1 & Hb)]; [by destruct R|].
  eapply handshake_body_triple; [|exact Hb]. by eapply ready_set_conn.
Qed.

(** a new connection at a server that need not be configured *)
Definition arrived w : Prop := server_inv w p /\ conn_free w /\ conn_live w /\ gsvcid w + 1 < 2 ^ 64.

Lemma checkConfiguration_triple :
  triple arrived (checkConfiguration reg) (fun r w => match r with None => ready w | Some _ => failed w end).
Proof.
  intros w r w' (I & Hf & Hx & Hg). unfold checkConfiguration. rewrite bindM_gets.
  destruct (configured (srv w)) eqn:Hcf; [by intros [= <- <-]|]. cbv zeta.
  assert (Hno : forall k l, svcMap (srv w) !! k = Some l \/ (k, l) ∈ p -> False).
  { intros k l Hk. destruct (si_mgr _ _ I k l Hk). congruence. }
  destruct (match NewManager _ _ with inl _ => _ | inr _ => _ end) as [mgr err].
  unfold upd_srv. rewrite bindM_modify. intros [= <- <-]. set (sv := mkServer _ _ _ _ _ _ _ _ _ _ _ _).
  assert (I1 : server_inv (set_srv sv w) p).
  { split; cbn; try solve [unchanged I]; intros k l Hk; exfalso; eapply (Hno k l); [by left|by right|done]. }
  destruct err; [|by split]. split; [done|]. intros l s Hs Hc. by destruct (Hf l s Hs).
Qed.

(** the deferred close *)
Lemma close_conn_inv w : failed w -> server_inv (snd (close_conn c w)) p.
Proof.
  intros (I & Hl). unfold close_conn, modify. cbn. destruct (conns w !! c) as [x|] eqn:Hx; [|done].
  apply (unowned_inv w); try done; cbn.
  - intros sl. apply (si_cells _ _ I).
  - intros c' Hc'. destruct (decide (c' = c)) as [->|]; [rewrite lookup_insert_eq; by eexists|by rewrite lookup_insert_ne].
  - intros l s c' Hs Hn Hc. rewrite lookup_insert_ne; [done|]. intros <-. by apply Hn, (Hl l s).
Qed.

(** what the handshake leaves: a service about to be registered, or nothing new *)
Lemma accept_inv sp addr rnd w r w' : arrived w -> accept reg sp addr rnd c w = (Ret r, w') ->
  server_inv w' (match r with HStarted k n => p ++ [(k, n)] | HFail _ => p end).
Proof.
  intros A. set (post := fun (r : hresult) w => server_inv w (match r with HStarted k n => p ++ [(k, n)] | HFail _ => p end)).
  assert (T : triple arrived (do err <- checkConfiguration reg ;;
    match err with
    | Some e => retM (HFail (Some e))
    | None => do r <- handle_connect sp addr rnd c ;;
        match r with HFail (Some e) => close_conn c ;;; retM r | _ => retM r end
    end) post).
  { eapply triple_bind; [apply checkConfiguration_triple|]. intros [e|].
    { apply triple_ret. by intros w1 [I _]. }
    eapply triple_bind; [apply handle_connect_triple|]. intros [[e|]|k n].
    - intros w1 r1 w1' F. pose proof (close_conn_inv w1 F) as I.
      rewrite (bindM_step (close_conn c) _ w1 tt _ eq_refl). by intros [= <- <-].
    - apply triple_ret. by intros w1 [I _].
    - by apply triple_ret. }
  unfold accept, recovered. destruct (bindM _ _ w) as [r0 w0] eqn:E. specialize (T w r0 w0 A E).
  destruct r0; intros [= <- <-]; exact T.
Qed.

End Handshake.
