(* ===== verification/ServerSys.v ===== *)
(** * ServerSys: the server as a system of steps

    A step is a turn of one goroutine of the server, or an act of a peer; [p] are
    the services whose goroutine has been started by [handleConnection] and that
    it is about to store in [svcMap].  [server_inv] holds in every reachable
    state. *)
From stdpp Require Import base list strings gmap.
From Stdlib Require Import ZArith Lia.
From S2P Require Import MsgTypes Header Publish Connect Connack Message AckQueue Session.
From S2P Require Import Prelude GoLang GoStrings NetConn Framing Connectivity World Service ServiceSpec Server Sample ServerSpec.

Section Rules.
Context {TW : Type}.
Implicit Types w : world TW.
Implicit Types p : list (list Z * Z).

(** parts of the world the invariant does not mention *)
Lemma frame_inv w w' p :
  server_inv w p -> svcs w' = svcs w -> conns w' = conns w -> sessions w' = sessions w -> srv w' = srv w ->
  gsvcid w' = gsvcid w -> server_inv w' p.
Proof.
  intros I E1 E2 E3 E4 E5. apply (unowned_inv w); rewrite ?E2, ?E3, ?E5; try done. apply (si_cells _ _ I).
Qed.

(** removing registrations *)
Lemma unreg_inv w p k : server_inv w p -> server_inv (set_srv (set_svcMap (delete k (svcMap (srv w))) (srv w)) w) p.
Proof.
  intros I. assert (Hfr : forall l k', is_live w l k' -> is_live (set_srv (set_svcMap (delete k (svcMap (srv w))) (srv w)) w) l k').
  { intros l k' (s & c & x & sl & ss & []). by exists s, c, x, sl, ss. }
  split; cbn; try solve [unchanged I].
  - intros k' l [_ Hk]%lookup_delete_Some. apply Hfr. by apply I.
  - intros k' l Hk. destruct (si_pend _ _ I k' l Hk) as [Hlv Hn]. split; [by apply Hfr|].
    intros k'' [_ G]%lookup_delete_Some. by eapply Hn.
  - intros k' l [[_ Hk]%lookup_delete_Some|Hk]; apply (si_mgr _ _ I k' l); [by left|by right].
Qed.

(** storing a pending service under its key *)
Lemma store_inv w p q k l : server_inv w (p ++ (k, l) :: q) ->
  server_inv (set_srv (set_svcMap (<[k:=l]> (svcMap (srv w))) (srv w)) w) (p ++ q).
Proof.
  intros I. set (w' := set_srv _ _).
  assert (Hfr : forall l k', is_live w l k' -> is_live w' l k').
  { intros l0 k' (s & c & x & sl & ss & []). by exists s, c, x, sl, ss. }
  assert (Hp : forall x, x ∈ p ++ q -> x ∈ p ++ (k, l) :: q).
  { intros x. rewrite !elem_of_app, elem_of_cons. tauto. }
  assert (Hl : (k, l) ∈ p ++ (k, l) :: q) by (rewrite elem_of_app, elem_of_cons; auto).
  pose proof (si_nodup _ _ I) as Hnd. rewrite fmap_app in Hnd. cbn in Hnd.
  rewrite <- Permutation_middle, <- fmap_app in Hnd. apply NoDup_cons in Hnd as [Hnl Hnd].
  split; cbn; try solve [unchanged I].
  - intros k' l' [[<- <-]|[Hne Hk]]%lookup_insert_Some; apply Hfr; [by apply (si_pend _ _ I)|by apply I].
  - intros k' l' Hk. destruct (si_pend _ _ I k' l' (Hp _ Hk)) as [Hlv Hn]. split; [by apply Hfr|].
    intros k'' [[<- <-]|[Hne G]]%lookup_insert_Some; [|by eapply Hn].
    apply Hnl, list_elem_of_fmap. by exists (k', l).
  - exact Hnd.
  - intros k' l' [[[<- <-]|[Hne Hk]]%lookup_insert_Some|Hk]; [apply (si_mgr _ _ I k l)|apply (si_mgr _ _ I k' l')|apply (si_mgr _ _ I k' l')]; auto.
Qed.

End Rules.

(** ** The server's other handlers keep the invariant *)

Section Keep.
Context {TW : Type} `{TimeWheel TW}.
Context (pick : list (list Z) -> option nat) (wpick : list Writer -> option nat)
        (ppick : list PublishMessage -> option nat)
        (copy : PublishMessage -> PublishMessage -> PublishMessage).
Context (p : list (list Z * Z)).
Implicit Types w : world TW.
Abbreviation M := (M (TW:=TW)).

(** [m] keeps [server_inv] *)
Definition inv_ok {A} (m : M A) : Prop := forall w r w', server_inv w p -> m w = (r, w') -> server_inv w' p.

Lemma inv_keeps {A} (m : M A) : keeps m -> inv_ok m.
Proof. intros Hk w r w' I Hr. eapply calm_inv; [by eapply Hk|done]. Qed.

Lemma inv_bind {A B} (m : M A) (k : A -> M B) : inv_ok m -> (forall a, inv_ok (k a)) -> inv_ok (bindM m k).
Proof.
  intros Hm Hk w r w' I Hr. apply bindM_inv in Hr as [(a & w1 & H1 & H2)|(q & H1 & _)]; [|by eapply Hm].
  eapply Hk; [|done]. by eapply Hm.
Qed.

Lemma inv_recovered {A} (m : M A) a : inv_ok m -> inv_ok (recovered m a).
Proof. intros Hm w r w' I. unfold recovered. destruct (m w) as [[b|q] w1] eqn:E; intros [= <- <-]; by eapply Hm. Qed.

Lemma inv_modify f : (forall w, server_inv w p -> server_inv (f w) p) -> inv_ok (modify f).
Proof. intros Hf w r w' I [= <- <-]. by apply Hf. Qed.

Lemma inv_deleteMap l : inv_ok (deleteMapAndLogout l).
Proof.
  apply inv_bind; [by apply inv_keeps, keeps_get_svc|]. intros s.
  apply inv_bind; [|intros _; by apply inv_keeps, keeps_ret]. apply inv_modify. intros w. apply unreg_inv.
Qed.

(** taking the registered service of a key down; nothing panics on the way *)
Lemma take_down_reg w k l r : server_inv w p -> svcMap (srv w) !! k = Some l -> exists s c x sl ss m,
  live w l k s c x sl ss /\ sessMgr (srv w) = Some m /\
  (upd_svc l (set_sreason r) ;;;
   do val <- deleteMapAndLogout l ;;
   (match val with Some e => do _ <- error_text (Some e) ;; retM tt | None => retM tt end) ;;;
   del_session l ;;;
   newStopConnect l) w = (Ret tt, after_down w l s c x sl ss m r) /\
  server_inv (after_down w l s c x sl ss m r) p /\
  svcMap (srv (after_down w l s c x sl ss m r)) = delete k (svcMap (srv w)).
Proof.
  intros I E. destruct (si_reg _ _ I k l E) as (s & c0 & x & sl & ss & L).
  destruct (si_mgr _ _ I k l (or_introl E)) as [[m Hm] _].
  exists s, c0, x, sl, ss, m. split; [done|]. split; [done|]. split; [by eapply take_down_ok|]. split; [by eapply down_inv|].
  cbn -[svc_key]. by rewrite (lv_key _ _ _ _ _ _ _ _ L).
Qed.

Lemma exceptionDisconnect_inv this err : inv_ok (exceptionDisconnect this err).
Proof.
  apply inv_bind; [by apply inv_keeps, keeps_get_svc|]. intros s. cbv zeta. intros w r w' I. rewrite bindM_gets.
  destruct (svcMap (srv w) !! _) as [l|] eqn:E; [|by intros [= <- <-]].
  destruct (bool_decide (err = Some EOF)); cbn [negb].
  - destruct (take_down_reg w _ l LogReasonValDeviceDisconnect I E) as (s1 & c1 & x & sl & ss & m & _ & _ & E1 & I1 & _).
    rewrite E1. by intros [= <- <-].
  - destruct err as [e|]; [|by intros [= <- <-]]. rewrite (bindM_step (error_text (Some e)) _ w (Error_ e) w eq_refl). cbv zeta.
    set (f := set_sreason _). clear E. revert w r w' I. change (inv_ok (upd_svc l f ;;;
      do val <- deleteMapAndLogout l ;; do _ <- error_text val ;; del_session l ;;; newStopConnect l)).
    apply inv_bind; [by apply inv_keeps, keeps_upd_svc|]. intros _.
    intros w1 r1 w1' I1 Hr. apply bindM_inv in Hr as [(v & w2 & H1 & H2)|(q & H1 & _)]; [|by eapply inv_deleteMap].
    assert (v = None) as ->.
    { unfold deleteMapAndLogout in H1. apply bindM_inv in H1 as [(s1 & w3 & _ & H3)|(q & _ & [=])].
      unfold upd_srv in H3. rewrite bindM_modify in H3. by injection H3. }
    cbn in H2. injection H2 as <- <-. by eapply inv_deleteMap.
Qed.

(** reading from the connection leaves it as open as it was *)
Lemma timeoutReader_closed d v x n b e x' : timeoutReader_Read d x n = (b, e, x') -> closed x = v -> closed x' = v.
Proof.
  unfold timeoutReader_Read, SetReadDeadline. destruct (closed x) eqn:E; [by intros [= <- <- <-] <-|].
  unfold conn_Read. cbn. rewrite E. destruct (segs x); [by intros [= <- <- <-] <-|].
  by destruct (_ <=? _); intros [= <- <- <-] <-.
Qed.

Lemma peek_header_closed d v fuel : forall r x cnt res r' x',
  peek_header d fuel r x cnt = (res, r', x') -> closed x = v -> closed x' = v.
Proof.
  induction fuel as [|fuel IH]; intros r x cnt res r' x'; cbn [peek_header]; [by intros [= <- <- <-]|].
  destruct (5 <? cnt); [by intros [= <- <- <-]|].
  destruct (Peek _ _ r x cnt) as [[[b e] r1] x1] eqn:E. intros Hr Hc.
  apply (Peek_frame _ _ (fun x => closed x = v) (timeoutReader_closed d v) _ _ _ _ _ _ _ E) in Hc.
  destruct e; [by injection Hr as <- <- <-|]. destruct (_ <? _); [by eapply IH|].
  destruct (_ !! _); [|by injection Hr as <- <- <-]. destruct (_ <=? _); [by eapply IH|by injection Hr as <- <- <-].
Qed.

Lemma getPeekMessageSize_closed d r x res r' x' :
  getPeekMessageSize d r x = Ret (res, r', x') -> closed x' = closed x.
Proof.
  unfold getPeekMessageSize. destruct (peek_header _ _ _ _ _) as [[[b|e] r1] x1] eqn:E;
    apply (peek_header_closed _ (closed x)) in E; try done; [|by intros [= <- <- <-]].
  intros G. inv_bind G as y Hy. destruct (Uvarint _) as [rl m]. inv_bind G as z Hz. by injection G as <- <- <-.
Qed.

Lemma getPeekMessage_closed d r x t n msg k e r' x' :
  getPeekMessage d r x t n = Ret (msg, k, e, r', x') -> closed x' = closed x.
Proof.
  unfold getPeekMessage. destruct (n <? 0); [done|]. destruct (ReadFull _ _ r x n) as [[[b er] r1] x1] eqn:E.
  assert (closed x1 = closed x) as <-.
  { exact (ReadFull_frame _ _ (fun y => closed y = closed x) (timeoutReader_closed d (closed x)) _ _ _ _ _ _ _ E eq_refl). }
  destruct (New t); [|by intros [= <- <- <- <- <-]]. intros G. inv_bind G as y Hy. destruct y as [[? ?] ?].
  by injection G as <- <- <- <- <-.
Qed.

Lemma inv_ret {A} (a : A) : inv_ok (retM a).
Proof. apply inv_keeps, keeps_ret. Qed.

Lemma inv_after_exception this err (b : bool) : inv_ok (exceptionDisconnect this err ;;; retM b).
Proof. apply inv_bind; [apply exceptionDisconnect_inv|intros _; apply inv_ret]. Qed.

Lemma set_receiver_inv this r : inv_ok (set_receiver this r).
Proof. apply inv_modify. intros w I. by eapply frame_inv. Qed.

Lemma end_receiver_inv this : inv_ok (end_receiver this).
Proof. apply inv_modify. intros w I. by eapply frame_inv. Qed.

Lemma receiverData_begin_inv this : inv_ok (receiverData_begin this).
Proof.
  apply inv_bind; [apply inv_keeps, keeps_get_svc|]. intros s. destruct (conn s) as [c|]; [|apply inv_ret].
  intros w r w' I. rewrite bindM_gets. destruct (conns w !! c) as [x|] eqn:Hx; [|by intros [= <- <-]].
  cbn [deref_some]. rewrite bindM_ret. destruct (SetReadDeadline x _) as [err x1] eqn:E.
  assert (Hc : closed x1 = closed x).
  { unfold SetReadDeadline in E. destruct (closed x) eqn:Ex; injection E as <- <-; [done|by cbn]. }
  unfold set_conn. rewrite bindM_modify. pose proof (set_conn_inv c x x1 w p I Hx Hc) as I1.
  destruct err; [by intros [= <- <-]|]. revert I1. generalize (set_conns (<[c:=x1]> (conns w)) w). intros w1 I1 Hr.
  eapply (inv_bind (set_receiver this _) (fun _ => retM true)); [apply set_receiver_inv|intros; apply inv_ret|exact I1|exact Hr].
Qed.

(** a decoded packet, or an error of its decoder *)
Lemma dispatch_inv this msg err : inv_ok (match err, msg with
  | Some e, _ => exceptionDisconnect this (Some e) ;;; retM false
  | None, None => panicM NilDeref
  | None, Some msg =>
      do err <- processIncoming pick wpick this msg ;;
      match err with
      | Some e => exceptionDisconnect this (Some e) ;;; retM false
      | None => do b <- isDone this ;; retM (negb b)
      end
  end).
Proof.
  destruct err; [apply inv_after_exception|]. destruct msg; [|apply inv_keeps, keeps_panic].
  apply inv_bind; [apply inv_keeps, keeps_processIncoming|]. intros [e|]; [apply inv_after_exception|].
  apply inv_keeps, keeps_bind; [apply keeps_isDone|intros; apply keeps_ret].
Qed.

Lemma receiverData_round_inv this c d rd : inv_ok (receiverData_round pick wpick this c d rd).
Proof.
  intros w r w' I. unfold receiverData_round. rewrite bindM_gets.
  destruct (conns w !! c) as [x|] eqn:Hx; [|by intros [= <- <-]]. cbn [deref_some]. rewrite bindM_ret.
  destruct (getPeekMessageSize d rd x) as [[[res rd1] x1]|q] eqn:E1; [|by intros [= <- <-]].
  apply getPeekMessageSize_closed in E1. rewrite bindM_lift. cbv beta iota. unfold set_conn. rewrite bindM_modify.
  pose proof (set_conn_inv c x x1 w p I Hx E1) as I1.
  assert (Hx1 : conns (set_conns (<[c:=x1]> (conns w)) w) !! c = Some x1) by (cbn; apply lookup_insert_eq).
  revert I1 Hx1. generalize (set_conns (<[c:=x1]> (conns w)) w) as w1. intros w1 I1 Hx1 Hr.
  destruct res as [[t n]|e]; [|by eapply inv_after_exception]. rewrite bindM_gets in Hr.
  destruct (_ <? n); [by eapply inv_after_exception|].
  destruct (getPeekMessage d rd1 x1 t n) as [[[[[msg k] err] rd2] x2]|q] eqn:E2; [|by injection Hr as <- <-].
  apply getPeekMessage_closed in E2. rewrite bindM_lift in Hr. cbv beta iota in Hr. rewrite bindM_modify in Hr.
  pose proof (set_conn_inv c x1 x2 w1 p I1 Hx1 E2) as I2. revert I2 Hr. generalize (set_conns (<[c:=x2]> (conns w1)) w1).
  intros w2 I2 Hr. eapply (inv_bind (set_receiver this _)); [apply set_receiver_inv| |exact I2|exact Hr].
  intros ?. apply dispatch_inv.
Qed.

Lemma receiverData_inv this : inv_ok (receiverData pick wpick this).
Proof.
  intros w r w' I. unfold receiverData. rewrite bindM_gets. destruct (receivers w !! this) as [rx|]; [|by intros [= <- <-]].
  revert w r w' I. apply inv_bind.
  - apply inv_recovered. destruct rx; [apply receiverData_begin_inv|apply receiverData_round_inv].
  - intros b. apply inv_bind; [destruct b; [apply inv_ret|apply end_receiver_inv]|intros _; apply inv_ret].
Qed.

Lemma keeps_push_one u : keeps (TW:=TW) (push_one pick wpick ppick copy u).
Proof.
  unfold push_one. cbv zeta. destruct (_ <? 2); [apply keeps_ret|].
  assert (Hs : forall f, (forall s, same_srv s (f s)) -> keeps (TW:=TW) (upd_srv f)).
  { intros f Hf. apply keeps_modify. intros w. by split. }
  repeat (apply keeps_bind; [apply keeps_lift|intros ?]). cbv zeta. apply keeps_bind; [apply keeps_gets|].
  intros [svc|]; [|apply keeps_ret]. apply keeps_bind; [apply keeps_gets|]. intros sv.
  apply keeps_bind; [apply keeps_lift|]. intros [pmsg q]. apply keeps_bind; [by apply Hs|]. intros _.
  apply keeps_bind; [apply keeps_lift|]. intros [m1 e1]. destruct (SetTopic _ _) as [m2 e2].
  apply keeps_bind; [apply keeps_publish|]. intros [m3 e3].
  apply keeps_bind; [by apply Hs|]. intros _. apply keeps_ret.
Qed.

Lemma keeps_PushMsg : keeps (TW:=TW) (PushMsg pick wpick ppick copy).
Proof.
  unfold PushMsg. apply keeps_bind; [apply keeps_gets|]. intros w. destruct (pushing w); [|apply keeps_ret].
  destruct (msgChan w) as [|u us]; [apply keeps_ret|].
  apply keeps_bind; [apply keeps_modify; intros; by apply calm_same|]. intros _.
  apply keeps_bind; [apply keeps_push_one|]. intros b. apply keeps_modify. intros. by apply calm_same.
Qed.

(** a key names one service, and a service one key *)
Lemma registered_inj w k1 k2 l : server_inv w p -> svcMap (srv w) !! k1 = Some l -> svcMap (srv w) !! k2 = Some l -> k1 = k2.
Proof.
  intros I (s1 & ? & ? & ? & ? & [A1 A2 _ _ _ _ _ _ _ _])%(si_reg _ _ I) (s2 & ? & ? & ? & ? & [B1 B2 _ _ _ _ _ _ _ _])%(si_reg _ _ I).
  congruence.
Qed.

Lemma close_all_spec m : forall w, server_inv w p -> svcMap (srv w) = list_to_map m -> NoDup m.*1 ->
  exists w', close_all (TW:=TW) m.*2 w = (Ret tt, w') /\ server_inv w' p /\ svcMap (srv w') = ∅ /\
    ln_closed (srv w') = ln_closed (srv w) /\ (forall l c, ended w l c -> ended w' l c) /\
    (forall k l s c, (k, l) ∈ m -> svcs w !! l = Some s -> conn s = Some c -> ended w' l c).
Proof.
  induction m as [|[k l] m IH]; intros w I Hm Hnd; cbn [fmap list_fmap snd close_all] in *.
  { exists w. split_and!; try done. by intros k l s c Hin%elem_of_nil. }
  apply NoDup_cons in Hnd as [Hk Hnd].
  assert (E : svcMap (srv w) !! k = Some l) by (rewrite Hm; cbn; apply lookup_insert_eq).
  destruct (take_down_reg w k l LogReasonValServerClose I E) as (s & c & x & sl & ss & mg & L & _ & E1 & I1 & Hd).
  set (w1 := after_down _ _ _ _ _ _ _ _ _) in *.
  assert (Hm1 : svcMap (srv w1) = list_to_map m).
  { rewrite Hd, Hm. cbn. rewrite delete_insert_id; [done|]. by apply not_elem_of_list_to_map_1. }
  destruct (IH w1 I1 Hm1 Hnd) as (w2 & E2 & I2 & H2 & H3 & H4 & H5). exists w2.
  split; [unfold close_one; rewrite (bindM_step _ _ _ _ _ E1); exact E2|]. split; [done|]. split; [done|]. split; [done|].
  split; [intros l0 c0 Hl0; by apply H4, ended_down|].
  intros k0 l0 s0 c0 [[= -> ->]|Hin]%elem_of_cons Hs0 Hc0.
  - pose proof (lv_svc _ _ _ _ _ _ _ _ L). pose proof (lv_conn _ _ _ _ _ _ _ _ L). simplify_eq. apply H4, down_ended.
  - destruct (decide (l0 = l)) as [->|Hne].
    { pose proof (lv_svc _ _ _ _ _ _ _ _ L). pose proof (lv_conn _ _ _ _ _ _ _ _ L). simplify_eq. apply H4, down_ended. }
    apply (H5 k0 l0 s0 c0 Hin); [|done]. cbn. by rewrite lookup_insert_ne.
Qed.

Lemma Close_ok w : server_inv w p -> exists w',
  Close w = (Ret tt, w') /\ server_inv w' p /\ svcMap (srv w') = ∅ /\ ln_closed (srv w') = true /\
  (forall k l s c, svcMap (srv w) !! k = Some l -> svcs w !! l = Some s -> conn s = Some c -> ended w' l c).
Proof.
  intros I. unfold Close, upd_srv. rewrite bindM_modify, bindM_gets.
  set (w0 := set_srv (set_ln_closed (srv w)) w).
  assert (I0 : server_inv w0 p) by (eapply calm_inv; [|exact I]; by split).
  destruct (close_all_spec (map_to_list (svcMap (srv w0))) w0 I0) as (w1 & E1 & I1 & H1 & H2 & _ & H3).
  { by rewrite list_to_map_to_list. }
  { apply NoDup_fst_map_to_list. }
  rewrite (bindM_step _ _ _ _ _ E1), bindM_gets.
  assert (H4 : forall k l s c, svcMap (srv w) !! k = Some l -> svcs w !! l = Some s -> conn s = Some c -> ended w1 l c).
  { intros k l s c Hk. apply (H3 k l s c). by apply elem_of_map_to_list. }
  destruct (sessMgr (srv w1)) as [m|]; [|by exists w1].
  eexists. split; [done|]. split; [by apply (inv_set_mgr w1)|]. cbn. by rewrite H1, H2.
Qed.

End Keep.

(** ** The system *)

Section System.
Context {TW : Type} `{TimeWheel TW}.
Context (pick : list (list Z) -> option nat) (wpick : list Writer -> option nat)
        (ppick : list PublishMessage -> option nat)
        (copy : PublishMessage -> PublishMessage -> PublishMessage)
        (reg : gmap string memProvider).
Implicit Types w : world TW.
Implicit Types p : list (list Z * Z).

Inductive sys_step : world TW * list (list Z * Z) -> world TW * list (list Z * Z) -> Prop :=
| SAccept w p c x sp addr rnd r w' :
    (* a new connection, and its handshake up to the start of its goroutine *)
    conns w !! c = None -> closed x = false -> gsvcid w + 1 < 2 ^ 64 ->
    accept reg sp addr rnd c (set_conns (<[c:=x]> (conns w)) w) = (Ret r, w') ->
    sys_step (w, p) (w', match r with HStarted k l => p ++ [(k, l)] | HFail _ => p end)
| SStore w p q k l w' :
    storeMap k l w = (Ret tt, w') -> sys_step (w, p ++ (k, l) :: q) (w', p ++ q)
| SReceive w p l r w' : receiverData pick wpick l w = (r, w') -> sys_step (w, p) (w', p)
| SPush w p r w' : PushMsg pick wpick ppick copy w = (r, w') -> sys_step (w, p) (w', p)
| STimeout w p t r w' : ack_timeout t w = (r, w') -> sys_step (w, p) (w', p)
| SPeer w p c x x' :
    (* the peer sends, shuts down, or the network fails *)
    conns w !! c = Some x -> closed x' = closed x -> written x' = written x ->
    sys_step (w, p) (set_conns (<[c:=x']> (conns w)) w, p)
| STime w p t : sys_step (w, p) (set_now t w, p)
| SClose w p r w' : Close w = (r, w') -> sys_step (w, p) (w', p).

(** the server before its first connection: [NewServer] and the fields it is given *)
Definition server_start w : Prop :=
  svcs w = ∅ /\ conns w = ∅ /\ cells (sessions w) = ∅ /\ gsvcid w = 0 /\ svcMap (srv w) = ∅.

Inductive reachable : world TW -> list (list Z * Z) -> Prop :=
| r_start w : server_start w -> reachable w []
| r_step w p w' p' : reachable w p -> sys_step (w, p) (w', p') -> reachable w' p'.

Lemma start_inv w : server_start w -> server_inv w [].
Proof.
  intros (E1 & E2 & E3 & E4 & E5). split; rewrite ?E1, ?E2, ?E3, ?E4, ?E5; try done.
  - by intros k l Hk%elem_of_nil.
  - apply NoDup_nil_2.
  - by intros sl [? ?].
  - by intros l [? ?].
  - intros k l [Hk|Hk%elem_of_nil]; done.
Qed.

Lemma arrival w p c x : server_inv w p -> conns w !! c = None -> closed x = false -> gsvcid w + 1 < 2 ^ 64 ->
  arrived p c (set_conns (<[c:=x]> (conns w)) w).
Proof.
  intros I Hc Hx Hg. assert (Hfree : forall l s, svcs w !! l = Some s -> conn s <> Some c).
  { intros l s Hs Hcs. destruct (si_conn_dom _ _ I l s c Hs Hcs). congruence. }
  split; [|split; [done|split; [|done]]].
  - apply (unowned_inv w); try done; cbn.
    + apply (si_cells _ _ I).
    + intros c' [y Hy]. exists y. rewrite lookup_insert_ne; [done|]. congruence.
    + intros l s c' Hs _ Hcs. rewrite lookup_insert_ne; [done|]. intros <-. by destruct (Hfree l s Hs).
  - exists x. split; [|done]. cbn. apply lookup_insert_eq.
Qed.

Lemma sys_step_inv w p w' p' : sys_step (w, p) (w', p') -> server_inv w p -> server_inv w' p'.
Proof.
  inversion 1; subst; intros I.
  - eapply accept_inv; [|done]. by apply arrival.
  - match goal with Hs : storeMap _ _ _ = _ |- _ => unfold storeMap, upd_srv in Hs; injection Hs as <- end.
    by apply store_inv.
  - by eapply receiverData_inv.
  - eapply inv_keeps; [apply keeps_PushMsg|done|done].
  - eapply inv_keeps; [apply keeps_ack_timeout|done|done].
  - by eapply set_conn_inv.
  - by eapply frame_inv.
  - destruct (Close_ok _ _ I) as (w1 & E1 & I1 & _). congruence.
Qed.

Lemma reachable_inv w p : reachable w p -> server_inv w p.
Proof. induction 1; [by apply start_inv|by eapply sys_step_inv]. Qed.

End System.

(** ** The sample runs are runs of the system *)

Abbreviation sample_reachable w := (reachable no_pick no_pick no_pick copy_all mem_registry w []).

Lemma fresh_start max u : server_start (fresh_server max u).
Proof. done. Qed.

(** a handshake that succeeds, and the registration of its service *)
Lemma connect_reachable w c x k n : sample_reachable w -> conns w !! c = None -> closed x = false -> gsvcid w + 1 < 2 ^ 64 ->
  fst (shake c (arrive c x w)) = Ret (HStarted k n) -> sample_reachable (snd (storeMap k n (snd (shake c (arrive c x w))))).
Proof.
  intros R Hc Hx Hg Hs. destruct (shake c (arrive c x w)) as [r w1] eqn:E. cbn in Hs. subst r. cbn [snd].
  eapply r_step; [|eapply (SStore _ _ _ _ _ _ [] [] k n); reflexivity].
  eapply r_step; [exact R|]. by eapply (SAccept _ _ _ _ _ w [] c x [] [] None (HStarted k n)).
Qed.

Lemma turn_reachable w n : sample_reachable w -> sample_reachable (snd (turn n w)).
Proof.
  intros R. eapply r_step; [exact R|]. destruct (turn n w) as [r w1] eqn:E. by eapply SReceive.
Qed.

Lemma d1_up_reachable max u ss e :
  fst (shake 0 (arrive 0 (d1_dial ss e) (fresh_server max u))) = Ret (HStarted d1_key 1) -> sample_reachable (d1_up max u ss e).
Proof.
  intros E. unfold d1_up. apply turn_reachable. unfold register.
  apply (connect_reachable _ 0 (d1_dial ss e) d1_key 1); [apply r_start, fresh_start|reflexivity|reflexivity|reflexivity|exact E].
Qed.

(** the device connects a second time, while the receiver of its first connection
    waits *)
Definition d1_again : world simple_wheel :=
  register 2 (snd (shake 1 (arrive 1 (d1_dial [] EOF) (d1_up 1000 [] [] EOF)))).

Lemma d1_again_reachable : sample_reachable d1_again.
Proof.
  unfold d1_again, register. apply (connect_reachable _ 1 (d1_dial [] EOF) d1_key 2).
  - apply d1_up_reachable. vm_compute. reflexivity.
  - vm_compute. reflexivity.
  - reflexivity.
  - vm_compute. reflexivity.
  - vm_compute. reflexivity.
Qed.
