(* ===== verification/Registry.v ===== *)
(** * Registry: the table of services as an abstract machine

    [svcMap], the counter [gsvcid] and the services that are about to be stored,
    without the connections, sessions, timers and packets: a table that hands out
    numbers.  [registry_refines] shows that the server implements it, and the
    theorems about numbers are proved on the abstract machine. *)
From stdpp Require Import base list strings gmap.
From Stdlib Require Import ZArith Lia.
From S2P Require Import MsgTypes Header Publish Connect Connack Message AckQueue Session.
From S2P Require Import Prelude GoLang GoStrings NetConn Framing Connectivity World Service ServiceSpec Server Sample ServerSpec ServerSys.

(** ** The abstract machine *)

Record registry : Type := mkRegistry {
  rg_keys : gmap Z (list Z);         (* the key of every number handed out *)
  rg_map : gmap (list Z) Z;          (* the number registered under a key *)
  rg_next : Z;                       (* the last number handed out *)
  rg_pend : list (list Z * Z)        (* started and about to be registered *)
}.

Definition empty_registry : registry := mkRegistry ∅ ∅ 0 [].

(** a CONNECT for [k] is accepted: a new number, and the old entry goes *)
Definition handed (k : list Z) (r : registry) : registry :=
  mkRegistry (<[rg_next r + 1:=k]> (rg_keys r)) (delete k (rg_map r)) (rg_next r + 1) (rg_pend r).
Definition with_pend (p : list (list Z * Z)) (r : registry) : registry := mkRegistry (rg_keys r) (rg_map r) (rg_next r) p.
Definition with_map (m : gmap (list Z) Z) (r : registry) : registry := mkRegistry (rg_keys r) m (rg_next r) (rg_pend r).

Inductive reg_step : registry -> registry -> Prop :=
| RGiven k r : reg_step r (handed k r)                     (* the handshake fails afterwards *)
| RStarted k r : reg_step r (with_pend (rg_pend r ++ [(k, rg_next r + 1)]) (handed k r))
| RStored k l p q r : rg_pend r = p ++ (k, l) :: q -> reg_step r (with_pend (p ++ q) (with_map (<[k:=l]> (rg_map r)) r))
| RDropped l k r : rg_keys r !! l = Some k -> reg_step r (with_map (delete k (rg_map r)) r)
| RClosed r : reg_step r (with_map ∅ r).

Record registry_ok (r : registry) : Prop := {
  ro_keys : forall l, is_Some (rg_keys r !! l) -> 0 < l <= rg_next r;
  ro_map : forall k l, rg_map r !! k = Some l -> rg_keys r !! l = Some k;
  ro_pend : forall k l, (k, l) ∈ rg_pend r -> rg_keys r !! l = Some k;
  ro_nodup : NoDup (rg_pend r).*2;
  ro_apart : forall k l, rg_map r !! k = Some l -> l ∉ (rg_pend r).*2;
  ro_next : 0 <= rg_next r
}.

(** [l] has been handed out and is neither registered nor about to be *)
Definition gone (r : registry) (l : Z) : Prop :=
  l <= rg_next r /\ (forall k, rg_map r !! k <> Some l) /\ l ∉ (rg_pend r).*2.

Lemma stored_nodup (l0 : list (list Z * Z)) p k l q : l0 = p ++ (k, l) :: q -> NoDup l0.*2 -> NoDup (p ++ q).*2 /\ l ∉ (p ++ q).*2.
Proof.
  intros -> Hnd. rewrite fmap_app in Hnd. cbn in Hnd. rewrite <- Permutation_middle, <- fmap_app in Hnd.
  by apply NoDup_cons in Hnd as [Hnl Hnd].
Qed.

Lemma reg_step_ok r r' : registry_ok r -> reg_step r r' -> registry_ok r'.
Proof.
  intros [H1 H2 H3 H4 H5 H6] Hs.
  assert (Hnew : rg_keys r !! (rg_next r + 1) = None).
  { destruct (rg_keys r !! (rg_next r + 1)) eqn:E; [|done]. specialize (H1 _ (ex_intro _ _ E)). lia. }
  assert (Hold : forall l k, rg_keys r !! l = Some k -> forall k', <[rg_next r + 1:=k']> (rg_keys r) !! l = Some k).
  { intros l k Hl k'. rewrite lookup_insert_ne; [done|]. intros <-. congruence. }
  assert (Hkeys : forall k l, is_Some (<[rg_next r + 1:=k]> (rg_keys r) !! l) -> 0 < l <= rg_next r + 1).
  { intros k l [<-|[_ Hl]]%lookup_insert_is_Some; [lia|]. specialize (H1 l Hl). lia. }
  destruct Hs as [k r|k r|k l p q r Hp|l k r Hk|r]; split; cbn; try done; try lia; try by eauto.
  - intros k' l [_ Hl]%lookup_delete_Some. by auto.
  - intros k' l [_ Hl]%lookup_delete_Some. by eauto.
  - intros k' l [_ Hl]%lookup_delete_Some. by auto.
  - intros k' l [Hl|Hl%list_elem_of_singleton]%elem_of_app; [by auto|]. injection Hl as -> ->. apply lookup_insert_eq.
  - rewrite fmap_app. apply NoDup_app. split; [done|]. split; [|apply NoDup_singleton].
    intros l ([k' l'] & -> & Hl)%list_elem_of_fmap. cbn. rewrite list_elem_of_singleton. intros ->.
    specialize (H3 _ _ Hl). congruence.
  - intros k' l [_ Hl]%lookup_delete_Some. rewrite fmap_app. intros [Hin|Hin%list_elem_of_singleton]%elem_of_app; [by eapply H5|].
    cbn in Hin. subst l. specialize (H2 _ _ Hl). congruence.
  - intros k' l' [[<- <-]|[_ Hl]]%lookup_insert_Some; [|by auto]. apply H3. rewrite Hp. set_solver.
  - intros k' l' Hl. apply H3. rewrite Hp. set_solver.
  - by destruct (stored_nodup _ _ _ _ _ Hp H4).
  - destruct (stored_nodup _ _ _ _ _ Hp H4) as [Hnd Hnl].
    intros k' l' [[<- <-]|[_ Hl]]%lookup_insert_Some; [done|]. intros Hin. apply (H5 _ _ Hl). rewrite Hp, !fmap_app in *. set_solver.
  - intros k' l' [_ Hl]%lookup_delete_Some. by auto.
  - intros k' l' [_ Hl]%lookup_delete_Some. by eauto.
Qed.

(** a number that is gone stays gone *)
Lemma reg_step_gone r r' l : registry_ok r -> reg_step r r' -> gone r l -> gone r' l.
Proof.
  intros [H1 H2 H3 H4 H5 H6] Hs (G1 & G2 & G3).
  destruct Hs as [k r|k r|k l0 p q r Hp|l0 k r Hk|r]; split; cbn; try lia; (split; [|try done]).
  - intros k' [_ Hl]%lookup_delete_Some. by eapply G2.
  - intros k' [_ Hl]%lookup_delete_Some. by eapply G2.
  - rewrite fmap_app. intros [Hin|Hin%list_elem_of_singleton]%elem_of_app; [done|]. cbn in Hin. lia.
  - intros k' [[_ <-]|[_ Hl]]%lookup_insert_Some; [|by eapply G2]. apply G3. rewrite Hp, fmap_app. set_solver.
  - intros Hin. apply G3. rewrite Hp, !fmap_app in *. set_solver.
  - intros k' [_ Hl]%lookup_delete_Some. by eapply G2.
  - intros k'. by rewrite lookup_empty.
Qed.

(** the key of a number does not change *)
Lemma reg_step_keys r r' l k : registry_ok r -> reg_step r r' -> rg_keys r !! l = Some k -> rg_keys r' !! l = Some k.
Proof.
  intros Hok Hs Hk. assert (l <> rg_next r + 1).
  { pose proof (ro_keys _ Hok l (ex_intro _ _ Hk)). lia. }
  destruct Hs; cbn; try done; by rewrite lookup_insert_ne.
Qed.

(** ** The server's table *)
Section Registry.
Context {TW : Type} `{TimeWheel TW}.
Context (pick : list (list Z) -> option nat) (wpick : list Writer -> option nat)
        (ppick : list PublishMessage -> option nat)
        (copy : PublishMessage -> PublishMessage -> PublishMessage)
        (reg : gmap string memProvider).
Implicit Types w : world TW.
Implicit Types p : list (list Z * Z).
Abbreviation M := (M (TW:=TW)).

Definition registry_of w p : registry := mkRegistry (svc_key <$> svcs w) (svcMap (srv w)) (gsvcid w) p.

Lemma calm_registry w w' p : calm w w' -> registry_of w' p = registry_of w p.
Proof.
  intros Hc. pose proof (cm_srv _ _ Hc) as (E & _). unfold registry_of. rewrite E, (cm_gsvc _ _ Hc). f_equal.
  apply map_eq. intros l. rewrite !lookup_fmap. destruct (svcs w !! l) as [s|] eqn:Es.
  - destruct (map_rel_lookup _ _ _ _ _ (cm_svcs _ _ Hc) Es) as (s' & -> & E1 & _). cbn. f_equal.
    unfold svc_key, svc_productKey, svc_deviceName. by rewrite E1.
  - destruct (svcs w' !! l) as [s'|] eqn:Es'; [|done].
    destruct (map_rel_lookup_inv _ _ _ _ _ (cm_svcs _ _ Hc) Es') as (s & Hs & _). congruence.
Qed.

(** [m] does not touch the table, and what it returns satisfies [P] *)
Definition still {A} (P : A -> Prop) (m : M A) : Prop :=
  forall w r w', m w = (r, w') -> (forall p, registry_of w' p = registry_of w p) /\ (forall a, r = Ret a -> P a).

Definition any {A} (_ : A) : Prop := True.

Lemma still_calm {A} (m : M A) : keeps m -> still any m.
Proof. intros Hk w r w' Hr. split; [|done]. intros p. eapply calm_registry, Hk, Hr. Qed.

Lemma still_ret {A} (P : A -> Prop) (a : A) : P a -> still P (retM a).
Proof. intros HP w r w' [= <- <-]. split; [done|]. by intros a' [= <-]. Qed.

Lemma still_bind {A B} P Q (m : M A) (k : A -> M B) : still P m -> (forall a, P a -> still Q (k a)) -> still Q (bindM m k).
Proof.
  intros Hm Hk w r w' Hr. apply bindM_inv in Hr as [(a & w1 & H1 & H2)|(q & H1 & ->)].
  - destruct (Hm _ _ _ H1) as [E1 Pa]. destruct (Hk a (Pa a eq_refl) _ _ _ H2) as [E2 Qb]. split; [|done].
    intros p. by rewrite E2, E1.
  - destruct (Hm _ _ _ H1) as [E1 _]. by split.
Qed.

Lemma still_bind_any {A B} Q (m : M A) (k : A -> M B) : still any m -> (forall a, still Q (k a)) -> still Q (bindM m k).
Proof. intros Hm Hk. by eapply still_bind. Qed.

Lemma still_modify f : (forall w p, registry_of (f w) p = registry_of w p) -> still any (modify f).
Proof. intros Hf w r w' [= <- <-]. by split. Qed.

Lemma still_upd_svc n f : (forall s, svc_key (f s) = svc_key s) -> still any (upd_svc n f).
Proof.
  intros Hf w r w'. unfold upd_svc, get_svc, bindM, gets, deref_some, retM, panicM, modify.
  destruct (svcs w !! n) as [s|] eqn:E; intros [= <- <-]; [|done]. split; [|done]. intros p.
  unfold registry_of. cbn -[svc_key]. f_equal. rewrite fmap_insert, Hf. apply insert_id. by rewrite lookup_fmap, E.
Qed.

Lemma still_recovered {A} (m : M A) a : still any m -> still any (recovered m a).
Proof.
  intros Hm w r w'. unfold recovered. destruct (m w) as [[b|q] w1] eqn:E; intros [= <- <-]; split; try done; by eapply Hm.
Qed.

(** one entry is removed, under the key of some number *)
Definition dropped w w' : Prop :=
  (forall p, registry_of w' p = registry_of w p) \/
  exists l k, (svc_key <$> svcs w) !! l = Some k /\
    forall p, registry_of w' p = with_map (delete k (svcMap (srv w))) (registry_of w p).

Definition drops {A} (m : M A) : Prop := forall w r w', m w = (r, w') -> dropped w w'.

Lemma drops_still {A} (m : M A) : still any m -> drops m.
Proof. intros Hm w r w' Hr. left. by eapply Hm. Qed.

Lemma drops_after {A B} (m : M A) (k : A -> M B) : still any m -> (forall a, drops (k a)) -> drops (bindM m k).
Proof.
  intros Hm Hk w r w' Hr. apply bindM_inv in Hr as [(a & w1 & H1 & H2)|(q & H1 & _)]; [|left; by eapply Hm].
  destruct (Hm _ _ _ H1) as [E _]. pose proof (E []) as [= E1 E2 E3].
  destruct (Hk a _ _ _ H2) as [Hs|(l & k0 & Hl & Hd)]; [left; intros p; by rewrite Hs|].
  right. exists l, k0. rewrite <- E1. split; [done|]. intros p. by rewrite Hd, E, E2.
Qed.

Lemma drops_before {A B} (m : M A) (k : A -> M B) : drops m -> (forall a, still any (k a)) -> drops (bindM m k).
Proof.
  intros Hm Hk w r w' Hr. apply bindM_inv in Hr as [(a & w1 & H1 & H2)|(q & H1 & _)]; [|by eapply Hm].
  destruct (Hk a _ _ _ H2) as [E _]. destruct (Hm _ _ _ H1) as [Hs|(l & k0 & Hl & Hd)]; [left; intros p; by rewrite E|].
  right. exists l, k0. split; [done|]. intros p. by rewrite E.
Qed.

Lemma drops_recovered {A} (m : M A) a : drops m -> drops (recovered m a).
Proof. intros Hm w r w'. unfold recovered. destruct (m w) as [[b|q] w1] eqn:E; intros [= <- <-]; by eapply Hm. Qed.

Lemma drops_deleteMap l : drops (deleteMapAndLogout l).
Proof.
  intros w r w' Hr. unfold deleteMapAndLogout in Hr.
  apply bindM_inv in Hr as [(s & w1 & H1 & H2)|(q & H1 & _)].
  2: { left. by eapply still_calm, H1; apply keeps_get_svc. }
  unfold get_svc in H1. rewrite bindM_gets in H1. destruct (svcs w !! l) as [s0|] eqn:E; [|done].
  cbn [deref_some] in H1. injection H1 as -> <-.
  unfold upd_srv in H2. rewrite bindM_modify in H2. injection H2 as <- <-.
  right. exists l, (svc_key s). by rewrite lookup_fmap, E.
Qed.

Ltac still_step :=
  first
    [ progress cbv zeta
    | match goal with |- still _ (bindM _ _) => apply still_bind_any; [|intros ?] end
    | match goal with |- still _ (match ?x with _ => _ end) => destruct x end
    | match goal with |- still _ (if ?b then _ else _) => destruct b end
    | solve [apply still_calm; eauto with keeps nocore]
    | solve [apply still_calm, keeps_gets]
    | solve [apply still_calm, keeps_lift]
    | solve [apply still_calm, keeps_deref]
    | solve [apply still_calm, keeps_ret]
    | solve [apply still_calm, keeps_panic]
    | solve [apply still_calm, keeps_get_sess]
    | solve [apply still_calm, keeps_get_svc]
    | solve [unfold upd_srv, put_sess, set_conn, set_receiver, end_receiver; apply still_modify; reflexivity]
    | solve [apply still_upd_svc; reflexivity] ].
Ltac stays := repeat still_step.

Lemma still_del_session l : still any (del_session l).
Proof. unfold del_session. stays. Qed.

Lemma still_newStopConnect l : still any (newStopConnect l).
Proof.
  unfold newStopConnect. apply still_recovered. stays.
  apply still_modify. intros w p. by destruct (conns w !! _).
Qed.

Lemma drops_exceptionDisconnect this err : drops (exceptionDisconnect this err).
Proof.
  unfold exceptionDisconnect, error_text. apply drops_after; [stays|]. intros s. cbv zeta. apply drops_after; [stays|].
  intros [l|]; [|apply drops_still; stays].
  pose proof (still_del_session l) as Hd. pose proof (still_newStopConnect l) as Hn.
  destruct (negb _); repeat (apply drops_after; [solve [stays]|intros ?]); cbv zeta;
    repeat (apply drops_after; [solve [stays]|intros ?]);
    (apply drops_before; [apply drops_deleteMap|]); intros val; stays; assumption.
Qed.

Lemma drops_after_exception this err (b : bool) : drops (exceptionDisconnect this err ;;; retM b).
Proof. apply drops_before; [apply drops_exceptionDisconnect|]. intros ?. stays. Qed.

Lemma drops_round this c d rd : drops (receiverData_round pick wpick this c d rd).
Proof.
  unfold receiverData_round. do 3 (apply drops_after; [solve [stays]|intros ?]).
  destruct a1 as [[res r] x]. apply drops_after; [stays|]. intros _. destruct res as [[t n]|e]; [|apply drops_after_exception].
  apply drops_after; [stays|]. intros max. destruct (max <? n); [apply drops_after_exception|].
  apply drops_after; [stays|]. intros [[[[msg k] err] r2] x2]. do 2 (apply drops_after; [solve [stays]|intros _]).
  destruct err; [apply drops_after_exception|]. destruct msg as [msg|]; [|apply drops_still; stays].
  apply drops_after; [apply still_calm, keeps_processIncoming|]. intros [e|]; [apply drops_after_exception|].
  apply drops_still. stays.
Qed.

Lemma drops_receiverData this : drops (receiverData pick wpick this).
Proof.
  unfold receiverData. apply drops_after; [stays|]. intros [rx|]; [|apply drops_still; stays].
  apply drops_before.
  - apply drops_recovered. destruct rx; [|apply drops_round]. apply drops_still. unfold receiverData_begin. stays.
  - intros b. stays.
Qed.

(** ** The handshake *)

(** the new service is [n] under [k], if there is one *)
Definition names (k : list Z) (n : Z) (r : hresult) : Prop :=
  match r with HStarted k' l => k' = k /\ l = n | HFail _ => True end.
Definition fails (r : hresult) : Prop := match r with HStarted _ _ => False | HFail _ => True end.

Lemma still_ret_end {A B} (P : B -> Prop) (m : M A) (f : A -> B) : still any m -> (forall a, P (f a)) -> still P (do a <- m ;; retM (f a)).
Proof. intros Hm HP. apply still_bind_any; [done|]. intros a. by apply still_ret. Qed.

Lemma still_write_connack c resp : still any (write_connack c resp).
Proof. apply still_calm, keeps_write_connack. Qed.

Lemma still_refuse P c resp code e (f : option error -> hresult) : (forall e, P (f e)) ->
  still P (do e0 <- refuse c resp code e ;; retM (f e0)).
Proof. intros HP. apply still_ret_end; [|done]. apply still_calm, keeps_refuse. Qed.

Lemma still_getSession rnd n req resp : still any (getSession rnd n req resp).
Proof.
  unfold getSession. apply still_bind_any; [stays|]. intros s. cbv zeta. destruct (sess s); [stays|].
  do 3 (apply still_bind_any; [solve [stays]|intros ?]). destruct (mgr_New _ _ _ _) as [[m h] res]. stays.
Qed.

(** the handshake after the old connection has been ticked off *)
Lemma still_handshake_rest c rnd req resp key n :
  still (names key n) (
    let '(value, err) := Login (mkLogin (ClientId req) (Password req)) in
    upd_svc n (set_slogin value) ;;;
    match err with
    | Some e => do e <- refuse c resp ErrAuthServerLoginFailed None ;; retM (HFail e)
    | None =>
        do y <- getSession rnd n req resp ;;
        let '(req, resp, err) := y in
        match err with
        | Some e => retM (HFail (Some e))
        | None =>
            do r <- write_connack c (SetReturnCode resp ConnectionAccepted) ;;
            let '(resp, err) := r in
            match err with
            | Some e => retM (HFail (Some e))
            | None =>
                upd_svc n (fun s => set_sstats (stat_increment (inStat s) (snd (Connect.Len req)))
                                               (stat_increment (outStat s) (snd (Connack.Len resp))) s) ;;;
                set_receiver n RxNew ;;;
                retM (HStarted key n)
            end
        end
    end).
Proof.
  cbn [Login]. apply still_bind_any; [stays|]. intros _. apply still_bind_any; [apply still_getSession|].
  intros [[req' resp'] [e|]]; [by apply still_ret|]. apply still_bind_any; [apply still_write_connack|].
  intros [resp2 [e|]]; [by apply still_ret|]. do 2 (apply still_bind_any; [solve [stays]|intros _]). by apply still_ret.
Qed.

Lemma handshake_tail_registry q c rnd req resp k n w r w' : during q c n k w ->
  handshake_tail c rnd req resp k n w = (r, w') ->
  (forall p, registry_of w' p = with_map (delete k (svcMap (srv w))) (registry_of w p)) /\
  (forall a, r = Ret a -> names k n a).
Proof.
  intros (I & _) Hr. destruct (tick_off_spec q w k I) as (w1 & E1 & _ & Hno & Hw).
  unfold handshake_tail in Hr. rewrite (bindM_step _ _ _ _ _ E1) in Hr.
  destruct (still_handshake_rest c rnd req resp k n _ _ _ Hr) as [Es Hn]. split; [|done]. intros p. rewrite Es.
  destruct (svcMap (srv w) !! k) as [l|] eqn:El.
  - destruct Hw as (s & c0 & x & sl & ss & m & L & _ & ->). pose proof L as [L1 L2 _ _ _ _ _ _ _ _].
    unfold registry_of, with_map. cbn -[svc_key]. rewrite L2. f_equal.
    rewrite fmap_insert. apply insert_id. rewrite lookup_fmap, L1. done.
  - subst w1. unfold registry_of, with_map. cbn. by rewrite delete_id.
Qed.

(** what the registry sees of a handshake *)
Definition handshaken w (r : outcome hresult) w' : Prop :=
  ((forall p, registry_of w' p = registry_of w p) /\ forall a, r = Ret a -> fails a) \/
  (exists k, (forall p, registry_of w' p = handed k (registry_of w p)) /\ forall a, r = Ret a -> names k (gsvcid w + 1) a).

Lemma still_handshaken (m : M hresult) w r w' : still fails m -> m w = (r, w') -> handshaken w r w'.
Proof. intros Hm Hr. left. by eapply Hm. Qed.

Lemma handshake_body_registry q c sv addr rnd req err w r w' : ready q c w ->
  handshake_body c sv addr rnd req err w = (r, w') -> handshaken w r w'.
Proof.
  intros R. unfold handshake_body. destruct err as [e|].
  { destruct e; apply still_handshaken; first [by apply still_ret|by apply still_refuse]. }
  destruct req as [req|e]; [|apply still_handshaken; by apply still_ret]. cbv zeta.
  set (req1 := if _ =? 0 then _ else req). clearbody req1.
  destruct (Split (Username req1) 38) as [|dn [|pk [|]]]; try (apply still_handshaken; by apply still_refuse).
  destruct (bool_decide _); [apply still_handshaken; by apply still_refuse|].
  destruct (index _ 0) as [cid|pn]; [|intros [= <- <-]; by left]. rewrite bindM_lift, bindM_gets, !bindM_modify.
  pose proof (new_service_during q c w _ sv addr pk dn cid (Connect.KeepAlive req1) R eq_refl) as D.
  pose proof R as (I & _ & _ & _ & Hg). pose proof (si_gsvc _ _ I) as Hg0.
  assert (En : u64 (gsvcid w + 1) = gsvcid w + 1) by (unfold u64; apply Z.mod_small; lia). rewrite En in *.
  intros Hr. destruct (handshake_tail_registry _ _ _ _ _ _ _ _ _ _ D Hr) as [Er Hn]. right.
  eexists. split; [|exact Hn]. intros p. rewrite Er. unfold registry_of, with_map, handed. cbn -[svc_key Join].
  f_equal. by rewrite fmap_insert.
Qed.

Lemma handle_connect_registry q c sp addr rnd w r w' : ready q c w -> handle_connect sp addr rnd c w = (r, w') -> handshaken w r w'.
Proof.
  intros R Hr. pose proof R as (_ & _ & (x & Hx & Ho) & _).
  destruct (handle_connect_cases _ _ _ _ _ _ _ _ Hx Ho Hr) as [(pn & -> & ->)|(req & err & x1 & Hc1 & Hb)]; [by left|].
  eapply handshake_body_registry in Hb; [exact Hb|]. by eapply ready_set_conn.
Qed.

(** [handshaken] between steps that are still *)
Lemma handshaken_between w0 w1 w2 w3 (r r' : outcome hresult) :
  (forall p, registry_of w1 p = registry_of w0 p) -> (forall p, registry_of w3 p = registry_of w2 p) ->
  (forall a, r' = Ret a -> r = Ret a \/ fails a) -> handshaken w1 r w2 -> handshaken w0 r' w3.
Proof.
  intros E1 E2 Hr [[E H1]|(k & E & H1)].
  - left. split; [intros p; by rewrite E2, E|]. intros a Ha. destruct (Hr a Ha) as [?|?]; auto.
  - right. exists k. split; [intros p; by rewrite E2, E, E1|]. intros a Ha. pose proof (E1 []) as [= _ _ Eg]. rewrite <- Eg.
    destruct (Hr a Ha) as [?|Hf]; [by auto|by destruct a].
Qed.

Lemma checkConfiguration_registry w r w' p : checkConfiguration reg w = (r, w') -> registry_of w' p = registry_of w p.
Proof.
  unfold checkConfiguration. rewrite bindM_gets. destruct (configured (srv w)); [by intros [= <- <-]|]. cbv zeta.
  destruct (match NewManager _ _ with inl _ => _ | inr _ => _ end) as [mgr err].
  unfold upd_srv. rewrite bindM_modify. by intros [= <- <-].
Qed.

Lemma still_close_conn c : still any (close_conn c).
Proof. unfold close_conn. apply still_modify. intros w p. by destruct (conns w !! c). Qed.

Lemma accept_registry q c sp addr rnd w r w' : arrived q c w -> accept reg sp addr rnd c w = (r, w') -> handshaken w r w'.
Proof.
  intros A. unfold accept, recovered. destruct (bindM _ _ w) as [r0 w0] eqn:E. intros Hr.
  apply (handshaken_between w w w0 w' r0 r); [done|by destruct r0; injection Hr as <- <-| |].
  { intros a. destruct r0; injection Hr as <- <-; [by left|]. intros [= <-]. by right. }
  clear r w' Hr. apply bindM_inv in E as [(err & w1 & H1 & H2)|(pn & H1 & ->)].
  2: { left. split; [|done]. intros p. by eapply checkConfiguration_registry. }
  pose proof (checkConfiguration_triple reg q c w _ _ A H1) as R. cbn in R.
  pose proof (fun p => checkConfiguration_registry _ _ _ p H1) as E1.
  destruct err as [e|].
  { injection H2 as <- <-. left. split; [done|]. by intros a [= <-]. }
  apply bindM_inv in H2 as [(a & w2 & H3 & H4)|(pn & H3 & ->)]; apply (handle_connect_registry q) in H3; try done.
  2: { by apply (handshaken_between w w1 w0 w0 (Panic pn) (Panic pn)). }
  assert (Hend : (forall p, registry_of w0 p = registry_of w2 p) /\ r0 = Ret a).
  { destruct a as [[e|]|]; try by injection H4 as <- <-.
    rewrite (bindM_step (close_conn c) _ w2 tt _ eq_refl) in H4. injection H4 as <- <-. split; [|done].
    intros p. by apply (still_close_conn c w2 (Ret tt) _ eq_refl). }
  destruct Hend as [E2 ->]. apply (handshaken_between w w1 w2 w0 (Ret a)); try done. intros a'. by left.
Qed.

(** ** The end of the server *)

Lemma dropped_keys w w' : dropped w w' -> svc_key <$> svcs w' = svc_key <$> svcs w /\ gsvcid w' = gsvcid w.
Proof.
  intros [Hs|(l & k & _ & Hs)]; specialize (Hs []); injection Hs as E1 E2 E3; by split.
Qed.

Lemma close_one_keys l w r w' : close_one l w = (r, w') -> svc_key <$> svcs w' = svc_key <$> svcs w /\ gsvcid w' = gsvcid w.
Proof.
  intros Hr. apply dropped_keys. revert w r w' Hr. change (drops (close_one l)).
  pose proof (still_del_session l) as Hd. pose proof (still_newStopConnect l) as Hn. unfold close_one.
  apply drops_after; [stays|]. intros _. apply drops_before; [apply drops_deleteMap|]. intros val. unfold error_text.
  stays; assumption.
Qed.

Lemma close_all_keys l : forall w r w', close_all l w = (r, w') ->
  svc_key <$> svcs w' = svc_key <$> svcs w /\ gsvcid w' = gsvcid w.
Proof.
  induction l as [|n l IH]; cbn [close_all]; intros w r w' Hr; [by injection Hr as <- <-|].
  apply bindM_inv in Hr as [([] & w1 & H1 & H2)|(pn & H1 & _)].
  - apply close_one_keys in H1 as [E1 E2]. apply IH in H2 as [E3 E4]. split; congruence.
  - by apply close_one_keys in H1.
Qed.

Lemma Close_registry q w r w' p : server_inv w q -> Close w = (r, w') -> registry_of w' p = with_map ∅ (registry_of w p).
Proof.
  intros I Hr. destruct (Close_ok q w I) as (w1 & E & _ & Hm & _). rewrite Hr in E. injection E as -> ->.
  unfold registry_of, with_map. cbn [rg_keys rg_next rg_pend]. rewrite Hm.
  assert (Hk : svc_key <$> svcs w1 = svc_key <$> svcs w /\ gsvcid w1 = gsvcid w).
  { unfold Close, upd_srv in Hr. rewrite bindM_modify, bindM_gets in Hr.
    apply bindM_inv in Hr as [([] & w2 & H1 & H2)|(pn & H1 & _)]; [|by apply close_all_keys in H1].
    apply close_all_keys in H1 as [E1 E2]. cbn in E1, E2. rewrite bindM_gets in H2.
    destruct (sessMgr (srv w2)); injection H2 as <-; by cbn. }
  destruct Hk as [-> ->]. done.
Qed.

(** ** The refinement *)

Abbreviation sys_step := (sys_step pick wpick ppick copy reg).
Abbreviation reachable := (reachable pick wpick ppick copy reg).

Lemma dropped_step w w' p : dropped w w' ->
  registry_of w' p = registry_of w p \/ reg_step (registry_of w p) (registry_of w' p).
Proof.
  intros [Hs|(l & k & Hl & Hs)]; [left; by apply Hs|]. right. rewrite Hs.
  exact (RDropped l k (registry_of w p) Hl).
Qed.

Lemma calm_step {A} (m : M A) w r w' p : keeps m -> m w = (r, w') -> registry_of w' p = registry_of w p.
Proof. intros Hk Hr. eapply calm_registry, Hk, Hr. Qed.

Lemma sys_step_refines w p w' p' : server_inv w p -> sys_step (w, p) (w', p') ->
  registry_of w' p' = registry_of w p \/ reg_step (registry_of w p) (registry_of w' p').
Proof.
  intros I. inversion 1; subst.
  - assert (A : arrived p c (set_conns (<[c:=x]> (conns w)) w)) by (by apply arrival).
    match goal with Ha : accept _ _ _ _ _ _ = _ |- _ => apply (accept_registry p) in Ha; [|done]; rename Ha into Hacc end.
    destruct Hacc as [[E Hf]|(k & E & Hn)].
    + left. destruct r; [apply E|]. by specialize (Hf _ eq_refl).
    + right. specialize (Hn _ eq_refl). destruct r as [e|k' l].
      * rewrite E. exact (RGiven k (registry_of w p)).
      * destruct Hn as [-> ->]. rewrite E. exact (RStarted k (registry_of w p)).
  - right. match goal with Hs : storeMap _ _ _ = _ |- _ => unfold storeMap, upd_srv in Hs; injection Hs as <- end.
    exact (RStored k l p0 q (registry_of w (p0 ++ (k, l) :: q)) eq_refl).
  - apply dropped_step. by eapply drops_receiverData.
  - left. eapply calm_step; [apply keeps_PushMsg|done].
  - left. eapply calm_step; [apply keeps_ack_timeout|done].
  - by left.
  - by left.
  - right. match goal with Hc : Close _ = _ |- _ => rewrite (Close_registry _ _ _ _ _ I Hc) end. apply RClosed.
Qed.

Lemma start_registry w : server_start w -> registry_of w [] = empty_registry.
Proof. intros (E1 & _ & _ & E2 & E3). unfold registry_of. by rewrite E1, E2, E3, fmap_empty. Qed.

Lemma registry_of_ok w p : reachable w p -> registry_ok (registry_of w p).
Proof.
  induction 1 as [w Hs|w p w' p' Hr IH Hs].
  - rewrite start_registry by done. split; cbn; try done.
    + by intros l [? ?].
    + by intros k l Hin%elem_of_nil.
    + apply NoDup_nil_2.
  - destruct (sys_step_refines w p w' p') as [->|Hst]; [by eapply reachable_inv|done|done|]. by eapply reg_step_ok.
Qed.
End Registry.

(** C8: The table of services does what the abstract registry does.  From the empty
    table on, every step of the server - a handshake, its registration, a turn of a
    receiver, an upload, a timer, a peer, the shutdown - either leaves the table,
    the keys and the counter alone, or is one step of the registry: a CONNECT takes
    the next number and removes what its key names, a started service is stored
    under its own key, one entry is removed under the key of some service, or all
    are. *)
Theorem registry_refines {TW} `{TimeWheel TW} pick wpick ppick copy reg (w : world TW) p :
  reachable pick wpick ppick copy reg w p ->
  rtc reg_step empty_registry (registry_of w p) /\
  forall w' p', sys_step pick wpick ppick copy reg (w, p) (w', p') ->
    registry_of w' p' = registry_of w p \/ reg_step (registry_of w p) (registry_of w' p').
Proof.
  intros R. split.
  - induction R as [w Hs|w p w' p' Hr IH Hs]; [by rewrite start_registry|].
    destruct (sys_step_refines pick wpick ppick copy reg w p w' p') as [->|Hst]; [by eapply reachable_inv|done|done|].
    by eapply rtc_r.
  - intros w' p' Hs. eapply sys_step_refines; [by eapply reachable_inv|exact Hs].
Qed.

Lemma registry_refines_witness :
  rtc reg_step empty_registry (registry_of d1_again []) /\
  (registry_of (set_now 5 d1_again) [] = registry_of d1_again [] \/
   reg_step (registry_of d1_again []) (registry_of (set_now 5 d1_again) [])).
Proof.
  destruct (registry_refines no_pick no_pick no_pick copy_all mem_registry d1_again [] d1_again_reachable) as [H1 H2].
  split; [exact H1|]. exact (H2 _ _ (STime _ _ _ _ _ d1_again [] 5)).
Defined.

(** C9: A service that has left the table does not come back.  Once a number has been
    handed out and is neither registered nor about to be, no continuation of the run
    registers it again; every registered number is under the key it was made for,
    and that key never changes. *)
Theorem gone_stays_gone {TW} `{TimeWheel TW} pick wpick ppick copy reg (w w' : world TW) p p' :
  reachable pick wpick ppick copy reg w p -> rtc (sys_step pick wpick ppick copy reg) (w, p) (w', p') ->
  (forall l, l <= gsvcid w -> (forall k, svcMap (srv w) !! k <> Some l) -> l ∉ p.*2 ->
     (forall k, svcMap (srv w') !! k <> Some l) /\ l ∉ p'.*2) /\
  (forall l s, svcs w !! l = Some s -> exists s', svcs w' !! l = Some s' /\ svc_key s' = svc_key s) /\
  (forall k l, svcMap (srv w') !! k = Some l -> exists s, svcs w' !! l = Some s /\ svc_key s = k).
Proof.
  intros R Hrun.
  assert (Hall : reachable pick wpick ppick copy reg w' p' /\
    (forall l, gone (registry_of w p) l -> gone (registry_of w' p') l) /\
    (forall l k, rg_keys (registry_of w p) !! l = Some k -> rg_keys (registry_of w' p') !! l = Some k)).
  { remember (w, p) as a eqn:Ea. remember (w', p') as b eqn:Eb. revert w p w' p' Ea Eb R.
    induction Hrun as [a|a [w1 p1] b Hs Hrun IH]; intros w p w' p' -> Eb R; [by injection Eb as <- <-|].
    assert (R1 : reachable pick wpick ppick copy reg w1 p1) by (by eapply r_step).
    destruct (IH w1 p1 w' p' eq_refl Eb R1) as (R2 & Hg & Hk). pose proof (registry_of_ok _ _ _ _ _ _ _ R) as Hok.
    destruct (sys_step_refines _ _ _ _ _ _ _ _ _ (reachable_inv _ _ _ _ _ _ _ R) Hs) as [E|Hst]; [by rewrite <- E|].
    split; [done|]. split; [intros l Hl; by eapply Hg, reg_step_gone|intros l k Hl; by eapply Hk, reg_step_keys]. }
  destruct Hall as (R2 & Hg & Hk). split; [|split].
  - intros l H1 H2 H3. destruct (Hg l) as (_ & H4 & H5); [by split|]. by split.
  - intros l s Hs. specialize (Hk l (svc_key s)). cbn -[svc_key] in Hk. rewrite !lookup_fmap, Hs in Hk. specialize (Hk eq_refl).
    destruct (svcs w' !! l) as [s'|]; [|done]. exists s'. split; [done|]. by injection Hk.
  - intros k l Hl. pose proof (ro_map _ (registry_of_ok _ _ _ _ _ _ _ R2) k l Hl) as Hs. cbn -[svc_key] in Hs.
    rewrite lookup_fmap in Hs. destruct (svcs w' !! l) as [s|]; [|done]. exists s. split; [done|]. by injection Hs.
Qed.

Lemma turn_step n (w : world simple_wheel) :
  rtc (sys_step no_pick no_pick no_pick copy_all mem_registry) (w, []) (snd (turn n w), []).
Proof. apply rtc_once. destruct (turn n w) as [r w'] eqn:E. by eapply SReceive. Qed.

Lemma gone_stays_gone_witness : exists w : world simple_wheel,
  (forall k, svcMap (srv d1_again) !! k <> Some 1) /\ (forall k, svcMap (srv w) !! k <> Some 1) /\ w = snd (turn 1 d1_again).
Proof.
  assert (Hm : svcMap (srv d1_again) = {[d1_key := 2]}) by (vm_compute; reflexivity).
  assert (Hno : forall k, svcMap (srv d1_again) !! k <> Some 1).
  { intros k. rewrite Hm. intros [_ Hk]%lookup_singleton_Some. discriminate. }
  exists (snd (turn 1 d1_again)). split; [exact Hno|]. split; [|reflexivity].
  destruct (gone_stays_gone no_pick no_pick no_pick copy_all mem_registry d1_again _ [] [] d1_again_reachable
    (turn_step 1 d1_again)) as [Hg _].
  apply (Hg 1); [vm_compute; discriminate|exact Hno|apply not_elem_of_nil].
Defined.

(** ** Two handshakes of one device at the same time

    Neither finds the other in [svcMap]; the second entry replaces the first, whose
    connection stays open, unknown to [PushMsg], and is not closed at the end. *)
Definition both_started : world simple_wheel :=
  snd (shake 1 (arrive 1 (d1_dial [] EOF) (snd (shake 0 (arrive 0 (d1_dial [] EOF) (fresh_server 1000 [])))))).
Definition both_stored : world simple_wheel := register 2 (register 1 both_started).

Lemma handshake_reachable w p c x k n : reachable no_pick no_pick no_pick copy_all mem_registry w p ->
  conns w !! c = None -> closed x = false -> gsvcid w + 1 < 2 ^ 64 -> fst (shake c (arrive c x w)) = Ret (HStarted k n) ->
  reachable no_pick no_pick no_pick copy_all mem_registry (snd (shake c (arrive c x w))) (p ++ [(k, n)]).
Proof.
  intros R Hc Hx Hg Hs. destruct (shake c (arrive c x w)) as [r w1] eqn:E. cbn in Hs. subst r. cbn [snd].
  eapply r_step; [exact R|]. by apply (SAccept _ _ _ _ _ w p c x [] [] None (HStarted k n) w1).
Qed.

Lemma both_stored_reachable : sample_reachable both_stored.
Proof.
  assert (R2 : reachable no_pick no_pick no_pick copy_all mem_registry both_started ([] ++ [(d1_key, 1)] ++ [(d1_key, 2)])).
  { unfold both_started. rewrite app_assoc.
    apply handshake_reachable; [apply handshake_reachable; [apply r_start, fresh_start|..]|..]; vm_compute; reflexivity. }
  unfold both_stored, register. eapply r_step; [|by eapply (SStore _ _ _ _ _ _ [] [] d1_key 2)].
  eapply r_step; [exact R2|]. by eapply (SStore _ _ _ _ _ _ [] [(d1_key, 2)] d1_key 1).
Qed.

Lemma simultaneous_connects_orphan : sample_reachable both_stored /\
  svcMap (srv both_stored) = {[d1_key := 2]} /\
  (closed <$> conns both_stored !! 0) = Some false /\ (done_closed <$> svcs both_stored !! 1) = Some false /\
  fst (Close both_stored) = Ret tt /\ (closed <$> conns (snd (Close both_stored)) !! 0) = Some false.
Proof. split; [exact both_stored_reachable|]. repeat split; vm_compute; reflexivity. Qed.
