(* ===== verification/Pipe.v ===== *)
(** * Pipe: the receiver and the processor around the incoming buffer

    Every interleaving of one [receiver], one [processor], one closer of the buffer
    ([stopConnect]) and of whatever the rest of the server does to the world.  The
    theorem is that the processor takes the stream of the connection apart exactly
    as the receive loop of [service/readwrite.go] does.

    Ghost state: [sent], what is published in the ring; [stream], what the
    connection delivers, known when the receiver begins; [packets], what the
    processor has decoded. *)
From stdpp Require Import base list strings gmap.
From Stdlib Require Import ZArith Lia.
From S2P Require Import Prelude GoLang NetConn Framing World MsgTypes Message Service Server.
From S2P Require Import Sample Buffer BufferSpec BufferSys Sendrecv.

(** ** The header of a packet *)

Lemma log2_below x n : 0 < n -> 0 <= x < 2 ^ n -> Z.log2 x < n.
Proof. intros Hn Hx. destruct (Z.eq_dec x 0) as [->|]; [done|]. apply Z.log2_lt_pow2; lia. Qed.

Lemma lor_shift_bound x y k n :
  0 <= k < n -> 0 <= x < 2 ^ k -> 0 <= y < 2 ^ (n - k) -> 0 <= Z.lor x (Z.shiftl y k) < 2 ^ n.
Proof.
  intros Hk Hx Hy. assert (Hs : 0 <= Z.shiftl y k < 2 ^ n).
  { rewrite Z.shiftl_mul_pow2 by lia. replace n with (n - k + k) by lia. rewrite Z.pow_add_r by lia. nia. }
  pose proof (Z.pow_le_mono_r 2 k n). assert (H0 : 0 <= Z.lor x (Z.shiftl y k)) by (apply Z.lor_nonneg; lia).
  split; [done|]. destruct (Z.eq_dec (Z.lor x (Z.shiftl y k)) 0) as [->|Hne]; [lia|].
  apply Z.log2_lt_pow2; [lia|]. rewrite Z.log2_lor by lia. apply Z.max_lub_lt; apply log2_below; lia.
Qed.

(** continuation bytes and a last one: all are counted, the value fits *)
Lemma Uvarint_loop_shape init last : forall i x,
  0 <= i -> i + zlen init <= 8 -> 0 <= x < 2 ^ (7 * i) -> Forall (fun b => 128 <= b) init -> 0 <= last < 128 ->
  exists v, Uvarint_loop i x (7 * i) (init ++ [last]) = (v, i + zlen init + 1) /\ 0 <= v < 2 ^ (7 * (i + zlen init + 1)).
Proof.
  induction init as [|b init IH]; intros i x Hi Hz Hx Hf Hl; cbn [app Uvarint_loop].
  - change (zlen (@nil Z)) with 0 in *. destruct (i =? 10) eqn:E; [lia|]. destruct (last <? 128) eqn:E1; [|lia].
    destruct (_ && _) eqn:E2; [lia|]. eexists. split; [f_equal; lia|]. rewrite u64_shift by lia.
    apply lor_shift_bound; [lia|done|]. replace (7 * (i + 0 + 1) - 7 * i) with 7 by lia. done.
  - rewrite zlen_cons in *. pose proof (zlen_nonneg init). apply Forall_cons in Hf as [Hb Hf].
    destruct (i =? 10) eqn:E; [lia|]. destruct (b <? 128) eqn:E1; [lia|].
    assert (Hm : 0 <= Z.land b 127 < 128).
    { change 127 with (Z.ones 7). rewrite Z.land_ones by lia. apply Z.mod_pos_bound. lia. }
    rewrite u64_shift by lia. replace (7 * i + 7) with (7 * (i + 1)) by lia.
    destruct (IH (i + 1) (Z.lor x (Z.shiftl (Z.land b 127) (7 * i)))) as (v & -> & Hv); try done; try lia.
    { apply lor_shift_bound; [lia|done|]. by replace (7 * (i + 1) - 7 * i) with 7 by lia. }
    exists v. replace (i + (1 + zlen init) + 1) with (i + 1 + zlen init + 1) by lia. done.
Qed.

(** the packet is at least as long as its header *)
Lemma header_total_min init last :
  zlen init <= 3 -> Forall (fun b => 128 <= b) init -> 0 <= last < 128 -> zlen init + 2 <= header_total init last.
Proof.
  intros Hz Hf Hl. pose proof (zlen_nonneg init).
  destruct (Uvarint_loop_shape init last 0 0) as (v & E & Hv); try done; try lia.
  unfold header_total, Uvarint. change (7 * 0) with 0 in E. rewrite E.
  assert (2 ^ (7 * (0 + zlen init + 1)) <= 2 ^ 28) by (apply Z.pow_le_mono_r; lia).
  rewrite i64_small by lia. lia.
Qed.

(** [l] begins with the fixed header of a packet of [total] bytes *)
Definition headed (l : list Z) (mtype total : Z) : Prop :=
  exists b init last rest, l = b :: init ++ last :: rest /\ Forall (fun x => 128 <= x) init /\
    0 <= last < 128 /\ zlen init <= 3 /\ mtype = Z.shiftr b 4 /\ total = header_total init last.

Lemma headed_app l k mtype total : headed l mtype total -> headed (l ++ k) mtype total.
Proof.
  intros (b & init & last & rest & -> & H). exists b, init, last, (rest ++ k). split; [|done].
  cbn [app]. by rewrite <- app_assoc.
Qed.

(** its first [total] bytes have the same header *)
Lemma headed_take l mtype total : headed l mtype total -> headed (take (Z.to_nat total) l) mtype total.
Proof.
  intros (b & init & last & rest & -> & Hf & Hl & Hz & Ht & ->).
  pose proof (header_total_min init last Hz Hf Hl) as Hm. pose proof (zlen_nonneg init).
  exists b, init, last, (take (Z.to_nat (header_total init last) - length (b :: init ++ [last])) rest).
  split; [|split_and!; done || lia].
  replace (b :: init ++ last :: rest) with ((b :: init ++ [last]) ++ rest) by (cbn; by rewrite <- app_assoc).
  rewrite take_app_ge by (cbn [length]; rewrite length_app; cbn [length]; unfold zlen in *; lia).
  cbn [app]. by rewrite <- app_assoc.
Qed.

(** ** The receiver's side *)

Definition script_bytes (r : reader) : list Z := concat (map fst r).

(** what the receiver has read and what is left of the stream; an [RfClose] is
    always with an error *)
Definition rf_left (stream : list Z) (pc : readfrom_pc) : Prop :=
  match pc with
  | RfTop r _ got | RfWait r _ got _ | RfRead r _ got _ _ | RfCommit r _ got _ _ _ => stream = got ++ script_bytes r
  | RfClose _ (_, err) got => got `prefix_of` stream /\ err <> None
  end.

Lemma reader_Read_bytes r l r' bs err : reader_Read r l = (r', bs, err) ->
  script_bytes r = bs ++ script_bytes r'.
Proof.
  unfold reader_Read. destruct r as [|[cs e] r]; [by intros [= <- <- <-]|].
  destruct (zlen cs <=? l); intros [= <- <- <-]; [done|]. unfold script_bytes. cbn [map concat fst].
  by rewrite app_assoc, take_drop.
Qed.

Lemma rf_again_left stream r total got err : stream = got ++ script_bytes r ->
  match rf_again r total got err with
  | Run pc => rf_left stream pc
  | Fin (_, err, got) => got `prefix_of` stream /\ err <> None
  end.
Proof. intros ->. destruct err; cbn; [|done]. split; [by apply prefix_app_r|done]. Qed.

Lemma ReadFrom_left stream b pc b' r :
  ReadFrom_step b pc = Some (Ret (b', r)) -> rf_left stream pc ->
  match r with
  | Run pc => rf_left stream pc
  | Fin (_, err, got) => got `prefix_of` stream /\ err <> None
  end.
Proof.
  destruct pc as [rd total got|rd total got w|rd total got start cnt|rd total got bs err c|c [n err] got];
    cbn [ReadFrom_step]; unfold call, try, run, rf_return; intros H Hl; cbn [rf_left] in Hl.
  - case_match; simplify_eq; cbn; [|done]. split; [by apply prefix_app_r|done].
  - destruct (wfs_step b defaultReadBlockSize w) as [[[b1 [w'|[[start cnt] [e|]]]]|]|]; simplify_eq; cbn; try done.
    split; [by apply prefix_app_r|done].
  - destruct (subslice _ _ _) as [region|]; [|done].
    destruct (reader_Read rd (zlen region)) as [[rd' bs] err] eqn:E. apply reader_Read_bytes in E. rewrite E in Hl.
    destruct (put _ _ bs) as [d|]; [|done]. destruct (0 <? zlen bs) eqn:E0; simplify_eq.
    + cbn. by rewrite <- app_assoc.
    + assert (bs = []) as -> by (apply zlen_zero_nil; pose proof (zlen_nonneg bs); lia). by apply rf_again_left.
  - destruct (WriteCommit_step b (zlen bs) c) as [[[b1 [c'|[n [e|]]]]|]|]; simplify_eq; cbn; try done.
    + split; [by apply prefix_app_r|done].
    + by apply rf_again_left.
  - destruct (close_step Producer b c) as [[[b1 [c'|[]]]|]|]; simplify_eq; done.
Qed.

(** what is published was read *)
Lemma readfrom_prefix b sent stream pc :
  readfrom_ok b [] sent pc -> rf_left stream pc -> sent `prefix_of` stream.
Proof.
  destruct pc as [r total got|r total got w|r total got start cnt|r total got bs err c|c [n err] got]; cbn.
  - intros -> ->. by apply prefix_app_r.
  - intros [_ ->] ->. by apply prefix_app_r.
  - intros (_ & _ & _ & ->) ->. by apply prefix_app_r.
  - intros (gs & -> & _ & Hc) ->. destruct c; cbn in Hc.
    + destruct Hc as (_ & -> & _). rewrite <- app_assoc. by apply prefix_app_r.
    + destruct Hc as (_ & _ & _ & -> & _). rewrite <- app_assoc. by apply prefix_app_r.
    + destruct Hc as (_ & _ & ->). by apply prefix_app_r.
  - intros [_ (gs & bs & -> & ->)] [Hp _]. etrans; [|exact Hp]. by apply prefix_app_r.
Qed.

(** ** The processor's side *)

(** what is published and not consumed *)
Definition avail (b : buffer) (sent : list Z) : list Z := drop (Z.to_nat (ccur b)) sent.

(** the header continues up to byte [cnt - 1] *)
Definition conts (l : list Z) (cnt : Z) : Prop :=
  (cnt = 2 \/ cnt - 1 <= zlen l) /\ Forall (fun x => 128 <= x) (drop 1 (take (Z.to_nat (cnt - 1)) l)).

Lemma conts_2 l : conts l 2.
Proof. split; [by left|]. change (Z.to_nat (2 - 1)) with 1%nat. destruct l as [|x l]; [constructor|]. constructor. Qed.

Lemma conts_app l k cnt : conts l cnt -> conts (l ++ k) cnt.
Proof.
  intros [[->|Hl] Hf]; [apply conts_2|]. split; [right; zl|]. rewrite take_app_le; [done|]. unfold zlen in Hl. lia.
Qed.

(** looking at byte [cnt - 1] *)
Lemma conts_look l cnt x : 2 <= cnt -> cnt <= zlen l -> conts l cnt ->
  index (take (Z.to_nat cnt) l) (cnt - 1) = Ret x ->
  exists b init rest, l = b :: init ++ x :: rest /\ zlen init = cnt - 2 /\
    take (Z.to_nat cnt) l = b :: init ++ [x] /\ Forall (fun x => 128 <= x) init.
Proof.
  intros H2 Hl [_ Hf] Hx. unfold index in Hx. destruct (_ && _); [|done].
  destruct (_ !! _) as [y|] eqn:Ey; [|done]. injection Hx as ->.
  destruct l as [|b l]; [change (zlen (@nil Z)) with 0 in Hl; lia|]. rewrite zlen_cons in Hl.
  replace (Z.to_nat cnt) with (S (S (Z.to_nat (cnt - 2)))) in * by lia.
  replace (Z.to_nat (cnt - 1)) with (S (Z.to_nat (cnt - 2))) in * by lia. cbn [take] in *. cbn [lookup list_lookup] in Ey.
  change (drop 1 (b :: take (Z.to_nat (cnt - 2)) l)) with (take (Z.to_nat (cnt - 2)) l) in Hf.
  change (take (S (Z.to_nat (cnt - 2))) l !! Z.to_nat (cnt - 2) = Some x) in Ey.
  rewrite lookup_take_lt in Ey by lia. exists b, (take (Z.to_nat (cnt - 2)) l), (drop (S (Z.to_nat (cnt - 2))) l).
  split; [by rewrite take_drop_middle|]. split; [rewrite zlen_take; lia|].
  split; [|done]. by rewrite (take_S_r _ _ _ Ey).
Qed.

Lemma conts_next l b init x rest : l = b :: init ++ x :: rest -> Forall (fun x => 128 <= x) init -> 128 <= x ->
  conts l (zlen init + 3).
Proof.
  intros -> Hf Hx. pose proof (zlen_nonneg init). pose proof (zlen_nonneg rest). split.
  - right. rewrite zlen_cons, zlen_app, zlen_cons. lia.
  - replace (Z.to_nat (zlen init + 3 - 1)) with (S (length (init ++ [x]))) by (rewrite length_app; unfold zlen; cbn; lia).
    cbn [take]. change (drop 1 (?b :: ?l)) with l. rewrite (app_assoc init [x] rest : init ++ x :: rest = _).
    rewrite take_app_length. cbn. rewrite Forall_app. auto.
Qed.

Definition size_ok (b : buffer) (sent : list Z) (pc : size_pc) : Prop :=
  match pc with
  | SzTop cnt => 2 <= cnt /\ conts (avail b sent) cnt
  | SzWait cnt k => 2 <= cnt <= 5 /\ conts (avail b sent) cnt /\ wait_ok b cnt k
  | SzLook cnt v => 2 <= cnt <= 5 /\ conts (avail b sent) cnt /\ view_at b sent v cnt
  end.

Lemma view_avail b sent v m : mem_ok b sent -> view_at b sent v m ->
  read_view b v = take (Z.to_nat m) (avail b sent) /\ 0 <= m <= zlen (avail b sent).
Proof.
  intros Hm Hv. rewrite (view_at_read _ sent _ m) by done. split; [done|]. destruct Hv as (H0 & Hle & _).
  pose proof (mo_sent _ _ Hm). pose proof (mo_cur _ _ Hm). unfold avail. zl.
Qed.

Lemma avail_ccur b b' sent : ccur b' = ccur b -> avail b' sent = avail b sent.
Proof. intros H. unfold avail. by rewrite H. Qed.

Lemma peekMessageSize_step_ok b sent pc :
  mem_ok b sent -> zlen sent < 2 ^ 62 -> bytes_ok sent -> size_ok b sent pc ->
  keeps Consumer b sent (peekMessageSize_step b pc) (fun b' sent' r =>
    sent' = sent /\ ccur b' = ccur b /\
    match r with
    | Run pc' => size_ok b' sent' pc'
    | Fin (inl (mtype, total)) => headed (avail b' sent') mtype total
    | Fin (inr _) => True
    end).
Proof.
  intros Hm Hb Hby Hp. destruct pc as [cnt|cnt k|cnt v]; cbn [peekMessageSize_step size_ok] in *.
  - destruct (5 <? cnt) eqn:E; [by apply keeps_fin|apply keeps_run; [done|]]. split; [done|]. split; [done|].
    destruct Hp as [H2 Hc]. split; [lia|done].
  - destruct Hp as (Hc & Hcs & Hk). eapply keeps_through; [apply ok_keeps, ReadWait_step_ok; done| |].
    + intros b' sent' l (-> & Hcc & H). split; [done|]. split; [done|]. cbn. by rewrite (avail_ccur b b').
    + intros b' sent' [v [e|]] (-> & Hcc & H); cbn; split_and!; try done; try lia. by rewrite (avail_ccur b b').
  - destruct Hp as (Hc & Hcs & Hv). destruct (view_avail _ _ _ _ Hm Hv) as [Hr Hl]. rewrite Hr.
    rewrite zlen_take, Z2Nat.id, Z.min_l by lia. rewrite Z.ltb_irrefl.
    apply keeps_try. intros x Hx.
    destruct (conts_look (avail b sent) cnt x ltac:(lia) ltac:(lia) Hcs Hx) as (b0 & init & rest & Ha & Hz & Ht & Hf).
    destruct (128 <=? x) eqn:Ex.
    + apply keeps_run; [done|]. split; [done|]. split; [done|]. split; [lia|].
      replace (cnt + 1) with (zlen init + 3) by lia. apply (conts_next _ b0 init x rest Ha Hf). lia.
    + rewrite Ht. apply keeps_try. intros rest' Hs.
      pose proof (slice_from_app [b0] (init ++ [x]) [] 1 eq_refl) as Hs'. cbn [app] in Hs'.
      unfold mkslice in Hs. rewrite Hs' in Hs. injection Hs as <-. cbn [vis].
      destruct (Uvarint (init ++ [x])) as [remlen m] eqn:Eu. apply keeps_try. intros y Hy.
      rewrite index_0 in Hy. injection Hy as <-. apply keeps_fin; [done|]. split; [done|]. split; [done|].
      assert (Hxb : is_byte x).
      { apply (Forall_drop _ (Z.to_nat (ccur b))) in Hby. unfold avail in Ha. rewrite Ha in Hby.
        apply Forall_cons in Hby as [_ Hby]. apply Forall_app in Hby as [_ Hby]. by apply Forall_cons in Hby as [? _]. }
      exists b0, init, x, rest. unfold is_byte in Hxb. split_and!; try done; try lia.
      unfold header_total. by rewrite Eu.
Qed.

Definition msg_ok (b : buffer) (sent : list Z) (total : Z) (pc : msg_pc) : Prop :=
  match pc with
  | MgWait k => wait_ok b total k
  | MgLook v => v = VNil \/ view_at b sent v total
  | MgDecode v => view_at b sent v total
  end.

(** a message is decoded from the next [total] bytes *)
Lemma peekMessage_step_ok sp b sent mtype total pc :
  mem_ok b sent -> zlen sent < 2 ^ 62 -> 0 < total -> msg_ok b sent total pc ->
  keeps Consumer b sent (peekMessage_step sp b mtype total pc) (fun b' sent' r =>
    sent' = sent /\ ccur b' = ccur b /\
    match r with
    | Run pc' => msg_ok b' sent' total pc'
    | Fin (Some msg, n, None) =>
        exists v msg0 sp', pc = MgDecode v /\ view_at b sent v total /\ New mtype = inl msg0 /\
          msg_Decode msg0 (Slice (read_view b v) sp') = Ret (msg, n, None)
    | Fin _ => True
    end).
Proof.
  intros Hm Hb Ht Hp. destruct pc as [k|v|v]; cbn [peekMessage_step msg_ok] in *.
  - eapply keeps_through; [apply ok_keeps, ReadWait_step_ok; done| |].
    + intros b' sent' l (-> & Hcc & H). done.
    + intros b' sent' [v [e|]] (-> & Hcc & H); cbn in H; [destruct (bool_decide _)|]; cbn; auto.
  - destruct (total <=? zlen (read_view b v)) eqn:E; apply keeps_run; try done. split; [done|]. split; [done|]. cbn.
    destruct Hp as [->|Hv]; [|done]. change (zlen (read_view b VNil)) with 0 in E. lia.
  - destruct (New mtype) as [msg0|e] eqn:En; [|by apply keeps_fin]. apply keeps_try. intros [[msg n] err] Hd.
    apply keeps_fin; [done|]. split; [done|]. split; [done|]. destruct err; [done|].
    assert (exists sp', view_slice b sp v = Slice (read_view b v) sp') as [sp' Hs] by (destruct v; by eexists).
    rewrite Hs in Hd. by exists v, msg0, sp'.
Qed.

(** ** The system *)

(** a packet the processor has decoded *)
Record packet : Type := mkPacket { pk_type : Z; pk_bytes : list Z; pk_msg : Message }.

Definition packet_ok (p : packet) : Prop :=
  headed (pk_bytes p) (pk_type p) (zlen (pk_bytes p)) /\
  exists sp msg0 n, New (pk_type p) = inl msg0 /\
    msg_Decode msg0 (Slice (pk_bytes p) sp) = Ret (pk_msg p, n, None).

Section Pipe.
Context {TW : Type} `{TimeWheel TW}.
Context (pick : list (list Z) -> option nat) (wpick : list Writer -> option nat) (sp : list Z) (this : Z).

Record pipe : Type := mkPipe {
  pi_mem : buffer;
  pi_world : world TW;
  pi_recv : option recv_pc;
  pi_proc : option proc_pc;
  pi_closer : option close_pc;
  pi_sent : list Z;
  pi_stream : list Z;
  pi_packets : list packet
}.

Definition running {L} (r : next L unit) : option L := match r with Run l => Some l | Fin _ => None end.

(** the stream is known when the receiver begins *)
Definition began (pc : recv_pc) (r : next recv_pc unit) (stream : list Z) : list Z :=
  match pc, r with RvBegin, Run (RvRead (RfTop rd _ _)) => script_bytes rd | _, _ => stream end.

Definition decoded (b : buffer) (pc : proc_pc) (r : next proc_pc unit) : list packet :=
  match pc, r with
  | PrMsg mtype _ (MgDecode v), Run (PrHandle _ msg _) => [mkPacket mtype (read_view b v) msg]
  | _, _ => []
  end.

(** one step of one goroutine; [ps_world]: the other goroutines of the server.  A
    connection delivers bytes; [2^62] of them are not published in one run. *)
Inductive pipe_step : pipe -> pipe -> Prop :=
| ps_recv s pc b w r :
    pi_recv s = Some pc -> zlen (pi_sent s) < 2 ^ 62 ->
    receiver_step this (pi_world s) (pi_mem s) pc = Some (Ret (b, (w, r))) ->
    bytes_ok (began pc r (pi_stream s)) ->
    pipe_step s (mkPipe b w (running r) (pi_proc s) (pi_closer s) (publish (pi_mem s) b (pi_sent s))
                        (began pc r (pi_stream s)) (pi_packets s))
| ps_proc s pc b w r :
    pi_proc s = Some pc -> zlen (pi_sent s) < 2 ^ 62 ->
    processor_step pick wpick sp this (pi_world s) (pi_mem s) pc = Some (Ret (b, (w, r))) ->
    pipe_step s (mkPipe b w (pi_recv s) (running r) (pi_closer s) (publish (pi_mem s) b (pi_sent s))
                        (pi_stream s) (pi_packets s ++ decoded (pi_mem s) pc r))
| ps_closing s :
    pi_closer s = None ->
    pipe_step s (mkPipe (pi_mem s) (pi_world s) (pi_recv s) (pi_proc s) (Some ClDone) (pi_sent s)
                        (pi_stream s) (pi_packets s))
| ps_close s pc b r :
    pi_closer s = Some pc -> close_step Closer (pi_mem s) pc = Some (Ret (b, r)) ->
    pipe_step s (mkPipe b (pi_world s) (pi_recv s) (pi_proc s) (running r) (publish (pi_mem s) b (pi_sent s))
                        (pi_stream s) (pi_packets s))
| ps_world s w :
    pipe_step s (mkPipe (pi_mem s) w (pi_recv s) (pi_proc s) (pi_closer s) (pi_sent s) (pi_stream s) (pi_packets s)).

Inductive pipe_reachable : pipe -> Prop :=
| pr_init cnt sz cnt' b w :
    newBuffer cnt sz = (cnt', inl b) -> sz < 2 ^ 63 ->
    pipe_reachable (mkPipe b w (Some RvBegin) (running (proc_size (peekMessageSize (Some b)))) None [] [] [])
| pr_step s s' : pipe_reachable s -> pipe_step s s' -> pipe_reachable s'.

(** ** The invariant *)

Definition recv_ok (b : buffer) (sent stream : list Z) (o : option recv_pc) : Prop :=
  match o with
  | Some RvBegin => sent = [] /\ stream = []
  | Some (RvRead p) => readfrom_ok b [] sent p /\ rf_left stream p
  | Some (RvFail _) | None => sent `prefix_of` stream
  end.

(** [n]: how many bytes the decoded packets have *)
Definition proc_ok (b : buffer) (sent : list Z) (n : Z) (o : option proc_pc) : Prop :=
  match o with
  | None => True
  | Some (PrSize p) => n = ccur b /\ size_ok b sent p
  | Some (PrMsg mtype total p) => n = ccur b /\ headed (avail b sent) mtype total /\ msg_ok b sent total p
  | Some (PrHandle total _ _) => n = ccur b + total
  | Some (PrCommit total c) => exists c0, n = c0 + total /\ rcommit_ok b c0 total c
  | Some PrDone => n = ccur b
  end.

Definition all_bytes_of (l : list packet) : list Z := concat (map pk_bytes l).

Record pipe_ok (s : pipe) : Prop := {
  po_mem : mem_ok (pi_mem s) (pi_sent s);
  po_recv : recv_ok (pi_mem s) (pi_sent s) (pi_stream s) (pi_recv s);
  po_bytes : bytes_ok (pi_stream s);
  po_proc : proc_ok (pi_mem s) (pi_sent s) (zlen (all_bytes_of (pi_packets s))) (pi_proc s);
  po_packets : Forall packet_ok (pi_packets s);
  po_cut : all_bytes_of (pi_packets s) `prefix_of` pi_sent s;
  po_closer : xstate_ok (pi_mem s) (pi_closer s)
}.

Lemma recv_prefix b sent stream o : recv_ok b sent stream o -> sent `prefix_of` stream.
Proof.
  destruct o as [[|p|e]|]; cbn; try done.
  - by intros [-> ->].
  - intros [H1 H2]. by eapply readfrom_prefix.
Qed.

(** *** Stability *)
Lemma avail_app b sent more : mem_ok b sent -> avail b (sent ++ more) = avail b sent ++ more.
Proof.
  intros Hm. pose proof (mo_sent _ _ Hm). pose proof (mo_cur _ _ Hm). unfold avail.
  apply drop_app_le. unfold zlen in *. lia.
Qed.

Section Stable.
Context (me : thread) (b b' : buffer) (F : frame me b b') (Hme : me <> Consumer).
Context (sent more : list Z) (Hm : mem_ok b sent).

Lemma avail_stable : avail b' (sent ++ more) = avail b sent ++ more.
Proof. rewrite <- avail_app by done. apply avail_ccur. by apply (ccur_stable me). Qed.

Lemma proc_ok_stable n o : proc_ok b sent n o -> proc_ok b' (sent ++ more) n o.
Proof.
  pose proof (ccur_stable me b b' F Hme) as Hc. pose proof avail_stable as Ha.
  destruct o as [[[cnt|cnt k|cnt v]|mtype total p|total msg k|total c|]|]; cbn; rewrite ?Hc, ?Ha; try done.
  - intros (-> & H1 & H2). eauto using conts_app.
  - intros (-> & H1 & H2 & H3). split_and!; try done; try lia; [by apply conts_app|]. by eapply wait_ok_stable.
  - intros (-> & H1 & H2 & H3). split_and!; try done; try lia; [by apply conts_app|]. by eapply view_stable.
  - intros (-> & H1 & H2). split; [done|]. split; [by apply headed_app|].
    destruct p as [k|v|v]; cbn in *.
    + by eapply wait_ok_stable.
    + destruct H2 as [->|H2]; [by left|right]. by eapply view_stable.
    + by eapply view_stable.
  - intros (c0 & -> & H1). exists c0. split; [done|]. by eapply rcommit_ok_stable.
Qed.
End Stable.

Lemma recv_ok_stable me b b' sent stream o :
  frame me b b' -> me <> Producer -> recv_ok b sent stream o -> recv_ok b' sent stream o.
Proof.
  intros F Hme. destruct o as [[|p|e]|]; cbn; try done. intros [H1 H2]. split; [|done].
  by eapply readfrom_ok_stable.
Qed.

(** *** The steps *)
Lemma receiver_step_ok (w : world TW) b sent stream pc :
  mem_ok b sent -> zlen sent < 2 ^ 62 -> recv_ok b sent stream (Some pc) ->
  keeps Producer b sent (receiver_step this w b pc) (fun b' sent' x =>
    recv_ok b' sent' (began pc x.2 stream) (running x.2)).
Proof.
  intros Hm Hb Hp. destruct pc as [|p|e]; cbn [receiver_step].
  - destruct Hp as [-> ->]. apply (keeps_on_world _ _ _ _ _ _ (fun b' s' r => recv_ok b' s' (began RvBegin r []) (running r)));
      [done|]. intros [rd|]; cbn; [|by exists []]. by split.
  - destruct Hp as [H1 H2]. apply (keeps_on_buf _ _ _ _ _ _ _ (fun b' s' r => recv_ok b' s' stream (running r))).
    intros b' r E. unfold call in E. pose proof (ReadFrom_step_ok b [] sent p Hm Hb H1) as Hr.
    destruct (ReadFrom_step b p) as [[[b1 [p'|[[n [e|]] got]]]|]|] eqn:Ep; simplify_eq;
      destruct Hr as (F & M & Hr); pose proof (ReadFrom_left _ _ _ _ _ Ep H2) as Hl; cbn in Hl; split_and!; try done.
    + destruct Hr as (gs & bs & -> & ->). destruct Hl as [Hl _]. cbn. etrans; [|exact Hl]. by apply prefix_app_r.
    + by destruct Hl.
  - apply (keeps_on_world _ _ _ _ _ _ (fun b' s' r => recv_ok b' s' stream (running r))); done.
Qed.

(** the packet a step decodes is the next one *)
Definition new_ok (sent : list Z) (n : Z) (l : list packet) : Prop :=
  Forall packet_ok l /\ all_bytes_of l `prefix_of` drop (Z.to_nat n) sent.

Lemma new_nil sent n : new_ok sent n [].
Proof. split; [constructor|apply prefix_nil]. Qed.

Definition proc_post (sent : list Z) (n : Z) (l : list packet) (b : buffer) (sent' : list Z) (r : next proc_pc unit) : Prop :=
  sent' = sent /\ proc_ok b sent (n + zlen (all_bytes_of l)) (running r) /\ new_ok sent n l.

Lemma proc_post_nil sent n b r : proc_ok b sent n (running r) -> proc_post sent n [] b sent r.
Proof. intros Hp. split; [done|]. split; [by rewrite Z.add_0_r|apply new_nil]. Qed.

Lemma proc_decode_ok (w : world TW) b sent mtype total p :
  mem_ok b sent -> zlen sent < 2 ^ 62 -> headed (avail b sent) mtype total -> msg_ok b sent total p ->
  keeps Consumer b sent (processor_step pick wpick sp this w b (PrMsg mtype total p)) (fun b' sent' x =>
    proc_post sent (ccur b) (decoded b (PrMsg mtype total p) x.2) b' sent' x.2).
Proof.
  intros Hm Hb Hh Hp. assert (Ht : 0 < total).
  { destruct Hh as (b0 & init & last & rest & _ & Hf & Hl & Hz & _ & ->).
    pose proof (header_total_min init last Hz Hf Hl). pose proof (zlen_nonneg init). lia. }
  apply (keeps_on_buf _ _ _ _ _ _ _ (fun b' s' r =>
    proc_post sent (ccur b) (decoded b (PrMsg mtype total p) r) b' s' r)).
  eapply keeps_through; [by apply (peekMessage_step_ok sp b sent mtype total)| |].
  - intros b' sent' l (-> & Hc & H1).
    assert (decoded b (PrMsg mtype total p) (Run (PrMsg mtype total l)) = []) as -> by (by destruct p).
    apply proc_post_nil. cbn. rewrite Hc. split; [done|]. split; [|done]. by rewrite (avail_ccur b b').
  - intros b' sent' [[[msg|] k] [e|]] (-> & Hc & H1); cbn [proc_msg];
      try (assert (decoded b (PrMsg mtype total p) (Fin tt) = []) as -> by (by destruct p); by apply proc_post_nil).
    destruct H1 as (v & msg0 & sp' & -> & Hv & Hn & Hd). cbn [decoded].
    destruct (view_avail _ _ _ _ Hm Hv) as [Hr Hl]. unfold proc_post, all_bytes_of. cbn [map concat pk_bytes running].
    rewrite app_nil_r, Hr, zlen_take, Z2Nat.id, Z.min_l by lia.
    split; [done|]. split; [cbn; lia|]. split.
    + apply Forall_cons. split; [|constructor]. split; cbn.
      * rewrite zlen_take, Z2Nat.id, Z.min_l by lia. by apply headed_take.
      * rewrite Hr in Hd. by exists sp', msg0, k.
    + unfold all_bytes_of. cbn. rewrite app_nil_r. apply prefix_take.
Qed.

Lemma processor_step_ok (w : world TW) b sent n pc :
  mem_ok b sent -> zlen sent < 2 ^ 62 -> bytes_ok sent -> proc_ok b sent n (Some pc) ->
  keeps Consumer b sent (processor_step pick wpick sp this w b pc) (fun b' sent' x =>
    proc_post sent n (decoded b pc x.2) b' sent' x.2).
Proof.
  intros Hm Hb Hby Hp. destruct pc as [p|mtype total p|total msg k|total c|].
  - destruct Hp as [-> Hs]. apply (keeps_on_buf _ _ _ _ _ _ _ (fun b' s' r => proc_post sent (ccur b) [] b' s' r)).
    eapply keeps_through; [by apply peekMessageSize_step_ok| |].
    + intros b' sent' l (-> & Hc & H1). apply proc_post_nil. by rewrite <- Hc.
    + intros b' sent' [[mtype total]|e] (-> & Hc & H1); apply proc_post_nil; [|done]. cbn. by rewrite <- Hc.
  - destruct Hp as (-> & Hh & Hp). by apply proc_decode_ok.
  - apply (keeps_on_world _ _ _ _ _ _ (fun b' s' r => proc_post sent n [] b' s' r)); [done|].
    intros err. apply proc_post_nil. destruct (bool_decide _); cbn; [done|]. exists (ccur b). cbn in Hp. split; [lia|done].
  - destruct Hp as (c0 & -> & Hc).
    apply (keeps_on_buf _ _ _ _ _ _ _ (fun b' s' r => proc_post sent (c0 + total) [] b' s' r)).
    eapply keeps_through; [apply ok_keeps; by apply (ReadCommit_step_ok b sent c0)| |].
    + intros b' sent' l (-> & H1). apply proc_post_nil. by exists c0.
    + intros b' sent' [m [e|]] (-> & H1); apply proc_post_nil; cbn; [done|]. cbn in H1. lia.
  - apply (keeps_on_world _ _ _ _ _ _ (fun b' s' r => proc_post sent n [] b' s' r)); [done|].
    intros d. apply proc_post_nil. destruct (_ && _); cbn; [done|]. split; [done|]. split; [lia|apply conts_2].
Qed.

Lemma pipe_step_ok s s' : pipe_ok s -> pipe_step s s' -> pipe_ok s'.
Proof.
  intros P Hstep. destruct Hstep as [s0 pc b w r Hpc Hb Hs Hby|s0 pc b w r Hpc Hb Hs|s0 Hc|s0 pc b r Hpc Hs|s0 w];
    destruct P as [P1 P2 P3 P4 P5 P6 P7].
  - rewrite Hpc in P2. destruct (receiver_step_ok _ _ _ _ _ P1 Hb P2 _ _ Hs) as (F & M & Hr). cbn [snd] in Hr.
    destruct (publish_prefix (pi_mem s0) b (pi_sent s0)) as [more Em]. split; cbn; try done.
    + rewrite Em. by eapply proc_ok_stable.
    + rewrite Em. by apply prefix_app_r.
    + by eapply xstate_ok_stable.
  - rewrite Hpc in P4. assert (Hbs : bytes_ok (pi_sent s0)).
    { apply recv_prefix in P2 as [k Hk]. rewrite Hk in P3. by apply Forall_app in P3 as [? _]. }
    destruct (processor_step_ok _ _ _ _ _ P1 Hb Hbs P4 _ _ Hs) as (F & M & Ep & Hp & Hn & Hcut).
    cbn [snd] in *. rewrite Ep in *.
    assert (Hall : forall l k, all_bytes_of (l ++ k) = all_bytes_of l ++ all_bytes_of k).
    { intros l k. unfold all_bytes_of. by rewrite map_app, concat_app. }
    split; cbn [pi_mem pi_sent pi_stream pi_recv pi_proc pi_packets pi_closer]; rewrite ?Hall; try done.
    + by eapply recv_ok_stable.
    + by rewrite zlen_app.
    + by apply Forall_app.
    + destruct P6 as [k Hk]. rewrite Hk in Hcut |- *. rewrite drop_zlen_app in Hcut by done.
      by apply prefix_app.
    + by eapply xstate_ok_stable.
  - by split.
  - rewrite Hpc in P7. pose proof (close_step_ok Closer _ _ _ P1 P7) as Hk. rewrite Hs in Hk.
    destruct Hk as (F & M & _ & Ep & Hx). rewrite Ep in *. split; cbn; try done.
    + by eapply recv_ok_stable.
    + rewrite <- (app_nil_r (pi_sent s0)). by eapply proc_ok_stable.
    + by destruct r.
  - by split.
Qed.

Lemma pipe_reachable_ok s : pipe_reachable s -> pipe_ok s.
Proof.
  induction 1 as [cnt sz cnt' b w Hn Hsz|s s' Hr IH Hs]; [|by eapply pipe_step_ok].
  destruct (newBuffer_ok _ _ _ _ Hn Hsz) as [M _ _ _]. split; cbn; try done.
  pose proof (mo_cur _ _ M). pose proof (mo_sent _ _ M) as Hp. cbn in *. change (zlen (@nil Z)) with 0 in *.
  split; [lia|]. split; [lia|apply conts_2].
Qed.

End Pipe.

(** ** The receive loop on the same stream *)

(** rounds of [getPeekMessageSize] and [getPeekMessage] that find these packets *)
Inductive live_cuts (d : Z) : Reader -> Conn -> list packet -> Prop :=
| lc_nil r c : live_cuts d r c []
| lc_cons r c p l r1 c1 r2 c2 :
    getPeekMessageSize d r c = Ret (inl (pk_type p, zlen (pk_bytes p)), r1, c1) ->
    getPeekMessage d r1 c1 (pk_type p) (zlen (pk_bytes p)) =
      (match New (pk_type p) with
       | inr e => Ret (None, 0, Some e, r2, c2)
       | inl msg => let! (msg, n, err) := msg_Decode msg (mkslice (pk_bytes p)) in Ret (Some msg, n, err, r2, c2)
       end) ->
    live_cuts d r2 c2 l -> live_cuts d r c (p :: l).

Lemma live_cuts_packets d l : forall r c rest,
  reader_ok defaultReadSize r c -> Forall packet_ok l -> ahead r c = all_bytes_of l ++ rest -> live_cuts d r c l.
Proof.
  induction l as [|p l IH]; intros r c rest Hr Hl Ha; [constructor|]. apply Forall_cons in Hl as [Hp Hl].
  change (all_bytes_of (p :: l)) with (pk_bytes p ++ all_bytes_of l) in Ha. rewrite <- app_assoc in Ha.
  destruct (proj1 Hp) as (b & init & last & body & Hb & Hf & Hlt & Hz & Ht & Htot).
  destruct (getPeekMessageSize_header d r c b init last (body ++ all_bytes_of l ++ rest)) as (r1 & c1 & H1 & Hr1 & _ & Ha1);
    try done; try lia.
  { rewrite Ha, Hb. cbn [app]. by rewrite <- app_assoc. }
  destruct (getPeekMessage_bytes d r1 c1 (pk_type p) (pk_bytes p) (all_bytes_of l ++ rest) Hr1 ltac:(congruence))
    as (r2 & c2 & H2 & Ha2 & Hr2 & _).
  eapply lc_cons; [rewrite H1, Ht, Htot; done|exact H2|]. by eapply IH.
Qed.

(** C6: The goroutines around the ring buffer take the stream apart as the receive loop
    does.  In every interleaving of the receiver, the processor, a closer and the
    rest of the server: what is published is a prefix of what the connection
    delivered; the packets the processor has decoded are, byte for byte and in
    order, a prefix of what is published, so none is lost, repeated or cut
    differently; each was decoded from exactly its bytes; and
    [getPeekMessageSize] with [getPeekMessage], on a connection with the same
    stream, find the same packets with the same types. *)
Theorem processor_cuts_stream {TW} `{TimeWheel TW} pick wpick sp this (s : pipe (TW:=TW)) d r c :
  pipe_reachable pick wpick sp this s ->
  reader_ok defaultReadSize r c -> ahead r c = pi_stream s ->
  all_bytes_of (pi_packets s) `prefix_of` pi_sent s /\ pi_sent s `prefix_of` pi_stream s /\
  Forall (fun p => exists sp' msg0 n, New (pk_type p) = inl msg0 /\
    msg_Decode msg0 (Slice (pk_bytes p) sp') = Ret (pk_msg p, n, None)) (pi_packets s) /\
  live_cuts d r c (pi_packets s).
Proof.
  intros Hs Hr Ha. destruct (pipe_reachable_ok _ _ _ _ _ Hs) as [P1 P2 P3 P4 P5 P6 P7].
  apply recv_prefix in P2. split; [done|]. split; [done|]. split.
  - eapply Forall_impl; [exact P5|]. by intros p [_ Hp].
  - destruct P6 as [k1 H1], P2 as [k2 H2]. eapply live_cuts_packets; [done..|].
    by rewrite Ha, H2, H1, <- app_assoc.
Qed.

(** ** A run *)

(** a step of the receiver or of the processor, unless it is blocked *)
Definition pipe_next (this : Z) (t : thread) (s : pipe (TW:=simple_wheel)) : option (pipe (TW:=simple_wheel)) :=
  if zlen (pi_sent s) <? 2 ^ 62 then
    match t with
    | Producer =>
        match pi_recv s with
        | None => None
        | Some pc =>
            match receiver_step this (pi_world s) (pi_mem s) pc with
            | Some (Ret (b, (w, r))) =>
                let stream := began pc r (pi_stream s) in
                if forallb (fun x => (0 <=? x) && (x <? 256)) stream then
                  Some (mkPipe b w (running r) (pi_proc s) (pi_closer s) (publish (pi_mem s) b (pi_sent s)) stream
                               (pi_packets s))
                else None
            | _ => None
            end
        end
    | Consumer =>
        match pi_proc s with
        | None => None
        | Some pc =>
            match processor_step no_pick no_pick [] this (pi_world s) (pi_mem s) pc with
            | Some (Ret (b, (w, r))) =>
                Some (mkPipe b w (pi_recv s) (running r) (pi_closer s) (publish (pi_mem s) b (pi_sent s))
                             (pi_stream s) (pi_packets s ++ decoded (pi_mem s) pc r))
            | _ => None
            end
        end
    | Closer => None
    end
  else None.

Fixpoint pipe_exec (this : Z) (ts : list thread) (s : pipe (TW:=simple_wheel)) : option (pipe (TW:=simple_wheel)) :=
  match ts with
  | [] => Some s
  | t :: ts => match pipe_next this t s with Some s => pipe_exec this ts s | None => None end
  end.

Lemma pipe_next_step this t s s' : pipe_next this t s = Some s' -> pipe_step no_pick no_pick [] this s s'.
Proof.
  unfold pipe_next. destruct (zlen (pi_sent s) <? 2 ^ 62) eqn:Eb; [|done]. destruct t; [| |done].
  - destruct (pi_recv s) as [pc|] eqn:Ep; [|done].
    destruct (receiver_step _ _ _ _) as [[[b [w r]]|]|] eqn:Es; [|done..]. cbv zeta.
    destruct (forallb _ _) eqn:Ef; [|done]. intros [= <-]. apply (ps_recv _ _ _ _ s pc b w r Ep); [lia|done|].
    apply Forall_forall. intros x Hx. rewrite forallb_forall in Ef. specialize (Ef x). rewrite <- list_elem_of_In in Ef.
    apply Ef in Hx. unfold is_byte. lia.
  - destruct (pi_proc s) as [pc|] eqn:Ep; [|done].
    destruct (processor_step _ _ _ _ _ _ _) as [[[b [w r]]|]|] eqn:Es; [|done..]. intros [= <-].
    apply ps_proc; [done|lia|done].
Qed.

Lemma pipe_exec_reachable this ts : forall s s', pipe_reachable no_pick no_pick [] this s ->
  pipe_exec this ts s = Some s' -> pipe_reachable no_pick no_pick [] this s'.
Proof.
  induction ts as [|t ts IH]; cbn; intros s s' Hr H; [by simplify_eq|].
  destruct (pipe_next this t s) as [s1|] eqn:E; [|done]. eapply IH; [|exact H].
  eapply pr_step; [exact Hr|by eapply pipe_next_step].
Qed.

(** a PINGREQ and a PUBACK, the second cut by the network *)
Definition two_packets : world simple_wheel := d1_up 1000 [] [[192; 0; 64]; [2; 0; 9]] EOF.

Definition two_start : pipe :=
  mkPipe fresh two_packets (Some RvBegin) (running (proc_size (peekMessageSize (Some fresh)))) None [] [] [].

(** the processor sleeps between the two segments *)
Definition pipe_run : list thread := replicate 11 Producer ++ replicate 25 Consumer ++ replicate 11 Producer ++ replicate 14 Consumer.

Lemma two_reached : exists s, pipe_reachable no_pick no_pick [] 1 s /\
  map pk_bytes (pi_packets s) = [[192; 0]; [64; 2; 0; 9]] /\ pi_stream s = [192; 0; 64; 2; 0; 9].
Proof.
  assert (Hc : match pipe_exec 1 pipe_run two_start with
               | Some s => bool_decide (map pk_bytes (pi_packets s) = [[192; 0]; [64; 2; 0; 9]] /\
                                        pi_stream s = [192; 0; 64; 2; 0; 9])
               | None => false end = true) by (vm_compute; reflexivity).
  destruct (pipe_exec 1 pipe_run two_start) as [s|] eqn:E; [|done]. exists s. apply bool_decide_eq_true in Hc.
  split; [|exact Hc]. eapply pipe_exec_reachable; [|exact E]. eapply pr_init; [exact fresh_new|lia].
Qed.

Lemma processor_cuts_stream_witness : exists s : pipe (TW:=simple_wheel),
  map pk_bytes (pi_packets s) = [[192; 0]; [64; 2; 0; 9]] /\
  live_cuts 7 NewReader (dial [[192]; [0; 64; 2; 0]; [9]] EOF) (pi_packets s).
Proof.
  destruct two_reached as (s & Hr & Hp & Hs). exists s. split; [exact Hp|].
  apply (processor_cuts_stream no_pick no_pick [] 1 s 7 NewReader (dial [[192]; [0; 64; 2; 0]; [9]] EOF) Hr).
  - split; [reflexivity|]. split; [vm_compute; discriminate|]. split; [repeat constructor; discriminate|reflexivity].
  - rewrite Hs. reflexivity.
Defined.

(** ** [readMessage] takes more than the packet

    After a longer packet [intmp] has four bytes: the PINGREQ is read together with
    half of the PUBACK behind it. *)
Fixpoint read_run (n : nat) (mtype total : Z) (b : buffer) (pc : rmsg_pc) : option (buffer * (option Message * Z * option error)) :=
  match n with
  | O => None
  | S n =>
      match readMessage_step b mtype total pc with
      | Some (Ret (b, Run pc)) => read_run n mtype total b pc
      | Some (Ret (b, Fin (_, r))) => Some (b, r)
      | _ => None
      end
  end.

Definition half_read : buffer :=
  with_pcur 6 (with_buf ([192; 0; 64; 2; 0; 9] ++ replicate (Z.to_nat (size fresh - 6)) 0) fresh).

Lemma read_message_swallows : exists b msg,
  read_run 30 12 2 half_read (RmTop [0; 0; 0; 0] 0) = Some (b, (Some (MPingreq msg), 2, None)) /\ ccur b = 4.
Proof.
  assert (Hc : match read_run 30 12 2 half_read (RmTop [0; 0; 0; 0] 0) with
               | Some (b, (Some (MPingreq _), n, None)) => (ccur b =? 4) && (n =? 2)
               | _ => false end = true) by (vm_compute; reflexivity).
  destruct (read_run _ _ _ _ _) as [[b [[[[]|] n] [e|]]]|]; try done. eexists b, _. split; [|lia]. repeat f_equal; lia.
Qed.
