(* ===== verification/Outgoing.v ===== *)
(** * Outgoing: the writers and the sender around the outgoing buffer

    Any number of goroutines call [writeMessage] of one service, the [sender] moves
    the buffer to the connection, something may close the buffer, and the rest of
    the server changes the world and the counter of packet identifiers: every
    interleaving.  The theorem is that the mutex [wmu] makes each packet appear
    whole.

    Ghost state: [sent], what is published; [staged], what the holder of [wmu] has
    encoded; [log], the messages that have been published, with their bytes;
    [returned], the messages whose call has returned without an error. *)
From stdpp Require Import base list strings gmap.
From Stdlib Require Import ZArith Lia.
From S2P Require Import Prelude GoLang NetConn Framing Connectivity World MsgTypes Header Message Encoding Service Server.
From S2P Require Import Sample Buffer BufferSpec BufferSys Sendrecv.

Section Outgoing.
Context {TW : Type} `{TimeWheel TW}.
Context (wr : writer) (this : Z).

(** a call of [writeMessage] that has computed [Len] *)
Record writing : Type := mkWriting { wt_msg : Message; wt_len : Z; wt_pc : wm_pc }.

Definition wt_at (x : writing) (pc : wm_pc) : writing := mkWriting (wt_msg x) (wt_len x) pc.

Record outs : Type := mkOuts {
  ou_mem : buffer;
  ou_st : outgoing;
  ou_writers : gmap nat writing;
  ou_sender : option send_pc;
  ou_closer : option close_pc;
  ou_world : world TW;
  ou_sent : list Z;
  ou_staged : list Z;
  ou_log : list (Message * list Z);
  ou_returned : list Message
}.

Definition out_running {L} (r : next L unit) : option L := match r with Run l => Some l | Fin _ => None end.

Definition stage (pc : wm_pc) (b : buffer) (r : next wm_pc (Z * option error)) (old : list Z) : list Z :=
  match pc, r with
  | WmTmp, Run (WmWrite p _) => p
  | WmEnc v, Run (WmCommit n _) => take (Z.to_nat n) (read_view b v)
  | _, _ => old
  end.

(** the step that moves the cursor *)
Definition publishing (pc : wm_pc) : bool :=
  match pc with WmWrite _ (WrSet _ _) | WmCommit _ (CmSet _ _) => true | _ => false end.

Definition success (msg : Message) (r : next wm_pc (Z * option error)) : list Message :=
  match r with Fin (_, None) => [msg] | _ => [] end.

(** A message comes from [New] or a decoder; its length is the length of a slice. *)
Inductive out_step : outs -> outs -> Prop :=
| os_call s i msg0 msg l pc :
    ou_writers s !! i = None -> (is_bare msg0 = true -> dirty (msg_hdr msg0) = true) ->
    writeMessage (Some (ou_mem s)) msg0 = Ret (msg, l, Run pc) -> 0 <= l < 2 ^ 62 ->
    out_step s (mkOuts (ou_mem s) (ou_st s) (<[i:=mkWriting msg l pc]> (ou_writers s)) (ou_sender s) (ou_closer s)
                       (ou_world s) (ou_sent s) (ou_staged s) (ou_log s) (ou_returned s))
| os_write s i x b o r :
    ou_writers s !! i = Some x -> zlen (ou_sent s) < 2 ^ 62 ->
    writeMessage_step i (wt_msg x) (wt_len x) (ou_mem s) (ou_st s) (wt_pc x) = Some (Ret (b, (o, r))) ->
    out_step s (mkOuts b o (match r with Run pc => <[i:=wt_at x pc]> (ou_writers s) | Fin _ => delete i (ou_writers s) end)
                       (ou_sender s) (ou_closer s) (ou_world s) (publish (ou_mem s) b (ou_sent s))
                       (stage (wt_pc x) b r (ou_staged s))
                       (if publishing (wt_pc x) then ou_log s ++ [(wt_msg x, ou_staged s)] else ou_log s)
                       (ou_returned s ++ success (wt_msg x) r))
| os_send s pc b w r :
    ou_sender s = Some pc -> zlen (ou_sent s) < 2 ^ 62 ->
    sender_step wr this (ou_world s) (ou_mem s) pc = Some (Ret (b, (w, r))) ->
    out_step s (mkOuts b (ou_st s) (ou_writers s) (out_running r) (ou_closer s) w (publish (ou_mem s) b (ou_sent s))
                       (ou_staged s) (ou_log s) (ou_returned s))
| os_closing s :
    ou_closer s = None ->
    out_step s (mkOuts (ou_mem s) (ou_st s) (ou_writers s) (ou_sender s) (Some ClDone) (ou_world s) (ou_sent s)
                       (ou_staged s) (ou_log s) (ou_returned s))
| os_close s pc b r :
    ou_closer s = Some pc -> close_step Closer (ou_mem s) pc = Some (Ret (b, r)) ->
    out_step s (mkOuts b (ou_st s) (ou_writers s) (ou_sender s) (out_running r) (ou_world s)
                       (publish (ou_mem s) b (ou_sent s)) (ou_staged s) (ou_log s) (ou_returned s))
| os_rest s w g :
    0 <= g ->
    out_step s (mkOuts (ou_mem s) (og_set_gid g (ou_st s)) (ou_writers s) (ou_sender s) (ou_closer s) w (ou_sent s)
                       (ou_staged s) (ou_log s) (ou_returned s)).

Inductive out_reachable : outs -> Prop :=
| or_init cnt sz cnt' b w g st :
    newBuffer cnt sz = (cnt', inl b) -> sz < 2 ^ 63 -> 0 <= g ->
    out_reachable (mkOuts b (mkOutgoing g [] None st) ∅ (Some SdBegin) None w [] [] [] [])
| or_step s s' : out_reachable s -> out_step s s' -> out_reachable s'.

(** ** The invariant *)

(** [p] is what a successful [Encode] of [msg] wrote, and as long as [Len] said *)
Definition encoded (x : Message * list Z) : Prop :=
  exists msg0 g dst msg' g' d, msg_Len msg0 = Ret (x.1, zlen x.2) /\
    msg_Encode x.1 g dst = Ret (msg', g', d, zlen x.2, None) /\ x.2 = take (length x.2) d.

(** a caller has a message with its length *)
Definition call_ok (x : writing) : Prop :=
  0 <= wt_len x < 2 ^ 62 /\
  exists msg0, (is_bare msg0 = true -> dirty (msg_hdr msg0) = true) /\ msg_Len msg0 = Ret (wt_msg x, wt_len x).

(** the holder of [wmu]; [base] had been published when it took the mutex *)
Definition holder_ok (b : buffer) (base sent staged : list Z) (x : writing) : Prop :=
  match wt_pc x with
  | WmLock => False
  | WmWait w => sent = base /\ wfs_ok b (wt_len x) w
  | WmTmp => sent = base
  | WmEnc v => sent = base /\ v = VBuf (pcur b mod size b) (wt_len x) /\ grant_ok b v
  | WmWrite p c => p = staged /\ zlen p < 2 ^ 62 /\ encoded (wt_msg x, p) /\ write_ok b base sent p c
  | WmCommit n c => n = zlen staged /\ n < 2 ^ 62 /\ encoded (wt_msg x, staged) /\ commit_ok b sent base staged c
  end.

Definition wire_of (l : list (Message * list Z)) : list Z := concat (map snd l).

Definition waiting (x : writing) : Prop := wt_pc x = WmLock.

(** at most one writer is past [Lock], and it is the holder *)
Definition writers_ok (b : buffer) (sent staged : list Z) (m : gmap nat writing) (h : option nat) : Prop :=
  map_Forall (fun _ => call_ok) m /\
  match h with
  | None => map_Forall (fun _ => waiting) m
  | Some i => exists x base, m !! i = Some x /\ holder_ok b base sent staged x /\
                map_Forall (fun j y => j <> i -> waiting y) m
  end.

(** [WriteTo] only returns errors *)
Definition wt_failing (pc : writeto_pc) : Prop := match pc with WtClose _ (_, err) _ => err <> None | _ => True end.

Definition sender_ok (b : buffer) (sent : list Z) (o : option send_pc) : Prop :=
  match o with
  | Some (SdWrite p) => writeto_ok b 0 sent p /\ wt_failing p
  | Some SdBegin => ccur b = 0
  | _ => True
  end.

(** the holder is about to return *)
Definition announced (pc : wm_pc) : bool :=
  match pc with WmWrite _ (WrSig _ _) | WmCommit _ (CmSig _ _) => true | _ => false end.

Definition flag (c : bool) (msg : Message) : list Message := if c then [msg] else [].

Definition in_flight (m : gmap nat writing) (h : option nat) : list Message :=
  match h with
  | Some i => match m !! i with Some x => flag (announced (wt_pc x)) (wt_msg x) | None => [] end
  | None => []
  end.

Record outs_ok (s : outs) : Prop := {
  oo_mem : mem_ok (ou_mem s) (ou_sent s);
  oo_gid : 0 <= og_gid (ou_st s);
  oo_writers : writers_ok (ou_mem s) (ou_sent s) (ou_staged s) (ou_writers s) (og_wmu (ou_st s));
  oo_sender : sender_ok (ou_mem s) (ou_sent s) (ou_sender s);
  oo_closer : xstate_ok (ou_mem s) (ou_closer s);
  oo_log : Forall encoded (ou_log s);
  oo_sent : ou_sent s = wire_of (ou_log s);
  oo_returned : map fst (ou_log s) = ou_returned s ++ in_flight (ou_writers s) (og_wmu (ou_st s))
}.

(** ** The writers' steps *)

(** only the step that sets the cursor publishes *)
Lemma Write_publishes b base sent p c b' r :
  mem_ok b sent -> zlen sent < 2 ^ 62 -> zlen p < 2 ^ 62 -> write_ok b base sent p c ->
  Write_step b p c = Some (Ret (b', r)) ->
  publish b b' sent = if publishing (WmWrite p c) then sent ++ p else sent.
Proof.
  intros Hm Hb Hl Hp E. pose proof (Write_step_ok b base sent p c Hm Hb Hl Hp) as Hok. rewrite E in Hok.
  destruct Hok as (_ & _ & Hq). destruct c as [|w|start|start total|sg total]; cbn [Write_step write_ok publishing] in *;
    unfold run, fin, call, try in E.
  - destruct (isDone b); simplify_eq; cbn in Hq; naive_solver.
  - destruct Hp as [<- _]. destruct (wfs_step b (zlen p) w) as [[[b1 [w'|[[st cnt] [e|]]]]|]|]; simplify_eq; cbn in Hq; naive_solver.
  - destruct Hp as [<- _]. destruct (ringCopy _ _ _) as [[d n]|]; cbn [try] in E; simplify_eq. apply Hq.
  - destruct Hp as [<- _]. simplify_eq. apply Hq.
  - destruct Hp as [-> _]. destruct (signal_step _ _ _ b sg) as [[[b1 [s'|[]]]|]|]; simplify_eq; apply Hq.
Qed.

Lemma Commit_publishes b base sent p c b' r :
  mem_ok b sent -> zlen sent < 2 ^ 62 -> zlen p < 2 ^ 62 -> commit_ok b sent base p c ->
  WriteCommit_step b (zlen p) c = Some (Ret (b', r)) ->
  publish b b' sent = if publishing (WmCommit (zlen p) c) then sent ++ p else sent.
Proof.
  intros Hm Hb Hl Hp E. pose proof (WriteCommit_step_ok b sent base p c Hm Hb Hl Hp) as Hok. rewrite E in Hok.
  destruct Hok as (_ & _ & Hq). destruct c as [w|start cnt|sg cnt]; cbn [WriteCommit_step commit_ok publishing] in *;
    unfold run, fin, call in E.
  - destruct Hp as (_ & <- & _). destruct (wfs_step b (zlen p) w) as [[[b1 [w'|[[st k] [e|]]]]|]|]; simplify_eq; cbn in Hq; naive_solver.
  - destruct Hp as (_ & _ & _ & <- & _). simplify_eq. apply Hq.
  - destruct Hp as (_ & _ & ->). destruct (signal_step _ _ _ b sg) as [[[b1 [s'|[]]]|]|]; simplify_eq; apply Hq.
Qed.

(** encoding into the slots a [WriteWait] has granted *)
Lemma encode_ring b sent l d ring :
  mem_ok b sent -> grant_ok b (VBuf (pcur b mod size b) l) -> zlen d = l ->
  put (buf b) (pcur b mod size b) d = Ret ring ->
  frame Producer b (with_buf ring b) /\ mem_ok (with_buf ring b) sent /\
  ring_range (with_buf ring b) (pcur b) l = d /\ read_view (with_buf ring b) (VBuf (pcur b mod size b) l) = d.
Proof.
  intros Hm (_ & Hl & Hfit & Hroom) Hd Hput. pose proof (mem_pos _ _ Hm) as Hsz. pose proof (mo_buf _ _ Hm) as Hbuf.
  assert (Hv : read_view (with_buf ring b) (VBuf (pcur b mod size b) l) = d).
  { cbn. unfold put in Hput. destruct (_ && _) eqn:E in Hput; [|done]. injection Hput as <-.
    rewrite drop_app_ge by zl.
    replace (Z.to_nat (pcur b mod size b) - length (take (Z.to_nat (pcur b mod size b)) (buf b)))%nat with 0%nat by zl.
    rewrite drop_0. apply take_zlen_app. done. }
  apply (put_ring _ _ _ _ (size b)) in Hput as (Hr & Hin & Hout); [|done|lia].
  destruct (with_buf_ok b sent ring l Hm Hroom Hr) as [F M]; [by rewrite Hd in Hout|].
  split; [done|]. split; [done|]. split; [|done].
  apply zat_ext; rewrite zlen_ring_range by lia; [done|]. intros i Hi. rewrite zat_ring_range by lia. apply Hin. lia.
Qed.

(** what a step of the holder [i] of [wmu] leaves *)
Definition turn_ok (i : nat) (x : writing) (b : buffer) (sent staged : list Z)
    (b' : buffer) (o' : outgoing) (r : next wm_pc (Z * option error)) : Prop :=
  let sent' := publish b b' sent in
  frame Producer b b' /\ mem_ok b' sent' /\ 0 <= og_gid o' /\
  match r with
  | Run pc => og_wmu o' = Some i /\ exists base, holder_ok b' base sent' (stage (wt_pc x) b' r staged) (wt_at x pc)
  | Fin _ => og_wmu o' = None
  end /\
  (publishing (wt_pc x) = true -> encoded (wt_msg x, staged)) /\
  sent' = if publishing (wt_pc x) then sent ++ staged else sent.

(** the memory is not touched *)
Lemma turn_here i x b sent staged o' r :
  mem_ok b sent -> 0 <= og_gid o' -> publishing (wt_pc x) = false ->
  match r with
  | Run pc => og_wmu o' = Some i /\ exists base, holder_ok b base sent (stage (wt_pc x) b r staged) (wt_at x pc)
  | Fin _ => og_wmu o' = None
  end ->
  turn_ok i x b sent staged b o' r.
Proof.
  intros Hm Hg Hp Hr. unfold turn_ok. rewrite publish_same by done. rewrite Hp.
  split; [apply quiet_frame, quiet_refl|]. done.
Qed.

Section Holder.
Context (i : nat) (x : writing) (b : buffer) (o : outgoing) (sent staged base : list Z).
Context (Hm : mem_ok b sent) (Hb : zlen sent < 2 ^ 62) (Hg : 0 <= og_gid o) (Hheld : og_wmu o = Some i).
Context (Hcall : call_ok x) (Hx : holder_ok b base sent staged x).
Context (b' : buffer) (o' : outgoing) (r : next wm_pc (Z * option error)).
Context (E : writeMessage_step i (wt_msg x) (wt_len x) b o (wt_pc x) = Some (Ret (b', (o', r)))).

Lemma holder_wait w : wt_pc x = WmWait w -> turn_ok i x b sent staged b' o' r.
Proof.
  intros Hpc. rewrite Hpc in E. unfold holder_ok in Hx. rewrite Hpc in Hx. destruct Hx as [Hs Hw]. destruct Hcall as [Hl _].
  cbn [writeMessage_step] in E. pose proof (WriteWait_step_ok b sent _ w Hm Hb Hl Hw) as Hk.
  destruct (WriteWait_step b (wt_len x) w) as [[[b1 r1]|]|]; [|done..]. destruct Hk as (F & M & Hsame & Hk).
  unfold turn_ok. destruct r1 as [w'|[[v wrap] [e|]]]; unfold wm_run, wm_return in E; simplify_eq; rewrite Hpc, Hsame in *;
    split_and!; try done.
  - exists base. by split.
  - destruct Hk as [Hv Hk]. exists base. destruct wrap; cbn; [done|]. subst v. by split.
Qed.

Lemma holder_tmp : wt_pc x = WmTmp -> turn_ok i x b sent staged b' o' r.
Proof.
  intros Hpc. rewrite Hpc in E. unfold holder_ok in Hx. rewrite Hpc in Hx. destruct Hcall as (Hl & msg0 & Hd & HL).
  cbn [writeMessage_step] in E. set (tmp := if _ <? _ then _ else _) in E.
  destruct (msg_Encode _ _ _) as [[[[[m2 g2] d] n] [e|]]|] eqn:HE; [|..|done]; cbn [try] in E; unfold wm_return, wm_run in E;
    pose proof (encode_gid _ _ _ _ _ _ _ _ Hg HE) as Hg2.
  - simplify_eq. apply turn_here; try done. by rewrite Hpc.
  - destruct (encode_len _ _ _ _ _ _ _ _ _ Hg Hd HL HE) as (Hz & -> & Hn).
    destruct (subslice d 0 (wt_len x)) as [p|] eqn:Es; [|done]. cbn [try] in E. simplify_eq.
    unfold subslice in Es. destruct (_ && _) in Es; [|done]. injection Es as <-.
    rewrite drop_0, Z.sub_0_r in *. set (p := take _ _) in *. assert (Hp : zlen p = wt_len x) by (unfold p; zl).
    apply turn_here; try done; [by rewrite Hpc|]. split; [done|]. exists base. rewrite Hpc. cbn. split; [done|]. split; [lia|].
    split; [|done]. eexists msg0, _, _, _, _, d. cbn. rewrite Hp. split; [exact HL|]. split; [exact HE|].
    unfold p. f_equal. zl.
Qed.

Lemma holder_enc v : wt_pc x = WmEnc v -> turn_ok i x b sent staged b' o' r.
Proof.
  intros Hpc. rewrite Hpc in E. unfold holder_ok in Hx. rewrite Hpc in Hx. destruct Hx as (Hs & -> & Hv).
  destruct Hcall as (Hl & msg0 & Hd & HL). cbn [writeMessage_step] in E. set (v := VBuf _ _) in *.
  assert (Hlv : zlen (read_view b v) = wt_len x).
  { destruct Hv as (_ & _ & Hv & _). pose proof (mo_buf _ _ Hm). pose proof (mem_pos _ _ Hm).
    pose proof (Z.mod_pos_bound (pcur b) (size b)). cbn. zl. }
  destruct (msg_Encode _ _ _) as [[[[[m2 g2] d] n] err]|] eqn:HE; [|done]. cbn [try] in E.
  destruct (put (buf b) (pcur b mod size b) d) as [ring|] eqn:Ep; [|done]. cbn [try] in E. cbv zeta in E.
  pose proof (encode_gid _ _ _ _ _ _ _ _ Hg HE) as Hg2.
  assert (Hd0 : zlen d = wt_len x) by (by rewrite (encode_zlen _ _ _ _ _ _ _ _ HE)).
  destruct (encode_ring b sent (wt_len x) d ring Hm Hv Hd0 Ep) as (F & M & Hr & Hrv). fold v in Hrv.
  unfold turn_ok. rewrite publish_same by (destruct err; unfold wm_return, wm_run in E; by simplify_eq).
  rewrite Hpc. destruct err as [e|]; unfold wm_return, wm_run in E; simplify_eq; split_and!; try done.
  destruct (encode_len _ _ _ _ _ _ _ _ _ Hg Hd HL HE) as (_ & -> & _). set (d := ring_range _ _ _) in *.
  exists base. cbn [stage wt_at holder_ok wt_pc wt_msg].
  fold v. rewrite Hrv, take_all_zlen by lia. split; [by rewrite Hd0|]. split; [lia|]. split.
  - eexists msg0, _, _, _, _, d. cbn. rewrite Hd0. split; [exact HL|]. split; [exact HE|]. by rewrite firstn_all.
  - cbn [commit_ok]. split; [done|]. split; [done|]. by rewrite Hd0.
Qed.

Lemma holder_write p c : wt_pc x = WmWrite p c -> turn_ok i x b sent staged b' o' r.
Proof.
  intros Hpc. rewrite Hpc in E. unfold holder_ok in Hx. rewrite Hpc in Hx. destruct Hx as (-> & Hl & He & Hw).
  cbn [writeMessage_step] in E. pose proof (Write_step_ok b base sent staged c Hm Hb Hl Hw) as Hk.
  destruct (Write_step b staged c) as [[[b1 r1]|]|] eqn:Es; [|done..]. destruct Hk as (F & M & Hk).
  pose proof (Write_publishes _ _ _ _ _ _ _ Hm Hb Hl Hw Es) as Hpub.
  unfold turn_ok. rewrite Hpc. destruct r1 as [c'|[m [e|]]]; unfold wm_run, wm_return in E; simplify_eq; split_and!; try done.
  by exists base.
Qed.

Lemma holder_commit n c : wt_pc x = WmCommit n c -> turn_ok i x b sent staged b' o' r.
Proof.
  intros Hpc. rewrite Hpc in E. unfold holder_ok in Hx. rewrite Hpc in Hx. destruct Hx as (-> & Hl & He & Hw).
  cbn [writeMessage_step] in E. pose proof (WriteCommit_step_ok b sent base staged c Hm Hb Hl Hw) as Hk.
  destruct (WriteCommit_step b (zlen staged) c) as [[[b1 r1]|]|] eqn:Es; [|done..]. destruct Hk as (F & M & Hk).
  pose proof (Commit_publishes _ _ _ _ _ _ _ Hm Hb Hl Hw Es) as Hpub.
  unfold turn_ok. rewrite Hpc. destruct r1 as [c'|[m [e|]]]; unfold wm_run, wm_return in E; simplify_eq; split_and!; try done.
  by exists base.
Qed.

Lemma holder_step_ok : turn_ok i x b sent staged b' o' r.
Proof.
  case_eq (wt_pc x).
  - intros Hpc. exfalso. unfold holder_ok in Hx. by rewrite Hpc in Hx.
  - exact holder_wait.
  - exact holder_tmp.
  - exact holder_enc.
  - exact holder_write.
  - exact holder_commit.
Qed.
End Holder.

Lemma holder_ok_stable me b b' base sent staged x :
  frame me b b' -> me <> Producer -> holder_ok b base sent staged x -> holder_ok b' base sent staged x.
Proof.
  intros F Hme. unfold holder_ok. destruct (wt_pc x); try done.
  - intros [H1 H2]. split; [done|]. by eapply wfs_ok_stable.
  - intros (H1 & H2 & H3). rewrite (pcur_stable _ _ _ F Hme), (fr_size _ _ _ F). split_and!; try done.
    by eapply grant_ok_stable.
  - intros (H1 & H2 & H3 & H4). split_and!; try done. by eapply write_ok_stable.
  - intros (H1 & H2 & H3 & H4). split_and!; try done. by eapply commit_ok_stable.
Qed.

Lemma writers_ok_stable me b b' sent staged m h :
  frame me b b' -> me <> Producer -> writers_ok b sent staged m h -> writers_ok b' sent staged m h.
Proof.
  intros F Hme [Hc Hh]. split; [done|]. destruct h as [i|]; [|done]. destruct Hh as (x & base & H1 & H2 & H3).
  exists x, base. split; [done|]. split; [|done]. by eapply holder_ok_stable.
Qed.

(** a new caller waits for the mutex *)
Lemma writers_ok_insert b sent staged m h i x :
  m !! i = None -> call_ok x -> waiting x -> writers_ok b sent staged m h -> writers_ok b sent staged (<[i:=x]> m) h.
Proof.
  intros Hi Hc Hw [Hm Hh]. split; [by apply map_Forall_insert_2|]. destruct h as [j|]; [|by apply map_Forall_insert_2].
  destruct Hh as (y & base & H1 & H2 & H3). exists y, base. split; [by rewrite lookup_insert_ne by congruence|].
  split; [done|]. by apply map_Forall_insert_2.
Qed.

(** who can take a step: a waiting writer when the mutex is free, or its holder *)
Lemma writers_ok_step b sent staged m o i x b' o' r :
  writers_ok b sent staged m (og_wmu o) -> m !! i = Some x ->
  writeMessage_step i (wt_msg x) (wt_len x) b o (wt_pc x) = Some (Ret (b', (o', r))) ->
  (og_wmu o = None /\ wt_pc x = WmLock /\ b' = b /\ o' = og_set_wmu (Some i) o /\ r = Run (WmWait WDone)) \/
  (og_wmu o = Some i /\ exists base, holder_ok b base sent staged x).
Proof.
  intros [_ Hh] Hi E. destruct (og_wmu o) as [j|] eqn:Ew.
  - destruct Hh as (y & base & H1 & H2 & H3). destruct (decide (i = j)) as [->|Hne].
    + right. split; [done|]. exists base. by simplify_eq.
    + specialize (H3 i x Hi Hne). unfold waiting in H3. rewrite H3 in E. cbn in E. by rewrite Ew in E.
  - left. specialize (Hh i x Hi). unfold waiting in Hh. rewrite Hh in E. cbn in E. rewrite Ew in E.
    unfold wm_run in E. by simplify_eq.
Qed.

(** the holder goes on, the others wait *)
Lemma writers_ok_hold b sent staged sent' staged' m h b' i x pc base :
  writers_ok b sent staged m h -> (h = None \/ h = Some i) -> m !! i = Some x ->
  holder_ok b' base sent' staged' (wt_at x pc) -> writers_ok b' sent' staged' (<[i:=wt_at x pc]> m) (Some i).
Proof.
  intros [Hc Hh] Hhi Hi Hx. split; [apply map_Forall_insert_2; [exact (Hc i x Hi)|done]|].
  exists (wt_at x pc), base. rewrite lookup_insert_eq. split; [done|]. split; [done|].
  intros j y Hj Hne. rewrite lookup_insert_ne in Hj by congruence.
  destruct Hhi as [-> | ->]; [by apply (Hh j)|]. destruct Hh as (_ & _ & _ & _ & H3). by apply (H3 j).
Qed.

(** it returns: nobody is past [Lock] *)
Lemma writers_ok_release b sent staged sent' staged' m b' i :
  writers_ok b sent staged m (Some i) -> writers_ok b' sent' staged' (delete i m) None.
Proof.
  intros [Hc (_ & _ & _ & _ & H3)]. split; [by apply map_Forall_delete|].
  intros j y Hj. apply lookup_delete_Some in Hj as [Hne Hj]. apply (H3 j); congruence.
Qed.

(** ** The sender *)

Definition wt_out (pc : writeto_pc) : list Z :=
  match pc with WtTop _ _ out | WtPeek _ _ out _ | WtWrite _ _ out _ _ | WtCommit _ _ out _ _ _ | WtClose _ _ out => out end.

(** what the connection has taken *)
Definition sd_out (o : option send_pc) : list Z := match o with Some (SdWrite p) => wt_out p | _ => [] end.

Lemma writeto_delivered b a sent pc : writeto_ok b a sent pc -> delivered a sent (wt_out pc).
Proof.
  destruct pc; cbn; [intros [_ Ho]; exact Ho|intros [[_ Ho] _]; exact Ho|intros [[_ Ho] _]; exact Ho| |intros [_ Ho]; exact Ho].
  intros (_ & _ & _ & _ & _ & Ho). exact Ho.
Qed.

Lemma WriteTo_fails b pc b' r : WriteTo_step b pc = Some (Ret (b', r)) -> wt_failing pc ->
  match r with Run pc => wt_failing pc | Fin (_, err, _) => err <> None end.
Proof.
  destruct pc as [w total out|w total out k|w total out v err|w total out n err c|c [n err] out];
    cbn [WriteTo_step]; unfold call, run, fin, wt_return, wt_again; intros Hstep Hf.
  - by case_match; simplify_eq.
  - destruct (ReadPeek_step b _ k) as [[[b1 [k'|[v err]]]|]|]; by simplify_eq.
  - repeat case_match; by simplify_eq.
  - destruct (ReadCommit_step b n c) as [[[b1 [c'|[m [e|]]]]|]|]; simplify_eq; [done|done|].
    destruct err as [e|]; [|done]. by destruct (bool_decide (e = ErrBufferInsufficientData)).
  - destruct (close_step Consumer b c) as [[[b1 [c'|[]]]|]|]; by simplify_eq.
Qed.

Lemma sender_ok_stable me b b' sent more o :
  frame me b b' -> me <> Consumer -> mem_ok b sent -> sender_ok b sent o -> sender_ok b' (sent ++ more) o.
Proof.
  intros F Hme Hm. destruct o as [[|p|e]|]; cbn; [by rewrite (ccur_stable _ _ _ F Hme)| |done..].
  intros [H1 H2]. split; [by eapply writeto_ok_stable|done].
Qed.

Lemma sender_step_ok (w : world TW) b sent pc : mem_ok b sent -> zlen sent < 2 ^ 62 -> sender_ok b sent (Some pc) ->
  keeps Consumer b sent (sender_step wr this w b pc) (fun b' sent' x =>
    sender_ok b' sent' (out_running x.2)).
Proof.
  intros Hm Hb Hp. destruct pc as [|p|e]; cbn [sender_step].
  - apply (keeps_on_world _ _ _ _ _ _ (fun b' s' r => sender_ok b' s' (out_running r))); [done|].
    intros [c|]; cbn; [|done]. split; [|done]. unfold streamed, delivered. cbn in Hp. rewrite Hp.
    pose proof (zlen_nonneg sent). cbn. split_and!; done || lia.
  - destruct Hp as [H1 H2]. apply (keeps_on_buf _ _ _ _ _ _ _ (fun b' s' r => sender_ok b' s' (out_running r))).
    intros b' r E. unfold call in E. pose proof (WriteTo_step_ok b 0 sent p Hm Hb H1) as Hr.
    destruct (WriteTo_step b p) as [[[b1 [p'|[[n [e|]] out]]]|]|] eqn:Ep; simplify_eq;
      destruct Hr as (F & M & Hr); pose proof (WriteTo_fails _ _ _ _ Ep H2) as Hl; cbn in Hl; done.
  - apply (keeps_on_world _ _ _ _ _ _ (fun b' s' r => sender_ok b' s' (out_running r))); done.
Qed.

(** ** What has been published and what has returned *)

(** a call publishes once, before it returns without an error *)
Lemma announces i msg l b o pc b' o' r :
  writeMessage_step i msg l b o pc = Some (Ret (b', (o', r))) ->
  flag (announced pc) msg ++ flag (publishing pc) msg
  = success msg r ++ match r with Run pc' => flag (announced pc') msg | Fin _ => [] end.
Proof.
  destruct pc as [|w| |v|p c|n c]; cbn [writeMessage_step announced publishing]; unfold wm_run, wm_return, try; intros E.
  - destruct (og_wmu o); by simplify_eq.
  - destruct (WriteWait_step b l w) as [[[b1 [w'|[[v wrap] [e|]]]]|]|]; simplify_eq; [done..|]. by destruct wrap.
  - destruct (msg_Encode _ _ _) as [[[[[m2 g2] d] n] [e|]]|]; simplify_eq; [done|]. destruct (subslice _ _ _); by simplify_eq.
  - destruct v as [|off k|k]; simplify_eq. destruct (msg_Encode _ _ _) as [[[[[m2 g2] d] n] err]|]; simplify_eq.
    destruct (put _ _ d); simplify_eq. destruct err; by simplify_eq.
  - destruct (Write_step b p c) as [[[b1 r1]|]|] eqn:Es; [|done..]. destruct c as [|w|start|start total|sg total];
      cbn [Write_step] in Es; unfold run, fin, call, try in Es.
    + destruct (isDone b); by simplify_eq.
    + destruct (wfs_step b _ w) as [[[b2 [w'|[[st cnt] [e|]]]]|]|]; by simplify_eq.
    + destruct (ringCopy _ _ _) as [[d n]|]; by simplify_eq.
    + by simplify_eq.
    + destruct (signal_step _ _ _ b sg) as [[[b2 [s'|[]]]|]|]; by simplify_eq.
  - destruct (WriteCommit_step b n c) as [[[b1 r1]|]|] eqn:Es; [|done..]. destruct c as [w|start cnt|sg cnt];
      cbn [WriteCommit_step] in Es; unfold run, fin, call in Es.
    + destruct (wfs_step b _ w) as [[[b2 [w'|[[st k] [e|]]]]|]|]; by simplify_eq.
    + by simplify_eq.
    + destruct (signal_step _ _ _ b sg) as [[[b2 [s'|[]]]|]|]; by simplify_eq.
Qed.

(** ** Every step keeps the invariant *)

Lemma wire_of_snoc l x : wire_of (l ++ [x]) = wire_of l ++ x.2.
Proof. unfold wire_of. rewrite map_app, concat_app. cbn. by rewrite app_nil_r. Qed.

Lemma out_step_ok s s' : outs_ok s -> out_step s s' -> outs_ok s'.
Proof.
  intros P Hstep. destruct Hstep as [s0 i msg0 msg l pc Hi Hd Hw Hl|s0 i x b o r Hi Hb Hs|s0 pc b w r Hpc Hb Hs|s0 Hc
    |s0 pc b r Hpc Hs|s0 w g Hg]; destruct P as [P1 P2 P3 P4 P5 P6 P7 P8].
  - split; cbn; try done. unfold writeMessage in Hw. inv_bind Hw as y Hy. destruct y as [m1 l1]. simplify_eq.
    + apply writers_ok_insert; try done. split; [done|]. by exists msg0.
    + rewrite P8. f_equal. unfold in_flight. destruct (og_wmu (ou_st s0)) as [j|]; [|done].
      destruct P3 as [_ (y & base & Hj & _)]. by rewrite lookup_insert_ne by congruence.
  - destruct (writers_ok_step _ _ _ _ _ _ _ _ _ _ P3 Hi Hs) as [(H1 & H2 & -> & -> & ->)|(H1 & base & H2)].
    + rewrite publish_same by done. rewrite H2. split; cbn; try done; rewrite ?app_nil_r.
      2: { rewrite P8, H1. unfold in_flight. by rewrite lookup_insert_eq. }
      eapply (writers_ok_hold (ou_mem s0) (ou_sent s0) (ou_staged s0) _ _ _ _ (ou_mem s0)); [exact P3|by left|exact Hi|].
      by split.
    + pose proof (holder_step_ok _ _ _ _ _ _ _ P1 Hb P2 H1 (proj1 P3 i x Hi) H2 _ _ _ Hs) as (F & M & G & Hr & He & Ep).
      destruct (publish_prefix (ou_mem s0) b (ou_sent s0)) as [more Em].
      split; cbn [ou_mem ou_st ou_writers ou_sender ou_closer ou_sent ou_staged ou_log ou_returned]; try done.
      * destruct r as [pc|res].
        -- destruct Hr as (-> & base' & Hr). eapply writers_ok_hold; [exact P3|by right|done|exact Hr].
        -- rewrite Hr. rewrite H1 in P3. by eapply writers_ok_release.
      * rewrite Em. by eapply sender_ok_stable.
      * by eapply xstate_ok_stable.
      * destruct (publishing (wt_pc x)); [|done]. apply Forall_app. split; [done|]. apply Forall_cons. split; [by apply He|done].
      * rewrite Ep. destruct (publishing (wt_pc x)); [|done]. by rewrite wire_of_snoc, P7.
      * pose proof (announces _ _ _ _ _ _ _ _ _ Hs) as Ha. rewrite H1 in P8. cbn [in_flight] in P8. rewrite Hi in P8.
        replace (in_flight _ _) with (match r with Run pc' => flag (announced pc') (wt_msg x) | Fin _ => [] end);
          [rewrite <- app_assoc, <- Ha, app_assoc, <- P8; by destruct (publishing (wt_pc x)); rewrite ?map_app, ?app_nil_r|].
        destruct r as [pc|res]; [destruct Hr as (-> & _)|by rewrite Hr]. unfold in_flight. by rewrite lookup_insert_eq.
  - rewrite Hpc in P4. destruct (sender_step_ok _ _ _ _ P1 Hb P4 _ _ Hs) as (F & M & Hr). cbn [snd] in Hr.
    rewrite publish_same in * by (by apply (pcur_stable _ _ _ F)). split; cbn; try done.
    + by eapply writers_ok_stable.
    + by eapply xstate_ok_stable.
  - by split.
  - rewrite Hpc in P5. pose proof (close_step_ok Closer _ _ _ P1 P5) as Hk. rewrite Hs in Hk.
    destruct Hk as (F & M & _ & Ep & Hx). rewrite Ep in *. split; cbn; try done.
    + by eapply writers_ok_stable.
    + rewrite <- (app_nil_r (ou_sent s0)). by eapply sender_ok_stable.
    + by destruct r.
  - by split.
Qed.

Lemma out_reachable_ok s : out_reachable s -> outs_ok s.
Proof.
  induction 1 as [cnt sz cnt' b w g st Hn Hsz Hg|s s' Hr IH Hs]; [|by eapply out_step_ok].
  destruct (newBuffer_ok _ _ _ _ Hn Hsz) as [M _ _ _]. split; cbn; try done.
  pose proof (mo_cur _ _ M). pose proof (mo_sent _ _ M) as Hp. cbn in *. change (zlen (@nil Z)) with 0 in *. lia.
Qed.
End Outgoing.

(** C7: Each packet goes out whole.  In every interleaving of any number of goroutines
    in [writeMessage], of the sender, a closer and the rest of the server: what is
    published is the concatenation of the packets of the calls that got through,
    each a full encoding of its message of the length [Len] computed; they are the
    calls that returned without an error, in that order, and at most one that is
    about to; what the connection has taken is a prefix of it; and only one
    goroutine at a time is past [wmu.Lock]. *)
Theorem writers_do_not_interleave {TW} `{TimeWheel TW} wr this (s : outs (TW:=TW)) :
  out_reachable wr this s ->
  ou_sent s = concat (map snd (ou_log s)) /\ Forall encoded (ou_log s) /\
  (exists l, map fst (ou_log s) = ou_returned s ++ l /\ (length l <= 1)%nat) /\
  sd_out (ou_sender s) `prefix_of` ou_sent s /\
  (forall i j x y, ou_writers s !! i = Some x -> ou_writers s !! j = Some y ->
     wt_pc x <> WmLock -> wt_pc y <> WmLock -> i = j).
Proof.
  intros Hs. destruct (out_reachable_ok _ _ _ Hs) as [P1 P2 P3 P4 P5 P6 P7 P8].
  split; [done|]. split; [done|]. split; [|split].
  - eexists. split; [exact P8|]. unfold in_flight, flag. repeat case_match; cbn; lia.
  - destruct (ou_sender s) as [[|p|e]|]; cbn; try apply prefix_nil. destruct P4 as [P4 _].
    apply writeto_delivered in P4 as (_ & _ & ->). unfold subseq. rewrite drop_0. apply prefix_take.
  - intros i j x y Hi Hj Hx Hy. destruct P3 as [_ Hh]. destruct (og_wmu (ou_st s)) as [h|].
    + destruct Hh as (_ & _ & _ & _ & H3). destruct (decide (i = h)) as [->|Hne]; [|by destruct Hx; eapply H3].
      destruct (decide (j = h)) as [->|Hne]; [done|]. by destruct Hy; eapply H3.
    + destruct Hx. by eapply Hh.
Qed.

(** ** A run *)

Inductive out_event : Type :=
| OCall (i : nat) (msg : Message)
| OWrite (i : nat)
| OSend.

Definition out_next (wr : writer) (this : Z) (e : out_event) (s : outs (TW:=simple_wheel)) : option (outs (TW:=simple_wheel)) :=
  if zlen (ou_sent s) <? 2 ^ 62 then
    match e with
    | OCall i msg0 =>
        match ou_writers s !! i, writeMessage (Some (ou_mem s)) msg0 with
        | None, Ret (msg, l, Run pc) =>
            if (0 <=? l) && (l <? 2 ^ 62) && (negb (is_bare msg0) || dirty (msg_hdr msg0)) then
              Some (mkOuts (ou_mem s) (ou_st s) (<[i:=mkWriting msg l pc]> (ou_writers s)) (ou_sender s) (ou_closer s)
                           (ou_world s) (ou_sent s) (ou_staged s) (ou_log s) (ou_returned s))
            else None
        | _, _ => None
        end
    | OWrite i =>
        match ou_writers s !! i with
        | None => None
        | Some x =>
            match writeMessage_step i (wt_msg x) (wt_len x) (ou_mem s) (ou_st s) (wt_pc x) with
            | Some (Ret (b, (o, r))) =>
                Some (mkOuts b o (match r with Run pc => <[i:=wt_at x pc]> (ou_writers s) | Fin _ => delete i (ou_writers s) end)
                       (ou_sender s) (ou_closer s) (ou_world s) (publish (ou_mem s) b (ou_sent s))
                       (stage (wt_pc x) b r (ou_staged s))
                       (if publishing (wt_pc x) then ou_log s ++ [(wt_msg x, ou_staged s)] else ou_log s)
                       (ou_returned s ++ success (wt_msg x) r))
            | _ => None
            end
        end
    | OSend =>
        match ou_sender s with
        | None => None
        | Some pc =>
            match sender_step wr this (ou_world s) (ou_mem s) pc with
            | Some (Ret (b, (w, r))) =>
                Some (mkOuts b (ou_st s) (ou_writers s) (out_running r) (ou_closer s) w (publish (ou_mem s) b (ou_sent s))
                       (ou_staged s) (ou_log s) (ou_returned s))
            | _ => None
            end
        end
    end
  else None.

Fixpoint out_exec (wr : writer) (this : Z) (es : list out_event) (s : outs (TW:=simple_wheel)) : option (outs (TW:=simple_wheel)) :=
  match es with
  | [] => Some s
  | e :: es => match out_next wr this e s with Some s => out_exec wr this es s | None => None end
  end.

Lemma out_next_step wr this e s s' : out_next wr this e s = Some s' -> out_step wr this s s'.
Proof.
  unfold out_next. destruct (zlen (ou_sent s) <? 2 ^ 62) eqn:Eb; [|done]. destruct e as [i msg0|i|].
  - destruct (ou_writers s !! i) eqn:Ei; [done|].
    destruct (writeMessage _ msg0) as [[[msg l] [pc|]]|] eqn:Ew; [|done..].
    destruct ((0 <=? l) && _ && _) eqn:El; [|done]. intros [= <-]. eapply os_call; [done| |exact Ew|lia].
    intros Hbare. rewrite Hbare in El. by destruct (dirty (msg_hdr msg0)); [|lia].
  - destruct (ou_writers s !! i) as [x|] eqn:Ei; [|done].
    destruct (writeMessage_step _ _ _ _ _ _) as [[[b [o r]]|]|] eqn:Es; [|done..]. intros [= <-].
    apply os_write; [done|lia|done].
  - destruct (ou_sender s) as [pc|] eqn:Ep; [|done].
    destruct (sender_step _ _ _ _ _) as [[[b [w r]]|]|] eqn:Es; [|done..]. intros [= <-].
    eapply os_send; [done|lia|done].
Qed.

Lemma out_exec_reachable wr this es : forall s s', out_reachable wr this s -> out_exec wr this es s = Some s' ->
  out_reachable wr this s'.
Proof.
  induction es as [|e es IH]; cbn; intros s s' Hr He; [by simplify_eq|].
  destruct (out_next wr this e s) as [s1|] eqn:E; [|done]. eapply IH; [|exact He].
  eapply or_step; [exact Hr|by eapply out_next_step].
Qed.

(** a PUBACK is called for, and a PINGRESP that waits for the mutex; the sender runs
    when the second is published and has not returned *)
Definition two_calls : list out_event :=
  [OCall 1 (MPuback Puback.NewPubackMessage); OCall 2 (MPingresp Disconnect.NewPingrespMessage)] ++ replicate 10 (OWrite 1) ++
  replicate 7 (OWrite 2) ++ replicate 11 OSend.

Definition out_start : outs (TW:=simple_wheel) :=
  mkOuts fresh (mkOutgoing 0 [] None (mkStat 0 0)) ∅ (Some SdBegin) None (d1_up 1000 [] [] EOF) [] [] [] [].

Lemma out_start_reachable wr : out_reachable wr 1 out_start.
Proof. apply (or_init wr 1 _ _ _ _ _ _ _ fresh_new); lia. Qed.

Lemma two_written : exists s : outs (TW:=simple_wheel), out_reachable [] 1 s /\ ou_sent s = [64; 2; 0; 0; 208; 0] /\
  sd_out (ou_sender s) = [64; 2; 0; 0; 208; 0] /\ length (ou_returned s) = 1%nat.
Proof.
  assert (Hc : match out_exec [] 1 two_calls out_start with
               | Some s => bool_decide (ou_sent s = [64; 2; 0; 0; 208; 0] /\
                             sd_out (ou_sender s) = [64; 2; 0; 0; 208; 0] /\ length (ou_returned s) = 1%nat)
               | None => false end = true) by (vm_compute; reflexivity).
  destruct (out_exec [] 1 two_calls out_start) as [s|] eqn:E; [|done]. exists s. apply bool_decide_eq_true in Hc.
  split; [|exact Hc]. eapply out_exec_reachable; [|exact E]. apply out_start_reachable.
Qed.

Lemma writers_do_not_interleave_witness : exists s : outs (TW:=simple_wheel),
  sd_out (ou_sender s) = [64; 2; 0; 0; 208; 0] /\ ou_sent s = concat (map snd (ou_log s)) /\
  exists l, map fst (ou_log s) = ou_returned s ++ l /\ (length l <= 1)%nat.
Proof.
  destruct two_written as (s & Hr & H1 & H2 & H3). exists s. split; [exact H2|].
  destruct (writers_do_not_interleave [] 1 s Hr) as (H4 & _ & H5 & _). split; [exact H4|exact H5].
Defined.
