(* ===== verification/Delivery.v ===== *)
(** * Delivery: packets in and out of a live connection

    What [sendData] puts on an open connection, what the handlers answer, and the
    way of a PUBLISH through the receive loop, the upload channel and [PushMsg]. *)
From stdpp Require Import base list strings gmap.
From Stdlib Require Import ZArith Lia.
From S2P Require Import PacketId MsgTypes Header Puback Suback Publish Connect Connack Message AckQueue Session.
From S2P Require Import Prelude GoLang GoStrings NetConn Framing Connectivity World Service ServiceSpec Server Sample ServerSpec.

(** ** Sending on an open connection *)

(** [c] after the server has written [b] *)
Definition wrote (b : list Z) (c : Conn) : Conn :=
  mkConn (segs c) (rd_err c) (written c ++ b) (wr_fault c) (deadline c) (closed c).

Lemma Flush_open size p c : closed c = false -> wr_fault c = None ->
  Flush (mkWriter size p None) c = (None, mkWriter size [] None, wrote p c).
Proof.
  intros Hc Hf. unfold Flush, wrote. cbn [werr wbuf wsize]. destruct (zlen p =? 0) eqn:E.
  - assert (p = []) as -> by (apply zlen_zero_nil; lia). rewrite app_nil_r. by destruct c.
  - unfold conn_Write. rewrite Hc, Hf, Z.ltb_irrefl. done.
Qed.

Lemma sendData_open wpick ps g c msg m1 l m2 g2 buf n :
  pools_ok ps -> closed c = false -> wr_fault c = None ->
  msg_Len msg = Ret (m1, l) ->
  msg_Encode m1 g (replicate (Z.to_nat l) 0) = Ret (m2, g2, buf, n, None) -> 0 <= n <= zlen buf ->
  exists ps', pools_ok ps' /\
    sendData wpick ps g (Some c) msg = Ret (mkSent ps' g2 m2 (Some (wrote (take (Z.to_nat n) buf) c)) 0 None).
Proof.
  intros Hps Hc Hf HL HE Hn. unfold sendData. rewrite HL, bindO_ret, HE, bindO_ret.
  unfold subslice. destruct (_ && _) eqn:E0; [|lia]. rewrite bindO_ret, Z.sub_0_r. change (Z.to_nat 0) with 0%nat.
  rewrite drop_0. set (p := take (Z.to_nat n) buf). assert (Hp : zlen p = n) by (unfold p; rewrite zlen_take; lia).
  clearbody p. destruct (newBufioWriterSize wpick ps (writer_size n)) as [w ps'] eqn:Ew.
  destruct (newBufioWriterSize_spec _ _ _ _ _ Hps (writer_size_pos n) Ew) as [(Hw1 & Hw2 & Hw3) Hps'].
  pose proof (writer_size_ge n). rewrite (Write_fits w c p Hw3 Hw2) by lia. cbv beta iota.
  rewrite Flush_open by done. eexists. split; [|done]. destruct (_ || _); [by apply putBufioWriter_spec|done].
Qed.

Section Send.
Context {TW : Type} `{TimeWheel TW}.
Context (wpick : list Writer -> option nat).
Implicit Types w : world TW.

(** service [l] can send: its connection is open and takes what is written *)
Record wire_up w (l : Z) (s : service) (c : Z) (x : Conn) : Prop := {
  wu_svc : svcs w !! l = Some s;
  wu_conn : conn s = Some c;
  wu_at : conns w !! c = Some x;
  wu_open : closed x = false;
  wu_fault : wr_fault x = None;
  wu_pools : pools_ok (wpools w)
}.

(** the world after [b] has been sent on [c] *)
Definition sent w (c : Z) (x : Conn) (b : list Z) (ps : Pools) (g : Z) : world TW :=
  set_conns (<[c:=wrote b x]> (conns w)) (set_wpools ps (set_gid g w)).

Lemma send_ok w l s c x msg m1 ml m2 g2 buf n :
  wire_up w l s c x -> msg_Len msg = Ret (m1, ml) ->
  msg_Encode m1 (gid w) (replicate (Z.to_nat ml) 0) = Ret (m2, g2, buf, n, None) -> 0 <= n <= zlen buf ->
  exists ps, pools_ok ps /\ send wpick l msg w = (Ret (m2, None), sent w c x (take (Z.to_nat n) buf) ps g2).
Proof.
  intros [Hs Hc Hx Ho Hf Hp] HL HE Hn.
  destruct (sendData_open wpick (wpools w) (gid w) x msg m1 ml m2 g2 buf n Hp Ho Hf HL HE Hn) as (ps & Hps & Hsd).
  exists ps. split; [done|]. unfold send. rewrite (bindM_step _ _ _ _ _ (get_svc_ok w l s Hs)), bindM_gets, Hc.
  cbn [option_bind mbind]. rewrite Hx, Hsd, bindM_lift. cbn [sn_pools sn_g sn_conn sn_msg sn_err].
  rewrite bindM_modify. done.
Qed.

(** an acknowledgement with an identifier *)
Definition ack_of (t : Z) (h : header) : Message :=
  if t =? PUBACK then MPuback h else if t =? PUBREC then MPubrec h else if t =? PUBREL then MPubrel h
  else if t =? PUBCOMP then MPubcomp h else MUnsuback h.

Lemma ack_msg_encode t v g : ack_type t = true -> 0 < v < 2 ^ 16 ->
  exists m1 m2, msg_Len (ack_of t (new_ack t v)) = Ret (m1, 4) /\
    msg_Encode m1 g (replicate (Z.to_nat 4) 0) = Ret (m2, g, ack_wire t v, 4, None).
Proof.
  intros Ht Hv. destruct (new_ack_fields t v Ht) as (Hd & Hb & Hid & Hr); [lia|].
  destruct (ack_byte_ok t Ht) as [Hok Hty]. destruct (hdr_wire_decode_guard _ Hok) as [Hval _].
  set (h := new_ack t v) in *.
  assert (HL : Puback.Len h = (with_remlen 2 h, 4)) by (unfold Puback.Len; rewrite len_with_dirty by (done || (split; done)); done).
  assert (HE : Puback.Encode (with_remlen 2 h) (replicate (Z.to_nat 4) 0) =
    Ret (with_remlen 2 (with_remlen 2 h), ack_wire t v, 4, None)).
  { rewrite (puback_Encode_spec _ (ack_byte t) (be16 v)); try done. }
  clearbody h.
  exists (ack_of t (with_remlen 2 h)), (ack_of t (with_remlen 2 (with_remlen 2 h))).
  ack_cases Ht; cbn [ack_of Z.eqb]; unfold msg_Len, msg_Encode; cbn; rewrite HL; cbn; (split; [done|]);
    unfold no_counter; by rewrite HE.
Qed.

Lemma reply_ok w l s c x t v : wire_up w l s c x -> ack_type t = true -> 0 < v < 2 ^ 16 ->
  exists ps, pools_ok ps /\
    reply wpick l (ack_of t) (fst (SetType zero_header t)) v w = (Ret None, sent w c x (ack_wire t v) ps (gid w)).
Proof.
  intros Hw Ht Hv. destruct (ack_msg_encode t v (gid w) Ht Hv) as (m1 & m2 & HL & HE).
  destruct (send_ok w l s c x _ _ _ _ _ _ _ Hw HL HE) as (ps & Hps & Hs).
  { rewrite zlen_ack_wire. lia. }
  exists ps. split; [done|]. unfold reply. change (SetPacketId (fst (SetType zero_header t)) v) with (new_ack t v).
  rewrite (bindM_step _ _ _ _ _ Hs). done.
Qed.

End Send.

(** ** The answers of the packet handlers *)

Section Replies.
Context {TW : Type} `{TimeWheel TW}.
Context (pick : list (list Z) -> option nat) (wpick : list Writer -> option nat).
Implicit Types w : world TW.

(** a message offered to [MsgChan]: dropped when the channel is full *)
Definition offered (s : service) (m : PublishMessage) w : world TW :=
  if zlen (msgChan w) <? msgChanCap
  then set_msgChan (msgChan w ++ [mkUpload m (svc_productKey s) (svc_deviceName s)]) w
  else w.

Lemma publish_acked w l s c x m :
  wire_up w l s c x -> QoS m = Ret QosAtLeastOnce -> Topic m <> heartbeatTopic -> 0 < PacketId (Publish.hdr m) < 2 ^ 16 ->
  exists ps, pools_ok ps /\ processIncoming pick wpick l (MPublish m) w =
    (Ret None, offered s m (sent w c x (ack_wire PUBACK (PacketId (Publish.hdr m))) ps (gid w))).
Proof.
  intros Hw Hq Ht Hp. destruct (reply_ok wpick w l s c x PUBACK _ Hw eq_refl Hp) as (ps & Hps & Hr).
  exists ps. split; [done|]. cbn [processIncoming]. unfold processPublish. cbv zeta.
  rewrite bool_decide_eq_false_2, Hq, bindM_lift, Z.eqb_refl by done.
  erewrite bindM_step by exact Hr. cbv iota.
  erewrite bindM_step by (apply get_svc_ok; exact (wu_svc _ _ _ _ _ Hw)).
  rewrite bindM_modify. done.
Qed.

Lemma retcodes_for_take n : forall i qs, 0 <= i -> i + Z.of_nat n <= zlen qs ->
  retcodes_for n i qs = Ret (take n (drop (Z.to_nat i) qs)).
Proof.
  induction n as [|n IH]; intros i qs Hi Hn; cbn [retcodes_for]; [by rewrite take_0|].
  destruct (lookup_lt_is_Some_2 qs (Z.to_nat i)) as [q Hq]; [unfold zlen in Hn; lia|].
  assert (Hx : index qs i = Ret q).
  { unfold index. destruct (_ && _) eqn:E; [|lia]. by rewrite Hq. }
  rewrite Hx, bindO_ret, IH, bindO_ret by lia. replace (Z.to_nat (i + 1)) with (S (Z.to_nat i)) by lia.
  rewrite (drop_S _ _ _ Hq). done.
Qed.

Lemma subscribe_granted w l s c x m :
  wire_up w l s c x -> zlen (Subscribe.Qos m) = zlen (Subscribe.Topics m) -> Forall code_ok (Subscribe.Qos m) ->
  remlen_ok (2 + zlen (Subscribe.Qos m)) -> 0 < PacketId (Subscribe.hdr m) < 2 ^ 16 ->
  exists ps, pools_ok ps /\ processIncoming pick wpick l (MSubscribe m) w =
    (Ret None, sent w c x (suback_wire (be16 (PacketId (Subscribe.hdr m))) (Subscribe.Qos m)) ps (gid w)).
Proof.
  intros Hw Hz Hc Hr Hp. set (v := PacketId (Subscribe.hdr m)) in *. set (qs := Subscribe.Qos m) in *.
  destruct (new_suback_fields v qs) as (Ha & Hco & Hd & Hb & Hid); [lia|done|].
  assert (Hrc : retcodes_for (length (Subscribe.Topics m)) 0 qs = Ret qs).
  { unfold zlen in Hz. rewrite retcodes_for_take by (unfold zlen; lia). cbn [Z.to_nat]. rewrite drop_0, take_ge by lia. done. }
  set (sb := new_suback v qs) in *. assert (Hml : Suback.msglen sb = 2 + zlen qs) by (unfold Suback.msglen; by rewrite Hco).
  set (sb1 := Suback.with_hdr (with_remlen (2 + zlen qs) (Suback.hdr sb)) sb).
  set (wr := suback_wire (be16 v) qs).
  assert (HL0 : Suback.Len sb = (sb1, zlen wr)).
  { unfold Suback.Len. rewrite Hml, len_with_dirty by done. f_equal. unfold wr, suback_wire. zlen_facts.
    rewrite !zlen_app, zlen_hdr_wire, zlen_be16. lia. }
  assert (HL : msg_Len (MSuback sb) = Ret (MSuback sb1, zlen wr)) by (unfold msg_Len; cbn; by rewrite HL0).
  assert (HE : msg_Encode (MSuback sb1) (gid w) (replicate (Z.to_nat (zlen wr)) 0) = Ret (MSuback sb1, gid w, wr, zlen wr, None)).
  { unfold msg_Encode. cbn. unfold no_counter. rewrite (suback_Encode_spec _ (be16 v)); try done.
    - cbn [Suback.hdr Suback.with_hdr returnCodes]. cbn. rewrite Hco. fold wr. rewrite drop_ge, app_nil_r; [done|].
      rewrite length_replicate. unfold zlen. rewrite Nat2Z.id. done.
    - cbn. by rewrite Hco.
    - unfold Suback.msglen. cbn. by rewrite Hco.
    - assert (Hm : Header.msglen (Suback.hdr sb1) = 1 + zlen (uvarint_bytes 10 (2 + zlen qs))) by (by rewrite msglen_spec).
      rewrite Hm, zlen_replicate, Z2Nat.id by apply zlen_nonneg. unfold Suback.msglen. cbn. rewrite Hco.
      change (144 :: uvarint_bytes 10 (2 + zlen qs) ++ be16 v ++ qs) with (hdr_wire 144 (2 + zlen qs) ++ be16 v ++ qs).
      rewrite !zlen_app, zlen_hdr_wire, zlen_be16. lia. }
  destruct (send_ok wpick w l s c x _ _ _ _ _ _ _ Hw HL HE) as (ps & Hps & Hs); [zlen_facts; lia|].
  rewrite take_ge in Hs by (unfold zlen; lia). exists ps. split; [done|].
  cbn [processIncoming]. unfold processSubscribe. cbv zeta. fold qs v. rewrite Hrc, bindM_lift.
  change (Suback.with_hdr (SetPacketId (Suback.hdr Suback.NewSubackMessage) v) Suback.NewSubackMessage)
    with (mkSuback (SetPacketId (Suback.hdr Suback.NewSubackMessage) v) []).
  rewrite Ha. rewrite (bindM_step _ _ _ _ _ Hs). done.
Qed.

Lemma unsubscribe_acked w l s c x m :
  wire_up w l s c x -> 0 < PacketId (Unsubscribe.hdr m) < 2 ^ 16 ->
  exists ps, pools_ok ps /\ processIncoming pick wpick l (MUnsubscribe m) w =
    (Ret None, sent w c x (ack_wire UNSUBACK (PacketId (Unsubscribe.hdr m))) ps (gid w)).
Proof.
  intros Hw Hp. exact (reply_ok wpick w l s c x UNSUBACK _ Hw eq_refl Hp).
Qed.

Lemma ping_answered w l s c x m : wire_up w l s c x ->
  exists ps, pools_ok ps /\ processIncoming pick wpick l (MPingreq m) w = (Ret None, sent w c x [208; 0] ps (gid w)).
Proof.
  intros Hw. destruct (send_ok wpick w l s c x (MPingresp Disconnect.NewPingrespMessage) (MPingresp Disconnect.NewPingrespMessage)
    2 (MPingresp Disconnect.NewPingrespMessage) (gid w) [208; 0] 2 Hw) as (ps & Hps & Hs).
  - reflexivity.
  - reflexivity.
  - by split.
  - exists ps. split; [done|]. cbn [processIncoming]. rewrite (bindM_step _ _ _ _ _ Hs). done.
Qed.

End Replies.

(** ** The heartbeat *)

Section Heartbeat.
Context {TW : Type} `{TimeWheel TW}.
Context (pick : list (list Z) -> option nat) (wpick : list Writer -> option nat).
Implicit Types w : world TW.

Lemma clamp_range h : 1 <= clamp_heartbeat h <= 7200.
Proof. unfold clamp_heartbeat. destruct (h <? 1) eqn:E1; [lia|]. destruct (2 * 3600 <? h) eqn:E2; lia. Qed.

(** C35: A client can only set its heartbeat within bounds.  A message on the heartbeat
    topic whose payload is a decimal number [h], with or without a sign, makes the
    receive loop wait for [h] seconds, but at least 1 and at most 7200, and five more,
    from now on and for the read that is under way; no sum overflows its 32 bits.  At
    QoS 1, and only then, the client is sent the PUBACK.  The message is not offered to
    the upload channel, and services and sessions stay as they are. *)
Theorem heartbeat_clamped w l s c d r x m h q :
  wire_up w l s c x -> ka_closed s = false -> receivers w !! l = Some (RxLoop c d r) ->
  Topic m = heartbeatTopic -> Atoi (Payload m) = inl h -> QoS m = Ret q ->
  (q = QosAtLeastOnce -> 0 < PacketId (Publish.hdr m) < 2 ^ 16) ->
  let t := Z.max 1 (Z.min h 7200) + 5 in
  let answer := if q =? QosAtLeastOnce then ack_wire PUBACK (PacketId (Publish.hdr m)) else [] in
  exists w', processIncoming pick wpick l (MPublish m) w = (Ret None, w') /\
    receivers w' = <[l:=RxLoop c t r]> (receivers w) /\ conns w' = <[c:=wrote answer (with_deadline t x)]> (conns w) /\
    msgChan w' = msgChan w /\ svcs w' = svcs w /\ sessions w' = sessions w /\ 6 <= t <= 7205.
Proof.
  intros Hw Hka Hrx Ht Hp Hq Hid t answer. destruct Hw as [Hs Hcn Hx Ho Hf Hps].
  assert (Hc : clamp_heartbeat h + 5 = t).
  { unfold clamp_heartbeat, t. destruct (h <? 1) eqn:E1; [lia|]. destruct (2 * 3600 <? h) eqn:E2; lia. }
  pose proof (clamp_range h) as Hr.
  set (w1 := set_conns (<[c:=with_deadline t x]> (conns w)) (set_receivers (<[l:=RxLoop c t r]> (receivers w)) w)).
  assert (E1 : send_keepAlive l (i32 (clamp_heartbeat h)) w = (Ret tt, w1)).
  { unfold send_keepAlive. erewrite bindM_step by (apply get_svc_ok; exact Hs). rewrite Hka.
    unfold updateHeartbeat. rewrite bindM_gets, Hrx. cbv zeta. rewrite (i32_small (clamp_heartbeat h)) by lia.
    rewrite (i32_small (clamp_heartbeat h + 5)), Hc by lia. rewrite bindM_modify. unfold modify. cbn. rewrite Hx.
    unfold SetReadDeadline. by rewrite Ho. }
  assert (E : processIncoming pick wpick l (MPublish m) w =
    (if q =? QosAtLeastOnce then reply wpick l MPuback Puback.NewPubackMessage (PacketId (Publish.hdr m)) else retM None) w1).
  { cbn [processIncoming]. unfold processPublish. cbv zeta. rewrite bool_decide_eq_true_2, Hp by done.
    rewrite (bindM_step _ _ _ _ _ E1). by rewrite Hq, bindM_lift. }
  rewrite E. unfold answer. destruct (q =? QosAtLeastOnce) eqn:Eq.
  - assert (Hw1 : wire_up w1 l s c (with_deadline t x)) by (split; try done; cbn; apply lookup_insert_eq).
    destruct (reply_ok wpick w1 l s c _ PUBACK _ Hw1 eq_refl (Hid ltac:(lia))) as (ps & _ & E2).
    change (reply wpick l MPuback Puback.NewPubackMessage (PacketId (Publish.hdr m)) w1 = (Ret None, sent w1 c (with_deadline t x)
      (ack_wire PUBACK (PacketId (Publish.hdr m))) ps (gid w1))) in E2.
    rewrite E2. eexists. split; [reflexivity|]. cbn. rewrite insert_insert_eq. split_and!; try done; lia.
  - exists w1. split; [done|]. cbn. assert (Ew : wrote [] (with_deadline t x) = with_deadline t x) by (unfold wrote; rewrite app_nil_r; by destruct x).
    rewrite Ew. split_and!; try done; lia.
Qed.

End Heartbeat.

Lemma heartbeat_clamped_witness : exists m w',
  Publish.Decode NewPublishMessage (mkslice (publish_wire 50 heartbeatTopic [0; 9] (str "-5"))) = Ret (m, 37, None) /\
  processIncoming no_pick no_pick 1 (MPublish m) (d1_up 1000 [] [] EOF) = (Ret None, w') /\
  receivers w' = <[1:=RxLoop 0 6 NewReader]> (receivers (d1_up 1000 [] [] EOF)) /\
  written <$> conns w' !! 0 = Some ([32; 2; 0; 0] ++ [64; 2; 0; 9]).
Proof.
  destruct (svcs (d1_up 1000 [] [] EOF) !! 1) as [s|] eqn:Es; [|vm_compute in Es; discriminate].
  destruct (conns (d1_up 1000 [] [] EOF) !! 0) as [x|] eqn:Ex; [|vm_compute in Ex; discriminate].
  destruct (Publish.Decode NewPublishMessage (mkslice (publish_wire 50 heartbeatTopic [0; 9] (str "-5")))) as [[[m n] [e|]]|] eqn:E;
    [vm_compute in E; discriminate| |vm_compute in E; discriminate].
  destruct (heartbeat_clamped no_pick no_pick (d1_up 1000 [] [] EOF) 1 s 0 65 NewReader x m (-5) 1) as (w' & H1 & H2 & H3 & _).
  - split; [exact Es|of_sample Es|exact Ex|of_sample Ex|of_sample Ex|split; constructor].
  - of_sample Es.
  - vm_compute. reflexivity.
  - vm_compute in E. injection E as <- <-. reflexivity.
  - vm_compute in E. injection E as <- <-. reflexivity.
  - vm_compute in E. injection E as <- <-. reflexivity.
  - intros _. vm_compute in E. injection E as <- <-. vm_compute. split; reflexivity.
  - exists m, w'. split; [vm_compute in E; injection E as <- <-; reflexivity|]. split; [exact H1|]. split; [exact H2|].
    rewrite H3, lookup_insert_eq. vm_compute in Ex. injection Ex as <-. vm_compute in E. injection E as <- <-. reflexivity.
Defined.

(** ** One packet through the receive loop *)

Section Receive.
Context {TW : Type} `{TimeWheel TW}.
Context (pick : list (list Z) -> option nat) (wpick : list Writer -> option nat).
Implicit Types w : world TW.

(** what the loop does with a decoded packet, to the end of the round *)
Definition round_end (l : Z) (msg : Message) : M (TW:=TW) bool :=
  do b <- recovered (
    do err <- processIncoming pick wpick l msg ;;
    match err with
    | Some e => exceptionDisconnect l (Some e) ;;; retM false
    | None => do b <- isDone l ;; retM (negb b)
    end) false ;;
  (if b then retM tt else end_receiver l) ;;;
  retM b.

(** the receiver of [l] has read up to [r] on [x] *)
Definition read_to w (l c d : Z) (r : Reader) (x : Conn) : world TW :=
  set_receivers (<[l:=RxLoop c d r]> (receivers w)) (set_conns (<[c:=x]> (conns w)) w).

(** a turn of the receiver with a whole packet at the front of the stream *)
Lemma receive_packet w l c d r x b body rest msg0 msg n :
  receivers w !! l = Some (RxLoop c d r) -> conns w !! c = Some x -> reader_ok defaultReadSize r x ->
  remlen_ok (zlen body) -> ahead r x = frame b body ++ rest -> zlen (frame b body) <= MaxBufferSize (srv w) ->
  New (Z.shiftr b 4) = inl msg0 -> msg_Decode msg0 (mkslice (frame b body)) = Ret (msg, n, None) ->
  exists r2 x2, receiverData pick wpick l w = round_end l msg (read_to w l c d r2 x2) /\
    ahead r2 x2 = rest /\ reader_ok defaultReadSize r2 x2 /\ same_peer x x2.
Proof.
  intros Hrx Hx Hr Hn Ha Hmax Hnew Hdec.
  destruct (getPeekMessageSize_spec d r x b body rest Hr Hn Ha) as (r1 & x1 & H1 & Hr1 & Hp1 & Ha1).
  destruct (getPeekMessage_bytes d r1 x1 (Z.shiftr b 4) (frame b body) rest Hr1 ltac:(congruence)) as (r2 & x2 & H2 & Ha2 & Hr2 & Hp2).
  exists r2, x2. split_and!; try done; [|by eapply same_peer_trans].
  rewrite Hnew, Hdec, bindO_ret in H2. unfold receiverData. rewrite bindM_gets, Hrx. unfold round_end.
  unfold bindM at 1. symmetry. unfold bindM at 1. symmetry.
  assert (E : receiverData_round pick wpick l c d r w = (do err <- processIncoming pick wpick l msg ;;
    match err with
    | Some e => exceptionDisconnect l (Some e) ;;; retM false
    | None => do b <- isDone l ;; retM (negb b)
    end) (read_to w l c d r2 x2)); [|unfold recovered; by rewrite E].
  unfold receiverData_round. rewrite bindM_gets, Hx. cbn [deref_some]. rewrite bindM_ret, H1, bindM_lift. cbv beta iota.
  unfold set_conn, set_receiver. rewrite bindM_modify, bindM_gets. cbn [srv set_conns].
  destruct (_ <? zlen (frame b body)) eqn:E; [lia|]. rewrite H2, bindM_lift. cbv beta iota.
  rewrite !bindM_modify. unfold read_to, set_receivers, set_conns. cbn. by rewrite insert_insert_eq.
Qed.

Lemma publish_wire_frame b t id p : publish_wire b t id p = frame b (publish_body t id p).
Proof. reflexivity. Qed.

Lemma round_end_goes_on l msg w w' s : processIncoming pick wpick l msg w = (Ret None, w') ->
  svcs w' !! l = Some s -> done_closed s = false -> round_end l msg w = (Ret true, w').
Proof.
  intros Hp Hs Hd. assert (E : (do err <- processIncoming pick wpick l msg ;;
    match err with
    | Some e => exceptionDisconnect l (Some e) ;;; retM false
    | None => do b <- isDone l ;; retM (negb b)
    end) w = (Ret true, w')).
  { rewrite (bindM_step _ _ _ _ _ Hp). cbv iota. unfold isDone. rewrite bindM_assoc.
    rewrite (bindM_step _ _ _ _ _ (get_svc_ok w' l s Hs)), bindM_ret, Hd. done. }
  unfold round_end. erewrite bindM_step; [|unfold recovered; rewrite E; reflexivity]. done.
Qed.

(** the requests that go through: what the receive loop asks of a PUBLISH at QoS 1 *)
Record uploadable (max : Z) (b : Z) (t : list Z) (v : Z) (p : list Z) : Prop := {
  ul_type : Z.shiftr b 4 = PUBLISH;
  ul_qos : qos_of b = QosAtLeastOnce;
  ul_topic : ValidTopic t = true;
  ul_len : zlen t <= maxLPString;
  ul_data : t <> heartbeatTopic;
  ul_id : 0 < v < 2 ^ 16;
  ul_rem : remlen_ok (zlen (publish_body t (be16 v) p));
  ul_max : zlen (publish_wire b t (be16 v) p) <= max
}.

(** one turn of the receive loop with such a packet at the front of the stream *)
Lemma publish_turn w l s c d r x b t v p rest :
  receivers w !! l = Some (RxLoop c d r) -> wire_up w l s c x -> done_closed s = false ->
  reader_ok defaultReadSize r x -> uploadable (MaxBufferSize (srv w)) b t v p ->
  ahead r x = publish_wire b t (be16 v) p ++ rest ->
  exists r' x2 ps m, pools_ok ps /\ same_peer x x2 /\ closed x2 = false /\ ahead r' x2 = rest /\ reader_ok defaultReadSize r' x2 /\
    Topic m = t /\ Payload m = p /\ PacketId (Publish.hdr m) = v /\
    receiverData pick wpick l w =
      (Ret true, offered s m (sent (read_to w l c d r' x2) c x2 (ack_wire PUBACK v) ps (gid w))).
Proof.
  intros Hrx Hw Hd Hr [Hb Hq Ht Htl Hhb Hv Hn Hmax] Ha.
  destruct (publish_Decode_spec NewPublishMessage 48 b t (be16 v) p [] []) as (m & HD & H1 & H2 & H3 & H4 & _); try done.
  { by rewrite Hq. }
  { unfold id_ok. by rewrite Hq. }
  rewrite app_nil_r in HD. rewrite publish_wire_frame in Ha, Hmax.
  destruct (receive_packet w l c d r x b _ rest (MPublish NewPublishMessage) (MPublish m) (zlen (publish_wire b t (be16 v) p))
    Hrx (wu_at _ _ _ _ _ Hw) Hr Hn Ha Hmax) as (r2 & x2 & E & Ha2 & Hr2 & Hp2).
  { by rewrite Hb. }
  { change (bindO (Publish.Decode NewPublishMessage (Slice (publish_wire b t (be16 v) p) []))
      (fun '(m, n, err) => Ret (MPublish m, n, err)) = Ret (MPublish m, zlen (publish_wire b t (be16 v) p), None)).
    by rewrite HD. }
  pose proof Hp2 as (He2 & Hw2 & Hf2). pose proof Hr2 as (_ & _ & _ & Ho2). set (w1 := read_to w l c d r2 x2) in *.
  assert (Hw1 : wire_up w1 l s c x2).
  { destruct Hw as [A1 A2 A3 A4 A5 A6]. split; try done; [cbn; apply lookup_insert_eq|congruence]. }
  assert (Hpid : PacketId (Publish.hdr m) = v).
  { apply PacketId_be16; [lia|]. apply H4. by rewrite Hq. }
  destruct (publish_acked pick wpick w1 l s c x2 m Hw1) as (ps & Hps & Hac).
  { rewrite (QoS_byte m b), Hq; done. }
  { unfold Topic. by rewrite H1. }
  { by rewrite Hpid. }
  rewrite Hpid in Hac. exists r2, x2, ps, m. split_and!; try done.
  rewrite E. apply (round_end_goes_on _ _ _ _ s Hac); [|done]. unfold offered. destruct (_ <? _); apply Hw.
Qed.

Lemma offered_parts s m w :
  svcs (offered s m w) = svcs w /\ conns (offered s m w) = conns w /\ receivers (offered s m w) = receivers w /\
  sessions (offered s m w) = sessions w /\ srv (offered s m w) = srv w /\ wpools (offered s m w) = wpools w /\
  gid (offered s m w) = gid w /\ wheel (offered s m w) = wheel w /\ pushing (offered s m w) = pushing w /\
  msgChan (offered s m w) = (if zlen (msgChan w) <? msgChanCap
    then msgChan w ++ [mkUpload m (svc_productKey s) (svc_deviceName s)] else msgChan w).
Proof. unfold offered. by destruct (_ <? _). Qed.

(** A PUBLISH at QoS 1 makes its way into the server whole and once: in whatever
    segments its bytes arrive, one turn of the receive loop takes exactly them off
    the stream, sends the PUBACK with its identifier, offers the message with its
    topic, its payload and the names of the device to the upload channel, and goes
    on with the rest of the stream.  When the channel is full the message is
    dropped, although it is acknowledged all the same. *)
Theorem publish_received w l s c d r x b t v p rest :
  receivers w !! l = Some (RxLoop c d r) -> wire_up w l s c x -> done_closed s = false ->
  reader_ok defaultReadSize r x ->
  Z.shiftr b 4 = PUBLISH -> qos_of b = QosAtLeastOnce -> ValidTopic t = true -> zlen t <= maxLPString ->
  t <> heartbeatTopic -> 0 < v < 2 ^ 16 -> remlen_ok (zlen (publish_body t (be16 v) p)) ->
  ahead r x = publish_wire b t (be16 v) p ++ rest ->
  zlen (publish_wire b t (be16 v) p) <= MaxBufferSize (srv w) ->
  exists w' r' x' m, receiverData pick wpick l w = (Ret true, w') /\
    receivers w' !! l = Some (RxLoop c d r') /\ conns w' !! c = Some x' /\ ahead r' x' = rest /\
    reader_ok defaultReadSize r' x' /\ written x' = written x ++ ack_wire PUBACK v /\
    Topic m = t /\ Payload m = p /\ PacketId (Publish.hdr m) = v /\
    msgChan w' = (if zlen (msgChan w) <? msgChanCap
                  then msgChan w ++ [mkUpload m (svc_productKey s) (svc_deviceName s)] else msgChan w) /\
    svcs w' = svcs w /\ sessions w' = sessions w /\ srv w' = srv w /\ pools_ok (wpools w').
Proof.
  intros Hrx Hw Hd Hr Hb Hq Ht Htl Hhb Hv Hn Ha Hmax.
  destruct (publish_turn w l s c d r x b t v p rest Hrx Hw Hd Hr ltac:(by split) Ha)
    as (r2 & x2 & ps & m & Hps & (_ & Hw2 & _) & Ho & Ha2 & Hr2 & T1 & T2 & T3 & E).
  set (w2 := sent _ _ _ _ _ _) in *. destruct (offered_parts s m w2) as (F1 & F2 & F3 & F4 & F5 & F6 & _ & _ & _ & F7).
  exists (offered s m w2), r2, (wrote (ack_wire PUBACK v) x2), m. split; [exact E|].
  rewrite F1, F2, F3, F4, F5, F6, F7. split_and!; try done.
  - cbn. apply lookup_insert_eq.
  - apply lookup_insert_eq.
  - cbn. by rewrite Hw2.
Qed.

End Receive.

Lemma publish_received_witness :
  let w := d1_up 1000 [] [[50; 8]; [0; 1; 97; 0; 9; 88; 89; 90]] EOF in
  exists w' x' m, receiverData no_pick no_pick 1 w = (Ret true, w') /\ conns w' !! 0 = Some x' /\
    written x' = [32; 2; 0; 0] ++ [64; 2; 0; 9] /\ Payload m = [88; 89; 90] /\
    msgChan w' = [mkUpload m (str "pk") (str "d1")].
Proof.
  cbv zeta. set (w := d1_up 1000 [] [[50; 8]; [0; 1; 97; 0; 9; 88; 89; 90]] EOF).
  destruct (svcs w !! 1) as [s|] eqn:Es; [|vm_compute in Es; discriminate].
  destruct (conns w !! 0) as [x|] eqn:Ex; [|vm_compute in Ex; discriminate].
  destruct (publish_received no_pick no_pick w 1 s 0 65 NewReader x 50 [97] 9 [88; 89; 90] [] eq_refl)
    as (w' & r' & x' & m & H1 & _ & H2 & _ & _ & H3 & _ & H4 & _ & H5 & _).
  - split; [exact Es|of_sample Es|exact Ex|of_sample Ex|of_sample Ex|split; constructor].
  - of_sample Es.
  - split; [reflexivity|]. split; [vm_compute; discriminate|]. split; [|of_sample Ex].
    vm_compute in Ex. injection Ex as <-. repeat (constructor; [discriminate|]). constructor.
  - reflexivity.
  - reflexivity.
  - reflexivity.
  - vm_compute. discriminate.
  - discriminate.
  - lia.
  - vm_compute. split; discriminate.
  - of_sample Ex.
  - vm_compute. discriminate.
  - exists w', x', m. split; [exact H1|]. split; [exact H2|]. split; [|split; [exact H4|]].
    + rewrite H3. of_sample Ex.
    + rewrite H5. of_sample Es.
Defined.

(** ** Publishing to a client at QoS 1 *)

Section Publish.
Context {TW : Type} `{TimeWheelLaws TW}.
Context (pick : list (list Z) -> option nat) (wpick : list Writer -> option nat)
        (ppick : list PublishMessage -> option nat)
        (copy : PublishMessage -> PublishMessage -> PublishMessage).
Implicit Types w : world TW.

(** service [l] has a live session whose QoS 1 queue holds the entries [es] *)
Record queue_up w (s : service) (sl : Z) (ss : Session callback) (q : Ackqueue callback) (es : list (ackmsg callback)) : Prop := {
  qu_sess : sess s = Some sl;
  qu_at : cells (sessions w) !! sl = Some ss;
  qu_queue : Pub1ack ss = Some q;
  qu_inv : ack_inv q es;
  qu_pool : pool_ok (bytesPool q);
  qu_size : size q < 2 ^ 62
}.

(** an entry that waits for the PUBACK of the PUBLISH [v] the service [l] has sent *)
Record waiting_publish (a : ackmsg callback) (l v : Z) : Prop := {
  wp_type : Mtype a = PUBLISH;
  wp_id : Pktid a = v;
  wp_call : OnComplete a = Some (CbOnComplete l);
  wp_msg : exists m k, Publish.Decode NewPublishMessage (mkslice (Msgbuf a)) = Ret (m, k, None)
}.

(** the identifier [Encode] gives to a message that has none *)
Definition next_id w : Z := snd (allocPacketId (gid w)).

(** what the server's pool holds: PUBLISH messages without an identifier, at QoS 0
    or 1, their fields their own *)
Definition pm_clean (m : PublishMessage) : Prop :=
  (exists b, mtypeflags (Publish.hdr m) = Own [b] /\ (b = 48 \/ b = 50)) /\
  (exists i, packetId (Publish.hdr m) = Own i) /\ PacketId (Publish.hdr m) = 0.

Lemma PMPoolGet_ok p : pm_new p = true -> exists m p', PMPoolGet ppick p = Ret (m, p') /\ pm_new p' = true /\
  (m = pm_fresh \/ m ∈ pm_items p) /\ (forall x, x ∈ pm_items p' -> x ∈ pm_items p).
Proof.
  intros Hn. unfold PMPoolGet. destruct (ppick (pm_items p)) as [i|]; cbn [option_bind mbind].
  2: { rewrite Hn. exists pm_fresh, p. auto. }
  destruct (pm_items p !! i) as [m|] eqn:E; cbn.
  - exists m, (mkPMPool (delete i (pm_items p)) (pm_new p)). split; [done|]. split; [done|]. split.
    + right. by eapply list_elem_of_lookup_2.
    + intros x. cbn. apply list_elem_of_delete_inv.
  - rewrite Hn. exists pm_fresh, p. auto.
Qed.

(** the message and the bytes [publish] sends *)
Lemma publish_sent w l s c x m b :
  wire_up w l s c x -> 0 <= gid w -> sendable m b -> qos_of b = 1 -> PacketId (Publish.hdr m) = 0 ->
  let v := next_id w in
  exists ps m', pools_ok ps /\ send wpick l (MPublish m) w =
      (Ret (MPublish m', None), sent w c x (publish_wire b (topic m) (be16 v) (payload m)) ps (fst (allocPacketId (gid w)))) /\
    sendable m' b /\ PacketId (Publish.hdr m') = v /\ topic m' = topic m /\ payload m' = payload m.
Proof.
  intros Hw Hg S Hq Hz v. destruct (publish_len_sent m b S) as (n & HL & Hr & Hn).
  set (m1 := Publish.with_hdr (with_remlen n (Publish.hdr m)) m) in *.
  pose proof (allocPacketId_range (gid w) Hg) as [Hv Hg2]. fold (next_id w) in Hv. fold v in Hv.
  set (h' := SetPacketId (Publish.hdr m1) v).
  assert (Hid : sent_id m1 b (gid w) = (h', fst (allocPacketId (gid w)))).
  { unfold sent_id. rewrite (proj2 (Z.eqb_neq (qos_of b) 0)) by lia. unfold ensurePacketId.
    change (PacketId (Publish.hdr m1)) with (PacketId (Publish.hdr m)). rewrite Hz, Z.eqb_refl.
    unfold h', v, next_id. by destruct (allocPacketId (gid w)). }
  set (L := 1 + zlen (uvarint_bytes 10 n) + n) in *.
  pose proof (publish_Encode_spec m1 b (gid w) (replicate (Z.to_nat L) 0) (sendable_sized m b n S) Hg) as HE.
  rewrite Hid in HE. cbv zeta in HE.
  assert (Hsb : sent_bytes b h' = be16 v).
  { unfold sent_bytes. rewrite (proj2 (Z.eqb_neq (qos_of b) 0)) by lia. apply rd_SetPacketId. lia. }
  rewrite Hsb in HE. change (topic m1) with (topic m) in HE. change (payload m1) with (payload m) in HE.
  assert (Hidok : id_ok b (be16 v)) by (unfold id_ok; by rewrite (proj2 (Z.eqb_neq (qos_of b) 0)) by lia).
  set (body := publish_body (topic m) (be16 v) (payload m)) in *. set (wr := publish_wire b (topic m) (be16 v) (payload m)) in *.
  assert (Hwr : zlen wr = L).
  { unfold wr, publish_wire. rewrite zlen_app, zlen_hdr_wire. fold body. unfold L. rewrite (Hn _ Hidok). fold body. lia. }
  pose proof (zlen_nonneg wr). rewrite zlen_replicate, Z2Nat.id in HE by lia. specialize (HE ltac:(lia)).
  rewrite drop_ge, app_nil_r in HE by (rewrite length_replicate; unfold zlen in Hwr; lia).
  set (m2 := Publish.with_hdr (with_remlen (zlen body) h') m1) in *.
  destruct (send_ok wpick w l s c x (MPublish m) (MPublish m1) L (MPublish m2) (fst (allocPacketId (gid w))) wr (zlen wr) Hw) as (ps & Hps & Hs).
  - change (bindO (Publish.Len m) (fun '(m, n) => Ret (MPublish m, n)) = Ret (MPublish m1, L)). by rewrite HL.
  - change (bindO (Publish.Encode m1 (gid w) (replicate (Z.to_nat L) 0)) (fun '(m, g, dst, n, err) => Ret (MPublish m, g, dst, n, err))
      = Ret (MPublish m2, fst (allocPacketId (gid w)), wr, zlen wr, None)). by rewrite HE.
  - lia.
  - rewrite take_ge in Hs by (unfold zlen; lia). exists ps, m2. split; [done|]. split; [done|].
    destruct S as [Hd Hb Ht Htop Hpay Hap Hlen]. split; [split; try done|split; [|done]].
    + by apply dirty_SetPacketId.
    + change (rd h' (mtypeflags h') = [b]). unfold h'. rewrite rd_mtf_SetPacketId; [exact Hb|exact Hap].
    + by apply refs_apart_SetPacketId.
    + apply PacketId_be16; [lia|]. change (rd h' (packetId h') = be16 v). apply rd_SetPacketId. lia.
Qed.

(** [publish] to a live client: the packet is written with the next identifier,
    a timer for it is running, and the queue waits for its acknowledgement *)
Lemma publish_ok w l s c x sl ss q es m b :
  wire_up w l s c x -> queue_up w s sl ss q es -> 0 <= gid w ->
  sendable m b -> qos_of b = 1 -> ValidTopic (topic m) = true -> PacketId (Publish.hdr m) = 0 ->
  pm_new (pm s) = true -> next_id w ∉ ids es ->
  let v := next_id w in
  exists w' m' s' ss' q' a task copied,
    publish pick wpick ppick copy l m (Some (CbOnComplete l)) w = (Ret (m', None), w') /\
    conns w' = <[c:=wrote (publish_wire b (topic m) (be16 v) (payload m)) x]> (conns w) /\
    svcs w' = <[l:=s']> (svcs w) /\ cfg s' = cfg s /\ conn s' = conn s /\ sess s' = sess s /\ Map s' = <[v:=task]> (Map s) /\
    tw_tasks (wheel w) !! task = None /\ tw_tasks (wheel w') = <[task:=mkTimer l copied]> (tw_tasks (wheel w)) /\
    cells (sessions w') = <[sl:=ss']> (cells (sessions w)) /\ Pub1ack ss' = Some q' /\ ack_inv q' (es ++ [a]) /\
    waiting_publish a l v /\ AckQueue.ping q' = AckQueue.ping q /\ pool_ok (bytesPool q') /\ pools_ok (wpools w') /\
    srv w' = srv w /\ msgChan w' = msgChan w /\ pushing w' = pushing w /\
    PacketId (Publish.hdr m') = v /\ receivers w' = receivers w.
Proof.
  intros Hw [Q1 Q2 Q3 Q4 Q5 Q6] Hg S Hq Hvt Hz Hpm Hni v.
  destruct (publish_sent w l s c x m b Hw Hg S Hq Hz) as (ps & m1 & Hps & Hsend & S1 & Hid & Ht1 & Hp1). fold v in Hid, Hsend.
  set (w1 := sent w c x _ ps _) in *. pose proof (wu_svc _ _ _ _ _ Hw) as Hsv.
  pose proof (allocPacketId_range (gid w) Hg) as [Hv Hg2]. fold (next_id w) in Hv. fold v in Hv.
  destruct (PMPoolGet_ok (pm s) Hpm) as (cm & pm' & Hpg & _).
  destruct (tw_Add (wheel w) (ackTimeout (cfg s)) (mkTimer l (copy cm m1))) as [tw task] eqn:Etw.
  destruct (tw_add_fresh _ _ _ _ _ Etw) as [Hfr Htw].
  destruct (Wait_publish_ok callback pick q es (fst (allocPacketId (gid w))) (now w) m1 b (iface (Some (CbOnComplete l))) Q4 Q5 Q6 Hg2 S1)
    as (q' & g' & msg' & a & m2 & k & Hwait & Hinv' & Hpk & Hoc & _ & Hdec & _ & _ & _ & Hmt & Hpi & Hbp).
  { lia. } { by rewrite Hq. } { by rewrite Ht1. } { rewrite Hid. lia. } { by rewrite Hid. }
  set (s1 := set_spm pm' s). set (s2 := set_sMap (<[v:=task]> (Map s1)) s1).
  set (w2 := set_svcs (<[l:=s2]> (svcs w)) (set_wheel tw w1)).
  exists (set_gid g' (set_sessions (mkHeap (<[sl:=set_q ss QPub1ack q']> (cells (sessions w))) (next_loc (sessions w))) w2)),
    m1, s2, (set_q ss QPub1ack q'), q', a, task, (copy cm m1).
  assert (E : publish pick wpick ppick copy l m (Some (CbOnComplete l)) w =
    (do err <- wait pick l QPub1ack (MPublish m1) (Some (CbOnComplete l)) ;; retM (m1, err)) w2).
  { unfold publish. rewrite (bindM_step _ _ _ _ _ Hsend). cbv beta iota zeta.
    rewrite (QoS_byte m1 b) by apply S1. rewrite bindM_lift, Hq. cbn [Z.eqb QosAtMostOnce QosAtLeastOnce Pos.eqb].
    erewrite bindM_step by (apply get_svc_ok; exact Hsv). rewrite Hpg, bindM_lift. cbv beta iota.
    erewrite bindM_step by (apply upd_svc_ok; exact Hsv). rewrite bindM_gets. cbn [wheel set_svcs]. fold s1.
    change (wheel w1) with (wheel w). rewrite Etw. cbv beta iota. rewrite bindM_modify.
    erewrite bindM_step by (apply upd_svc_ok; cbn; apply lookup_insert_eq).
    erewrite bindM_step by (apply get_svc_ok; cbn; apply lookup_insert_eq).
    cbn [sess set_sMap s1 set_spm]. rewrite Q1, bindM_gets. cbn [sessions set_svcs set_wheel w1 sent]. cbn.
    rewrite Q2. cbn [deref_some]. rewrite bindM_ret, Q3, Hid. unfold w2, set_svcs, set_wheel. cbn. by rewrite insert_insert_eq. }
  rewrite E. split; [|split_and!; try done].
  unfold wait, get_queue. rewrite !bindM_assoc.
  erewrite bindM_step by (eapply get_sess_ok; [cbn; apply lookup_insert_eq|exact Q1|exact Q2]).
  cbn [get_q snd fst]. rewrite Q3. cbn [deref_some]. rewrite bindM_assoc, !bindM_ret.
  cbv beta iota. rewrite bindM_assoc, bindM_gets, bindM_assoc.
  change (gid w2) with (fst (allocPacketId (gid w))). change (now w2) with (now w). rewrite Hwait, bindM_lift. cbv beta iota.
  unfold put_sess. rewrite bindM_assoc, bindM_modify, bindM_assoc, bindM_modify, bindM_ret. done.
  split; [done|congruence|done|by exists m2, k].
Qed.

Lemma path_tail (ls : list (list Z)) (x y : list Z) :
  let l := ls ++ [x; y] in
  zlen l = 2 + zlen ls /\ index l (2 + zlen ls - 2) = Ret x /\ index l (2 + zlen ls - 1) = Ret y /\
  subslice l (2 + zlen ls - 2) (2 + zlen ls) = Ret [x; y].
Proof.
  intros l. pose proof (zlen_nonneg ls). assert (Hz : zlen l = 2 + zlen ls).
  { unfold l. rewrite zlen_app. change (zlen [x; y]) with 2. lia. }
  split; [done|]. unfold index, subslice. rewrite Hz.
  split; [|split].
  - destruct (_ && _) eqn:E; [|lia]. unfold l. rewrite lookup_app_r by (unfold zlen; lia).
    by replace (Z.to_nat (2 + zlen ls - 2) - length ls)%nat with 0%nat by (unfold zlen; lia).
  - destruct (_ && _) eqn:E; [|lia]. unfold l. rewrite lookup_app_r by (unfold zlen; lia).
    by replace (Z.to_nat (2 + zlen ls - 1) - length ls)%nat with 1%nat by (unfold zlen; lia).
  - destruct (_ && _) eqn:E; [|lia]. unfold l. rewrite drop_zlen_app by lia.
    by replace (Z.to_nat (2 + zlen ls - (2 + zlen ls - 2))) with 2%nat by lia.
Qed.

Lemma pm_fresh_clean : pm_clean pm_fresh.
Proof. split; [exists 48; split; [done|by left]|]. split; [by eexists|done]. Qed.

(** the message [push_one] builds from one of the pool *)
Lemma push_message m t p : pm_clean m -> ValidTopic t = true -> zlen t <= maxLPString -> 0 < zlen p ->
  remlen_ok (4 + zlen t + zlen p) ->
  exists m1, SetQoS m QosAtLeastOnce = Ret (m1, None) /\
    let m2 := SetPayload (fst (SetTopic m1 t)) p in
    sendable m2 50 /\ topic m2 = t /\ payload m2 = p /\ PacketId (Publish.hdr m2) = 0.
Proof.
  intros ((b & Hb & Hbb) & (i & Hi) & Hz) Hvt Htl Hp Hr.
  assert (Ht0 : 0 < zlen t). { destruct t; [done|]. rewrite zlen_cons. pose proof (zlen_nonneg t). lia. }
  unfold SetQoS. cbn [Z.eqb QosAtLeastOnce negb andb Pos.eqb]. unfold update_flags. rewrite Hb. cbn [rd]. rewrite index_0, !bindO_ret.
  eexists. split; [done|]. unfold SetTopic. rewrite Hvt. cbn [negb fst]. cbv zeta.
  assert (Hst : store_mtypeflags (Publish.hdr m) (Z.lor (Z.land b 249) (u8 (Z.shiftl QosAtLeastOnce 1))) = with_mtypeflags (Own [50]) (Publish.hdr m)).
  { unfold store_mtypeflags. rewrite Hb. by destruct Hbb as [->| ->]. }
  rewrite Hst. split; [|split_and!; try done].
  - split; try done. cbn [topic payload SetPayload]. unfold remlen_ok in *. lia.
Qed.

(** The delivery of an upload, end to end.  [PushMsg] takes the oldest message
    of the channel; when its topic ends in [/pk/dn] and the device [pk:dn] is
    connected, the payload goes out on that device's connection, and on no other,
    as a PUBLISH at QoS 1 on [/sys/pk/dn/thing/download] with the next packet
    identifier; a fresh timer for this identifier is running, the device's queue
    has one more entry at its end that waits for the PUBACK and will call
    [onComplete], and the goroutine goes on with the next message. *)
Theorem push_routed w u us pre pk dn l s c x sl ss q es :
  pushing w = true -> msgChan w = u :: us ->
  Topic (up_Msg u) = pre ++ 47 :: pk ++ 47 :: dn -> 47 ∉ pk -> 47 ∉ dn ->
  svcMap (srv w) !! (pk ++ 58 :: dn) = Some l ->
  wire_up w l s c x -> queue_up w s sl ss q es -> 0 <= gid w -> next_id w ∉ ids es ->
  pm_new (srv_pm (srv w)) = true -> Forall pm_clean (pm_items (srv_pm (srv w))) -> pm_new (pm s) = true ->
  ValidTopic (downloadTopic pk dn) = true -> zlen (downloadTopic pk dn) <= maxLPString ->
  0 < zlen (Payload (up_Msg u)) -> remlen_ok (4 + zlen (downloadTopic pk dn) + zlen (Payload (up_Msg u))) ->
  let v := next_id w in
  exists w' s' ss' q' a task copied,
    PushMsg pick wpick ppick copy w = (Ret tt, w') /\
    conns w' = <[c:=wrote (publish_wire 50 (downloadTopic pk dn) (be16 v) (Payload (up_Msg u))) x]> (conns w) /\
    svcs w' = <[l:=s']> (svcs w) /\ conn s' = conn s /\ sess s' = sess s /\ Map s' = <[v:=task]> (Map s) /\
    tw_tasks (wheel w) !! task = None /\ tw_tasks (wheel w') = <[task:=mkTimer l copied]> (tw_tasks (wheel w)) /\
    cells (sessions w') = <[sl:=ss']> (cells (sessions w)) /\ Pub1ack ss' = Some q' /\ ack_inv q' (es ++ [a]) /\
    waiting_publish a l v /\ AckQueue.ping q' = AckQueue.ping q /\ pool_ok (bytesPool q') /\
    msgChan w' = us /\ pushing w' = true /\ svcMap (srv w') = svcMap (srv w) /\ receivers w' = receivers w.
Proof.
  intros Hpu Hch Htp Hpk Hdn Hreg Hw Hq Hg Hni Hn1 Hcl Hn2 Hvt Htl Hp Hr v.
  assert (Hsp : Split (Topic (up_Msg u)) 47 = Split pre 47 ++ [pk; dn]).
  { by rewrite Htp, Split_app, (Split_cons pk), (Split_none dn). }
  destruct (path_tail (Split pre 47) pk dn) as (P1 & P2 & P3 & P4).
  destruct (PMPoolGet_ok (srv_pm (srv w)) Hn1) as (pm0 & pl & Hget & _ & Hfrom & _).
  assert (Hc0 : pm_clean pm0).
  { destruct Hfrom as [->|Hin]; [apply pm_fresh_clean|]. by eapply Forall_forall in Hcl. }
  destruct (push_message pm0 (downloadTopic pk dn) (Payload (up_Msg u)) Hc0 Hvt Htl Hp Hr) as (m1 & Hsq & S & Hmt & Hmp & Hmi).
  set (m3 := SetPayload (fst (SetTopic m1 (downloadTopic pk dn))) (Payload (up_Msg u))) in *.
  set (w1 := set_srv (set_srv_pm pl (srv w)) (set_msgChan us w)).
  assert (Hw1 : wire_up w1 l s c x) by (destruct Hw; by split).
  assert (Hq1 : queue_up w1 s sl ss q es) by (destruct Hq; by split).
  destruct (publish_ok w1 l s c x sl ss q es m3 50 Hw1 Hq1 Hg S eq_refl ltac:(by rewrite Hmt) Hmi Hn2 Hni)
    as (w2 & m' & s' & ss' & q' & a & task & copied & Hpub & R1 & R2 & R3 & R4 & R5 & R6 & R7 & R8 & R9 & R10 & R11 & R12 & R13 & R14 & _ & R15 & R16 & R17 & _ & R18).
  exists (set_pushing true (set_srv (set_srv_pm (PMPoolPut (srv_pm (srv w2)) m') (srv w2)) w2)), s', ss', q', a, task, copied.
  split; [|split_and!; try done].
  2: { rewrite Hmt, Hmp in R1. exact R1. }
  2: { cbn. by rewrite R15. }
  unfold PushMsg. rewrite bindM_gets, Hpu, Hch, bindM_modify.
  assert (E : push_one pick wpick ppick copy u (set_msgChan us w) =
    (Ret true, set_srv (set_srv_pm (PMPoolPut (srv_pm (srv w2)) m') (srv w2)) w2)).
  { unfold push_one. cbv zeta. rewrite Hsp, P1. destruct (2 + zlen (Split pre 47) <? 2) eqn:E; [pose proof (zlen_nonneg (Split pre 47)); lia|].
    rewrite P2, bindM_lift, P3, bindM_lift, P4, bindM_lift, bindM_gets.
    change (Join [pk; dn] (str ":")) with (pk ++ 58 :: dn). change (svcMap (srv (set_msgChan us w))) with (svcMap (srv w)).
    rewrite Hreg, bindM_gets. change (srv_pm (srv (set_msgChan us w))) with (srv_pm (srv w)). rewrite Hget, bindM_lift. cbv beta iota.
    unfold upd_srv. rewrite bindM_modify, Hsq, bindM_lift. cbn [fst].
    destruct (SetTopic m1 (downloadTopic pk dn)) as [m2 e2] eqn:E2. cbn [fst] in m3.
    rewrite (bindM_step _ _ _ _ _ Hpub). done. }
  rewrite (bindM_step _ _ _ _ _ E). done.
Qed.

End Publish.

(** device [d1] has uploaded on a topic that names itself *)
Definition echo_upload : UploadMsg := mkUpload (mkPublish (Publish.hdr NewPublishMessage) (str "up/pk/d1") [88; 89]) (str "pk") (str "d1").

Lemma push_routed_witness :
  let w := d1_up 1000 [echo_upload] [] EOF in
  exists w' x', PushMsg no_pick no_pick no_pick copy_all w = (Ret tt, w') /\ conns w !! 0 = Some x' /\
    conns w' = <[0:=wrote (publish_wire 50 (str "/sys/pk/d1/thing/download") (be16 1) [88; 89]) x']> (conns w) /\ msgChan w' = [].
Proof.
  cbv zeta. set (w := d1_up 1000 [echo_upload] [] EOF).
  destruct (svcs w !! 1) as [s|] eqn:Es; [|vm_compute in Es; discriminate].
  destruct (conns w !! 0) as [x|] eqn:Ex; [|vm_compute in Ex; discriminate].
  destruct (cells (sessions w) !! 0) as [ss|] eqn:Ess; [|vm_compute in Ess; discriminate].
  destruct (push_routed no_pick no_pick no_pick copy_all w echo_upload [] (str "up") (str "pk") (str "d1") 1 s 0 x 0 ss
    (newAckqueue defaultQueueSize true) []) as (w' & s' & ss' & q' & a & task & copied & H1 & H2 & _ & _ & _ & _ & _ & _ & _ & _ & _ & _ & _ & _ & H3 & _).
  - reflexivity.
  - reflexivity.
  - reflexivity.
  - by apply (bool_decide_unpack _); vm_compute.
  - by apply (bool_decide_unpack _); vm_compute.
  - vm_compute. reflexivity.
  - split; [exact Es|of_sample Es|exact Ex|of_sample Ex|of_sample Ex|split; constructor].
  - split; [of_sample Es|exact Ess|of_sample Ess|apply newAckqueue_inv; vm_compute; split; discriminate|
      split; [reflexivity|reflexivity|constructor]|vm_compute; reflexivity].
  - vm_compute. discriminate.
  - by apply (bool_decide_unpack _); vm_compute.
  - reflexivity.
  - constructor.
  - of_sample Es.
  - vm_compute. reflexivity.
  - vm_compute. discriminate.
  - vm_compute. reflexivity.
  - vm_compute. split; discriminate.
  - exists w', x. split; [exact H1|]. split; [reflexivity|]. split; [exact H2|exact H3].
Defined.
