(* ===== verification/Flow.v ===== *)
(** * Flow: messages through the server

    Several turns put together: the publications of one device reach the upload
    channel in order, and an upload of one device reaches the connection of
    another. *)
From stdpp Require Import base list strings gmap.
From Stdlib Require Import ZArith Lia.
From S2P Require Import MsgTypes Header Puback Publish Connect Connack Message AckQueue Session.
From S2P Require Import Prelude GoLang GoStrings NetConn Framing Connectivity World Service ServiceSpec Server Sample ServerSpec Delivery.

(** a publication as its sender means it: the first byte, topic, identifier, payload *)
Record publication : Type := mkPub { pb_byte : Z; pb_topic : list Z; pb_id : Z; pb_payload : list Z }.

Definition pub_wire (P : publication) : list Z := publish_wire (pb_byte P) (pb_topic P) (be16 (pb_id P)) (pb_payload P).
Definition pub_ok (max : Z) (P : publication) : Prop := uploadable max (pb_byte P) (pb_topic P) (pb_id P) (pb_payload P).

(** what can be seen of an upload *)
Definition seen (u : UploadMsg) : list Z * list Z * list Z * list Z :=
  (Topic (up_Msg u), Payload (up_Msg u), up_DeviceName u, up_ProductKey u).

(** a publication as an upload of the service [s]; the two names change places *)
Definition as_upload (s : service) (P : publication) : list Z * list Z * list Z * list Z :=
  (pb_topic P, pb_payload P, svc_productKey s, svc_deviceName s).

Section Flow.
Context {TW : Type} `{TimeWheelLaws TW}.
Context (pick : list (list Z) -> option nat) (wpick : list Writer -> option nat)
        (ppick : list PublishMessage -> option nat)
        (copy : PublishMessage -> PublishMessage -> PublishMessage).
Implicit Types w : world TW.

(** [n] turns of a receiver, all of which go on *)
Fixpoint turns (n : nat) (l : Z) w : option (world TW) :=
  match n with
  | O => Some w
  | S n => match receiverData pick wpick l w with
           | (Ret true, w) => turns n l w
           | _ => None
           end
  end.

Lemma wrote_wire_up w l s c x x2 b ps g w' :
  wire_up w l s c x -> same_peer x x2 -> closed x2 = false -> pools_ok ps ->
  svcs w' = svcs w -> conns w' = <[c:=wrote b x2]> (conns w) -> wpools w' = ps -> gid w' = g ->
  wire_up w' l s c (wrote b x2).
Proof.
  intros [A1 A2 A3 A4 A5 A6] (_ & _ & Hf) Ho Hps E1 E2 E3 _. split; try done.
  - by rewrite E1.
  - rewrite E2. apply lookup_insert_eq.
  - cbn. congruence.
  - by rewrite E3.
Qed.

Lemma take_take_app {A} n (l k : list A) : take n (take n l ++ k) = take n (l ++ k).
Proof.
  destruct (Nat.le_gt_cases (length l) n) as [Hl|Hl]; [by rewrite (take_ge l)|].
  rewrite !take_app_le by (rewrite ?length_take; lia). by rewrite take_take, Nat.min_id.
Qed.

(** the channel takes a message while there is room *)
Lemma offer_seen (ch : list UploadMsg) u :
  map seen (if zlen ch <? msgChanCap then ch ++ [u] else ch) =
  take (Z.to_nat (Z.max msgChanCap (zlen ch))) (map seen ch ++ [seen u]).
Proof.
  unfold msgChanCap. destruct (zlen ch <? 1024) eqn:E.
  - rewrite map_app, take_ge; [done|]. rewrite length_app, length_map. cbn. unfold zlen in *. lia.
  - rewrite Z.max_r, take_app_length' by (rewrite ?length_map; unfold zlen in *; lia). done.
Qed.

(** C5: Publications of one device are acknowledged and uploaded in the order in which
    it sent them, each of them once, however the network cuts the stream: for a
    stream that starts with the packets of [Ps], as many turns of the receive loop
    take exactly these packets, write exactly their PUBACKs, and append the
    publications to the upload channel, which keeps the first 1024 messages and
    drops the rest; nothing else of the server changes. *)
Theorem uploads_in_order Ps : forall w l s c d r x rest,
  receivers w !! l = Some (RxLoop c d r) -> wire_up w l s c x -> done_closed s = false ->
  reader_ok defaultReadSize r x -> Forall (pub_ok (MaxBufferSize (srv w))) Ps ->
  ahead r x = concat (map pub_wire Ps) ++ rest -> zlen (msgChan w) <= msgChanCap ->
  exists w' r' x', turns (length Ps) l w = Some w' /\
    receivers w' = <[l:=RxLoop c d r']> (receivers w) /\ conns w' = <[c:=x']> (conns w) /\
    ahead r' x' = rest /\ reader_ok defaultReadSize r' x' /\ wire_up w' l s c x' /\
    written x' = written x ++ concat (map (fun P => ack_wire PUBACK (pb_id P)) Ps) /\
    map seen (msgChan w') = take (Z.to_nat msgChanCap) (map seen (msgChan w) ++ map (as_upload s) Ps) /\
    svcs w' = svcs w /\ sessions w' = sessions w /\ srv w' = srv w /\ wheel w' = wheel w /\ pushing w' = pushing w /\ gid w' = gid w.
Proof.
  induction Ps as [|P Ps IH]; intros w l s c d r x rest Hrx Hw Hd Hr Hps Ha Hcap.
  - exists w, r, x. cbn in *. rewrite !app_nil_r, take_ge by (rewrite length_map; unfold zlen, msgChanCap in *; lia).
    rewrite (insert_id _ _ _ Hrx), (insert_id _ _ _ (wu_at _ _ _ _ _ Hw)). by split_and!.
  - apply Forall_cons in Hps as [HP HPs]. cbn [map concat] in Ha. rewrite <- app_assoc in Ha.
    destruct (publish_turn pick wpick w l s c d r x _ _ _ _ _ Hrx Hw Hd Hr HP Ha)
      as (r1 & x1 & ps & m & Hpl & Hsp & Ho & Ha1 & Hr1 & T1 & T2 & _ & E).
    set (w0 := sent _ _ _ _ _ _) in *. set (w1 := offered s m w0) in *.
    destruct (offered_parts s m w0) as (F1 & F2 & F3 & F4 & F5 & F6 & F7 & F8 & F9 & F10). fold w1 in F1, F2, F3, F4, F5, F6, F7, F8, F9, F10.
    set (b := ack_wire PUBACK (pb_id P)) in *.
    assert (C1 : conns w1 = <[c:=wrote b x1]> (conns w)) by (rewrite F2; cbn; apply insert_insert_eq).
    assert (R1 : receivers w1 = <[l:=RxLoop c d r1]> (receivers w)) by (by rewrite F3).
    assert (Hw1 : wire_up w1 l s c (wrote b x1)) by (by eapply (wrote_wire_up w)).
    assert (Hch : map seen (msgChan w1) = take (Z.to_nat msgChanCap) (map seen (msgChan w) ++ [as_upload s P])).
    { rewrite F10. change (msgChan w0) with (msgChan w). rewrite offer_seen, Z.max_l by done. unfold as_upload, seen at 2. cbn.
      by rewrite T1, T2. }
    assert (Hcap1 : zlen (msgChan w1) <= msgChanCap).
    { apply (f_equal length) in Hch. rewrite length_map, length_take in Hch. unfold zlen, msgChanCap in *. lia. }
    destruct (IH w1 l s c d r1 (wrote b x1) rest) as (w' & r' & x' & E2 & G1 & G2 & G3 & G4 & G5 & G6 & G7 & G8 & G9 & G10 & G11 & G12 & G13); try done.
    { rewrite R1. apply lookup_insert_eq. }
    { rewrite F5. exact HPs. }
    exists w', r', x'. split; [cbn [length turns]; rewrite E; exact E2|].
    rewrite G1, G2, G8, G9, G10, G11, G12, G13, R1, C1, !insert_insert_eq. split_and!; try done.
    + rewrite G6. cbn [written wrote map concat]. destruct Hsp as (_ & Hwr & _). fold b. by rewrite app_assoc, Hwr.
    + rewrite G7, Hch. cbn [map]. rewrite take_take_app, <- app_assoc. done.
Qed.

(** C2: From one socket to another.  The device of service [l] publishes on a topic
    that ends in [/pk/dn], and the device [pk:dn] is connected on another
    connection.  One turn of the first receiver and one turn of [PushMsg] later the
    payload has gone out to that device, as a PUBLISH at QoS 1 on its download topic
    with the next packet identifier, the sender has its PUBACK, the device's queue
    has the message as its last entry, waiting for the acknowledgement, with a
    timer of its own, and the channel is empty again. *)
Theorem upload_to_delivery w l s c d r x P rest pre pk dn l2 s2 c2 x2 sl ss q es :
  receivers w !! l = Some (RxLoop c d r) -> wire_up w l s c x -> done_closed s = false -> reader_ok defaultReadSize r x ->
  pub_ok (MaxBufferSize (srv w)) P -> ahead r x = pub_wire P ++ rest -> msgChan w = [] -> pushing w = true ->
  pb_topic P = pre ++ 47 :: pk ++ 47 :: dn -> 47 ∉ pk -> 47 ∉ dn ->
  svcMap (srv w) !! (pk ++ 58 :: dn) = Some l2 -> c2 <> c ->
  wire_up w l2 s2 c2 x2 -> queue_up w s2 sl ss q es -> 0 <= gid w -> next_id w ∉ ids es ->
  pm_new (srv_pm (srv w)) = true -> Forall pm_clean (pm_items (srv_pm (srv w))) -> pm_new (pm s2) = true ->
  ValidTopic (downloadTopic pk dn) = true -> zlen (downloadTopic pk dn) <= maxLPString ->
  0 < zlen (pb_payload P) -> remlen_ok (4 + zlen (downloadTopic pk dn) + zlen (pb_payload P)) ->
  let v := next_id w in
  exists w1 w2 r' x' s2' ss' q' a task copied,
    receiverData pick wpick l w = (Ret true, w1) /\ PushMsg pick wpick ppick copy w1 = (Ret tt, w2) /\
    receivers w2 = <[l:=RxLoop c d r']> (receivers w) /\ ahead r' x' = rest /\
    conns w2 = <[c2:=wrote (publish_wire 50 (downloadTopic pk dn) (be16 v) (pb_payload P)) x2]> (<[c:=x']> (conns w)) /\
    written x' = written x ++ ack_wire PUBACK (pb_id P) /\
    svcs w2 = <[l2:=s2']> (svcs w) /\ Map s2' = <[v:=task]> (Map s2) /\
    tw_tasks (wheel w) !! task = None /\ tw_tasks (wheel w2) = <[task:=mkTimer l2 copied]> (tw_tasks (wheel w)) /\
    cells (sessions w2) = <[sl:=ss']> (cells (sessions w)) /\ Pub1ack ss' = Some q' /\ ack_inv q' (es ++ [a]) /\
    waiting_publish a l2 v /\ msgChan w2 = [] /\ pushing w2 = true.
Proof.
  intros Hrx Hw Hd Hr HP Ha Hch Hpu Htop Hpk Hdn Hreg Hc Hw2 Hq Hg Hni Hn1 Hcl Hn2 Hvt Htl Hpl Hrem v.
  destruct (publish_turn pick wpick w l s c d r x _ _ _ _ _ Hrx Hw Hd Hr HP Ha)
    as (r1 & x1 & ps & m & Hps & Hsp & Ho & Ha1 & Hr1 & T1 & T2 & _ & E).
  set (w0 := sent _ _ _ _ _ _) in *. set (w1 := offered s m w0) in *.
  destruct (offered_parts s m w0) as (F1 & F2 & F3 & F4 & F5 & F6 & F7 & F8 & F9 & F10). fold w1 in F1, F2, F3, F4, F5, F6, F7, F8, F9, F10.
  change (wheel w0) with (wheel w) in F8. change (msgChan w0) with (msgChan w) in F10. rewrite Hch in F10. change (zlen (@nil UploadMsg) <? msgChanCap) with true in F10.
  cbn [app] in F10. set (u := mkUpload m (svc_productKey s) (svc_deviceName s)) in *.
  set (x' := wrote (ack_wire PUBACK (pb_id P)) x1) in *.
  assert (C1 : conns w1 = <[c:=x']> (conns w)) by (rewrite F2; cbn; apply insert_insert_eq).
  assert (Hw1 : wire_up w1 l2 s2 c2 x2).
  { destruct Hw2 as [A1 A2 A3 A4 A5 A6]. split; try done; [by rewrite F1|by rewrite C1, lookup_insert_ne|by rewrite F6]. }
  assert (Hq1 : queue_up w1 s2 sl ss q es) by (destruct Hq as [B1 B2 B3 B4 B5 B6]; split; try done; by rewrite F4).
  assert (Hv : next_id w1 = v) by (unfold next_id; by rewrite F7).
  destruct (push_routed pick wpick ppick copy w1 u [] pre pk dn l2 s2 c2 x2 sl ss q es)
    as (w2 & s2' & ss' & q' & a & task & copied & E2 & G1 & G2 & _ & _ & G3 & G4 & G5 & G6 & G7 & G8 & G9 & _ & _ & G10 & G11 & _ & G12);
    try done; try (by rewrite ?F5, ?F7, ?F9, ?T1, ?T2, ?Hv).
  { cbn. by rewrite T1. }
  { cbn. by rewrite T2. }
  { cbn. by rewrite T2. }
  exists w1, w2, r1, x', s2', ss', q', a, task, copied.
  split; [exact E|]. split; [exact E2|]. rewrite Hv in G1, G3, G9. cbn [up_Msg u] in G1. rewrite T2 in G1.
  split_and!; try done; rewrite ?G1, ?G2, ?G5, ?G6, ?C1, ?F1, ?F4; try done.
  - rewrite G12. exact F3.
  - destruct Hsp as (_ & Hwr & _). cbn. by rewrite Hwr.
  - by rewrite <- F8.
  - by rewrite F8.
Qed.

End Flow.

(** ** Two publications, two devices *)

Definition two_pubs : list publication := [mkPub 50 (str "a") 9 [88; 89; 90]; mkPub 50 (str "b") 10 [65]].
Definition two_segs : list (list Z) := [[50; 8; 0]; [1; 97; 0; 9; 88; 89; 90; 50; 6]; [0; 1; 98; 0; 10; 65; 192; 0]].

Lemma two_pubs_ok : Forall (pub_ok 1000) two_pubs.
Proof.
  unfold two_pubs. repeat apply Forall_cons_2; [..|apply Forall_nil_2]; split;
    vm_compute; try split; solve [reflexivity | discriminate].
Qed.

Lemma uploads_in_order_witness :
  let w := d1_up 1000 [] two_segs EOF in
  exists w' x', turns no_pick no_pick 2 1 w = Some w' /\
    written x' = [32; 2; 0; 0] ++ [64; 2; 0; 9; 64; 2; 0; 10] /\ conns w' !! 0 = Some x' /\
    map seen (msgChan w') = [(str "a", [88; 89; 90], str "pk", str "d1"); (str "b", [65], str "pk", str "d1")].
Proof.
  cbv zeta. set (w := d1_up 1000 [] two_segs EOF).
  destruct (svcs w !! 1) as [s|] eqn:Es; [|vm_compute in Es; discriminate].
  destruct (conns w !! 0) as [x|] eqn:Ex; [|vm_compute in Ex; discriminate].
  destruct (uploads_in_order no_pick no_pick two_pubs w 1 s 0 65 NewReader x [192; 0])
    as (w' & r' & x' & H1 & _ & H2 & _ & _ & _ & H3 & H4 & _).
  - vm_compute. reflexivity.
  - split; [exact Es|of_sample Es|exact Ex|of_sample Ex|of_sample Ex|split; constructor].
  - of_sample Es.
  - split; [reflexivity|]. split; [vm_compute; discriminate|]. split; [|of_sample Ex].
    vm_compute in Ex. injection Ex as <-. repeat (constructor; [discriminate|]). constructor.
  - exact two_pubs_ok.
  - of_sample Ex.
  - vm_compute. discriminate.
  - assert (Hx : written x = [32; 2; 0; 0]) by of_sample Ex.
    assert (Hs : svc_productKey s = str "pk" /\ svc_deviceName s = str "d1") by (split; of_sample Es).
    destruct Hs as [Hpk Hdn]. exists w', x'. split; [exact H1|]. split; [|split].
    + rewrite H3, Hx. reflexivity.
    + rewrite H2. apply lookup_insert_eq.
    + rewrite H4. unfold as_upload. rewrite Hpk, Hdn. vm_compute. reflexivity.
Defined.

(** a second device, on connection 1 *)
Definition d2_connect : ConnectMessage := SetUsername d1_connect (str "d2&pk").
Definition d2_bytes : list Z := connect_wire (str "MQTT") d2_connect.
Definition d2_key : list Z := str "pk:d2".

(** both devices are connected; [d1] has sent [ss] *)
Definition both_up (ss : list (list Z)) : world simple_wheel :=
  snd (storeMap d2_key 2 (snd (shake 1 (arrive 1 (dial [d2_bytes] EOF) (d1_up 1000 [] ss EOF))))).

Definition for_d2 : publication := mkPub 50 (str "up/pk/d2") 7 [72; 105].

Lemma for_d2_ok : pub_ok 1000 for_d2.
Proof. split; vm_compute; try split; solve [reflexivity | discriminate]. Qed.

Lemma upload_to_delivery_witness :
  let w := both_up [pub_wire for_d2] in
  exists w1 w2 y, receiverData no_pick no_pick 1 w = (Ret true, w1) /\
    PushMsg no_pick no_pick no_pick copy_all w1 = (Ret tt, w2) /\ conns w2 !! 1 = Some y /\
    written y = [32; 2; 0; 0] ++ publish_wire 50 (str "/sys/pk/d2/thing/download") (be16 1) [72; 105].
Proof.
  cbv zeta. set (w := both_up [pub_wire for_d2]).
  destruct (svcs w !! 1) as [s|] eqn:Es; [|vm_compute in Es; discriminate].
  destruct (conns w !! 0) as [x|] eqn:Ex; [|vm_compute in Ex; discriminate].
  destruct (svcs w !! 2) as [s2|] eqn:Es2; [|vm_compute in Es2; discriminate].
  destruct (conns w !! 1) as [x2|] eqn:Ex2; [|vm_compute in Ex2; discriminate].
  destruct (cells (sessions w) !! 1) as [ss|] eqn:Ess; [|vm_compute in Ess; discriminate].
  destruct (upload_to_delivery no_pick no_pick no_pick copy_all w 1 s 0 65 NewReader x for_d2 [] (str "up") (str "pk") (str "d2")
    2 s2 1 x2 1 ss (newAckqueue defaultQueueSize true) [])
    as (w1 & w2 & r' & x' & s2' & ss' & q' & a & task & copied & H1 & H2 & _ & _ & H3 & _).
  - vm_compute. reflexivity.
  - split; [exact Es|of_sample Es|exact Ex|of_sample Ex|of_sample Ex|split; constructor].
  - of_sample Es.
  - split; [reflexivity|]. split; [vm_compute; discriminate|]. split; [|of_sample Ex].
    vm_compute in Ex. injection Ex as <-. repeat (constructor; [discriminate|]). constructor.
  - exact for_d2_ok.
  - of_sample Ex.
  - vm_compute. reflexivity.
  - vm_compute. reflexivity.
  - vm_compute. reflexivity.
  - by apply (bool_decide_unpack _); vm_compute.
  - by apply (bool_decide_unpack _); vm_compute.
  - vm_compute. reflexivity.
  - discriminate.
  - split; [exact Es2|of_sample Es2|exact Ex2|of_sample Ex2|of_sample Ex2|split; constructor].
  - split; [of_sample Es2|exact Ess|of_sample Ess|apply newAckqueue_inv; unfold defaultQueueSize; lia|split; [reflexivity|reflexivity|constructor]|reflexivity].
  - vm_compute. discriminate.
  - by apply not_elem_of_nil.
  - vm_compute. reflexivity.
  - vm_compute. constructor.
  - of_sample Es2.
  - vm_compute. reflexivity.
  - vm_compute. discriminate.
  - vm_compute. reflexivity.
  - vm_compute. split; discriminate.
  - eexists w1, w2, _. split; [exact H1|]. split; [exact H2|]. split; [rewrite H3; apply lookup_insert_eq|].
    assert (Hx : written x2 = [32; 2; 0; 0]) by of_sample Ex2. cbn [written wrote]. rewrite Hx. vm_compute. reflexivity.
Defined.
