(* ===== verification/Settle.v ===== *)
(** * Settle: the acknowledgement of a delivery

    The PUBACK of the client ends the life of a PUBLISH that [PushMsg] sent: the
    entry leaves the queue, the callback runs, the timer is removed. *)
From stdpp Require Import base list strings gmap.
From Stdlib Require Import ZArith Lia.
From S2P Require Import PacketId MsgTypes Header Puback Suback Publish Connect Connack Message AckQueue Session.
From S2P Require Import Prelude GoLang GoStrings NetConn Framing Connectivity World Service ServiceSpec Server Sample ServerSpec Delivery.

(** the message [Decode] makes of the PUBACK [v] *)
Definition puback_msg (v : Z) : header := mkHeader 2 (Sub 0 1) (Sub 2 2) (mkslice (ack_wire PUBACK v)) false.

Lemma puback_msg_id v : 0 < v < 2 ^ 16 -> PacketId (puback_msg v) = v.
Proof. intros Hv. apply PacketId_be16; [lia|]. reflexivity. Qed.

(** the buffer that the pool gives for a small message, and the pool without it *)
Lemma Get_small pick bp n : pool_ok bp -> 0 <= n < 8192 ->
  exists b bp', Get pick bp n = Ret (b, bp') /\ zlen b = 8192 /\ pool_ok bp'.
Proof.
  intros Hp Hn. destruct (Get_ok pick bp n Hp ltac:(lia)) as (b & bp' & E & _ & Hp'). exists b, bp'. split; [done|]. split; [|done].
  destruct Hp as [Hh Hw Hb]. unfold Get in E. rewrite Hw in E. destruct (n <? 8192) eqn:En; [|lia].
  destruct (pick (pool bp)) as [i|]; cbn in E; [destruct (pool bp !! i) as [c|] eqn:Ei; cbn in E|].
  - injection E as <- _. exact (Forall_lookup_1 _ _ _ _ Hb Ei).
  - rewrite Hh in E. injection E as <- _. exact (zlen_replicate (Z.to_nat 8192) 0).
  - rewrite Hh in E. injection E as <- _. exact (zlen_replicate (Z.to_nat 8192) 0).
Qed.

(** a buffer of the pool's width goes back to it *)
Definition put_back (b : list Z) (l : list (list Z)) : list (list Z) := if zlen b =? 8192 then b :: l else l.

Lemma pool_Put bp b : pool_ok bp -> pool (Put bp b) = put_back b (pool bp).
Proof. intros [_ Hw _]. unfold Put, put_back. rewrite Hw. by destruct (_ =? _). Qed.

(** acknowledging the oldest entry *)
Lemma Ack_first (C : Type) pick (q : Ackqueue C) a es g v :
  ack_inv q (a :: es) -> pool_ok (bytesPool q) -> Pktid a = v -> 0 < v < 2 ^ 16 ->
  exists q' b h', let buf := ack_wire PUBACK v ++ drop 4 b in
    Ack pick q g (MPuback (puback_msg v)) = Ret (q', g, MPuback (puback_msg v), None) /\
    ack_inv q' (with_ackbuf buf (with_state PUBACK a) :: es) /\ AckQueue.ping q' = AckQueue.ping q /\ pool_ok (bytesPool q') /\
    Get pick (bytesPool q) 4 = Ret (b, bytesPool q') /\ zlen buf = 8192 /\
    Puback.Decode Puback.NewPubackMessage (mkslice buf) = Ret (h', 4, None) /\ PacketId h' = v /\ snd (Type_ h') = PUBACK.
Proof.
  intros I Hp Hid Hv. unfold Ack. change (msg_Type (MPuback (puback_msg v))) with PUBACK.
  change (acks_message PUBACK) with true. cbv iota.
  change (msg_PacketId (MPuback (puback_msg v))) with (PacketId (puback_msg v)). rewrite puback_msg_id by done.
  pose proof (emap_get_spec q (a :: es) v I) as Hg. destruct (emap_get q v) as [i|].
  2: { exfalso. apply Hg. rewrite <- Hid. unfold ids. rewrite fmap_cons. apply list_elem_of_here. }
  destruct Hg as (j & e & Hj & Hje & ->).
  assert (j = 0%nat) as -> by (apply (ids_inj (a :: es) j 0 e a); [apply (ai_ids _ _ I)|done|done|congruence]).
  assert (e = a) as -> by (cbn in Hj; congruence). cbv zeta.
  destruct (update_inv q (a :: es) 0 a (with_state PUBACK) I eq_refl eq_refl) as [E1 I1]. rewrite E1, bindO_ret.
  set (q1 := with_ring _ q) in *. cbn [insert] in I1.
  destruct (Get_small pick (bytesPool q) 4 Hp ltac:(lia)) as (b & bp & Hget & Hb8 & Hbp). assert (Hb : 4 <= zlen b) by lia.
  assert (HL : msg_Len (MPuback (puback_msg v)) = Ret (MPuback (puback_msg v), 4)) by reflexivity.
  rewrite HL, bindO_ret. change (bytesPool q1) with (bytesPool q). rewrite Hget, bindO_ret.
  assert (HE : msg_Encode (MPuback (puback_msg v)) g b = Ret (MPuback (puback_msg v), g, ack_wire PUBACK v ++ drop 4 b, 4, None)).
  { assert (HE0 : Puback.Encode (puback_msg v) b = Ret (puback_msg v, ack_wire PUBACK v ++ drop 4 b, 4, None)).
    { unfold Puback.Encode. cbn [dirty puback_msg negb]. rewrite encode_clean_spec by exact Hb. done. }
    unfold msg_Encode. cbn -[puback_msg ack_wire]. unfold no_counter. by rewrite HE0. }
  rewrite HE, bindO_ret. set (q2 := with_pool bp q1).
  assert (I2 : ack_inv q2 (with_state PUBACK a :: es)) by (by apply (ack_inv_ext q1)).
  destruct (update_inv q2 (with_state PUBACK a :: es) 0 (with_state PUBACK a) (with_ackbuf (ack_wire PUBACK v ++ drop 4 b)) I2 eq_refl eq_refl)
    as [E3 I3].
  change (slot q (Z.of_nat 0)) with (slot q2 (Z.of_nat 0)). rewrite E3, bindO_ret.
  eexists _, b, _. cbv zeta. split; [reflexivity|]. split; [exact I3|]. split; [done|]. split; [done|]. split; [reflexivity|].
  split; [rewrite zlen_app, zlen_ack_wire, zlen_drop; lia|].
  pose proof (puback_Decode_spec Puback.NewPubackMessage 64 64 (u8 (Z.shiftr v 8)) (u8 v) (drop 4 b) [] eq_refl eq_refl eq_refl) as HD.
  cbv zeta in HD. split; [exact HD|]. split; [|done]. apply PacketId_be16; [lia|done].
Qed.

Section Settle.
Context {TW : Type} `{TimeWheelLaws TW}.
Context (pick : list (list Z) -> option nat) (wpick : list Writer -> option nat).
Implicit Types w : world TW.

Lemma get_queue_ok w l s sl ss q k : svcs w !! l = Some s -> sess s = Some sl -> cells (sessions w) !! sl = Some ss ->
  get_q ss k = Some q -> get_queue l k w = (Ret (sl, ss, q), w).
Proof.
  intros Hs Hl Hc Hq. unfold get_queue. rewrite (bindM_step _ _ _ _ _ (get_sess_ok w l s sl ss Hs Hl Hc)).
  cbn [snd fst]. by rewrite Hq.
Qed.

(** the world after the acknowledgement: the timer, the entry and the record of
    the identifier are gone *)
Lemma puback_settled w l s sl ss q a es v task :
  svcs w !! l = Some s -> queue_up w s sl ss q (a :: es) -> waiting_publish a l v -> 0 < v < 2 ^ 16 ->
  ping_done q = [] -> match es with e :: _ => acked_state (State e) = false | [] => True end ->
  Map s !! v = Some task ->
  exists w' ss' q', processIncoming pick wpick l (MPuback (puback_msg v)) w = (Ret None, w') /\
    svcs w' = <[l:=set_sMap (delete v (Map s)) s]> (svcs w) /\
    tw_tasks (wheel w') = delete task (tw_tasks (wheel w)) /\
    cells (sessions w') = <[sl:=ss']> (cells (sessions w)) /\ Pub1ack ss' = Some q' /\ ack_inv q' es /\ pool_ok (bytesPool q') /\
    (exists b bp, Get pick (bytesPool q) 4 = Ret (b, bp) /\
       pool (bytesPool q') = put_back (Msgbuf a) ((ack_wire PUBACK v ++ drop 4 b) :: pool bp)) /\
    conns w' = conns w /\ receivers w' = receivers w /\ srv w' = srv w /\ wpools w' = wpools w.
Proof.
  intros Hs [Q1 Q2 Q3 Q4 Q5 Q6] [W1 W2 W3 (pm & k & W4)] Hv Hpd Hes Hm.
  destruct (Ack_first callback pick q a es (gid w) v Q4 Q5 W2 Hv) as (q1 & b & h' & Hack & I1 & Hp1 & Hb1 & Hget & Hbuf & HD & Hh1 & Hh2).
  set (buf := ack_wire PUBACK v ++ drop 4 b) in *.
  set (a1 := with_ackbuf buf (with_state PUBACK a)) in *.
  destruct (Acked_spec q1 (a1 :: es) I1) as (q2 & Had & I2 & _ & Hb2).
  assert (Hspan : span (fun e => acked_state (State e)) (a1 :: es) = ([a1], es)).
  { cbn [span]. change (acked_state (State a1)) with true. cbv iota.
    destruct es as [|e es']; [done|]. cbn [span]. by rewrite Hes. }
  rewrite Hspan in Had, I2. cbn [fst snd] in Had, I2.
  assert (Hpd1 : ping_done q1 = []) by (unfold ping_done in *; by rewrite Hp1). rewrite Hpd1 in Had. cbn [app] in Had.
  set (ss1 := set_q ss QPub1ack q1). set (ss2 := set_q ss1 QPub1ack q2).
  set (w1 := set_gid (gid w) (set_sessions (mkHeap (<[sl:=ss1]> (cells (sessions w))) (next_loc (sessions w))) w)).
  set (w2 := set_sessions (mkHeap (<[sl:=ss2]> (cells (sessions w1))) (next_loc (sessions w1))) w1).
  set (s1 := set_sMap (delete v (Map s)) s).
  set (w3 := set_svcs (<[l:=s1]> (svcs w)) (set_wheel (tw_Remove (wheel w) task) w2)).
  set (q3 := with_pool (Put (Put (bytesPool q2) (Ackbuf a1)) (Msgbuf a1)) q2).
  set (w4 := set_sessions (mkHeap (<[sl:=set_q ss2 QPub1ack q3]> (cells (sessions w3))) (next_loc (sessions w3))) w3).
  assert (E1 : ack pick l QPub1ack (MPuback (puback_msg v)) w = (Ret None, w1)).
  { unfold ack. erewrite bindM_step by (apply (get_queue_ok w l s sl ss q QPub1ack); done). cbv beta iota.
    rewrite bindM_gets, Hack, bindM_lift. done. }
  assert (E2 : call (CbOnComplete l) (MPublish pm) (Some (MPuback h')) None w2 = (Ret None, w3)).
  { cbn [call]. unfold onComplete. cbn [deref_some]. rewrite bindM_ret. cbv zeta.
    change (msg_Type (MPuback h')) with (snd (Type_ h')). rewrite Hh2. cbn [Z.eqb PUBACK Pos.eqb].
    change (msg_PacketId (MPuback h')) with (PacketId h'). rewrite Hh1.
    erewrite bindM_step by (apply get_svc_ok; exact Hs). rewrite Hm, bindM_modify.
    erewrite bindM_step by (apply upd_svc_ok; exact Hs). done. }
  assert (E3 : process_acked_one l QPub1ack a1 w2 = (Ret tt, w4)).
  { unfold process_acked_one. change (Mtype a1) with (Mtype a). rewrite W1. change (New PUBLISH) with (inl (A:=Message) (B:=error) (MPublish NewPublishMessage)). cbv beta iota.
    change (msg_Decode (MPublish NewPublishMessage) (mkslice (Msgbuf a1))) with
      (bindO (Publish.Decode NewPublishMessage (mkslice (Msgbuf a))) (fun '(m, n, err) => Ret (MPublish m, n, err))).
    rewrite W4, bindO_ret, bindM_lift. cbv beta iota.
    change (New (State a1)) with (inl (A:=Message) (B:=error) (MPuback Puback.NewPubackMessage)). cbv beta iota.
    change (msg_Decode (MPuback Puback.NewPubackMessage) (mkslice (Ackbuf a1))) with
      (bindO (Puback.Decode Puback.NewPubackMessage (mkslice buf)) (fun '(m, n, err) => Ret (MPuback m, n, err))).
    rewrite HD, bindO_ret, bindM_lift. cbv beta iota. unfold complete. change (State a1) with PUBACK.
    change (OnComplete a1) with (OnComplete a). rewrite W3. cbv zeta. cbn [Z.eqb PUBACK PUBREL Pos.eqb orb].
    rewrite bindM_assoc. erewrite bindM_step by exact E2. rewrite bindM_ret.
    erewrite bindM_step by (apply (get_queue_ok w3 l s1 sl ss2 q2 QPub1ack); cbn; [apply lookup_insert_eq|exact Q1|apply lookup_insert_eq|done]).
    done. }
  exists w4, (set_q ss2 QPub1ack q3), q3. split; [|split_and!; try done].
  - cbn [processIncoming]. rewrite (bindM_step _ _ _ _ _ E1).
    assert (E4 : processAcked l QPub1ack w1 = (Ret tt, w4)).
    { unfold processAcked.
      erewrite bindM_step by (apply (get_queue_ok w1 l s sl ss1 q1 QPub1ack); cbn; [exact Hs|exact Q1|apply lookup_insert_eq|done]).
      cbv beta iota. rewrite Had, bindM_lift. cbv beta iota. unfold put_sess. rewrite bindM_modify.
      cbn [process_acked_all]. erewrite bindM_step by exact E3. done. }
    rewrite (bindM_step _ _ _ _ _ E4). done.
  - cbn. by rewrite tw_remove_gone.
  - cbn. by rewrite !insert_insert_eq.
  - by apply (ack_inv_ext q2).
  - cbn. rewrite Hb2. by do 2 apply Put_ok.
  - exists b, (bytesPool q1). split; [exact Hget|]. cbn [q3 bytesPool with_pool]. rewrite Hb2, !pool_Put by (done || by apply Put_ok).
    f_equal. unfold put_back. change (Ackbuf a1) with buf. by rewrite Hbuf.
Qed.

(** C15: The PUBACK settles a delivery.  When the client acknowledges the oldest
    PUBLISH of its queue, one turn of the receive loop takes the four bytes off
    the stream, removes the entry, gives its buffer (when it has the width of the
    pool) and the one that the PUBACK was copied to back to the pool, runs [onComplete],
    which cancels the timer and forgets the identifier, and goes on; nothing is
    written to the client. *)
Theorem puback_received w l s c d r x sl ss q a es v task rest :
  receivers w !! l = Some (RxLoop c d r) -> conns w !! c = Some x -> svcs w !! l = Some s -> done_closed s = false ->
  reader_ok defaultReadSize r x -> ahead r x = ack_wire PUBACK v ++ rest -> 4 <= MaxBufferSize (srv w) ->
  queue_up w s sl ss q (a :: es) -> waiting_publish a l v -> 0 < v < 2 ^ 16 ->
  ping_done q = [] -> match es with e :: _ => acked_state (State e) = false | [] => True end ->
  Map s !! v = Some task ->
  exists w' r' x' ss' q', receiverData pick wpick l w = (Ret true, w') /\
    receivers w' !! l = Some (RxLoop c d r') /\ conns w' !! c = Some x' /\ ahead r' x' = rest /\
    reader_ok defaultReadSize r' x' /\ written x' = written x /\
    svcs w' = <[l:=set_sMap (delete v (Map s)) s]> (svcs w) /\
    tw_tasks (wheel w') = delete task (tw_tasks (wheel w)) /\
    cells (sessions w') = <[sl:=ss']> (cells (sessions w)) /\ Pub1ack ss' = Some q' /\ ack_inv q' es /\
    pool_ok (bytesPool q') /\
    (exists b bp, Get pick (bytesPool q) 4 = Ret (b, bp) /\
       pool (bytesPool q') = put_back (Msgbuf a) ((ack_wire PUBACK v ++ drop 4 b) :: pool bp)).
Proof.
  intros Hrx Hx Hs Hd Hr Ha Hmax Hq Hw Hv Hpd Hes Hm.
  destruct (receive_packet pick wpick w l c d r x 64 (be16 v) rest (MPuback Puback.NewPubackMessage) (MPuback (puback_msg v)) 4
    Hrx Hx Hr ltac:(by split) Ha Hmax eq_refl) as (r2 & x2 & E & Ha2 & Hr2 & Hp2).
  { pose proof (puback_Decode_spec Puback.NewPubackMessage 64 64 (u8 (Z.shiftr v 8)) (u8 v) [] [] eq_refl eq_refl eq_refl) as HD.
    cbv zeta in HD.
    change (bindO (Puback.Decode Puback.NewPubackMessage (Slice (hdr_wire 64 2 ++ [u8 (Z.shiftr v 8); u8 v] ++ []) []))
      (fun '(m, n, err) => Ret (MPuback m, n, err)) = Ret (MPuback (puback_msg v), 4, None)). by rewrite HD. }
  destruct (puback_settled (read_to w l c d r2 x2) l s sl ss q a es v task Hs ltac:(destruct Hq; by split) Hw Hv Hpd Hes Hm)
    as (w' & ss' & q' & E2 & R1 & R2 & R3 & R4 & R5 & R6 & R6' & R7 & R8 & _).
  exists w', r2, x2, ss', q'. split.
  { rewrite E. apply (round_end_goes_on _ _ _ _ _ _ (set_sMap (delete v (Map s)) s) E2); [|exact Hd].
    rewrite R1. cbn. apply lookup_insert_eq. }
  rewrite R7, R8, R1, R2, R3. split_and!; try done.
  - cbn. apply lookup_insert_eq.
  - cbn. apply lookup_insert_eq.
  - apply Hp2.
Qed.

End Settle.

(** the sample device after a delivery, with its PUBACK on the way *)
Definition delivered : world simple_wheel :=
  snd (PushMsg no_pick no_pick no_pick copy_all (d1_up 1000 [echo_upload] [[64; 2]; [0; 1; 192; 0]] EOF)).

Definition delivered_session : Session callback := default (newSession []) (cells (sessions delivered) !! 0).
Definition delivered_queue : Ackqueue callback := default (newAckqueue 16 true) (Pub1ack delivered_session).
Definition delivered_entry : ackmsg callback :=
  match ring delivered_queue with Some a :: _ => a | _ => zero_ack end.

(** a queue with one entry *)
Lemma ack_inv_one (q : Ackqueue callback) (a : ackmsg callback) (m : gmap Z Z) :
  Pow2.is_pow2 (size q) -> mask q = size q - 1 -> zlen (ring q) = size q -> count q = 1 -> 1 <= size q -> 0 <= head q < size q ->
  tail q = slot q 1 -> ring q !! Z.to_nat (slot q 0) = Some (Some a) -> emap q = Some m -> m = {[Pktid a := slot q 0]} ->
  ack_inv q [a].
Proof.
  intros H1 H2 H3 H4 H5 H6 H7 H8 H9 ->. split; try done.
  - intros [|j] e; [by intros [= <-]|done].
  - exists {[Pktid a := slot q 0]}. split; [done|]. split.
    + intros [|j] e; [intros [= <-]; apply lookup_singleton_eq|done].
    + intros id Hid. apply lookup_singleton_ne. intros <-. apply Hid. by apply list_elem_of_singleton.
  - apply NoDup_singleton.
Qed.

Lemma delivered_inv : ack_inv delivered_queue [delivered_entry].
Proof.
  eapply ack_inv_one.
  - exists 4. split; [lia|]. vm_compute. reflexivity.
  - vm_compute. reflexivity.
  - vm_compute. reflexivity.
  - vm_compute. reflexivity.
  - vm_compute. discriminate.
  - split; [vm_compute; discriminate|vm_compute; reflexivity].
  - vm_compute. reflexivity.
  - vm_compute. reflexivity.
  - vm_compute. reflexivity.
  - vm_compute. reflexivity.
Qed.

Lemma delivered_pool : pool_ok (bytesPool delivered_queue).
Proof.
  enough (E : bytesPool delivered_queue = mkPool [] true 8192) by (rewrite E; split; constructor). vm_compute. reflexivity.
Qed.

Lemma puback_received_witness :
  exists w' q' ss', receiverData no_pick no_pick 1 delivered = (Ret true, w') /\ Pub1ack ss' = Some q' /\ ack_inv q' [] /\
    cells (sessions w') = <[0:=ss']> (cells (sessions delivered)) /\
    (exists k, tw_tasks (wheel w') = delete k (tw_tasks (wheel delivered))).
Proof.
  destruct (svcs delivered !! 1) as [s|] eqn:Es; [|vm_compute in Es; discriminate].
  destruct (conns delivered !! 0) as [x|] eqn:Ex; [|vm_compute in Ex; discriminate].
  destruct (Map s !! 1) as [k|] eqn:Ek.
  2: { exfalso. vm_compute in Es. injection Es as <-. vm_compute in Ek. discriminate. }
  destruct (puback_received no_pick no_pick delivered 1 s 0 65 NewReader x 0 delivered_session delivered_queue delivered_entry [] 1 k [192; 0])
    as (w' & r' & x' & ss' & q' & H1 & _ & _ & _ & _ & _ & _ & H2 & H3 & H4 & H5 & _).
  - vm_compute. reflexivity.
  - exact Ex.
  - exact Es.
  - of_sample Es.
  - split; [reflexivity|]. split; [vm_compute; discriminate|]. split; [|of_sample Ex].
    vm_compute in Ex. injection Ex as <-. repeat (constructor; [discriminate|]). constructor.
  - of_sample Ex.
  - vm_compute. discriminate.
  - eapply Build_queue_up.
    + of_sample Es.
    + vm_compute. reflexivity.
    + vm_compute. reflexivity.
    + exact delivered_inv.
    + exact delivered_pool.
    + vm_compute. reflexivity.
  - split; [vm_compute; reflexivity|vm_compute; reflexivity|vm_compute; reflexivity|eexists _, _; vm_compute; reflexivity].
  - lia.
  - vm_compute. reflexivity.
  - exact I.
  - exact Ek.
  - exists w', q', ss'. split; [exact H1|]. split; [exact H4|]. split; [exact H5|]. split; [exact H3|]. exists k. exact H2.
Defined.
