(* ===== verification/Admission.v ===== *)
(** * Admission: a CONNECT from the wire to the running service

    What [handleConnection] does with a well-formed CONNECT that names its device:
    the old connection of the device is ended, a session is made, the CONNACK is
    written, the service runs. *)
From stdpp Require Import base list strings gmap.
From Stdlib Require Import ZArith Lia.
From S2P Require Import MsgTypes Header Publish Connect Connack Message AckQueue Session.
From S2P Require Import Prelude GoLang GoStrings NetConn Framing Connectivity World Service ServiceSpec Server Sample ServerSpec ServerSys Delivery.

(** the bytes of the accepting CONNACK, without a session *)
Definition connack_accepted : list Z := [32; 2; 0; 0].

Definition accepting : ConnackMessage := SetReturnCode (SetSessionPresent NewConnackMessage false) ConnectionAccepted.

(** reading a CONNECT of the wire form *)
Lemma getConnectMessage_ok name m x sp rest :
  connect_wf name m -> remlen_ok (Connect.msglen m) ->
  conn_ok x -> concat (segs x) = connect_wire name m ++ rest ->
  exists x' h h0, getConnectMessage sp (CNet x) = Ret (inl (Connect.with_hdr h (with_protoName name m)), None, CNet x') /\
    concat (segs x') = rest /\ same_output x x' /\
    Connect.Decode NewConnectMessage (Slice (connect_wire name m) sp) = Ret (Connect.with_hdr h (with_protoName name m), zlen (connect_wire name m), None) /\
    Connect.Decode NewConnectMessage (mkslice (connect_wire name m)) = Ret (Connect.with_hdr h0 (with_protoName name m), zlen (connect_wire name m), None).
Proof.
  intros Hwf Hr Hx Hs. pose proof (wf_version _ _ Hwf) as Hv. pose proof (zlen_connect_body name m Hv) as Hbl.
  assert (Hfr : connect_wire name m = frame 16 (connect_body name m)) by (unfold connect_wire, frame; by rewrite Hbl).
  unfold remlen_ok, maxRemainingLength in Hr. rewrite Hfr in Hs.
  destruct (getMessageBuffer_ok x 16 (connect_body name m) rest Hx ltac:(lia) Hs) as (x' & Hg & Hs' & Ho & _).
  destruct (connect_Decode_spec name m [] sp Hwf Hr) as (h & HD & _). rewrite app_nil_r in HD.
  destruct (connect_Decode_spec name m [] [] Hwf Hr) as (h0 & HD0 & _). rewrite app_nil_r in HD0.
  exists x', h, h0. split_and!; try done. unfold getConnectMessage. rewrite Hg, <- Hfr, HD. done.
Qed.

Lemma accepting_encode g x : closed x = false -> wr_fault x = None ->
  exists m, writeMessage (CNet x) g (MConnack accepting) = Ret (None, MConnack m, g, CNet (wrote connack_accepted x)).
Proof.
  intros Hc Hf. eexists. unfold writeMessage.
  change (msg_Len (MConnack accepting)) with (Ret (MConnack (fst (Connack.Len accepting)), 4)). rewrite bindO_ret.
  assert (HE : msg_Encode (MConnack (fst (Connack.Len accepting))) g (replicate (Z.to_nat 4) 0) =
    Ret (MConnack (fst (Connack.Len accepting)), g, connack_accepted, 4, None)) by (vm_compute; reflexivity).
  rewrite HE, bindO_ret. cbn [writeMessageBuffer]. unfold conn_Write. rewrite Hc, Hf. unfold wrote. by rewrite Hf, Hc.
Qed.

Lemma index_some {A} (l : list A) : l <> [] -> exists a, index l 0 = Ret a.
Proof. destruct l as [|a l]; [done|]. intros _. exists a. apply index_0. Qed.

Section Admission.
Context {TW : Type} `{TimeWheel TW}.
Context (reg : gmap string memProvider).
Context (p : list (list Z * Z)) (c : Z).
Implicit Types w : world TW.

Lemma tick_off_frame w n k : during p c n k w -> exists w', tick_off k w = (Ret tt, w') /\ during p c n k w' /\
  svcs w' !! n = svcs w !! n /\ conns w' !! c = conns w !! c /\ gid w' = gid w /\ receivers w' = receivers w /\
  gsvcid w' = gsvcid w /\ (is_Some (sessMgr (srv w)) -> is_Some (sessMgr (srv w'))) /\
  svcMap (srv w') = delete k (svcMap (srv w)) /\
  (forall l s0 c0, svcMap (srv w) !! k = Some l -> svcs w !! l = Some s0 -> conn s0 = Some c0 -> n <> l /\ c <> c0 /\ ended w' l c0).
Proof.
  intros D. pose proof D as (I & Hl & Hx & Hcf & s & Hs & _ & _ & _ & H3 & _).
  destruct (tick_off_spec p w k I) as (w' & E & _ & _ & Hw).
  pose proof (tick_off_during p c n k w (Ret tt) w' D E) as D'. exists w'. split; [done|]. split; [done|].
  destruct (svcMap (srv w) !! k) as [l|] eqn:El.
  2: { subst w'. split_and!; try done. by rewrite delete_id. }
  destruct Hw as (s' & c' & x' & sl & ss & m & L & Hm & ->). pose proof L as [L1 L2 _ _ L5 _ _ _ _ _].
  assert (Hne : n <> l) by (intros ->; by destruct Hl as [Hl _]; eapply Hl).
  assert (Hnc : c <> c') by (intros ->; apply Hne; eapply (si_conn _ _ I); [exact Hs|exact L1|exact H3|exact L5]).
  split_and!; try done; cbn -[svc_key].
  - by rewrite lookup_insert_ne.
  - by rewrite lookup_insert_ne.
  - by rewrite L2.
  - intros l' s0 c0 [= <-] Hs0 Hc0. assert (s0 = s') as -> by congruence. assert (c0 = c') as -> by congruence.
    split; [done|]. split; [done|]. split.
    + eexists. split; [cbn; apply lookup_insert_eq|done].
    + eexists. split; [cbn; apply lookup_insert_eq|done].
Qed.

Lemma getSession_ok w n s m rnd req resp ss :
  svcs w !! n = Some s -> sess s = None -> sessMgr (srv w) = Some m -> ClientId req <> [] ->
  Session.Init (newSession (ClientId req)) req = Ret (ss, req, None) ->
  exists w', getSession rnd n req resp w = (Ret (req, SetSessionPresent resp false, None), w') /\
    svcs w' = <[n:=set_ssess (Some (next_loc (sessions w))) s]> (svcs w) /\ conns w' = conns w /\ gid w' = gid w /\
    cells (sessions w') !! next_loc (sessions w) = Some ss /\ receivers w' = receivers w /\ svcMap (srv w') = svcMap (srv w).
Proof.
  intros Hs Hn Hm Hc Hi. set (l := next_loc (sessions w)).
  exists (set_sessions (mkHeap (<[l:=ss]> (<[l:=newSession (ClientId req)]> (cells (sessions w)))) (l + 1))
    (with_session w n s m (ClientId req))). split; [|split_and!; try done; cbn; apply lookup_insert_eq].
  unfold getSession. rewrite (bindM_step _ _ _ _ _ (get_svc_ok w n s Hs)).
  rewrite (proj2 (Z.eqb_neq (zlen (ClientId req)) 0)) by (intros E; by apply Hc, zlen_zero_nil).
  rewrite Hn. cbv zeta. rewrite bindM_gets, Hm. cbn [deref_some]. rewrite bindM_ret, bindM_gets.
  assert (Hnew : mgr_New m (sessions w) rnd (ClientId req) =
    (<[ClientId req:=l]> m, mkHeap (<[l:=newSession (ClientId req)]> (cells (sessions w))) (l + 1), inl l)).
  { unfold mgr_New. by destruct (ClientId req). }
  rewrite Hnew. unfold upd_srv. rewrite !bindM_modify.
  erewrite bindM_step by (apply upd_svc_ok; cbn; exact Hs).
  erewrite bindM_step by (eapply get_sess_ok; cbn; [apply lookup_insert_eq|done|apply lookup_insert_eq]).
  cbn [snd]. rewrite Hi, bindM_lift. cbv beta iota. unfold put_sess. rewrite bindM_modify. done.
Qed.

(** the configuration is there, or can be made *)
Definition configurable w : Prop :=
  if configured (srv w) then is_Some (sessMgr (srv w))
  else is_Some (reg !! (if bool_decide (SessionsProvider (srv w) = ""%string) then "mem"%string else SessionsProvider (srv w))).

(** the read deadline of the handshake *)
Definition connect_timeout w : Z :=
  if configured (srv w) then ConnectTimeout (srv w)
  else if ConnectTimeout (srv w) =? 0 then DefaultConnectTimeout else ConnectTimeout (srv w).

Lemma checkConfiguration_ok w : configurable w -> exists sv,
  checkConfiguration reg w = (Ret None, set_srv sv w) /\ svcMap sv = svcMap (srv w) /\ is_Some (sessMgr sv) /\ configured sv = true /\
  ConnectTimeout sv = connect_timeout w.
Proof.
  unfold configurable, checkConfiguration, connect_timeout. rewrite bindM_gets. destruct (configured (srv w)) eqn:E.
  - intros Hm. exists (srv w). by destruct w.
  - intros [pv Hp]. cbv zeta. unfold NewManager. rewrite Hp. cbv beta iota. unfold upd_srv. rewrite bindM_modify. by eexists.
Qed.

(** the rest of the handshake, once the service object is there *)
Lemma handshake_tail_ok w n k s x rnd req m0 bs sp e :
  during p c n k w -> svcs w !! n = Some s -> conns w !! c = Some x -> closed x = false -> wr_fault x = None ->
  is_Some (sessMgr (srv w)) -> ClientId req <> [] ->
  Connect.Decode NewConnectMessage (Slice bs sp) = Ret (req, e, None) ->
  Connect.Decode NewConnectMessage (mkslice bs) = Ret (m0, e, None) ->
  exists w' s' sl ss, handshake_tail c rnd req NewConnackMessage k n w = (Ret (HStarted k n), w') /\
    live w' n k s' c (wrote connack_accepted x) sl ss /\ cfg s' = cfg s /\
    Cmsg ss = Some m0 /\ receivers w' !! n = Some RxNew /\ svcMap (srv w') = delete k (svcMap (srv w)) /\
    (forall l s0 c0, svcMap (srv w) !! k = Some l -> svcs w !! l = Some s0 -> conn s0 = Some c0 -> ended w' l c0).
Proof.
  intros D Hs Hx Hxo Hxf Hm Hcid HD HD0.
  destruct (tick_off_frame w n k D) as (w3 & E3 & D3 & F1 & F2 & F3 & F4 & F5 & F6 & F7 & F8).
  rewrite Hs in F1. rewrite Hx in F2. destruct (F6 Hm) as [m3 Hm3].
  assert (Hlive : svc_key s = k /\ done_closed s = false /\ ka_closed s = false /\ conn s = Some c /\ sess s = None).
  { destruct D as (_ & _ & _ & _ & s1 & Hs1 & A). assert (s1 = s) as -> by congruence. exact A. }
  destruct Hlive as (A1 & A2 & A3 & A4 & A5).
  set (s4 := set_slogin [] s). set (w4 := set_svcs (<[n:=s4]> (svcs w3)) w3).
  destruct (Session.Init_copy callback (newSession (ClientId req)) bs sp req m0 e HD HD0 eq_refl) as (ss & Hi & Hcm & _).
  destruct (getSession_ok w4 n s4 m3 rnd req NewConnackMessage ss ltac:(cbn; apply lookup_insert_eq) A5 Hm3 Hcid Hi)
    as (w5 & E5 & G1 & G2 & G3 & G4 & G5 & G6).
  set (l := next_loc (sessions w4)) in *. set (s5 := set_ssess (Some l) s4) in *.
  assert (Hx5 : conns w5 !! c = Some x) by (rewrite G2; exact F2).
  destruct (accepting_encode (gid w5) x Hxo Hxf) as (mk & Hwm).
  set (w6 := set_conns (<[c:=wrote connack_accepted x]> (conns w5)) (set_gid (gid w5) w5)).
  assert (E6 : write_connack c accepting w5 = (Ret (mk, None), w6)).
  { unfold write_connack. rewrite bindM_gets, Hx5. cbn [deref_some]. rewrite bindM_ret, Hwm, bindM_lift. done. }
  set (s7 := set_sstats (stat_increment (inStat s5) (snd (Connect.Len req))) (stat_increment (outStat s5) (snd (Connack.Len mk))) s5).
  set (w7 := set_receivers (<[n:=RxNew]> (receivers w5)) (set_svcs (<[n:=s7]> (svcs w6)) w6)).
  exists w7, s7, l, ss. split; [|split; [|split_and!; try done]].
  - unfold handshake_tail. rewrite (bindM_step _ _ _ _ _ E3). cbn [Login].
    erewrite bindM_step by (apply upd_svc_ok; exact F1). fold s4 w4.
    rewrite (bindM_step _ _ _ _ _ E5). cbv beta iota. erewrite bindM_step by exact E6. cbv beta iota.
    erewrite bindM_step by (apply upd_svc_ok; change (svcs w6) with (svcs w5); rewrite G1; apply lookup_insert_eq).
    unfold set_receiver. rewrite bindM_modify. done.
  - split; cbn -[svc_key]; try done; try apply lookup_insert_eq.
    by eapply Init_live.
  - cbn. apply lookup_insert_eq.
  - cbn. by rewrite G6.
  - intros l0 s0 c0 H1 H2 H3. destruct (F8 l0 s0 c0 H1 H2 H3) as (N1 & N2 & (y & Hy & Hcy) & (s1 & Hs1 & B)). split.
    + exists y. split; [|done]. cbn. rewrite lookup_insert_ne, G2 by done. exact Hy.
    + exists s1. split; [|done]. cbn. rewrite lookup_insert_ne, G1, lookup_insert_ne by done. cbn. by rewrite lookup_insert_ne.
Qed.

(** C10: A well-formed CONNECT is admitted.  A new connection sends the bytes of a
    CONNECT whose user name is [dn&pk], with a password, a client identifier and a
    keep-alive, in whatever segments; [handleConnection] reads exactly them,
    answers with the CONNACK that accepts (32 2 0 0, no session present) and
    starts a live service of its own under the key [pk:dn], with the keep-alive of
    the message and a new session that holds the message, also when the client does
    not ask for a clean session: a session that is stored is never taken up.  The
    service that had the key, if any, has been ended: its connection is closed and
    its registration gone. *)
Theorem handshake_accepted w name m x sp addr rnd rest dn pk :
  arrived p c w -> configurable w -> conns w !! c = Some x -> conn_ok x -> wr_fault x = None ->
  connect_wf name m -> remlen_ok (Connect.msglen m) -> concat (segs x) = connect_wire name m ++ rest ->
  Username m = dn ++ 38 :: pk -> 38 ∉ dn -> 38 ∉ pk -> Password m <> [] -> ClientId m <> [] -> Connect.KeepAlive m <> 0 ->
  let key := pk ++ 58 :: dn in let n := gsvcid w + 1 in
  exists w' x' s sl ss m0 h0, accept reg sp addr rnd c w = (Ret (HStarted key n), w') /\
    live w' n key s c x' sl ss /\ written x' = written x ++ connack_accepted /\ concat (segs x') = rest /\
    keepAlive (cfg s) = Connect.KeepAlive m /\ Cmsg ss = Some m0 /\ m0 = Connect.with_hdr h0 (with_protoName name m) /\
    receivers w' !! n = Some RxNew /\ svcMap (srv w') = delete key (svcMap (srv w)) /\
    (forall l s0 c0, svcMap (srv w) !! key = Some l -> svcs w !! l = Some s0 -> conn s0 = Some c0 -> ended w' l c0).
Proof.
  intros A Hcfg Hx Hok Hf Hwf Hr Hs Hu Hdn Hpk Hpw Hcid Hka key n. pose proof Hok as [Hsegs Ho].
  destruct (checkConfiguration_ok w Hcfg) as (sv & E0 & V1 & V2 & V3 & _).
  pose proof (checkConfiguration_triple reg p c w (Ret None) _ A E0) as R. set (w0 := set_srv sv w) in *.
  pose proof R as (I & Hfree & _ & _ & Hg). pose proof (si_gsvc _ _ I). change (gsvcid w0) with (gsvcid w) in *.
  set (xd := with_deadline (ConnectTimeout sv) x).
  destruct (getConnectMessage_ok name m xd sp rest Hwf Hr ltac:(by split) Hs) as (x1 & h & h0 & Eg & Hs1 & Ho1 & HD & HD0).
  set (req := Connect.with_hdr h (with_protoName name m)) in *.
  set (w1 := set_conns (<[c:=x1]> (conns w0)) w0).
  destruct Ho1 as (_ & O2 & O3 & _ & O5).
  assert (R1 : ready p c w1).
  { by eapply ready_set_conn. }
  assert (Hn : n = u64 (gsvcid w1 + 1)).
  { change (gsvcid w1) with (gsvcid w). unfold u64, n. rewrite Z.mod_small; lia. }
  destruct (index_some (Split (ClientId req) 124)) as [cid Hci]; [apply Split_not_nil|].
  pose proof (new_service_during p c w1 n sv addr pk dn cid (Connect.KeepAlive req) R1 Hn) as D.
  set (ns := new_service sv n addr pk dn cid (Connect.KeepAlive req) c) in *.
  change (Join [pk; str ":"; dn] []) with key in D.
  set (w2 := set_svcs (<[n:=ns]> (svcs w1)) (set_gsvcid n w1)) in *.
  destruct (handshake_tail_ok w2 n key ns x1 rnd req (Connect.with_hdr h0 (with_protoName name m)) (connect_wire name m) sp
    (zlen (connect_wire name m)) D) as (w' & s' & sl & ss & E & L & C1 & C2 & C3 & C4 & C5); try done.
  { cbn. apply lookup_insert_eq. }
  { cbn. apply lookup_insert_eq. }
  { by rewrite O5. }
  { by rewrite O3. }
  exists w', (wrote connack_accepted x1), s', sl, ss, (Connect.with_hdr h0 (with_protoName name m)), h0.
  split; [|split_and!; try done].
  - assert (Hh : handle_connect sp addr rnd c w0 = (Ret (HStarted key n), w')).
    { unfold handle_connect. rewrite !bindM_gets. change (conns w0) with (conns w). rewrite Hx. cbn [deref_some]. rewrite bindM_ret.
      unfold SetReadDeadline. rewrite Ho. change (srv w0) with sv. fold xd. rewrite Eg, bindM_lift. cbv beta iota.
      unfold set_conn at 1. rewrite bindM_modify. cbv zeta.
      rewrite (proj2 (Z.eqb_neq (Connect.KeepAlive req) 0)) by exact Hka.
      change (Username req) with (Username m). rewrite Hu, Split_cons, Split_none by done.
      change (Password req) with (Password m). rewrite bool_decide_eq_false_2 by done.
      rewrite Hci, bindM_lift, bindM_gets. change (set_conns (<[c:=x1]> (conns w0)) w0) with w1. rewrite <- Hn, !bindM_modify.
      exact E. }
    unfold accept, recovered. rewrite (bindM_step _ _ _ _ _ E0). rewrite (bindM_step _ _ _ _ _ Hh). done.
  - cbn. by rewrite O2.
  - by rewrite C1.
  - rewrite C4. cbn. by rewrite V1.
  - intros l s0 c0 H1 H2 H3. apply (C5 l s0 c0); [cbn; by rewrite V1| |done].
    cbn. rewrite lookup_insert_ne; [done|]. intros <-.
    pose proof (si_ids _ _ I n ltac:(by eexists)) as Hle. change (gsvcid w0) with (gsvcid w) in Hle. unfold n in Hle. lia.
Qed.

(** the CONNACK that refuses *)
Lemma refusing_encode g x code : 1 <= code <= 5 -> closed x = false -> wr_fault x = None ->
  exists m, writeMessage (CNet x) g (MConnack (SetSessionPresent (SetReturnCode NewConnackMessage code) false)) =
    Ret (None, MConnack m, g, CNet (wrote [32; 2; 0; code] x)).
Proof.
  intros Hcode Hc Hf. assert (Hcs : code = 1 \/ code = 2 \/ code = 3 \/ code = 4 \/ code = 5) by lia.
  set (rf := SetSessionPresent (SetReturnCode NewConnackMessage code) false).
  exists (fst (Connack.Len rf)). unfold writeMessage.
  change (msg_Len (MConnack rf)) with (Ret (MConnack (fst (Connack.Len rf)), 4)). rewrite bindO_ret.
  assert (HE : msg_Encode (MConnack (fst (Connack.Len rf))) g (replicate (Z.to_nat 4) 0) =
    Ret (MConnack (fst (Connack.Len rf)), g, [32; 2; 0; code], 4, None)).
  { destruct Hcs as [->|[->|[->|[->| ->]]]]; vm_compute; reflexivity. }
  rewrite HE, bindO_ret. cbn [writeMessageBuffer]. unfold conn_Write. rewrite Hc, Hf. unfold wrote. by rewrite Hf, Hc.
Qed.

(** A refused CONNECT leaves its connection open.  When the CONNECT is refused
    with a CONNACK code, the code is written to the client, and the error of that
    write, nil, takes the place of the refusal: [handleConnection] reports no
    error, so its deferred function does not close the connection, and no service
    knows it. *)
Theorem refused_left_open w x sp addr rnd code req x1 :
  arrived p c w -> configurable w -> conns w !! c = Some x -> closed x = false -> 1 <= code <= 5 ->
  getConnectMessage sp (CNet (with_deadline (connect_timeout w) x)) = Ret (req, Some (ErrCode code), CNet x1) ->
  wr_fault x1 = None ->
  exists w', accept reg sp addr rnd c w = (Ret (HFail None), w') /\
    conns w' !! c = Some (wrote [32; 2; 0; code] x1) /\ closed x1 = false /\
    svcs w' = svcs w /\ svcMap (srv w') = svcMap (srv w) /\ (forall l s, svcs w' !! l = Some s -> conn s <> Some c).
Proof.
  intros A Hcfg Hx Ho Hcode Eg Hf1. pose proof A as (_ & Hfree & _).
  destruct (checkConfiguration_ok w Hcfg) as (sv & E0 & V1 & V2 & V3 & V4). set (w0 := set_srv sv w) in *.
  assert (Hcl : closed x1 = false).
  { destruct (getConnectMessage_closed _ _ _ _ _ Eg) as (x2 & [= <-] & Hc). by rewrite Hc. }
  set (w1 := set_conns (<[c:=x1]> (conns w0)) w0).
  destruct (refusing_encode (gid w1) x1 code Hcode Hcl Hf1) as (mk & Hwm).
  set (w2 := set_conns (<[c:=wrote [32; 2; 0; code] x1]> (conns w1)) (set_gid (gid w1) w1)).
  exists w2. split; [|split_and!; try done; cbn; apply lookup_insert_eq].
  assert (Hh : handle_connect sp addr rnd c w0 = (Ret (HFail None), w2)).
  { unfold handle_connect. rewrite !bindM_gets. change (conns w0) with (conns w). rewrite Hx. cbn [deref_some]. rewrite bindM_ret.
    unfold SetReadDeadline. rewrite Ho. change (srv w0) with sv. rewrite V4, Eg, bindM_lift. cbv beta iota.
    unfold set_conn at 1. rewrite bindM_modify. change (set_conns (<[c:=x1]> (conns w0)) w0) with w1.
    unfold refuse, write_connack. rewrite !bindM_assoc, bindM_gets.
    change (conns w1 !! c) with (<[c:=x1]> (conns w) !! c). rewrite lookup_insert_eq. cbn [deref_some].
    rewrite bindM_assoc, bindM_ret, bindM_assoc, Hwm, bindM_lift. done. }
  unfold accept, recovered. rewrite (bindM_step _ _ _ _ _ E0). rewrite (bindM_step _ _ _ _ _ Hh). done.
Qed.

End Admission.

(** ** The sample device knocks *)

Lemma fresh_arrived max u x : closed x = false -> arrived [] 0 (arrive 0 x (fresh_server max u)).
Proof. intros Hx. unfold arrive. by apply arrival; [apply start_inv, fresh_start|..]. Qed.

Lemma d1_wf : connect_wf (str "MQTT") d1_connect.
Proof.
  split.
  1-3: vm_compute. 1, 2: reflexivity. 1: split; [discriminate|reflexivity].
  - right. split; [vm_compute; discriminate|vm_compute; reflexivity].
  - vm_compute. by split.
  - vm_compute. reflexivity.
  - vm_compute. reflexivity.
  - unfold strings_fit. repeat constructor; vm_compute; discriminate.
Qed.

Lemma dial_ok ss e : Forall (fun s => s <> []) ss -> conn_ok (dial ss e).
Proof. by split. Qed.

Lemma handshake_accepted_witness : exists w' x' s sl ss,
  accept mem_registry [] [] None 0 (arrive 0 (d1_dial [[192; 0]] EOF) (fresh_server 1000 [])) = (Ret (HStarted (str "pk:d1") 1), w') /\
  live w' 1 (str "pk:d1") s 0 x' sl ss /\ written x' = [32; 2; 0; 0] /\ concat (segs x') = [192; 0] /\
  keepAlive (cfg s) = 60 /\ receivers w' !! 1 = Some RxNew.
Proof.
  destruct (handshake_accepted mem_registry [] 0 (arrive 0 (d1_dial [[192; 0]] EOF) (fresh_server 1000 [])) (str "MQTT") d1_connect
    (d1_dial [[192; 0]] EOF) [] [] None [192; 0] (str "d1") (str "pk"))
    as (w' & x' & s & sl & ss & m0 & h0 & H1 & H2 & H3 & H4 & H5 & _ & _ & H6 & _).
  - apply fresh_arrived. reflexivity.
  - vm_compute. by eexists.
  - reflexivity.
  - apply dial_ok. repeat constructor; vm_compute; discriminate.
  - reflexivity.
  - exact d1_wf.
  - vm_compute. by split.
  - vm_compute. reflexivity.
  - vm_compute. reflexivity.
  - apply (bool_decide_unpack _). vm_compute. done.
  - apply (bool_decide_unpack _). vm_compute. done.
  - vm_compute. discriminate.
  - vm_compute. discriminate.
  - vm_compute. discriminate.
  - exists w', x', s, sl, ss. split; [exact H1|]. split; [exact H2|]. split; [exact H3|]. split; [exact H4|]. split; [exact H5|exact H6].
Defined.

(** a CONNECT with protocol level 9 *)
Definition d1_level9 : list Z := <[8%nat:=9]> d1_bytes.

Lemma refused_left_open_witness : exists w',
  accept mem_registry [] [] None 0 (arrive 0 (dial [d1_level9] EOF) (fresh_server 1000 [])) = (Ret (HFail None), w') /\
  exists x, conns w' !! 0 = Some (wrote [32; 2; 0; 1] x) /\ closed x = false.
Proof.
  destruct (getConnectMessage [] (CNet (with_deadline 2 (dial [d1_level9] EOF)))) as [[[req e] [| |x1]]|q] eqn:E;
    [vm_compute in E; discriminate..| |vm_compute in E; discriminate].
  assert (He : e = Some (ErrCode 1)) by (vm_compute in E; by injection E as _ <- _).
  assert (Hf : wr_fault x1 = None) by (vm_compute in E; by injection E as _ _ <-). subst e.
  destruct (refused_left_open mem_registry [] 0 (arrive 0 (dial [d1_level9] EOF) (fresh_server 1000 [])) (dial [d1_level9] EOF)
    [] [] None 1 req x1) as (w' & H1 & H2 & H3 & _).
  - apply fresh_arrived. reflexivity.
  - vm_compute. by eexists.
  - reflexivity.
  - reflexivity.
  - lia.
  - exact E.
  - exact Hf.
  - exists w'. split; [exact H1|]. exists x1. split; [exact H2|exact H3].
Defined.
