(* ===== verification/Lifecycle.v ===== *)
(** * Lifecycle: how connections end

    The receive loop ends on every input; what the end of a connection, a
    takeover and a shutdown leave behind, the branches that leave too much
    included. *)
From stdpp Require Import base list strings gmap.
From Stdlib Require Import ZArith Lia.
From S2P Require Import MsgTypes Header Publish Connect Connack Message AckQueue Session.
From S2P Require Import Prelude GoLang GoStrings NetConn Framing Connectivity World Service ServiceSpec Server Sample ServerSpec ServerSys Delivery Admission.

(** ** The size of a packet is positive *)

Lemma lor_bound a b n : 0 <= a < 2 ^ n -> 0 <= b < 2 ^ n -> 0 <= n -> 0 <= Z.lor a b < 2 ^ n.
Proof.
  intros Ha Hb Hn. split; [apply Z.lor_nonneg; lia|].
  destruct (Z.eq_dec (Z.lor a b) 0) as [->|Hne]; [apply Z.pow_pos_nonneg; lia|].
  assert (0 < Z.lor a b) by (pose proof (proj2 (Z.lor_nonneg a b)); lia).
  apply Z.log2_lt_pow2; [done|]. rewrite Z.log2_lor by lia.
  destruct (Z.eq_dec n 0) as [->|Hn0].
  { change (2 ^ 0) with 1 in *. assert (a = 0) as -> by lia. assert (b = 0) as -> by lia. done. }
  assert (Hl : forall z, 0 <= z < 2 ^ n -> Z.log2 z < n).
  { intros z Hz. destruct (Z.eq_dec z 0) as [->|]; [cbn; lia|apply Z.log2_lt_pow2; lia]. }
  pose proof (Hl a Ha). pose proof (Hl b Hb). lia.
Qed.

Lemma Uvarint_loop_bound buf : forall i x v m, Forall is_byte buf -> 0 <= i -> i + zlen buf <= 9 -> 0 <= x < 2 ^ (7 * i) ->
  Uvarint_loop i x (7 * i) buf = (v, m) -> 0 <= v < 2 ^ (7 * (i + zlen buf)) /\ 0 <= m.
Proof.
  induction buf as [|b buf IH]; intros i x v m Hb Hi Hz Hx; cbn [Uvarint_loop].
  - intros [= <- <-]. split; [|lia]. split; [lia|]. apply Z.pow_pos_nonneg; [lia|]. change (zlen (@nil Z)) with 0. lia.
  - apply Forall_cons in Hb as [Hb Hbs]. rewrite zlen_cons in *. pose proof (zlen_nonneg buf). unfold is_byte in Hb.
    rewrite (proj2 (Z.eqb_neq i 10)) by lia.
    assert (Hsh : forall y, 0 <= y < 128 -> 0 <= Z.lor x (u64 (Z.shiftl y (7 * i))) < 2 ^ (7 * (i + 1))).
    { intros y Hy. apply lor_bound; [| |lia].
      - split; [lia|]. eapply Z.lt_le_trans; [apply Hx|]. apply Z.pow_le_mono_r; lia.
      - rewrite Z.shiftl_mul_pow2 by lia.
        assert (Hyb : 0 <= y * 2 ^ (7 * i) < 2 ^ (7 * (i + 1))).
        { replace (7 * (i + 1)) with (7 + 7 * i) by lia. rewrite Z.pow_add_r by lia. change (2 ^ 7) with 128.
          pose proof (Z.pow_pos_nonneg 2 (7 * i)). nia. }
        unfold u64. rewrite Z.mod_small; [done|]. split; [lia|]. eapply Z.lt_le_trans; [apply Hyb|]. apply Z.pow_le_mono_r; lia. }
    destruct (b <? 128) eqn:E.
    + rewrite (proj2 (Z.eqb_neq i 9)) by lia. cbn [andb]. intros [= <- <-]. split; [|lia].
      specialize (Hsh b ltac:(lia)). split; [lia|]. eapply Z.lt_le_trans; [apply Hsh|]. apply Z.pow_le_mono_r; lia.
    + replace (7 * i + 7) with (7 * (i + 1)) by lia. intros H1.
      apply IH in H1; [|done|lia|lia|].
      * replace (i + (1 + zlen buf)) with (i + 1 + zlen buf) by lia. exact H1.
      * apply Hsh. change 127 with (Z.ones 7). rewrite Z.land_ones by lia. apply Z.mod_pos_bound. lia.
Qed.

Lemma Uvarint_short buf v m : Forall is_byte buf -> zlen buf <= 4 -> Uvarint buf = (v, m) -> 0 <= v < 2 ^ 28 /\ 0 <= m.
Proof.
  intros Hb Hz H. apply (Uvarint_loop_bound buf 0 0) in H; [|done|lia|lia|done]. split; [|lia].
  split; [lia|]. eapply Z.lt_le_trans; [apply H|]. apply Z.pow_le_mono_r; lia.
Qed.

(** ** The receive loop ends *)

Section Progress.
Context (d : Z).

Lemma peek_header_any fuel : forall r c cnt res r' c', reader_ok defaultReadSize r c -> 2 <= cnt ->
  peek_header d fuel r c cnt = (res, r', c') ->
  reader_ok defaultReadSize r' c' /\ ahead r' c' = ahead r c /\
  (forall b, res = inl b -> exists k, 2 <= k <= 5 /\ k <= zlen (ahead r c) /\ b = take (Z.to_nat k) (ahead r c)).
Proof.
  induction fuel as [|fuel IH]; intros r c cnt res r' c' Hr Hc; cbn [peek_header]; [by intros [= <- <- <-]|].
  destruct (5 <? cnt) eqn:E5; [by intros [= <- <- <-]|].
  destruct (Peek_spec (timeoutReader_Read d) defaultReadSize (timeoutReader_ok d) r c cnt Hr ltac:(unfold defaultReadSize; lia))
    as (r1 & c1 & Hr1 & _ & Ha & H). destruct (cnt <=? zlen (ahead r c)) eqn:E.
  - rewrite H. destruct (zlen (take (Z.to_nat cnt) (ahead r c)) <? cnt) eqn:E1; [rewrite zlen_take, Z2Nat.id in E1 by lia; lia|].
    destruct (_ !! _) as [x|]; [|by intros [= <- <- <-]]. destruct (128 <=? x).
    + intros Hp. apply IH in Hp; [|done|lia]. by rewrite Ha in Hp.
    + intros [= <- <- <-]. split; [done|]. split; [done|]. intros b [= <-]. exists cnt. split; [lia|]. split; [lia|done].
  - destruct H as [H _]. rewrite H. by intros [= <- <- <-].
Qed.

Lemma getPeekMessageSize_any r c res r' c' : reader_ok defaultReadSize r c -> Forall is_byte (ahead r c) ->
  getPeekMessageSize d r c = Ret (res, r', c') ->
  reader_ok defaultReadSize r' c' /\ ahead r' c' = ahead r c /\ (forall t n, res = inl (t, n) -> 1 <= n /\ 2 <= zlen (ahead r c)).
Proof.
  intros Hr Hb. unfold getPeekMessageSize. destruct (peek_header d 5 r c 2) as [[[b|e] r1] c1] eqn:E;
    destruct (peek_header_any 5 r c 2 _ _ _ Hr ltac:(lia) E) as (Hr1 & Ha & Hp); [|by intros [= <- <- <-]].
  destruct (Hp b eq_refl) as (k & Hk & Hz & ->). intros G. inv_bind G as y Hy.
  destruct (Uvarint (vis y)) as [rl m] eqn:Eu. inv_bind G as z Hz0. injection G as <- <- <-.
  split; [done|]. split; [done|]. intros t n [= <- <-]. split; [|lia].
  assert (Hv : vis y = drop 1 (take (Z.to_nat k) (ahead r c))).
  { unfold slice_from in Hy. cbn [vis mkslice] in Hy. destruct (_ && _); [|done]. by injection Hy as <-. }
  apply Uvarint_short in Eu.
  - rewrite i64_small by lia. lia.
  - rewrite Hv. by apply Forall_drop, Forall_take.
  - rewrite Hv, zlen_drop, zlen_take. lia.
Qed.

(** taking a packet off the stream *)
Lemma getPeekMessage_any r c t n res k e r' c' : reader_ok defaultReadSize r c -> 1 <= n -> 1 <= zlen (ahead r c) ->
  getPeekMessage d r c t n = Ret (res, k, e, r', c') ->
  reader_ok defaultReadSize r' c' /\ zlen (ahead r' c') < zlen (ahead r c) /\ exists j, ahead r' c' = drop j (ahead r c).
Proof.
  intros Hr Hn Hz. unfold getPeekMessage. destruct (n <? 0) eqn:E0; [done|].
  destruct (ReadFull_spec (timeoutReader_Read d) defaultReadSize eq_refl (timeoutReader_ok d) r c n Hr ltac:(lia))
    as (r1 & c1 & Hr1 & _ & H).
  assert (Hf : exists b er, ReadFull (timeoutReader_Read d) defaultReadSize r c n = (b, er, r1, c1) /\
    zlen (ahead r1 c1) < zlen (ahead r c) /\ exists j, ahead r1 c1 = drop j (ahead r c)).
  { destruct (n <=? zlen (ahead r c)) eqn:E.
    - destruct H as [H Ha]. do 2 eexists. split; [exact H|]. rewrite Ha, zlen_drop. split; [lia|by eexists].
    - destruct H as (er & H & Ha). do 2 eexists. split; [exact H|]. rewrite Ha. change (zlen (@nil Z)) with 0. split; [lia|].
      exists (length (ahead r c)). by rewrite drop_all. }
  destruct Hf as (b & er & -> & Hf). destruct (New t).
  - intros G. inv_bind G as y Hy. destruct y as [[? ?] ?]. by injection G as <- <- <- <- <-.
  - by intros [= <- <- <- <- <-].
Qed.
End Progress.

Section Loop.
Context {TW : Type} `{TimeWheel TW}.
Context (pick : list (list Z) -> option nat) (wpick : list Writer -> option nat).
Implicit Types w : world TW.

(** [receiverData]'s loop, at most [fuel] rounds; [None]: it would go on *)
Fixpoint receive_loop (fuel : nat) (l : Z) w : option (world TW) :=
  match fuel with
  | O => None
  | S fuel =>
      match receiverData pick wpick l w with
      | (Ret true, w) => receive_loop fuel l w
      | (_, w) => Some w
      end
  end.

Lemma receiver_ended w l r w' : receiverData pick wpick l w = (r, w') -> r <> Ret true -> receivers w' !! l = None.
Proof.
  unfold receiverData. rewrite bindM_gets. destruct (receivers w !! l) as [rx|] eqn:E; [|by intros [= <- <-]].
  unfold bindM at 1. destruct (recovered _ false w) as [[[]|q] w1] eqn:E1.
  - rewrite bindM_ret. by intros [= <- <-].
  - unfold end_receiver. rewrite bindM_modify. intros [= <- <-] _. cbn. apply lookup_delete_eq.
  - exfalso. unfold recovered in E1. repeat case_match; congruence.
Qed.

(** every round that goes on has taken something off the stream *)
Lemma round_progress w l c d r x w' :
  receivers w !! l = Some (RxLoop c d r) -> conns w !! c = Some x -> reader_ok defaultReadSize r x ->
  Forall is_byte (ahead r x) -> receiverData pick wpick l w = (Ret true, w') ->
  exists d' r' x', receivers w' !! l = Some (RxLoop c d' r') /\ conns w' !! c = Some x' /\ reader_ok defaultReadSize r' x' /\
    Forall is_byte (ahead r' x') /\ zlen (ahead r' x') < zlen (ahead r x).
Proof.
  intros Hrx Hx Hr Hb H0. unfold receiverData in H0. rewrite bindM_gets, Hrx in H0.
  unfold bindM at 1, recovered in H0. destruct (receiverData_round pick wpick l c d r w) as [[[]|q] w1] eqn:E1.
  2,3: unfold end_receiver in H0; rewrite bindM_modify in H0; by injection H0.
  rewrite bindM_ret in H0. injection H0 as ->.
  unfold receiverData_round in E1. rewrite bindM_gets, Hx in E1. cbn [deref_some] in E1. rewrite bindM_ret in E1.
  destruct (getPeekMessageSize d r x) as [[[res r1] x1]|q] eqn:Es; [|done].
  destruct (getPeekMessageSize_any d r x res r1 x1 Hr Hb Es) as (Hr1 & Ha1 & Hn). rewrite bindM_lift in E1. cbv beta iota in E1.
  unfold set_conn in E1. rewrite bindM_modify in E1.
  assert (Hexc : forall e (w2 : world TW), (exceptionDisconnect l e ;;; retM false) w2 = (Ret true, w') -> False).
  { intros e w2 He. apply bindM_inv in He as [(? & ? & _ & [= _])|(? & _ & [= _])]. }
  destruct res as [[t n]|e]; [|by apply Hexc in E1]. rewrite bindM_gets in E1.
  destruct (_ <? n); [by apply Hexc in E1|]. destruct (Hn t n eq_refl) as [Hn1 Hn2].
  destruct (getPeekMessage d r1 x1 t n) as [[[[[msg k] err] r2] x2]|q] eqn:Eg; [|done].
  destruct (getPeekMessage_any d r1 x1 t n msg k err r2 x2 Hr1 Hn1 ltac:(rewrite Ha1; lia) Eg) as (Hr2 & Hlt & j & Hj).
  rewrite bindM_lift in E1. cbv beta iota in E1. unfold set_receiver in E1. rewrite !bindM_modify in E1.
  set (w2 := set_receivers _ _) in E1. destruct err; [by apply Hexc in E1|]. destruct msg as [msg|]; [|done].
  apply bindM_inv in E1 as [(err & w3 & Hp & H3)|(q & _ & [=])]. destruct err; [by apply Hexc in H3|].
  apply bindM_inv in H3 as [(b & w4 & Hd & H4)|(q & _ & [=])]. injection H4 as _ ->.
  assert (w3 = w') as ->.
  { unfold isDone in Hd. apply bindM_inv in Hd as [(s & w5 & Hs & [= _ <-])|(q & _ & [=])].
    unfold get_svc in Hs. rewrite bindM_gets in Hs. by destruct (svcs w3 !! l); injection Hs. }
  pose proof (keeps_processIncoming pick wpick l msg _ _ _ Hp) as Hc.
  destruct (map_rel_lookup _ _ _ _ _ (cm_rx _ _ Hc) (lookup_insert_eq _ l (RxLoop c d r2))) as ([|c' d' r'] & Hrx' & Hsr); [done|].
  destruct Hsr as [-> ->].
  assert (Hx2 : conns w2 !! c = Some x2) by (cbn; apply lookup_insert_eq).
  destruct (map_rel_lookup _ _ _ _ _ (cm_conns _ _ Hc) Hx2) as (x' & Hx' & (Hcl & Hsg & He)).
  exists d', r2, x'. split; [done|]. split; [done|].
  assert (Ha' : ahead r2 x' = ahead r2 x2) by (unfold ahead; by rewrite Hsg).
  rewrite Hj, Ha1 in Hlt. rewrite Ha', Hj, Ha1. split; [|split; [by apply Forall_drop|exact Hlt]].
  destruct Hr2 as (K1 & K2 & [K3 K4]). split; [done|]. split; [done|]. split; [by rewrite Hsg|congruence].
Qed.

(** C23: The receive loop ends, whatever the client sends and however its packets are
    handled: on a connection that delivers finitely many bytes, after at most one
    round for each of them and one more the goroutine has ended.  (A read past the
    last byte returns an error; a panic in a handler is recovered and ends it
    too.) *)
Theorem receive_loop_ends w l c d r x :
  receivers w !! l = Some (RxLoop c d r) -> conns w !! c = Some x -> reader_ok defaultReadSize r x ->
  Forall is_byte (ahead r x) ->
  exists w', receive_loop (S (length (ahead r x))) l w = Some w' /\ receivers w' !! l = None.
Proof.
  intros Hrx Hx Hr Hb. remember (length (ahead r x)) as k eqn:Hk. assert (Hle : (length (ahead r x) <= k)%nat) by lia. clear Hk.
  revert w d r x Hrx Hx Hr Hb Hle. induction k as [|k IH]; intros w d r x Hrx Hx Hr Hb Hle.
  - cbn [receive_loop]. destruct (receiverData pick wpick l w) as [[[]|q] w'] eqn:E.
    + destruct (round_progress w l c d r x w' Hrx Hx Hr Hb E) as (d' & r' & x' & _ & _ & _ & _ & Hlt). unfold zlen in Hlt. lia.
    + exists w'. split; [done|]. by eapply receiver_ended.
    + exists w'. split; [done|]. by eapply receiver_ended.
  - change (receive_loop (S (S k)) l w) with (match receiverData pick wpick l w with
      | (Ret true, w) => receive_loop (S k) l w | (_, w) => Some w end).
    destruct (receiverData pick wpick l w) as [[[]|q] w'] eqn:E.
    + destruct (round_progress w l c d r x w' Hrx Hx Hr Hb E) as (d' & r' & x' & H1 & H2 & H3 & H4 & Hlt).
      apply (IH w' d' r' x'); try done. unfold zlen in Hlt. lia.
    + exists w'. split; [done|]. by eapply receiver_ended.
    + exists w'. split; [done|]. by eapply receiver_ended.
Qed.


End Loop.

(** ** Every registered service is live *)

Section Registered.
Context {TW : Type} `{TimeWheel TW}.
Context (pick : list (list Z) -> option nat) (wpick : list Writer -> option nat)
        (ppick : list PublishMessage -> option nat)
        (copy : PublishMessage -> PublishMessage -> PublishMessage)
        (reg : gmap string memProvider).
Implicit Types w : world TW.
Implicit Types p : list (list Z * Z).

(** C1: In every state the server reaches, whatever its goroutines and its peers do,
    an entry of [svcMap] is a live service under its own key: neither of its
    channels is closed, its connection is there and open, its session is there
    with all six queues and the CONNECT message, and the session manager exists.
    No two entries share a service, a connection or a session.  (So none of the
    pointers [tick_off], [exceptionDisconnect], [PushMsg] and [Close] follow from
    the map is nil, and none of them closes a channel twice.) *)
Theorem registered_live w p k l :
  reachable pick wpick ppick copy reg w p -> svcMap (srv w) !! k = Some l ->
  is_live w l k /\ is_Some (sessMgr (srv w)) /\
  (forall k' l' s s', svcMap (srv w) !! k' = Some l' -> k' <> k -> svcs w !! l = Some s -> svcs w !! l' = Some s' ->
     l' <> l /\ conn s' <> conn s /\ sess s' <> sess s).
Proof.
  intros R Hk. pose proof (reachable_inv _ _ _ _ _ _ _ R) as I. split; [by apply I|]. split; [apply (si_mgr _ _ I k l); by left|].
  intros k' l' s s' Hk' Hne Hs Hs'.
  assert (Hl : l' <> l) by (intros ->; apply Hne; by eapply registered_inj).
  destruct (si_reg _ _ I k l Hk) as (s1 & c1 & x1 & sl1 & ss1 & [A1 _ _ _ A5 _ _ A8 _ _]).
  assert (s1 = s) as -> by congruence. split; [done|]. split; intros E; apply Hl.
  - apply (si_conn _ _ I l' l s' s c1 Hs' Hs); congruence.
  - apply (si_sess _ _ I l' l s' s sl1 Hs' Hs); congruence.
Qed.

(** C17: Shutting down ends everything that is registered.  From every reachable
    state [Close] returns (it does not panic on the way), the listeners are
    closed, no service is registered any more, and every service that was has been
    ended: its connection is closed, its channels are closed, its pointers are
    nil. *)
Theorem shutdown_ends_all w p : reachable pick wpick ppick copy reg w p -> exists w',
  Close w = (Ret tt, w') /\ svcMap (srv w') = ∅ /\ ln_closed (srv w') = true /\
  (forall k l s c, svcMap (srv w) !! k = Some l -> svcs w !! l = Some s -> conn s = Some c -> ended w' l c).
Proof.
  intros R. destruct (Close_ok p w (reachable_inv _ _ _ _ _ _ _ R)) as (w' & E & _ & H1). by exists w'.
Qed.

(** ** The end of a connection *)

(** the stream is over: what the last [Peek] reports *)
Lemma getPeekMessageSize_end d r x : reader_ok defaultReadSize r x -> zlen (ahead r x) < 2 ->
  exists r' x', getPeekMessageSize d r x = Ret (inr (rd_err x), r', x') /\ closed x' = closed x.
Proof.
  intros Hr Hz. pose proof Hr as (_ & _ & [_ Ho]).
  destruct (Peek_spec (timeoutReader_Read d) defaultReadSize (timeoutReader_ok d) r x 2 Hr ltac:(unfold defaultReadSize; lia))
    as (r1 & x1 & Hr1 & _ & _ & H1). destruct (2 <=? zlen (ahead r x)) eqn:E; [lia|]. destruct H1 as [H1 _].
  exists r1, x1. split; [|destruct Hr1 as (_ & _ & [_ Ho1]); congruence].
  unfold getPeekMessageSize. cbn [peek_header]. change (5 <? 2) with false. cbv iota. by rewrite H1.
Qed.

(** reading from a connection that the server itself has closed *)
Lemma Peek_closed d r x : closed x = true -> rbuf r = [] -> rerr r = None ->
  Peek (timeoutReader_Read d) defaultReadSize r x 2 = ([], Some errClosed, mkReader [] None, x).
Proof.
  intros Hc Hb He. destruct r as [b e]. cbn in Hb, He. subst b e.
  assert (Hf : fill (timeoutReader_Read d) defaultReadSize (mkReader [] None) x = (mkReader [] (Some errClosed), x)).
  { apply fill_error. unfold timeoutReader_Read, SetReadDeadline. by rewrite Hc. }
  unfold Peek. change (2 <? 0) with false. cbv iota. change (S (Z.to_nat 2)) with 3%nat. cbn [peek_loop rbuf rerr].
  change ((zlen (@nil Z) <? 2) && (zlen (@nil Z) <? defaultReadSize) && true) with true. cbv iota. rewrite Hf. done.
Qed.

(** a turn of the receiver that ends in [exceptionDisconnect] *)
Lemma receive_error w l c d r x e r' x' v w' :
  receivers w !! l = Some (RxLoop c d r) -> conns w !! c = Some x -> getPeekMessageSize d r x = Ret (inr e, r', x') ->
  exceptionDisconnect l (Some e) (set_conns (<[c:=x']> (conns w)) w) = (v, w') ->
  receiverData pick wpick l w = (Ret false, set_receivers (delete l (receivers w')) w').
Proof.
  intros Hrx Hx Hg He. unfold receiverData. rewrite bindM_gets, Hrx.
  assert (E : recovered (receiverData_round pick wpick l c d r) false w = (Ret false, w')).
  { unfold recovered, receiverData_round. rewrite bindM_gets, Hx. cbn [deref_some]. rewrite bindM_ret, Hg, bindM_lift. cbv beta iota.
    unfold set_conn. rewrite bindM_modify. unfold bindM. rewrite He. by destruct v. }
  rewrite (bindM_step _ _ _ _ _ E). unfold end_receiver. rewrite bindM_modify. done.
Qed.

Lemma exceptionDisconnect_EOF w p l k this s : server_inv w p -> svcs w !! this = Some s -> svc_key s = k ->
  svcMap (srv w) !! k = Some l -> exists s' c x sl ss m, live w l k s' c x sl ss /\ sessMgr (srv w) = Some m /\
    exceptionDisconnect this (Some EOF) w = (Ret tt, after_down w l s' c x sl ss m LogReasonValDeviceDisconnect) /\
    server_inv (after_down w l s' c x sl ss m LogReasonValDeviceDisconnect) p.
Proof.
  intros I Hs Hk E. destruct (take_down_reg p w k l LogReasonValDeviceDisconnect I E) as (s' & c & x & sl & ss & m & L & Hm & E1 & I1 & _).
  exists s', c, x, sl, ss, m. split; [done|]. split; [done|]. split; [|done]. unfold exceptionDisconnect.
  rewrite (bindM_step _ _ _ _ _ (get_svc_ok w this s Hs)). cbv zeta. rewrite key_spellings. fold (svc_key s).
  rewrite Hk, bindM_gets, E, bool_decide_eq_true_2 by done. exact E1.
Qed.

(** any other error: the registration is removed, then [val.Error()] panics *)
Lemma exceptionDisconnect_error w l k this s e s' : svcs w !! this = Some s -> svc_key s = k ->
  svcMap (srv w) !! k = Some l -> svcs w !! l = Some s' -> svc_key s' = k -> e <> EOF ->
  exists r, exceptionDisconnect this (Some e) w =
    (Panic NilDeref, set_srv (set_svcMap (delete k (svcMap (srv w))) (srv w)) (set_svcs (<[l:=set_sreason r s']> (svcs w)) w)).
Proof.
  intros Hs Hk E Hs' Hk' He. unfold exceptionDisconnect.
  rewrite (bindM_step _ _ _ _ _ (get_svc_ok w this s Hs)). cbv zeta. rewrite key_spellings. fold (svc_key s).
  rewrite Hk, bindM_gets, E, bool_decide_eq_false_2 by congruence. cbn [negb].
  rewrite (bindM_step (error_text (Some e)) _ w (Error_ e) w eq_refl). eexists.
  erewrite bindM_step by (apply upd_svc_ok; exact Hs').
  erewrite bindM_step by (apply deleteMapAndLogout_ok; cbn; apply lookup_insert_eq).
  cbn -[svc_key]. change (svc_key (set_sreason _ s')) with (svc_key s'). rewrite Hk'. done.
Qed.

(** C18: A client that closes its connection is cleaned up after.  When the stream of
    a registered service is over with io.EOF, the last turn of its receiver
    removes the registration, deletes the session from the provider, ends the
    service (connection closed, channels closed, queues gone) and ends the
    goroutine; nothing panics, and every other registration is still live. *)
Theorem eof_cleanup w p k l s c d r x :
  server_inv w p -> svcMap (srv w) !! k = Some l -> svcs w !! l = Some s -> conn s = Some c ->
  receivers w !! l = Some (RxLoop c d r) -> conns w !! c = Some x ->
  reader_ok defaultReadSize r x -> zlen (ahead r x) < 2 -> rd_err x = EOF ->
  exists w' sl ss m, receiverData pick wpick l w = (Ret false, w') /\ server_inv w' p /\
    svcMap (srv w') = delete k (svcMap (srv w)) /\ ended w' l c /\ receivers w' !! l = None /\
    sess s = Some sl /\ cells (sessions w) !! sl = Some ss /\ sessMgr (srv w') = Some m /\
    (exists e, mgr_Get (C:=callback) m (ID ss) = inr e) /\ exists ss', cells (sessions w') !! sl = Some ss' /\ Pub1ack ss' = None.
Proof.
  intros I Hk Hs Hc Hrx Hx Hr Hz He.
  destruct (getPeekMessageSize_end d r x Hr Hz) as (r' & x' & Hg & Hcl). rewrite He in Hg.
  set (w1 := set_conns (<[c:=x']> (conns w)) w).
  assert (I1 : server_inv w1 p) by (by eapply set_conn_inv).
  destruct (si_reg _ _ I k l Hk) as (s0 & ? & ? & ? & ? & L0).
  assert (Hsk : svc_key s = k) by (destruct L0 as [E1 E2 _ _ _ _ _ _ _ _]; congruence).
  destruct (exceptionDisconnect_EOF w1 p l k l s I1 Hs Hsk Hk) as (s' & c' & y & sl & ss & m & L & Hm & E & I2).
  pose proof L as [L1 L2 L3 L4 L5 L6 L7 L8 L9 L10]. cbn in L1. assert (s' = s) as -> by congruence.
  assert (c' = c) as -> by congruence. set (w2 := after_down _ _ _ _ _ _ _ _ _) in *.
  exists (set_receivers (delete l (receivers w2)) w2), sl, ss, (mgr_Del (C:=callback) m (ID ss)).
  split; [by eapply receive_error|]. split; [by eapply frame_inv|]. split; [cbn -[svc_key]; by rewrite L2|].
  split; [apply (down_ended w1)|]. split; [cbn; apply lookup_delete_eq|]. split; [done|]. split; [done|]. split; [done|].
  split; [exact (proj1 (Del_Get (C:=callback) m (ID ss)))|]. eexists. split; [cbn; apply lookup_insert_eq|done].
Qed.

(** C37: A connection that ends in any other way is not cleaned up after.  When the
    read fails with an error that is not io.EOF (the keep-alive deadline among
    them), [exceptionDisconnect] removes the registration and then calls [Error]
    on the nil result of [deleteMapAndLogout]: the recovered panic ends the
    receiver, but the connection stays open, the service is not stopped, the
    session stays with the manager, and since the service is in no entry of
    [svcMap] any more, nothing will ever end it. *)
Theorem error_leaves_connection w p k l s c d r x :
  server_inv w p -> svcMap (srv w) !! k = Some l -> svcs w !! l = Some s -> conn s = Some c ->
  receivers w !! l = Some (RxLoop c d r) -> conns w !! c = Some x ->
  reader_ok defaultReadSize r x -> zlen (ahead r x) < 2 -> rd_err x <> EOF ->
  exists w' s' x', receiverData pick wpick l w = (Ret false, w') /\
    svcMap (srv w') = delete k (svcMap (srv w)) /\ receivers w' !! l = None /\
    svcs w' !! l = Some s' /\ done_closed s' = false /\ conn s' = Some c /\ conns w' !! c = Some x' /\ closed x' = false /\
    sessMgr (srv w') = sessMgr (srv w) /\ sessions w' = sessions w /\ (forall k', svcMap (srv w') !! k' <> Some l) /\ server_inv w' p.
Proof.
  intros I Hk Hs Hc Hrx Hx Hr Hz He.
  destruct (getPeekMessageSize_end d r x Hr Hz) as (r' & x' & Hg & Hcl).
  set (w1 := set_conns (<[c:=x']> (conns w)) w).
  assert (I1 : server_inv w1 p) by (by eapply set_conn_inv).
  destruct (si_reg _ _ I k l Hk) as (s0 & c0 & x0 & ? & ? & L0).
  pose proof L0 as [L1 L2 L3 L4 L5 L6 L7 _ _ _]. assert (s0 = s) as -> by congruence.
  assert (c0 = c) as -> by congruence. assert (x0 = x) as -> by congruence.
  destruct (exceptionDisconnect_error w1 l k l s (rd_err x) s Hs L2 Hk Hs L2 He) as (rs & E).
  pose proof (receive_error w l c d r x _ _ _ _ _ Hrx Hx Hg E) as Hrec.
  pose proof (receiverData_inv pick wpick p l _ _ _ I Hrec) as I2.
  eexists _, (set_sreason rs s), x'. split; [exact Hrec|]. cbn.
  split_and!; try done; try apply lookup_insert_eq; [apply lookup_delete_eq|congruence|].
  intros k' [Hne Hk']%lookup_delete_Some. apply Hne. symmetry. by eapply (registered_inj p w k' k l I).
Qed.

(** A takeover can be undone by the connection it ended.  Service [l0] had the key
    before [l] took it over, so its connection is closed and its receiver is about
    to fail.  When that receiver runs after [storeMap], its error is looked up
    under the shared key and hits the new service: the registration of [l] is
    removed although its connection is open and its own receiver goes on. *)
Theorem takeover_unregistered w p k l0 s0 l s c0 d r x0 :
  server_inv w p -> svcMap (srv w) !! k = Some l -> svcs w !! l = Some s -> l <> l0 ->
  svcs w !! l0 = Some s0 -> svc_key s0 = k -> receivers w !! l0 = Some (RxLoop c0 d r) -> conns w !! c0 = Some x0 ->
  closed x0 = true -> rbuf r = [] -> rerr r = None ->
  exists w' s' c x, receiverData pick wpick l0 w = (Ret false, w') /\
    svcMap (srv w') = delete k (svcMap (srv w)) /\ receivers w' !! l = receivers w !! l /\
    svcs w' !! l = Some s' /\ done_closed s' = false /\ conn s' = Some c /\ conns w' !! c = Some x /\ closed x = false.
Proof.
  intros I Hk Hs Hne Hs0 Hk0 Hrx Hx0 Hcl Hb Hre.
  assert (Hg : exists r', getPeekMessageSize d r x0 = Ret (inr errClosed, r', x0)).
  { eexists. unfold getPeekMessageSize. cbn [peek_header]. change (5 <? 2) with false. cbv iota.
    rewrite (Peek_closed d r x0 Hcl Hb Hre). reflexivity. }
  destruct Hg as [r' Hg]. set (w1 := set_conns (<[c0:=x0]> (conns w)) w).
  destruct (si_reg _ _ I k l Hk) as (s1 & c & x & sl & ss & L). pose proof L as [L1 L2 L3 L4 L5 L6 L7 _ _ _].
  assert (s1 = s) as -> by congruence.
  destruct (exceptionDisconnect_error w1 l k l0 s0 errClosed s Hs0 Hk0 Hk Hs L2 ltac:(done)) as (rs & E).
  pose proof (receive_error w l0 c0 d r x0 _ _ _ _ _ Hrx Hx0 Hg E) as Hrec.
  eexists _, (set_sreason rs s), c, x. split; [exact Hrec|]. cbn.
  split_and!; try done; [by rewrite lookup_delete_ne|apply lookup_insert_eq|].
  rewrite lookup_insert_ne; [done|]. intros ->. congruence.
Qed.

(** An oversized packet leaves a dead registration.  When the packet at the front
    of the stream is longer than [MaxBufferSize], the receiver passes its own nil
    error to [exceptionDisconnect], which panics before it has done anything: the
    receiver ends, but the service stays registered with an open connection that
    nobody reads. *)
Theorem oversized_stays_registered w p k l s c d r x b body rest :
  server_inv w p -> svcMap (srv w) !! k = Some l -> svcs w !! l = Some s -> conn s = Some c ->
  receivers w !! l = Some (RxLoop c d r) -> conns w !! c = Some x -> reader_ok defaultReadSize r x ->
  remlen_ok (zlen body) -> ahead r x = frame b body ++ rest -> MaxBufferSize (srv w) < zlen (frame b body) ->
  exists w', receiverData pick wpick l w = (Ret false, w') /\ svcMap (srv w') = svcMap (srv w) /\
    is_live w' l k /\ receivers w' !! l = None /\ server_inv w' p.
Proof.
  intros I Hk Hs Hc Hrx Hx Hr Hn Ha Hmax.
  destruct (getPeekMessageSize_spec d r x b body rest Hr Hn Ha) as (r1 & x1 & Hg & _ & _ & _).
  set (w1 := set_conns (<[c:=x1]> (conns w)) w).
  destruct (si_reg _ _ I k l Hk) as (s0 & c0 & x0 & sl & ss & L0).
  pose proof L0 as [L1 L2 L3 L4 L5 L6 L7 L8 L9 L10]. assert (s0 = s) as -> by congruence.
  assert (Hexc : exceptionDisconnect l None w1 = (Panic NilDeref, w1)).
  { unfold exceptionDisconnect. rewrite (bindM_step _ _ _ _ _ (get_svc_ok w1 l s Hs)). cbv zeta.
    rewrite key_spellings. fold (svc_key s). rewrite L2, bindM_gets. change (svcMap (srv w1)) with (svcMap (srv w)). rewrite Hk. done. }
  assert (Hrec : receiverData pick wpick l w = (Ret false, set_receivers (delete l (receivers w1)) w1)).
  { unfold receiverData. rewrite bindM_gets, Hrx.
    assert (E : recovered (receiverData_round pick wpick l c d r) false w = (Ret false, w1)).
    { unfold recovered, receiverData_round. rewrite bindM_gets, Hx. cbn [deref_some]. rewrite bindM_ret, Hg, bindM_lift. cbv beta iota.
      unfold set_conn. rewrite bindM_modify, bindM_gets. change (MaxBufferSize (srv (set_conns (<[c:=x1]> (conns w)) w))) with (MaxBufferSize (srv w)).
      rewrite (proj2 (Z.ltb_lt _ _)) by done. fold w1. unfold bindM. by rewrite Hexc. }
    rewrite (bindM_step _ _ _ _ _ E). unfold end_receiver. rewrite bindM_modify. done. }
  pose proof (receiverData_inv pick wpick p l _ _ _ I Hrec) as I2. eexists. split; [exact Hrec|]. split; [done|].
  split; [by apply (si_reg _ _ I2)|]. split; [cbn; apply lookup_delete_eq|done].
Qed.

(** One message can stop all deliveries.  [PushMsg] runs in one goroutine, which
    returns when the topic of a message has no slash; a client that publishes on
    such a topic stops it, and from then on the channel is never read again: it
    fills up, and every message is dropped. *)
Theorem short_topic_stops_pushing w u us :
  pushing w = true -> msgChan w = u :: us -> 47 ∉ Topic (up_Msg u) ->
  exists w', PushMsg pick wpick ppick copy w = (Ret tt, w') /\ pushing w' = false /\ msgChan w' = us /\
    forall w2, pushing w2 = false -> PushMsg pick wpick ppick copy w2 = (Ret tt, w2).
Proof.
  intros Hp Hm Ht. exists (set_pushing false (set_msgChan us w)). split; [|split_and!; try done].
  - unfold PushMsg. rewrite bindM_gets, Hp, Hm, bindM_modify.
    rewrite (bindM_step (push_one pick wpick ppick copy u) _ (set_msgChan us w) false (set_msgChan us w)); [done|].
    unfold push_one. cbv zeta. by rewrite Split_none.
  - intros w2 H2. unfold PushMsg. by rewrite bindM_gets, H2.
Qed.

End Registered.

(** ** The sample device comes and goes *)

Lemma d1_idle_reachable : sample_reachable (d1_up 1000 [] [] EOF).
Proof. apply d1_up_reachable. vm_compute. reflexivity. Qed.

Lemma receive_loop_ends_witness : exists w',
  receive_loop no_pick no_pick 5 1 (d1_up 1000 [] [[192; 0]; [192; 0]] EOF) = Some w' /\ receivers w' !! 1 = None.
Proof.
  destruct (conns (d1_up 1000 [] [[192; 0]; [192; 0]] EOF) !! 0) as [x|] eqn:Ex; [|vm_compute in Ex; discriminate].
  assert (Ha : ahead NewReader x = [192; 0; 192; 0]) by of_sample Ex.
  destruct (receive_loop_ends no_pick no_pick (d1_up 1000 [] [[192; 0]; [192; 0]] EOF) 1 0 65 NewReader x) as (w' & H1 & H2).
  - vm_compute. reflexivity.
  - exact Ex.
  - split; [reflexivity|]. split; [vm_compute; discriminate|]. split; [|of_sample Ex].
    vm_compute in Ex. injection Ex as <-. repeat (constructor; [discriminate|]). constructor.
  - rewrite Ha. repeat constructor; discriminate.
  - rewrite Ha in H1. exists w'. split; [exact H1|exact H2].
Defined.

Lemma registered_live_witness : is_live (d1_up 1000 [] [] EOF) 1 d1_key.
Proof.
  refine (proj1 (registered_live no_pick no_pick no_pick copy_all mem_registry (d1_up 1000 [] [] EOF) [] d1_key 1 d1_idle_reachable _)).
  vm_compute. reflexivity.
Defined.

Lemma shutdown_ends_all_witness : exists w', Close (d1_up 1000 [] [] EOF) = (Ret tt, w') /\ svcMap (srv w') = ∅ /\ ended w' 1 0.
Proof.
  destruct (svcs (d1_up 1000 [] [] EOF) !! 1) as [s|] eqn:Es; [|vm_compute in Es; discriminate].
  destruct (shutdown_ends_all no_pick no_pick no_pick copy_all mem_registry (d1_up 1000 [] [] EOF) [] d1_idle_reachable)
    as (w' & H1 & H2 & _ & H3).
  exists w'. split; [exact H1|]. split; [exact H2|]. apply (H3 d1_key 1 s 0); [vm_compute; reflexivity|exact Es|of_sample Es].
Defined.

Lemma eof_cleanup_witness : exists w',
  receiverData no_pick no_pick 1 (d1_up 1000 [] [] EOF) = (Ret false, w') /\ ended w' 1 0 /\ receivers w' !! 1 = None.
Proof.
  destruct (svcs (d1_up 1000 [] [] EOF) !! 1) as [s|] eqn:Es; [|vm_compute in Es; discriminate].
  destruct (conns (d1_up 1000 [] [] EOF) !! 0) as [x|] eqn:Ex; [|vm_compute in Ex; discriminate].
  destruct (eof_cleanup no_pick no_pick (d1_up 1000 [] [] EOF) [] d1_key 1 s 0 65 NewReader x)
    as (w' & sl & ss & m & H1 & _ & _ & H2 & H3 & _).
  - exact (reachable_inv _ _ _ _ _ _ _ d1_idle_reachable).
  - vm_compute. reflexivity.
  - exact Es.
  - of_sample Es.
  - vm_compute. reflexivity.
  - exact Ex.
  - split; [reflexivity|]. split; [vm_compute; discriminate|]. split; [|of_sample Ex].
    vm_compute in Ex. injection Ex as <-. constructor.
  - of_sample Ex.
  - of_sample Ex.
  - exists w'. split; [exact H1|]. split; [exact H2|exact H3].
Defined.

(** what a read reports when the deadline has passed *)
Definition i_o_timeout : error := ErrorsNew "i/o timeout".

Lemma error_leaves_connection_witness : exists w' s' x',
  receiverData no_pick no_pick 1 (d1_up 1000 [] [] i_o_timeout) = (Ret false, w') /\ svcMap (srv w') = delete d1_key (svcMap (srv (d1_up 1000 [] [] i_o_timeout))) /\
  svcs w' !! 1 = Some s' /\ done_closed s' = false /\ conns w' !! 0 = Some x' /\ closed x' = false.
Proof.
  destruct (svcs (d1_up 1000 [] [] i_o_timeout) !! 1) as [s|] eqn:Es; [|vm_compute in Es; discriminate].
  destruct (conns (d1_up 1000 [] [] i_o_timeout) !! 0) as [x|] eqn:Ex; [|vm_compute in Ex; discriminate].
  destruct (error_leaves_connection no_pick no_pick (d1_up 1000 [] [] i_o_timeout) [] d1_key 1 s 0 65 NewReader x)
    as (w' & s' & x' & H1 & H2 & _ & H3 & H4 & _ & H5 & H6 & _).
  - eapply reachable_inv, d1_up_reachable. vm_compute. reflexivity.
  - vm_compute. reflexivity.
  - exact Es.
  - of_sample Es.
  - vm_compute. reflexivity.
  - exact Ex.
  - split; [reflexivity|]. split; [vm_compute; discriminate|]. split; [|of_sample Ex].
    vm_compute in Ex. injection Ex as <-. constructor.
  - of_sample Ex.
  - vm_compute in Ex. injection Ex as <-. discriminate.
  - exists w', s', x'. split; [exact H1|]. split; [exact H2|]. split; [exact H3|]. split; [exact H4|]. split; [exact H5|exact H6].
Defined.

Lemma takeover_unregistered_witness : exists w' s' c x,
  receiverData no_pick no_pick 1 d1_again = (Ret false, w') /\ svcMap (srv w') = delete d1_key (svcMap (srv d1_again)) /\
  svcs w' !! 2 = Some s' /\ done_closed s' = false /\ conn s' = Some c /\ conns w' !! c = Some x /\ closed x = false.
Proof.
  destruct (svcs d1_again !! 1) as [s0|] eqn:Es0; [|vm_compute in Es0; discriminate].
  destruct (svcs d1_again !! 2) as [s|] eqn:Es; [|vm_compute in Es; discriminate].
  destruct (conns d1_again !! 0) as [x0|] eqn:Ex; [|vm_compute in Ex; discriminate].
  destruct (takeover_unregistered no_pick no_pick d1_again [] d1_key 1 s0 2 s 0 65 NewReader x0)
    as (w' & s' & c & x & H1 & H2 & _ & H3 & H4 & H5 & H6 & H7).
  - exact (reachable_inv _ _ _ _ _ _ _ d1_again_reachable).
  - vm_compute. reflexivity.
  - exact Es.
  - discriminate.
  - exact Es0.
  - of_sample Es0.
  - vm_compute. reflexivity.
  - exact Ex.
  - of_sample Ex.
  - reflexivity.
  - reflexivity.
  - exists w', s', c, x. split; [exact H1|]. split; [exact H2|]. split; [exact H3|]. split; [exact H4|].
    split; [exact H5|]. split; [exact H6|exact H7].
Defined.

Lemma oversized_stays_registered_witness : exists w',
  receiverData no_pick no_pick 1 (d1_up 4 [] [[48; 3]; [0; 1; 97]] EOF) = (Ret false, w') /\ is_live w' 1 d1_key /\ receivers w' !! 1 = None.
Proof.
  destruct (svcs (d1_up 4 [] [[48; 3]; [0; 1; 97]] EOF) !! 1) as [s|] eqn:Es; [|vm_compute in Es; discriminate].
  destruct (conns (d1_up 4 [] [[48; 3]; [0; 1; 97]] EOF) !! 0) as [x|] eqn:Ex; [|vm_compute in Ex; discriminate].
  destruct (oversized_stays_registered no_pick no_pick (d1_up 4 [] [[48; 3]; [0; 1; 97]] EOF) [] d1_key 1 s 0 65 NewReader x 48 [0; 1; 97] [])
    as (w' & H1 & _ & H2 & H3 & _).
  - eapply reachable_inv, d1_up_reachable. vm_compute. reflexivity.
  - vm_compute. reflexivity.
  - exact Es.
  - of_sample Es.
  - vm_compute. reflexivity.
  - exact Ex.
  - split; [reflexivity|]. split; [vm_compute; discriminate|]. split; [|of_sample Ex].
    vm_compute in Ex. injection Ex as <-. repeat (constructor; [discriminate|]). constructor.
  - vm_compute. by split.
  - of_sample Ex.
  - vm_compute. reflexivity.
  - exists w'. split; [exact H1|]. split; [exact H2|exact H3].
Defined.

Lemma short_topic_stops_pushing_witness : exists w',
  PushMsg no_pick no_pick no_pick copy_all (d1_up 1000 [mkUpload (mkPublish (Publish.hdr NewPublishMessage) (str "t") []) [] []] [] EOF)
    = (Ret tt, w') /\ pushing w' = false.
Proof.
  destruct (short_topic_stops_pushing no_pick no_pick no_pick copy_all
    (d1_up 1000 [mkUpload (mkPublish (Publish.hdr NewPublishMessage) (str "t") []) [] []] [] EOF)
    (mkUpload (mkPublish (Publish.hdr NewPublishMessage) (str "t") []) [] []) []) as (w' & H1 & H2 & _).
  - vm_compute. reflexivity.
  - vm_compute. reflexivity.
  - apply (bool_decide_unpack _). vm_compute. done.
  - exists w'. split; [exact H1|exact H2].
Defined.
