(* ===== verification/Config.v ===== *)
(** * Config: the options of the server ([config/config.go])

    The file reader viper and [errors.Wrap] are parameters: [ReadInConfig] finds
    and parses the file, the getters give the value of a key, zero when the key is
    not there. *)
From stdpp Require Import base list strings.
From Stdlib Require Import ZArith Lia.
From S2P Require Import Prelude GoLang.

Record Configuration : Type := mkConfiguration {
  KeepAlive : Z;
  ConnectTimeout : Z;
  TimeoutRetries : Z;
  MaxBufferSize : Z;
  SessionsProvider : string;
  WsAddr : string;
  WssAddr : string;
  RootCertPath : string;
  TLsPublicCertPath : string;
  TLsPrivateKeyPath : string;
  WssPublicCertPath : string;
  WssPrivateKeyPath : string;
  LogPath : string;
  NetCard : string;
  PublicNetCard : string;
  PublicNetworkIP : string;
  Prof : bool;
  AuthSvr : string;
  UploadSvr : string;
  AckTimeout : Z;
  Interval : Z;
  BucketNum : Z
}.

Definition DefaultKeepAlive : Z := 300.
Definition DefaultConnectTimeout : Z := 2.
Definition DefaultAckTimeout : Z := 5.
Definition DefaultTimeoutRetries : Z := 3.
Definition DefaultMaxBufferSize : Z := 1024 * 256.
Definition DefaultSessionsProvider : string := "mem".

(** the constants of the package, keys by their names; the package [service] reads
    three of them in place of the fields of the same name *)
Definition const_NetCard : string := "netcard".
Definition const_PublicNetCard : string := "publicNetcard".
Definition const_PublicNetworkIP : string := "publicNetworkIP".

Section Viper.
Context (ReadInConfig : option error) (GetInt : string -> Z) (GetString : string -> string) (GetBool : string -> bool)
        (Wrap : error -> string -> error).

Definition int_or (key : string) (d : Z) : Z := if GetInt key =? 0 then d else GetInt key.
Definition string_or (key d : string) : string :=
  if bool_decide (GetString key = "") then d else GetString key.

Definition NewOptions : Configuration + error :=
  let err := ReadInConfig in
  match err with
  | Some e => inr (Wrap e "NewOptions | read config failed")
  | None =>
      let failed := bool_decide (err <> None) in
      inl {|
        KeepAlive := int_or "mqtt.keepalive" DefaultKeepAlive;
        ConnectTimeout := int_or "mqtt.connectTimeout" DefaultConnectTimeout;
        TimeoutRetries := int_or "mqtt.retries" DefaultTimeoutRetries;
        MaxBufferSize := if negb failed then DefaultMaxBufferSize else GetInt "mqtt.maxBufferSize";
        SessionsProvider := string_or "mqtt.sessionProvider" DefaultSessionsProvider;
        WsAddr := "";
        WssAddr := "";
        RootCertPath := string_or "cert.caPath" "/opt/cert/ca.crt";
        TLsPublicCertPath := string_or "cert.serverCrtPath" "/opt/cert/server.crt";
        TLsPrivateKeyPath := string_or "cert.serverKeyPath" "/opt/cert/server.key";
        WssPublicCertPath := string_or "cert.wssCrtPath" "/opt/cert/wss.crt";
        WssPrivateKeyPath := string_or "cert.wssKeyPath" "/opt/cert/wss.key";
        LogPath := "";
        NetCard := if failed then "eth0" else GetString "server.netCard";
        PublicNetCard := if failed then "eth0" else GetString "server.publicNetCard";
        PublicNetworkIP := "";
        Prof := GetBool "server.Prof";
        AuthSvr := "";
        UploadSvr := "";
        AckTimeout := int_or "mqtt.ackTimeout" DefaultAckTimeout;
        Interval := int_or "timeWheel.interval" 200;
        BucketNum := int_or "timeWheel.bucketNum" 360
      |}
  end.

Lemma int_or_nonzero key d : d <> 0 -> int_or key d <> 0.
Proof. intros Hd. unfold int_or. destruct (GetInt key =? 0) eqn:E; [done|lia]. Qed.

Lemma string_or_nonempty key d : d <> "" -> string_or key d <> "".
Proof. intros Hd. unfold string_or. by case_bool_decide. Qed.

End Viper.
