(* ===== verification/Startup.v ===== *)
(** * Startup: from the options to a running server

    [service/xsfserver.go] builds the server from its options and starts the
    listeners; [listenAndServe] of [service/server.go] and the loop of
    [service/tls.go] accept connections.  Sockets are the scripts of what their
    calls answer; process exit is a result. *)
From stdpp Require Import base list strings gmap.
From Stdlib Require Import ZArith Lia.
From S2P Require Import MsgTypes Message AckQueue Session.
From S2P Require Import Prelude GoLang NetConn Framing Config World Server Sample ServerSpec ServerSys.

(** ** Addresses of the host ([utils/IoTCommon/util/utils.go]) *)

(** a [net.Addr]: an [*net.IPNet] with its IPv4 text, if it is one, or another *)
Inductive netaddr : Type :=
| IPNet (v4 : option string) (loopback : bool)
| OtherAddr.

(** [net.Interfaces]: names with what [Addrs] answers *)
Abbreviation interfaces := (list (string * (list netaddr + error)) + error)%type.

Definition NoTTargetIP : string := "1.1.1.1".

Fixpoint first_v4 (l : list netaddr) : string :=
  match l with
  | [] => ""
  | IPNet (Some a) false :: l => if bool_decide (a = NoTTargetIP) then first_v4 l else a
  | _ :: l => first_v4 l
  end.

(** [addrs]: what [net.InterfaceAddrs] answers *)
Definition GetHostIP (addrs : list netaddr + error) : string :=
  match addrs with inr _ => "" | inl l => first_v4 l end.

Fixpoint card_addrs (name : string) (l : list netaddr) (m : gmap string string) : gmap string string :=
  match l with
  | [] => m
  | IPNet (Some a) _ :: l => card_addrs name l (<[name:=a]> m)
  | _ :: l => card_addrs name l m
  end.

Fixpoint all_addrs (l : list (string * (list netaddr + error))) (m : gmap string string) : gmap string string * option error :=
  match l with
  | [] => (m, None)
  | (_, inr e) :: _ => (m, Some e)
  | (name, inl a) :: l => all_addrs l (card_addrs name a m)
  end.

Definition GetAddrs (ifs : interfaces) : gmap string string * option error :=
  match ifs with inr e => (∅, Some e) | inl l => all_addrs l ∅ end.

Definition GetIPFromNetCard (ifs : interfaces) (netcard : string) : string * option error :=
  match GetAddrs ifs with
  | (_, Some e) => ("", Some e)
  | (m, None) => (default "" (m !! netcard), None)
  end.

(** ** [MqttXSFServer.Init] *)

(** the server with the fields that only start-up reads *)
Record node : Type := mkNode {
  svr : Server;
  mqttAddr : string;
  tlsMqttAddr : string;
  nd_hostIP : string;
  nd_PublicNetworkIP : string
}.

Definition with_svr (s : Server) (n : node) : node :=
  mkNode s (mqttAddr n) (tlsMqttAddr n) (nd_hostIP n) (nd_PublicNetworkIP n).

Definition setNodeID (id : list Z) (s : Server) : Server :=
  mkServer (KeepAlive s) (ConnectTimeout s) (AckTimeout s) (TimeoutRetries s) (MaxBufferSize s)
           (SessionsProvider s) (sessMgr s) id (svcMap s) (ln_closed s) (configured s) (srv_pm s).

Definition new_node (conf : Configuration) : node :=
  mkNode (mkServer (Config.KeepAlive conf) (Config.ConnectTimeout conf) (Config.AckTimeout conf)
            (Config.TimeoutRetries conf) (Config.MaxBufferSize conf) (Config.SessionsProvider conf)
            None [] ∅ false false (pm_init (mkPMPool [] false)))
         "tcp://:1883" "tcp://:8883" "" "".

Section Init.
Context (ifs : interfaces) (host_addrs : list netaddr + error) (NewTimeWheel : Z -> Z -> option error).

(** the node and the package variable [hostIp]; [inr]: the process exits *)
Definition initNodeId (hostIp : string) (n : node) : (node * string) + error :=
  let set h n := with_svr (setNodeID (str h ++ str ":1884") (svr n)) n in
  if bool_decide (const_NetCard <> "") then
    match GetIPFromNetCard ifs const_NetCard with
    | (_, Some e) => inr e
    | (h, None) => inl (set h n, h)
    end
  else
    let n := mkNode (svr n) (mqttAddr n) (tlsMqttAddr n) (GetHostIP host_addrs) (nd_PublicNetworkIP n) in
    inl (set hostIp n, hostIp).

(** [hostIp] and [nodeID] are the package variables *)
Definition Init (opts : Configuration + error) (hostIp : string) (nodeID : list Z) : (Configuration * node) + error :=
  match opts with
  | inr e => inr e
  | inl conf =>
      let n := new_node conf in
      match NewTimeWheel (Config.Interval conf) (Config.BucketNum conf) with
      | Some e => inr e
      | None =>
          match initNodeId hostIp n with
          | inr e => inr e
          | inl (n, hostIp) =>
              let n := with_svr (setNodeID nodeID (svr n)) n in
              let set ip := mkNode (svr n) (mqttAddr n) (tlsMqttAddr n) (nd_hostIP n) ip in
              if bool_decide (const_PublicNetworkIP <> "") then inl (conf, set const_PublicNetworkIP)
              else if bool_decide (const_PublicNetCard <> "") then
                match GetIPFromNetCard ifs const_PublicNetCard with
                | (_, Some e) => inr e
                | (ip, None) => inl (conf, set ip)
                end
              else inl (conf, n)
          end
      end
  end.

End Init.

(** ** [MqttXSFServer.Run] *)

Inductive task : Type :=
| RunTCP (addr : string)
| RunWebsocket (addr : string)
| RunWebsocketSecure (addr cert key : string)
| RunTLSSecure (addr root cert key : string)
| RunPushMsg
| RunSignals.

Definition nonempty (s : string) : bool := bool_decide (s <> "").

(** the goroutines it starts, in order *)
Definition Run (conf : Configuration) (n : node) : list task :=
  [RunTCP (mqttAddr n)] ++
  (if nonempty (WsAddr conf) || nonempty (WsAddr conf) then
     (if nonempty (WsAddr conf) then [RunWebsocket (WsAddr conf)] else []) ++
     (if nonempty (WsAddr conf) && nonempty (WssPublicCertPath conf) && nonempty (WssPrivateKeyPath conf)
      then [RunWebsocketSecure (WsAddr conf) (WssPublicCertPath conf) (WssPrivateKeyPath conf)] else [])
   else []) ++
  (if nonempty (tlsMqttAddr n) && nonempty (RootCertPath conf) && nonempty (WssPublicCertPath conf) && nonempty (WssPrivateKeyPath conf)
   then [RunTLSSecure (tlsMqttAddr n) (RootCertPath conf) (WssPublicCertPath conf) (WssPrivateKeyPath conf)] else []) ++
  [RunPushMsg; RunSignals].

(** ** The accepting loops *)

(** what [Accept] answers *)
Inductive accepted : Type :=
| AConn (c : Z)
| ATemporary                      (* a net.Error that is Temporary *)
| AFailed (e : error).

Inductive act : Type :=
| Handle (c : Z)                  (* go this.handleConnection(conn) *)
| Sleep (d : Z).                  (* nanoseconds *)

Definition Millisecond : Z := 1000000.
Definition Second : Z := 1000 * Millisecond.

(** the delay before the next attempt *)
Definition next_delay (tempDelay : Z) : Z :=
  let d := if tempDelay =? 0 then 5 * Millisecond else tempDelay * 2 in
  if Second <? d then Second else d.

(** [None]: it waits in [Accept] *)
Fixpoint accept_loop (script : list accepted) (tempDelay : Z) : list act * option error :=
  match script with
  | [] => ([], None)
  | AConn c :: script => let '(acts, e) := accept_loop script tempDelay in (Handle c :: acts, e)
  | ATemporary :: script =>
      let d := next_delay tempDelay in
      let '(acts, e) := accept_loop script d in (Sleep d :: acts, e)
  | AFailed e :: _ => ([], Some e)
  end.

Definition cas (v old new : Z) : Z := if v =? old then new else v.

Definition errRunning : error := Errorf "server.ListenAndServe: Server is already running" [].

(** what it did, what it returns, the flag [running] *)
Definition listenAndServe (parse : string -> (string * string) + error) (Listen : string -> string -> option error)
    (script : list accepted) (uri : string) (running : Z) : list act * option error * Z :=
  let ret acts e running := (acts, Some e, cas running 1 0) in
  if negb (running =? 0) then ret [] errRunning running
  else
    let running := cas running 0 1 in
    match parse uri with
    | inr e => ret [] e running
    | inl (scheme, host) =>
        match Listen scheme host with
        | Some e => ret [] e running
        | None =>
            match accept_loop script 0 with
            | (acts, Some e) => ret acts e running
            | (acts, None) => (acts, None, running)
            end
        end
    end.

(** the loop of both TLS listeners: it never returns, and every error is a round *)
Fixpoint tls_accept_loop (script : list accepted) : list act :=
  match script with
  | [] => []
  | AConn c :: script => Handle c :: tls_accept_loop script
  | _ :: script => tls_accept_loop script
  end.

(** ** The options are complete and the server starts empty *)

(** the server process before its first connection: [MsgChan] is empty, the
    counters are zero, [PushMsg] has been started *)
Definition start_world {TW} (tw : TW) (n : node) (t : Z) : world TW :=
  mkWorld ∅ ∅ (mkHeap ∅ 0) ∅ 0 0 tw (mkPools [] [] []) [] true (svr n) t.

Section Started.
Context (ReadInConfig : option error) (GetInt : string -> Z) (GetString : string -> string) (GetBool : string -> bool)
        (Wrap : error -> string -> error).
Context (ifs : interfaces) (host_addrs : list netaddr + error) (NewTimeWheel : Z -> Z -> option error).
Context {TW : Type} `{TimeWheel TW}.

Lemma nonempty_string_or key d : d <> "" -> nonempty (string_or GetString key d) = true.
Proof. intros Hd. unfold nonempty. apply bool_decide_eq_true_2. by apply string_or_nonempty. Qed.

(** C36: Whatever the configuration file says, a start-up that does not exit leads to
    a server in the initial state of the system of steps: no service, no
    registration, complete options (no zero timeout, a session provider, a limit
    of 262144 bytes for packets).  It starts the plain and the TLS listener,
    [PushMsg] and the signal handler, and never a WebSocket listener, whose
    address no option sets.  The node identifier is the package variable, not the
    one made from the address of the host. *)
Theorem init_starts_server hostIp nodeID conf n (tw : TW) t pick wpick ppick copy reg :
  Init ifs host_addrs NewTimeWheel (NewOptions ReadInConfig GetInt GetString GetBool Wrap) hostIp nodeID = inl (conf, n) ->
  reachable pick wpick ppick copy reg (start_world tw n t) [] /\
  KeepAlive (svr n) <> 0 /\ ConnectTimeout (svr n) <> 0 /\ AckTimeout (svr n) <> 0 /\ TimeoutRetries (svr n) <> 0 /\
  MaxBufferSize (svr n) = 2 ^ 18 /\ SessionsProvider (svr n) <> "" /\
  srv_nodeID (svr n) = nodeID /\ nd_PublicNetworkIP n = "publicNetworkIP" /\
  Run conf n = [RunTCP "tcp://:1883"; RunTLSSecure "tcp://:8883" (RootCertPath conf) (WssPublicCertPath conf) (WssPrivateKeyPath conf);
                RunPushMsg; RunSignals].
Proof.
  unfold Init, NewOptions. destruct ReadInConfig; [done|]. cbv zeta. cbn [Config.Interval Config.BucketNum].
  destruct (NewTimeWheel _ _); [done|]. unfold initNodeId.
  destruct (GetIPFromNetCard _ _) as [ip [e|]]; [done|]. intros [= <- <-]. cbn.
  split_and!; try done; try (by apply int_or_nonzero); try (by apply string_or_nonempty).
  - by apply r_start.
  - unfold Run. cbn. rewrite !nonempty_string_or by done. done.
Qed.

End Started.

Lemma init_starts_server_witness : exists conf n,
  Init (inl [("lo", inl [IPNet (Some "127.0.0.1") true])]) (inl []) (fun _ _ => None)
    (NewOptions None (fun _ => 0) (fun _ => "") (fun _ => false) (fun e _ => e)) "" [] = inl (conf, n) /\
  MaxBufferSize (svr n) = 262144 /\ server_start (start_world (TW:=simple_wheel) (0, ∅) n 0).
Proof.
  destruct (Init (inl [("lo", inl [IPNet (Some "127.0.0.1") true])]) (inl []) (fun _ _ => None)
    (NewOptions None (fun _ => 0) (fun _ => "") (fun _ => false) (fun e _ => e)) "" []) as [[conf n]|e] eqn:E; [|vm_compute in E; discriminate].
  destruct (init_starts_server None (fun _ => 0) (fun _ => "") (fun _ => false) (fun e _ => e)
    (inl [("lo", inl [IPNet (Some "127.0.0.1") true])]) (inl []) (fun _ _ => None) "" [] conf n (TW:=simple_wheel) (0, ∅) 0
    no_pick no_pick no_pick copy_all mem_registry E) as (_ & _ & _ & _ & _ & Hm & _).
  exists conf, n. split; [reflexivity|]. split; [exact Hm|]. vm_compute in E. injection E as <- <-. repeat split.
Defined.

(** ** Accepting connections *)

(** the delay after [k] temporary errors *)
Definition delay (k : nat) : Z :=
  match k with O => 0 | S k => Z.min (5 * Millisecond * 2 ^ Z.of_nat k) Second end.

Lemma next_delay_S k : next_delay (delay k) = delay (S k).
Proof.
  unfold next_delay. destruct k as [|k]; [done|]. cbn [delay].
  assert (Hp : 0 < 2 ^ Z.of_nat k) by (apply Z.pow_pos_nonneg; lia).
  replace (Z.of_nat (S k)) with (Z.succ (Z.of_nat k)) by lia. rewrite Z.pow_succ_r by lia.
  unfold Second, Millisecond in *. set (p := 2 ^ Z.of_nat k) in *. clearbody p. destruct (_ =? 0) eqn:E; [lia|]. destruct (_ <? _) eqn:E1; lia.
Qed.

(** the answers of [Accept] up to the first error that is not temporary *)
Fixpoint served (script : list accepted) : list accepted :=
  match script with
  | [] | AFailed _ :: _ => []
  | a :: script => a :: served script
  end.

Definition handled (l : list act) : list Z := omap (fun a => match a with Handle c => Some c | _ => None end) l.
Definition sleeps (l : list act) : list Z := omap (fun a => match a with Sleep d => Some d | _ => None end) l.
Definition arrivals (l : list accepted) : list Z := omap (fun a => match a with AConn c => Some c | _ => None end) l.
Definition temporaries (l : list accepted) : nat :=
  length (omap (fun a => match a with ATemporary => Some () | _ => None end) l).

(** what the loop returns: the first error that is not temporary *)
Fixpoint fatal (script : list accepted) : option error :=
  match script with
  | [] => None
  | AFailed e :: _ => Some e
  | _ :: script => fatal script
  end.

Lemma accept_loop_from script : forall k acts r, accept_loop script (delay k) = (acts, r) ->
  handled acts = arrivals (served script) /\
  sleeps acts = map delay (seq (S k) (temporaries (served script))) /\ r = fatal script.
Proof.
  induction script as [|[c| |e] script IH]; intros k acts r; cbn [accept_loop served].
  - by intros [= <- <-].
  - destruct (accept_loop script (delay k)) as [acts1 r1] eqn:E. intros [= <- <-].
    destruct (IH k acts1 r1 E) as (H1 & H2 & H3). split; [|by split]. cbn. f_equal. exact H1.
  - rewrite next_delay_S. destruct (accept_loop script (delay (S k))) as [acts1 r1] eqn:E. intros [= <- <-].
    destruct (IH (S k) acts1 r1 E) as (H1 & H2 & H3). split; [exact H1|]. split; [|done]. cbn [served temporaries sleeps omap list_omap length seq map]. f_equal. exact H2.
  - by intros [= <- <-].
Qed.

(** The accepting loop of the plain listener serves every connection it is given,
    in order, until the first error that is not temporary, which it returns.  After
    the k-th temporary error it sleeps min(5 * 2^(k-1), 1000) milliseconds, so never
    less than 5 ms nor more than a second; a connection in between does not reset
    the delay.  When it returns the running flag is free again. *)
Theorem accept_loop_serves parse Listen script uri sh acts r f :
  parse uri = inl sh -> Listen sh.1 sh.2 = None -> listenAndServe parse Listen script uri 0 = (acts, r, f) ->
  handled acts = arrivals (served script) /\
  sleeps acts = map (fun k => Z.min (5 * Millisecond * 2 ^ Z.of_nat k) Second) (seq 0 (temporaries (served script))) /\
  Forall (fun d => 5 * Millisecond <= d <= Second) (sleeps acts) /\
  r = fatal script /\ (f = 0 <-> is_Some r).
Proof.
  destruct sh as [sc h]. cbn [fst snd]. intros Hp Hl. unfold listenAndServe. cbn [Z.eqb negb cas]. rewrite Hp, Hl.
  destruct (accept_loop script 0) as [acts1 r1] eqn:E. destruct (accept_loop_from script 0 acts1 r1 E) as (H1 & H2 & H3).
  assert (Hs : sleeps acts1 = map (fun k => Z.min (5 * Millisecond * 2 ^ Z.of_nat k) Second) (seq 0 (temporaries (served script)))).
  { rewrite H2, <- seq_shift, map_map. done. }
  assert (Hb : Forall (fun d => 5 * Millisecond <= d <= Second) (sleeps acts1)).
  { rewrite Hs. apply Forall_forall. intros d Hd. apply list_elem_of_In, in_map_iff in Hd as (k & <- & _).
    pose proof (Z.pow_pos_nonneg 2 (Z.of_nat k)). unfold Second, Millisecond. lia. }
  destruct r1 as [e|]; intros [= <- <- <-]; (split; [exact H1|]; split; [exact Hs|]; split; [exact Hb|]; split; [exact H3|]).
  - split; [by eexists|done].
  - split; [done|by intros [? ?]].
Qed.

Lemma accept_loop_serves_witness : exists acts r f,
  listenAndServe (fun _ => inl ("tcp", ":1883")) (fun _ _ => None) [ATemporary; AConn 7; ATemporary; AFailed errClosed] "tcp://:1883" 0 = (acts, r, f) /\
  handled acts = [7] /\ sleeps acts = [5000000; 10000000] /\ r = Some errClosed.
Proof.
  destruct (listenAndServe (fun _ => inl ("tcp", ":1883")) (fun _ _ => None) [ATemporary; AConn 7; ATemporary; AFailed errClosed] "tcp://:1883" 0)
    as [[acts r] f] eqn:E.
  destruct (accept_loop_serves (fun _ => inl ("tcp", ":1883")) (fun _ _ => None) [ATemporary; AConn 7; ATemporary; AFailed errClosed] "tcp://:1883"
    ("tcp", ":1883") acts r f eq_refl eq_refl E) as (H1 & H2 & _ & H4 & _).
  exists acts, r, f. split; [reflexivity|]. split; [exact H1|]. split; [exact H2|exact H4].
Defined.

(** A second [listenAndServe] while the first is running is refused, but its
    deferred function clears the flag of the first, so a third is let in. *)
Lemma refused_listen_clears_running parse Listen script uri :
  listenAndServe parse Listen script uri 1 = ([], Some errRunning, 0).
Proof. done. Qed.

(** The TLS listeners have no way out: every error, that of a closed listener
    included, is one more round. *)
Lemma tls_serves_all script : handled (tls_accept_loop script) = arrivals script.
Proof. induction script as [|[c| |e] script IH]; [done| |exact IH|exact IH]. cbn. f_equal. exact IH. Qed.
