(* ===== verification/WebSocket.v ===== *)
(** * WebSocket: the proxy in front of the plain listener ([service/websocket.go])

    Two goroutines copy between a WebSocket and a TCP connection to the broker.
    [golang.org/x/net/websocket] is the script of an end of a WebSocket: the
    messages [Receive] gives and the error after the last one; the messages [Send]
    has taken, and after how many more it fails. *)
From stdpp Require Import base list strings.
From Stdlib Require Import ZArith Lia.
From S2P Require Import Prelude GoLang NetConn.

Record WS : Type := mkWS {
  ws_in : list (list Z);
  ws_err : error;
  ws_out : list (list Z);
  ws_fault : option (nat * error)
}.

Definition ws_Receive (ws : WS) : (list Z + error) * WS :=
  match ws_in ws with
  | [] => (inr (ws_err ws), ws)
  | b :: l => (inl b, mkWS l (ws_err ws) (ws_out ws) (ws_fault ws))
  end.

Definition ws_Send (ws : WS) (b : list Z) : option error * WS :=
  match ws_fault ws with
  | Some (O, e) => (Some e, ws)
  | Some (S n, e) => (None, mkWS (ws_in ws) (ws_err ws) (ws_out ws ++ [b]) (Some (n, e)))
  | None => (None, mkWS (ws_in ws) (ws_err ws) (ws_out ws ++ [b]) None)
  end.

(** [ws.Close]: the script ends here, in both directions *)
Definition errWsClosed : error := ErrorsNew "use of closed network connection".
Definition ws_Close (ws : WS) : WS := mkWS [] errWsClosed (ws_out ws) (Some (O, errWsClosed)).

(** a round of a copying loop: the bytes so far, or what it returns *)
Abbreviation copied := (Z + Z * option error)%type.

(** from the WebSocket to the connection *)
Definition ioCopyWS_round (src : WS) (dst : Conn) (count : Z) : copied * WS * Conn :=
  match ws_Receive src with
  | (inr e, src) => (inr (count, Some e), src, dst)
  | (inl buffer, src) =>
      let n := zlen buffer in
      let count := count + n in
      let '(i, err, dst) := conn_Write dst buffer in
      (if bool_decide (err <> None) || (i <? 1) then inr (count, err) else inl count, src, dst)
  end.

(** [fuel]: the messages to come and one more *)
Fixpoint ioCopyWS (fuel : nat) (src : WS) (dst : Conn) (count : Z) : option (Z * option error * WS * Conn) :=
  match fuel with
  | O => None
  | S fuel =>
      match ioCopyWS_round src dst count with
      | (inr (count, err), src, dst) => Some (count, err, src, dst)
      | (inl count, src, dst) => ioCopyWS fuel src dst count
      end
  end.

Definition wsBufferSize : Z := 2048.

(** from the connection to the WebSocket *)
Definition ioWSCopy_round (src : Conn) (dst : WS) (count : Z) : copied * Conn * WS :=
  let '(b, err, src) := conn_Read src wsBufferSize in
  let n := zlen b in
  if bool_decide (err <> None) || (n <? 1) then (inr (count, err), src, dst)
  else
    let count := count + n in
    let '(err, dst) := ws_Send dst b in
    (if bool_decide (err <> None) then inr (count, err) else inl count, src, dst).

Fixpoint ioWSCopy (fuel : nat) (src : Conn) (dst : WS) (count : Z) : option (Z * option error * Conn * WS) :=
  match fuel with
  | O => None
  | S fuel =>
      match ioWSCopy_round src dst count with
      | (inr (count, err), src, dst) => Some (count, err, src, dst)
      | (inl count, src, dst) => ioWSCopy fuel src dst count
      end
  end.

(** ** To the broker: every message up to the first empty one *)

Fixpoint upto_empty (l : list (list Z)) : list (list Z) :=
  match l with
  | [] | [] :: _ => []
  | b :: l => b :: upto_empty l
  end.

Definition has_empty (l : list (list Z)) : bool := existsb (fun b => zlen b =? 0) l.

Lemma conn_Write_open x b : closed x = false -> wr_fault x = None -> exists x',
  conn_Write x b = (zlen b, None, x') /\ written x' = written x ++ b /\ closed x' = false /\ wr_fault x' = None.
Proof. intros Hc Hf. unfold conn_Write. rewrite Hc, Hf. by eexists. Qed.

(** The proxy hands the messages of the WebSocket to the broker byte for byte and
    in order, and it returns: with the error of [Receive] after the last message,
    or, without an error, at the first empty message, which ends the connection
    although the client may have sent more. *)
Theorem to_broker_exact src dst count :
  closed dst = false -> wr_fault dst = None -> exists count' src' dst',
  ioCopyWS (S (length (ws_in src))) src dst count =
    Some (count', if has_empty (ws_in src) then None else Some (ws_err src), src', dst') /\
  written dst' = written dst ++ concat (upto_empty (ws_in src)) /\
  count' = count + zlen (concat (upto_empty (ws_in src))).
Proof.
  destruct src as [l e out f]. cbn [ws_in ws_err]. revert dst count.
  induction l as [|b l IH]; intros dst count Hc Hf.
  - do 3 eexists. cbn. rewrite app_nil_r. split; [done|]. split; [done|]. change (zlen (@nil Z)) with 0. lia.
  - cbn [length]. change (ioCopyWS (S (S (length l))) (mkWS (b :: l) e out f) dst count) with
      (match ioCopyWS_round (mkWS (b :: l) e out f) dst count with
       | (inr (count, err), src, dst) => Some (count, err, src, dst)
       | (inl count, src, dst) => ioCopyWS (S (length l)) src dst count
       end).
    unfold ioCopyWS_round. cbn [ws_Receive ws_in ws_err ws_out ws_fault].
    destruct (conn_Write_open dst b Hc Hf) as (x & -> & Hw & Hc' & Hf'). rewrite bool_decide_eq_false_2 by congruence. cbn [orb].
    destruct b as [|z b].
    + do 3 eexists. cbn. split; [done|]. split; [done|]. change (zlen (@nil Z)) with 0. lia.
    + assert (Hz : 1 <= zlen (z :: b)) by (rewrite zlen_cons; pose proof (zlen_nonneg b); lia).
      rewrite (proj2 (Z.ltb_ge _ _)) by lia.
      destruct (IH x (count + zlen (z :: b)) Hc' Hf') as (c' & s' & d' & E & H1 & H2). exists c', s', d'. rewrite E.
      split; [unfold has_empty; cbn [existsb]; by rewrite (proj2 (Z.eqb_neq (zlen (z :: b)) 0)) by lia|]. cbn [upto_empty concat].
      rewrite H1, Hw, <- app_assoc, H2, zlen_app. split; [done|lia].
Qed.

Lemma to_broker_exact_witness : exists count' src' dst',
  ioCopyWS 4 (mkWS [[1; 2]; []; [3]] EOF [] None) (dial [] EOF) 0 = Some (count', None, src', dst') /\ written dst' = [1; 2].
Proof.
  destruct (to_broker_exact (mkWS [[1; 2]; []; [3]] EOF [] None) (dial [] EOF) 0 eq_refl eq_refl) as (c & s & d & E & H & _).
  exists c, s, d. split; [exact E|exact H].
Defined.

(** ** From the broker *)

(** What the broker writes reaches the WebSocket byte for byte and in order, in
    messages of 1 to 2048 bytes, until the stream ends; the copying returns with
    the error of the stream and the number of bytes. *)
Theorem from_broker_exact fuel : forall src dst count, conn_ok src -> ws_fault dst = None ->
  (length (concat (segs src)) < fuel)%nat -> exists src' dst' sent,
  ioWSCopy fuel src dst count = Some (count + zlen (concat (segs src)), Some (rd_err src), src', dst') /\
  ws_out dst' = ws_out dst ++ sent /\ concat sent = concat (segs src) /\
  Forall (fun b => 1 <= zlen b <= 2048) sent.
Proof.
  induction fuel as [|fuel IH]; intros src dst count Hok Hf Hl; [lia|]. cbn [ioWSCopy]. unfold ioWSCopy_round.
  pose proof (conn_Read_spec src wsBufferSize Hok ltac:(unfold wsBufferSize; lia)) as H.
  destruct (conn_Read src wsBufferSize) as [[b err] src1]. destruct err as [e|].
  - destruct H as (-> & -> & Hs & ->). rewrite bool_decide_eq_true_2 by congruence. cbn [orb].
    exists src, dst, []. rewrite Hs, app_nil_r. change (zlen (concat [])) with 0. rewrite Z.add_0_r. split_and!; done || apply Forall_nil_2.
  - destruct H as (Hb & Hk & Hcat & Hok1 & Hso). rewrite bool_decide_eq_false_2 by congruence. cbn [orb].
    assert (Hz : 1 <= zlen b) by (destruct b; [done|rewrite zlen_cons; pose proof (zlen_nonneg b); lia]).
    rewrite (proj2 (Z.ltb_ge _ _)) by lia. unfold ws_Send. rewrite Hf. rewrite bool_decide_eq_false_2 by congruence.
    assert (Hlen : (length (concat (segs src1)) < fuel)%nat).
    { rewrite Hcat, length_app in Hl. unfold zlen in Hz. lia. }
    destruct (IH src1 (mkWS (ws_in dst) (ws_err dst) (ws_out dst ++ [b]) None) (count + zlen b) Hok1 eq_refl Hlen)
      as (src' & dst' & sent & E & H1 & H2 & H3).
    exists src', dst', (b :: sent). rewrite E. destruct Hso as (He & _). rewrite He. split.
    { rewrite Hcat, zlen_app. do 4 f_equal. lia. }
    rewrite H1. cbn [ws_out]. rewrite <- app_assoc. split; [done|]. cbn [concat]. rewrite H2, Hcat. split; [done|].
    apply Forall_cons. split; [unfold wsBufferSize in Hk; lia|done].
Qed.

Lemma from_broker_exact_witness : exists src' dst' sent,
  ioWSCopy 10 (dial [[32; 2; 0; 0]; [208; 0]] EOF) (mkWS [] EOF [] None) 0 = Some (6, Some EOF, src', dst') /\
  ws_out dst' = sent /\ concat sent = [32; 2; 0; 0; 208; 0].
Proof.
  destruct (from_broker_exact 10 (dial [[32; 2; 0; 0]; [208; 0]] EOF) (mkWS [] EOF [] None) 0) as (s & d & l & E & H1 & H2 & _).
  - split; [repeat (constructor; [discriminate|]); constructor|reflexivity].
  - reflexivity.
  - cbn. lia.
  - exists s, d, l. split; [exact E|]. split; [exact H1|exact H2].
Defined.
