(* ===== verification/Proxy.v ===== *)
(** * Proxy: the three goroutines of a WebSocket connection

    [websocketTcpProxy] of [service/websocket.go] starts two goroutines that copy,
    one in each direction, waits for one of them on an unbuffered channel, and
    closes both ends.  A step is a round of a copying loop, the rendezvous on
    [chDone], or one of the deferred closes; the peers are the scripts of the two
    ends, which a round may find at any time. *)
From stdpp Require Import base list strings relations.
From Stdlib Require Import ZArith Lia.
From S2P Require Import Prelude GoLang NetConn WebSocket.

(** a copying goroutine: in its loop, at [chDone <- true], or gone *)
Inductive copier : Type :=
| CpLoop (count : Z)
| CpSend
| CpDone.

(** the handler: at [<-chDone], at its deferred calls, or returned *)
Inductive handler : Type := PxWait | PxCloseWs | PxCloseClient | PxReturned.

Record proxy : Type := mkProxy {
  px_ws : WS;
  px_client : Conn;
  px_up : copier;      (* ioCopyWS(ws, client) *)
  px_down : copier;    (* ioWSCopy(client, ws) *)
  px_main : handler
}.

(** [dialed]: what [net.Dial] answers *)
Definition websocketTcpProxy (ws : WS) (dialed : Conn + error) : proxy + error :=
  match dialed with
  | inr err => inr err
  | inl client => inl (mkProxy ws client (CpLoop 0) (CpLoop 0) PxWait)
  end.

Definition after_round (r : copied) : copier := match r with inl count => CpLoop count | inr _ => CpSend end.

Inductive proxy_step : proxy -> proxy -> Prop :=
| px_up_round ws c count down m r ws' c' :
    ioCopyWS_round ws c count = (r, ws', c') ->
    proxy_step (mkProxy ws c (CpLoop count) down m) (mkProxy ws' c' (after_round r) down m)
| px_down_round ws c up count m r c' ws' :
    ioWSCopy_round c ws count = (r, c', ws') ->
    proxy_step (mkProxy ws c up (CpLoop count) m) (mkProxy ws' c' up (after_round r) m)
| px_up_done ws c down : proxy_step (mkProxy ws c CpSend down PxWait) (mkProxy ws c CpDone down PxCloseWs)
| px_down_done ws c up : proxy_step (mkProxy ws c up CpSend PxWait) (mkProxy ws c up CpDone PxCloseWs)
| px_close_ws ws c up down : proxy_step (mkProxy ws c up down PxCloseWs) (mkProxy (ws_Close ws) c up down PxCloseClient)
| px_close_client ws c up down :
    proxy_step (mkProxy ws c up down PxCloseClient) (mkProxy ws (conn_Close c) up down PxReturned).

(** ** What is relayed *)

Definition looping (c : copier) : Prop := exists n, c = CpLoop n.

(** [ups]: the bytes of the messages of the WebSocket; [downs]: those of the broker *)
Record relays (ups downs : list Z) (s : proxy) : Prop := {
  rl_up : written (px_client s) `prefix_of` ups;
  rl_up_loop : looping (px_up s) ->
    ws_in (px_ws s) = [] \/ written (px_client s) ++ concat (ws_in (px_ws s)) = ups;
  rl_down : concat (ws_out (px_ws s)) `prefix_of` downs;
  rl_down_loop : looping (px_down s) ->
    closed (px_client s) = true \/ concat (ws_out (px_ws s)) ++ concat (segs (px_client s)) = downs
}.

Lemma conn_Write_written c b n err c' : conn_Write c b = (n, err, c') ->
  segs c' = segs c /\ closed c' = closed c /\ exists d, written c' = written c ++ d /\ d `prefix_of` b /\ (err = None -> d = b).
Proof.
  unfold conn_Write. destruct (closed c) eqn:Ec.
  { intros [= <- <- <-]. split; [done|]. split; [done|]. exists []. rewrite app_nil_r. split; [done|]. split; [apply prefix_nil|done]. }
  destruct (wr_fault c) as [[room e]|]; [destruct (_ <=? _)|]; intros [= <- <- <-]; (split; [done|]); (split; [done|]); cbn.
  - by exists b.
  - exists (take (Z.to_nat room) b). split; [done|]. split; [apply prefix_take|done].
  - by exists b.
Qed.

Lemma conn_Read_segs c k b err c' : conn_Read c k = (b, err, c') ->
  written c' = written c /\ closed c' = closed c /\ (closed c = true -> b = [] /\ err <> None) /\
  (closed c = false -> concat (segs c) = b ++ concat (segs c')).
Proof.
  unfold conn_Read. destruct (closed c) eqn:Ec; [by intros [= <- <- <-]|].
  destruct (segs c) as [|s ss] eqn:Es; [intros [= <- <- <-]; by rewrite Es|].
  destruct (zlen s <=? k); intros [= <- <- <-]; cbn; split_and!; try done. intros _. by rewrite app_assoc, take_drop.
Qed.

Lemma up_round_relays ups downs ws c count down m r ws' c' :
  relays ups downs (mkProxy ws c (CpLoop count) down m) -> ioCopyWS_round ws c count = (r, ws', c') ->
  relays ups downs (mkProxy ws' c' (after_round r) down m).
Proof.
  intros [R1 R2 R3 R4] E. cbn in *. unfold ioCopyWS_round, ws_Receive in E.
  destruct (ws_in ws) as [|buf l] eqn:El; 
    [injection E as <- <- <-; split; cbn; try done; by intros [? [=]]|].
  destruct (conn_Write c buf) as [[i err] c1] eqn:Ew. injection E as <- <- <-.
  destruct (conn_Write_written _ _ _ _ _ Ew) as (Hs & Hc & d & Hw & Hp & Hd).
  destruct (R2 (ex_intro _ _ eq_refl)) as [|R]; [done|]. cbn [concat] in R. split; cbn; rewrite ?Hs, ?Hc; try done.
  - rewrite Hw, <- R. apply prefix_app. etrans; [exact Hp|]. by apply prefix_app_r.
  - intros Hl. right. destruct err as [e|]; [rewrite bool_decide_eq_true_2 in Hl by congruence; by destruct Hl|].
    by rewrite Hw, Hd, <- app_assoc.
Qed.

Lemma down_round_relays ups downs ws c count up m r c' ws' :
  relays ups downs (mkProxy ws c up (CpLoop count) m) -> ioWSCopy_round c ws count = (r, c', ws') ->
  relays ups downs (mkProxy ws' c' up (after_round r) m).
Proof.
  intros [R1 R2 R3 R4] E. cbn in *. unfold ioWSCopy_round in E.
  destruct (conn_Read c wsBufferSize) as [[b err] c1] eqn:Er. apply conn_Read_segs in Er as (Hw & Hc & Hcl & Hop).
  destruct (bool_decide (err <> None) || (zlen b <? 1)) eqn:Eb.
  { injection E as <- <- <-. split; cbn; rewrite ?Hw; try done. by intros [? [=]]. }
  destruct (R4 (ex_intro _ _ eq_refl)) as [Ec|R].
  { destruct (Hcl Ec) as [-> He]. by rewrite (bool_decide_eq_true_2 _ He) in Eb. }
  destruct (closed c) eqn:Ec; [destruct (Hcl eq_refl) as [-> He]; by rewrite (bool_decide_eq_true_2 _ He) in Eb|].
  specialize (Hop eq_refl). rewrite Hop in R. unfold ws_Send in E.
  assert (Hp : concat (ws_out ws ++ [b]) `prefix_of` downs).
  { rewrite concat_app. cbn. rewrite app_nil_r, <- R, app_assoc. by apply prefix_app_r. }
  destruct (ws_fault ws) as [[[|k] e]|]; injection E as <- <- <-; split; cbn; rewrite ?Hw; try done.
  - by intros [? [=]].
  - intros _. right. by rewrite concat_app, <- R; cbn; rewrite app_nil_r, <- app_assoc.
  - intros _. right. by rewrite concat_app, <- R; cbn; rewrite app_nil_r, <- app_assoc.
Qed.

Lemma proxy_step_relays ups downs s s' : relays ups downs s -> proxy_step s s' -> relays ups downs s'.
Proof.
  intros R Hs. destruct Hs as [ws c count down m r ws' c' E|ws c up count m r c' ws' E|ws c down|ws c up|ws c up down|ws c up down].
  - by eapply up_round_relays.
  - by eapply down_round_relays.
  - destruct R as [R1 R2 R3 R4]. split; cbn in *; try done. by intros [? [=]].
  - destruct R as [R1 R2 R3 R4]. split; cbn in *; try done. by intros [? [=]].
  - destruct R as [R1 R2 R3 R4]. split; cbn in *; try done. by left.
  - destruct R as [R1 R2 R3 R4]. split; cbn in *; try done. by left.
Qed.

(** ** Who has finished *)

Definition finished (s : proxy) : nat :=
  (if px_up s is CpDone then 1 else 0) + (if px_down s is CpDone then 1 else 0).

(** one copier when the handler has been released, none before *)
Definition released (s : proxy) : Prop := finished s = (if px_main s is PxWait then 0 else 1)%nat.

Lemma proxy_step_released s s' : released s -> proxy_step s s' -> released s'.
Proof.
  unfold released, finished. intros R Hs. destruct Hs; cbn in *; try destruct r; cbn; lia.
Qed.

(** no goroutine can take a step *)
Definition final (s : proxy) : Prop := forall s', ~ proxy_step s s'.

(** the handler has returned; one copier is gone, the other waits on [chDone] *)
Definition leaked (s : proxy) : Prop :=
  px_main s = PxReturned /\ ((px_up s = CpDone /\ px_down s = CpSend) \/ (px_up s = CpSend /\ px_down s = CpDone)).

Lemma final_leaked s : released s -> final s -> leaked s.
Proof.
  unfold released, finished, leaked. intros R F. destruct s as [ws c up down m]. cbn in *.
  destruct up as [n| |].
  { destruct (ioCopyWS_round ws c n) as [[r ws'] c'] eqn:E. exfalso. eapply F. by apply px_up_round. }
  - destruct down as [n| |].
    { destruct (ioWSCopy_round c ws n) as [[r c'] ws'] eqn:E. exfalso. eapply F. by apply px_down_round. }
    + destruct m; cbn in R; try done. exfalso. eapply F. apply px_up_done.
    + destruct m; cbn in R; try done; [exfalso; eapply F; apply px_close_ws|exfalso; eapply F; apply px_close_client|].
      split; [done|by right].
  - destruct down as [n| |]; cbn in R; [|destruct m; cbn in R; try done|by destruct m].
    { destruct (ioWSCopy_round c ws n) as [[r c'] ws'] eqn:E. exfalso. eapply F. by apply px_down_round. }
    all: try (exfalso; eapply F; first [apply px_close_ws|apply px_close_client]).
    split; [done|by left].
Qed.

(** ** Every run ends *)

Definition copier_work (c : copier) : nat := match c with CpLoop _ => 2 | CpSend => 1 | CpDone => 0 end.
Definition handler_work (m : handler) : nat :=
  match m with PxWait => 3 | PxCloseWs => 2 | PxCloseClient => 1 | PxReturned => 0 end.
Definition work (s : proxy) : nat :=
  length (ws_in (px_ws s)) + length (concat (segs (px_client s))) + length (segs (px_client s)) +
  copier_work (px_up s) + copier_work (px_down s) + handler_work (px_main s).

Lemma proxy_step_work s s' : proxy_step s s' -> (work s' < work s)%nat.
Proof.
  intros Hs. destruct Hs as [ws c count down m r ws' c' E|ws c up count m r c' ws' E|ws c down|ws c up|ws c up down|ws c up down];
    unfold work; cbn; try lia.
  - unfold ioCopyWS_round, ws_Receive in E. destruct (ws_in ws) as [|buf l] eqn:El.
    + injection E as <- <- <-. rewrite El. cbn. lia.
    + destruct (conn_Write c buf) as [[i err] c1] eqn:Ew. injection E as <- <- <-.
      destruct (conn_Write_written _ _ _ _ _ Ew) as (-> & _). cbn. destruct (_ || _); cbn; lia.
  - unfold ioWSCopy_round in E. destruct (conn_Read c wsBufferSize) as [[b err] c1] eqn:Er.
    assert (Hr : (err <> None /\ c1 = c) \/
      (length (concat (segs c1)) + length (segs c1) < length (concat (segs c)) + length (segs c))%nat).
    { unfold conn_Read in Er. destruct (closed c); [injection Er as <- <- <-; by left|].
      destruct (segs c) as [|s ss]; [injection Er as <- <- <-; by left|]. right.
      destruct (zlen s <=? wsBufferSize) eqn:Ez; injection Er as <- <- <-; cbn; rewrite ?length_app, ?length_drop; [lia|].
      unfold wsBufferSize, zlen in *. lia. }
    destruct (bool_decide (err <> None) || (zlen b <? 1)) eqn:Eb.
    + injection E as <- <- <-. cbn. destruct Hr as [[_ ->]|Hr]; lia.
    + destruct Hr as [[He _]|Hr]; [by rewrite (bool_decide_eq_true_2 _ He) in Eb|]. unfold ws_Send in E.
      destruct (ws_fault ws) as [[[|k] e]|]; injection E as <- <- <-; cbn; lia.
Qed.

Lemma proxy_run_work n : forall s s', nsteps proxy_step n s s' -> (n + work s' <= work s)%nat.
Proof.
  induction n as [|n IH]; intros s s' Hr; inversion Hr; subst; [lia|].
  match goal with Hs : proxy_step _ _ |- _ => apply proxy_step_work in Hs end.
  match goal with Hn : nsteps _ _ _ _ |- _ => apply IH in Hn end. lia.
Qed.

(** C40: Every WebSocket connection leaves a goroutine behind.  In every interleaving of
    the handler and its two copying goroutines over the streams of two peers that
    end, what reaches the broker is a prefix of the client's messages and what
    reaches the client a prefix of the broker's bytes, and every run comes to an
    end; at that end the handler has returned, one
    copying goroutine is gone, and the other waits for ever to send on [chDone],
    which nobody receives from any more. *)
Theorem proxy_leaks_goroutine ws client s0 :
  websocketTcpProxy ws (inl client) = inl s0 -> written client = [] -> ws_out ws = [] ->
  (forall n s, nsteps proxy_step n s0 s -> (n <= length (ws_in ws) + length (concat (segs client)) + length (segs client) + 7)%nat) /\
  (forall s, rtc proxy_step s0 s ->
     written (px_client s) `prefix_of` concat (ws_in ws) /\
     concat (ws_out (px_ws s)) `prefix_of` concat (segs client) /\
     (final s -> leaked s)).
Proof.
  intros [= <-] Hw Ho. split.
  - intros n s Hr. apply proxy_run_work in Hr. unfold work in Hr. cbn in Hr. lia.
  - intros s Hr. set (s0 := mkProxy _ _ _ _ _) in Hr.
    assert (H0 : relays (concat (ws_in ws)) (concat (segs client)) s0 /\ released s0).
    { split; [|done]. split; cbn; rewrite ?Hw, ?Ho; try apply prefix_nil; by right. }
    assert (Hs : relays (concat (ws_in ws)) (concat (segs client)) s /\ released s).
    { clearbody s0. induction Hr as [|s0 s1 s Hst Hr IH]; [done|]. destruct H0 as [A B]. apply IH.
      split; [by eapply proxy_step_relays|by eapply proxy_step_released]. }
    destruct Hs as [[R1 _ R3 _] Hrel]. split; [done|]. split; [done|]. by apply final_leaked.
Qed.

(** the client hangs up at once *)
Definition hung_up : proxy := mkProxy (mkWS [] EOF [] None) (dial [[1]] EOF) (CpLoop 0) (CpLoop 0) PxWait.
Definition left_behind : proxy :=
  mkProxy (ws_Close (mkWS [] EOF [] None)) (conn_Close (dial [[1]] EOF)) CpDone CpSend PxReturned.

Lemma hung_up_ends : rtc proxy_step hung_up left_behind.
Proof.
  eapply rtc_l; [by apply px_up_round|]. eapply rtc_l; [apply px_up_done|]. eapply rtc_l; [apply px_close_ws|].
  eapply rtc_l; [apply px_close_client|]. eapply rtc_l; [by apply px_down_round|]. apply rtc_refl.
Qed.

Lemma proxy_leaks_goroutine_witness : leaked left_behind /\ final left_behind.
Proof.
  assert (F : final left_behind) by (intros s' Hs; inversion Hs).
  destruct (proxy_leaks_goroutine (mkWS [] EOF [] None) (dial [[1]] EOF) hung_up eq_refl eq_refl eq_refl) as [_ H].
  destruct (H left_behind hung_up_ends) as (_ & _ & L). split; [exact (L F)|exact F].
Defined.
