(* ===== verification/Tls.v ===== *)
(** * Tls: the TLS listeners of [service/tls.go]

    [crypto/tls], [ioutil] and [url] are parameters that answer each call: loading
    the certificate, reading the root certificate, parsing the address, listening.
    The configuration they exchange has no effect on the server's state and is left
    out. *)
From stdpp Require Import base list strings.
From Stdlib Require Import ZArith Lia.
From S2P Require Import Prelude GoLang NetConn Startup.

Definition errTlsRunning : error := Errorf "tls.ListenAndServeTLS: TLS Server is already running" [].
Definition errTlsSecureRunning : error := Errorf "tls.ListenAndServeTLSSecure: Secure TLS Server is already running" [].

Section Tls.
Context (LoadX509KeyPair : string -> string -> option error) (ReadFile : string -> option error)
        (parse : string -> (string * string) + error) (Listen : string -> string -> option error).

(** what it did, what it returns ([None]: it is still in its loop), the flag [tlsrunning] *)
Definition listenAndServeTLS (script : list accepted) (addr cert key : string) (tlsrunning : Z)
  : list act * option error * Z :=
  let ret e flag := ([], Some e, cas flag 1 0) in
  if negb (tlsrunning =? 0) then ret errTlsRunning tlsrunning
  else
    let tlsrunning := cas tlsrunning 0 1 in
    match LoadX509KeyPair cert key with
    | Some e => ret e tlsrunning
    | None =>
        match parse addr with
        | inr e => ret e tlsrunning
        | inl (scheme, host) =>
            match Listen scheme host with
            | Some e => ret e tlsrunning
            | None => (tls_accept_loop script, None, tlsrunning)
            end
        end
    end.

(** the same with the flag [tlssrunning] *)
Definition listenAndServeTLSSecure (script : list accepted) (addr rootCrt cert key : string) (tlssrunning : Z)
  : list act * option error * Z :=
  let ret e flag := ([], Some e, cas flag 1 0) in
  if negb (tlssrunning =? 0) then ret errTlsSecureRunning tlssrunning
  else
    let tlssrunning := cas tlssrunning 0 1 in
    match ReadFile rootCrt with
    | Some e => ret e tlssrunning
    | None =>
        match LoadX509KeyPair cert key with
        | Some e => ret e tlssrunning
        | None =>
            match parse addr with
            | inr e => ret e tlssrunning
            | inl (scheme, host) =>
                match Listen scheme host with
                | Some e => ret e tlssrunning
                | None => (tls_accept_loop script, None, tlssrunning)
                end
            end
        end
    end.

(** A listener that starts at all serves every connection and keeps its flag; one
    that does not has served none and gives its flag back. *)
Lemma listenAndServeTLSSecure_ends script addr rootCrt cert key acts r f :
  listenAndServeTLSSecure script addr rootCrt cert key 0 = (acts, r, f) ->
  match r with
  | None => handled acts = arrivals script /\ sleeps acts = [] /\ f = 1
  | Some _ => acts = [] /\ f = 0
  end.
Proof.
  assert (Hs : sleeps (tls_accept_loop script) = []) by (induction script as [|[c| |e] script IH]; done).
  unfold listenAndServeTLSSecure. cbn [Z.eqb negb cas].
  destruct (ReadFile rootCrt); [by intros [= <- <- <-]|]. destruct (LoadX509KeyPair cert key); [by intros [= <- <- <-]|].
  destruct (parse addr) as [[sc h]|e]; [|by intros [= <- <- <-]].
  destruct (Listen sc h); intros [= <- <- <-]; [done|]. split; [apply tls_serves_all|done].
Qed.

(** a second listener that is refused clears the flag of the first *)
Lemma refused_tls_clears_running script addr rootCrt cert key :
  listenAndServeTLS script addr cert key 1 = ([], Some errTlsRunning, 0) /\
  listenAndServeTLSSecure script addr rootCrt cert key 1 = ([], Some errTlsSecureRunning, 0).
Proof. done. Qed.
End Tls.

(** ** [handleClienttlsConnect] sends back what it reads

    [fuel]: a round for every byte to come and one more. *)
Fixpoint echo_loop (fuel : nat) (conn : Conn) : option Conn :=
  match fuel with
  | O => None
  | S fuel =>
      let '(b, err, conn) := conn_Read conn 2048 in
      match err with
      | Some _ => Some conn
      | None =>
          let '(_, err, conn) := conn_Write conn b in
          match err with Some _ => Some conn | None => echo_loop fuel conn end
      end
  end.

Definition handleClienttlsConnect (fuel : nat) (conn : Conn) : option Conn := conn_Close <$> echo_loop fuel conn.

Lemma echo_exact fuel : forall c, conn_ok c -> wr_fault c = None -> (length (concat (segs c)) < fuel)%nat ->
  exists c', handleClienttlsConnect fuel c = Some c' /\ written c' = written c ++ concat (segs c) /\ closed c' = true.
Proof.
  unfold handleClienttlsConnect. induction fuel as [|fuel IH]; intros c Hok Hf Hl; [lia|]. cbn [echo_loop].
  pose proof (conn_Read_spec c 2048 Hok ltac:(lia)) as H. destruct (conn_Read c 2048) as [[b err] c1].
  destruct err as [e|].
  - destruct H as (-> & -> & Hs & ->). rewrite Hs, app_nil_r. by eexists.
  - destruct H as (Hb & Hk & Hcat & [Hok1 Hcl] & (He & Hw & Hf1 & _ & Hc1)). unfold conn_Write. rewrite Hcl, Hf1, Hf.
    destruct (IH (mkConn (segs c1) (rd_err c1) (written c1 ++ b) None (deadline c1) false)) as (c' & E & Hw' & Hc');
      [by split|done| |].
    { cbn. rewrite Hcat, length_app in Hl. destruct b; cbn in *; [done|lia]. }
    exists c'. rewrite E. split; [done|]. split; [|done]. by rewrite Hw', Hcat; cbn; rewrite Hw, <- app_assoc.
Qed.
