(* ===== verification/Topics.v ===== *)
(** * Topics: the subscription tree and the retained messages
      ([topics/memtopics.go], [topics/topics.go])

    Both trees branch on topic levels.  The Go maps of children are association
    lists with distinct keys; Go iterates maps in an unspecified order, of which
    one is chosen here.  [rand.Intn] is the parameter [intn]: the index it picks
    in a group's list of subscribers. *)
From stdpp Require Import base list strings gmap.
From Stdlib Require Import ZArith Lia.
From S2P Require Import Prelude GoLang MsgTypes Header Publish.

(** ** Topic levels *)

Definition MWC : list Z := [chHash].
Definition SWC : list Z := [chPlus].

Definition MaxQosAllowed : Z := QosExactlyOnce.

Definition stateCHR : Z := 0.
Definition stateMWC : Z := 1.
Definition stateSWC : Z := 2.
Definition stateSYS : Z := 4.

(** the loop over the bytes of [topic]; [rest] is what is left from index [i] *)
Fixpoint ntl_loop (topic : list Z) (s : Z) (i : nat) (rest : list Z) : (list Z * list Z) + error :=
  match rest with
  | [] => inl (topic, [])
  | c :: rest =>
      if c =? chSlash then
        if s =? stateMWC then
          inr (Errorf "memtopics/nextTopicLevel: Multi-level wildcard found in topic and it's not at the last level" [])
        else if (i =? 0)%nat then inl (SWC, drop 1 topic)
        else inl (take i topic, drop (S i) topic)
      else if c =? chHash then
        if negb (i =? 0)%nat then
          inr (Errorf "memtopics/nextTopicLevel: Wildcard character '#' must occupy entire topic level" [])
        else ntl_loop topic stateMWC (S i) rest
      else if c =? chPlus then
        if negb (i =? 0)%nat then
          inr (Errorf "memtopics/nextTopicLevel: Wildcard character '+' must occupy entire topic level" [])
        else ntl_loop topic stateSWC (S i) rest
      else if c =? chDollar then
        if (i =? 0)%nat then
          inr (Errorf "memtopics/nextTopicLevel: Cannot publish to $ topics" [])
        else ntl_loop topic stateSYS (S i) rest
      else if (s =? stateMWC) || (s =? stateSWC) then
        inr (Errorf "memtopics/nextTopicLevel: Wildcard characters '#' and '+' must occupy entire topic level" [])
      else ntl_loop topic stateCHR (S i) rest
  end.

Definition nextTopicLevel (topic : list Z) : (list Z * list Z) + error :=
  ntl_loop topic stateCHR 0 topic.

(** ** Subscribers: Go interface values

    The types a subscriber may have and that [equal] tells apart; [IInt k v] is
    an integer of kind [k].  Floats are left out: nothing subscribes with one. *)
Inductive iface : Type :=
| IPtr (l : Z)
| IFunc (l : Z)
| IStr (s : list Z)
| IInt (k v : Z).

#[export] Instance iface_eq_dec : EqDecision iface.
Proof. solve_decision. Defined.

(** A function is never equal to anything: [&k1 == &k2] compares the addresses of
    the two parameters. *)
Definition equal (k1 k2 : iface) : bool :=
  match k1 with
  | IFunc _ => false
  | _ => bool_decide (k1 = k2)
  end.

(** ** Maps of children *)

Section Alist.
Context {A : Type}.
Implicit Types l : list (list Z * A).

Fixpoint aget l (k : list Z) : option A :=
  match l with
  | [] => None
  | (k', v) :: l => if decide (k = k') then Some v else aget l k
  end.

Fixpoint aset l (k : list Z) (v : A) : list (list Z * A) :=
  match l with
  | [] => [(k, v)]
  | (k', v') :: l => if decide (k = k') then (k, v) :: l else (k', v') :: aset l k v
  end.

Fixpoint adel l (k : list Z) : list (list Z * A) :=
  match l with
  | [] => []
  | (k', v') :: l => if decide (k = k') then l else (k', v') :: adel l k
  end.
End Alist.

(** ** The subscription tree *)

Inductive snode : Type := SNode {
  subs : list iface;
  groupSubs : gmap (list Z) (list iface);
  qos : list Z;
  snodes : list (list Z * snode)
}.

Definition newSNode : snode := SNode [] ∅ [] [].

(** [for i := range l { if equal(l[i], sub) ... }] *)
Fixpoint find_sub (l : list iface) (sub : iface) : option nat :=
  match l with
  | [] => None
  | s :: l => if equal s sub then Some 0%nat else S <$> find_sub l sub
  end.

(** Each level consumes at least one byte of the topic, so [S (length topic)] is
    enough fuel for the three walks over the tree. *)
Fixpoint sinsert (fuel : nat) (this : snode) (group topic : list Z) (q : Z) (sub : iface)
  : outcome (snode * option error) :=
  match topic, fuel with
  | [], _ =>
      match group with
      | [] =>
          match find_sub (subs this) sub with
          | Some i =>
              let! qs := put (qos this) (Z.of_nat i) [q] in
              Ret (SNode (subs this) (groupSubs this) qs (snodes this), None)
          | None =>
              Ret (SNode (subs this ++ [sub]) (groupSubs this) (qos this ++ [q]) (snodes this), None)
          end
      | _ =>
          Ret (SNode (subs this)
                     (<[group := default [] (groupSubs this !! group) ++ [sub]]> (groupSubs this))
                     (qos this) (snodes this), None)
      end
  | _, O => Ret (this, None)
  | _, S fuel =>
      match nextTopicLevel topic with
      | inr e => Ret (this, Some e)
      | inl (level, rem) =>
          let n := default newSNode (aget (snodes this) level) in
          let! (n, err) := sinsert fuel n group rem q sub in
          Ret (SNode (subs this) (groupSubs this) (qos this) (aset (snodes this) level n), err)
      end
  end.

(** [append(l[:i], l[i+1:]...)] *)
Definition cut {A} (l : list A) (i : nat) : outcome (list A) :=
  if Z.of_nat i + 1 <=? zlen l then Ret (take i l ++ drop (S i) l) else Panic SliceBounds.

(** removal at the node of the topic; a nil subscriber removes everybody *)
Definition sremove_here (this : snode) (group : list Z) (sub : option iface)
  : outcome (snode * option error) :=
  let none := Some (Errorf "memtopics/remove: No topic found for subscriber" []) in
  match sub with
  | None => Ret (SNode [] ∅ [] (snodes this), None)
  | Some sub =>
      match group with
      | [] =>
          match find_sub (subs this) sub with
          | Some i =>
              let! ss := cut (subs this) i in
              let! qs := cut (qos this) i in
              Ret (SNode ss (groupSubs this) qs (snodes this), None)
          | None => Ret (this, none)
          end
      | _ =>
          match groupSubs this !! group with
          | Some gsubs =>
              match find_sub gsubs sub with
              | Some i =>
                  let! temp := cut gsubs i in
                  let g := match temp with
                           | [] => delete group (groupSubs this)
                           | _ => <[group:=temp]> (groupSubs this)
                           end in
                  Ret (SNode (subs this) g (qos this) (snodes this), None)
              | None => Ret (this, none)
              end
          | None => Ret (this, none)
          end
      end
  end.

Definition snode_unused (n : snode) : bool :=
  bool_decide (groupSubs n = ∅) && (zlen (subs n) =? 0) && (zlen (snodes n) =? 0).

Fixpoint sremove (fuel : nat) (this : snode) (group topic : list Z) (sub : option iface)
  : outcome (snode * option error) :=
  match topic, fuel with
  | [], _ => sremove_here this group sub
  | _, O => Ret (this, None)
  | _, S fuel =>
      match nextTopicLevel topic with
      | inr e => Ret (this, Some e)
      | inl (level, rem) =>
          match aget (snodes this) level with
          | None => Ret (this, Some (Errorf "memtopics/remove: No topic found" []))
          | Some n =>
              let! (n, err) := sremove fuel n group rem sub in
              let this := SNode (subs this) (groupSubs this) (qos this) (aset (snodes this) level n) in
              match err with
              | Some e => Ret (this, Some e)
              | None =>
                  Ret (if snode_unused n
                       then SNode (subs this) (groupSubs this) (qos this) (adel (snodes this) level)
                       else this, None)
              end
          end
      end
  end.

Section Match.
Context (intn : list iface -> Z).

(** the individual subscribers of a node, with the smaller of the two QoS *)
Fixpoint match_subs (i : Z) (ss : list iface) (qs : list Z) (pq : Z) (acc : list iface * list Z)
  : outcome (list iface * list Z) :=
  match ss with
  | [] => Ret acc
  | s :: ss =>
      let! sq := index qs i in
      let acc := (acc.1 ++ [s], acc.2 ++ [if pq <=? sq then pq else sq]) in
      match_subs (i + 1) ss qs pq acc
  end.

(** one member of each group, always with QoS 1 *)
Fixpoint match_groups (gs : list (list Z * list iface)) (acc : list iface * list Z)
  : outcome (list iface * list Z) :=
  match gs with
  | [] => Ret acc
  | (k, gsubs) :: gs =>
      let qs := acc.2 ++ [1] in
      let! s := (if zlen gsubs =? 1 then index gsubs 0 else index gsubs (intn gsubs)) in
      match_groups gs (acc.1 ++ [s], qs)
  end.

Definition matchQos (this : snode) (pq : Z) (acc : list iface * list Z) : outcome (list iface * list Z) :=
  let! acc := match_subs 0 (subs this) (qos this) pq acc in
  match_groups (map_to_list (groupSubs this)) acc.

(** [for k, n := range this.snodes { ... }], stopping at the first error *)
Fixpoint each_child {A E S} (f : list Z -> A -> S -> outcome (S * option E)) (l : list (list Z * A)) (acc : S)
  : outcome (S * option E) :=
  match l with
  | [] => Ret (acc, None)
  | (k, n) :: l =>
      let! (acc, err) := f k n acc in
      match err with
      | Some e => Ret (acc, Some e)
      | None => each_child f l acc
      end
  end.

Fixpoint smatch (fuel : nat) (this : snode) (topic : list Z) (pq : Z) (acc : list iface * list Z)
  : outcome ((list iface * list Z) * option error) :=
  match topic, fuel with
  | [], _ => let! acc := matchQos this pq acc in Ret (acc, None)
  | _, O => Ret (acc, None)
  | _, S fuel =>
      match nextTopicLevel topic with
      | inr e => Ret (acc, Some e)
      | inl (level, rem) =>
          each_child (fun k n acc =>
            if bool_decide (k = MWC) then let! acc := matchQos n pq acc in Ret (acc, None)
            else if bool_decide (k = SWC) || bool_decide (k = level) then smatch fuel n rem pq acc
            else Ret (acc, None)) (snodes this) acc
      end
  end.

End Match.

(** ** The retained messages *)

Inductive rnode : Type := RNode {
  rmsg : option PublishMessage;
  rbuf : slice;
  rnodes : list (list Z * rnode)
}.

Definition newRNode : rnode := RNode None (mkslice []) [].

(** [rinsert] at the node of the topic: the node's buffer and message are reused *)
Definition rinsert_here (this : rnode) (g : Z) (msg : PublishMessage)
  : outcome (rnode * Z * PublishMessage * option error) :=
  let! (msg, l) := Publish.Len msg in
  let! buf := (if cap (rbuf this) <? l then Ret (mkslice (replicate (Z.to_nat l) 0))
               else slice_range (rbuf this) 0 l) in
  let! (msg, g, b, _, err) := Publish.Encode msg g (vis buf) in
  let buf := Slice b (spare buf) in
  match err with
  | Some e => Ret (RNode (rmsg this) buf (rnodes this), g, msg, Some e)
  | None =>
      let m := default NewPublishMessage (rmsg this) in
      let! (m, _, err) := Publish.Decode m buf in
      Ret (RNode (Some m) buf (rnodes this), g, msg, err)
  end.

Fixpoint rinsert (fuel : nat) (this : rnode) (g : Z) (topic : list Z) (msg : PublishMessage)
  : outcome (rnode * Z * PublishMessage * option error) :=
  match topic, fuel with
  | [], _ => rinsert_here this g msg
  | _, O => Ret (this, g, msg, None)
  | _, S fuel =>
      match nextTopicLevel topic with
      | inr e => Ret (this, g, msg, Some e)
      | inl (level, rem) =>
          let n := default newRNode (aget (rnodes this) level) in
          let! (n, g, msg, err) := rinsert fuel n g rem msg in
          Ret (RNode (rmsg this) (rbuf this) (aset (rnodes this) level n), g, msg, err)
      end
  end.

Fixpoint rremove (fuel : nat) (this : rnode) (topic : list Z) : rnode * option error :=
  match topic, fuel with
  | [], _ => (RNode None (mkslice []) (rnodes this), None)
  | _, O => (this, None)
  | _, S fuel =>
      match nextTopicLevel topic with
      | inr e => (this, Some e)
      | inl (level, rem) =>
          match aget (rnodes this) level with
          | None => (this, Some (Errorf "memtopics/rremove: No topic found" []))
          | Some n =>
              let '(n, err) := rremove fuel n rem in
              let this := RNode (rmsg this) (rbuf this) (aset (rnodes this) level n) in
              match err with
              | Some e => (this, Some e)
              | None =>
                  (if zlen (rnodes n) =? 0
                   then RNode (rmsg this) (rbuf this) (adel (rnodes this) level) else this, None)
              end
          end
      end
  end.

Fixpoint allRetained (this : rnode) : list PublishMessage :=
  match rmsg this with Some m => [m] | None => [] end ++
  (fix go (l : list (list Z * rnode)) : list PublishMessage :=
     match l with [] => [] | (_, n) :: l => allRetained n ++ go l end) (rnodes this).

Fixpoint rmatch (fuel : nat) (this : rnode) (topic : list Z) (msgs : list PublishMessage)
  : outcome (list PublishMessage * option error) :=
  match topic, fuel with
  | [], _ => Ret (msgs ++ match rmsg this with Some m => [m] | None => [] end, None)
  | _, O => Ret (msgs, None)
  | _, S fuel =>
      match nextTopicLevel topic with
      | inr e => Ret (msgs, Some e)
      | inl (level, rem) =>
          if bool_decide (level = MWC) then Ret (msgs ++ allRetained this, None)
          else if bool_decide (level = SWC) then
            each_child (fun _ n msgs => rmatch fuel n rem msgs) (rnodes this) msgs
          else match aget (rnodes this) level with
               | Some n => rmatch fuel n rem msgs
               | None => Ret (msgs, None)
               end
      end
  end.

(** ** The provider *)

Definition GroupPrefix : list Z := str "$group/".

(** the bytes before and from the first ['/'] *)
Fixpoint cut_slash (l : list Z) : option (list Z * list Z) :=
  match l with
  | [] => None
  | c :: l => if c =? chSlash then Some ([], c :: l)
              else '(a, b) ← cut_slash l; Some (c :: a, b)
  end.

Definition getGroupName (topic : list Z) : list Z * list Z :=
  if negb (bool_decide (take (length GroupPrefix) topic = GroupPrefix)) then ([], topic)
  else
    match cut_slash (drop (length GroupPrefix) topic) with
    | None => ([], topic)
    | Some (group, sub) => (group, sub)
    end.

Record memTopics : Type := mkTopics { sroot : option snode; rroot : option rnode }.

Definition NewMemProvider : memTopics := mkTopics (Some newSNode) (Some newRNode).

(** dereference of a root, nil after [Close] *)
Definition root {A} (r : option A) : outcome A :=
  match r with Some n => Ret n | None => Panic NilDeref end.

Definition Subscribe (t : memTopics) (topic : list Z) (q : Z) (sub : option iface)
  : outcome (memTopics * Z * option error) :=
  if negb (ValidQos q) then Ret (t, QosFailure, Some (Errorf "Invalid QoS %d" [AInt q]))
  else
    match sub with
    | None => Ret (t, QosFailure, Some (Errorf "Subscriber cannot be nil" []))
    | Some sub =>
        let q := if MaxQosAllowed <? q then MaxQosAllowed else q in
        let '(group, topic) := getGroupName topic in
        let! r := root (sroot t) in
        let! (r, err) := sinsert (S (length topic)) r group topic q sub in
        let t := mkTopics (Some r) (rroot t) in
        match err with
        | Some e => Ret (t, QosFailure, Some e)
        | None => Ret (t, q, None)
        end
    end.

Definition Unsubscribe (t : memTopics) (topic : list Z) (sub : option iface)
  : outcome (memTopics * option error) :=
  let '(group, topic) := getGroupName topic in
  let! r := root (sroot t) in
  let! (r, err) := sremove (S (length topic)) r group topic sub in
  Ret (mkTopics (Some r) (rroot t), err).

(** [prev] is what the caller's two slices held; a bad QoS leaves them alone *)
Definition Subscribers (intn : list iface -> Z) (t : memTopics) (topic : list Z) (q : Z)
    (prev : list iface * list Z) : outcome ((list iface * list Z) * option error) :=
  if negb (ValidQos q) then Ret (prev, Some (Errorf "Invalid QoS %d" [AInt q]))
  else
    let! r := root (sroot t) in
    smatch intn (S (length topic)) r topic q ([], []).

Definition Retain (t : memTopics) (g : Z) (msg : PublishMessage)
  : outcome (memTopics * Z * PublishMessage * option error) :=
  let! r := root (rroot t) in
  if zlen (Payload msg) =? 0 then
    let '(r, err) := rremove (S (length (Topic msg))) r (Topic msg) in
    Ret (mkTopics (sroot t) (Some r), g, msg, err)
  else
    let! (r, g, msg, err) := rinsert (S (length (Topic msg))) r g (Topic msg) msg in
    Ret (mkTopics (sroot t) (Some r), g, msg, err).

Definition Retained (t : memTopics) (topic : list Z) (msgs : list PublishMessage)
  : outcome (list PublishMessage * option error) :=
  let! r := root (rroot t) in
  rmatch (S (length topic)) r topic msgs.

Definition Close (t : memTopics) : memTopics * option error := (mkTopics None None, None).
