(* ===== verification/TopicsSpec.v ===== *)
(** * TopicsSpec: the topic tree as a table

    The subscription tree refines a table from paths (lists of topic levels) to
    the subscribers of the node: subscribing and unsubscribing change the table at
    one path, and the subscribers of a topic are those of the paths that match
    it.  Likewise for the retained messages. *)
From stdpp Require Import base list strings gmap.
From Stdlib Require Import ZArith Lia.
From S2P Require Import Prelude GoLang MsgTypes Header Publish Topics.

(** ** Association lists as maps *)

Section Alist.
Context {A : Type}.
Implicit Types l : list (list Z * A).

Lemma aget_aset l k v k' : aget (aset l k v) k' = if decide (k' = k) then Some v else aget l k'.
Proof.
  induction l as [|[j w] l IH]; cbn; [done|]. destruct (decide (k = j)) as [->|Hne]; cbn.
  - repeat case_decide; done || congruence.
  - rewrite IH. repeat case_decide; done || congruence.
Qed.

Lemma aset_keys l k v j : j ∈ (aset l k v).*1 <-> j = k \/ j ∈ l.*1.
Proof.
  induction l as [|[i w] l IH]; cbn.
  - rewrite list_elem_of_singleton. set_solver.
  - destruct (decide (k = i)) as [->|Hne]; cbn; rewrite !elem_of_cons; [tauto|]. rewrite IH. tauto.
Qed.

Lemma NoDup_aset l k v : NoDup l.*1 -> NoDup (aset l k v).*1.
Proof.
  induction l as [|[i w] l IH]; cbn; intros Hnd; [apply NoDup_singleton|].
  apply NoDup_cons in Hnd as [Hi Hnd]. destruct (decide (k = i)) as [->|Hne]; cbn.
  - by apply NoDup_cons.
  - apply NoDup_cons. split; [|by apply IH]. rewrite aset_keys. intros [->|H]; done.
Qed.

Lemma elem_of_aset l k v j w : NoDup l.*1 -> (j, w) ∈ aset l k v -> (j = k /\ w = v) \/ (j <> k /\ (j, w) ∈ l).
Proof.
  induction l as [|[i x] l IH]; cbn.
  - intros _ H. apply list_elem_of_singleton in H. left. by simplify_eq.
  - intros Hnd. apply NoDup_cons in Hnd as [Hi Hnd]. destruct (decide (k = i)) as [->|Hne]; rewrite !elem_of_cons.
    + intros [H|H]; [left; by simplify_eq|right]. split; [|auto]. intros ->. apply Hi.
      apply list_elem_of_fmap. by exists (i, w).
    + intros [H|H]; [right; simplify_eq; auto|]. destruct (IH Hnd H) as [?|[? ?]]; auto.
Qed.

Lemma aget_elem l k v : NoDup l.*1 -> aget l k = Some v <-> (k, v) ∈ l.
Proof.
  induction l as [|[i x] l IH]; cbn; intros Hnd; [set_solver|].
  apply NoDup_cons in Hnd as [Hi Hnd]. rewrite elem_of_cons. case_decide as Hk.
  - subst. split; [intros [= ->]; auto|]. intros [H|H]; [by simplify_eq|]. exfalso. apply Hi.
    apply list_elem_of_fmap. by exists (i, v).
  - rewrite (IH Hnd). split; [auto|]. intros [H|H]; [by simplify_eq|done].
Qed.

Lemma elem_of_adel l k x : x ∈ adel l k -> x ∈ l.
Proof.
  induction l as [|[i y] l IH]; cbn; [done|]. case_decide; rewrite ?elem_of_cons; [auto|]. intros [?|?]; auto.
Qed.

Lemma NoDup_adel l k : NoDup l.*1 -> NoDup (adel l k).*1.
Proof.
  induction l as [|[i x] l IH]; cbn; intros Hnd; [done|]. apply NoDup_cons in Hnd as [Hi Hnd].
  case_decide; [done|]. cbn. apply NoDup_cons. split; [|by apply IH]. intros H0. apply Hi.
  apply list_elem_of_fmap in H0 as (y & -> & Hy). apply list_elem_of_fmap. exists y. split; [done|].
  by apply elem_of_adel in Hy.
Qed.

Lemma aget_adel l k k' : NoDup l.*1 -> aget (adel l k) k' = if decide (k' = k) then None else aget l k'.
Proof.
  induction l as [|[i x] l IH]; cbn; intros Hnd; [by case_decide|].
  apply NoDup_cons in Hnd as [Hi Hnd]. destruct (decide (k = i)) as [->|Hne]; cbn.
  - destruct (decide (k' = i)) as [->|]; [|done].
    destruct (aget l i) eqn:E; [|done]. apply aget_elem in E; [|done]. exfalso. apply Hi.
    apply list_elem_of_fmap. by exists (i, a).
  - rewrite IH by done. repeat case_decide; done || congruence.
Qed.

End Alist.

(** ** Topic levels *)

(** the levels of a topic; [None] when some level is malformed *)
Fixpoint levels (fuel : nat) (topic : list Z) : option (list (list Z)) :=
  match topic, fuel with
  | [], _ => Some []
  | _, O => None
  | _, S fuel =>
      match nextTopicLevel topic with
      | inl (l, rem) => cons l <$> levels fuel rem
      | inr _ => None
      end
  end.

Definition path_of (topic : list Z) : option (list (list Z)) := levels (S (length topic)) topic.

(** a level without ['/'], wildcard characters or a leading ['$'] *)
Definition plain (l : list Z) : bool :=
  match l with
  | [] => false
  | c :: _ => negb (c =? chDollar) &&
              forallb (fun c => negb (c =? chSlash) && negb (c =? chHash) && negb (c =? chPlus)) l
  end.

(** levels separated by ['/'] *)
Fixpoint join (ls : list (list Z)) : list Z :=
  match ls with
  | [] => []
  | [l] => l
  | l :: ls => l ++ chSlash :: join ls
  end.

(** a topic filter: plain levels and ['+'], with ['#'] in the last place only *)
Fixpoint filter_ok (ls : list (list Z)) : bool :=
  match ls with
  | [] => true
  | l :: ls => if bool_decide (l = MWC) then bool_decide (ls = [])
               else (bool_decide (l = SWC) || plain l) && filter_ok ls
  end.

Lemma ntl_plain (pre l rest : list Z) s :
  pre <> [] -> s = stateCHR \/ s = stateSYS ->
  forallb (fun c => negb (c =? chSlash) && negb (c =? chHash) && negb (c =? chPlus)) l = true ->
  ntl_loop (pre ++ l ++ rest) s (length pre) (l ++ rest)
  = ntl_loop (pre ++ l ++ rest) (if l is [] then s else
      if decide (last l = Some chDollar) then stateSYS else stateCHR) (length (pre ++ l)) rest.
Proof.
  revert pre s. induction l as [|c l IH]; intros pre s Hpre Hs Hl; [by rewrite app_nil_r|].
  cbn [forallb] in Hl. apply andb_true_iff in Hl as [Hc Hl]. cbn [app ntl_loop].
  assert (E1 : (c =? chSlash) = false) by lia. assert (E2 : (c =? chHash) = false) by lia.
  assert (E3 : (c =? chPlus) = false) by lia. rewrite E1, E2, E3.
  assert (E4 : (length pre =? 0)%nat = false) by (destruct pre; [done|done]). rewrite E4.
  assert (Hnext : forall s', s' = stateCHR \/ s' = stateSYS ->
    ntl_loop (pre ++ c :: l ++ rest) s' (S (length pre)) (l ++ rest)
    = ntl_loop (pre ++ c :: l ++ rest) (if l is [] then s' else
        if decide (last l = Some chDollar) then stateSYS else stateCHR) (length (pre ++ c :: l)) rest).
  { intros s' Hs'. specialize (IH (pre ++ [c]) s' ltac:(by destruct pre) Hs' Hl).
    rewrite <- !app_assoc in IH. cbn [app] in IH. rewrite length_app in IH. cbn [length] in IH.
    replace (length pre + 1)%nat with (S (length pre)) in IH by lia. exact IH. }
  assert (E5 : (s =? stateMWC) || (s =? stateSWC) = false) by (destruct Hs as [->| ->]; done).
  destruct (c =? chDollar) eqn:Ed.
  - rewrite Hnext by auto. destruct l as [|d l]; [|done]. cbn [last].
    rewrite decide_True; [done|]. f_equal. lia.
  - rewrite E5. rewrite Hnext by auto. destruct l as [|d l]; [|done]. cbn [last].
    rewrite decide_False; [done|]. intros [= ->]. done.
Qed.

(** the state the scan ends in is never the multi-level wildcard on a plain level *)
Lemma next_plain_gen l rest : plain l = true ->
  exists s, (s = stateCHR \/ s = stateSYS) /\
    nextTopicLevel (l ++ rest) = ntl_loop (l ++ rest) s (length l) rest.
Proof.
  destruct l as [|c l]; [done|]. cbn [plain]. intros [Hd Hl]%andb_true_iff.
  cbn [forallb] in Hl. apply andb_true_iff in Hl as [Hc Hl]. unfold nextTopicLevel. cbn [app ntl_loop].
  assert (E1 : (c =? chSlash) = false) by lia. assert (E2 : (c =? chHash) = false) by lia.
  assert (E3 : (c =? chPlus) = false) by lia. assert (E4 : (c =? chDollar) = false) by lia.
  rewrite E1, E2, E3, E4. cbn [orb]. change (stateCHR =? stateMWC) with false. change (stateCHR =? stateSWC) with false.
  cbn [orb]. pose proof (ntl_plain [c] l rest stateCHR ltac:(done) ltac:(auto) Hl) as H. cbn [app length] in H.
  rewrite H. eexists. split; [|done]. destruct l; [auto|]. case_decide; auto.
Qed.

Lemma next_plain l rem : plain l = true -> nextTopicLevel (l ++ chSlash :: rem) = inl (l, rem).
Proof.
  intros Hp. destruct (next_plain_gen l (chSlash :: rem) Hp) as (s & Hs & ->). cbn [ntl_loop].
  change (chSlash =? chSlash) with true. cbv iota.
  replace (s =? stateMWC) with false by (destruct Hs as [->| ->]; done).
  destruct l as [|c l]; [done|]. change ((length (c :: l) =? 0)%nat) with false. cbv iota.
  rewrite take_app_length. do 2 f_equal. replace (S (length (c :: l))) with (length (c :: l) + 1)%nat by lia.
  by rewrite <- drop_drop, drop_app_length.
Qed.

Lemma next_plain_last l : plain l = true -> nextTopicLevel l = inl (l, []).
Proof.
  intros Hp. destruct (next_plain_gen l [] Hp) as (s & Hs & E). rewrite app_nil_r in E. by rewrite E.
Qed.

Lemma filter_level_next l ls : filter_ok (l :: ls) = true ->
  l <> [] /\ nextTopicLevel (join (l :: ls)) = inl (l, join ls).
Proof.
  cbn [filter_ok]. case_bool_decide as Hm.
  - intros H. apply bool_decide_eq_true_1 in H. subst. done.
  - intros [H _]%andb_true_iff. apply orb_true_iff in H as [H|H].
    + apply bool_decide_eq_true_1 in H. subst. split; [done|]. by destruct ls.
    + split; [by destruct l|]. destruct ls as [|l2 ls]; [by apply next_plain_last|by apply next_plain].
Qed.

Lemma filter_ok_tail l ls : filter_ok (l :: ls) = true -> filter_ok ls = true.
Proof.
  cbn [filter_ok]. case_bool_decide as Hm; [intros H2%bool_decide_eq_true_1; by subst|]. by intros [_ ?]%andb_true_iff.
Qed.

Lemma levels_join ls fuel : filter_ok ls = true -> (length (join ls) < fuel)%nat -> levels fuel (join ls) = Some ls.
Proof.
  revert fuel. induction ls as [|l ls IH]; intros fuel Hok Hf; [by destruct fuel|].
  destruct (filter_level_next l ls Hok) as [Hl Hn]. destruct fuel as [|fuel]; [lia|].
  assert (Hj : join (l :: ls) <> []) by (destruct ls; [done|by destruct l]).
  assert (E : levels (S fuel) (join (l :: ls)) = cons l <$> levels fuel (join ls)).
  { cbn [levels]. destruct (join (l :: ls)) eqn:Ej; [done|]. by rewrite Hn. }
  rewrite E, IH; [done|by eapply filter_ok_tail|].
  destruct ls as [|l2 ls]; [cbn; destruct l; [done|]; cbn in Hf; lia|].
  cbn [join] in Hf. rewrite length_app in Hf. cbn [length] in Hf. cbn [join] in *. lia.
Qed.

(** Splitting undoes joining: a topic filter built from plain levels, ['+'] and a
    final ['#'], separated by slashes, is split by [nextTopicLevel] into exactly
    those levels. *)
Theorem topic_levels_roundtrip ls : filter_ok ls = true -> path_of (join ls) = Some ls.
Proof. intros H. apply levels_join; [done|]. lia. Qed.

Lemma topic_levels_roundtrip_witness : path_of (str "a/+/b$c/#") = Some [str "a"; str "+"; str "b$c"; str "#"].
Proof. exact (topic_levels_roundtrip [str "a"; str "+"; str "b$c"; str "#"] eq_refl). Defined.

(** ** The subscription table *)

Fixpoint node_at (p : list (list Z)) (n : snode) : option snode :=
  match p with
  | [] => Some n
  | l :: p => c ← aget (snodes n) l; node_at p c
  end.

(** what a node holds for itself *)
Definition data (n : snode) : list iface * list Z * gmap (list Z) (list iface) := (subs n, qos n, groupSubs n).

(** the table: the data at each path, nothing where there is no node *)
Definition table (n : snode) (p : list (list Z)) := data (default newSNode (node_at p n)).

(** every node has one QoS per subscriber, no empty group, distinct children *)
Inductive swf : snode -> Prop :=
| swf_node n :
    length (subs n) = length (qos n) -> (forall k gl, groupSubs n !! k = Some gl -> gl <> []) ->
    NoDup (snodes n).*1 -> (forall k c, (k, c) ∈ snodes n -> swf c) -> swf n.

Lemma swf_new : swf newSNode.
Proof.
  constructor; unfold newSNode; cbn [subs qos groupSubs snodes].
  - reflexivity.
  - intros k gl H. rewrite lookup_empty in H. discriminate.
  - apply NoDup_nil_2.
  - intros k c H. by apply not_elem_of_nil in H.
Qed.

Lemma swf_child n l c : swf n -> aget (snodes n) l = Some c -> swf c.
Proof. intros H E. inversion H as [? _ _ Hnd Hc]; subst. apply aget_elem in E; [|done]. by eapply Hc. Qed.

Lemma swf_default n l : swf n -> swf (default newSNode (aget (snodes n) l)).
Proof. intros H. destruct (aget (snodes n) l) eqn:E; cbn; [by eapply swf_child|apply swf_new]. Qed.

Definition with_snodes (cs : list (list Z * snode)) (n : snode) : snode := SNode (subs n) (groupSubs n) (qos n) cs.

Lemma swf_aset n l c : swf n -> swf c -> swf (with_snodes (aset (snodes n) l c) n).
Proof.
  intros H Hc. inversion H as [? Hl Hg Hnd Hch]; subst.
  constructor; unfold with_snodes; cbn [subs qos groupSubs snodes]; [exact Hl|exact Hg| |].
  - by apply NoDup_aset.
  - intros k d Hd. apply elem_of_aset in Hd as [[-> ->]|[_ Hd]]; [done| |done]. by eapply Hch.
Qed.

Lemma swf_adel n l : swf n -> swf (with_snodes (adel (snodes n) l) n).
Proof.
  intros H. inversion H as [? Hl Hg Hnd Hch]; subst.
  constructor; unfold with_snodes; cbn [subs qos groupSubs snodes]; [exact Hl|exact Hg| |].
  - by apply NoDup_adel.
  - intros k d Hd. apply elem_of_adel in Hd. by eapply Hch.
Qed.

(** change the node at a path, creating it when it is missing *)
Fixpoint upd_at (p : list (list Z)) (f : snode -> snode) (n : snode) : snode :=
  match p with
  | [] => f n
  | l :: p => with_snodes (aset (snodes n) l (upd_at p f (default newSNode (aget (snodes n) l)))) n
  end.

Lemma node_at_new p : p <> [] -> node_at p newSNode = None.
Proof. by destruct p. Qed.

Lemma table_new p : table newSNode p = ([], [], ∅).
Proof. destruct p; reflexivity. Qed.

Lemma table_child n l p : table n (l :: p) = table (default newSNode (aget (snodes n) l)) p.
Proof.
  unfold table. cbn. destruct (aget (snodes n) l); cbn; [done|]. by destruct p.
Qed.

Lemma table_upd p f n p' : (forall m, snodes (f m) = snodes m) ->
  table (upd_at p f n) p' = if decide (p' = p) then data (f (default newSNode (node_at p n))) else table n p'.
Proof.
  intros Hf. revert n p'. induction p as [|l p IH]; intros n p'.
  - cbn [upd_at node_at default]. case_decide as Hp; [by subst|]. destruct p' as [|l' p']; [done|].
    rewrite !table_child, Hf. done.
  - cbn [upd_at]. destruct p' as [|l' p']; [by rewrite decide_False|].
    rewrite !table_child. cbn [with_snodes snodes]. rewrite aget_aset.
    destruct (decide (l' = l)) as [->|Hne].
    + cbn [default]. unfold id. rewrite IH.
      destruct (decide (p' = p)) as [->|Hp]; [|by rewrite decide_False by congruence].
      rewrite decide_True by done. cbn [node_at]. destruct (aget (snodes n) l); cbn; [done|]. by destruct p.
    + rewrite decide_False by congruence. done.
Qed.

Lemma swf_upd p f n : (forall m, swf m -> swf (f m)) -> swf n -> swf (upd_at p f n).
Proof.
  intros Hf. revert n. induction p as [|l p IH]; intros n H; cbn; [by apply Hf|].
  apply swf_aset; [done|]. apply IH. by apply swf_default.
Qed.

(** ** Subscribing *)

(** one entry of the table after a subscription *)
Definition add_sub (group : list Z) (q : Z) (sub : iface)
    (d : list iface * list Z * gmap (list Z) (list iface)) :=
  let '(ss, qs, gs) := d in
  match group with
  | [] => match find_sub ss sub with
          | Some i => (ss, <[i:=q]> qs, gs)
          | None => (ss ++ [sub], qs ++ [q], gs)
          end
  | _ => (ss, qs, <[group:=default [] (gs !! group) ++ [sub]]> gs)
  end.

Definition set_data (d : list iface * list Z * gmap (list Z) (list iface)) (n : snode) : snode :=
  SNode d.1.1 d.2 d.1.2 (snodes n).

Lemma find_sub_lt l s i : find_sub l s = Some i -> (i < length l)%nat.
Proof.
  revert i. induction l as [|x l IH]; intros i; cbn; [done|]. destruct (equal x s); [intros [= <-]; lia|].
  destruct (find_sub l s) as [j|]; cbn; [|done]. intros [= <-]. specialize (IH j eq_refl). lia.
Qed.

Lemma set_data_swf n d : swf n -> length d.1.1 = length d.1.2 ->
  (forall k gl, d.2 !! k = Some gl -> gl <> []) -> swf (set_data d n).
Proof. intros H Hl Hg. inversion H; subst. by constructor. Qed.

Lemma add_sub_ok group q sub n : swf n ->
  let d := add_sub group q sub (data n) in
  length d.1.1 = length d.1.2 /\ (forall k gl, d.2 !! k = Some gl -> gl <> []).
Proof.
  intros H. inversion H as [? Hl Hg _ _]; subst. unfold add_sub, data. destruct group as [|g0 group].
  - destruct (find_sub (subs n) sub); cbn; split; try done; rewrite ?length_insert, ?length_app; cbn; lia.
  - cbn. split; [done|]. intros k gl Hk. destruct (decide (k = g0 :: group)) as [->|Hne].
    + rewrite lookup_insert_eq in Hk. injection Hk as <-. by destruct (default _ _).
    + rewrite lookup_insert_ne in Hk by done. by eapply Hg.
Qed.

Lemma sinsert_spec fuel topic p n group q sub :
  swf n -> levels fuel topic = Some p ->
  sinsert fuel n group topic q sub
  = Ret (upd_at p (fun m => set_data (add_sub group q sub (data m)) m) n, None).
Proof.
  revert topic p n. induction fuel as [|fuel IH]; intros topic p n Hn Hp.
  - destruct topic; [|done]. injection Hp as <-. cbn. unfold add_sub, data, set_data.
    destruct group as [|g0 group]; [|done]. destruct (find_sub (subs n) sub) as [i|] eqn:Ef; [|done].
    pose proof (find_sub_lt _ _ _ Ef). inversion Hn as [? Hl _ _ _]; subst.
    rewrite put_insert by (unfold zlen; lia). rewrite bindO_ret, Nat2Z.id. done.
  - destruct topic as [|c topic].
    + injection Hp as <-. cbn. unfold add_sub, data, set_data.
      destruct group as [|g0 group]; [|done]. destruct (find_sub (subs n) sub) as [i|] eqn:Ef; [|done].
      pose proof (find_sub_lt _ _ _ Ef). inversion Hn as [? Hl _ _ _]; subst.
      rewrite put_insert by (unfold zlen; lia). rewrite bindO_ret, Nat2Z.id. done.
    + cbn [levels sinsert] in *. destruct (nextTopicLevel (c :: topic)) as [[l rem]|]; [|done].
      destruct (levels fuel rem) as [p'|] eqn:El; [|done]. injection Hp as <-.
      rewrite (IH rem p' _ (swf_default n l Hn) El), bindO_ret. done.
Qed.

(** ** Unsubscribing *)

(** one entry of the table after an unsubscription; [None]: the subscriber is not
    there *)
Definition del_sub (group : list Z) (sub : option iface)
    (d : list iface * list Z * gmap (list Z) (list iface)) :=
  let '(ss, qs, gs) := d in
  match sub with
  | None => Some ([], [], ∅)
  | Some sub =>
      match group with
      | [] => i ← find_sub ss sub; Some (delete i ss, delete i qs, gs)
      | _ => gl ← gs !! group; i ← find_sub gl sub;
             Some (ss, qs, match delete i gl with [] => delete group gs | t => <[group:=t]> gs end)
      end
  end.

Lemma cut_delete {A} (l : list A) i : (i < length l)%nat -> cut l i = Ret (delete i l).
Proof.
  intros H. unfold cut. assert (E : (Z.of_nat i + 1 <=? zlen l) = true) by (unfold zlen; lia).
  rewrite E. f_equal. by rewrite delete_take_drop.
Qed.

Lemma sremove_here_spec n group sub : swf n ->
  match del_sub group sub (data n) with
  | Some d => sremove_here n group sub = Ret (set_data d n, None) /\ swf (set_data d n)
  | None => exists e, sremove_here n group sub = Ret (n, Some e)
  end.
Proof.
  intros Hn. inversion Hn as [? Hl Hg _ _]; subst. unfold del_sub, sremove_here, data.
  destruct sub as [sub|]; [|split; [done|]; apply set_data_swf; cbn [fst snd]; [done|done|intros k gl H; by rewrite lookup_empty in H]].
  destruct group as [|g0 group].
  - destruct (find_sub (subs n) sub) as [i|] eqn:Ef; cbn; [|by eexists].
    pose proof (find_sub_lt _ _ _ Ef). rewrite !cut_delete by lia. split; [done|].
    apply set_data_swf; cbn; [done| |done]. rewrite !length_delete; [lia|..]; by apply lookup_lt_is_Some_2; lia.
  - destruct (groupSubs n !! (g0 :: group)) as [gl|] eqn:Eg; cbn; [|by eexists].
    destruct (find_sub gl sub) as [i|] eqn:Ef; cbn; [|by eexists].
    rewrite cut_delete by (by eapply find_sub_lt). rewrite bindO_ret. split; [by destruct (delete i gl)|].
    apply set_data_swf; cbn; [done|done|]. intros k x Hk. destruct (delete i gl) as [|y t] eqn:Ed.
    + apply lookup_delete_Some in Hk as [_ Hk]. by eapply Hg.
    + destruct (decide (k = g0 :: group)) as [->|Hne].
      * rewrite lookup_insert_eq in Hk. by injection Hk as <-.
      * rewrite lookup_insert_ne in Hk by done. by eapply Hg.
Qed.

(** a node that is unused contributes nothing to the table *)
Lemma unused_table n p : swf n -> snode_unused n = true -> table n p = ([], [], ∅).
Proof.
  intros Hn H. unfold snode_unused in H. rewrite !andb_true_iff in H. destruct H as [[H1 H2] H3].
  apply bool_decide_eq_true_1 in H1. apply Z.eqb_eq, zlen_zero_nil in H2. apply Z.eqb_eq, zlen_zero_nil in H3.
  inversion Hn as [? Hl _ _ _]; subst. rewrite H2 in Hl. cbn in Hl. symmetry in Hl. apply nil_length_inv in Hl.
  unfold table. destruct p; cbn; [unfold data; by rewrite H1, H2, Hl|]. by rewrite H3.
Qed.

Lemma table_aset n l c p :
  table (with_snodes (aset (snodes n) l c) n) p
  = match p with
    | l' :: q => if decide (l' = l) then table c q else table n p
    | [] => table n []
    end.
Proof.
  destruct p as [|l' q]; [done|]. rewrite !table_child. cbn [with_snodes snodes]. rewrite aget_aset.
  by case_decide.
Qed.

Lemma table_adel n l c p : NoDup (snodes n).*1 -> (forall q, table c q = ([], [], ∅)) ->
  table (with_snodes (adel (snodes n) l) n) p = table (with_snodes (aset (snodes n) l c) n) p.
Proof.
  intros Hnd Hc. destruct p as [|l' q]; [done|]. rewrite table_aset, table_child. cbn [with_snodes snodes].
  rewrite aget_adel by done. case_decide; [by rewrite Hc, table_new|]. by rewrite table_child.
Qed.

Lemma sremove_spec fuel topic p n group sub :
  swf n -> levels fuel topic = Some p ->
  exists n' err, sremove fuel n group topic sub = Ret (n', err) /\ swf n' /\
    (forall p', table n' p' = if decide (p' = p) then default (table n p) (del_sub group sub (table n p))
                              else table n p') /\
    (sub <> None -> err = None <-> is_Some (del_sub group sub (table n p))).
Proof.
  assert (Hhere : forall m p0, p0 = [] -> swf m -> exists n' err, sremove_here m group sub = Ret (n', err) /\ swf n' /\
    (forall p', table n' p' = if decide (p' = p0) then default (table m []) (del_sub group sub (table m []))
                              else table m p') /\
    (sub <> None -> err = None <-> is_Some (del_sub group sub (table m [])))).
  { intros m p0 -> Hm. pose proof (sremove_here_spec m group sub Hm) as H. change (data m) with (table m []) in H.
    destruct (del_sub group sub (table m [])) as [[[ss qs] gs]|].
    - destruct H as [E Hw]. eexists _, _. split; [exact E|]. split; [done|]. split; [|by split; [eexists|]].
      intros p'. case_decide; [by subst|]. destruct p' as [|l q]; [done|]. by rewrite !table_child.
    - destruct H as [e E]. eexists _, _. split; [exact E|]. split; [done|]. split.
      + intros p'. case_decide; [by subst|done].
      + intros _. split; [done|]. by intros [? ?]. }
  revert topic p n. induction fuel as [|fuel IH]; intros topic p n Hn Hp.
  - destruct topic; [|done]. injection Hp as <-. exact (Hhere n [] eq_refl Hn).
  - destruct topic as [|c topic]; [injection Hp as <-; exact (Hhere n [] eq_refl Hn)|].
    cbn [levels sremove] in *. destruct (nextTopicLevel (c :: topic)) as [[l rem]|]; [|done].
    destruct (levels fuel rem) as [q|] eqn:El; [|done]. injection Hp as <-.
    rewrite table_child. destruct (aget (snodes n) l) as [ch|] eqn:Ea; cbn [default]; unfold id.
    + destruct (IH rem q ch (swf_child n l ch Hn Ea) El) as (n1 & err & E & Hw & Ht & He). rewrite E, bindO_ret.
      fold (with_snodes (aset (snodes n) l n1) n).
      assert (Htab : forall p', table (with_snodes (aset (snodes n) l n1) n) p'
        = if decide (p' = l :: q) then default (table ch q) (del_sub group sub (table ch q)) else table n p').
      { intros p'. rewrite table_aset. destruct p' as [|l' q']; [by rewrite decide_False|].
        destruct (decide (l' = l)) as [->|Hne]; [|by rewrite decide_False by congruence].
        rewrite Ht. destruct (decide (q' = q)) as [->|Hq]; [by rewrite decide_True|].
        rewrite decide_False by congruence. by rewrite table_child, Ea. }
      destruct err as [e|]; [eexists _, _; split; [done|]; split; [by apply swf_aset|done]|].
      eexists _, _. split; [done|]. destruct (snode_unused n1) eqn:Eu.
      * split; [|split; [|done]].
        -- cbn [with_snodes subs groupSubs qos snodes]. 
           apply (swf_adel (with_snodes (aset (snodes n) l n1) n)). by apply swf_aset.
        -- intros p'. rewrite <- Htab. cbn [with_snodes subs groupSubs qos snodes].
           set (n2 := with_snodes (aset (snodes n) l n1) n).
           change (SNode (subs n) (groupSubs n) (qos n) (adel (aset (snodes n) l n1) l))
             with (with_snodes (adel (snodes n2) l) n2).
           rewrite (table_adel n2 l n1); [| |by intros; apply unused_table].
           ++ rewrite table_aset. unfold n2. rewrite !table_aset. destruct p' as [|l' q']; [done|]. by case_decide.
           ++ cbn [n2 with_snodes snodes]. apply NoDup_aset. by inversion Hn.
      * split; [by apply swf_aset|done].
    + eexists _, _. split; [done|]. split; [done|]. rewrite table_new. split.
      * intros p'. case_decide as Hp; [|done]. subst p'. rewrite table_child, Ea. cbn [default]. unfold id.
        rewrite table_new. unfold del_sub. destruct sub; [|done]. destruct group; [done|]. by rewrite lookup_empty.
      * intros Hs. split; [done|]. destruct sub; [|done]. unfold del_sub.
        destruct group; [by intros [? ?]|]. rewrite lookup_empty. by intros [? ?].
Qed.

(** ** Matching *)

(** a path (of subscriptions) against the levels of a published topic *)
Fixpoint path_matches (p ls : list (list Z)) : bool :=
  match p, ls with
  | [], [] => true
  | k :: p, l :: ls =>
      if bool_decide (k = MWC) then bool_decide (p = [])
      else (bool_decide (k = SWC) || bool_decide (k = l)) && path_matches p ls
  | _, _ => false
  end.

(** the nodes the walk of [smatch] reaches, in order *)
Fixpoint matched (ls : list (list Z)) (n : snode) : list snode :=
  match ls with
  | [] => [n]
  | l :: ls =>
      flat_map (fun kc => if bool_decide (kc.1 = MWC) then [kc.2]
                          else if bool_decide (kc.1 = SWC) || bool_decide (kc.1 = l) then matched ls kc.2
                          else []) (snodes n)
  end.

Lemma matched_paths ls n m : swf n ->
  m ∈ matched ls n <-> exists p, node_at p n = Some m /\ path_matches p ls = true.
Proof.
  revert n. induction ls as [|l ls IH]; intros n Hn; cbn [matched].
  - rewrite list_elem_of_singleton. split.
    + intros ->. by exists [].
    + intros ([|k p] & H & Hm); [by injection H|done].
  - rewrite list_elem_of_In, in_flat_map. inversion Hn as [? _ _ Hnd Hch]; subst. split.
    + intros ([k c] & Hin & Hm). cbn [fst snd] in Hm. apply list_elem_of_In in Hin.
      pose proof (proj2 (aget_elem _ _ _ Hnd) Hin) as Hg. case_bool_decide as Hk.
      * apply list_elem_of_In, list_elem_of_singleton in Hm. subst. exists [MWC]. cbn. by rewrite Hg.
      * destruct (_ || _) eqn:Eo; [|done]. apply list_elem_of_In, (IH c (Hch k c Hin)) in Hm as (p & Hp & Hm).
        exists (k :: p). cbn [node_at path_matches]. rewrite Hg. cbn. split; [done|].
        rewrite bool_decide_false by done. by rewrite Eo, Hm.
    + intros ([|k p] & Hp & Hm); [done|]. cbn [node_at path_matches] in Hp, Hm.
      destruct (aget (snodes n) k) as [c|] eqn:Hg; [|done]. cbn in Hp.
      pose proof (proj1 (aget_elem _ _ _ Hnd) Hg) as Hin. exists (k, c). split; [by apply list_elem_of_In|].
      cbn [fst snd]. apply list_elem_of_In. case_bool_decide as Hk.
      * apply bool_decide_eq_true_1 in Hm. subst. injection Hp as ->. by apply list_elem_of_singleton.
      * apply andb_true_iff in Hm as [Ho Hm]. rewrite Ho. apply (IH c (Hch k c Hin)). by exists p.
Qed.

Section Match.
Context (intn : list iface -> Z).

Fixpoint match_all (ns : list snode) (pq : Z) (acc : list iface * list Z) : outcome (list iface * list Z) :=
  match ns with
  | [] => Ret acc
  | n :: ns => let! acc := matchQos intn n pq acc in match_all ns pq acc
  end.

Lemma match_all_app ns ns' pq acc :
  match_all (ns ++ ns') pq acc = let! acc := match_all ns pq acc in match_all ns' pq acc.
Proof.
  revert acc. induction ns as [|n ns IH]; intros acc; cbn; [done|]. rewrite bindO_assoc.
  destruct (matchQos intn n pq acc); cbn; [apply IH|done].
Qed.

(** [smatch] visits exactly the matched nodes. *)
Lemma smatch_spec fuel topic ls n pq acc :
  levels fuel topic = Some ls ->
  smatch intn fuel n topic pq acc = let! acc := match_all (matched ls n) pq acc in Ret (acc, None).
Proof.
  assert (H0 : forall m a, (let! acc := matchQos intn m pq a in Ret (acc, @None error))
    = let! acc := match_all [m] pq a in Ret (acc, None)).
  { intros m a. cbn. by destruct (matchQos intn m pq a). }
  revert topic ls n acc. induction fuel as [|fuel IH]; intros topic ls n acc Hl.
  - destruct topic; [|done]. injection Hl as <-. apply H0.
  - destruct topic as [|c topic]; [injection Hl as <-; apply H0|].
    cbn [levels smatch] in *. destruct (nextTopicLevel (c :: topic)) as [[l rem]|]; [|done].
    destruct (levels fuel rem) as [q|] eqn:El; [|done]. injection Hl as <-. cbn [matched].
    generalize (snodes n) as cs. intros cs. revert acc. induction cs as [|[k m] cs IHc]; intros acc; [done|].
    cbn [each_child flat_map fst snd]. rewrite match_all_app.
    assert (Hk : (if bool_decide (k = MWC) then let! acc := matchQos intn m pq acc in Ret (acc, None)
                  else if bool_decide (k = SWC) || bool_decide (k = l) then smatch intn fuel m rem pq acc
                  else Ret (acc, None))
      = let! acc := match_all (if bool_decide (k = MWC) then [m]
                   else if bool_decide (k = SWC) || bool_decide (k = l) then matched q m else []) pq acc in Ret (acc, None)).
    { case_bool_decide; [apply H0|]. destruct (_ || _); [by apply IH|done]. }
    rewrite Hk. destruct (match_all _ pq acc) as [acc'|]; cbn; [apply IHc|done].
Qed.

(** what a node delivers to a publication of QoS [pq] *)
Definition pick_one (gl : list iface) : option iface :=
  gl !! Z.to_nat (if zlen gl =? 1 then 0 else intn gl).

Definition deliver (pq : Z) (s : iface) (q : Z) (d : list iface * list Z * gmap (list Z) (list iface)) : Prop :=
  (exists granted, (s, granted) ∈ zip d.1.1 d.1.2 /\ q = Z.min pq granted) \/
  (exists k gl, d.2 !! k = Some gl /\ pick_one gl = Some s /\ q = 1).

(** the random index is in range *)
Definition intn_ok : Prop := forall gl, gl <> [] -> 0 <= intn gl < zlen gl.

Lemma match_subs_spec qpre ss qs pq acc : length ss = length qs ->
  match_subs (zlen qpre) ss (qpre ++ qs) pq acc
  = Ret (acc.1 ++ ss, acc.2 ++ map (Z.min pq) qs).
Proof.
  revert qpre qs acc. induction ss as [|s ss IH]; intros qpre qs [a b] Hl; destruct qs as [|q qs]; try done.
  - cbn. by rewrite !app_nil_r.
  - cbn [match_subs]. rewrite index_app, bindO_ret by done.
    specialize (IH (qpre ++ [q]) qs). rewrite <- app_assoc in IH. cbn [app] in IH.
    replace (zlen qpre + 1) with (zlen (qpre ++ [q])) by zl. rewrite IH by (cbn in Hl; lia).
    cbn [fst snd map]. rewrite <- !app_assoc. cbn [app]. do 5 f_equal. destruct (pq <=? q) eqn:E; lia.
Qed.

Lemma match_groups_spec gs acc : intn_ok -> (forall k gl, (k, gl) ∈ gs -> gl <> []) ->
  exists l, match_groups intn gs acc = Ret (acc.1 ++ l, acc.2 ++ replicate (length l) 1) /\
    forall s, s ∈ l <-> exists k gl, (k, gl) ∈ gs /\ pick_one gl = Some s.
Proof.
  intros Hi. revert acc. induction gs as [|[k gl] gs IH]; intros [a b] Hne.
  - exists []. cbn. rewrite !app_nil_r. split; [done|]. intros s. split; [by intros H%not_elem_of_nil|].
    intros (k & gl & H & _). by apply not_elem_of_nil in H.
  - cbn [match_groups fst snd]. assert (Hg : gl <> []) by (eapply Hne; by apply elem_of_cons; left).
    assert (Hp : exists s, (if zlen gl =? 1 then index gl 0 else index gl (intn gl)) = Ret s /\ pick_one gl = Some s).
    { unfold pick_one. destruct (zlen gl =? 1) eqn:E.
      - destruct gl as [|x gl]; [done|]. exists x. by rewrite index_0.
      - pose proof (Hi gl Hg) as Hr. destruct (index_ok gl (intn gl) Hr) as [s Hs]. exists s. split; [done|].
        by apply index_inv in Hs as [_ Hs]. }
    destruct Hp as (s & -> & Hs). rewrite bindO_ret.
    destruct (IH (a ++ [s], b ++ [1])) as (l & E & Hl).
    { intros k' gl' H. eapply Hne. by apply elem_of_cons; right. }
    rewrite E. exists (s :: l). cbn [fst snd]. rewrite <- !app_assoc. split; [done|].
    intros s'. rewrite elem_of_cons, Hl. split.
    + intros [->|(k' & gl' & Hin & Hp)]; [exists k, gl|exists k', gl']; (split; [apply elem_of_cons; auto|done]).
    + intros (k' & gl' & [Hin|Hin]%elem_of_cons & Hp); [left; by simplify_eq|right; eauto].
Qed.

Lemma zip_app_eq {A B} (l1 l2 : list A) (k1 k2 : list B) :
  length l1 = length k1 -> zip (l1 ++ l2) (k1 ++ k2) = zip l1 k1 ++ zip l2 k2.
Proof. intros H. by apply zip_with_app. Qed.

Lemma matchQos_spec n pq acc : swf n -> intn_ok -> length acc.1 = length acc.2 ->
  exists acc', matchQos intn n pq acc = Ret acc' /\ length acc'.1 = length acc'.2 /\
    forall s q, (s, q) ∈ zip acc'.1 acc'.2 <-> (s, q) ∈ zip acc.1 acc.2 \/ deliver pq s q (data n).
Proof.
  intros Hn Hi Ha. inversion Hn as [? Hl Hg _ _]; subst. unfold matchQos.
  pose proof (match_subs_spec [] (subs n) (qos n) pq acc Hl) as Hm. cbn [app] in Hm. rewrite zlen_nil in Hm.
  rewrite Hm, bindO_ret.
  destruct (match_groups_spec (map_to_list (groupSubs n)) (acc.1 ++ subs n, acc.2 ++ map (Z.min pq) (qos n)) Hi)
    as (l & E & Hl2).
  { intros k gl H. apply elem_of_map_to_list in H. by eapply Hg. }
  rewrite E. eexists. split; [done|]. cbn [fst snd]. split.
  - rewrite !length_app, length_map, length_replicate. lia.
  - intros s q. rewrite zip_app_eq by (rewrite !length_app, length_map; lia). rewrite zip_app_eq by done.
    rewrite !elem_of_app. unfold deliver, data. cbn [fst snd].
    assert (H1 : (s, q) ∈ zip (subs n) (map (Z.min pq) (qos n)) <->
      exists granted, (s, granted) ∈ zip (subs n) (qos n) /\ q = Z.min pq granted).
    { clear -Hl. revert Hl. generalize (subs n) (qos n). intros ss. induction ss as [|x ss IH]; intros [|y qs] Hl; try done.
      - cbn. split; [by intros H%not_elem_of_nil|]. intros (g & H & _). by apply not_elem_of_nil in H.
      - cbn. rewrite elem_of_cons, IH by (cbn in Hl; lia). split.
        + intros [H|(g & H & ->)]; [simplify_eq; exists y; split; [by apply elem_of_cons; left|done]|].
          exists g. split; [by apply elem_of_cons; right|done].
        + intros (g & [H|H]%elem_of_cons & ->); [left; by simplify_eq|right; eauto]. }
    assert (H2 : (s, q) ∈ zip l (replicate (length l) 1) <->
      exists k gl, groupSubs n !! k = Some gl /\ pick_one gl = Some s /\ q = 1).
    { assert (H3 : (s, q) ∈ zip l (replicate (length l) 1) <-> s ∈ l /\ q = 1).
      { clear. induction l as [|x l IH]; cbn; [set_solver|]. rewrite !elem_of_cons, IH. naive_solver. }
      rewrite H3, Hl2. split.
      - intros [(k & gl & H & Hp) ->]. apply elem_of_map_to_list in H. eauto.
      - intros (k & gl & H & Hp & ->). split; [|done]. exists k, gl. by rewrite elem_of_map_to_list. }
    rewrite H1, H2. tauto.
Qed.

Lemma match_all_spec ns pq acc : Forall swf ns -> intn_ok -> length acc.1 = length acc.2 ->
  exists acc', match_all ns pq acc = Ret acc' /\ length acc'.1 = length acc'.2 /\
    forall s q, (s, q) ∈ zip acc'.1 acc'.2 <->
      (s, q) ∈ zip acc.1 acc.2 \/ exists n, n ∈ ns /\ deliver pq s q (data n).
Proof.
  intros Hns Hi. revert acc. induction Hns as [|n ns Hn Hns IH]; intros acc Ha; cbn.
  - exists acc. split; [done|]. split; [done|]. intros s q. split; [auto|].
    intros [?|(n & H & _)]; [done|]. by apply not_elem_of_nil in H.
  - destruct (matchQos_spec n pq acc Hn Hi Ha) as (a1 & -> & Hl1 & H1). rewrite bindO_ret.
    destruct (IH a1 Hl1) as (a2 & -> & Hl2 & H2). exists a2. split; [done|]. split; [done|].
    intros s q. rewrite H2, H1. split.
    + intros [[?|?]|(m & Hm & Hd)]; [auto|right; exists n; split; [by apply elem_of_cons; left|done]|].
      right. exists m. split; [by apply elem_of_cons; right|done].
    + intros [?|(m & [->|Hm]%elem_of_cons & Hd)]; [auto|auto|right; eauto].
Qed.

End Match.

(** ** Theorems on subscriptions *)

Lemma Subscribe_table t r topic q sub p :
  sroot t = Some r -> swf r -> ValidQos q = true -> path_of (getGroupName topic).2 = Some p ->
  exists r', Subscribe t topic q (Some sub) = Ret (mkTopics (Some r') (rroot t), q, None) /\ swf r' /\
    forall p', table r' p' = if decide (p' = p) then add_sub (getGroupName topic).1 q sub (table r p) else table r p'.
Proof.
  intros Hr Hw Hq Hp. unfold Subscribe. rewrite Hq. cbn [negb].
  replace (if MaxQosAllowed <? q then MaxQosAllowed else q) with q.
  2:{ unfold ValidQos, MaxQosAllowed, QosAtMostOnce, QosAtLeastOnce, QosExactlyOnce in *. destruct (2 <? q) eqn:E; lia. }
  destruct (getGroupName topic) as [group sub']. cbn [fst snd] in *. rewrite Hr. cbn [root]. rewrite bindO_ret.
  unfold path_of in Hp. rewrite (sinsert_spec _ _ p r group q sub Hw Hp), bindO_ret. cbv iota.
  eexists. split; [reflexivity|]. split.
  - apply swf_upd; [|done]. intros m Hm. destruct (add_sub_ok group q sub m Hm). by apply set_data_swf.
  - intros p'. rewrite table_upd by done. case_decide; [|done]. unfold table, set_data, data at 1. cbn [subs qos groupSubs].
    by destruct (add_sub _ _ _ _) as [[? ?] ?].
Qed.

(** C26: [Subscribe] refines an update of the subscription table: with a valid QoS and
    a well-formed filter it grants the QoS asked for, changes the table at the
    path of the filter only (a new subscriber is appended, a known one gets the
    new QoS, a group subscriber joins its group), and keeps the tree well formed. *)
Theorem subscribe_updates_table t r topic q sub p :
  sroot t = Some r -> swf r -> ValidQos q = true -> path_of (getGroupName topic).2 = Some p ->
  exists r', Subscribe t topic q (Some sub) = Ret (mkTopics (Some r') (rroot t), q, None) /\ swf r' /\
    forall p', table r' p' = if decide (p' = p) then add_sub (getGroupName topic).1 q sub (table r p) else table r p'.
Proof. apply Subscribe_table. Qed.

Lemma subscribe_updates_table_witness :
  exists r', Subscribe NewMemProvider (str "a/+") 1 (Some (IPtr 5)) = Ret (mkTopics (Some r') (Some newRNode), 1, None) /\
    table r' [str "a"; str "+"] = ([IPtr 5], [1], ∅).
Proof.
  destruct (subscribe_updates_table NewMemProvider newSNode (str "a/+") 1 (IPtr 5) [str "a"; str "+"]
    eq_refl swf_new eq_refl eq_refl) as (r' & H & _ & Ht).
  exists r'. split; [exact H|]. rewrite Ht. reflexivity.
Defined.

Lemma Unsubscribe_table t r topic sub p :
  sroot t = Some r -> swf r -> path_of (getGroupName topic).2 = Some p ->
  let group := (getGroupName topic).1 in
  exists r' err, Unsubscribe t topic sub = Ret (mkTopics (Some r') (rroot t), err) /\ swf r' /\
    (forall p', table r' p' = if decide (p' = p) then default (table r p) (del_sub group sub (table r p))
                              else table r p') /\
    (sub <> None -> err = None <-> is_Some (del_sub group sub (table r p))).
Proof.
  intros Hr Hw Hp group. unfold Unsubscribe. unfold group. destruct (getGroupName topic) as [g sub'].
  cbn [fst snd] in *. rewrite Hr. cbn [root]. rewrite bindO_ret.
  destruct (sremove_spec _ _ p r g sub Hw Hp) as (r' & err & -> & H). rewrite bindO_ret. by exists r', err.
Qed.

(** C27: [Unsubscribe] refines the removal from the table: it changes the table at
    the path of the filter only, removing that subscriber (from its group, for a
    group filter) or, for a nil subscriber, everybody; it reports an error exactly
    when the subscriber was not there, and pruning empty nodes loses nothing. *)
Theorem unsubscribe_updates_table t r topic sub p :
  sroot t = Some r -> swf r -> path_of (getGroupName topic).2 = Some p ->
  let group := (getGroupName topic).1 in
  exists r' err, Unsubscribe t topic sub = Ret (mkTopics (Some r') (rroot t), err) /\ swf r' /\
    (forall p', table r' p' = if decide (p' = p) then default (table r p) (del_sub group sub (table r p))
                              else table r p') /\
    (sub <> None -> err = None <-> is_Some (del_sub group sub (table r p))).
Proof. apply Unsubscribe_table. Qed.

Lemma unsubscribe_updates_table_witness :
  exists t1 r' err, Subscribe NewMemProvider (str "a") 1 (Some (IPtr 5)) = Ret (t1, 1, None) /\
    Unsubscribe t1 (str "a") (Some (IPtr 5)) = Ret (mkTopics (Some r') (Some newRNode), err) /\
    (Some (IPtr 5) <> None -> err = None <-> True).
Proof.
  destruct (Subscribe_table NewMemProvider newSNode (str "a") 1 (IPtr 5) [str "a"] eq_refl swf_new eq_refl eq_refl)
    as (r1 & H1 & Hw & Ht).
  destruct (unsubscribe_updates_table (mkTopics (Some r1) (Some newRNode)) r1 (str "a") (Some (IPtr 5)) [str "a"]
    eq_refl Hw eq_refl) as (r' & err & H2 & _ & _ & He).
  exists (mkTopics (Some r1) (Some newRNode)), r', err. split; [exact H1|]. split; [exact H2|].
  intros H. rewrite (He H), (Ht [str "a"]). split; [done|]. intros _. eexists. vm_compute. reflexivity.
Defined.

Lemma matched_wf ls n : swf n -> Forall swf (matched ls n).
Proof.
  intros Hn. apply Forall_forall. intros m Hm. apply (matched_paths ls n m Hn) in Hm as (p & Hp & _).
  revert n Hn Hp. induction p as [|l p IH]; intros n Hn Hp; cbn in Hp; [by injection Hp as <-|].
  destruct (aget (snodes n) l) as [c|] eqn:E; [|done]. cbn in Hp. eapply IH; [|exact Hp]. by eapply swf_child.
Qed.

Lemma Subscribers_table intn t r topic pq prev ls :
  sroot t = Some r -> swf r -> intn_ok intn -> ValidQos pq = true -> path_of topic = Some ls ->
  exists ss qs, Subscribers intn t topic pq prev = Ret ((ss, qs), None) /\ length ss = length qs /\
    forall s q, (s, q) ∈ zip ss qs <-> exists p, path_matches p ls = true /\ deliver intn pq s q (table r p).
Proof.
  intros Hr Hw Hi Hq Hl. unfold Subscribers. rewrite Hq, Hr. cbn [negb root]. rewrite bindO_ret.
  unfold path_of in Hl. rewrite (smatch_spec intn _ _ ls r pq ([], []) Hl).
  destruct (match_all_spec intn (matched ls r) pq ([], []) (matched_wf ls r Hw) Hi eq_refl) as ([ss qs] & -> & Hlen & H).
  rewrite bindO_ret. exists ss, qs. split; [done|]. split; [done|]. intros s q. cbn [fst snd] in *. rewrite H.
  assert (Hno : forall s q, ~ deliver intn pq s q ([], [], ∅)).
  { intros s' q' [(g & Hg & _)|(k & gl & Hg & _)]; [by apply not_elem_of_nil in Hg|]. cbn in Hg. by rewrite lookup_empty in Hg. }
  split.
  - intros [Hn|(n & Hn & Hd)]; [by apply not_elem_of_nil in Hn|].
    apply (matched_paths ls r n Hw) in Hn as (p & Hp & Hm). exists p. split; [done|]. unfold table. by rewrite Hp.
  - intros (p & Hm & Hd). right. unfold table in Hd. destruct (node_at p r) as [n|] eqn:Hp; [|by apply Hno in Hd].
    exists n. split; [|done]. apply (matched_paths ls r n Hw). by exists p.
Qed.

(** C14: [Subscribers] returns exactly the subscribers of the filters that match the
    topic: every individual subscriber of a matching path, with the smaller of the
    published and the granted QoS, and one member of every group there, with QoS 1;
    and nobody else. *)
Theorem subscribers_exact intn t r topic pq prev ls :
  sroot t = Some r -> swf r -> intn_ok intn -> ValidQos pq = true -> path_of topic = Some ls ->
  exists ss qs, Subscribers intn t topic pq prev = Ret ((ss, qs), None) /\ length ss = length qs /\
    forall s q, (s, q) ∈ zip ss qs <-> exists p, path_matches p ls = true /\ deliver intn pq s q (table r p).
Proof. apply Subscribers_table. Qed.

Lemma subscribers_exact_witness :
  exists ss qs, Subscribers (fun _ => 0) NewMemProvider (str "a/b") 1 ([], []) = Ret ((ss, qs), None) /\
    length ss = length qs.
Proof.
  destruct (subscribers_exact (fun _ => 0) NewMemProvider newSNode (str "a/b") 1 ([], []) [str "a"; str "b"]
    eq_refl swf_new) as (ss & qs & H1 & H2 & _).
  - intros gl Hgl. destruct gl; [congruence|]. rewrite zlen_cons. pose proof (zlen_nonneg gl). lia.
  - reflexivity.
  - reflexivity.
  - exists ss, qs. split; assumption.
Defined.

Lemma add_sub_delivers intn pq q sub d : length d.1.1 = length d.1.2 -> equal sub sub = true ->
  deliver intn pq sub (Z.min pq q) (add_sub [] q sub d).
Proof.
  intros Hl He. destruct d as [[ss qs] gs]. cbn [fst snd] in Hl. left. exists q. split; [|done]. unfold add_sub.
  destruct (find_sub ss sub) as [i|] eqn:Ef; cbn [fst snd].
  - assert (Hi : ss !! i = Some sub).
    { clear Hl He. revert i Ef. induction ss as [|x ss IH]; intros i; cbn; [done|]. destruct (equal x sub) eqn:E.
      - intros [= <-]. unfold equal in E. destruct x; try done; apply bool_decide_eq_true_1 in E; by subst.
      - destruct (find_sub ss sub) as [j|]; cbn; [|done]. intros [= <-]. by apply IH. }
    apply list_elem_of_lookup. exists i. apply lookup_zip_Some. split; [done|].
    apply list_lookup_insert_eq. apply lookup_lt_Some in Hi. lia.
  - rewrite zip_app_eq by done. apply elem_of_app. right. by apply list_elem_of_singleton.
Qed.

(** A subscriber is served: on any well-formed tree, after [Subscribe] to a
    filter (not a group filter) with QoS [q], a publication of QoS [pq] on any
    topic the filter matches has the subscriber among its receivers, with the
    smaller of the two QoS. *)
Theorem subscribe_delivers intn t r fl q sub prev ls pq topic :
  sroot t = Some r -> swf r -> intn_ok intn -> ValidQos q = true -> ValidQos pq = true ->
  filter_ok fl = true -> getGroupName (join fl) = ([], join fl) -> equal sub sub = true ->
  path_of topic = Some ls -> path_matches fl ls = true ->
  exists t' ss qs, Subscribe t (join fl) q (Some sub) = Ret (t', q, None) /\
    Subscribers intn t' topic pq prev = Ret ((ss, qs), None) /\ (sub, Z.min pq q) ∈ zip ss qs.
Proof.
  intros Hr Hw Hi Hq Hpq Hok Hg He Hl Hm.
  destruct (Subscribe_table t r (join fl) q sub fl Hr Hw Hq) as (r' & E & Hw' & Ht).
  { rewrite Hg. cbn [snd]. apply levels_join; [done|lia]. }
  destruct (Subscribers_table intn (mkTopics (Some r') (rroot t)) r' topic pq prev ls eq_refl Hw' Hi Hpq Hl)
    as (ss & qs & E2 & _ & Hss).
  exists (mkTopics (Some r') (rroot t)), ss, qs. split; [done|]. split; [done|]. apply Hss.
  exists fl. split; [done|]. rewrite Ht, decide_True, Hg by done. apply add_sub_delivers; [|done].
  assert (Hd : swf (default newSNode (node_at fl r))).
  { destruct (node_at fl r) as [m|] eqn:Em; [|apply swf_new]. clear -Hw Em. revert r Hw Em.
    induction fl as [|l p IH]; intros n Hn Hp; cbn in Hp; [by injection Hp as <-|].
    destruct (aget (snodes n) l) as [c|] eqn:E; [|done]. cbn in Hp. eapply IH; [|exact Hp]. by eapply swf_child. }
  unfold table, data. cbn [fst snd]. by inversion Hd.
Qed.

Lemma subscribe_delivers_witness :
  exists t' ss qs, Subscribe NewMemProvider (str "a/#") 1 (Some (IPtr 5)) = Ret (t', 1, None) /\
    Subscribers (fun _ => 0) t' (str "a/b/c") 2 ([], []) = Ret ((ss, qs), None) /\ (IPtr 5, 1) ∈ zip ss qs.
Proof.
  apply (subscribe_delivers (fun _ => 0) NewMemProvider newSNode [str "a"; str "#"] 1 (IPtr 5) ([], [])
    [str "a"; str "b"; str "c"] 2 (str "a/b/c") eq_refl swf_new).
  - intros gl Hgl. destruct gl; [congruence|]. rewrite zlen_cons. pose proof (zlen_nonneg gl). lia.
  - reflexivity.
  - reflexivity.
  - reflexivity.
  - reflexivity.
  - reflexivity.
  - reflexivity.
  - reflexivity.
Defined.

(** is subscriber 5, alone in the tree with [filter], served a publication on [topic]? *)
Definition served (filter topic : list Z) : bool :=
  match Subscribe NewMemProvider filter 1 (Some (IPtr 5)) with
  | Ret (t, _, None) => match Subscribers (fun _ => 0) t topic 1 ([], []) with
                        | Ret ((ss, _), None) => bool_decide (IPtr 5 ∈ ss) | _ => false end
  | _ => false
  end.

(** Three places where matching is not what the package documents: a subscription
    to ["a/#"] is not served a publication on the parent ["a"]; a filter with a
    leading slash is stored with a wildcard, so ["/a"] is served ["x/a"]; and a
    group filter keeps the slash before its topic, so a member of the group for
    ["a"] is not served ["a"] but ["x/a"]. *)
Theorem matching_divergences :
  served (str "a/#") (str "a") = false /\ served (str "a/#") (str "a/b") = true /\
  served (str "/a") (str "x/a") = true /\
  served (str "$group/g/a") (str "a") = false /\ served (str "$group/g/a") (str "x/a") = true.
Proof. vm_compute. repeat split; reflexivity. Qed.
