(* ===== verification/TopicManager.v ===== *)
(** * TopicManager: providers of topics, their registry and the manager
      ([topics/topics.go])

    The interface [TopicsProvider] as a class with the promise a client relies on,
    the topic trees as its instance, the manager that forwards to it and the
    registry of providers by name. *)
From stdpp Require Import base list strings gmap.
From Stdlib Require Import ZArith Lia.
From S2P Require Import Prelude GoLang MsgTypes Publish Topics TopicsSpec.

Class TopicsProvider (P : Type) : Type := {
  pv_Subscribe : P -> list Z -> Z -> option iface -> outcome (P * Z * option error);
  pv_Unsubscribe : P -> list Z -> option iface -> outcome (P * option error);
  pv_Subscribers : (list iface -> Z) -> P -> list Z -> Z -> list iface * list Z -> outcome ((list iface * list Z) * option error);
  pv_Retain : P -> Z -> PublishMessage -> outcome (P * Z * PublishMessage * option error);
  pv_Retained : P -> list Z -> list PublishMessage -> outcome (list PublishMessage * option error);
  pv_Close : P -> P * option error
}.

#[export] Instance memTopics_provider : TopicsProvider memTopics := {|
  pv_Subscribe := Subscribe; pv_Unsubscribe := Unsubscribe; pv_Subscribers := Subscribers;
  pv_Retain := Retain; pv_Retained := Retained; pv_Close := Close
|}.

(** a subscriber whose filter, not a group filter, matches a topic is served what
    is published on it, at the smaller of the two QoS *)
Definition serves {P} `{TopicsProvider P} (p : P) (fl : list (list Z)) (q : Z) (sub : iface) : Prop :=
  forall intn prev pq topic ls, intn_ok intn -> ValidQos pq = true -> path_of topic = Some ls -> path_matches fl ls = true ->
  exists ss qs, pv_Subscribers intn p topic pq prev = Ret ((ss, qs), None) /\ (sub, Z.min pq q) ∈ zip ss qs.

Class TopicsLaws (P : Type) `{TopicsProvider P} : Type := {
  tp_open : P -> Prop;
  tp_subscribe p fl q sub : tp_open p -> ValidQos q = true -> filter_ok fl = true ->
    getGroupName (join fl) = ([], join fl) -> equal sub sub = true ->
    exists p', pv_Subscribe p (join fl) q (Some sub) = Ret (p', q, None) /\ tp_open p' /\ serves p' fl q sub
}.

#[export, refine] Instance memTopics_laws : TopicsLaws memTopics := {|
  tp_open t := exists r, sroot t = Some r /\ swf r
|}.
Proof.
  intros t fl q sub (r & Hr & Hw) Hq Hok Hg He.
  destruct (Subscribe_table t r (join fl) q sub fl Hr Hw Hq) as (r' & E & Hw' & _).
  { rewrite Hg. cbn [snd]. apply levels_join; [done|lia]. }
  exists (mkTopics (Some r') (rroot t)). split; [exact E|]. split; [by exists r'|].
  intros intn prev pq topic ls Hi Hpq Hl Hm.
  destruct (subscribe_delivers intn t r fl q sub prev ls pq topic Hr Hw Hi Hq Hpq Hok Hg He Hl Hm) as (t2 & ss & qs & E2 & E3 & Hin).
  cbn [pv_Subscribe memTopics_provider] in E. rewrite E in E2. injection E2 as <-. by exists ss, qs.
Defined.

Section Manager.
Context {P : Type} `{TopicsProvider P}.

Definition ErrAuthFailure : error := ErrorsNew "auth: Authentication failure".
Definition ErrAuthProviderNotFound : error := ErrorsNew "auth: Authentication provider not found".

(** the registry; [None] is a nil provider.  A manager is the provider it found;
    its state is passed from one call to the next. *)
Definition Register (reg : gmap string P) (name : string) (p : option P) : outcome (gmap string P) :=
  match p with
  | None => Panic (CustomPanic "topics: Register provide is nil")
  | Some p =>
      match reg !! name with
      | Some _ => Panic (CustomPanic ("topics: Register called twice for provider " +:+ name))
      | None => Ret (<[name:=p]> reg)
      end
  end.

Definition Unregister (reg : gmap string P) (name : string) : gmap string P := delete name reg.

Definition NewManager (reg : gmap string P) (name : string) : P + error :=
  match reg !! name with
  | Some p => inl p
  | None => inr (Errorf "session: unknown provider %q" [AStr (str name)])
  end.

Definition mgr_Subscribe (p : P) (topic : list Z) (qos : Z) (sub : option iface) := pv_Subscribe p topic qos sub.
Definition mgr_Unsubscribe (p : P) (topic : list Z) (sub : option iface) := pv_Unsubscribe p topic sub.
Definition mgr_Subscribers (intn : list iface -> Z) (p : P) (topic : list Z) (qos : Z) (prev : list iface * list Z) :=
  pv_Subscribers intn p topic qos prev.
Definition mgr_Retain (p : P) (g : Z) (msg : PublishMessage) := pv_Retain p g msg.
Definition mgr_Retained (p : P) (topic : list Z) (msgs : list PublishMessage) := pv_Retained p topic msgs.
Definition mgr_Close (p : P) := pv_Close p.

(** the registry binds a name once *)
Lemma Register_spec reg name p reg' : Register reg name p = Ret reg' ->
  reg !! name = None /\ (exists pv, p = Some pv /\ NewManager reg' name = inl pv) /\
  (forall n, n <> name -> NewManager reg' n = NewManager reg n) /\
  Unregister reg' name = reg /\ panics (Register reg' name p).
Proof.
  unfold Register, NewManager, Unregister. destruct p as [pv|]; [|done]. destruct (reg !! name) eqn:E; [done|]. intros [= <-].
  split; [done|]. split; [exists pv; by rewrite lookup_insert_eq|]. split; [intros n Hn; by rewrite lookup_insert_ne|].
  split; [by rewrite delete_insert_id|]. rewrite lookup_insert_eq. by eexists.
Qed.
End Manager.

(** A manager over any provider that keeps the promise serves its subscribers:
    what is found under a registered name takes a subscription and from then on
    delivers to it. *)
Theorem manager_serves {P} `{TopicsLaws P} (reg : gmap string P) name p fl q sub :
  NewManager reg name = inl p -> tp_open p -> ValidQos q = true -> filter_ok fl = true ->
  getGroupName (join fl) = ([], join fl) -> equal sub sub = true ->
  exists p', mgr_Subscribe p (join fl) q (Some sub) = Ret (p', q, None) /\
    forall intn prev pq topic ls, intn_ok intn -> ValidQos pq = true -> path_of topic = Some ls -> path_matches fl ls = true ->
    exists ss qs, mgr_Subscribers intn p' topic pq prev = Ret ((ss, qs), None) /\ (sub, Z.min pq q) ∈ zip ss qs.
Proof.
  intros _ Ho Hq Hok Hg He. destruct (tp_subscribe p fl q sub Ho Hq Hok Hg He) as (p' & E & _ & Hs). exists p'. by split.
Qed.

(** the provider the package registers at start-up *)
Example manager_over_memory :
  exists reg p, Register ∅ "mem" (Some NewMemProvider) = Ret reg /\ NewManager reg "mem" = inl p /\ tp_open p.
Proof. eexists _, NewMemProvider. split; [reflexivity|]. split; [reflexivity|]. exists newSNode. split; [done|apply swf_new]. Qed.
