(* ===== verification/LibRpc.v ===== *)
(** * LibRpc: the clients of the authentication and the push servers
      ([utils/surgemq/surgemq/rpc/auth], [rpc/push])

    A manager holds one client per server address and takes the next healthy one, in
    turn.  The two packages have the same manager and differ in the calls of a client;
    [Push] is the second one's.

    grpc is a parameter: [Dial] makes a connection or an error, [ready] says whether a
    connection's state is Ready, and the calls of the generated stubs are arguments.
    Log lines are left out. *)
From stdpp Require Import base list strings.
From Stdlib Require Import ZArith Lia.
From S2P Require Import Prelude GoLang GoStrings.

Definition ErrNoAvaliableServer : error := ErrorsNew "no availiable server".

(** ** Clients *)

Record client : Type := mkClient {
  inited : Z;
  svrAddr : list Z;
  authClientOK : bool;
  conn : option Z;
  exitClosed : bool          (* [exitCH] was closed *)
}.

Definition newClient (addr : list Z) : client := mkClient 0 addr false None false.

(** the client, and whether its watcher was started *)
Definition init (c : client) : client * bool :=
  if inited c =? 0 then (mkClient 1 (svrAddr c) (authClientOK c) (conn c) (exitClosed c), true) else (c, false).

Definition fini (c : client) : outcome client :=
  if inited c =? 1 then
    if exitClosed c then Panic (CustomPanic "close of closed channel")
    else Ret (mkClient 0 (svrAddr c) (authClientOK c) (conn c) true)
  else Ret c.

Section Grpc.
Context (Dial : list Z -> Z + error) (ready : Z -> bool).

(** a round of [authClientWatcher]: up to its [select] and through it, when the channel
    was closed or the ticker has ticked; whether it goes on *)
Definition authClientWatcher (c : client) : client * bool :=
  let wait c := (c, negb (exitClosed c)) in
  if authClientOK c then wait c
  else match Dial (svrAddr c) with
       | inl k => (mkClient (inited c) (svrAddr c) true (Some k) (exitClosed c), false)
       | inr _ => wait c
       end.

Definition state (c : client) : outcome bool :=
  if authClientOK c then match conn c with Some k => Ret (ready k) | None => Panic NilDeref end else Ret false.

(** ** The manager *)

Record ClientMgr : Type := mkMgr {
  clients : list client;
  addrList : list (list Z);
  mgr_inited : Z;
  idx : Z
}.

Definition NewClientMgr : ClientMgr := mkMgr [] [] 0 0.

Definition mgr_Init (cm : ClientMgr) (addrs : list Z) : ClientMgr :=
  if mgr_inited cm =? 0 then
    let l := Split addrs 44 in
    mkMgr (clients cm ++ map (fun addr => fst (init (newClient addr))) l) l 1 (idx cm)
  else cm.

Fixpoint fini_all (l : list client) : outcome (list client) :=
  match l with
  | [] => Ret []
  | c :: l => let! c := fini c in let! l := fini_all l in Ret (c :: l)
  end.

Definition mgr_Fini (cm : ClientMgr) : outcome ClientMgr :=
  if mgr_inited cm =? 1 then let! l := fini_all (clients cm) in Ret (mkMgr l (addrList cm) 0 (idx cm)) else Ret cm.

(** the loop of [getClient]; [fuel]: one per client *)
Fixpoint health_check (fuel : nat) (l : list client) (i0 i n : Z) : outcome (option client) :=
  match fuel with
  | O => Ret None
  | S fuel =>
      if i <? n then
        let! c := index l (Z.rem (i32 (i0 + i)) n) in
        let! b := state c in
        if b then Ret (Some c) else health_check fuel l i0 (i32 (i + 1)) n
      else Ret None
  end.

Definition getClient (cm : ClientMgr) : outcome (ClientMgr * option client) :=
  match clients cm with
  | [] => Ret (cm, None)
  | l =>
      let n := i32 (zlen l) in
      let k := i64 (idx cm + 1) in
      let! r := health_check (length l) l (i32 (Z.rem k n)) 0 n in
      Ret (mkMgr l (addrList cm) (mgr_inited cm) k, r)
  end.

(** [cm.Auth], [cm.Login] and [cm.Logout] with the call of the client *)
Definition on_client (f : client -> option error) (cm : ClientMgr) : outcome (ClientMgr * option error) :=
  let! (cm, o) := getClient cm in
  Ret (cm, match o with Some c => f c | None => Some ErrNoAvaliableServer end).

(** [AuthCall], [LoginCall], [LogoutCall]: the stub's calls over a connection, within a
    second; [OK] connections only *)
Context (AuthCall : option Z -> list Z -> list Z -> list Z -> list Z -> option error)
        (LoginCall LogoutCall : option Z -> list Z -> list Z -> list Z -> option error).

Definition client_auth (clientId pk dn password : list Z) (c : client) := AuthCall (conn c) clientId pk dn password.
Definition client_login (pk dn nid : list Z) (c : client) := LoginCall (conn c) pk dn nid.
Definition client_logout (pk dn nid : list Z) (c : client) := LogoutCall (conn c) pk dn nid.
Definition client_push (pid did : list Z) (message : list Z) (c : client) : option error := None.

Definition mgr_Auth (cm : ClientMgr) (clientid pid did password : list Z) := on_client (client_auth clientid pid did password) cm.
Definition mgr_Login (cm : ClientMgr) (pid did nid : list Z) := on_client (client_login pid did nid) cm.
Definition mgr_Logout (cm : ClientMgr) (pid did nid : list Z) := on_client (client_logout pid did nid) cm.
Definition mgr_Push (cm : ClientMgr) (pid did message : list Z) := on_client (client_push pid did message) cm.

(** ** The package's manager, nil before [Init] *)

Definition Init (d : option ClientMgr) (addrs : list Z) : option ClientMgr * option error :=
  match d with Some _ => (d, None) | None => (Some (mgr_Init NewClientMgr addrs), None) end.

Definition with_default {A} (d : option ClientMgr) (f : ClientMgr -> outcome A) : outcome A :=
  match d with Some cm => f cm | None => Panic NilDeref end.

Definition Fini (d : option ClientMgr) : outcome ClientMgr := with_default d mgr_Fini.
Definition Auth (d : option ClientMgr) (clientid pid did password : list Z) := with_default d (fun cm => mgr_Auth cm clientid pid did password).
Definition Login (d : option ClientMgr) (pid did nid : list Z) := with_default d (fun cm => mgr_Login cm pid did nid).
Definition Logout (d : option ClientMgr) (pid did nid : list Z) := with_default d (fun cm => mgr_Logout cm pid did nid).
Definition Push (d : option ClientMgr) (pid did message : list Z) := with_default d (fun cm => mgr_Push cm pid did message).

(** ** Which client is taken *)

(** a client that has dialled has its connection *)
Definition client_ok (c : client) : Prop := authClientOK c = true -> is_Some (conn c).

Definition healthy (c : client) : bool := authClientOK c && match conn c with Some k => ready k | None => false end.

Lemma state_healthy c : client_ok c -> state c = Ret (healthy c).
Proof. unfold client_ok, state, healthy. destruct (authClientOK c); [|done]. intros [k ->]; done. Qed.

Lemma watcher_ok c : client_ok c -> client_ok (fst (authClientWatcher c)).
Proof.
  intros H. unfold authClientWatcher. destruct (authClientOK c) eqn:E; [done|]. destruct (Dial _); [by eexists|done].
Qed.

(** the clients from position [k] on, around the list *)
Lemma health_check_spec l k : Forall client_ok l -> zlen l < 2 ^ 30 -> 0 <= k < zlen l ->
  forall fuel i, zlen l - i <= Z.of_nat fuel -> 0 <= i <= zlen l ->
  health_check fuel l k i (zlen l) = Ret (List.find healthy (drop (Z.to_nat i) (rotate (Z.to_nat k) l))).
Proof.
  intros Hok Hl Hk. assert (Hlen : length (rotate (Z.to_nat k) l) = length l) by apply length_rotate.
  induction fuel as [|fuel IH]; intros i Hf Hi.
  - cbn [health_check]. rewrite drop_ge; [done|]. rewrite Hlen. unfold zlen in *. lia.
  - cbn [health_check]. destruct (i <? zlen l) eqn:E.
    2:{ rewrite drop_ge; [done|]. rewrite Hlen. unfold zlen in *. lia. }
    destruct (lookup_lt_is_Some_2 (rotate (Z.to_nat k) l) (Z.to_nat i)) as [c Hc]; [rewrite Hlen; unfold zlen in *; lia|].
    assert (Hix : index l (Z.rem (i32 (k + i)) (zlen l)) = Ret c).
    { rewrite i32_small, Z.rem_mod_nonneg by lia. apply index_lookup; [apply Z.mod_pos_bound; lia|].
      assert (Hr : rotate (Z.to_nat k) l !! Z.to_nat i = l !! rotate_nat_add (Z.to_nat k) (Z.to_nat i) (length l)).
      { apply lookup_rotate_r. unfold zlen in *. lia. }
      rewrite Hr in Hc. rewrite <- Hc. f_equal. unfold rotate_nat_add. by rewrite !Z2Nat.id by lia. }
    rewrite Hix, bindO_ret. assert (Hcl : client_ok c).
    { apply index_inv in Hix as [_ Hix]. by eapply Forall_lookup_1 in Hix. }
    rewrite state_healthy, bindO_ret by done. rewrite (drop_S _ _ _ Hc). cbn [List.find]. destruct (healthy c); [done|].
    rewrite i32_small by lia. rewrite IH by lia. by replace (Z.to_nat (i + 1)) with (S (Z.to_nat i)) by lia.
Qed.

(** C39: The manager takes its servers in turn and skips those that are down.  With [n]
    clients, [getClient] does not panic, moves its counter on by one, and returns the
    first healthy client in the list read from position [idx + 1] modulo [n] around to
    its start; it returns none just when every client is down, and the client at the
    position itself whenever that one is healthy. *)
Theorem getClient_round_robin cm : clients cm <> [] -> Forall client_ok (clients cm) -> zlen (clients cm) < 2 ^ 30 ->
  0 <= idx cm < 2 ^ 63 - 1 ->
  getClient cm = Ret (mkMgr (clients cm) (addrList cm) (mgr_inited cm) (idx cm + 1),
    List.find healthy (rotate (Z.to_nat ((idx cm + 1) mod zlen (clients cm))) (clients cm))) /\
  (List.find healthy (rotate (Z.to_nat ((idx cm + 1) mod zlen (clients cm))) (clients cm)) = None <->
     Forall (fun c => healthy c = false) (clients cm)) /\
  (forall c, clients cm !! Z.to_nat ((idx cm + 1) mod zlen (clients cm)) = Some c -> healthy c = true ->
     List.find healthy (rotate (Z.to_nat ((idx cm + 1) mod zlen (clients cm))) (clients cm)) = Some c).
Proof.
  intros Hne Hok Hl Hi. assert (Hpos : 0 < zlen (clients cm)) by (destruct (clients cm); [done|zl]).
  pose proof (Z.mod_pos_bound (idx cm + 1) _ Hpos) as Hm. set (k := (idx cm + 1) mod zlen (clients cm)) in *. split; [|split].
  - assert (E : getClient cm = let! r := health_check (length (clients cm)) (clients cm)
        (i32 (Z.rem (i64 (idx cm + 1)) (i32 (zlen (clients cm))))) 0 (i32 (zlen (clients cm))) in
      Ret (mkMgr (clients cm) (addrList cm) (mgr_inited cm) (i64 (idx cm + 1)), r)).
    { unfold getClient. by destruct (clients cm). }
    rewrite E, (i32_small (zlen _)), i64_small, Z.rem_mod_nonneg by lia. fold k. rewrite (i32_small k) by lia.
    rewrite health_check_spec by (done || (unfold zlen; lia)). by rewrite bindO_ret.
  - rewrite Forall_forall. split.
    + intros H c Hc. apply (List.find_none healthy _ H). apply list_elem_of_In. by apply elem_of_rotate.
    + intros H. destruct (List.find _ _) as [c|] eqn:Ef; [|done]. apply List.find_some in Ef as [Hin Hh].
      apply list_elem_of_In, elem_of_rotate in Hin. by rewrite H in Hh.
  - intros c Hc Hh. unfold rotate. rewrite Nat.mod_small by (unfold zlen in *; lia). rewrite (drop_S _ _ _ Hc). cbn. by rewrite Hh.
Qed.
End Grpc.

(** three servers of which the second is down, after four calls *)
Definition three : ClientMgr :=
  mkMgr [mkClient 1 (str "a") true (Some 0) false; mkClient 1 (str "b") true (Some 1) false; mkClient 1 (str "c") true (Some 2) false]
        [str "a"; str "b"; str "c"] 1 3.

Lemma getClient_round_robin_witness :
  getClient (fun k => negb (k =? 1)) three
    = Ret (mkMgr (clients three) (addrList three) 1 4, Some (mkClient 1 (str "c") true (Some 2) false)).
Proof.
  destruct (getClient_round_robin (fun k => negb (k =? 1)) three) as [H _].
  - discriminate.
  - repeat constructor; intros _; eexists; reflexivity.
  - reflexivity.
  - vm_compute. split; [discriminate|reflexivity].
  - rewrite H. reflexivity.
Defined.

(** the counter wraps to a negative number, and so does the position *)
Lemma getClient_wraps_panics : panics (getClient (fun _ => true) (mkMgr (clients three) [] 1 (2 ^ 63 - 1))).
Proof. eexists. vm_compute. reflexivity. Qed.
