(* ===== verification/LibWorld.v ===== *)
(** * LibWorld: the state of the library's clients and servers
      ([utils/surgemq/surgemq/service]: the structs of service.go, server.go)

    One world holds every service, client or server side, and what they share by
    pointer: connections, sessions, topic trees, the functions that subscribers are.
    A ring buffer is the queue of bytes it refines ([Buffer], [buffer_is_queue]); its
    writers do not interleave ([Outgoing]).

    A handler returns, panics or is stuck for ever: a message that is larger than the
    ring, a send on a channel that nobody receives from. *)
From stdpp Require Import base list strings gmap.
From Stdlib Require Import ZArith Lia.
From S2P Require Import Prelude GoLang NetConn Connectivity MsgTypes Publish Connect Message LibQueue LibSession Topics.

(** ** Functions as values *)

(** an [OnCompleteFunc] in a queue: nil, a function of the caller, the closures that
    [subscribe] and [unsubscribe] make around one *)
Inductive completion : Type :=
| OcNil
| OcCaller (k : Z)
| OcSubscribe (svc : Z) (k : option Z) (onPublish : Z)
| OcUnsubscribe (svc : Z) (k : option Z).

(** an [OnPublishFunc]: nil, the closure of [start], a function of the caller *)
Inductive publication : Type :=
| PubNil
| PubService (svc : Z)
| PubCaller (k : Z).

(** the calls of functions of the caller, in order *)
Inductive event : Type :=
| ECompleted (k : Z) (msg : Message) (ack : option Message) (err : option error)
| EDelivered (k : Z) (msg : PublishMessage).

(** ** Services *)

Record stat : Type := mkStat { st_bytes : Z; st_msgs : Z }.

Definition stat_increment (s : stat) (n : Z) : stat := mkStat (i64 (st_bytes s + n)) (i64 (st_msgs s + 1)).

(** [rg_done]: [Close] was called *)
Record ring : Type := mkRing { rg_bytes : list Z; rg_done : bool }.

Definition new_ring : ring := mkRing [] false.
Definition ring_close (r : ring) : ring := mkRing (rg_bytes r) true.
Definition ring_append (b : list Z) (r : ring) : ring := mkRing (rg_bytes r ++ b) (rg_done r).

Inductive channel : Type := ChNil | ChOpen | ChClosed.

(** the fields that are set once *)
Record svc_conf : Type := mkConf {
  svc_id : Z;
  client : bool;
  productKey : list Z;
  deviceName : list Z;
  nodeID : list Z;
  keepAlive : Z;
  connectTimeout : Z;
  ackTimeout : Z;
  timeoutRetries : Z;
  has_sessMgr : bool;
  onpub : Z                  (* the address of the field [onpub] *)
}.

(** [conn], [sess], [topicsMgr], [in] and [out] are pointers.  [beat]: the seconds of
    the receiver's [timeoutReader], once the receiver runs.  [subs], [qoss] and [rmsgs]
    are scratch space and left out. *)
Record service : Type := mkService {
  cfg : svc_conf;
  conn : option Z;
  sess : option Z;
  topicsMgr : option Z;
  closed : bool;
  done_closed : bool;
  keepAliveCH : channel;
  inb : option ring;
  outb : option ring;
  beat : option Z;
  inStat : stat;
  outStat : stat;
  csMgr : csm
}.

Definition set_conn c s := mkService (cfg s) c (sess s) (topicsMgr s) (closed s) (done_closed s) (keepAliveCH s) (inb s) (outb s) (beat s) (inStat s) (outStat s) (csMgr s).
Definition set_sess x s := mkService (cfg s) (conn s) x (topicsMgr s) (closed s) (done_closed s) (keepAliveCH s) (inb s) (outb s) (beat s) (inStat s) (outStat s) (csMgr s).
Definition set_topicsMgr x s := mkService (cfg s) (conn s) (sess s) x (closed s) (done_closed s) (keepAliveCH s) (inb s) (outb s) (beat s) (inStat s) (outStat s) (csMgr s).
Definition set_closed s := mkService (cfg s) (conn s) (sess s) (topicsMgr s) true (done_closed s) (keepAliveCH s) (inb s) (outb s) (beat s) (inStat s) (outStat s) (csMgr s).
Definition set_done s := mkService (cfg s) (conn s) (sess s) (topicsMgr s) (closed s) true (keepAliveCH s) (inb s) (outb s) (beat s) (inStat s) (outStat s) (csMgr s).
Definition set_ka x s := mkService (cfg s) (conn s) (sess s) (topicsMgr s) (closed s) (done_closed s) x (inb s) (outb s) (beat s) (inStat s) (outStat s) (csMgr s).
Definition set_bufs i o s := mkService (cfg s) (conn s) (sess s) (topicsMgr s) (closed s) (done_closed s) (keepAliveCH s) i o (beat s) (inStat s) (outStat s) (csMgr s).
Definition set_beat x s := mkService (cfg s) (conn s) (sess s) (topicsMgr s) (closed s) (done_closed s) (keepAliveCH s) (inb s) (outb s) x (inStat s) (outStat s) (csMgr s).
Definition set_stats i o s := mkService (cfg s) (conn s) (sess s) (topicsMgr s) (closed s) (done_closed s) (keepAliveCH s) (inb s) (outb s) (beat s) i o (csMgr s).
Definition set_csm m s := mkService (cfg s) (conn s) (sess s) (topicsMgr s) (closed s) (done_closed s) (keepAliveCH s) (inb s) (outb s) (beat s) (inStat s) (outStat s) m.

(** ** The server *)

(** [authMgr] is the authenticator found, [has_sessMgr] of the services the session
    manager; [svcMap] is nil before [Init] *)
Record Server : Type := mkServer {
  KeepAlive : Z;
  ConnectTimeout : Z;
  AckTimeout : Z;
  TimeoutRetries : Z;
  Authenticator : string;
  SessionsProvider : string;
  TopicsProvider : string;
  authMgr : option bool;
  sessMgr : bool;
  srv_topics : option Z;
  quit : channel;
  ln : option bool;                  (* the listener, and whether it was closed *)
  srv_nodeID : list Z;
  svcMap : option (gmap (list Z) Z);
  running : Z;
  configured : bool;                 (* [configOnce] has run *)
  authServers : list Z
}.

Definition set_svcMap m s := mkServer (KeepAlive s) (ConnectTimeout s) (AckTimeout s) (TimeoutRetries s) (Authenticator s) (SessionsProvider s) (TopicsProvider s) (authMgr s) (sessMgr s) (srv_topics s) (quit s) (ln s) (srv_nodeID s) m (running s) (configured s) (authServers s).
Definition set_listener q l s := mkServer (KeepAlive s) (ConnectTimeout s) (AckTimeout s) (TimeoutRetries s) (Authenticator s) (SessionsProvider s) (TopicsProvider s) (authMgr s) (sessMgr s) (srv_topics s) q l (srv_nodeID s) (svcMap s) (running s) (configured s) (authServers s).
Definition set_running r s := mkServer (KeepAlive s) (ConnectTimeout s) (AckTimeout s) (TimeoutRetries s) (Authenticator s) (SessionsProvider s) (TopicsProvider s) (authMgr s) (sessMgr s) (srv_topics s) (quit s) (ln s) (srv_nodeID s) (svcMap s) r (configured s) (authServers s).
Definition set_nodeID n s := mkServer (KeepAlive s) (ConnectTimeout s) (AckTimeout s) (TimeoutRetries s) (Authenticator s) (SessionsProvider s) (TopicsProvider s) (authMgr s) (sessMgr s) (srv_topics s) (quit s) (ln s) n (svcMap s) (running s) (configured s) (authServers s).
Definition set_authServers a s := mkServer (KeepAlive s) (ConnectTimeout s) (AckTimeout s) (TimeoutRetries s) (Authenticator s) (SessionsProvider s) (TopicsProvider s) (authMgr s) (sessMgr s) (srv_topics s) (quit s) (ln s) (srv_nodeID s) (svcMap s) (running s) (configured s) a.

(** ** The world *)

Record world : Type := mkWorld {
  svcs : gmap Z service;
  conns : gmap Z Conn;
  sessions : heap completion;
  store : memProvider;               (* the sessions of the "mem" provider *)
  trees : gmap Z memTopics;
  providers : gmap (list Z) Z;       (* the registry of topic providers *)
  funs : gmap Z publication;         (* [OnPublishFunc] variables by address *)
  next : Z;                          (* the next address *)
  gid : Z;                           (* gPacketId *)
  gsvcid : Z;
  calls : list event;
  srv : Server
}.

Definition set_svcs x w := mkWorld x (conns w) (sessions w) (store w) (trees w) (providers w) (funs w) (next w) (gid w) (gsvcid w) (calls w) (srv w).
Definition set_conns x w := mkWorld (svcs w) x (sessions w) (store w) (trees w) (providers w) (funs w) (next w) (gid w) (gsvcid w) (calls w) (srv w).
Definition set_sessions x w := mkWorld (svcs w) (conns w) x (store w) (trees w) (providers w) (funs w) (next w) (gid w) (gsvcid w) (calls w) (srv w).
Definition set_store x w := mkWorld (svcs w) (conns w) (sessions w) x (trees w) (providers w) (funs w) (next w) (gid w) (gsvcid w) (calls w) (srv w).
Definition set_trees x w := mkWorld (svcs w) (conns w) (sessions w) (store w) x (providers w) (funs w) (next w) (gid w) (gsvcid w) (calls w) (srv w).
Definition set_providers x w := mkWorld (svcs w) (conns w) (sessions w) (store w) (trees w) x (funs w) (next w) (gid w) (gsvcid w) (calls w) (srv w).
Definition set_funs x w := mkWorld (svcs w) (conns w) (sessions w) (store w) (trees w) (providers w) x (next w) (gid w) (gsvcid w) (calls w) (srv w).
Definition set_next x w := mkWorld (svcs w) (conns w) (sessions w) (store w) (trees w) (providers w) (funs w) x (gid w) (gsvcid w) (calls w) (srv w).
Definition set_gid x w := mkWorld (svcs w) (conns w) (sessions w) (store w) (trees w) (providers w) (funs w) (next w) x (gsvcid w) (calls w) (srv w).
Definition set_gsvcid x w := mkWorld (svcs w) (conns w) (sessions w) (store w) (trees w) (providers w) (funs w) (next w) (gid w) x (calls w) (srv w).
Definition set_calls x w := mkWorld (svcs w) (conns w) (sessions w) (store w) (trees w) (providers w) (funs w) (next w) (gid w) (gsvcid w) x (srv w).
Definition set_srv x w := mkWorld (svcs w) (conns w) (sessions w) (store w) (trees w) (providers w) (funs w) (next w) (gid w) (gsvcid w) (calls w) x.

(** ** Handlers *)

Inductive result (A : Type) : Type :=
| Ok (a : A)
| Crash (p : panic)
| Stuck.
Arguments Ok {A} a.
Arguments Crash {A} p.
Arguments Stuck {A}.

Definition M (A : Type) : Type := world -> result A * world.

Definition retM {A} (a : A) : M A := fun w => (Ok a, w).
Definition bindM {A B} (m : M A) (k : A -> M B) : M B := fun w =>
  match m w with
  | (Ok a, w) => k a w
  | (Crash p, w) => (Crash p, w)
  | (Stuck, w) => (Stuck, w)
  end.
Definition crash {A} (p : panic) : M A := fun w => (Crash p, w).
Definition stuck {A} : M A := fun w => (Stuck, w).
Definition lift {A} (o : outcome A) : M A := fun w => (match o with Ret a => Ok a | Panic p => Crash p end, w).
Definition gets {A} (f : world -> A) : M A := fun w => (Ok (f w), w).
Definition modify (f : world -> world) : M unit := fun w => (Ok tt, f w).

(** [defer func() { if r := recover(); r != nil { h } }()]; [h] may panic itself *)
Definition handled {A} (m h : M A) : M A := fun w =>
  match m w with
  | (Crash _, w) => h w
  | r => r
  end.

(** a pointer dereference *)
Definition deref {A} (o : option A) : M A := match o with Some a => retM a | None => crash NilDeref end.

Declare Scope lib_scope.
Delimit Scope lib_scope with lib.
Notation "'do' x <- m ;; k" := (bindM m (fun x => k))
  (at level 20, x pattern, m at level 99, k at level 200, right associativity) : lib_scope.
Notation "m ;;; k" := (bindM m (fun _ => k))
  (at level 100, k at level 200, right associativity) : lib_scope.
#[global] Open Scope lib_scope.

Lemma lbind_ret {A B} (a : A) (k : A -> M B) w : bindM (retM a) k w = k a w.
Proof. reflexivity. Qed.
Lemma lbind_gets {A B} (f : world -> A) (k : A -> M B) w : bindM (gets f) k w = k (f w) w.
Proof. reflexivity. Qed.
Lemma lbind_modify {B} f (k : unit -> M B) w : bindM (modify f) k w = k tt (f w).
Proof. reflexivity. Qed.
Lemma lbind_lift {A B} (a : A) (k : A -> M B) w : bindM (lift (Ret a)) k w = k a w.
Proof. reflexivity. Qed.
Lemma lbind_deref {A B} (a : A) (k : A -> M B) w : bindM (deref (Some a)) k w = k a w.
Proof. reflexivity. Qed.
Lemma lbind_assoc {A B D} (m : M A) (k : A -> M B) (h : B -> M D) w :
  bindM (bindM m k) h w = bindM m (fun a => bindM (k a) h) w.
Proof. unfold bindM. by destruct (m w) as [[a|p|] w1]. Qed.

Create Rewrite HintDb lib.
#[export] Hint Rewrite @lbind_ret @lbind_gets @lbind_modify @lbind_lift @lbind_deref @lbind_assoc : lib.

Lemma lbind_step {A B} (m : M A) (k : A -> M B) w a w' : m w = (Ok a, w') -> bindM m k w = k a w'.
Proof. intros H. unfold bindM. by rewrite H. Qed.

Lemma lbind_crash {A B} (m : M A) (k : A -> M B) w p w' : m w = (Crash p, w') -> bindM m k w = (Crash p, w').
Proof. intros H. unfold bindM. by rewrite H. Qed.

Lemma lbind_inv {A B} (m : M A) (k : A -> M B) w b w' : bindM m k w = (Ok b, w') ->
  exists a w1, m w = (Ok a, w1) /\ k a w1 = (Ok b, w').
Proof. unfold bindM. destruct (m w) as [[a|p|] w1]; [|done..]. intros H. by exists a, w1. Qed.

(** ** Access to the shared objects *)

Definition get_svc (this : Z) : M service := do o <- gets (fun w => svcs w !! this) ;; deref o.
Definition upd_svc (this : Z) (f : service -> service) : M unit :=
  do s <- get_svc this ;; modify (fun w => set_svcs (<[this:=f s]> (svcs w)) w).

(** [this.sess]: its location and its contents *)
Definition get_sess (this : Z) : M (Z * Session completion) :=
  do s <- get_svc this ;;
  do l <- deref (sess s) ;;
  do o <- gets (fun w => cells (sessions w) !! l) ;;
  do ss <- deref o ;;
  retM (l, ss).

Definition put_sess (l : Z) (ss : Session completion) : M unit :=
  modify (fun w => set_sessions (set_cell l ss (sessions w)) w).

(** [this.topicsMgr]: the location of its provider and the provider *)
Definition get_tree (this : Z) : M (Z * memTopics) :=
  do s <- get_svc this ;;
  do l <- deref (topicsMgr s) ;;
  do o <- gets (fun w => trees w !! l) ;;
  do t <- deref o ;;
  retM (l, t).

Definition put_tree (l : Z) (t : memTopics) : M unit := modify (fun w => set_trees (<[l:=t]> (trees w)) w).

(** a new object *)
Definition fresh_loc : M Z := do n <- gets next ;; modify (set_next (n + 1)) ;;; retM n.

Definition record_call (e : event) : M unit := modify (fun w => set_calls (calls w ++ [e]) w).
