(* ===== verification/LibService.v ===== *)
(** * LibService: the packet handlers of the library
      ([utils/surgemq/surgemq/service]: process.go, service.go, [writeMessage] and
      [updateHeartbeat] of sendrecv.go, keepalive.go)

    The service of a connection, on the client's side or the server's.  A server
    routes what it receives to the subscribers of its topic tree: other services of
    the same server.  A client's tree leads to functions of the application.

    Parameters: [intn] picks a member of a group; [answer] is what a function of the
    application returns; [rpcLogin] and [rpcLogout] are what [Login] and [Logout] of
    rpc/auth ([LibRpc]) return; [joined] says of a service whether its goroutines all
    end once its connection and its rings are closed (one that waits in a ring need
    not: [BufferSys.close_deadlocks_producer]).  Functions of the application do not
    call back into the library.  Log lines are left out, but for the identifiers that
    [stop] makes for them, which panic when there is no session. *)
From stdpp Require Import base list strings gmap.
From Stdlib Require Import ZArith Lia.
From S2P Require Import Prelude GoLang GoStrings NetConn Framing Connectivity MsgTypes Header Publish Connect Message.
From S2P Require Import LibQueue LibSession LibWorld.
From S2P Require Topics TopicManager Buffer.

#[local] Existing Instance TopicManager.memTopics_provider.

Definition errDisconnect : error := ErrorsNew "Disconnect".
Definition ErrBufferNotReady : error := ErrorsNew "service: buffer is not ready".

(** ** Queues of a session *)

Inductive qsel : Type := QPub1ack | QPub2in | QPub2out | QSuback | QUnsuback | QPingack.

#[export] Instance qsel_eq_dec : EqDecision qsel.
Proof. solve_decision. Defined.

Definition get_q (s : Session completion) (k : qsel) : option (Ackqueue completion) :=
  match k with
  | QPub1ack => Pub1ack s | QPub2in => Pub2in s | QPub2out => Pub2out s
  | QSuback => LibSession.Suback s | QUnsuback => Unsuback s | QPingack => Pingack s
  end.

Definition set_q (s : Session completion) (k : qsel) (q : Ackqueue completion) : Session completion :=
  let f k' old := if decide (k = k') then Some q else old in
  mkSession (f QPub1ack (Pub1ack s)) (f QPub2in (Pub2in s)) (f QPub2out (Pub2out s))
            (f QSuback (LibSession.Suback s)) (f QUnsuback (Unsuback s)) (f QPingack (Pingack s))
            (Cmsg s) (Will s) (Retained s) (cbuf s) (rbuf s) (sess_topics s) (initted s) (id s).

(** [this.sess.<queue>] *)
Definition get_queue (this : Z) (k : qsel) : M (Z * Session completion * Ackqueue completion) :=
  do x <- get_sess this ;;
  do q <- deref (get_q x.2 k) ;;
  retM (x.1, x.2, q).

(** [this.sess.<queue>.Wait(msg, onComplete)]; the interface value may hold a nil
    function *)
Definition wait (this : Z) (k : qsel) (msg : Message) (oc : option completion) : M (Message * option error) :=
  do x <- get_queue this k ;;
  let '(l, ss, q) := x in
  do g <- gets gid ;;
  do r <- lift (Wait q g msg oc) ;;
  let '(q, g, msg, err) := r in
  put_sess l (set_q ss k q) ;;;
  modify (set_gid g) ;;;
  retM (msg, err).

Definition ack (this : Z) (k : qsel) (msg : Message) : M (option error) :=
  do x <- get_queue this k ;;
  let '(l, ss, q) := x in
  do g <- gets gid ;;
  do r <- lift (Ack q g msg) ;;
  let '(q, g, _, err) := r in
  put_sess l (set_q ss k q) ;;;
  modify (set_gid g) ;;;
  retM err.

Definition acked (this : Z) (k : qsel) : M (list (ackmsg completion)) :=
  do x <- get_queue this k ;;
  let '(l, ss, q) := x in
  do r <- lift (Acked q) ;;
  let '(q, done) := r in
  put_sess l (set_q ss k q) ;;;
  retM done.

(** ** Sending *)

(** [writeMessage]: the message as [Len] and [Encode] leave it, and the error.  The
    ring takes the bytes when the sender has made room; a message larger than the
    ring waits for ever. *)
Definition writeMessage (this : Z) (msg : Message) : M (Message * option error) :=
  do x <- lift (msg_Len msg) ;;
  let '(msg, l) := x in
  do s <- get_svc this ;;
  match outb s with
  | None => retM (msg, Some ErrBufferNotReady)
  | Some r =>
      if rg_done r then retM (msg, Some EOF)
      else if Buffer.defaultBufferSize <? l then stuck
      else
        do g <- gets gid ;;
        do y <- lift (msg_Encode msg g (replicate (Z.to_nat l) 0)) ;;
        let '(msg, g, buf, n, err) := y in
        modify (set_gid g) ;;;
        match err with
        | Some e => retM (msg, Some e)
        | None =>
            do b <- lift (subslice buf 0 n) ;;
            upd_svc this (fun s => set_stats (inStat s) (stat_increment (outStat s) n)
                                     (set_bufs (inb s) (Some (ring_append b r)) s)) ;;;
            retM (msg, None)
        end
  end.

(** [message.NewXxxMessage()] with the identifier set, written *)
Definition reply (this : Z) (mk : header -> Message) (new : header) (pid : Z) : M (option error) :=
  do r <- writeMessage this (mk (SetPacketId new pid)) ;; retM r.2.

Definition wrap_send (msg : Message) : error :=
  Errorf "(%s) Error sending %s message: %v" [AStr (str (Name (msg_Type msg)))].

Section Service.
Context (intn : list Topics.iface -> Z)
        (answer : Z -> Message -> option Message -> option error -> option error)
        (rpcLogin rpcLogout : list Z -> list Z -> list Z -> option error)
        (joined : Z -> bool).

(** a function of the application is called *)
Definition call_caller (k : Z) (msg : Message) (ak : option Message) (err : option error) : M (option error) :=
  record_call (ECompleted k msg ak err) ;;; retM (answer k msg ak err).

(** [if onComplete != nil { return onComplete(msg, ack, err) }; return other] *)
Definition call_opt (f : option Z) (msg : Message) (ak : option Message) (err other : option error) : M (option error) :=
  match f with Some k => call_caller k msg ak err | None => retM other end.

Definition publish (this : Z) (msg : PublishMessage) (oc : completion) : M (PublishMessage * option error) :=
  do r <- writeMessage this (MPublish msg) ;;
  let '(msg', err) := r in
  let msg := match msg' with MPublish m => m | _ => msg end in
  match err with
  | Some _ => retM (msg, Some (wrap_send (MPublish msg)))
  | None =>
      do q <- lift (QoS msg) ;;
      let back r := let '(msg', err) := r in retM (match msg' with MPublish m => m | _ => msg end, err) in
      if q =? QosAtMostOnce then
        match oc with
        | OcCaller k => do err <- call_caller k (MPublish msg) None None ;; retM (msg, err)
        | _ => retM (msg, None)
        end
      else if q =? QosAtLeastOnce then do r <- wait this QPub1ack (MPublish msg) (Some oc) ;; back r
      else if q =? QosExactlyOnce then do r <- wait this QPub2out (MPublish msg) (Some oc) ;; back r
      else retM (msg, None)
  end.

(** ** Routing *)

(** the loops over the subscribers in [onPublish] and [Server.Publish]: the functions
    get the same message, one after the other, and their errors are dropped.  A
    subscriber that is no function ends the first loop ([strict]) with an error. *)
Fixpoint call_subscribers (strict : bool) (subs : list Topics.iface) (msg : PublishMessage)
  : M (PublishMessage * option error) :=
  match subs with
  | [] => retM (msg, None)
  | Topics.IPtr l :: subs =>
      do o <- gets (fun w => funs w !! l) ;;
      do fn <- deref o ;;
      match fn with
      | PubNil => crash NilDeref
      | PubService svc => do r <- publish svc msg OcNil ;; call_subscribers strict subs r.1
      | PubCaller k => record_call (EDelivered k msg) ;;; call_subscribers strict subs msg
      end
  | _ :: subs =>
      if strict then retM (msg, Some (Errorf "Invalid onPublish Function" [])) else call_subscribers strict subs msg
  end.

(** the common lines of [onPublish] and [Server.Publish], on the tree at [l] *)
Definition route (strict : bool) (l : Z) (msg : PublishMessage) : M (PublishMessage * option error) :=
  do retain <- lift (Retain msg) ;;
  do o <- gets (fun w => trees w !! l) ;;
  do t <- deref o ;;
  do x <- (if retain then
             do g <- gets gid ;;
             do r <- lift (TopicManager.mgr_Retain t g msg) ;;
             let '(t, g, msg, _) := r in
             put_tree l t ;;; modify (set_gid g) ;;; retM (t, msg)
           else retM (t, msg)) ;;
  let '(t, msg) := x in
  do q <- lift (QoS msg) ;;
  do r <- lift (TopicManager.mgr_Subscribers intn t (Topic msg) q ([], [])) ;;
  let '(subs, err) := r in
  match err with
  | Some e => retM (msg, Some e)
  | None =>
      do msg <- lift (SetRetain msg false) ;;
      call_subscribers strict subs.1 msg
  end.

Definition onPublish (this : Z) (msg : PublishMessage) : M (PublishMessage * option error) :=
  do x <- get_tree this ;; route true x.1 msg.

(** ** Completion *)

(** the loop of [subscribe]'s closure over the topics of the SUBSCRIBE; the last
    failure is outermost.  [fn]: the address of the closure's [onPublish] *)
Fixpoint granted (this fn : Z) (ts : list (list Z)) (i : Z) (codes : list Z) (err2 : option error) : M (option error) :=
  match ts with
  | [] => retM err2
  | t :: ts =>
      do c <- lift (index codes i) ;;
      if c =? QosFailure then
        granted this fn ts (i + 1) codes (Some (Errorf "Failed to subscribe to '%s'\n%v" [AStr t]))
      else
        do x <- get_sess this ;;
        do r <- lift (AddTopic x.2 t c) ;;
        put_sess x.1 r.1 ;;;
        do y <- get_tree this ;;
        do z <- lift (TopicManager.mgr_Subscribe y.2 t c (Some (Topics.IPtr fn))) ;;
        let '(tree, _, err) := z in
        put_tree y.1 tree ;;;
        granted this fn ts (i + 1) codes
          (match err with Some _ => Some (Errorf "Failed to subscribe to '%s' (%v)\n%v" [AStr t]) | None => err2 end)
  end.

(** the closure of [subscribe]; each call has its own variable [onPublish] *)
Definition onc_subscribe (this : Z) (f : option Z) (onPublish : Z) (msg : Message) (ak : option Message) (err : option error)
  : M (option error) :=
  match err with
  | Some e => call_opt f msg ak (Some e) (Some e)
  | None =>
      match msg with
      | MSubscribe sub =>
          match ak with
          | Some (MSuback suback) =>
              if negb (PacketId (Subscribe.hdr sub) =? PacketId (Suback.hdr suback)) then
                call_opt f msg ak (Some (Errorf "Sub and Suback packet ID not the same. %d != %d."
                  [AInt (PacketId (Subscribe.hdr sub)); AInt (PacketId (Suback.hdr suback))])) None
              else
                let retcodes := Suback.ReturnCodes suback in
                let topics := Subscribe.Topics sub in
                if negb (zlen topics =? zlen retcodes) then
                  call_opt f msg ak (Some (Errorf "Incorrect number of return codes received. Expecting %d, got %d."
                    [AInt (zlen topics); AInt (zlen retcodes)])) None
                else
                  do fn <- fresh_loc ;;
                  modify (fun w => set_funs (<[fn:=PubCaller onPublish]> (funs w)) w) ;;;
                  do err2 <- granted this fn topics 0 retcodes None ;;
                  call_opt f msg ak err2 err2
          | _ => call_opt f msg ak (Some (Errorf "Invalid SubackMessage received" [])) None
          end
      | _ => call_opt f msg ak (Some (Errorf "Invalid SubscribeMessage received" [])) None
      end
  end.

(** the loop of [unsubscribe]'s closure *)
Fixpoint dropped (this : Z) (ts : list (list Z)) (err2 : option error) : M (option error) :=
  match ts with
  | [] => retM err2
  | t :: ts =>
      do y <- get_tree this ;;
      do z <- lift (TopicManager.mgr_Unsubscribe y.2 t None) ;;
      put_tree y.1 z.1 ;;;
      do x <- get_sess this ;;
      put_sess x.1 (RemoveTopic x.2 t).1 ;;;
      dropped this ts (match z.2 with Some _ => Some (Errorf "%v\n%v" []) | None => err2 end)
  end.

Definition onc_unsubscribe (this : Z) (f : option Z) (msg : Message) (ak : option Message) (err : option error)
  : M (option error) :=
  match err with
  | Some e => call_opt f msg ak (Some e) (Some e)
  | None =>
      match msg with
      | MUnsubscribe unsub =>
          match ak with
          | Some (MUnsuback unsuback) =>
              if negb (PacketId (Unsubscribe.hdr unsub) =? PacketId unsuback) then
                call_opt f msg ak (Some (Errorf "Unsub and Unsuback packet ID not the same. %d != %d."
                  [AInt (PacketId (Unsubscribe.hdr unsub)); AInt (PacketId unsuback)])) None
              else
                do err2 <- dropped this (Unsubscribe.Topics unsub) None ;;
                call_opt f msg ak err2 err2
          | _ => call_opt f msg ak (Some (Errorf "Invalid UnsubackMessage received" [])) None
          end
      | _ => call_opt f msg ak (Some (Errorf "Invalid UnsubscribeMessage received" [])) None
      end
  end.

Definition call (oc : completion) (msg : Message) (ak : option Message) (err : option error) : M (option error) :=
  match oc with
  | OcNil => retM None
  | OcCaller k => call_caller k msg ak err
  | OcSubscribe svc f p => onc_subscribe svc f p msg ak err
  | OcUnsubscribe svc f => onc_unsubscribe svc f msg ak err
  end.

(** the rest of the loop body of [processAcked], after both messages were decoded *)
Definition complete (this : Z) (am : ackmsg completion) (msg ak : Message) : M unit :=
  let finish msg := match OnComplete am with
                    | Some oc => do _ <- call oc msg (Some ak) None ;; retM tt
                    | None => retM tt
                    end in
  let st := State am in
  if st =? PUBREL then
    match msg with
    | MPublish m => do r <- onPublish this m ;; finish (MPublish r.1)
    | _ => crash BadAssertion
    end
  else if (st =? PUBACK) || (st =? PUBCOMP) || (st =? SUBACK) || (st =? UNSUBACK) || (st =? PINGRESP) then finish msg
  else retM tt.

Definition process_acked_one (this : Z) (am : ackmsg completion) : M unit :=
  match New (Mtype am) with
  | inr _ => retM tt
  | inl msg =>
      do r <- lift (msg_Decode msg (mkslice (Msgbuf am))) ;;
      let '(msg, _, err) := r in
      match err with
      | Some _ => retM tt
      | None =>
          match New (State am) with
          | inr _ => retM tt
          | inl ak =>
              do r <- lift (msg_Decode ak (mkslice (Ackbuf am))) ;;
              let '(ak, _, err) := r in
              match err with
              | Some _ => retM tt
              | None => complete this am msg ak
              end
          end
      end
  end.

Fixpoint process_acked_all (this : Z) (l : list (ackmsg completion)) : M unit :=
  match l with
  | [] => retM tt
  | am :: l => process_acked_one this am ;;; process_acked_all this l
  end.

Definition processAcked (this : Z) (k : qsel) : M unit :=
  do l <- acked this k ;; process_acked_all this l.

(** ** Packets from the peer *)

Definition heartbeatTopic : list Z := str "/sys/service/heartbeat/update".

(** a round of [updateHeartbeat], the goroutine of the receiver *)
Definition updateHeartbeat (this : Z) (newKeepAlive : Z) : M unit :=
  let temp := i32 (newKeepAlive + 3) in
  upd_svc this (set_beat (Some temp)) ;;;
  do s <- get_svc this ;;
  modify (fun w =>
    match (c ← conn s; x ← conns w !! c; Some (c, x)) with
    | Some (c, x) => set_conns (<[c:=snd (SetReadDeadline x temp)]> (conns w)) w
    | None => w
    end).

(** [this.keepAliveCH <- v]: taken by [updateHeartbeat] as long as it runs *)
Definition send_keepAlive (this : Z) (v : Z) : M unit :=
  do s <- get_svc this ;;
  match keepAliveCH s with
  | ChClosed => crash (CustomPanic "send on closed channel")
  | ChNil => stuck
  | ChOpen =>
      match beat s with
      | Some _ => if done_closed s then stuck else updateHeartbeat this v
      | None => stuck
      end
  end.

Definition clamp_heartbeat (h : Z) : Z := if h <? 1 then 1 else if 2 * 3600 <? h then 2 * 3600 else h.

Definition processPublish (this : Z) (msg : PublishMessage) : M (option error) :=
  let pid := PacketId (Publish.hdr msg) in
  if bool_decide (Topic msg = heartbeatTopic) then
    match Atoi (Payload msg) with
    | inr e => retM (Some e)
    | inl heartbeat =>
        send_keepAlive this (i32 (clamp_heartbeat heartbeat)) ;;;
        do q <- lift (QoS msg) ;;
        if q =? QosAtLeastOnce then reply this MPuback Puback.NewPubackMessage pid
        else retM None
    end
  else
    do q <- lift (QoS msg) ;;
    if q =? QosExactlyOnce then
      do _ <- wait this QPub2in (MPublish msg) None ;;
      reply this MPubrec Puback.NewPubrecMessage pid
    else if q =? QosAtLeastOnce then
      do err <- reply this MPuback Puback.NewPubackMessage pid ;;
      match err with
      | Some e => retM (Some e)
      | None => do r <- onPublish this msg ;; retM r.2
      end
    else if q =? QosAtMostOnce then do r <- onPublish this msg ;; retM r.2
    else retM (Some (Errorf "(%s) invalid message QoS %d." [AInt q])).

(** the loop of [processSubscribe] over the topics: the return codes and the retained
    messages so far *)
Fixpoint subscribe_all (this : Z) (ts : list (list Z)) (i : Z) (qos codes : list Z) (rmsgs : list PublishMessage)
  : M ((list Z * list PublishMessage) + error) :=
  match ts with
  | [] => retM (inl (codes, rmsgs))
  | t :: ts =>
      do s <- get_svc this ;;
      do y <- get_tree this ;;
      do q <- lift (index qos i) ;;
      do z <- lift (TopicManager.mgr_Subscribe y.2 t q (Some (Topics.IPtr (onpub (cfg s))))) ;;
      let '(tree, rqos, err) := z in
      put_tree y.1 tree ;;;
      match err with
      | Some e => retM (inr e)
      | None =>
          do x <- get_sess this ;;
          do r <- lift (AddTopic x.2 t q) ;;
          put_sess x.1 r.1 ;;;
          do m <- lift (TopicManager.mgr_Retained tree t rmsgs) ;;
          subscribe_all this ts (i + 1) qos (codes ++ [rqos]) m.1
      end
  end.

(** publish the retained messages, up to the first error *)
Fixpoint publish_retained (this : Z) (rmsgs : list PublishMessage) : M (option error) :=
  match rmsgs with
  | [] => retM None
  | rm :: rmsgs =>
      do r <- publish this rm OcNil ;;
      match r.2 with Some e => retM (Some e) | None => publish_retained this rmsgs end
  end.

Definition processSubscribe (this : Z) (msg : Subscribe.SubscribeMessage) : M (option error) :=
  let resp := Suback.with_hdr (SetPacketId (Suback.hdr Suback.NewSubackMessage) (PacketId (Subscribe.hdr msg)))
                              Suback.NewSubackMessage in
  do r <- subscribe_all this (Subscribe.Topics msg) 0 (Subscribe.Qos msg) [] [] ;;
  match r with
  | inr e => retM (Some e)
  | inl (retcodes, rmsgs) =>
      let '(resp, err) := Suback.AddReturnCodes resp retcodes in
      match err with
      | Some e => retM (Some e)
      | None =>
          do w <- writeMessage this (MSuback resp) ;;
          match w.2 with
          | Some e => retM (Some e)
          | None => publish_retained this rmsgs
          end
      end
  end.

(** the errors of the manager and of the session are dropped *)
Fixpoint unsubscribe_all (this : Z) (ts : list (list Z)) : M unit :=
  match ts with
  | [] => retM tt
  | t :: ts =>
      do s <- get_svc this ;;
      do y <- get_tree this ;;
      do z <- lift (TopicManager.mgr_Unsubscribe y.2 t (Some (Topics.IPtr (onpub (cfg s))))) ;;
      put_tree y.1 z.1 ;;;
      do x <- get_sess this ;;
      put_sess x.1 (RemoveTopic x.2 t).1 ;;;
      unsubscribe_all this ts
  end.

Definition processUnsubscribe (this : Z) (msg : Unsubscribe.UnsubscribeMessage) : M (option error) :=
  unsubscribe_all this (Unsubscribe.Topics msg) ;;;
  reply this MUnsuback Puback.NewUnsubackMessage (PacketId (Unsubscribe.hdr msg)).

Definition processIncoming (this : Z) (msg : Message) : M (option error) :=
  match msg with
  | MPublish m => processPublish this m
  | MPuback m => do _ <- ack this QPub1ack msg ;; processAcked this QPub1ack ;;; retM None
  | MPubrec m =>
      do err <- ack this QPub2out msg ;;
      match err with
      | Some e => retM (Some e)
      | None => reply this MPubrel Puback.NewPubrelMessage (PacketId m)
      end
  | MPubrel m =>
      do err <- ack this QPub2in msg ;;
      match err with
      | Some e => retM (Some e)
      | None =>
          processAcked this QPub2in ;;;
          reply this MPubcomp Puback.NewPubcompMessage (PacketId m)
      end
  | MPubcomp m =>
      do err <- ack this QPub2out msg ;;
      match err with
      | Some e => retM (Some e)
      | None => processAcked this QPub2out ;;; retM None
      end
  | MSubscribe m => processSubscribe this m
  | MSuback m => do _ <- ack this QSuback msg ;; processAcked this QSuback ;;; retM None
  | MUnsubscribe m => processUnsubscribe this m
  | MUnsuback m => do _ <- ack this QUnsuback msg ;; processAcked this QUnsuback ;;; retM None
  | MPingreq m => do r <- writeMessage this (MPingresp Disconnect.NewPingrespMessage) ;; retM r.2
  | MPingresp m => do _ <- ack this QPingack msg ;; processAcked this QPingack ;;; retM None
  | MDisconnect m =>
      do x <- get_sess this ;;
      do c <- deref (Cmsg x.2) ;;
      put_sess x.1 (with_cmsg (SetWillFlag c false) x.2) ;;;
      retM (Some errDisconnect)
  | MConnect _ | MConnack _ =>
      retM (Some (Errorf "(%s) invalid message type %s." [AStr (str (Name (msg_Type msg)))]))
  end.

(** ** Requests of a client *)

Definition subscribe (this : Z) (msg : Subscribe.SubscribeMessage) (f : option Z) (onPublish : option Z)
  : M (option error) :=
  match onPublish with
  | None => retM (Some (Errorf "onPublish function is nil. No need to subscribe." []))
  | Some p =>
      do r <- writeMessage this (MSubscribe msg) ;;
      match r.2 with
      | Some _ => retM (Some (wrap_send r.1))
      | None => do w <- wait this QSuback r.1 (Some (OcSubscribe this f p)) ;; retM w.2
      end
  end.

Definition unsubscribe (this : Z) (msg : Unsubscribe.UnsubscribeMessage) (f : option Z) : M (option error) :=
  do r <- writeMessage this (MUnsubscribe msg) ;;
  match r.2 with
  | Some _ => retM (Some (wrap_send r.1))
  | None => do w <- wait this QUnsuback r.1 (Some (OcUnsubscribe this f)) ;; retM w.2
  end.

Definition ping (this : Z) (f : option Z) : M (option error) :=
  do r <- writeMessage this (MPingreq Disconnect.NewPingreqMessage) ;;
  match r.2 with
  | Some _ => retM (Some (wrap_send r.1))
  | None => do w <- wait this QPingack r.1 (Some (match f with Some k => OcCaller k | None => OcNil end)) ;; retM w.2
  end.

Definition isDone (this : Z) : M bool := do s <- get_svc this ;; retM (done_closed s).

(** ** [keepaliver] *)

Definition update_state (this s : Z) : M unit :=
  do sv <- get_svc this ;;
  do m <- lift (updateState (csMgr sv) s) ;;
  upd_svc this (set_csm m).

(** a tick; whether the goroutine goes on *)
Definition keepaliver_tick (this : Z) : M bool :=
  do r <- writeMessage this (MPingreq Disconnect.NewPingreqMessage) ;;
  match r.2 with
  | Some e => update_state this (if bool_decide (e = EOF) then Shutdown else TransientFailure) ;;; retM false
  | None => retM true
  end.

(** ** Starting and stopping *)

(** the topics a recovered session subscribed before; errors are dropped *)
Fixpoint resubscribe (this : Z) (ts : list (list Z)) (i : Z) (qoss : list Z) : M unit :=
  match ts with
  | [] => retM tt
  | t :: ts =>
      do s <- get_svc this ;;
      do y <- get_tree this ;;
      do q <- lift (index qoss i) ;;
      do z <- lift (TopicManager.mgr_Subscribe y.2 t q (Some (Topics.IPtr (onpub (cfg s))))) ;;
      put_tree y.1 z.1.1 ;;;
      resubscribe this ts (i + 1) qoss
  end.

(** the lines of [receiver] before its loop *)
Definition start_receiver (this : Z) : M unit :=
  do s <- get_svc this ;;
  do c <- deref (conn s) ;;
  do o <- gets (fun w => conns w !! c) ;;
  do x <- deref o ;;
  let '(err, x) := SetReadDeadline x (keepAlive (cfg s)) in
  modify (fun w => set_conns (<[c:=x]> (conns w)) w) ;;;
  match err with
  | Some _ => retM tt
  | None => upd_svc this (set_beat (Some (keepAlive (cfg s) + 3)))
  end.

Definition deviceLogin (this : Z) : M (option error) :=
  do s <- get_svc this ;;
  let c := cfg s in
  retM (match rpcLogin (productKey c) (deviceName c) (nodeID c ++ str ":" ++ Itoa (svc_id c)) with
        | Some _ => Some (ErrCode ErrAuthServerLoginFailed)
        | None => None
        end).

Definition deviceLogout (this : Z) : M (option error) :=
  do s <- get_svc this ;;
  let c := cfg s in
  retM (match rpcLogout (productKey c) (deviceName c) (nodeID c) with
        | Some _ => Some (ErrCode ErrAuthServerLogoutFailed)
        | None => None
        end).

(** [newBuffer] of the default size makes a buffer.  The goroutines are started and
    waited for. *)
Definition start (this : Z) : M (option error) :=
  upd_svc this (set_bufs (Some new_ring) (Some new_ring)) ;;;
  do s <- get_svc this ;;
  do err <- (if client (cfg s) then retM None
             else
               modify (fun w => set_funs (<[onpub (cfg s):=PubService this]> (funs w)) w) ;;;
               do x <- get_sess this ;;
               match LibSession.Topics x.2 with
               | inr e => retM (Some e)
               | inl (ts, qoss) => resubscribe this ts 0 qoss ;;; retM None
               end) ;;
  match err with
  | Some e => retM (Some e)
  | None =>
      start_receiver this ;;;
      if client (cfg s) then retM None else deviceLogin this
  end.

(** the subscriptions of the session are taken out of the tree *)
Fixpoint unsubscribe_session (this : Z) (ts : list (list Z)) : M unit :=
  match ts with
  | [] => retM tt
  | t :: ts =>
      do s <- get_svc this ;;
      do y <- get_tree this ;;
      do z <- lift (TopicManager.mgr_Unsubscribe y.2 t (Some (Topics.IPtr (onpub (cfg s))))) ;;
      put_tree y.1 z.1 ;;;
      unsubscribe_session this ts
  end.

(** [this.onPublish(this.sess.Will)] *)
Definition publish_will (this : Z) : M unit :=
  do x <- get_sess this ;;
  do will <- deref (Will x.2) ;;
  do r <- onPublish this will ;;
  do x <- get_sess this ;;
  put_sess x.1 (with_will r.1 x.2).

(** the name of a connection in the log *)
Definition cid (this : Z) : M (list Z) :=
  do s <- get_svc this ;;
  do x <- get_sess this ;;
  do i <- lift (ID x.2) ;;
  retM (Itoa (svc_id (cfg s)) ++ str "/" ++ i).

Definition close_conn (this : Z) : M unit :=
  do s <- get_svc this ;;
  match conn s with
  | Some c =>
      do _ <- cid this ;;
      do o <- gets (fun w => conns w !! c) ;;
      do x <- deref o ;;
      modify (fun w => set_conns (<[c:=conn_Close x]> (conns w)) w)
  | None => retM tt
  end.

(** closing a nil buffer panics *)
Definition close_bufs (this : Z) : M unit :=
  do s <- get_svc this ;;
  do i <- deref (inb s) ;;
  upd_svc this (set_bufs (Some (ring_close i)) (outb s)) ;;;
  do o <- deref (outb s) ;;
  upd_svc this (set_bufs (Some (ring_close i)) (Some (ring_close o))).

(** [close(ch)] *)
Definition close_channel (ch : channel) : outcome channel :=
  match ch with
  | ChNil => Panic (CustomPanic "close of nil channel")
  | ChOpen => Ret ChClosed
  | ChClosed => Panic (CustomPanic "close of closed channel")
  end.

(** [this.wgStopped.Wait()] *)
Definition wait_stopped (this : Z) : M unit := if joined this then retM tt else stuck.

(** the body of [stop] after [closed] was set *)
Definition stop_body (this : Z) : M unit :=
  do s <- get_svc this ;;
  (if client (cfg s) then retM tt else do _ <- deviceLogout this ;; retM tt) ;;;
  do _ <- cid this ;;
  (if done_closed s then crash (CustomPanic "close of closed channel") else upd_svc this set_done) ;;;
  close_conn this ;;;
  close_bufs this ;;;
  wait_stopped this ;;;
  do _ <- cid this ;;
  (match sess s with
   | Some _ =>
       if client (cfg s) then retM tt
       else
         do x <- get_sess this ;;
         match LibSession.Topics x.2 with
         | inr _ => retM tt
         | inl (ts, _) => unsubscribe_session this ts
         end
   | None => retM tt
   end) ;;;
  do x <- get_sess this ;;
  (if client (cfg s) then retM tt
   else do c <- deref (Cmsg x.2) ;; if WillFlag c then publish_will this else retM tt) ;;;
  do x <- get_sess this ;;
  (if client (cfg s) then
     do i <- lift (ID x.2) ;; modify (fun w => set_providers (delete i (providers w)) w)
   else retM tt) ;;;
  do c <- deref (Cmsg x.2) ;;
  (if CleanSession c && has_sessMgr (cfg s)
   then do i <- lift (ID x.2) ;; modify (fun w => set_store (mem_Del (store w) i) w)
   else retM tt) ;;;
  (match keepAliveCH s with
   | ChNil => retM tt
   | ch => do ch <- lift (close_channel ch) ;; upd_svc this (set_ka ch)
   end) ;;;
  upd_svc this (fun s => set_bufs None None (set_conn None s)).

(** a second call does nothing; a panic ends the first and is logged *)
Definition stop (this : Z) : M unit :=
  do s <- get_svc this ;;
  if closed s then retM tt
  else upd_svc this set_closed ;;; handled (stop_body this) (do _ <- cid this ;; retM tt).

(** ** The goroutines of a connection

    Rounds of [processor], [receiver] and [sender] on the rings. *)

Inductive peeked : Type :=
| PkWait
| PkErr (e : error)
| PkSize (mtype total : Z).

(** [peekMessageSize] on the bytes in the ring; [cnt] goes from 2 to 6 *)
Fixpoint peekMessageSize (fuel : nat) (cnt : Z) (r : ring) : peeked :=
  match fuel with
  | O => PkErr (Errorf "sendrecv/peekMessageSize: 4th byte of remaining length has continuation bit set" [])
  | S fuel =>
      let b := take (Z.to_nat cnt) (rg_bytes r) in
      if zlen b <? cnt then (if rg_done r then PkErr EOF else PkWait)
      else
        match b !! Z.to_nat (cnt - 1), b with
        | Some x, b0 :: rest =>
            if 128 <=? x then peekMessageSize fuel (cnt + 1) r
            else let '(remlen, m) := Uvarint rest in PkSize (Z.shiftr b0 4) (i64 remlen + 1 + m)
        | _, _ => PkErr EOF
        end
  end.

(** a round of [processor]: [None] when it waits for bytes, else whether it goes on.
    [sp]: the ring behind the packet.  An error of a handler, but for the one of
    DISCONNECT, is logged and the loop goes on. *)
Definition processor_round (sp : list Z) (this : Z) : M (option bool) :=
  do s <- get_svc this ;;
  match inb s with
  | None => retM (Some false)
  | Some r =>
      match peekMessageSize 4 2 r with
      | PkWait => retM None
      | PkErr _ => retM (Some false)
      | PkSize mtype total =>
          if Buffer.defaultBufferSize <? total then retM (Some false)
          else if zlen (rg_bytes r) <? total then retM (if rg_done r then Some false else None)
          else
            match New mtype with
            | inr _ => retM (Some false)
            | inl msg =>
                do y <- lift (msg_Decode msg (Slice (take (Z.to_nat total) (rg_bytes r)) sp)) ;;
                let '(msg, n, err) := y in
                match err with
                | Some _ => retM (Some false)
                | None =>
                    upd_svc this (fun s => set_stats (stat_increment (inStat s) n) (outStat s) s) ;;;
                    do err <- processIncoming this msg ;;
                    if bool_decide (err = Some errDisconnect) then retM (Some false)
                    else
                      do s <- get_svc this ;;
                      do r <- deref (inb s) ;;
                      let rest := drop (Z.to_nat total) (rg_bytes r) in
                      upd_svc this (set_bufs (Some (mkRing rest (rg_done r))) (outb s)) ;;;
                      retM (Some (negb (done_closed s && (zlen rest =? 0))))
                end
            end
      end
  end.

(** the goroutine ends, by itself or by a panic *)
Definition processor_end (this : Z) : M unit := stop this.

(** a round of [receiver]: up to [k] bytes of the connection go to [in] *)
Definition receiver_round (this k : Z) : M bool :=
  do s <- get_svc this ;;
  match conn s, inb s, beat s with
  | Some c, Some r, Some d =>
      do o <- gets (fun w => conns w !! c) ;;
      do x <- deref o ;;
      let '(b, err, x) := if rg_done r then ([], Some EOF, x) else timeoutReader_Read d x k in
      modify (fun w => set_conns (<[c:=x]> (conns w)) w) ;;;
      match err with
      | Some e => update_state this (if bool_decide (e = EOF) then Shutdown else TransientFailure) ;;; retM false
      | None => upd_svc this (set_bufs (Some (ring_append b r)) (outb s)) ;;; retM true
      end
  | _, _, _ => retM false
  end.

(** a round of [sender]: up to [k] bytes of [out] go to the connection; [None] when
    there is nothing to send *)
Definition sender_round (this k : Z) : M (option bool) :=
  do s <- get_svc this ;;
  match conn s, outb s with
  | Some c, Some r =>
      do o <- gets (fun w => conns w !! c) ;;
      do x <- deref o ;;
      if rg_done r then update_state this Shutdown ;;; retM (Some false)
      else
        match take (Z.to_nat k) (rg_bytes r) with
        | [] => retM None
        | b =>
            let '(n, err, x) := conn_Write x b in
            modify (fun w => set_conns (<[c:=x]> (conns w)) w) ;;;
            upd_svc this (set_bufs (inb s) (Some (mkRing (drop (Z.to_nat n) (rg_bytes r)) false))) ;;;
            match err with
            | Some e => update_state this (if bool_decide (e = EOF) then Shutdown else TransientFailure) ;;; retM (Some false)
            | None => retM (Some true)
            end
        end
  | _, _ => retM (Some false)
  end.
End Service.
