(* ===== verification/LibServer.v ===== *)
(** * LibServer: the server of the library
      ([utils/surgemq/surgemq/service/server.go], [surgemq/auth])

    The handshake, which resumes the session of a client that asks for it, the take
    over of a connection, publishing to the subscribers, shutdown, the accepting
    loop, and the registry of authenticators.  [rpcInit] is what [Init] of rpc/auth
    ([LibRpc]) returns. *)
From stdpp Require Import base list strings gmap.
From Stdlib Require Import ZArith Lia.
From S2P Require Import Prelude GoLang GoStrings NetConn Framing Connectivity MsgTypes Header Publish Connect Connack Message.
From S2P Require Import LibQueue LibSession LibWorld LibService.
From S2P Require Topics TopicManager Startup.

#[local] Existing Instance TopicManager.memTopics_provider.

Definition ErrInvalidUsername : error := ErrorsNew "service：invalid Username".
Definition ErrInvalidClientId : error := ErrorsNew "service：invalid ClientId".

Definition DefaultKeepAlive : Z := 300.
Definition DefaultConnectTimeout : Z := 2.
Definition DefaultAckTimeout : Z := 20.
Definition DefaultTimeoutRetries : Z := 3.
Definition minKeepAlive : Z := 30.

(** ** Authenticators ([auth/authenticator.go], [auth/mock.go])

    The only [Authenticator] is the mock, a boolean. *)
Module Auth.
Definition ErrAuthFailure : error := ErrorsNew "auth: Authentication failure".

Definition Register (reg : gmap string bool) (name : string) (p : option bool) : outcome (gmap string bool) :=
  match p with
  | None => Panic (CustomPanic "auth: Register provide is nil")
  | Some p =>
      match reg !! name with
      | Some _ => Panic (CustomPanic ("auth: Register called twice for provider " +:+ name))
      | None => Ret (<[name:=p]> reg)
      end
  end.

Definition Unregister (reg : gmap string bool) (name : string) : gmap string bool := delete name reg.

Definition NewManager (reg : gmap string bool) (name : string) : bool + error :=
  match reg !! name with
  | Some p => inl p
  | None => inr (Errorf "session: unknown provider %q" [AStr (str name)])
  end.

Definition Authenticate (p : bool) : option error := if p then None else Some ErrAuthFailure.

(** [init] *)
Definition initial : outcome (gmap string bool) :=
  let! r := Register ∅ "mockSuccess" (Some true) in Register r "mockFailure" (Some false).
End Auth.

Section Server.
Context (intn : list Topics.iface -> Z)
        (answer : Z -> Message -> option Message -> option error -> option error)
        (rpcInit : list Z -> option error)
        (rpcLogin rpcLogout : list Z -> list Z -> list Z -> option error)
        (joined : Z -> bool)
        (auths : gmap string bool) (stores : gset string).

Definition upd_srv (f : Server -> Server) : M unit := modify (fun w => set_srv (f (srv w)) w).

Definition SetRPCServer (addrs : list Z) : M unit := upd_srv (set_authServers addrs).
Definition SetNodeID (n : list Z) : M unit := upd_srv (set_nodeID n).
Definition Init : M (option error) :=
  upd_srv (set_svcMap (Some ∅)) ;;; do sv <- gets srv ;; retM (rpcInit (authServers sv)).

(** [stores]: the names of the session providers; [init] registers "mem".  The first
    error stops the configuration, which is not tried again. *)
Definition checkConfiguration : M (option error) :=
  do sv <- gets srv ;;
  if configured sv then retM None
  else
    let dflt v d := if v =? 0 then d else v in
    let name v d := if bool_decide (v = ""%string) then d else v in
    let a := name (Authenticator sv) "mockSuccess"%string in
    let with_ s p am sm tm := mkServer (dflt (KeepAlive sv) DefaultKeepAlive) (dflt (ConnectTimeout sv) DefaultConnectTimeout)
      (dflt (AckTimeout sv) DefaultAckTimeout) (dflt (TimeoutRetries sv) DefaultTimeoutRetries) a s p am sm tm
      (quit sv) (ln sv) (srv_nodeID sv) (svcMap sv) (running sv) true (authServers sv) in
    match Auth.NewManager auths a with
    | inr e => upd_srv (fun _ => with_ (SessionsProvider sv) (TopicsProvider sv) None (sessMgr sv) (srv_topics sv)) ;;; retM (Some e)
    | inl am =>
        let s := name (SessionsProvider sv) "mem"%string in
        if negb (bool_decide (s ∈ stores)) then
          upd_srv (fun _ => with_ s (TopicsProvider sv) (Some am) false (srv_topics sv)) ;;;
          retM (Some (Errorf "session: unknown provider %q" [AStr (str s)]))
        else
          let p := name (TopicsProvider sv) "mem"%string in
          do o <- gets (fun w => providers w !! str p) ;;
          upd_srv (fun _ => with_ s p (Some am) true o) ;;;
          retM (match o with Some _ => None | None => Some (Errorf "session: unknown provider %q" [AStr (str p)]) end)
    end.

(** [Server.Publish] *)
Definition Publish (msg : PublishMessage) : M (PublishMessage * option error) :=
  do err <- checkConfiguration ;;
  match err with
  | Some e => retM (msg, Some e)
  | None =>
      do sv <- gets srv ;;
      do l <- deref (srv_topics sv) ;;
      do r <- route intn answer false l msg ;;
      retM r
  end.

(** ** The handshake *)

(** the session of the client identifier when it asks for it, or a new one; the
    request, the reply and the error.  [rnd] is for an empty identifier. *)
Definition getSession (rnd : option (list Z)) (svc : Z) (req : ConnectMessage) (resp : ConnackMessage)
  : M (ConnectMessage * ConnackMessage * option error) :=
  do s <- get_svc svc ;;
  let req := if zlen (ClientId req) =? 0
             then SetCleanSession (fst (SetClientId req (str "internalclient" ++ Itoa (svc_id (cfg s))))) true
             else req in
  let cid := ClientId req in
  do st <- gets store ;;
  do r <- (match (if CleanSession req then inr EOF else mem_Get st cid) with
           | inl l =>
               upd_svc svc (set_sess (Some l)) ;;;
               let resp := SetSessionPresent resp true in
               do x <- get_sess svc ;;
               do y <- lift (Update x.2 req) ;;
               let '(ss, req, err) := y in
               put_sess l ss ;;;
               retM (req, resp, err)
           | inr _ => retM (req, resp, None)
           end) ;;
  let '(req, resp, err) := r in
  match err with
  | Some e => retM (req, resp, Some e)
  | None =>
      do s <- get_svc svc ;;
      match sess s with
      | Some _ => retM (req, resp, None)
      | None =>
          do w <- gets (fun w => w) ;;
          let '(st, h, l) := mgr_New (store w) (sessions w) rnd cid in
          modify (fun w => set_sessions h (set_store st w)) ;;;
          upd_svc svc (set_sess (Some l)) ;;;
          let resp := SetSessionPresent resp false in
          do x <- get_sess svc ;;
          do y <- lift (LibSession.Init x.2 req) ;;
          let '(ss, req, err) := y in
          put_sess l ss ;;;
          retM (req, resp, err)
      end
  end.

(** [writeMessage(conn, resp)] of misc.go *)
Definition write_conn (c : Z) (msg : Message) : M (Message * option error) :=
  do w <- gets (fun w => w) ;;
  do x <- deref (conns w !! c) ;;
  do y <- lift (Framing.writeMessage (CNet x) (gid w) msg) ;;
  let '(err, msg, g, cl) := y in
  modify (set_gid g) ;;;
  (match cl with CNet x => modify (fun w => set_conns (<[c:=x]> (conns w)) w) | _ => retM tt end) ;;;
  retM (msg, err).

Definition svc_key (c : svc_conf) : list Z := deviceName c ++ str "&" ++ productKey c.

(** the service of the same device is stopped and replaced *)
Definition take_over (svc : Z) : M unit :=
  do s <- get_svc svc ;;
  let key := svc_key (cfg s) in
  do sv <- gets srv ;;
  (match (m ← svcMap sv; m !! key) with
   | Some old =>
       stop intn answer rpcLogout joined old ;;;
       upd_srv (fun sv => set_svcMap (delete key <$> svcMap sv) sv)
   | None => retM tt
   end) ;;;
  do sv <- gets srv ;;
  match svcMap sv with
  | None => crash (CustomPanic "assignment to entry in nil map")
  | Some m => upd_srv (set_svcMap (Some (<[key:=svc]> m)))
  end.

Definition new_service (sv : Server) (n : Z) (addr : Z) (productKey deviceName : list Z) (keepAlive c : Z) : service :=
  mkService (mkConf n false productKey deviceName (srv_nodeID sv) keepAlive (ConnectTimeout sv) (AckTimeout sv)
               (TimeoutRetries sv) (sessMgr sv) addr)
            (Some c) None (srv_topics sv) false false ChOpen None None None (mkStat 0 0) (mkStat 0 0) zero_csm.

(** the lines from the new service on *)
Definition establish (rnd : option (list Z)) (c : Z) (req : ConnectMessage) (resp : ConnackMessage)
    (productKey deviceName : list Z) : M (Z + error) :=
  do sv <- gets srv ;;
  do n <- gets (fun w => u64 (gsvcid w + 1)) ;;
  modify (set_gsvcid n) ;;;
  do addr <- fresh_loc ;;
  modify (fun w => set_funs (<[addr:=PubNil]> (funs w)) w) ;;;
  do svc <- fresh_loc ;;
  modify (fun w => set_svcs (<[svc:=new_service sv n addr productKey deviceName (Connect.KeepAlive req) c]> (svcs w)) w) ;;;
  do y <- getSession rnd svc req resp ;;
  let '(req, resp, err) := y in
  match err with
  | Some e => retM (inr e)
  | None =>
      do r <- write_conn c (MConnack (SetReturnCode resp ConnectionAccepted)) ;;
      match r.2 with
      | Some e => retM (inr e)
      | None =>
          let '(_, rl) := Connect.Len req in
          do rn <- lift (msg_Len r.1) ;;
          upd_svc svc (fun s => set_stats (stat_increment (inStat s) rl) (stat_increment (outStat s) rn.2) s) ;;;
          take_over svc ;;;
          do err <- start rpcLogin svc ;;
          match err with
          | Some e => stop intn answer rpcLogout joined svc ;;; retM (inr e)
          | None => retM (inl svc)
          end
      end
  end.

(** [handleConnection] between the deferred close and its end: [deviceAuth] accepts
    everybody *)
Definition handshake (sp : list Z) (rnd : option (list Z)) (c : Z) : M (Z + error) :=
  do err <- checkConfiguration ;;
  match err with
  | Some e => retM (inr e)
  | None =>
      do sv <- gets srv ;;
      do o <- gets (fun w => conns w !! c) ;;
      do x <- deref o ;;
      let '(_, x) := SetReadDeadline x (ConnectTimeout sv) in
      let resp := NewConnackMessage in
      do y <- lift (getConnectMessage sp (CNet x)) ;;
      let '(req, err, cl) := y in
      (match cl with CNet x => modify (fun w => set_conns (<[c:=x]> (conns w)) w) | _ => retM tt end) ;;;
      match err, req with
      | Some e, _ =>
          match e with
          | ErrCode code =>
              do _ <- write_conn c (MConnack (SetSessionPresent (SetReturnCode resp code) false)) ;; retM (inr e)
          | _ => retM (inr e)
          end
      | None, inr e => retM (inr e)
      | None, inl req =>
          let req := if Connect.KeepAlive req =? 0 then SetKeepAlive req minKeepAlive else req in
          match Split (Username req) 38 with
          | deviceName :: productKey :: _ =>
              if (zlen (ClientId req) =? 0) || negb (bool_decide (124 ∈ ClientId req)) then retM (inr ErrInvalidClientId)
              else establish rnd c req resp productKey deviceName
          | _ => retM (inr ErrInvalidUsername)
          end
      end
  end.

(** the connection is closed when there is an error *)
Definition handleConnection (sp : list Z) (rnd : option (list Z)) (c : Z) : M (Z + error) :=
  do r <- handshake sp rnd c ;;
  match r with
  | inl svc => retM (inl svc)
  | inr e =>
      do o <- gets (fun w => conns w !! c) ;;
      do x <- deref o ;;
      modify (fun w => set_conns (<[c:=conn_Close x]> (conns w)) w) ;;;
      retM (inr e)
  end.

(** ** Shutdown *)

Fixpoint stop_all (l : list (list Z * Z)) : M unit :=
  match l with
  | [] => retM tt
  | (_, svc) :: l => stop intn answer rpcLogout joined svc ;;; stop_all l
  end.

Definition Close : M unit :=
  do sv <- gets srv ;;
  do q <- lift (close_channel (quit sv)) ;;
  upd_srv (set_listener q (ln sv)) ;;;
  do _ <- deref (ln sv) ;;
  upd_srv (set_listener q (Some true)) ;;;
  stop_all (match svcMap sv with Some m => map_to_list m | None => [] end) ;;;
  (if sessMgr sv then modify (set_store ∅) else retM tt) ;;;
  match srv_topics sv with
  | Some l =>
      do o <- gets (fun w => trees w !! l) ;;
      do t <- deref o ;;
      put_tree l (TopicManager.mgr_Close t).1
  | None => retM tt
  end.

(** ** The accepting loop *)

(** what [Accept] answers, with what the loop sees of [quit] after an error *)
Inductive accepted : Type :=
| AConn (c : Z)
| AError (quitting temporary : bool) (e : error).

(** the actions, and what the loop returns; [None]: it waits in [Accept] *)
Fixpoint accept_loop (script : list accepted) (tempDelay : Z) : list Startup.act * option (option error) :=
  match script with
  | [] => ([], None)
  | AConn c :: script => let '(acts, e) := accept_loop script tempDelay in (Startup.Handle c :: acts, e)
  | AError quitting temporary e :: script =>
      if quitting then ([], Some None)
      else if temporary then
        let d := Startup.next_delay tempDelay in
        let '(acts, e) := accept_loop script d in (Startup.Sleep d :: acts, e)
      else ([], Some (Some e))
  end.

Definition errRunning : error := Errorf "server/ListenAndServe: Server is already running" [].

(** [parse]: [url.Parse]; [Listen]: [net.Listen] *)
Definition ListenAndServe (parse : string -> (string * string) + error) (Listen : string -> string -> option error)
    (script : list accepted) (uri : string) : M (list Startup.act * option (option error)) :=
  let ret acts e := upd_srv (fun sv => set_running (Startup.cas (running sv) 1 0) sv) ;;; retM (acts, Some e) in
  do sv <- gets srv ;;
  if negb (running sv =? 0) then ret [] (Some errRunning)
  else
    upd_srv (fun sv => set_running (Startup.cas (running sv) 0 1) sv) ;;;
    upd_srv (fun sv => set_listener ChOpen (ln sv) sv) ;;;
    match parse uri with
    | inr e => ret [] (Some e)
    | inl (scheme, host) =>
        match Listen scheme host with
        | Some e => ret [] (Some e)
        | None =>
            upd_srv (fun sv => set_listener (quit sv) (Some false) sv) ;;;
            match accept_loop script 0 with
            | (acts, None) => retM (acts, None)
            | (acts, Some e) => upd_srv (fun sv => set_listener (quit sv) (Some true) sv) ;;; ret acts e
            end
        end
    end.
End Server.
