(* ===== verification/LibClient.v ===== *)
(** * LibClient: the MQTT client ([utils/surgemq/surgemq/service/client.go])

    [Connect] and its four variants differ in how they dial, in whether they close
    the connection when something fails, and in whether they take the names of the
    device out of the user name.  Each client has a topic tree of its own, under its
    identifier in the registry, whose subscribers are functions of the application.

    [dial]: what the packages net and crypto/tls answer: the connection or an
    error. *)
From stdpp Require Import base list strings gmap.
From Stdlib Require Import ZArith Lia.
From S2P Require Import Prelude GoLang GoStrings NetConn Framing Connectivity MsgTypes Header Publish Connect Connack Message.
From S2P Require Import LibQueue LibSession LibWorld LibService LibServer.
From S2P Require Topics TopicManager.

#[local] Existing Instance TopicManager.memTopics_provider.

Record Client : Type := mkClient {
  cl_KeepAlive : Z;
  cl_ConnectTimeout : Z;
  cl_AckTimeout : Z;
  cl_TimeoutRetries : Z;
  cl_svc : option Z
}.

Definition checkConfiguration (c : Client) : Client :=
  let dflt v d := if v =? 0 then d else v in
  mkClient (dflt (cl_KeepAlive c) DefaultKeepAlive) (dflt (cl_ConnectTimeout c) DefaultConnectTimeout)
           (dflt (cl_AckTimeout c) DefaultAckTimeout) (dflt (cl_TimeoutRetries c) DefaultTimeoutRetries) (cl_svc c).

Definition with_svc (s : Z) (c : Client) : Client :=
  mkClient (cl_KeepAlive c) (cl_ConnectTimeout c) (cl_AckTimeout c) (cl_TimeoutRetries c) (Some s).

(** ** The helpers of the virtual addresses *)

Definition hex_digit (m : Z) : Z := if 9 <? m then m + 55 else m + 48.

(** [fuel]: one per digit *)
Fixpoint hex_loop (fuel : nat) (q : Z) (s : list Z) : list Z :=
  match fuel with
  | O => s
  | S fuel => if 0 <? q then hex_loop fuel (q / 16) (hex_digit (q mod 16) :: s) else s
  end.

Definition DecHex (n : Z) : list Z :=
  if n <? 0 then [] else if n =? 0 then str "0" else hex_loop 16 n [].

Definition BytesCombine (pBytes : list (list Z)) : list Z := concat pBytes.

(** [binary.Write] in big-endian order *)
Definition IntToByte (num : Z) : list Z :=
  (fun i => u8 (Z.shiftr num (8 * i))) <$> [7; 6; 5; 4; 3; 2; 1; 0].

Section Client.
Context (intn : list Topics.iface -> Z)
        (answer : Z -> Message -> option Message -> option error -> option error)
        (rpcLogin rpcLogout : list Z -> list Z -> list Z -> option error)
        (joined : Z -> bool)
        (parse : string -> (string * string) + error).

(** a session of its own *)
Definition getSession (svc : Z) (req : ConnectMessage) : M (ConnectMessage * option error) :=
  do h <- gets sessions ;;
  let '(h, l) := alloc h (newSession []) in
  modify (set_sessions h) ;;;
  upd_svc svc (set_sess (Some l)) ;;;
  do x <- get_sess svc ;;
  do y <- lift (LibSession.Init x.2 req) ;;
  let '(ss, req, err) := y in
  put_sess l ss ;;;
  retM (req, err).

(** [topics.Register(id, topics.NewMemProvider())]: a second registration replaces
    the first; [topics.NewManager(id)] finds it *)
Definition register_tree (svc : Z) : M unit :=
  do x <- get_sess svc ;;
  do i <- lift (ID x.2) ;;
  do l <- fresh_loc ;;
  put_tree l Topics.NewMemProvider ;;;
  modify (fun w => set_providers (<[i:=l]> (providers w)) w) ;;;
  upd_svc svc (set_topicsMgr (Some l)).

Definition new_client_service (c : Client) (n addr : Z) (productKey deviceName : list Z) (keepAlive conn : Z) : service :=
  mkService (mkConf n true productKey deviceName [] keepAlive (cl_ConnectTimeout c) (cl_AckTimeout c)
               (cl_TimeoutRetries c) false addr)
            (Some conn) None None false false ChNil None None None (mkStat 0 0) (mkStat 0 0) zero_csm.

(** the lines from the accepted CONNACK on *)
Definition connected (c : Client) (named : bool) (conn : Z) (msg : ConnectMessage) (resp : ConnackMessage)
  : M (Client * option error) :=
  let '(productKey, deviceName) :=
    match named, Split (Username msg) 38 with
    | true, [deviceName; productKey] => (productKey, deviceName)
    | _, _ => ([], [])
    end in
  do n <- gets (fun w => u64 (gsvcid w + 1)) ;;
  modify (set_gsvcid n) ;;;
  do addr <- fresh_loc ;;
  modify (fun w => set_funs (<[addr:=PubNil]> (funs w)) w) ;;;
  do svc <- fresh_loc ;;
  modify (fun w => set_svcs (<[svc:=new_client_service c n addr productKey deviceName (Connect.KeepAlive msg) conn]> (svcs w)) w) ;;;
  let c := with_svc svc c in
  do y <- getSession svc msg ;;
  let '(msg, err) := y in
  match err with
  | Some e => retM (c, Some e)
  | None =>
      register_tree svc ;;;
      update_state svc Ready ;;;
      do err <- start rpcLogin svc ;;
      match err with
      | Some e => stop intn answer rpcLogout joined svc ;;; retM (c, Some e)
      | None =>
          let '(_, ml) := Connect.Len msg in
          do rn <- lift (msg_Len (MConnack resp)) ;;
          upd_svc svc (fun s => set_stats (stat_increment (inStat s) ml) (stat_increment (outStat s) rn.2) s) ;;;
          retM (c, None)
      end
  end.

(** the lines after the dial: send the CONNECT, read the CONNACK *)
Definition exchange (c : Client) (named : bool) (sp : list Z) (conn : Z) (msg : ConnectMessage)
  : M (Client * option error) :=
  let msg := if Connect.KeepAlive msg <? minKeepAlive then SetKeepAlive msg minKeepAlive else msg in
  do r <- write_conn conn (MConnect msg) ;;
  match r.2 with
  | Some e => retM (c, Some e)
  | None =>
      let msg := match r.1 with MConnect m => m | _ => msg end in
      do o <- gets (fun w => conns w !! conn) ;;
      do x <- deref o ;;
      let '(_, x) := SetReadDeadline x (cl_ConnectTimeout c) in
      do y <- lift (getConnackMessage sp (CNet x)) ;;
      let '(resp, err, cl) := y in
      (match cl with CNet x => modify (fun w => set_conns (<[conn:=x]> (conns w)) w) | _ => retM tt end) ;;;
      match err, resp with
      | Some e, _ => retM (c, Some e)
      | None, inr e => retM (c, Some e)
      | None, inl resp =>
          if ReturnCode resp =? ConnectionAccepted then connected c named conn msg resp
          else retM (c, Some (ErrCode (ReturnCode resp)))
      end
  end.

(** dial and go on; [closes]: the deferred close *)
Definition connect_over (closes named : bool) (c : Client) (sp : list Z) (dialed : Conn + error) (msg : ConnectMessage)
  : M (Client * option error) :=
  match dialed with
  | inr e => retM (c, Some e)
  | inl x =>
      do l <- fresh_loc ;;
      modify (fun w => set_conns (<[l:=x]> (conns w)) w) ;;;
      do r <- exchange c named sp l msg ;;
      match r.2 with
      | Some e =>
          (if closes then
             do o <- gets (fun w => conns w !! l) ;;
             do x <- deref o ;;
             modify (fun w => set_conns (<[l:=conn_Close x]> (conns w)) w)
           else retM tt) ;;;
          retM (r.1, Some e)
      | None => retM r
      end
  end.

(** the tests before the dial *)
Definition dial_tcp (uri : string) (msg : option ConnectMessage)
    (k : string -> string -> ConnectMessage -> M (Client * option error)) (c : Client) : M (Client * option error) :=
  match msg with
  | None => retM (c, Some (Errorf "msg is nil" []))
  | Some msg =>
      match parse uri with
      | inr e => retM (c, Some e)
      | inl (scheme, host) =>
          if bool_decide (scheme = "tcp"%string) then k scheme host msg else retM (c, Some ErrInvalidConnectionType)
      end
  end.

Definition Connect (c : Client) (sp : list Z) (dial : string -> string -> Conn + error) (uri : string)
    (msg : option ConnectMessage) : M (Client * option error) :=
  let c := checkConfiguration c in
  dial_tcp uri msg (fun scheme host msg => connect_over true true c sp (dial scheme host) msg) c.

(** nothing closes the connection of a refused client *)
Definition ConnectTLS (c : Client) (sp : list Z) (dial : string -> string -> Conn + error) (uri : string)
    (msg : option ConnectMessage) : M (Client * option error) :=
  let c := checkConfiguration c in
  dial_tcp uri msg (fun scheme host msg => connect_over false false c sp (dial scheme host) msg) c.

(** [LoadX509KeyPair]: of the client's certificate and key; the root certificate is
    used when it can be read.  The certificate is loaded before the scheme is tested. *)
Definition ConnectSTLS (LoadX509KeyPair : string -> string -> option error) (c : Client) (sp : list Z)
    (dial : string -> string -> Conn + error) (uri clientCert clientKey : string) (msg : option ConnectMessage)
  : M (Client * option error) :=
  let c := checkConfiguration c in
  match msg with
  | None => retM (c, Some (Errorf "msg is nil" []))
  | Some msg =>
      match parse uri with
      | inr e => retM (c, Some e)
      | inl (scheme, host) =>
          match LoadX509KeyPair clientCert clientKey with
          | Some e => retM (c, Some e)
          | None =>
              if bool_decide (scheme = "tcp"%string) then connect_over true false c sp (dial scheme host) msg
              else retM (c, Some ErrInvalidConnectionType)
          end
      end
  end.

(** the first three numbers of the prefix and [i + 1]; a syllable that is no number
    counts as zero *)
Definition virtual_ip (prefix : list Z) (i : Z) : outcome (list Z) :=
  let sp := Split prefix 46 in
  let num j := let! s := index sp j in Ret (u8 (match Atoi s with inl n => n | inr _ => 0 end)) in
  let! a := num 0 in
  let! b := num 1 in
  let! d := num 2 in
  Ret [a; b; d; u8 (i + 1)].

(** [DialCustom]: the local address and port are given to the dialer *)
Definition VirtualIPConnectOld (c : Client) (sp : list Z) (dialFrom : list Z -> Z -> string -> string -> Conn + error)
    (uri : string) (prefix : list Z) (i port : Z) (msg : option ConnectMessage) : M (Client * option error) :=
  let c := checkConfiguration c in
  dial_tcp uri msg (fun scheme host msg =>
    do ip <- lift (virtual_ip prefix i) ;;
    connect_over true false c sp (dialFrom ip port scheme host) msg) c.

Definition VirtualIPConnect (c : Client) (sp : list Z) (dialFrom : list Z -> Z -> string -> string -> Conn + error)
    (uri : string) (ip : list Z) (port : Z) (msg : option ConnectMessage) : M (Client * option error) :=
  let c := checkConfiguration c in
  dial_tcp uri msg (fun scheme host msg => connect_over true true c sp (dialFrom ip port scheme host) msg) c.

(** ** Requests, before a connection a nil dereference *)

Definition Publish (c : Client) (msg : PublishMessage) (f : option Z) : M (option error) :=
  do svc <- deref (cl_svc c) ;;
  do r <- publish answer svc msg (match f with Some k => OcCaller k | None => OcNil end) ;;
  retM r.2.

Definition Subscribe (c : Client) (msg : Subscribe.SubscribeMessage) (f onPublish : option Z) : M (option error) :=
  do svc <- deref (cl_svc c) ;; subscribe svc msg f onPublish.

Definition Unsubscribe (c : Client) (msg : Unsubscribe.UnsubscribeMessage) (f : option Z) : M (option error) :=
  do svc <- deref (cl_svc c) ;; unsubscribe svc msg f.

Definition Ping (c : Client) (f : option Z) : M (option error) :=
  do svc <- deref (cl_svc c) ;; ping svc f.

Definition Disconnect (c : Client) : M unit :=
  do svc <- deref (cl_svc c) ;;
  stop intn answer rpcLogout joined svc ;;;
  update_state svc Shutdown.

Definition GetState (c : Client) : M Z :=
  do svc <- deref (cl_svc c) ;; do s <- get_svc svc ;; retM (getState (csMgr s)).

(** [WaitForStateChange] up to its [select]: [None] when it returns true at once,
    else the channel it waits for besides the context *)
Definition WaitForStateChange (c : Client) (sourceState : Z) : M (option Z) :=
  do svc <- deref (cl_svc c) ;;
  do s <- get_svc svc ;;
  let '(m, ch) := getNotifyChan (csMgr s) in
  upd_svc svc (set_csm m) ;;;
  retM (if negb (getState m =? sourceState) then None else Some ch).
End Client.
