(* ===== verification/LibSample.v ===== *)
(** * LibSample: a small server of the library

    A server on which devices [d1] and [d2] of product [pk] connect and the second
    subscribes to the topic "a".  The theorems about the library are tried on it. *)
From stdpp Require Import base list strings gmap.
From Stdlib Require Import ZArith Lia.
From S2P Require Import Prelude GoLang GoStrings NetConn Framing Connectivity MsgTypes Header Publish Connect Connack Message.
From S2P Require Import LibQueue LibSession LibWorld LibService LibServer.
From S2P Require Topics Subscribe LibClient.

Definition first_member (gl : list Topics.iface) : Z := 0.
Definition no_answer (k : Z) (m : Message) (a : option Message) (e : option error) : option error := None.
Definition all_end (x : Z) : bool := true.
Definition rpc_ok (a b c : list Z) : option error := None.

Definition mock_auths : gmap string bool := match Auth.initial with Ret r => r | Panic _ => ∅ end.

(** after [Init]; the provider "mem" of topics is at 0 *)
Definition fresh_world : world :=
  mkWorld ∅ ∅ (mkHeap ∅ 0) ∅ {[0 := Topics.NewMemProvider]} {[str "mem" := 0]} ∅ 1 0 0 []
    (mkServer 0 0 0 0 "" "" "" None false None ChNil None (str "n") (Some ∅) 0 false []).

(** the CONNECT of device [name] *)
Definition device_connect (clean : bool) (name : list Z) : ConnectMessage :=
  let m := fst (SetVersion NewConnectMessage 4) in
  let m := SetCleanSession m clean in
  let m := fst (SetClientId m (name ++ str "|x")) in
  let m := SetKeepAlive m 60 in
  SetPassword (SetUsername m (name ++ str "&pk")) (str "x").

(** the same with a will *)
Definition will_connect (clean : bool) (name : list Z) : ConnectMessage :=
  SetWillMessage (SetWillTopic (device_connect clean name) (str "a")) (str "gone").

(** connection [c] arrives and is served *)
Definition arrive_with (c : Z) (m : ConnectMessage) (w : world) : result (Z + error) * world :=
  handleConnection first_member no_answer rpc_ok rpc_ok all_end mock_auths {["mem"%string]} [] None c
    (set_conns (<[c:=dial [connect_wire (str "MQTT") m] EOF]> (conns w)) w).
Definition arrive (c : Z) (clean : bool) (name : list Z) : world -> result (Z + error) * world := arrive_with c (device_connect clean name).

(** the first and the second service of a fresh world *)
Definition two_devices : world := snd (arrive 1 true (str "d2") (snd (arrive 0 true (str "d1") fresh_world))).
Definition d1 : Z := 2.
Definition d2 : Z := 4.

(** bytes arrive in the incoming ring *)
Definition feed (x : Z) (bs : list Z) (w : world) : world :=
  snd (upd_svc x (fun s => set_bufs (ring_append bs <$> inb s) (outb s) s) w).

(** a round of the processor *)
Definition process (x : Z) (w : world) : result (option bool) * world := processor_round first_member no_answer [] x w.

(** [d2] has subscribed to "a" at QoS 1 *)
Definition subscribed : world := snd (process d2 (feed d2 [130; 6; 0; 9; 0; 1; 97; 1] two_devices)).

(** the end of the connection of [x] *)
Definition hang_up (x : Z) (w : world) : world := snd (stop first_member no_answer rpc_ok all_end x w).

(** [d1] has connected for a lasting session, without a will, and has gone *)
Definition away : world := hang_up d1 (snd (arrive 0 false (str "d1") fresh_world)).

(** and has come back with one; what was decoded from its CONNECT *)
Definition resumed : world := snd (arrive_with 1 (will_connect false (str "d1")) away).
Definition will_bytes : list Z := connect_wire (str "MQTT") (will_connect false (str "d1")).
Definition decoded (bs : list Z) : ConnectMessage :=
  match Connect.Decode NewConnectMessage (mkslice bs) with Ret (m, _, None) => m | _ => NewConnectMessage end.

(** the services run, and both steps above went well *)
Example both_connect :
  fst (arrive 0 true (str "d1") fresh_world) = Ok (inl d1) /\
  fst (arrive 1 true (str "d2") (snd (arrive 0 true (str "d1") fresh_world))) = Ok (inl d2) /\
  fst (arrive_with 1 (will_connect false (str "d1")) away) = Ok (inl 4) /\
  fst (process d2 (feed d2 [130; 6; 0; 9; 0; 1; 97; 1] two_devices)) = Ok (Some true).
Proof. vm_compute. repeat split; reflexivity. Qed.

(** ** A client *)

Definition parse_tcp (uri : string) : (string * string) + error := inl ("tcp"%string, uri).

(** a client connects to a server that accepts it *)
Definition connected_client : result (LibClient.Client * option error) * world :=
  LibClient.Connect first_member no_answer rpc_ok rpc_ok all_end parse_tcp (LibClient.mkClient 0 0 0 0 None) []
    (fun _ _ => inl (dial [[32; 2; 0; 0]] EOF)) "host" (Some (device_connect true (str "c"))) fresh_world.

(** and asks for the topics "a" at QoS 1 and "b" at QoS 2; its application has the
    functions 70, for the completion, and 71 *)
Definition add (m : Subscribe.SubscribeMessage) (topic : list Z) (q : Z) : Subscribe.SubscribeMessage :=
  match Subscribe.AddTopic m topic q with Ret (m, _) => m | Panic _ => m end.
Definition ask : Subscribe.SubscribeMessage :=
  let m := add (add Subscribe.NewSubscribeMessage (str "a") 1) (str "b") 2 in
  Subscribe.with_hdr (SetPacketId (Subscribe.hdr m) 9) m.

Definition client_service : Z := 3.
Definition asking : world := snd (subscribe client_service ask (Some 70) (Some 71) (snd connected_client)).

Example client_connects :
  match fst connected_client with Ok (c, None) => LibClient.cl_svc c = Some client_service | _ => False end /\
  fst (subscribe client_service ask (Some 70) (Some 71) (snd connected_client)) = Ok None.
Proof. vm_compute. split; reflexivity. Qed.
