(* ===== verification/LibRouting.v ===== *)
(** * LibRouting: from a publisher to its subscribers, in the library
      ([onPublish], [processPublish], [processIncoming] of
      [utils/surgemq/surgemq/service/process.go])

    What a service of the library puts on its ring, and the way of a PUBLISH at each
    QoS through the topic tree to the rings of the subscribers.

    Nothing here depends on how a connection is served: rings are read by the sender,
    which [Sendrecv] and [Outgoing] describe for the later copy of the code. *)
From stdpp Require Import base list strings gmap.
From Stdlib Require Import ZArith Lia.
From S2P Require Import Prelude GoLang GoStrings NetConn MsgTypes Header Puback Publish Message.
From S2P Require Import LibQueue LibSession LibWorld LibService.
From S2P Require Topics TopicsSpec TopicManager AckQueue Buffer Delivery Framing LibSample.

#[local] Existing Instance TopicManager.memTopics_provider.

(** ** Messages that keep the packet they were decoded from *)

Record keeps (m : PublishMessage) (bs : list Z) : Prop := {
  kp_clean : dirty (Publish.hdr m) = false;
  kp_bytes : vis (dbuf (Publish.hdr m)) = bs;
  kp_flags : mtypeflags (Publish.hdr m) = Sub 0 1
}.

Lemma decoded_keeps m0 bs sp m n : Publish.Decode m0 (Slice bs sp) = Ret (m, n, None) -> keeps m bs.
Proof.
  intros H. destruct (Publish.Decode_inv _ _ _ _ H) as (b & h & hn & s & t & tn & p & _ & _ & _ & _ & _ & _ & _ & _ & _ & Hf & Hb & Hd & _).
  constructor; [done|by rewrite Hb|done].
Qed.

Section Keeps.
Context (m : PublishMessage) (b : Z) (tl : list Z) (K : keeps m (b :: tl)).

Lemma keeps_byte : rd (Publish.hdr m) (mtypeflags (Publish.hdr m)) = [b].
Proof. destruct K as [_ Hb Hf]. rewrite Hf. cbn [rd]. unfold backing. rewrite Hb. done. Qed.

Lemma keeps_len : msg_Len (MPublish m) = Ret (MPublish m, zlen (b :: tl)).
Proof.
  destruct K as [Hd Hb _]. unfold msg_Len, dispatch. rewrite clean_len by exact Hd. cbn [pk_hdr publish_packet].
  unfold len. by rewrite Hb.
Qed.

Lemma keeps_encode g : msg_Encode (MPublish m) g (replicate (Z.to_nat (zlen (b :: tl))) 0)
  = Ret (MPublish m, g, b :: tl, zlen (b :: tl), None).
Proof.
  destruct K as [Hd Hb _]. unfold msg_Encode, dispatch.
  rewrite (clean_encode (M:=PublishMessage)) by (first [exact Hd | cbn [pk_hdr publish_packet]; unfold len; rewrite Hb; zl]).
  cbn [pk_hdr publish_packet]. unfold len. rewrite Hb, bindO_ret, filled_all by zl. done.
Qed.

Lemma keeps_encoded g : encoded (MPublish m) g (b :: tl) (MPublish m) g.
Proof. eexists _, _, _. split; [apply keeps_len|apply keeps_encode]. Qed.

(** a clear RETAIN flag is cleared without effect *)
Lemma keeps_SetRetain : is_byte b -> retain_of b = false -> SetRetain m false = Ret m.
Proof.
  intros Hb Hr. unfold SetRetain, update_flags. rewrite keeps_byte, index_0, bindO_ret.
  assert (E : Z.land b 254 = b).
  { pose proof (byte_forall (fun b => retain_of b || (Z.land b 254 =? b)) ltac:(vm_compute; reflexivity) b Hb) as H.
    cbv beta in H. rewrite Hr in H. cbn in H. lia. }
  rewrite E. unfold store_mtypeflags. destruct K as [_ Hv Hf]. rewrite Hf.
  destruct m as [[r f p d dt] t pl]. cbn [Publish.hdr dbuf with_hdr with_dbuf mtypeflags] in *. subst f.
  unfold with_dbuf, Publish.with_hdr, slice_set, backing. destruct d as [v s]. cbn in *. subst v. cbn.
  rewrite take_app_length, drop_app_length. done.
Qed.
End Keeps.

(** ** What a service offers *)

(** the bytes in the outgoing ring, when it is open *)
Definition out_of (w : world) (x : Z) : option (list Z) :=
  s ← svcs w !! x; r ← outb s; if rg_done r then None else Some (rg_bytes r).

(** the entries of a queue of its session *)
Definition pends (w : world) (x : Z) (k : qsel) (es : list (ackmsg completion)) : Prop :=
  exists s l ss q, svcs w !! x = Some s /\ sess s = Some l /\ cells (sessions w) !! l = Some ss /\
    get_q ss k = Some q /\ holds q es.

(** the messages that came in at QoS 2 and are not released yet *)
Definition inbox (w : world) (x : Z) (es : list (ackmsg completion)) : Prop :=
  exists s l ss q, svcs w !! x = Some s /\ sess s = Some l /\ cells (sessions w) !! l = Some ss /\
    Pub2in ss = Some q /\ holds q es /\ State (LibQueue.ping q) <> PINGRESP.

(** what sending and queueing leave alone *)
Definition links (s : service) :=
  (cfg s, conn s, sess s, topicsMgr s, closed s, done_closed s, keepAliveCH s, inb s, (beat s, csMgr s)).
Definition sess_rest (s : Session completion) := (Cmsg s, Will s, Retained s, sess_topics s, initted s, id s).
Definition others (w : world) := (conns w, store w, trees w, providers w, funs w, next w, gid w, (gsvcid w, srv w)).

(** queue [k] of the session at [l] *)
Definition queue_at (k : qsel) (w : world) (l : Z) : option (option (Ackqueue completion)) :=
  (fun ss => get_q ss k) <$> cells (sessions w) !! l.

(** [w'] is [w] after bytes went to outgoing rings, [sent x] to that of [x], functions
    of the application were called, and messages were queued: [add] has the service,
    the queue and the identifier of each.  A queue keeps its entries and gains
    such messages only; a queue that no message of [add] went to is as it was.
    The queue of messages that came in at QoS 2 is not looked at in the session of
    service [i] *)
Definition aside (i : option Z) (w : world) (l : Z) (k : qsel) : Prop :=
  k = QPub2in /\ exists x s, i = Some x /\ svcs w !! x = Some s /\ sess s = Some l.

Record routed_ (i : option Z) (add : list (Z * qsel * Z)) (sent : Z -> list Z) (evs : list event) (w w' : world) : Prop := {
  rt_out x : out_of w' x = (fun o => o ++ sent x) <$> out_of w x;
  rt_calls : calls w' = calls w ++ evs;
  rt_links x : links <$> svcs w' !! x = links <$> svcs w !! x;
  rt_cells l : sess_rest <$> cells (sessions w') !! l = sess_rest <$> cells (sessions w) !! l;
  rt_rest : others w' = others w;
  rt_queues x k es : (forall s l, svcs w !! x = Some s -> sess s = Some l -> ~ aside i w l k) -> pends w x k es -> exists new, pends w' x k (es ++ new) /\
    zlen new <= zlen add /\ Forall (fun e => exists y, (y, k, Pktid e) ∈ add) new;
  rt_frame l k : ~ aside i w l k ->
    (forall y v s, (y, k, v) ∈ add -> svcs w !! y = Some s -> sess s <> Some l) -> queue_at k w' l = queue_at k w l;
  rt_in x es : i = None -> inbox w x es -> inbox w' x es
}.
Abbreviation routed := (routed_ None).

Lemma not_aside w l k : ~ aside None w l k.
Proof. by intros (_ & x & s & [=] & _). Qed.

Definition to_one (x : Z) (bs : list Z) (y : Z) : list Z := if decide (y = x) then bs else [].

(** nothing was queued *)
Lemma pends_stay w' x k es (add : list (Z * qsel * Z)) : pends w' x k es ->
  exists new, pends w' x k (es ++ new) /\ zlen new <= zlen add /\ Forall (fun e => exists y, (y, k, Pktid e) ∈ add) new.
Proof. intros H. exists []. rewrite app_nil_r. split; [done|]. split; [apply zlen_nonneg|constructor]. Qed.

Lemma routed_refl i w : routed_ i [] (fun _ => []) [] w w.
Proof.
  constructor; try done.
  - intros x. destruct (out_of w x); cbn; by rewrite ?app_nil_r.
  - by rewrite app_nil_r.
  - intros x k es _ H. by apply pends_stay.
Qed.

Lemma sess_routed i a s e w w' y sv' : routed_ i a s e w w' -> svcs w' !! y = Some sv' ->
  exists sv, svcs w !! y = Some sv /\ sess sv = sess sv'.
Proof.
  intros R H. pose proof (rt_links _ _ _ _ _ _ R y) as E. rewrite H in E. destruct (svcs w !! y) as [sv|]; [|done].
  exists sv. split; [done|]. unfold links in E. cbn in E. congruence.
Qed.

Lemma aside_routed i a s e w w' l k : routed_ i a s e w w' -> ~ aside i w l k -> ~ aside i w' l k.
Proof.
  intros R H (Hk & x & sv' & Hi & Hx & Hl). apply H. destruct (sess_routed _ _ _ _ _ _ _ _ R Hx) as (sv & Hsv & E).
  split; [done|]. exists x, sv. by rewrite E.
Qed.

Lemma routed_trans i n1 n2 s1 s2 e1 e2 w1 w2 w3 : routed_ i n1 s1 e1 w1 w2 -> routed_ i n2 s2 e2 w2 w3 ->
  routed_ i (n1 ++ n2) (fun x => s1 x ++ s2 x) (e1 ++ e2) w1 w3.
Proof.
  intros R1 R2. pose proof R1 as [O1 C1 L1 S1 T1 Q1 F1 I1]. pose proof R2 as [O2 C2 L2 S2 T2 Q2 F2 I2]. constructor; try congruence.
  - intros x. rewrite O2, O1. destruct (out_of w1 x); cbn; by rewrite ?app_assoc.
  - by rewrite C2, C1, app_assoc.
  - intros x k es Hk H. destruct (Q1 x k es Hk H) as (new1 & H1 & P1 & N1). destruct (Q2 x k (es ++ new1)) as (new2 & H2 & P2 & N2); [|done|].
    { intros sv' l Hx Hl. destruct (sess_routed _ _ _ _ _ _ _ _ R1 Hx) as (sv & Hsv & E). apply (aside_routed _ _ _ _ _ _ _ _ R1). by apply (Hk sv l); [|rewrite E]. }
   
    exists (new1 ++ new2). rewrite app_assoc. split; [done|]. split; [zl|]. apply Forall_app. split.
    + eapply Forall_impl; [exact N1|]. intros a [y Hy]. exists y. apply elem_of_app. by left.
    + eapply Forall_impl; [exact N2|]. intros a [y Hy]. exists y. apply elem_of_app. by right.
  - intros l k Hk H. rewrite F2; [apply F1; [done|]|by apply (aside_routed _ _ _ _ _ _ _ _ R1)|].
    + intros y v sv Hy. apply (H y v). apply elem_of_app. by left.
    + intros y v sv Hy Hsv. destruct (sess_routed _ _ _ _ _ _ _ _ R1 Hsv) as (sv0 & Hsv0 & <-).
      apply (H y v); [apply elem_of_app; by right|done].
  - auto.
Qed.

Lemma routed_ext i n n' s s' e w w' : n `sublist_of` n' -> (forall x, s x = s' x) -> routed_ i n s e w w' -> routed_ i n' s' e w w'.
Proof.
  intros Hn Hs [O1 C1 L1 S1 R1 Q1 F1 I1]. constructor; try done.
  - intros x. by rewrite O1, Hs.
  - intros x k es Hk H. destruct (Q1 x k es Hk H) as (new & H1 & P1 & N1). exists new. split; [done|].
    split; [apply sublist_length in Hn; unfold zlen in *; lia|]. eapply Forall_impl; [exact N1|]. intros a [y Hy]. exists y.
    by apply (sublist_subseteq _ _ Hn).
  - intros l k Hk H. apply F1; [done|]. intros y v sv Hy. apply (H y v). by apply (sublist_subseteq _ _ Hn).
Qed.

(** ** Access *)

Lemma lib_get_svc_ok w x s : svcs w !! x = Some s -> get_svc x w = (Ok s, w).
Proof. intros H. unfold get_svc. by rewrite lbind_gets, H. Qed.

Lemma lib_upd_svc_ok w x s f : svcs w !! x = Some s -> upd_svc x f w = (Ok tt, set_svcs (<[x:=f s]> (svcs w)) w).
Proof. intros H. unfold upd_svc. by rewrite (lbind_step _ _ _ _ _ (lib_get_svc_ok w x s H)). Qed.

Lemma lib_get_sess_ok w x s l ss : svcs w !! x = Some s -> sess s = Some l -> cells (sessions w) !! l = Some ss ->
  get_sess x w = (Ok (l, ss), w).
Proof.
  intros H1 H2 H3. unfold get_sess. rewrite (lbind_step _ _ _ _ _ (lib_get_svc_ok w x s H1)), H2, lbind_deref, lbind_gets, H3. done.
Qed.

Lemma lib_get_queue_ok w x k s l ss q : svcs w !! x = Some s -> sess s = Some l -> cells (sessions w) !! l = Some ss ->
  get_q ss k = Some q -> get_queue x k w = (Ok (l, ss, q), w).
Proof.
  intros H1 H2 H3 H4. unfold get_queue. rewrite (lbind_step _ _ _ _ _ (lib_get_sess_ok w x s l ss H1 H2 H3)).
  cbn [fst snd]. by rewrite H4.
Qed.

Lemma get_tree_ok w x s t tr : svcs w !! x = Some s -> topicsMgr s = Some t -> trees w !! t = Some tr ->
  get_tree x w = (Ok (t, tr), w).
Proof.
  intros H1 H2 H3. unfold get_tree. rewrite (lbind_step _ _ _ _ _ (lib_get_svc_ok w x s H1)), H2, lbind_deref, lbind_gets, H3. done.
Qed.

Lemma out_of_inv w x o : out_of w x = Some o ->
  exists s r, svcs w !! x = Some s /\ outb s = Some r /\ rg_done r = false /\ rg_bytes r = o.
Proof.
  unfold out_of. destruct (svcs w !! x) as [s|]; [|done]. cbn. destruct (outb s) as [r|] eqn:Er; [|done]. cbn.
  destruct (rg_done r) eqn:Ed; [done|]. intros [= <-]. by exists s, r.
Qed.

Lemma get_set_same ss k q : get_q (set_q ss k q) k = Some q.
Proof. destruct k; reflexivity. Qed.

Lemma get_set_other ss k q k' : k' <> k -> get_q (set_q ss k q) k' = get_q ss k'.
Proof. destruct k, k'; done. Qed.

(** the queue [k] of session [l], which was [ss], is [q'] *)
Definition with_queue (k : qsel) (l : Z) (ss : Session completion) (q' : Ackqueue completion) (w : world) : world :=
  set_sessions (set_cell l (set_q ss k q') (sessions w)) w.

Lemma ack_ok w k this s l ss q q' msg msg' : svcs w !! this = Some s -> sess s = Some l -> cells (sessions w) !! l = Some ss ->
  get_q ss k = Some q -> Ack q (gid w) msg = Ret (q', gid w, msg', None) ->
  ack this k msg w = (Ok None, with_queue k l ss q' w).
Proof.
  intros Hs Hl Hc Hq HA. unfold ack. rewrite (lbind_step _ _ _ _ _ (lib_get_queue_ok w this k s l ss q Hs Hl Hc Hq)). cbv beta iota.
  rewrite lbind_gets, HA, lbind_lift. cbv beta iota. unfold put_sess. rewrite !lbind_modify. unfold retM, with_queue. by destruct w.
Qed.

Lemma acked_ok w k this s l ss q es : svcs w !! this = Some s -> sess s = Some l -> cells (sessions w) !! l = Some ss ->
  get_q ss k = Some q -> holds q es -> State (LibQueue.ping q) <> PINGRESP ->
  exists q', acked this k w = (Ok (fst (AckQueue.span finished es)), with_queue k l ss q' w) /\
    holds q' (snd (AckQueue.span finished es)) /\ State (LibQueue.ping q') <> PINGRESP.
Proof.
  intros Hs Hl Hc Hq Hh Hp. destruct (Acked_holds q es Hh) as (q' & HA & Hh' & Hp'). exists q'.
  unfold ping_done, ping_after in *. destruct (State (LibQueue.ping q) =? PINGRESP) eqn:E; [lia|].
  split; [|split; [done|by rewrite Hp']]. unfold acked. rewrite (lbind_step _ _ _ _ _ (lib_get_queue_ok w this k s l ss q Hs Hl Hc Hq)). cbv beta iota.
  rewrite HA, lbind_lift. done.
Qed.

(** ** One message *)

Lemma writeMessage_sends w x o msg m1 m2 bs : out_of w x = Some o -> zlen bs <= Buffer.defaultBufferSize ->
  msg_Len msg = Ret (m1, zlen bs) ->
  msg_Encode m1 (gid w) (replicate (Z.to_nat (zlen bs)) 0) = Ret (m2, gid w, bs, zlen bs, None) ->
  exists w', writeMessage x msg w = (Ok (m2, None), w') /\ routed [] (to_one x bs) [] w w'.
Proof.
  intros Ho Hmax HL HE. destruct (out_of_inv w x o Ho) as (s & r & Hs & Hr & Hd & Hb).
  unfold writeMessage. rewrite HL, lbind_lift. cbv beta iota.
  rewrite (lbind_step _ _ _ _ _ (lib_get_svc_ok w x s Hs)), Hr, Hd. guard_false.
  rewrite lbind_gets, HE, lbind_lift. cbv beta iota. rewrite lbind_modify.
  assert (Hsub : subslice bs 0 (zlen bs) = Ret bs).
  { unfold subslice. destruct (_ && _) eqn:E; [|zl]. cbn [Z.to_nat]. by rewrite drop_0, Z.sub_0_r, to_nat_zlen, firstn_all. }
  rewrite Hsub, lbind_lift. erewrite lbind_step by (apply lib_upd_svc_ok; exact Hs). eexists. split; [reflexivity|].
  set (s' := set_stats _ _ _). constructor.
  - intros y. unfold out_of, to_one. cbn [svcs set_svcs set_gid]. destruct (decide (y = x)) as [->|Hn].
    + rewrite lookup_insert_eq, Hs. cbn. rewrite Hr. cbn. by rewrite Hd.
    + rewrite lookup_insert_ne by done. destruct (_ ≫= _) as [o'|]; cbn; by rewrite ?app_nil_r.
  - cbn. by rewrite app_nil_r.
  - intros y. cbn [svcs set_svcs set_gid]. destruct (decide (y = x)) as [->|Hn]; [by rewrite lookup_insert_eq, Hs|by rewrite lookup_insert_ne].
  - done.
  - reflexivity.
  - intros y k es _ (sy & l & ss & q & H1 & H2 & H3). apply pends_stay.
    destruct (decide (y = x)) as [->|Hn]; [exists s', l, ss, q; cbn; rewrite lookup_insert_eq; split; [done|]; rewrite Hs in H1; injection H1 as <-; done|].
    exists sy, l, ss, q. cbn. by rewrite lookup_insert_ne.
  - done.
  - intros y es _ (sy & l & ss & q & H1 & H2 & H3).
    destruct (decide (y = x)) as [->|Hn]; [exists s', l, ss, q; cbn; rewrite lookup_insert_eq; split; [done|]; rewrite Hs in H1; injection H1 as <-; done|].
    exists sy, l, ss, q. cbn. by rewrite lookup_insert_ne.
Qed.

(** a session with one queue replaced *)
Lemma put_queue_routed w x k v es s l ss q q' : k <> QPub2in -> svcs w !! x = Some s -> sess s = Some l ->
  cells (sessions w) !! l = Some ss -> get_q ss k = Some q -> holds q es ->
  (forall es1, holds q es1 -> zlen es1 = zlen es -> exists new, holds q' (es1 ++ new) /\ zlen new <= 1 /\ Forall (fun e => Pktid e = v) new) ->
  routed [(x, k, v)] (fun _ => []) [] w (set_gid (gid w) (set_sessions (set_cell l (set_q ss k q') (sessions w)) w)).
Proof.
  intros Hk Hs Hl Hc Hq Hh Hgrow. constructor; try done.
  - intros y. cbn. unfold out_of. cbn. destruct (_ ≫= _); cbn; by rewrite ?app_nil_r.
  - cbn. by rewrite app_nil_r.
  - intros l'. cbn. destruct (decide (l' = l)) as [->|Hn]; [by rewrite lookup_insert_eq, Hc|by rewrite lookup_insert_ne].
  - intros y k' es1 _ (sy & l1 & ss1 & q1 & H1 & H2 & H3 & H4 & H5).
    destruct (decide (l1 = l)) as [->|Hn].
    + rewrite Hc in H3. injection H3 as <-. destruct (decide (k' = k)) as [->|Hn].
      * rewrite Hq in H4. injection H4 as <-.
        destruct (Hgrow es1 H5) as (new & H6 & H7 & H8); [by rewrite <- (holds_count _ _ H5), (holds_count _ _ Hh)|].
        exists new. split; [|split; [done|]].
        -- exists sy, l, (set_q ss k q'), q'. split_and!; try done; [cbn; by rewrite lookup_insert_eq|by rewrite get_set_same].
        -- eapply Forall_impl; [exact H8|]. intros e ->. exists x. apply list_elem_of_here.
      * apply pends_stay. exists sy, l, (set_q ss k q'), q1. split_and!; try done; [cbn; by rewrite lookup_insert_eq|by rewrite get_set_other].
    + apply pends_stay. exists sy, l1, ss1, q1. cbn. by rewrite lookup_insert_ne.
  - intros l' k' _ H. unfold queue_at. cbn. destruct (decide (l' = l)) as [->|Hn]; [|by rewrite lookup_insert_ne].
    rewrite lookup_insert_eq, Hc. cbn. destruct (decide (k' = k)) as [->|Hn]; [|by rewrite get_set_other].
    destruct (H x v s); [apply list_elem_of_here|done..].
  - intros y es1 _ (sy & l1 & ss1 & q1 & H1 & H2 & H3 & H4 & H5 & H6).
    destruct (decide (l1 = l)) as [->|Hn].
    + rewrite Hc in H3. injection H3 as <-. exists sy, l, (set_q ss k q'), q1. split_and!; try done; [cbn; by rewrite lookup_insert_eq|change (get_q (set_q ss k q') QPub2in = Some q1); by rewrite get_set_other].
    + exists sy, l1, ss1, q1. cbn. by rewrite lookup_insert_ne.
Qed.

(** the identifier is in the queue of the session *)
Definition awaits (w : world) (x : Z) (k : qsel) (pid : Z) : Prop := exists es, pends w x k es /\ pid ∈ ids es.

Lemma wait_routed w x k es msg oc bs : k <> QPub2in -> pends w x k es -> zlen es < 2 ^ 62 -> waits msg ->
  encoded msg (gid w) bs msg (gid w) -> (forall pm, msg = MPublish pm -> exists r, Dup pm = Ret r) ->
  exists w', wait x k msg oc w = (Ok (msg, None), w') /\ routed [(x, k, msg_PacketId msg)] (fun _ => []) [] w w' /\
    awaits w' x k (msg_PacketId msg).
Proof.
  intros Hk (s & l & ss & q & Hs & Hl & Hc & Hq & Hh) Hn Hw He Hdup.
  assert (Hr : exists r, forall pm, msg = MPublish pm -> Dup pm = Ret r).
  { destruct msg; try (exists false; done). destruct (Hdup _ eq_refl) as [r Hr]. exists r. by intros pm [= <-]. }
  destruct Hr as [r Hr].
  assert (Hgrow : forall es1, holds q es1 -> zlen es1 = zlen es -> exists q' new, Wait q (gid w) msg oc = Ret (q', gid w, msg, None) /\
    holds q' (es1 ++ new) /\ zlen new <= 1 /\ Forall (fun e => Pktid e = msg_PacketId msg) new /\ msg_PacketId msg ∈ ids (es1 ++ new)).
  { intros es1 H1 Hz. destruct (decide (msg_PacketId msg ∈ ids es1)) as [Hin|Hni].
    - destruct (Wait_old q es1 (gid w) msg oc r Hw H1 ltac:(lia) Hin Hr) as (q' & E & _ & H2). exists q', []. rewrite app_nil_r.
      split; [done|]. split; [done|]. split; [zl|]. split; [constructor|done].
    - destruct (Wait_new q es1 (gid w) msg oc bs msg (gid w) Hw H1 ltac:(lia) Hni He) as (q' & E & _ & H2). eexists q', _. split; [done|]. split; [exact H2|].
      split; [zl|]. split; [by repeat constructor|]. unfold ids. rewrite fmap_app. apply elem_of_app. right. by apply list_elem_of_singleton. }
  destruct (Hgrow es Hh eq_refl) as (q' & new & HW & Hh2 & _ & _ & Hin).
  unfold wait. rewrite (lbind_step _ _ _ _ _ (lib_get_queue_ok w x k s l ss q Hs Hl Hc Hq)). cbv beta iota.
  rewrite lbind_gets, HW, lbind_lift. cbv beta iota. unfold put_sess. rewrite !lbind_modify. eexists. split; [reflexivity|].
  split.
  - apply (put_queue_routed w x k (msg_PacketId msg) es s l ss q q'); try done. intros es1 H1 Hz.
    destruct (Hgrow es1 H1 Hz) as (q1 & new1 & HW1 & H2 & H3 & H4 & _). rewrite HW in HW1. injection HW1 as <-. by exists new1.
  - exists (es ++ new). split; [|done]. exists s, l, (set_q ss k q'), q'. split_and!; try done; [cbn; by rewrite lookup_insert_eq|by rewrite get_set_same].
Qed.

(** the queue that a PUBLISH waits in *)
Definition pub_queue (q : Z) : qsel := if q =? QosAtLeastOnce then QPub1ack else QPub2out.

(** service [x] takes [n] more messages at QoS [q] *)
Definition ready (q n : Z) (w : world) (x : Z) : Prop :=
  is_Some (out_of w x) /\
  (q <> QosAtMostOnce -> exists es, pends w x (pub_queue q) es /\ zlen es + n <= 2 ^ 62).

Lemma pub_queue_out q : pub_queue q <> QPub2in.
Proof. unfold pub_queue. by destruct (q =? QosAtLeastOnce). Qed.

Lemma queues_routed i n s e w w' x k es : k <> QPub2in -> routed_ i n s e w w' -> pends w x k es ->
  exists new, pends w' x k (es ++ new) /\ zlen new <= zlen n /\ Forall (fun e => exists y, (y, k, Pktid e) ∈ n) new.
Proof. intros Hk R. apply (rt_queues _ _ _ _ _ _ R). by intros sv l _ _ [? _]. Qed.

(** what the subscribers [ps] of a message at QoS [q] queue *)
Definition adds (q pid : Z) (ps : list publication) : list (Z * qsel * Z) :=
  omap (fun p => match p with PubService x => if q =? QosAtMostOnce then None else Some (x, pub_queue q, pid) | _ => None end) ps.

Lemma zlen_adds q pid ps : zlen (adds q pid ps) <= zlen ps.
Proof.
  unfold adds. induction ps as [|p ps IH]; [done|]. cbn [omap list_omap]. destruct p; [|destruct (q =? QosAtMostOnce)|]; zl.
Qed.

Lemma elem_of_adds q pid ps y k v : (y, k, v) ∈ adds q pid ps -> q <> QosAtMostOnce /\ k = pub_queue q /\ v = pid /\ PubService y ∈ ps.
Proof.
  unfold adds. rewrite list_elem_of_omap. intros (p & Hp & E). destruct p; try done. destruct (q =? QosAtMostOnce) eqn:Eq; [done|].
  injection E as <- <- <-. split; [lia|done].
Qed.

Lemma ready_routed i q n k a s e w w' x : ready q (n + k) w x -> routed_ i a s e w w' -> zlen a <= k -> ready q n w' x.
Proof.
  intros [[o Ho] Hq] R Hk. split.
  - rewrite (rt_out _ _ _ _ _ _ R), Ho. by eexists.
  - intros Hn. destruct (Hq Hn) as (es & H1 & H2). destruct (queues_routed _ _ _ _ _ _ _ _ _ (pub_queue_out q) R H1) as (es' & H3 & H4 & _).
    exists (es ++ es'). split; [done|zl].
Qed.

Lemma awaits_routed i n s e w w' x k pid : k <> QPub2in -> awaits w x k pid -> routed_ i n s e w w' -> awaits w' x k pid.
Proof.
  intros Hk (es & H1 & H2) R. destruct (queues_routed _ _ _ _ _ _ _ _ _ Hk R H1) as (t & H3 & _).
  exists (es ++ t). split; [done|]. unfold ids. rewrite fmap_app. apply elem_of_app. by left.
Qed.

Section Routing.
Context (intn : list Topics.iface -> Z)
        (answer : Z -> Message -> option Message -> option error -> option error).
Implicit Types w : world.

(** subscriber [i] of the tree is the function [p] *)
Definition resolves w (i : Topics.iface) (p : publication) : Prop :=
  exists l, i = Topics.IPtr l /\ funs w !! l = Some p /\ p <> PubNil.

(** what the subscribers [ps] make service [x] send, and the functions they call *)
Definition copies (bs : list Z) (ps : list publication) (x : Z) : list Z :=
  concat (map (fun p => match p with PubService y => to_one y bs x | _ => [] end) ps).
Lemma resolves_routed j n s e w w' i p : resolves w i p -> routed_ j n s e w w' -> resolves w' i p.
Proof. intros (l & H1 & H2 & H3) R. exists l. pose proof (rt_rest _ _ _ _ _ _ R) as E. injection E as _ _ _ _ E _ _ _ _. by rewrite E. Qed.

(** the subscribers that the tree at [t] finds for a topic *)
Definition finds (q : Z) (w : world) (t : Z) (topic : list Z) (subs : list Topics.iface) : Prop :=
  exists tr qs, trees w !! t = Some tr /\ Topics.Subscribers intn tr topic q ([], []) = Ret ((subs, qs), None).

Lemma finds_routed i n s e w w' q t topic subs : finds q w t topic subs -> routed_ i n s e w w' -> finds q w' t topic subs.
Proof.
  intros (tr & qs & H1 & H2) R. exists tr, qs. split; [|done].
  pose proof (rt_rest _ _ _ _ _ _ R) as E. injection E as _ _ E _ _ _ _ _ _. by rewrite E.
Qed.

Lemma links_routed i n s e w w' x sv : svcs w !! x = Some sv -> routed_ i n s e w w' ->
  exists sv', svcs w' !! x = Some sv' /\ links sv' = links sv.
Proof.
  intros H R. pose proof (rt_links _ _ _ _ _ _ R x) as E. rewrite H in E.
  destruct (svcs w' !! x) as [sv'|]; [|done]. injection E as E. exists sv'. split; [done|]. unfold links. congruence.
Qed.

(** the subscribers that a publication on [topic] at QoS [q] by [this] reaches *)
Record audience (q : Z) (topic : list Z) w (this : Z) (ps : list publication) : Prop := {
  au_out : is_Some (out_of w this);
  au_subs : exists s t subs, svcs w !! this = Some s /\ topicsMgr s = Some t /\ finds q w t topic subs /\ Forall2 (resolves w) subs ps;
  au_ready x : PubService x ∈ ps -> ready q (zlen ps) w x
}.

Lemma audience_routed i q topic s e w w' this ps : audience q topic w this ps -> routed_ i [] s e w w' -> audience q topic w' this ps.
Proof.
  intros [Ho (sv & t & subs & H1 & H2 & H3 & H4) Hr] R. constructor.
  - rewrite (rt_out _ _ _ _ _ _ R). by apply fmap_is_Some.
  - destruct (links_routed _ _ _ _ _ _ _ _ H1 R) as (sv' & H5 & H6). injection H6 as _ _ _ H6 _ _ _ _ _ _.
    exists sv', t, subs. split; [done|]. split; [congruence|]. split; [by eapply finds_routed|].
    eapply Forall2_impl; [exact H4|]. intros i0 p H. by eapply resolves_routed.
  - intros x Hx. destruct (Hr x Hx) as [Ha Hb]. split; [rewrite (rt_out _ _ _ _ _ _ R); by apply fmap_is_Some|].
    intros Hn. destruct (Hb Hn) as (es & H5 & H6).
    destruct (queues_routed _ _ _ _ _ _ _ _ _ (pub_queue_out q) R H5) as (es' & H7 & H8 & _). exists (es ++ es'). split; [done|]. zl.
Qed.

Section One.
Context (m : PublishMessage) (b : Z) (tl : list Z) (K : keeps m (b :: tl)).
Context (Hmax : zlen (b :: tl) <= Buffer.defaultBufferSize) (Hval : ValidQos (qos_of b) = true).

Lemma publish_routed w x : ready (qos_of b) 1 w x ->
  exists w', publish answer x m OcNil w = (Ok (m, None), w') /\
    routed (adds (qos_of b) (PacketId (Publish.hdr m)) [PubService x]) (to_one x (b :: tl)) [] w w' /\
    (qos_of b <> QosAtMostOnce -> awaits w' x (pub_queue (qos_of b)) (PacketId (Publish.hdr m))).
Proof.
  intros [[o Ho] Hq]. unfold publish.
  destruct (writeMessage_sends w x o (MPublish m) (MPublish m) (MPublish m) (b :: tl) Ho Hmax) as (w1 & E & R1);
    [by apply keeps_len|by apply keeps_encode|].
  rewrite (lbind_step _ _ _ _ _ E). cbv beta iota. rewrite (QoS_byte m b) by (by eapply keeps_byte). rewrite lbind_lift.
  unfold adds. cbn [omap list_omap]. destruct (qos_of b =? QosAtMostOnce) eqn:E0.
  { exists w1. split; [done|]. split; [done|lia]. }
  destruct Hq as (es & Hp & Hn); [lia|].
  destruct (queues_routed _ _ _ _ _ _ _ _ _ (pub_queue_out _) R1 Hp) as (es1 & Hp1 & Hn1 & _).
  destruct (wait_routed w1 x (pub_queue (qos_of b)) (es ++ es1) (MPublish m) (Some OcNil) (b :: tl)) as (w2 & E2 & R2 & Ha); try done.
  - unfold pub_queue. intros E3. destruct (qos_of b =? QosAtLeastOnce); discriminate E3.
  - zl.
  - exists (qos_of b). split; [by apply QoS_byte; eapply keeps_byte|lia].
  - by apply keeps_encoded.
  - intros pm [= <-]. exists (dup_of b). by apply Dup_byte; eapply keeps_byte.
  - exists w2. split; [|split; [|done]].
    + unfold pub_queue in E2. destruct (qos_of b =? QosAtLeastOnce) eqn:E1; [by rewrite (lbind_step _ _ _ _ _ E2)|].
      assert (E3 : qos_of b =? QosExactlyOnce = true) by (unfold ValidQos, QosAtMostOnce, QosAtLeastOnce, QosExactlyOnce in *; lia).
      rewrite E3. by rewrite (lbind_step _ _ _ _ _ E2).
    + eapply routed_ext; [| |exact (routed_trans _ _ _ _ _ _ _ _ _ _ R1 R2)]; [done|]. intros y. apply app_nil_r.
Qed.

(** the functions of the application that [ps] call *)
Definition calls_of (ps : list publication) : list event :=
  omap (fun p => match p with PubCaller k => Some (EDelivered k m) | _ => None end) ps.

Lemma record_routed w e : routed [] (fun _ => []) [e] w (set_calls (calls w ++ [e]) w).
Proof.
  constructor; try done.
  - intros x. unfold out_of. cbn. destruct (_ ≫= _); cbn; by rewrite ?app_nil_r.
  - intros x k es _ H. by apply pends_stay.
Qed.

Lemma call_subscribers_routed strict subs ps : forall w, Forall2 (resolves w) subs ps ->
  (forall x, PubService x ∈ ps -> ready (qos_of b) (zlen ps) w x) ->
  exists w', call_subscribers answer strict subs m w = (Ok (m, None), w') /\
    routed (adds (qos_of b) (PacketId (Publish.hdr m)) ps) (copies (b :: tl) ps) (calls_of ps) w w' /\
    (qos_of b <> QosAtMostOnce -> forall x, PubService x ∈ ps -> awaits w' x (pub_queue (qos_of b)) (PacketId (Publish.hdr m))).
Proof.
  revert ps. induction subs as [|i subs IH]; intros ps w HF Hr.
  { apply Forall2_nil_inv_l in HF as ->. exists w. split; [done|]. split; [apply routed_refl|]. intros _ x Hx. by apply not_elem_of_nil in Hx. }
  apply Forall2_cons_inv_l in HF as (p & ps' & (l & -> & Hl & Hp) & HF & ->). rename ps' into ps.
  cbn [call_subscribers]. rewrite lbind_gets, Hl, lbind_deref.
  assert (Hstep : exists w1 a1 s1 e1, routed a1 s1 e1 w w1 /\ zlen a1 <= 1 /\
    adds (qos_of b) (PacketId (Publish.hdr m)) (p :: ps) = a1 ++ adds (qos_of b) (PacketId (Publish.hdr m)) ps /\
    (match p with PubNil => crash NilDeref
     | PubService svc => do r <- publish answer svc m OcNil ;; call_subscribers answer strict subs r.1
     | PubCaller k => record_call (EDelivered k m) ;;; call_subscribers answer strict subs m end) w
      = call_subscribers answer strict subs m w1 /\
    (forall y, copies (b :: tl) (p :: ps) y = s1 y ++ copies (b :: tl) ps y) /\ calls_of (p :: ps) = e1 ++ calls_of ps /\
    (qos_of b <> QosAtMostOnce -> forall x, p = PubService x -> awaits w1 x (pub_queue (qos_of b)) (PacketId (Publish.hdr m)))).
  { destruct p as [|x|k]; [done| |].
    - destruct (publish_routed w x) as (w1 & E & R & Ha).
      { destruct (Hr x) as [H1 H2]; [apply list_elem_of_here|]. split; [done|]. intros Hn. destruct (H2 Hn) as (es & H3 & H4).
        exists es. split; [done|]. zl. }
      eexists w1, _, (to_one x (b :: tl)), []. split; [exact R|]. split; [apply (zlen_adds _ _ [PubService x])|].
      split; [unfold adds; cbn [omap list_omap]; by destruct (_ =? _)|]. split; [by rewrite (lbind_step _ _ _ _ _ E)|]. split; [done|]. split; [done|].
      intros Hn y [= <-]. by apply Ha.
    - exists (set_calls (calls w ++ [EDelivered k m]) w), [], (fun _ => []), [EDelivered k m].
      split; [apply record_routed|]. done. }
  destruct Hstep as (w1 & a1 & s1 & e1 & R1 & Hz1 & Hadd & -> & Hc & He & Ha1).
  destruct (IH ps w1) as (w2 & E2 & R2 & Ha2).
  { eapply Forall2_impl; [exact HF|]. intros i' p' H. by eapply resolves_routed. }
  { intros x Hx. eapply (ready_routed _ _ (zlen ps) 1); [|exact R1|exact Hz1].
    destruct (Hr x) as [H1 H2]; [by apply list_elem_of_further|]. split; [done|]. intros Hn. destruct (H2 Hn) as (es & H3 & H4).
    exists es. split; [done|]. zl. }
  exists w2. split; [done|]. split.
  - rewrite He, Hadd. eapply routed_ext; [| |exact (routed_trans _ _ _ _ _ _ _ _ _ _ R1 R2)]; [done|]. intros y. by rewrite Hc.
  - intros Hn x [Hx|Hx]%elem_of_cons; [|by apply Ha2]. eapply awaits_routed; [apply pub_queue_out|by apply Ha1|exact R2].
Qed.

(** ** Routing *)

Lemma route_routed strict w t subs ps : is_byte b -> retain_of b = false -> finds (qos_of b) w t (Topic m) subs ->
  Forall2 (resolves w) subs ps -> (forall x, PubService x ∈ ps -> ready (qos_of b) (zlen ps) w x) ->
  exists w', route intn answer strict t m w = (Ok (m, None), w') /\
    routed (adds (qos_of b) (PacketId (Publish.hdr m)) ps) (copies (b :: tl) ps) (calls_of ps) w w' /\
    (qos_of b <> QosAtMostOnce -> forall x, PubService x ∈ ps -> awaits w' x (pub_queue (qos_of b)) (PacketId (Publish.hdr m))).
Proof.
  intros Hb Hret (tr & qs & Ht & Hs) HF Hr. unfold route.
  rewrite (Retain_byte m b) by (by eapply keeps_byte). rewrite Hret, lbind_lift, lbind_gets, Ht, lbind_deref, lbind_ret. cbv beta iota.
  rewrite (QoS_byte m b) by (by eapply keeps_byte). rewrite lbind_lift.
  unfold TopicManager.mgr_Subscribers. cbn [TopicManager.pv_Subscribers TopicManager.memTopics_provider].
  rewrite Hs, lbind_lift. cbv beta iota. rewrite (keeps_SetRetain m b tl K) by done. rewrite lbind_lift. cbn [fst].
  by apply call_subscribers_routed.
Qed.

Lemma reply_routed w x o t v : ack_type t = true -> 0 < v < 2 ^ 16 -> out_of w x = Some o ->
  exists w', reply x (Delivery.ack_of t) (fst (SetType zero_header t)) v w = (Ok None, w') /\
    routed [] (to_one x (ack_wire t v)) [] w w'.
Proof.
  intros Ht Hv Ho. destruct (Delivery.ack_msg_encode t v (gid w) Ht Hv) as (m1 & m2 & HL & HE).
  destruct (writeMessage_sends w x o (Delivery.ack_of t (new_ack t v)) m1 m2 (ack_wire t v) Ho) as (w' & E & R); [by rewrite zlen_ack_wire|exact HL|exact HE|].
  exists w'. split; [|done]. unfold reply. change (SetPacketId (fst (SetType zero_header t)) v) with (new_ack t v).
  by rewrite (lbind_step _ _ _ _ _ E).
Qed.

(** what a publication does *)
Definition published w w' (this : Z) (acks : list Z) (ps : list publication) : Prop :=
  routed (adds (qos_of b) (PacketId (Publish.hdr m)) ps) (fun x => to_one this acks x ++ copies (b :: tl) ps x) (calls_of ps) w w' /\
  (qos_of b <> QosAtMostOnce -> forall x, PubService x ∈ ps -> awaits w' x (pub_queue (qos_of b)) (PacketId (Publish.hdr m))).

Context (Hb : is_byte b) (Hret : retain_of b = false).

Lemma onPublish_routed w this ps : audience (qos_of b) (Topic m) w this ps ->
  exists w', onPublish intn answer this m w = (Ok (m, None), w') /\ published w w' this [] ps.
Proof.
  intros [_ (s & t & subs & Hs & Ht & Hf & HF) Hr]. pose proof Hf as (tr & qs & Htr & _).
  destruct (route_routed true w t subs ps Hb Hret Hf HF Hr) as (w' & E & R & Ha). exists w'. split.
  - unfold onPublish. by rewrite (lbind_step _ _ _ _ _ (get_tree_ok w this s t tr Hs Ht Htr)).
  - split; [|done]. eapply routed_ext; [done| |exact R]. intros x. unfold to_one. by destruct (decide _).
Qed.

(** a PUBLISH at QoS 0 or 1 is acknowledged, at QoS 1, and routed *)
Lemma publish_incoming w this ps : (qos_of b = QosAtMostOnce \/ qos_of b = QosAtLeastOnce) -> Topic m <> heartbeatTopic ->
  (qos_of b = QosAtLeastOnce -> 0 < PacketId (Publish.hdr m) < 2 ^ 16) -> audience (qos_of b) (Topic m) w this ps ->
  exists w', processIncoming intn answer this (MPublish m) w = (Ok None, w') /\
    published w w' this (if qos_of b =? QosAtLeastOnce then ack_wire PUBACK (PacketId (Publish.hdr m)) else []) ps.
Proof.
  intros Hq Ht Hv A. cbn [processIncoming]. unfold processPublish. cbv zeta.
  rewrite bool_decide_eq_false_2 by done. rewrite (QoS_byte m b) by (by eapply keeps_byte). rewrite lbind_lift.
  destruct Hq as [Hq|Hq]; rewrite Hq; cbn [Z.eqb QosExactlyOnce QosAtLeastOnce QosAtMostOnce Pos.eqb].
  - destruct (onPublish_routed w this ps A) as (w' & E & P). exists w'. split; [by rewrite (lbind_step _ _ _ _ _ E)|done].
  - destruct (au_out _ _ _ _ _ A) as [o Ho].
    destruct (reply_routed w this o PUBACK (PacketId (Publish.hdr m)) eq_refl (Hv Hq) Ho) as (w1 & E1 & R1).
    destruct (onPublish_routed w1 this ps) as (w2 & E2 & R2 & Ha); [by eapply audience_routed|].
    exists w2. split; [|split; [|done]].
    + change (reply this MPuback Puback.NewPubackMessage (PacketId (Publish.hdr m)) w = (Ok None, w1)) in E1.
      rewrite (lbind_step _ _ _ _ _ E1). cbv beta iota. by rewrite (lbind_step _ _ _ _ _ E2).
    + eapply routed_ext; [| |exact (routed_trans _ _ _ _ _ _ _ _ _ _ R1 R2)]; [done|]. intros x. cbn beta.
      unfold to_one. by destruct (decide (x = this)).
Qed.
End One.

(** ** A packet off the incoming ring *)

Lemma peekMessageSize_spec fuel : forall cnt r b init last rest done,
  r = mkRing (b :: init ++ last :: rest) done -> Forall (fun x => 128 <= x) init -> last < 128 ->
  2 <= cnt <= zlen init + 2 -> zlen init + 2 - cnt < Z.of_nat fuel ->
  peekMessageSize fuel cnt r = PkSize (Z.shiftr b 4) (let '(remlen, m) := Uvarint (init ++ [last]) in i64 remlen + 1 + m).
Proof.
  induction fuel as [|fuel IH]; intros cnt r b init last rest done -> Hi Hl Hc Hf; [lia|]. pose proof (zlen_nonneg rest).
  cbn [peekMessageSize rg_bytes rg_done].
  assert (Hz : zlen (b :: init ++ last :: rest) = zlen init + 2 + zlen rest) by zl.
  rewrite zlen_take, Z2Nat.id by lia. destruct (Z.min cnt _ <? cnt) eqn:E1; [lia|].
  rewrite lookup_take_lt by lia. replace (Z.to_nat cnt) with (S (Z.to_nat (cnt - 1))) by lia. cbn [take].
  assert (Hix : (b :: init ++ last :: rest) !! Z.to_nat (cnt - 1) = (init ++ last :: rest) !! Z.to_nat (cnt - 2)).
  { replace (Z.to_nat (cnt - 1)) with (S (Z.to_nat (cnt - 2))) by lia. done. }
  rewrite Hix. destruct (decide (cnt = zlen init + 2)) as [->|Hne].
  - rewrite lookup_app_r by (unfold zlen; lia).
    replace (Z.to_nat (zlen init + 2 - 2) - length init)%nat with 0%nat by (unfold zlen; lia). cbn [lookup list_lookup].
    destruct (128 <=? last) eqn:E2; [lia|].
    assert (Ht : take (Z.to_nat (zlen init + 2 - 1)) (init ++ last :: rest) = init ++ [last]); [|rewrite Ht; by destruct (Uvarint _)].
    replace (init ++ last :: rest) with ((init ++ [last]) ++ rest) by (by rewrite <- app_assoc). apply take_zlen_app. zl.
  - rewrite lookup_app_l by (unfold zlen in *; lia).
    destruct (lookup_lt_is_Some_2 init (Z.to_nat (cnt - 2))) as [x Hx]; [unfold zlen in *; lia|].
    rewrite Hx. pose proof (Forall_lookup_1 _ _ _ _ Hi Hx) as Hge. cbn in Hge. destruct (128 <=? x) eqn:E2; [|lia].
    eapply (IH (cnt + 1)); [done|done|done|lia|lia].
Qed.

Lemma peek_frame b body rest done : remlen_ok (zlen body) ->
  peekMessageSize 4 2 (mkRing (Framing.frame b body ++ rest) done) = PkSize (Z.shiftr b 4) (zlen (Framing.frame b body)).
Proof.
  intros Hn. unfold remlen_ok, maxRemainingLength in Hn.
  destruct (Framing.uvarint_shape_at 3 (zlen body)) as (init & last & Hu & Hi & Hl & Hk);
    [lia|change (2 ^ (7 * (Z.of_nat 3 + 1))) with 268435456; lia|].
  assert (Hfr : Framing.frame b body ++ rest = b :: init ++ last :: (body ++ rest)).
  { unfold Framing.frame, hdr_wire. rewrite Hu. cbn [app]. rewrite <- !app_assoc. done. }
  rewrite (peekMessageSize_spec 4 2 _ b init last (body ++ rest) done); [|by rewrite Hfr|done|done|unfold zlen; lia|unfold zlen; lia].
  rewrite <- Hu. pose proof (Uvarint_roundtrip (zlen body) [] ltac:(lia)) as E. rewrite app_nil_r in E. rewrite E.
  rewrite i64_small by lia. f_equal. unfold Framing.frame. rewrite zlen_app, zlen_hdr_wire. lia.
Qed.

(** the world after [n] more bytes were decoded by [x] *)
Definition received (x : Z) (s : service) (n : Z) w : world :=
  set_svcs (<[x:=set_stats (stat_increment (inStat s) n) (outStat s) s]> (svcs w)) w.

(** the packet is gone from the ring *)
Definition consumed (x : Z) (s : service) (rest : list Z) (done : bool) w : world :=
  set_svcs (<[x:=set_bufs (Some (mkRing rest done)) (outb s) s]> (svcs w)) w.

Lemma processor_takes sp w this s r b body rest msg0 msg w2 s2 :
  svcs w !! this = Some s -> inb s = Some r -> rg_bytes r = Framing.frame b body ++ rest -> remlen_ok (zlen body) ->
  zlen (Framing.frame b body) <= Buffer.defaultBufferSize -> New (Z.shiftr b 4) = inl msg0 ->
  msg_Decode msg0 (Slice (Framing.frame b body) sp) = Ret (msg, zlen (Framing.frame b body), None) ->
  processIncoming intn answer this msg (received this s (zlen (Framing.frame b body)) w) = (Ok None, w2) ->
  svcs w2 !! this = Some s2 -> links s2 = links s ->
  processor_round intn answer sp this w
    = (Ok (Some (negb (done_closed s && (zlen rest =? 0)))), consumed this s2 rest (rg_done r) w2).
Proof.
  intros Hs Hi Hb Hn Hmax Hnew Hdec Hp Hs2 Hlk. unfold processor_round.
  rewrite (lbind_step _ _ _ _ _ (lib_get_svc_ok w this s Hs)), Hi. destruct r as [rb rd]. cbn [rg_bytes] in Hb. subst rb.
  rewrite peek_frame by done. cbn [rg_bytes rg_done]. guard_false. guard_false.
  rewrite take_zlen_app by done. rewrite Hnew, Hdec, lbind_lift. cbv beta iota.
  erewrite lbind_step by (apply lib_upd_svc_ok; exact Hs). rewrite (lbind_step _ _ _ _ _ Hp).
  rewrite bool_decide_eq_false_2 by done. erewrite lbind_step by (apply lib_get_svc_ok; exact Hs2).
  injection Hlk as _ _ _ _ _ Hd _ Hin _ _. rewrite Hin, Hi, lbind_deref. cbn [rg_bytes rg_done]. cbv zeta.
  rewrite drop_zlen_app by done. erewrite lbind_step by (apply lib_upd_svc_ok; exact Hs2). by rewrite Hd.
Qed.

(** ** A PUBLISH through the broker *)

Definition in_of w (x : Z) : option (list Z) := s ← svcs w !! x; r ← inb s; Some (rg_bytes r).

(** a service changed where routing does not look *)
Section Swap.
Context w (x : Z) (s s' : service).
Context (Hs : svcs w !! x = Some s) (H1 : sess s' = sess s) (H2 : topicsMgr s' = topicsMgr s) (H3 : outb s' = outb s).
Let w' := set_svcs (<[x:=s']> (svcs w)) w.

Lemma swap_out y : out_of w' y = out_of w y.
Proof.
  unfold out_of. cbn. destruct (decide (y = x)) as [->|Hn]; [|by rewrite lookup_insert_ne]. rewrite lookup_insert_eq, Hs. cbn. by rewrite H3.
Qed.

Lemma swap_pends y k es : pends w y k es -> pends w' y k es.
Proof.
  intros (sy & l & ss & q & E1 & E2 & E3). destruct (decide (y = x)) as [->|Hn].
  - rewrite Hs in E1. injection E1 as <-. exists s', l, ss, q. cbn. rewrite lookup_insert_eq. split; [done|]. split; [congruence|done].
  - exists sy, l, ss, q. cbn. by rewrite lookup_insert_ne.
Qed.

Lemma swap_awaits y k pid : awaits w y k pid -> awaits w' y k pid.
Proof. intros (es & E1 & E2). exists es. split; [by apply swap_pends|done]. Qed.

Lemma swap_audience q topic this ps : audience q topic w this ps -> audience q topic w' this ps.
Proof.
  intros [Ho (sv & t & subs & E1 & E2 & E3 & E4) Hr]. constructor.
  - by rewrite swap_out.
  - destruct (decide (this = x)) as [->|Hn].
    + rewrite Hs in E1. injection E1 as <-. exists s', t, subs. cbn. rewrite lookup_insert_eq. split; [done|]. split; [congruence|done].
    + exists sv, t, subs. cbn. by rewrite lookup_insert_ne.
  - intros y Hy. destruct (Hr y Hy) as [Ha Hb]. split; [by rewrite swap_out|]. intros Hn. destruct (Hb Hn) as (es & E & Hz).
    exists es. split; [by apply swap_pends|done].
Qed.
End Swap.

(** C3: A publication reaches its subscribers.  When a PUBLISH at QoS 0 or 1, without
    RETAIN and not on the heartbeat topic, is at the front of a connection's incoming
    ring, a round of the library's processor takes exactly the packet off the ring; at
    QoS 1 it sends the publisher one PUBACK; it sends every subscriber that the topic
    tree finds, in their order and as often as the tree finds it, the packet byte for
    byte, with its identifier, which at QoS 1 from then on awaits an acknowledgement
    there; it calls the application's functions among the subscribers.  No other ring,
    no connection, no tree changes.  No message that is in flight is lost: every queue of
    every session keeps its entries and gains, at QoS 1 and in the queue of a
    subscriber only, entries with that identifier; all other queues and the rest of
    every session are as they were. *)
Theorem publish_fans_out sp w this s r ps b v t p rest :
  let idb := if qos_of b =? 0 then [] else be16 v in
  let bs := publish_wire b t idb p in
  svcs w !! this = Some s -> inb s = Some r -> rg_bytes r = bs ++ rest -> zlen bs <= Buffer.defaultBufferSize ->
  is_byte b -> Z.shiftr b 4 = PUBLISH -> qos_of b = 0 \/ qos_of b = 1 -> retain_of b = false ->
  ValidTopic t = true -> zlen t <= maxLPString -> t <> heartbeatTopic -> 0 < v < 2 ^ 16 ->
  audience (qos_of b) t w this ps ->
  exists m w', processor_round intn answer sp this w = (Ok (Some (negb (done_closed s && (zlen rest =? 0)))), w') /\
    Publish.Decode NewPublishMessage (Slice bs sp) = Ret (m, zlen bs, None) /\
    in_of w' this = Some rest /\ (forall x, x <> this -> links <$> svcs w' !! x = links <$> svcs w !! x) /\
    (forall x, out_of w' x =
       (fun o => o ++ to_one this (if qos_of b =? 1 then ack_wire PUBACK v else []) x ++ copies bs ps x) <$> out_of w x) /\
    calls w' = calls w ++ calls_of m ps /\
    (qos_of b = 1 -> forall x, PubService x ∈ ps -> awaits w' x QPub1ack v) /\
    others w' = others w /\ (forall l, sess_rest <$> cells (sessions w') !! l = sess_rest <$> cells (sessions w) !! l) /\
    (forall x k es, pends w x k es -> exists new, pends w' x k (es ++ new) /\
       Forall (fun e => qos_of b = 1 /\ k = QPub1ack /\ Pktid e = v) new) /\
    (forall l k, (qos_of b = 1 -> k = QPub1ack -> forall y sy, PubService y ∈ ps -> svcs w !! y = Some sy -> sess sy <> Some l) ->
       queue_at k w' l = queue_at k w l).
Proof.
  intros idb bs Hs Hi Hb Hmax Hby Hty Hq Hret Hvt Hlt Hnh Hv A.
  assert (Hid : id_ok b idb) by (unfold id_ok, idb; by destruct (qos_of b =? 0)).
  assert (Hval : ValidQos (qos_of b) = true) by (destruct Hq as [-> | ->]; done).
  assert (Hrl : remlen_ok (zlen (publish_body t idb p))).
  { unfold bs, publish_wire in Hmax. rewrite zlen_app, zlen_hdr_wire in Hmax. unfold Buffer.defaultBufferSize in Hmax.
    unfold remlen_ok, maxRemainingLength. zlen_facts. lia. }
  destruct (publish_Decode_spec NewPublishMessage 48 b t idb p [] sp eq_refl eq_refl Hty Hval Hvt Hlt Hid Hrl)
    as (m & HD & Ht & _ & _ & Hpid & _). rewrite app_nil_r in HD. fold bs in HD.
  pose proof (decoded_keeps _ _ _ _ _ HD) as K.
  assert (Hbs : exists tl, bs = b :: tl) by (by eexists). destruct Hbs as [tl Ebs]. rewrite Ebs in K.
  set (w1 := received this s (zlen bs) w). pose proof Hmax as Hmax'. rewrite Ebs in Hmax'.
  assert (Hpv : qos_of b = QosAtLeastOnce -> PacketId (Publish.hdr m) = v).
  { intros Hq1. apply PacketId_be16; [lia|]. rewrite Hpid by (rewrite Hq1; done). unfold idb. by rewrite Hq1. }
  destruct (publish_incoming m b tl K Hmax' Hval Hby Hret w1 this ps) as (w2 & Hp & R & Ha).
  { destruct Hq; [by left|by right]. }
  { unfold Topic. by rewrite Ht. }
  { intros Hq1. by rewrite Hpv. }
  { unfold Topic. rewrite Ht. by apply (swap_audience w this s). }
  assert (Hs1 : svcs w1 !! this = Some (set_stats (stat_increment (inStat s) (zlen bs)) (outStat s) s)) by (unfold w1; cbn; by rewrite lookup_insert_eq).
  destruct (links_routed _ _ _ _ _ _ _ _ Hs1 R) as (s2 & Hs2 & Hl2).
  assert (Hdec : msg_Decode (MPublish NewPublishMessage) (Slice bs sp) = Ret (MPublish m, zlen bs, None)) by (unfold msg_Decode, dispatch; cbn [pk_decode publish_packet]; by rewrite HD).
  pose proof (processor_takes sp w this s r b (publish_body t idb p) rest (MPublish NewPublishMessage) (MPublish m) w2 s2) as Hround.
  rewrite Hty in Hround. specialize (Hround Hs Hi Hb Hrl Hmax eq_refl Hdec Hp Hs2 Hl2).
  exists m. eexists. split; [exact Hround|]. split; [exact HD|]. set (s3 := set_bufs (Some (mkRing rest (rg_done r))) (outb s2) s2).
  split_and!.
  - unfold in_of. cbn. by rewrite lookup_insert_eq.
  - intros x Hx. pose proof (rt_links _ _ _ _ _ _ R x) as E. unfold w1, received in E. cbn in *.
    rewrite lookup_insert_ne in E by done. by rewrite lookup_insert_ne.
  - intros x. unfold consumed. rewrite (swap_out w2 this s2 s3 Hs2) by done. rewrite (rt_out _ _ _ _ _ _ R). unfold w1, received.
    rewrite (swap_out w this s) by done. rewrite Ebs. destruct (out_of w x); [|done]. cbn. do 2 f_equal.
    unfold QosAtLeastOnce. destruct (qos_of b =? 1) eqn:E1; [|done]. by rewrite Hpv by (unfold QosAtLeastOnce; lia).
  - exact (rt_calls _ _ _ _ _ _ R).
  - intros Hq1 x Hx. apply (swap_awaits w2 this s2); [done|done|].
    rewrite <- Hpv by done. pose proof (Ha ltac:(rewrite Hq1; done) x Hx) as H. by rewrite Hq1 in H.
  - exact (rt_rest _ _ _ _ _ _ R).
  - intros l. exact (rt_cells _ _ _ _ _ _ R l).
  - intros x k es Hx. assert (Hx1 : pends w1 x k es) by (by apply (swap_pends w this s)).
    destruct (rt_queues _ _ _ _ _ _ R x k es (fun _ l _ _ => not_aside _ l k) Hx1) as (new & H1 & _ & H2). exists new. split; [by apply (swap_pends w2 this s2)|].
    eapply Forall_impl; [exact H2|]. intros e [y Hy]. apply elem_of_adds in Hy as (Hn & -> & -> & _).
    assert (Hq1 : qos_of b = 1) by (unfold QosAtMostOnce in Hn; lia). split; [done|]. rewrite Hq1. split; [done|]. by apply Hpv.
  - intros l k H. apply (rt_frame _ _ _ _ _ _ R l k); [apply not_aside|]. intros y v' sy Hy Hsy. apply elem_of_adds in Hy as (Hn & Hk & _ & Hin).
    assert (Hq1 : qos_of b = 1) by (unfold QosAtMostOnce in Hn; lia). rewrite Hq1 in Hk.
    unfold w1, received in Hsy. cbn in Hsy. destruct (decide (y = this)) as [->|Hne].
    + rewrite lookup_insert_eq in Hsy. injection Hsy as <-. exact (H Hq1 Hk this s Hin Hs).
    + rewrite lookup_insert_ne in Hsy by done. exact (H Hq1 Hk y sy Hin Hsy).
Qed.
End Routing.

(** [d1] publishes on "a" at QoS 1, [d2] has subscribed to it *)
Definition d1_publishes : world := LibSample.feed LibSample.d1 [50; 6; 0; 1; 97; 0; 7; 88] LibSample.subscribed.

Lemma sample_pends w x k s l ss : svcs w !! x = Some s -> sess s = Some l -> cells (sessions w) !! l = Some ss ->
  get_q ss k = Some (newAckqueue defaultQueueSize) -> pends w x k [].
Proof.
  intros H1 H2 H3 H4. exists s, l, ss, (newAckqueue defaultQueueSize). split_and!; try done.
  apply holds_new. unfold defaultQueueSize. lia.
Qed.

Ltac sample_queue := eapply sample_pends; vm_compute; reflexivity.

(** [d2] is the audience of "a" *)
Ltac sample_audience :=
  constructor;
  [ eexists; vm_compute; reflexivity
  | eexists _, 0, [Topics.IPtr 3]; split; [vm_compute; reflexivity|]; split; [vm_compute; reflexivity|]; split;
    [ eexists _, [1]; split; vm_compute; reflexivity
    | constructor; [|constructor]; exists 3; split; [done|]; split; [vm_compute; reflexivity|done] ]
  | let x := fresh "x" in let Hx := fresh "Hx" in
    intros x Hx; apply list_elem_of_singleton in Hx; injection Hx as ->; split; [eexists; vm_compute; reflexivity|];
    intros _; exists []; split; [sample_queue|done] ].

Lemma d1_publishes_audience : audience LibSample.first_member 1 (str "a") d1_publishes LibSample.d1 [PubService LibSample.d2].
Proof. sample_audience. Qed.

Lemma publish_fans_out_witness : exists w',
  LibSample.process LibSample.d1 d1_publishes = (Ok (Some true), w') /\
  out_of w' LibSample.d1 = Some [64; 2; 0; 7] /\
  out_of w' LibSample.d2 = Some [144; 3; 0; 9; 1; 50; 6; 0; 1; 97; 0; 7; 88] /\
  awaits w' LibSample.d2 QPub1ack 7.
Proof.
  destruct (svcs d1_publishes !! LibSample.d1) as [s|] eqn:Es; [|vm_compute in Es; discriminate].
  destruct (inb s) as [r|] eqn:Er; [|vm_compute in Es; injection Es as <-; discriminate].
  assert (Hr : rg_bytes r = [50; 6; 0; 1; 97; 0; 7; 88]) by (vm_compute in Es; injection Es as <-; cbn in Er; by injection Er as <-).
  destruct (publish_fans_out LibSample.first_member LibSample.no_answer [] d1_publishes LibSample.d1 s r [PubService LibSample.d2]
    50 7 (str "a") [88] [] Es Er) as (m & w' & H1 & _ & _ & _ & H2 & _ & H3 & _).
  - exact Hr.
  - vm_compute. discriminate.
  - split; [discriminate|reflexivity].
  - reflexivity.
  - right. reflexivity.
  - reflexivity.
  - reflexivity.
  - vm_compute. discriminate.
  - discriminate.
  - lia.
  - exact d1_publishes_audience.
  - exists w'. split; [|split; [|split]].
    + vm_compute in Es. injection Es as <-. exact H1.
    + rewrite H2. vm_compute. reflexivity.
    + rewrite H2. vm_compute. reflexivity.
    + apply H3; [reflexivity|apply list_elem_of_here].
Defined.
