(* ===== verification/LibOnce.v ===== *)
(** * LibOnce: publications at QoS 2 in the library
      ([processIncoming], [processPublish], [processAcked] of
      [utils/surgemq/surgemq/service/process.go])

    A PUBLISH at QoS 2 waits in the session until the client releases it; it is
    routed then, and however often either packet is repeated. *)
From stdpp Require Import base list strings gmap.
From Stdlib Require Import ZArith Lia.
From S2P Require Import Prelude GoLang GoStrings MsgTypes Header Puback Publish Message.
From S2P Require Import LibQueue LibSession LibWorld LibService LibRouting.
From S2P Require Topics AckQueue Buffer Delivery LibSample.

Lemma routed_weaken x n s e w w' : routed n s e w w' -> routed_ (Some x) n s e w w'.
Proof.
  intros [O C L S R Q F I]. constructor; try done; [|intros l k _; apply F; apply not_aside].
  intros y k es _. apply Q. intros s0 l _ _. apply not_aside.
Qed.

(** the queue of [l] for messages at QoS 2 is [q'] *)
Abbreviation with_inbox := (with_queue QPub2in).

Lemma with_inbox_routed w x s l ss q' : svcs w !! x = Some s -> sess s = Some l -> cells (sessions w) !! l = Some ss ->
  routed_ (Some x) [] (fun _ => []) [] w (with_inbox l ss q' w).
Proof.
  intros Hs Hl Hc. constructor; try done.
  - intros y. unfold out_of. cbn. destruct (_ ≫= _); cbn; by rewrite ?app_nil_r.
  - cbn. by rewrite app_nil_r.
  - intros l'. cbn. destruct (decide (l' = l)) as [->|Hn]; [by rewrite lookup_insert_eq, Hc|by rewrite lookup_insert_ne].
  - intros y k es Hk (sy & l1 & ss1 & q1 & H1 & H2 & H3 & H4 & H5). apply pends_stay.
    destruct (decide (l1 = l)) as [->|Hn].
    + rewrite Hc in H3. injection H3 as <-. exists sy, l, (set_q ss QPub2in q'), q1. split_and!; try done; [cbn; by rewrite lookup_insert_eq|].
      rewrite get_set_other; [done|]. intros ->. apply (Hk sy l H1 H2). split; [done|]. by exists x, s.
    + exists sy, l1, ss1, q1. cbn. by rewrite lookup_insert_ne.
  - intros l' k Hk _. unfold queue_at. cbn. destruct (decide (l' = l)) as [->|Hn]; [|by rewrite lookup_insert_ne].
    rewrite lookup_insert_eq, Hc. cbn. rewrite get_set_other; [done|]. intros ->. apply Hk. split; [done|]. by exists x, s.
Qed.

Lemma with_inbox_holds w x s l ss q' es : svcs w !! x = Some s -> sess s = Some l -> holds q' es -> State (LibQueue.ping q') <> PINGRESP ->
  inbox (with_inbox l ss q' w) x es.
Proof.
  intros H1 H2 H3 H4. exists s, l, (set_q ss QPub2in q'), q'. split_and!; try done. cbn. by rewrite lookup_insert_eq.
Qed.

Section Once.
Context (intn : list Topics.iface -> Z)
        (answer : Z -> Message -> option Message -> option error -> option error).
Implicit Types w : world.

(** a PUBLISH at QoS 2 with identifier [v] *)
Definition publish2 (v : Z) (m : PublishMessage) : Prop :=
  exists b tl, keeps m (b :: tl) /\ Z.shiftr b 4 = PUBLISH /\ qos_of b = QosExactlyOnce /\ PacketId (Publish.hdr m) = v /\ Topic m <> heartbeatTopic.

(** the entry of a message that waits for its release *)
Definition waiting (v : Z) (bs : list Z) : ackmsg completion := mkAck PUBLISH RESERVED v bs [] None.

Lemma publish2_received w this es v m bs : publish2 v m -> keeps m bs -> 0 < v < 2 ^ 16 -> is_Some (out_of w this) ->
  inbox w this es -> zlen es < 2 ^ 62 ->
  exists w', processIncoming intn answer this (MPublish m) w = (Ok None, w') /\
    routed_ (Some this) [] (to_one this (ack_wire PUBREC v)) [] w w' /\
    inbox w' this (if decide (v ∈ ids es) then es else es ++ [waiting v bs]).
Proof.
  intros (b & tl & K & Hty & Hq & Hid & Ht) K' Hv [o Ho] (s & l & ss & q & Hs & Hl & Hc & Hq2 & Hh & Hp) Hz.
  assert (bs = b :: tl) as -> by (destruct K as [_ <- _], K' as [_ <- _]; done).
  set (es' := if decide _ then _ else _).
  assert (Hw : exists q', Wait q (gid w) (MPublish m) None = Ret (q', gid w, MPublish m, None) /\
    LibQueue.ping q' = LibQueue.ping q /\ holds q' es').
  { assert (Hws : waits (MPublish m)) by (exists (qos_of b); split; [by apply QoS_byte; eapply keeps_byte|by rewrite Hq]).
    unfold es'. destruct (decide (v ∈ ids es)) as [Hin|Hni].
    - apply (Wait_old q es (gid w) (MPublish m) None (dup_of b)); try done.
      + unfold msg_PacketId. cbn. by rewrite Hid.
      + intros pm [= <-]. by apply Dup_byte; eapply keeps_byte.
    - assert (Hw : exists q', Wait q (gid w) (MPublish m) None = Ret (q', gid w, MPublish m, None) /\ LibQueue.ping q' = LibQueue.ping q /\
        holds q' (es ++ [mkAck (msg_Type (MPublish m)) RESERVED (PacketId (Publish.hdr m)) (b :: tl) [] None])).
      { apply (Wait_new q es (gid w) (MPublish m) None (b :: tl) (MPublish m) (gid w)); try done; [|by apply keeps_encoded].
        unfold msg_PacketId. cbn. by rewrite Hid. }
      destruct Hw as (q' & E1 & E2 & E3). exists q'. split; [done|]. split; [done|]. unfold waiting.
      assert (Et : msg_Type (MPublish m) = PUBLISH) by (unfold msg_Type; cbn; rewrite (Type_one _ b); [done|by eapply keeps_byte]).
      by rewrite Hid, Et in E3. }
  destruct Hw as (q' & HW & Hp' & Hh').
  assert (R1 : routed_ (Some this) [] (fun _ => []) [] w (with_inbox l ss q' w)) by (by apply (with_inbox_routed w this s)).
  destruct (reply_routed (with_inbox l ss q' w) this o PUBREC v eq_refl Hv Ho) as (w2 & E2 & R2).
  exists w2. split; [|split].
  - cbn [processIncoming]. unfold processPublish. cbv zeta. rewrite bool_decide_eq_false_2 by done.
    rewrite (QoS_byte m b) by (by eapply keeps_byte). rewrite lbind_lift, Hq, Z.eqb_refl.
    assert (E1 : wait this QPub2in (MPublish m) None w = (Ok (MPublish m, None), with_inbox l ss q' w)).
    { unfold wait. rewrite (lbind_step _ _ _ _ _ (lib_get_queue_ok w this QPub2in s l ss q Hs Hl Hc Hq2)). cbv beta iota.
      rewrite lbind_gets, HW, lbind_lift. cbv beta iota. unfold put_sess. rewrite !lbind_modify. unfold retM, with_queue.
      by destruct w. }
    rewrite (lbind_step _ _ _ _ _ E1). rewrite Hid. exact E2.
  - eapply routed_ext; [| |exact (routed_trans _ _ _ _ _ _ _ _ _ _ R1 (routed_weaken this _ _ _ _ _ R2))]; [done|done].
  - apply (rt_in _ _ _ _ _ _ R2); [done|]. apply (with_inbox_holds w this s); try done. by rewrite Hp'.
Qed.

(** the PUBREL [v] as it is decoded, with [sp] behind the packet *)
Definition pubrel (v : Z) (sp : list Z) : header := mkHeader 2 (Sub 0 1) (Sub 2 2) (Slice (ack_wire PUBREL v) sp) false.

Lemma pubrel_decoded v sp : 0 < v < 2 ^ 16 ->
  Puback.Decode Puback.NewPubrelMessage (Slice (ack_wire PUBREL v) sp) = Ret (pubrel v sp, 4, None).
Proof.
  intros Hv. pose proof (puback_Decode_spec Puback.NewPubrelMessage 98 98 (u8 (Z.shiftr v 8)) (u8 v) [] sp eq_refl eq_refl eq_refl) as H.
  cbv zeta in H. rewrite app_nil_r in H. exact H.
Qed.

Lemma pubrel_encoded v sp g : encoded (MPubrel (pubrel v sp)) g (ack_wire PUBREL v) (MPubrel (pubrel v sp)) g.
Proof.
  exists (MPubrel (pubrel v sp)), 4, 4. split; [reflexivity|]. unfold msg_Encode, dispatch. cbn [pk_encode ack_packet]. unfold no_counter, Puback.Encode.
  cbn [dirty pubrel negb]. rewrite encode_clean_spec by (cbn; done). reflexivity.
Qed.

Lemma pubrel_id v sp : 0 < v < 2 ^ 16 -> msg_PacketId (MPubrel (pubrel v sp)) = v.
Proof. intros Hv. apply PacketId_be16; [lia|]. reflexivity. Qed.

(** a PUBREL for no message that waits is answered *)
Lemma pubrel_repeated w this v sp : 0 < v < 2 ^ 16 -> is_Some (out_of w this) -> inbox w this [] ->
  exists w', processIncoming intn answer this (MPubrel (pubrel v sp)) w = (Ok None, w') /\
    routed_ (Some this) [] (to_one this (ack_wire PUBCOMP v)) [] w w' /\ inbox w' this [].
Proof.
  intros Hv [o Ho] (s & l & ss & q & Hs & Hl & Hc & Hq & Hh & Hp).
  pose proof (Ack_unknown q [] (gid w) (MPubrel (pubrel v sp)) eq_refl Hh ltac:(apply not_elem_of_nil)) as HA.
  pose proof (ack_ok w QPub2in this s l ss q q _ _ Hs Hl Hc Hq HA) as E1. pose proof (with_inbox_routed w this s l ss q Hs Hl Hc) as R1.
  set (w1 := with_inbox l ss q w) in *.
  assert (Hc1 : cells (sessions w1) !! l = Some (set_q ss QPub2in q)) by (cbn; by rewrite lookup_insert_eq).
  destruct (acked_ok w1 QPub2in this s l (set_q ss QPub2in q) q [] Hs Hl Hc1 eq_refl Hh Hp) as (q2 & E2 & Hh2 & Hp2).
  pose proof (with_inbox_routed w1 this s l _ q2 Hs Hl Hc1) as R2. set (w2 := with_inbox l _ q2 w1) in *.
  destruct (reply_routed w2 this o PUBCOMP v eq_refl Hv Ho) as (w3 & E3 & R3). exists w3. split; [|split].
  - cbn [processIncoming]. rewrite (lbind_step _ _ _ _ _ E1). cbv beta iota. unfold processAcked. rewrite lbind_assoc, (lbind_step _ _ _ _ _ E2).
    cbn [AckQueue.span fst process_acked_all]. rewrite lbind_ret. change (PacketId (pubrel v sp)) with (msg_PacketId (MPubrel (pubrel v sp))).
    rewrite pubrel_id by done. exact E3.
  - eapply routed_ext; [| |exact (routed_trans _ _ _ _ _ _ _ _ _ _ R1 (routed_trans _ _ _ _ _ _ _ _ _ _ R2 (routed_weaken this _ _ _ _ _ R3)))]; [done|done].
  - apply (rt_in _ _ _ _ _ _ R3); [done|]. by apply (with_inbox_holds w1 this s).
Qed.

Section Release.
Context (m : PublishMessage) (b : Z) (tl : list Z) (n v : Z).
Context (HD : Publish.Decode NewPublishMessage (mkslice (b :: tl)) = Ret (m, n, None)).
Context (Hmax : zlen (b :: tl) <= Buffer.defaultBufferSize) (Hq : qos_of b = QosExactlyOnce).
Context (Hb : is_byte b) (Hret : retain_of b = false) (Hv : 0 < v < 2 ^ 16).

(** the entry of a released message, in the loop of [processAcked] *)
Lemma released_routed w this ps bs : Puback.Decode Puback.NewPubrelMessage (mkslice bs) = Ret (pubrel v [], 4, None) ->
  audience intn (qos_of b) (Topic m) w this ps ->
  exists w', process_acked_one intn answer this (with_ackbuf bs (with_state PUBREL (waiting v (b :: tl)))) w = (Ok tt, w') /\
    published m b tl w w' this [] ps.
Proof.
  intros HR A. pose proof (decoded_keeps _ _ _ _ _ HD) as K.
  assert (Hval : ValidQos (qos_of b) = true) by (by rewrite Hq).
  destruct (onPublish_routed intn answer m b tl K Hmax Hval Hb Hret w this ps A) as (w' & E & P). exists w'. split; [|done].
  unfold process_acked_one. cbn [Mtype State Msgbuf Ackbuf with_ackbuf with_state waiting].
  change (New PUBLISH) with (inl (A:=Message) (B:=error) (MPublish NewPublishMessage)). cbv beta iota.
  unfold msg_Decode at 1, dispatch. cbn [pk_decode publish_packet]. rewrite HD, bindO_ret, lbind_lift. cbv beta iota.
  change (New PUBREL) with (inl (A:=Message) (B:=error) (MPubrel Puback.NewPubrelMessage)). cbv beta iota.
  unfold msg_Decode, dispatch. cbn [pk_decode ack_packet]. rewrite HR, bindO_ret, lbind_lift. cbv beta iota.
  unfold complete. cbn [Mtype State OnComplete with_ackbuf with_state waiting]. cbv zeta. rewrite Z.eqb_refl.
  by rewrite (lbind_step _ _ _ _ _ E).
Qed.

Lemma pubrel_released w this ps sp : is_Some (out_of w this) -> inbox w this [waiting v (b :: tl)] ->
  audience intn (qos_of b) (Topic m) w this ps ->
  exists w', processIncoming intn answer this (MPubrel (pubrel v sp)) w = (Ok None, w') /\
    routed_ (Some this) (adds (qos_of b) (PacketId (Publish.hdr m)) ps) (fun x => copies (b :: tl) ps x ++ to_one this (ack_wire PUBCOMP v) x) (calls_of m ps) w w' /\
    inbox w' this [] /\
    (forall x, PubService x ∈ ps -> awaits w' x QPub2out (PacketId (Publish.hdr m))).
Proof.
  intros [o Ho] (s & l & ss & q & Hs & Hl & Hc & Hqq & Hh & Hp) A.
  destruct (Ack_known q _ (gid w) (MPubrel (pubrel v sp)) (ack_wire PUBREL v) (MPubrel (pubrel v sp)) (gid w) 0 (waiting v (b :: tl))
    eq_refl Hh eq_refl) as (q1 & HA & Hp1 & Hh1); [by rewrite pubrel_id|apply pubrel_encoded|].
  pose proof (ack_ok w QPub2in this s l ss q q1 _ _ Hs Hl Hc Hqq HA) as E1. pose proof (with_inbox_routed w this s l ss q1 Hs Hl Hc) as R1.
  set (w1 := with_inbox l ss q1 w) in *. set (e := with_ackbuf _ _) in *.
  assert (Hc1 : cells (sessions w1) !! l = Some (set_q ss QPub2in q1)) by (cbn; by rewrite lookup_insert_eq).
  destruct (acked_ok w1 QPub2in this s l (set_q ss QPub2in q1) q1 [e] Hs Hl Hc1 eq_refl Hh1) as (q2 & E2 & Hh2 & Hp2); [by rewrite Hp1|].
  pose proof (with_inbox_routed w1 this s l _ q2 Hs Hl Hc1) as R2. set (w2 := with_inbox l _ q2 w1) in *.
  change (AckQueue.span finished [e]) with ([e], @nil (ackmsg completion)) in E2, Hh2. cbn [fst snd] in E2, Hh2.
  assert (I2 : inbox w2 this []) by (by apply (with_inbox_holds w1 this s)).
  assert (A2 : audience intn (qos_of b) (Topic m) w2 this ps).
  { eapply audience_routed; [exact A|]. exact (routed_trans _ _ _ _ _ _ _ _ _ _ R1 R2). }
  destruct (released_routed w2 this ps (ack_wire PUBREL v) (pubrel_decoded v [] Hv) A2) as (w3 & E3 & R3 & Ha).
  assert (Ho3 : is_Some (out_of w3 this)).
  { rewrite (rt_out _ _ _ _ _ _ R3). apply fmap_is_Some. change (out_of w2 this) with (out_of w this). by exists o. }
  destruct Ho3 as [o3 Ho3].
  destruct (reply_routed w3 this o3 PUBCOMP v eq_refl Hv Ho3) as (w4 & E4 & R4). exists w4. split; [|split; [|split]].
  - cbn [processIncoming]. rewrite (lbind_step _ _ _ _ _ E1). cbv beta iota. unfold processAcked. rewrite lbind_assoc, (lbind_step _ _ _ _ _ E2).
    cbn [process_acked_all]. rewrite lbind_assoc, (lbind_step _ _ _ _ _ E3), lbind_ret.
    change (PacketId (pubrel v sp)) with (msg_PacketId (MPubrel (pubrel v sp))). rewrite pubrel_id by done. exact E4.
  - pose proof (routed_trans _ _ _ _ _ _ _ _ _ _ R1 (routed_trans _ _ _ _ _ _ _ _ _ _ R2
      (routed_trans _ _ _ _ _ _ _ _ _ _ (routed_weaken this _ _ _ _ _ R3) (routed_weaken this _ _ _ _ _ R4)))) as R.
    cbn [app] in R. rewrite !app_nil_r in R. eapply routed_ext; [| |exact R]; [done|]. intros x. cbn. unfold to_one. by destruct (decide (x = this)).
  - apply (rt_in _ _ _ _ _ _ R4); [done|]. by apply (rt_in _ _ _ _ _ _ R3).
  - intros x Hx. eapply awaits_routed; [done| |exact R4]. pose proof (Ha ltac:(by rewrite Hq) x Hx) as H. by rewrite Hq in H.
Qed.
End Release.

(** ** Runs of packets *)

(** packets handled one after the other, with what the handlers return *)
Fixpoint incoming (this : Z) (l : list Message) : M (list (option error)) :=
  match l with
  | [] => retM []
  | msg :: l => do err <- processIncoming intn answer this msg ;; do errs <- incoming this l ;; retM (err :: errs)
  end.

Lemma incoming_cons this msg l w w1 errs w' : processIncoming intn answer this msg w = (Ok None, w1) ->
  incoming this l w1 = (Ok errs, w') -> incoming this (msg :: l) w = (Ok (None :: errs), w').
Proof. intros H1 H2. cbn [incoming]. rewrite (lbind_step _ _ _ _ _ H1). by rewrite (lbind_step _ _ _ _ _ H2). Qed.

Lemma incoming_app this l1 l2 w n1 n2 w1 w' : incoming this l1 w = (Ok (replicate n1 None), w1) ->
  incoming this l2 w1 = (Ok (replicate n2 None), w') -> incoming this (l1 ++ l2) w = (Ok (replicate (n1 + n2) None), w').
Proof.
  intros H1 H2. rewrite replicate_add. revert w n1 H1. induction l1 as [|msg l1 IH]; intros w n1 H1.
  - injection H1 as E ->. destruct n1; [done|discriminate].
  - cbn [incoming app] in *. apply lbind_inv in H1 as (e & w2 & E1 & H1). apply lbind_inv in H1 as (es & w3 & E2 & H1).
    injection H1 as He ->. destruct n1 as [|n1]; [discriminate|]. injection He as -> ->.
    rewrite (lbind_step _ _ _ _ _ E1). rewrite (lbind_step _ _ _ _ _ (IH w2 n1 E2)). done.
Qed.

Lemma to_one_app x a b y : to_one x a y ++ to_one x b y = to_one x (a ++ b) y.
Proof. unfold to_one. by destruct (decide (y = x)). Qed.

Lemma publishes_repeated this v es ms : forall w, Forall (publish2 v) ms -> 0 < v < 2 ^ 16 -> is_Some (out_of w this) ->
  inbox w this es -> zlen es < 2 ^ 62 -> v ∈ ids es ->
  exists w', incoming this (map MPublish ms) w = (Ok (replicate (length ms) None), w') /\
    routed_ (Some this) [] (to_one this (concat (replicate (length ms) (ack_wire PUBREC v)))) [] w w' /\ inbox w' this es.
Proof.
  induction ms as [|m ms IH]; intros w HF Hv Ho I Hz Hin.
  - exists w. split; [done|]. split; [|done]. eapply routed_ext; [| |apply routed_refl]; [done|]. intros x. unfold to_one. by destruct (decide _).
  - apply Forall_cons in HF as [Hm HF]. pose proof Hm as (b & tl & K & _).
    destruct (publish2_received w this es v m (b :: tl) Hm K Hv Ho I Hz) as (w1 & E1 & R1 & I1). rewrite decide_True in I1 by done.
    destruct (IH w1 HF Hv) as (w2 & E2 & R2 & I2); [rewrite (rt_out _ _ _ _ _ _ R1); by apply fmap_is_Some|done..|].
    exists w2. split; [by eapply incoming_cons|]. split; [|done].
    eapply routed_ext; [| |exact (routed_trans _ _ _ _ _ _ _ _ _ _ R1 R2)]; [done|]. intros x. apply to_one_app.
Qed.

Lemma pubrels_repeated this v sps : forall w, 0 < v < 2 ^ 16 -> is_Some (out_of w this) -> inbox w this [] ->
  exists w', incoming this (map (fun sp => MPubrel (pubrel v sp)) sps) w = (Ok (replicate (length sps) None), w') /\
    routed_ (Some this) [] (to_one this (concat (replicate (length sps) (ack_wire PUBCOMP v)))) [] w w' /\ inbox w' this [].
Proof.
  induction sps as [|sp sps IH]; intros w Hv Ho I.
  - exists w. split; [done|]. split; [|done]. eapply routed_ext; [| |apply routed_refl]; [done|]. intros x. unfold to_one. by destruct (decide _).
  - destruct (pubrel_repeated w this v sp Hv Ho I) as (w1 & E1 & R1 & I1).
    destruct (IH w1 Hv) as (w2 & E2 & R2 & I2); [rewrite (rt_out _ _ _ _ _ _ R1); by apply fmap_is_Some|done|].
    exists w2. split; [by eapply incoming_cons|]. split; [|done].
    eapply routed_ext; [| |exact (routed_trans _ _ _ _ _ _ _ _ _ _ R1 R2)]; [done|]. intros x. apply to_one_app.
Qed.

(** C4: A message at QoS 2 is delivered exactly once, however often its packets are
    repeated.  A client that has no other QoS 2 message in flight sends a PUBLISH with
    identifier [v], without RETAIN and not on the heartbeat topic, any number of
    PUBLISHes with that identifier again, and then PUBREL any number of times, but at
    least once.  Every PUBLISH is answered with PUBREC and every PUBREL with PUBCOMP;
    the packet is routed once, when the first PUBREL arrives: each subscriber receives
    it, byte for byte, just as often as the tree finds the subscriber (once, when one
    of its filters matches), with the identifier awaiting the PUBREC of the subscriber;
    afterwards nothing of the message is kept for its sender.  Every other queue of
    messages that came in at QoS 2 is as it was; every queue of any other kind keeps
    its entries and gains, in the session of a subscriber only, entries with that
    identifier. *)
Theorem qos2_exactly_once w this b v t p sp ms sp0 sps ps :
  let bs := publish_wire b t (be16 v) p in
  is_byte b -> Z.shiftr b 4 = PUBLISH -> qos_of b = 2 -> retain_of b = false ->
  ValidTopic t = true -> zlen t <= maxLPString -> t <> heartbeatTopic -> 0 < v < 2 ^ 16 ->
  zlen bs <= Buffer.defaultBufferSize -> inbox w this [] -> audience intn 2 t w this ps -> Forall (publish2 v) ms ->
  exists m m0 w', Publish.Decode NewPublishMessage (Slice bs sp) = Ret (m, zlen bs, None) /\
    Publish.Decode NewPublishMessage (mkslice bs) = Ret (m0, zlen bs, None) /\
    incoming this (map MPublish (m :: ms) ++ map (fun sp => MPubrel (pubrel v sp)) (sp0 :: sps)) w
      = (Ok (replicate (S (length ms) + S (length sps)) None), w') /\
    (forall x, out_of w' x = (fun o => o ++ to_one this (concat (replicate (S (length ms)) (ack_wire PUBREC v))) x ++
       copies bs ps x ++ to_one this (concat (replicate (S (length sps)) (ack_wire PUBCOMP v))) x) <$> out_of w x) /\
    calls w' = calls w ++ calls_of m0 ps /\ inbox w' this [] /\
    (forall x, PubService x ∈ ps -> awaits w' x QPub2out v) /\ others w' = others w /\
    (forall x k es, k <> QPub2in -> pends w x k es -> exists new, pends w' x k (es ++ new) /\
       Forall (fun e => k = QPub2out /\ Pktid e = v) new) /\
    (forall l k, (k = QPub2in -> forall sy, svcs w !! this = Some sy -> sess sy <> Some l) -> (k = QPub2out -> forall y sy, PubService y ∈ ps -> svcs w !! y = Some sy -> sess sy <> Some l) ->
       queue_at k w' l = queue_at k w l).
Proof.
  intros bs Hby Hty Hq Hret Hvt Hlt Hnh Hv Hmax I A HF.
  assert (Hid : id_ok b (be16 v)) by (unfold id_ok; by rewrite Hq).
  assert (Hval : ValidQos (qos_of b) = true) by (by rewrite Hq).
  assert (Hrl : remlen_ok (zlen (publish_body t (be16 v) p))).
  { unfold bs, publish_wire in Hmax. rewrite zlen_app, zlen_hdr_wire in Hmax. unfold Buffer.defaultBufferSize in Hmax.
    unfold remlen_ok, maxRemainingLength. zlen_facts. lia. }
  assert (HD : forall sp, exists m, Publish.Decode NewPublishMessage (Slice bs sp) = Ret (m, zlen bs, None) /\
    Topic m = t /\ PacketId (Publish.hdr m) = v).
  { intros sp1. destruct (publish_Decode_spec NewPublishMessage 48 b t (be16 v) p [] sp1 eq_refl eq_refl Hty Hval Hvt Hlt Hid Hrl)
      as (m1 & HD & Ht & _ & _ & Hpid & _). rewrite app_nil_r in HD. exists m1. split; [exact HD|]. split; [exact Ht|].
    apply PacketId_be16; [lia|]. apply Hpid. by rewrite Hq. }
  destruct (HD sp) as (m & Hm & Htm & Hidm). destruct (HD []) as (m0 & Hm0 & Htm0 & Hidm0).
  assert (Hbs : exists tl, bs = b :: tl) by (by eexists). destruct Hbs as [tl Ebs].
  pose proof (decoded_keeps _ _ _ _ _ Hm) as K. exists m, m0.
  assert (Hm2 : publish2 v m) by (exists b, tl; rewrite <- Ebs; by rewrite Htm).
  assert (Ho : is_Some (out_of w this)) by apply A.
  destruct (publish2_received w this [] v m bs Hm2 K Hv Ho I eq_refl) as (w1 & E1 & R1 & I1).
  rewrite decide_False in I1 by (apply not_elem_of_nil). cbn [app] in I1.
  assert (Ho1 : is_Some (out_of w1 this)) by (rewrite (rt_out _ _ _ _ _ _ R1); by apply fmap_is_Some).
  destruct (publishes_repeated this v [waiting v bs] ms w1 HF Hv Ho1 I1 eq_refl) as (w2 & E2 & R2 & I2); [apply list_elem_of_here|].
  assert (Ho2 : is_Some (out_of w2 this)) by (rewrite (rt_out _ _ _ _ _ _ R2); by apply fmap_is_Some).
  pose proof (audience_routed _ _ _ _ _ _ _ _ _ _ A (routed_trans _ _ _ _ _ _ _ _ _ _ R1 R2)) as A2.
  rewrite Ebs in Hm0, Hmax, I2.
  destruct (pubrel_released m0 b tl (zlen (b :: tl)) v Hm0 Hmax Hq Hby Hret Hv w2 this ps sp0 Ho2 I2) as (w3 & E3 & R3 & I3 & Ha);
    [by rewrite Hq, Htm0|].
  assert (Ho3 : is_Some (out_of w3 this)) by (rewrite (rt_out _ _ _ _ _ _ R3); by apply fmap_is_Some).
  destruct (pubrels_repeated this v sps w3 Hv Ho3 I3) as (w4 & E4 & R4 & I4).
  pose proof (routed_trans _ _ _ _ _ _ _ _ _ _ R1 (routed_trans _ _ _ _ _ _ _ _ _ _ R2 (routed_trans _ _ _ _ _ _ _ _ _ _ R3 R4))) as R.
  cbn [app] in R. rewrite !app_nil_r in R. exists w4. rewrite <- Ebs in *. split; [done|]. split; [done|]. split; [|split; [|split_and!]].
  - eapply incoming_app; [|exact (incoming_cons _ _ _ _ _ _ _ E3 E4)]. exact (incoming_cons _ _ _ _ _ _ _ E1 E2).
  - intros x. rewrite (rt_out _ _ _ _ _ _ R). destruct (out_of w x); [|done].
    cbn [fmap option_fmap option_map length replicate concat]. do 2 f_equal. rewrite <- !to_one_app. by rewrite <- !app_assoc.
  - exact (rt_calls _ _ _ _ _ _ R).
  - exact I4.
  - intros x Hx. eapply (awaits_routed (Some this)); [done| |exact R4]. rewrite <- Hidm0. by apply Ha.
  - exact (rt_rest _ _ _ _ _ _ R).
  - intros x k es Hk Hx. destruct (queues_routed _ _ _ _ _ _ _ _ _ Hk R Hx) as (new & H1 & _ & H2). exists new. split; [done|].
    eapply Forall_impl; [exact H2|]. intros e [y Hy].
    apply elem_of_adds in Hy as (_ & -> & -> & _). rewrite Hq. by split.
  - intros l k Hk H. apply (rt_frame _ _ _ _ _ _ R l k); [intros (-> & x & sx & [= <-] & Hx & Hl); by apply (Hk eq_refl sx)|]. intros y v' sy Hy.
    apply elem_of_adds in Hy as (_ & Hk' & _ & Hin). rewrite Hq in Hk'. exact (H Hk' y sy Hin).
Qed.
End Once.

(** [d1] sends the message "X" on "a" at QoS 2 twice and releases it twice *)
Lemma subscribed_audience : audience LibSample.first_member 2 (str "a") LibSample.subscribed LibSample.d1 [PubService LibSample.d2].
Proof. sample_audience. Qed.

Lemma subscribed_inbox : inbox LibSample.subscribed LibSample.d1 [].
Proof.
  eexists _, _, _, (newAckqueue defaultQueueSize). split; [vm_compute; reflexivity|]. split; [vm_compute; reflexivity|].
  split; [vm_compute; reflexivity|]. split; [vm_compute; reflexivity|]. split; [|done]. apply holds_new. unfold defaultQueueSize. lia.
Qed.

Lemma qos2_exactly_once_witness : exists m m' w',
  Publish.Decode NewPublishMessage (mkslice [60; 6; 0; 1; 97; 0; 7; 88]) = Ret (m', 8, None) /\
  incoming LibSample.first_member LibSample.no_answer LibSample.d1
    [MPublish m; MPublish m'; MPubrel (pubrel 7 []); MPubrel (pubrel 7 [])] LibSample.subscribed
    = (Ok [None; None; None; None], w') /\
  out_of w' LibSample.d1 = Some [80; 2; 0; 7; 80; 2; 0; 7; 112; 2; 0; 7; 112; 2; 0; 7] /\
  out_of w' LibSample.d2 = Some [144; 3; 0; 9; 1; 52; 6; 0; 1; 97; 0; 7; 88] /\
  awaits w' LibSample.d2 QPub2out 7.
Proof.
  destruct (Publish.Decode NewPublishMessage (mkslice [60; 6; 0; 1; 97; 0; 7; 88])) as [[[m' n] [e|]]|] eqn:E;
    [vm_compute in E; discriminate| |vm_compute in E; discriminate].
  destruct (qos2_exactly_once LibSample.first_member LibSample.no_answer LibSample.subscribed LibSample.d1 52 7 (str "a") [88] []
    [m'] [] [[]] [PubService LibSample.d2]) as (m & m0 & w' & _ & _ & H1 & H2 & _ & _ & H3 & _).
  - split; [discriminate|reflexivity].
  - reflexivity.
  - reflexivity.
  - reflexivity.
  - reflexivity.
  - vm_compute. discriminate.
  - discriminate.
  - lia.
  - vm_compute. discriminate.
  - exact subscribed_inbox.
  - exact subscribed_audience.
  - constructor; [|constructor]. exists 60, [6; 0; 1; 97; 0; 7; 88].
    split; [exact (decoded_keeps _ _ _ _ _ E)|]. vm_compute in E. injection E as <- <-. split; [reflexivity|]. split; [reflexivity|].
    split; [reflexivity|discriminate].
  - exists m, m', w'. split; [|split; [exact H1|split; [|split]]].
    + vm_compute in E. injection E as <- <-. reflexivity.
    + rewrite H2. vm_compute. reflexivity.
    + rewrite H2. vm_compute. reflexivity.
    + apply H3. apply list_elem_of_here.
Defined.
