(* ===== verification/LibStop.v ===== *)
(** * LibStop: the end of a connection in the library
      ([stop] of [utils/surgemq/surgemq/service/service.go])

    Which resources of a connection [stop] gives back, and when it does not. *)
From stdpp Require Import base list strings gmap.
From Stdlib Require Import ZArith Lia.
From S2P Require Import Prelude GoLang NetConn MsgTypes Connect Publish.
From S2P Require Import Topics TopicsSpec TopicManager.
From S2P Require Import LibQueue LibSession LibWorld LibService LibRouting.
From S2P Require LibSample.

(** ** Removing one subscriber *)

Lemma find_sub_ptr l a : match find_sub l (IPtr a) with Some i => l !! i = Some (IPtr a) | None => IPtr a ∉ l end.
Proof.
  induction l as [|x l IH]; cbn [find_sub]; [apply not_elem_of_nil|]. destruct (equal x (IPtr a)) eqn:E.
  - unfold equal in E. destruct x; try done; apply bool_decide_eq_true_1 in E; by simplify_eq.
  - assert (Hx : x <> IPtr a) by (intros ->; cbn in E; by rewrite bool_decide_eq_true_2 in E).
    destruct (find_sub l (IPtr a)) as [i|]; cbn; [done|]. intros [H|H]%elem_of_cons; [by apply Hx|by apply IH].
Qed.

(** the subscribers of a node outside groups, or those of a group *)
Definition members (d : list iface * list Z * gmap (list Z) (list iface)) (g : list Z) : list iface :=
  match g with [] => d.1.1 | _ => default [] (d.2 !! g) end.

(** [d'] is [d] without [i], where it may have been *)
Record shrunk (i : iface) (d d' : list iface * list Z * gmap (list Z) (list iface)) : Prop := {
  sh_nodup g : NoDup (members d g) -> NoDup (members d' g);
  sh_sub g j : j ∈ members d' g -> j ∈ members d g;
  sh_others g j : j <> i -> j ∈ members d g -> j ∈ members d' g
}.

Lemma shrunk_refl i d : shrunk i d d.
Proof. by constructor. Qed.

Lemma shrunk_trans i d1 d2 d3 : shrunk i d1 d2 -> shrunk i d2 d3 -> shrunk i d1 d3.
Proof. intros [N1 S1 O1] [N2 S2 O2]. constructor; auto. Qed.

(** a list without one entry *)
Lemma delete_one {A} (l : list A) i x : l !! i = Some x ->
  (NoDup l -> NoDup (delete i l) /\ x ∉ delete i l) /\ (forall j, j ∈ delete i l -> j ∈ l) /\
  (forall j, j <> x -> j ∈ l -> j ∈ delete i l).
Proof.
  intros Hf. pose proof (take_drop_middle l i _ Hf) as Hm. rewrite delete_take_drop. split; [|split].
  - rewrite <- Hm at 1. rewrite !NoDup_app, NoDup_cons. intros (H1 & H2 & H3 & H4). split.
    + split; [done|]. split; [|done]. intros j Hj Hj'. apply (H2 j Hj). apply elem_of_cons. by right.
    + rewrite elem_of_app. intros [H|H]; [|done]. apply (H2 _ H). apply list_elem_of_here.
  - intros j. rewrite <- Hm at 3. rewrite !elem_of_app, elem_of_cons. naive_solver.
  - intros j Hj. rewrite <- Hm at 1. rewrite !elem_of_app, elem_of_cons. naive_solver.
Qed.

(** the list that [del_sub] works on has its first entry for [a] taken out, the others
    stay *)
Lemma del_sub_members g a d g' : members (default d (del_sub g (Some (IPtr a)) d)) g' =
  if decide (g' = g) then match find_sub (members d g) (IPtr a) with Some i => delete i (members d g) | None => members d g end
  else members d g'.
Proof.
  destruct d as [[ss qs] gs]. unfold del_sub. destruct g as [|g0 g]; cbn [members fst snd].
  - destruct (find_sub ss (IPtr a)) as [i|]; cbn [option_bind mbind default]; unfold Datatypes.id; case_decide; subst; try done.
    by destruct g'.
  - destruct (gs !! (g0 :: g)) as [gl|] eqn:Eg; cbn [option_bind mbind default].
    + destruct (find_sub gl (IPtr a)) as [i|] eqn:Ef; cbn [option_bind mbind default]; unfold Datatypes.id; (case_decide as Hg; [subst g'|]);
        cbn [members fst snd]; rewrite ?Eg; cbn [default]; unfold Datatypes.id; rewrite ?Ef; try done; destruct (delete i gl) as [|y t].
      * by rewrite lookup_delete_eq.
      * by rewrite lookup_insert_eq.
      * destruct g'; cbn [members fst snd]; [done|]. by rewrite lookup_delete_ne.
      * destruct g'; cbn [members fst snd]; [done|]. by rewrite lookup_insert_ne.
    + case_decide; subst; cbn [members fst snd find_sub]; by rewrite ?Eg.
Qed.

Lemma del_sub_shrunk g a d : shrunk (IPtr a) d (default d (del_sub g (Some (IPtr a)) d)).
Proof.
  pose proof (find_sub_ptr (members d g) a) as Hf. pose proof (del_sub_members g a d) as Hm.
  destruct (find_sub (members d g) (IPtr a)) as [i|].
  - destruct (delete_one _ _ _ Hf) as (H1 & H2 & H3). constructor; intros g' *; rewrite Hm; case_decide; subst; auto.
    intros Hn. by apply H1.
  - constructor; intros g' *; rewrite Hm; by case_decide; subst.
Qed.

Lemma del_sub_gone g a d : NoDup (members d g) -> IPtr a ∉ members (default d (del_sub g (Some (IPtr a)) d)) g.
Proof.
  intros Hn. rewrite del_sub_members, decide_True by done. pose proof (find_sub_ptr (members d g) a) as Hf.
  destruct (find_sub (members d g) (IPtr a)) as [i|]; [|done]. by apply (delete_one _ _ _ Hf).
Qed.

(** a second subscription to a filter of a group enters the subscriber a second time,
    and one removal leaves one of the two *)
Lemma group_twice_stays g0 g q a d : let twice := add_sub (g0 :: g) q (IPtr a) (add_sub (g0 :: g) q (IPtr a) d) in
  IPtr a ∈ members (default twice (del_sub (g0 :: g) (Some (IPtr a)) twice)) (g0 :: g).
Proof.
  intros twice. rewrite del_sub_members, decide_True by done.
  assert (Em : members twice (g0 :: g) = members d (g0 :: g) ++ [IPtr a; IPtr a]).
  { unfold twice. destruct d as [[ss qs] gs]. cbn [add_sub members fst snd]. rewrite !lookup_insert_eq. cbn. by rewrite <- app_assoc. }
  pose proof (find_sub_ptr (members twice (g0 :: g)) a) as Hf. destruct (find_sub _ _) as [i|].
  - rewrite Em in *. apply lookup_lt_Some in Hf as Hlt. rewrite length_app in Hlt. cbn [length] in Hlt. rewrite delete_take_drop.
    destruct (decide (i < S (length (members d (g0 :: g)))))%nat as [Hi|Hi].
    + apply elem_of_app. right. apply (list_elem_of_lookup_2 _ (length (members d (g0 :: g)) - i)). rewrite lookup_drop.
      rewrite lookup_app_r by lia. by match goal with |- _ !! ?k = _ => replace k with 1%nat by lia end.
    + apply elem_of_app. left. rewrite take_app_ge by lia. apply elem_of_app. right.
      replace (i - length (members d (g0 :: g)))%nat with 1%nat by lia. apply list_elem_of_here.
  - rewrite Em. apply elem_of_app. right. apply list_elem_of_here.
Qed.

(** a topic of a session: a filter that [Subscribe] took *)
Definition filter_path (topic : list Z) (p : list (list Z)) : Prop := path_of (getGroupName topic).2 = Some p.
Definition single (topic : list Z) : Prop := (getGroupName topic).1 = [].

Lemma unsubscribe_session_shrinks x s t ts : topicsMgr s = Some t ->
  forall w tr r, svcs w !! x = Some s -> trees w !! t = Some tr -> sroot tr = Some r -> swf r ->
  Forall (fun topic => exists p, filter_path topic p) ts ->
  exists tr' r', unsubscribe_session x ts w = (Ok tt, set_trees (<[t:=tr']> (trees w)) w) /\ sroot tr' = Some r' /\ swf r' /\
    rroot tr' = rroot tr /\
    (forall p, shrunk (IPtr (onpub (cfg s))) (table r p) (table r' p)) /\
    (forall topic p, topic ∈ ts -> filter_path topic p -> NoDup (members (table r p) (getGroupName topic).1) ->
       IPtr (onpub (cfg s)) ∉ members (table r' p) (getGroupName topic).1).
Proof.
  intros Hm. induction ts as [|topic ts IH]; intros w tr r Hs Ht Hr Hw HF.
  - exists tr, r. cbn [unsubscribe_session]. rewrite insert_id by done. split; [by destruct w|]. split; [done|]. split; [done|]. split; [done|]. split.
    + intros p. apply shrunk_refl.
    + intros topic p H. by apply not_elem_of_nil in H.
  - apply Forall_cons in HF as [[p Hp] HF]. cbn [unsubscribe_session].
    destruct (Unsubscribe_table tr r topic (Some (IPtr (onpub (cfg s)))) p Hr Hw Hp) as (r1 & err & E1 & Hw1 & Ht1 & _).
    destruct (IH (set_trees (<[t:=mkTopics (Some r1) (rroot tr)]> (trees w)) w) (mkTopics (Some r1) (rroot tr)) r1 Hs) as
      (tr' & r' & E2 & Hr' & Hw' & Hrr & Hsh & Hg); [cbn; by rewrite lookup_insert_eq|done|done|done|].
    assert (Hsh1 : forall p', shrunk (IPtr (onpub (cfg s))) (table r p') (table r1 p')).
    { intros p'. rewrite Ht1. case_decide as Hp'; [subst p'; apply del_sub_shrunk|apply shrunk_refl]. }
    exists tr', r'. split; [|split; [done|split; [done|split; [done|split]]]].
    + rewrite (lbind_step _ _ _ _ _ (lib_get_svc_ok w x s Hs)). rewrite (lbind_step _ _ _ _ _ (get_tree_ok w x s t tr Hs Hm Ht)).
      cbn [snd fst]. unfold mgr_Unsubscribe. cbn [pv_Unsubscribe memTopics_provider]. rewrite E1, lbind_lift. cbn [fst].
      unfold put_tree. rewrite lbind_modify, E2. cbn. by rewrite insert_insert_eq.
    + intros p'. eapply shrunk_trans; [apply Hsh1|apply Hsh].
    + intros topic' p' [->|Hin]%elem_of_cons Hp' Hnd.
      * assert (p' = p) as -> by (unfold filter_path in *; congruence). intros H. apply (sh_sub _ _ _ (Hsh p)) in H. revert H.
        rewrite Ht1, decide_True by done. by apply del_sub_gone.
      * apply (Hg topic' p' Hin Hp'). by apply (sh_nodup _ _ _ (Hsh1 p')).
Qed.

(** ** Stopping a service of the server *)

Section Stop.
Context (intn : list iface -> Z)
        (answer : Z -> Message.Message -> option Message.Message -> option error -> option error)
        (rpcLogout : list Z -> list Z -> list Z -> option error)
        (joined : Z -> bool).
Implicit Types w : world.

(** a running service of the server and what hangs from it *)
Record up w (x : Z) (s : service) (c : Z) (cn : Conn) (l : Z) (ss : Session completion) (cm : ConnectMessage) : Prop := {
  up_svc : svcs w !! x = Some s;
  up_server : client (cfg s) = false;
  up_open : closed s = false;
  up_done : done_closed s = false;
  up_conn : conn s = Some c;
  up_at : conns w !! c = Some cn;
  up_in : is_Some (inb s);
  up_out : is_Some (outb s);
  up_sess : sess s = Some l;
  up_cell : cells (sessions w) !! l = Some ss;
  up_cmsg : Cmsg ss = Some cm
}.

(** the service after [stop] has closed its channel and its rings *)
Definition ended (s : service) (i o : ring) : service :=
  set_bufs (Some (ring_close i)) (Some (ring_close o)) (set_done (set_closed s)).

(** the first lines of [stop], which everything that follows starts from *)
Definition torn_down w (x : Z) (s : service) (c : Z) (cn : Conn) (i o : ring) : world :=
  set_svcs (<[x:=ended s i o]> (svcs w)) (set_conns (<[c:=conn_Close cn]> (conns w)) w).

(** [stop_body] behind the end of the goroutines *)
Definition stop_rest (x : Z) (s : service) : M unit :=
  (match sess s with
   | Some _ =>
       if client (cfg s) then retM tt
       else
         do y <- get_sess x ;;
         match LibSession.Topics y.2 with
         | inr _ => retM tt
         | inl (ts, _) => unsubscribe_session x ts
         end
   | None => retM tt
   end) ;;;
  do y <- get_sess x ;;
  (if client (cfg s) then retM tt
   else do c <- deref (Cmsg y.2) ;; if WillFlag c then publish_will intn answer x else retM tt) ;;;
  do y <- get_sess x ;;
  (if client (cfg s) then
     do i <- lift (ID y.2) ;; modify (fun w => set_providers (delete i (providers w)) w)
   else retM tt) ;;;
  do c <- deref (Cmsg y.2) ;;
  (if CleanSession c && has_sessMgr (cfg s)
   then do i <- lift (ID y.2) ;; modify (fun w => set_store (mem_Del (store w) i) w)
   else retM tt) ;;;
  (match keepAliveCH s with
   | ChNil => retM tt
   | ch => do ch <- lift (close_channel ch) ;; upd_svc x (set_ka ch)
   end) ;;;
  upd_svc x (fun s => set_bufs None None (set_conn None s)).

Lemma cid_ok w x s l ss cm : svcs w !! x = Some s -> sess s = Some l -> cells (sessions w) !! l = Some ss -> Cmsg ss = Some cm ->
  exists i, cid x w = (Ok i, w).
Proof.
  intros Hs Hl Hc Hm. unfold cid. rewrite (lbind_step _ _ _ _ _ (lib_get_svc_ok w x s Hs)).
  rewrite (lbind_step _ _ _ _ _ (lib_get_sess_ok w x s l ss Hs Hl Hc)). unfold ID. cbn [snd]. rewrite Hm, lbind_lift. by eexists.
Qed.

Lemma stop_closes w x s c cn l ss cm i o : up w x s c cn l ss cm -> inb s = Some i -> outb s = Some o ->
  stop intn answer rpcLogout joined x w =
    handled (wait_stopped joined x ;;; do _ <- cid x ;; stop_rest x (set_closed s)) (do _ <- cid x ;; retM tt) (torn_down w x s c cn i o).
Proof.
  intros [Hs Hsv Ho Hd Hc Hx _ _ Hl Hcell Hcm] Hi Hob. unfold stop. rewrite (lbind_step _ _ _ _ _ (lib_get_svc_ok w x s Hs)), Ho.
  rewrite (lbind_step _ _ _ _ _ (lib_upd_svc_ok w x s set_closed Hs)). set (w1 := set_svcs _ w). unfold handled.
  assert (E : stop_body intn answer rpcLogout joined x w1 =
    (wait_stopped joined x ;;; do _ <- cid x ;; stop_rest x (set_closed s)) (torn_down w x s c cn i o)); [|by rewrite E].
  assert (Hs1 : svcs w1 !! x = Some (set_closed s)) by (cbn; by rewrite lookup_insert_eq).
  unfold stop_body. rewrite (lbind_step _ _ _ _ _ (lib_get_svc_ok w1 x _ Hs1)). cbn [cfg set_closed]. rewrite Hsv.
  rewrite lbind_assoc. unfold deviceLogout. rewrite lbind_assoc, (lbind_step _ _ _ _ _ (lib_get_svc_ok w1 x _ Hs1)), !lbind_ret.
  destruct (cid_ok w1 x _ l ss cm Hs1 Hl Hcell Hcm) as [i1 Hi1]. rewrite (lbind_step _ _ _ _ _ Hi1).
  cbn [done_closed set_closed]. rewrite Hd. rewrite (lbind_step _ _ _ _ _ (lib_upd_svc_ok w1 x _ set_done Hs1)).
  set (w2 := set_svcs _ w1). assert (Hs2 : svcs w2 !! x = Some (set_done (set_closed s))) by (cbn; by rewrite lookup_insert_eq).
  unfold close_conn at 1. rewrite lbind_assoc, (lbind_step _ _ _ _ _ (lib_get_svc_ok w2 x _ Hs2)). cbn [conn set_done set_closed].
  destruct (cid_ok w2 x _ l ss cm Hs2 Hl Hcell Hcm) as [i2 Hi2]. rewrite Hc, lbind_assoc, (lbind_step _ _ _ _ _ Hi2), lbind_assoc, lbind_gets. change (conns w2 !! c) with (conns w !! c). rewrite Hx, lbind_assoc, lbind_deref, lbind_modify.
  set (w3 := set_conns _ w2). assert (Hs3 : svcs w3 !! x = Some (set_done (set_closed s))) by exact Hs2.
  unfold close_bufs at 1. rewrite lbind_assoc, (lbind_step _ _ _ _ _ (lib_get_svc_ok w3 x _ Hs3)). cbn [inb outb set_done set_closed].
  rewrite Hi, lbind_assoc, lbind_deref, lbind_assoc, (lbind_step _ _ _ _ _ (lib_upd_svc_ok w3 x _ _ Hs3)).
  set (w4 := set_svcs _ w3). rewrite Hob, lbind_assoc, lbind_deref.
  assert (Hs4 : svcs w4 !! x = Some (set_bufs (Some (ring_close i)) (Some o) (set_done (set_closed s)))).
  { unfold w4. cbn. rewrite lookup_insert_eq. by rewrite Hob. }
  rewrite (lbind_step _ _ _ _ _ (lib_upd_svc_ok w4 x _ _ Hs4)).
  set (w5 := set_svcs _ w4). assert (Ew : w5 = torn_down w x s c cn i o). 2:{ unfold stop_rest. cbn [cfg set_closed]. rewrite Hsv. by rewrite Ew. }
  unfold w5, w4, w3, w2, w1, torn_down, ended, set_svcs, set_conns. cbn. by rewrite !insert_insert_eq.
Qed.

(** [stop] waits for the goroutines of the service: when they do not all end, it does not
    return, and nothing but the connection and the rings has been given back *)
Lemma stop_waits w x s c cn l ss cm i o : up w x s c cn l ss cm -> inb s = Some i -> outb s = Some o -> joined x = false ->
  stop intn answer rpcLogout joined x w = (Stuck, torn_down w x s c cn i o).
Proof. intros U Hi Ho J. rewrite (stop_closes w x s c cn l ss cm i o U Hi Ho). unfold handled, bindM, wait_stopped. by rewrite J. Qed.

Lemma torn_down_cid w x s c cn l ss cm i o : up w x s c cn l ss cm -> exists a, cid x (torn_down w x s c cn i o) = (Ok a, torn_down w x s c cn i o).
Proof. intros [Hs _ _ _ _ _ _ _ Hl Hc Hm]. apply (cid_ok _ x (ended s i o) l ss cm); [|done..]. cbn. by rewrite lookup_insert_eq. Qed.

(** when they end, the clean-up goes on *)
Lemma stop_tears_down w x s c cn l ss cm i o : up w x s c cn l ss cm -> inb s = Some i -> outb s = Some o -> joined x = true ->
  stop intn answer rpcLogout joined x w = handled (stop_rest x (set_closed s)) (do _ <- cid x ;; retM tt) (torn_down w x s c cn i o).
Proof.
  intros U Hi Ho J. rewrite (stop_closes w x s c cn l ss cm i o U Hi Ho). destruct (torn_down_cid w x s c cn l ss cm i o U) as [a Ha].
  unfold handled. assert (E : (wait_stopped joined x ;;; do _ <- cid x ;; stop_rest x (set_closed s)) (torn_down w x s c cn i o) =
    stop_rest x (set_closed s) (torn_down w x s c cn i o)); [|by rewrite E].
  unfold wait_stopped. by rewrite J, lbind_ret, (lbind_step _ _ _ _ _ Ha).
Qed.

(** the subscriptions of the session that the tree can hold: the service's function
    stands only at filters of the session, in the groups that they name, and once in
    each list *)
Record subscribed w (s : service) (ss : Session completion) (t : Z) (tr : memTopics) (r : snode) (m : gmap (list Z) Z) : Prop := {
  sb_init : initted ss = true;
  sb_topics : sess_topics ss = Some m;
  sb_mgr : topicsMgr s = Some t;
  sb_tree : trees w !! t = Some tr;
  sb_root : sroot tr = Some r;
  sb_wf : swf r;
  sb_paths topic q : m !! topic = Some q -> exists p, filter_path topic p;
  sb_at p g : IPtr (onpub (cfg s)) ∈ members (table r p) g ->
    NoDup (members (table r p) g) /\ exists topic q, m !! topic = Some q /\ filter_path topic p /\ (getGroupName topic).1 = g
}.

(** the world behind the loop over the topics *)
Lemma unsubscribed w x s l ss t tr r m : svcs w !! x = Some s -> client (cfg s) = false -> sess s = Some l ->
  cells (sessions w) !! l = Some ss -> subscribed w s ss t tr r m ->
  exists tr' r', (do y <- get_sess x ;;
         match LibSession.Topics y.2 with
         | inr _ => retM tt
         | inl (ts, _) => unsubscribe_session x ts
         end) w = (Ok tt, set_trees (<[t:=tr']> (trees w)) w) /\ sroot tr' = Some r' /\ swf r' /\ rroot tr' = rroot tr /\
    (forall p g, IPtr (onpub (cfg s)) ∉ members (table r' p) g) /\
    (forall p g i, i <> IPtr (onpub (cfg s)) -> i ∈ members (table r' p) g <-> i ∈ members (table r p) g).
Proof.
  intros Hs Hsv Hl Hc [Hi Hm Ht Htr Hr Hw Hp Hat].
  destruct (unsubscribe_session_shrinks x s t (map_to_list m).*1 Ht w tr r Hs Htr Hr Hw) as (tr' & r' & E & Hr' & Hw' & Hrr & Hsh & Hg).
  { apply Forall_forall. intros topic Hin. apply list_elem_of_fmap in Hin as ([t' q] & -> & Hin). apply elem_of_map_to_list in Hin. by eapply Hp. }
  exists tr', r'. split; [|split; [done|split; [done|split; [done|split]]]].
  - rewrite (lbind_step _ _ _ _ _ (lib_get_sess_ok w x s l ss Hs Hl Hc)). unfold LibSession.Topics. cbn [snd]. by rewrite Hi, Hm.
  - intros p g Hin. pose proof (sh_sub _ _ _ (Hsh p) _ _ Hin) as Hin0. destruct (Hat p g Hin0) as (Hn & topic & q & Hq & Hfp & <-).
    apply (Hg topic p) in Hin; try done. apply list_elem_of_fmap. exists (topic, q). split; [done|]. by apply elem_of_map_to_list.
  - intros p g i Hne. split; [apply (sh_sub _ _ _ (Hsh p))|by apply (sh_others _ _ _ (Hsh p))].
Qed.

Lemma subscribed_torn_down w x s c cn i o ss t tr r m : subscribed w s ss t tr r m ->
  subscribed (torn_down w x s c cn i o) (ended s i o) ss t tr r m.
Proof. intros [H1 H2 H3 H4 H5 H6 H7 H8]. by econstructor. Qed.

(** a stopped service stays as it is *)
Lemma stop_again w x s : svcs w !! x = Some s -> closed s = true -> stop intn answer rpcLogout joined x w = (Ok tt, w).
Proof. intros Hs Hc. unfold stop. rewrite (lbind_step _ _ _ _ _ (lib_get_svc_ok w x s Hs)). by rewrite Hc. Qed.

(** C19: A connection that ends gives back what it held.  For a service of the server
    whose client left no will, [stop] closes the connection and both rings and waits for
    the goroutines of the service.  When they have ended it takes the service's function
    out of the topic tree, where the function stands only at filters of the session and
    once in each list (in the list of single subscribers, or of the group that the
    filter names), without touching any other subscriber, deletes the session from the
    store exactly when the client had asked for a clean one and keeps it untouched
    otherwise, and ends the heartbeat channel; a second call does nothing. *)
Theorem stop_releases w x s c cn l ss cm t tr r m :
  up w x s c cn l ss cm -> joined x = true -> subscribed w s ss t tr r m -> WillFlag cm = false -> keepAliveCH s = ChOpen ->
  exists w' s' tr' r', stop intn answer rpcLogout joined x w = (Ok tt, w') /\
    svcs w' = <[x:=s']> (svcs w) /\ closed s' = true /\ conn s' = None /\ inb s' = None /\ outb s' = None /\
    keepAliveCH s' = ChClosed /\ conns w' = <[c:=conn_Close cn]> (conns w) /\
    store w' = (if CleanSession cm && has_sessMgr (cfg s) then delete (ClientId cm) (store w) else store w) /\
    sessions w' = sessions w /\ calls w' = calls w /\
    trees w' = <[t:=tr']> (trees w) /\ sroot tr' = Some r' /\ swf r' /\ rroot tr' = rroot tr /\
    (forall p g, IPtr (onpub (cfg s)) ∉ members (table r' p) g) /\
    (forall p g i, i <> IPtr (onpub (cfg s)) -> i ∈ members (table r' p) g <-> i ∈ members (table r p) g) /\
    stop intn answer rpcLogout joined x w' = (Ok tt, w').
Proof.
  intros U J S Hwill Hka. destruct (up_in _ _ _ _ _ _ _ _ U) as [i Hi]. destruct (up_out _ _ _ _ _ _ _ _ U) as [o Ho].
  pose proof (stop_tears_down w x s c cn l ss cm i o U Hi Ho J) as E0. destruct U as [Hs Hsv Hop Hd Hc Hx _ _ Hl Hcell Hcm].
  set (w1 := torn_down w x s c cn i o) in *. set (s1 := ended s i o) in *.
  assert (Hs1 : svcs w1 !! x = Some s1) by (cbn; by rewrite lookup_insert_eq).
  destruct (unsubscribed w1 x s1 l ss t tr r m Hs1 Hsv Hl Hcell) as (tr' & r' & E1 & Hr' & Hw' & Hrr & Hgone & Hothers);
    [by apply subscribed_torn_down|].
  set (w2 := set_trees (<[t:=tr']> (trees w1)) w1) in *. assert (Hs2 : svcs w2 !! x = Some s1) by exact Hs1.
  set (w3 := if CleanSession cm && has_sessMgr (cfg s) then set_store (mem_Del (store w2) (ClientId cm)) w2 else w2).
  assert (Hs3 : svcs w3 !! x = Some s1) by (unfold w3; by destruct (_ && _)).
  set (w4 := set_svcs (<[x:=set_ka ChClosed s1]> (svcs w3)) w3).
  assert (Hs4 : svcs w4 !! x = Some (set_ka ChClosed s1)) by (cbn; by rewrite lookup_insert_eq).
  set (s' := set_bufs None None (set_conn None (set_ka ChClosed s1))).
  set (w5 := set_svcs (<[x:=s']> (svcs w4)) w4).
  assert (Hw5 : svcs w5 = <[x:=s']> (svcs w)).
  { cbn. unfold w3. destruct (_ && _); cbn; by rewrite !insert_insert_eq. }
  assert (E2 : stop_rest x (set_closed s) w1 = (Ok tt, w5)).
  { unfold stop_rest. cbn [cfg sess keepAliveCH set_closed]. rewrite Hl, Hsv, (lbind_step _ _ _ _ _ E1).
    rewrite (lbind_step _ _ _ _ _ (lib_get_sess_ok w2 x s1 l ss Hs2 Hl Hcell)). cbn [snd].
    rewrite Hcm, lbind_assoc, lbind_deref, Hwill, lbind_ret.
    rewrite (lbind_step _ _ _ _ _ (lib_get_sess_ok w2 x s1 l ss Hs2 Hl Hcell)). cbn [snd]. rewrite lbind_ret, Hcm, lbind_deref.
    assert (E3 : (if CleanSession cm && has_sessMgr (cfg s)
       then do i <- lift (ID ss) ;; modify (fun w => set_store (mem_Del (store w) i) w) else retM tt) w2 = (Ok tt, w3)).
    { unfold w3, ID. rewrite Hcm. destruct (_ && _); [|done]. by rewrite lbind_lift. }
    rewrite (lbind_step _ _ _ _ _ E3), Hka. cbn [close_channel]. rewrite lbind_assoc, lbind_lift.
    rewrite (lbind_step _ _ _ _ _ (lib_upd_svc_ok w3 x s1 (set_ka ChClosed) Hs3)).
    exact (lib_upd_svc_ok w4 x _ _ Hs4). }
  assert (E : stop intn answer rpcLogout joined x w = (Ok tt, w5)) by (rewrite E0; unfold handled; by rewrite E2).
  exists w5, s', tr', r'. split; [exact E|]. split; [exact Hw5|]. do 5 (split; [done|]).
  split; [unfold w5, w4, w3; by destruct (_ && _)|]. split; [unfold w5, w4, w3; by destruct (_ && _)|].
  split; [unfold w5, w4, w3; by destruct (_ && _)|]. split; [unfold w5, w4, w3; by destruct (_ && _)|].
  split; [unfold w5, w4, w3; by destruct (_ && _)|]. do 5 (split; [done|]).
  apply (stop_again w5 x s'); [|done]. rewrite Hw5. by rewrite lookup_insert_eq.
Qed.

(** a session that says that there is a will and holds none *)
Lemma stop_without_will w x s c cn l ss cm t tr r m :
  up w x s c cn l ss cm -> joined x = true -> subscribed w s ss t tr r m -> WillFlag cm = true -> Will ss = None ->
  exists w' s', stop intn answer rpcLogout joined x w = (Ok tt, w') /\ svcs w' = <[x:=s']> (svcs w) /\ closed s' = true /\
    calls w' = calls w /\ (exists o o', outb s = Some o /\ outb s' = Some o' /\ rg_bytes o' = rg_bytes o) /\
    keepAliveCH s' = keepAliveCH s /\ conn s' = Some c /\ is_Some (inb s') /\
    conns w' !! c = Some (conn_Close cn) /\ stop intn answer rpcLogout joined x w' = (Ok tt, w').
Proof.
  intros U J S Hwill Hnone. destruct (up_in _ _ _ _ _ _ _ _ U) as [i Hi]. destruct (up_out _ _ _ _ _ _ _ _ U) as [o Ho].
  pose proof (stop_tears_down w x s c cn l ss cm i o U Hi Ho J) as E0. destruct U as [Hs Hsv Hop Hd Hc Hx _ _ Hl Hcell Hcm].
  set (w1 := torn_down w x s c cn i o) in *. set (s1 := ended s i o) in *.
  assert (Hs1 : svcs w1 !! x = Some s1) by (cbn; by rewrite lookup_insert_eq).
  destruct (unsubscribed w1 x s1 l ss t tr r m Hs1 Hsv Hl Hcell) as (tr' & r' & E1 & _); [by apply subscribed_torn_down|].
  set (w2 := set_trees (<[t:=tr']> (trees w1)) w1) in *. assert (Hs2 : svcs w2 !! x = Some s1) by exact Hs1.
  assert (E2 : stop_rest x (set_closed s) w1 = (Crash NilDeref, w2)).
  { unfold stop_rest. cbn [cfg sess keepAliveCH set_closed]. rewrite Hl, Hsv, (lbind_step _ _ _ _ _ E1).
    rewrite (lbind_step _ _ _ _ _ (lib_get_sess_ok w2 x s1 l ss Hs2 Hl Hcell)). cbn [snd].
    rewrite Hcm, lbind_assoc, lbind_deref, Hwill. unfold publish_will at 1.
    rewrite lbind_assoc, (lbind_step _ _ _ _ _ (lib_get_sess_ok w2 x s1 l ss Hs2 Hl Hcell)). cbn [snd]. by rewrite Hnone. }
  assert (E : stop intn answer rpcLogout joined x w = (Ok tt, w2)).
  { rewrite E0. unfold handled. rewrite E2. destruct (cid_ok w2 x s1 l ss cm Hs2 Hl Hcell Hcm) as [a Ha]. by rewrite (lbind_step _ _ _ _ _ Ha). }
  exists w2, s1. split; [exact E|]. split; [done|]. split; [done|]. split; [done|]. split; [by exists o, (ring_close o)|].
  split; [done|]. split; [done|]. split; [done|]. split; [cbn; by rewrite lookup_insert_eq|]. by apply (stop_again w2 x s1).
Qed.

(** C38: A will that is announced on a resumed session is lost.  [Update] stores the CONNECT
    of a client that resumes its session but makes no will of it: a session that held
    none holds none afterwards, although its CONNECT says that there is one.  When a
    connection with such a session ends, and its goroutines have ended, [stop] panics on
    the nil message and the deferred recover ends it there: nobody is sent the will, the
    rest of the clean-up is skipped (the heartbeat channel stays open, connection and
    rings stay referenced), and, as the service counts as stopped, nothing makes up for
    it. *)
Theorem resumed_will_lost (ss0 : Session completion) bs sp req cm n :
  Connect.Decode NewConnectMessage (Slice bs sp) = Ret (req, n, None) ->
  Connect.Decode NewConnectMessage (mkslice bs) = Ret (cm, n, None) -> WillFlag cm = true -> Will ss0 = None ->
  exists ss1, LibSession.Update ss0 req = Ret (ss1, req, None) /\ Cmsg ss1 = Some cm /\ Will ss1 = None /\
    (forall k, get_q ss1 k = get_q ss0 k) /\ sess_topics ss1 = sess_topics ss0 /\
    forall w x s c cn l ss t tr r m,
      Will ss = Will ss1 -> up w x s c cn l ss cm -> joined x = true -> subscribed w s ss t tr r m ->
      exists w' s', stop intn answer rpcLogout joined x w = (Ok tt, w') /\ svcs w' = <[x:=s']> (svcs w) /\ closed s' = true /\
        calls w' = calls w /\ (exists o o', outb s = Some o /\ outb s' = Some o' /\ rg_bytes o' = rg_bytes o) /\
        keepAliveCH s' = keepAliveCH s /\ conn s' = Some c /\ is_Some (inb s') /\
        conns w' !! c = Some (conn_Close cn) /\ stop intn answer rpcLogout joined x w' = (Ok tt, w').
Proof.
  intros HD HD0 Hwill Hnone. exists (with_connect bs cm ss0). split; [exact (lib_store_connect_copy ss0 bs sp req cm n HD HD0)|].
  split; [done|]. split; [exact Hnone|]. split; [by intros []|]. split; [done|].
  intros w x s c cn l ss t tr r m Hw U J S. apply (stop_without_will w x s c cn l ss cm t tr r m U J S Hwill).
  rewrite Hw. exact Hnone.
Qed.
End Stop.

(** ** On the sample server *)

Lemma swf_subscribed_a q sub : ValidQos q = true ->
  exists r, Topics.Subscribe NewMemProvider (str "a") q (Some sub) = Ret (mkTopics (Some r) (Some newRNode), q, None) /\ swf r /\
    forall p, table r p = if decide (p = [str "a"]) then ([sub], [q], ∅) else ([], [], ∅).
Proof.
  intros Hq. destruct (Subscribe_table NewMemProvider newSNode (str "a") q sub [str "a"] eq_refl swf_new Hq eq_refl) as (r & E & Hw & Ht).
  exists r. split; [exact E|]. split; [done|]. intros p. rewrite Ht. case_decide; [|by rewrite table_new]. by rewrite table_new.
Qed.

(** a field of an object that was looked up with the equation [E] *)
Ltac of_lookup E := vm_compute in E; injection E as <-; first [reflexivity | eexists; reflexivity].
Ltac sample_up Es Ec El Em :=
  constructor; [exact Es|of_lookup Es|of_lookup Es|of_lookup Es|of_lookup Es|exact Ec|of_lookup Es|of_lookup Es|of_lookup Es|exact El|exact Em].

Lemma stop_releases_witness : exists s w' tr' r',
  svcs LibSample.subscribed !! LibSample.d2 = Some s /\ LibSample.hang_up LibSample.d2 LibSample.subscribed = w' /\
  store LibSample.subscribed !! str "d2|x" = Some 1 /\ store w' !! str "d2|x" = None /\
  trees w' !! 0 = Some tr' /\ sroot tr' = Some r' /\ forall p g, IPtr 3 ∉ members (table r' p) g.
Proof.
  destruct (svcs LibSample.subscribed !! LibSample.d2) as [s|] eqn:Es; [|vm_compute in Es; discriminate].
  destruct (conns LibSample.subscribed !! 1) as [cn|] eqn:Ec; [|vm_compute in Ec; discriminate].
  destruct (cells (sessions LibSample.subscribed) !! 1) as [ss|] eqn:El; [|vm_compute in El; discriminate].
  destruct (Cmsg ss) as [cm|] eqn:Em; [|vm_compute in El; injection El as <-; discriminate].
  destruct (swf_subscribed_a 1 (IPtr 3) eq_refl) as (r & ET & Hw & Ht).
  destruct (stop_releases LibSample.first_member LibSample.no_answer LibSample.rpc_ok LibSample.all_end LibSample.subscribed LibSample.d2 s 1 cn 1 ss cm 0
    (mkTopics (Some r) (Some newRNode)) r {[str "a" := 1]}) as (w' & s' & tr' & r' & H1 & _ & _ & _ & _ & _ & _ & _ & H2 & _ & _ & H3 & H4 & _ & _ & H5 & _).
  - sample_up Es Ec El Em.
  - reflexivity.
  - constructor; [of_lookup El|of_lookup El|of_lookup Es| |reflexivity|exact Hw| |].
    + vm_compute in ET. injection ET as <-. vm_compute. reflexivity.
    + intros topic q Hq. apply lookup_singleton_Some in Hq as [<- _]. exists [str "a"]. reflexivity.
    + intros p g Hp. assert (Ho : onpub (cfg s) = 3) by (clear -Es; of_lookup Es). rewrite Ho, Ht in Hp. rewrite Ht.
      destruct (decide (p = [str "a"])) as [->|Hn]; destruct g as [|g0 g]; [|exact (False_ind _ (not_elem_of_nil _ Hp))..].
      split; [apply NoDup_singleton|]. exists (str "a"), 1. split; [apply lookup_singleton_eq|]. split; reflexivity.
  - vm_compute in El. injection El as <-. cbn in Em. injection Em as <-. reflexivity.
  - vm_compute in Es. injection Es as <-. reflexivity.
  - exists s, w', tr', r'. split; [reflexivity|]. split; [unfold LibSample.hang_up; by rewrite H1|]. split; [vm_compute; reflexivity|].
    split; [|split; [rewrite H3; apply lookup_insert_eq|split; [exact H4|]]].
    + rewrite H2. vm_compute in Es, El. injection Es as <-. injection El as <-. cbn in Em. injection Em as <-. vm_compute. reflexivity.
    + intros p g. pose proof (H5 p g) as H. vm_compute in Es. injection Es as <-. exact H.
Defined.

Lemma resumed_will_lost_witness : exists ss0 ss w' s',
  cells (sessions LibSample.away) !! 0 = Some ss0 /\ LibSession.Update ss0 (LibSample.decoded LibSample.will_bytes) = Ret (ss, LibSample.decoded LibSample.will_bytes, None) /\
  Will ss = None /\ LibSample.hang_up 4 LibSample.resumed = w' /\ svcs w' !! 4 = Some s' /\ closed s' = true /\ calls w' = [] /\
  keepAliveCH s' = ChOpen /\ conn s' = Some 1.
Proof.
  destruct (cells (sessions LibSample.away) !! 0) as [ss0|] eqn:E0; [|vm_compute in E0; discriminate].
  destruct (svcs LibSample.resumed !! 4) as [s|] eqn:Es; [|vm_compute in Es; discriminate].
  destruct (conns LibSample.resumed !! 1) as [cn|] eqn:Ec; [|vm_compute in Ec; discriminate].
  destruct (cells (sessions LibSample.resumed) !! 0) as [ss|] eqn:El; [|vm_compute in El; discriminate].
  assert (Hw0 : Will ss0 = None) by of_lookup E0. assert (Hw : Will ss = None) by of_lookup El.
  assert (Em : Cmsg ss = Some (LibSample.decoded LibSample.will_bytes)) by (vm_compute in El; injection El as <-; vm_compute; reflexivity).
  destruct (resumed_will_lost LibSample.first_member LibSample.no_answer LibSample.rpc_ok LibSample.all_end ss0 LibSample.will_bytes []
    (LibSample.decoded LibSample.will_bytes) (LibSample.decoded LibSample.will_bytes) (zlen LibSample.will_bytes)) as (ss1 & H0 & _ & Hw1 & _ & _ & H);
    [vm_compute; reflexivity|vm_compute; reflexivity|vm_compute; reflexivity|exact Hw0|].
  destruct (H LibSample.resumed 4 s 1 cn 0 ss 0 NewMemProvider newSNode ∅) as (w' & s' & H1 & H2 & H3 & H4 & _ & H5 & H6 & _).
  - rewrite Hw, Hw1. reflexivity.
  - sample_up Es Ec El Em.
  - reflexivity.
  - constructor; [of_lookup El|of_lookup El|of_lookup Es|vm_compute; reflexivity|reflexivity|apply swf_new| |].
    + intros topic q Hq. rewrite lookup_empty in Hq. discriminate Hq.
    + intros p g Hp. rewrite table_new in Hp. destruct g; exact (False_ind _ (not_elem_of_nil _ Hp)).
  - exists ss0, ss1, w', s'. split; [reflexivity|]. split; [exact H0|]. split; [exact Hw1|].
    split; [unfold LibSample.hang_up; by rewrite H1|]. split; [rewrite H2; apply lookup_insert_eq|].
    split; [exact H3|]. split; [rewrite H4; vm_compute; reflexivity|]. split; [|exact H6].
    rewrite H5. vm_compute in Es. injection Es as <-. reflexivity.
Defined.
