(* ===== verification/LibResume.v ===== *)
(** * LibResume: sessions that outlive their connection, in the library
      ([getSession] of [utils/surgemq/surgemq/service/server.go], [start] of service.go)

    Which session a client gets when it connects, and what becomes of the
    subscriptions of a session that is taken up again. *)
From stdpp Require Import base list strings gmap.
From Stdlib Require Import ZArith Lia.
From S2P Require Import Prelude GoLang NetConn MsgTypes Connect Connack Publish.
From S2P Require Import Topics TopicsSpec TopicManager.
From S2P Require Import LibQueue LibSession LibWorld LibService LibServer LibRouting LibStop.
From S2P Require LibSample.

#[local] Existing Instance TopicManager.memTopics_provider.

(** ** The session of a client that connects *)



Section GetSession.
Context (rnd : option (list Z)) (w : world) (x : Z) (s : service) (resp : ConnackMessage).
Context (bs sp : list Z) (req m : ConnectMessage) (n : Z).
Context (HD : Connect.Decode NewConnectMessage (Slice bs sp) = Ret (req, n, None)).
Context (HD0 : Connect.Decode NewConnectMessage (mkslice bs) = Ret (m, n, None)).
Context (Hs : svcs w !! x = Some s) (Hnone : sess s = None) (Hid : ClientId req <> []).




End GetSession.

(** ** The subscriptions of a session that is taken up again *)

(** [d'] is [d] with [i], which may have been there *)
Record grown (i : iface) (d d' : list iface * list Z * gmap (list Z) (list iface)) : Prop := {
  gr_keep j : j ∈ d.1.1 -> j ∈ d'.1.1;
  gr_new j : j ∈ d'.1.1 -> j = i \/ j ∈ d.1.1
}.

Lemma grown_refl i d : grown i d d.
Proof. constructor; auto. Qed.

Lemma grown_trans i d1 d2 d3 : grown i d1 d2 -> grown i d2 d3 -> grown i d1 d3.
Proof. intros [K1 N1] [K2 N2]. constructor; [auto|]. intros j [H|H]%N2; auto. Qed.

Lemma add_sub_grown g q a d : grown (IPtr a) d (add_sub g q (IPtr a) d).
Proof.
  destruct d as [[ss qs] gs]. unfold add_sub. destruct g as [|g0 g]; [|by constructor; auto].
  destruct (find_sub ss (IPtr a)); [by constructor; auto|]. constructor; cbn [fst]; intros j.
  - intros H. apply elem_of_app. by left.
  - intros [H|H]%elem_of_app; [by right|]. left. by apply list_elem_of_singleton in H.
Qed.

Lemma add_sub_there q a d : IPtr a ∈ (add_sub [] q (IPtr a) d).1.1.
Proof.
  destruct d as [[ss qs] gs]. unfold add_sub. pose proof (find_sub_ptr ss a) as H. destruct (find_sub ss (IPtr a)) as [i|]; cbn [fst].
  - by apply list_elem_of_lookup_2 in H.
  - apply elem_of_app. right. apply list_elem_of_here.
Qed.

(** the QoS at which a variable is entered outside groups *)
Definition qos_of (d : list iface * list Z * gmap (list Z) (list iface)) (a : Z) : option Z :=
  k ← find_sub d.1.1 (IPtr a); d.1.2 !! k.

Definition level (d : list iface * list Z * gmap (list Z) (list iface)) : Prop := length d.1.1 = length d.1.2.

Lemma table_level r p : swf r -> level (table r p).
Proof.
  unfold level, table. intros Hw. assert (H : swf (default newSNode (node_at p r))); [|by inversion H].
  revert r Hw. induction p as [|l p IH]; intros r Hw; [done|]. cbn [node_at].
  destruct (aget (snodes r) l) as [c|] eqn:E; cbn [default option_bind mbind]; [|apply swf_new]. apply IH. by eapply swf_child.
Qed.

Lemma find_sub_snoc l a b : find_sub (l ++ [IPtr a]) (IPtr b) =
  match find_sub l (IPtr b) with Some k => Some k | None => if decide (a = b) then Some (length l) else None end.
Proof.
  induction l as [|x l IH]; cbn [app find_sub].
  - cbn [equal]. destruct (decide (a = b)) as [->|Hn]; [by rewrite bool_decide_eq_true_2|]. rewrite bool_decide_eq_false_2 by congruence. done.
  - destruct (equal x (IPtr b)); [done|]. rewrite IH. destruct (find_sub l (IPtr b)); [done|]. by destruct (decide (a = b)).
Qed.

Lemma add_sub_qos g q a d b : level d -> qos_of (add_sub g q (IPtr a) d) b =
  if decide (g = [] /\ b = a) then Some q else qos_of d b.
Proof.
  destruct d as [[ss qs] gs]. unfold level, qos_of, add_sub. cbn [fst snd]. intros Hl. destruct g as [|g0 g]; [|by rewrite decide_False by naive_solver].
  pose proof (find_sub_ptr ss a) as Ha. destruct (find_sub ss (IPtr a)) as [k|] eqn:Ek; cbn [fst snd].
  - case_decide as H.
    + destruct H as [_ ->]. rewrite Ek. cbn [option_bind mbind]. apply list_lookup_insert_eq. rewrite <- Hl. by eapply lookup_lt_Some.
    + destruct (find_sub ss (IPtr b)) as [j|] eqn:Ej; [|done]. cbn [option_bind mbind]. apply list_lookup_insert_ne. intros ->.
      pose proof (find_sub_ptr ss b) as Hb. rewrite Ej in Hb. rewrite Hb in Ha. injection Ha as ->. by apply H.
  - rewrite find_sub_snoc. destruct (decide (@nil Z = [] /\ b = a)) as [H|H].
    + destruct H as [_ ->]. rewrite Ek, decide_True by done. cbn [option_bind mbind]. rewrite Hl. by apply list_lookup_middle.
    + destruct (find_sub ss (IPtr b)) as [j|] eqn:Ej; cbn [option_bind mbind].
      * apply find_sub_lt in Ej. apply lookup_app_l. lia.
      * rewrite decide_False; [done|]. naive_solver.
Qed.

Lemma add_sub_members g q a d g' j : j ∈ members (add_sub g q (IPtr a) d) g' <-> j ∈ members d g' \/ (g' = g /\ j = IPtr a).
Proof.
  destruct d as [[ss qs] gs]. unfold add_sub. destruct g as [|g0 g].
  - pose proof (find_sub_ptr ss a) as Ha. destruct (find_sub ss (IPtr a)) as [k|]; destruct g' as [|g1 g']; cbn [members fst snd]; [|naive_solver| |naive_solver].
    + split; [by left|]. intros [H|[_ ->]]; [done|]. by apply list_elem_of_lookup_2 in Ha.
    + rewrite elem_of_app, list_elem_of_singleton. naive_solver.
  - destruct g' as [|g1 g']; cbn [members fst snd]; [naive_solver|]. destruct (decide (g1 :: g' = g0 :: g)) as [->|Hn].
    + rewrite lookup_insert_eq. cbn [default]. unfold Datatypes.id. rewrite elem_of_app, list_elem_of_singleton. naive_solver.
    + rewrite lookup_insert_ne by done. naive_solver.
Qed.

(** [r'] is the tree [r] with [a] entered at the filters [F] of a session: nothing else
    changes, [a] stands nowhere else than before, and its QoS is the one that the
    session records (for one of the filters that lead to the place) *)
Record resubscribed (F : list Z -> Z -> Prop) (a : Z) (r r' : snode) : Prop := {
  rs_others p g j : j <> IPtr a -> j ∈ members (table r' p) g <-> j ∈ members (table r p) g;
  rs_qos_others p b : b <> a -> qos_of (table r' p) b = qos_of (table r p) b;
  rs_own p g : IPtr a ∈ members (table r' p) g <->
    IPtr a ∈ members (table r p) g \/ exists topic q, F topic q /\ filter_path topic p /\ (getGroupName topic).1 = g;
  rs_qos p : (exists topic q, F topic q /\ filter_path topic p /\ single topic /\ qos_of (table r' p) a = Some q) \/
    ((forall topic q, F topic q -> filter_path topic p -> ~ single topic) /\ qos_of (table r' p) a = qos_of (table r p) a)
}.

Lemma resubscribed_none F a r : (forall topic q, ~ F topic q) -> resubscribed F a r r.
Proof. intros HF. constructor; [done..| |right; naive_solver]. intros p g. split; [by left|]. intros [H|(topic & q & H & _)]; [done|]. by destruct (HF topic q). Qed.

Lemma resubscribed_iff F G a r r' : (forall topic q, F topic q <-> G topic q) -> resubscribed F a r r' -> resubscribed G a r r'.
Proof. intros HFG [H1 H2 H3 H4]. constructor; [done|done| |]; intros p; [intros g; rewrite H3|destruct (H4 p) as [H|H]; [left|right]]; naive_solver. Qed.

Lemma resubscribed_trans F G a r1 r2 r3 : resubscribed F a r1 r2 -> resubscribed G a r2 r3 ->
  resubscribed (fun topic q => F topic q \/ G topic q) a r1 r3.
Proof.
  intros [A1 A2 A3 A4] [B1 B2 B3 B4]. constructor.
  - intros p g j Hj. by rewrite B1, A1.
  - intros p b Hb. by rewrite B2, A2.
  - intros p g. rewrite B3, A3. naive_solver.
  - intros p. destruct (B4 p) as [H|[H1 H2]]; [left; naive_solver|]. rewrite H2. destruct (A4 p) as [H|H]; [left|right]; naive_solver.
Qed.

(** one subscription *)
Lemma resubscribed_one topic q a r r1 p : filter_path topic p -> swf r ->
  (forall p', table r1 p' = if decide (p' = p) then add_sub (getGroupName topic).1 q (IPtr a) (table r p) else table r p') ->
  resubscribed (fun topic' q' => topic' = topic /\ q' = q) a r r1.
Proof.
  intros Hp Hw Ht. pose proof (table_level r p Hw) as Hl. unfold filter_path, single in *. constructor; intros p'; rewrite Ht; case_decide as Hd.
  - subst p'. intros g j Hj. rewrite add_sub_members. naive_solver.
  - done.
  - subst p'. intros b Hb. rewrite (add_sub_qos _ q a _ b Hl), decide_False; naive_solver.
  - done.
  - subst p'. intros g. rewrite add_sub_members. split; [|naive_solver]. intros [H|[-> _]]; [by left|]. right. by exists topic, q.
  - intros g. split; [by left|]. intros [H|(topic' & q' & [-> ->] & H & _)]; [done|]. congruence.
  - subst p'. rewrite (add_sub_qos _ q a _ a Hl). case_decide as H; [left; exists topic, q; naive_solver|]. right. split; [naive_solver|done].
  - right. split; [|done]. intros topic' q' [-> ->] H. congruence.
Qed.

Lemma resubscribe_enters x s t : topicsMgr s = Some t -> forall ts i qoss w tr r, 0 <= i -> svcs w !! x = Some s -> trees w !! t = Some tr ->
  sroot tr = Some r -> swf r ->
  (forall j topic, ts !! j = Some topic -> (exists p, filter_path topic p) /\
     exists q, qoss !! (Z.to_nat i + j)%nat = Some q /\ ValidQos q = true) ->
  exists tr' r', resubscribe x ts i qoss w = (Ok tt, set_trees (<[t:=tr']> (trees w)) w) /\ sroot tr' = Some r' /\ swf r' /\
    rroot tr' = rroot tr /\
    resubscribed (fun topic q => exists j, ts !! j = Some topic /\ qoss !! (Z.to_nat i + j)%nat = Some q) (onpub (cfg s)) r r'.
Proof.
  intros Hm. induction ts as [|topic ts IH]; intros i qoss w tr r Hi Hs Ht Hr Hw Hts.
  - exists tr, r. cbn [resubscribe]. rewrite insert_id by done. split; [by destruct w|]. do 3 (split; [done|]).
    apply resubscribed_none. intros topic q (j & H & _). done.
  - destruct (Hts 0%nat topic eq_refl) as ([p Hp] & q & Hq & Hv). rewrite Nat.add_0_r in Hq. cbn [resubscribe].
    destruct (Subscribe_table tr r topic q (IPtr (onpub (cfg s))) p Hr Hw Hv Hp) as (r1 & E1 & Hw1 & Ht1).
    destruct (IH (i + 1) qoss (set_trees (<[t:=mkTopics (Some r1) (rroot tr)]> (trees w)) w) (mkTopics (Some r1) (rroot tr)) r1) as
      (tr' & r' & E2 & Hr' & Hw' & Hrr & Hgr); [lia|done|cbn; by rewrite lookup_insert_eq|done|done| |].
    { intros j topic' Hj. destruct (Hts (S j) topic' Hj) as [H1 (q' & H2 & H3)]. split; [done|]. exists q'. split; [|done].
      by replace (Z.to_nat (i + 1) + j)%nat with (Z.to_nat i + S j)%nat by lia. }
    exists tr', r'. split; [|split; [done|split; [done|split; [done|]]]].
    + rewrite (lbind_step _ _ _ _ _ (lib_get_svc_ok w x s Hs)). rewrite (lbind_step _ _ _ _ _ (get_tree_ok w x s t tr Hs Hm Ht)).
      assert (Hix : index qoss i = Ret q).
      { unfold index. apply lookup_lt_Some in Hq as Hlt. destruct (_ && _) eqn:E; [by rewrite Hq|unfold zlen in E; lia]. }
      rewrite Hix, lbind_lift. cbn [snd fst]. unfold mgr_Subscribe. cbn [pv_Subscribe memTopics_provider]. rewrite E1, lbind_lift. cbn [fst].
      unfold put_tree. rewrite lbind_modify, E2. cbn. by rewrite insert_insert_eq.
    + eapply resubscribed_iff; [|exact (resubscribed_trans _ _ _ _ _ _ (resubscribed_one topic q _ r r1 p Hp Hw Ht1) Hgr)].
      replace (Z.to_nat (i + 1)) with (S (Z.to_nat i)) by lia. intros topic' q'. cbn beta. split.
      * intros [[-> ->]|(j & H1 & H2)]; [exists 0%nat|exists (S j)]; rewrite ?Nat.add_0_r, ?Nat.add_succ_r; done.
      * intros ([|j] & H1 & H2); [left|right; exists j]; rewrite ?Nat.add_0_r, ?Nat.add_succ_r in H2; [|done]. injection H1 as ->. naive_solver.
Qed.

(** C20: A resumed session is subscribed again.  [start] of a service of the server enters
    the service's own function in the topic tree at every filter of its session: in the
    group that the filter names, or else at the QoS that the session records for it (or
    for another of its filters with the same levels).  It enters the function nowhere
    else, leaves all other subscribers and their QoS as they are, publishes the function,
    empties both rings, sets the read deadline to the keep-alive and from then on waits
    three seconds longer. *)
Theorem start_restores_subscriptions (rpcLogin : list Z -> list Z -> list Z -> option error) w x s l ss t tr r m c cn :
  svcs w !! x = Some s -> client (cfg s) = false -> sess s = Some l -> cells (sessions w) !! l = Some ss ->
  initted ss = true -> sess_topics ss = Some m -> topicsMgr s = Some t -> trees w !! t = Some tr -> sroot tr = Some r -> swf r ->
  (forall topic q, m !! topic = Some q -> ValidQos q = true /\ exists p, filter_path topic p) ->
  conn s = Some c -> conns w !! c = Some cn -> NetConn.closed cn = false ->
  rpcLogin (productKey (cfg s)) (deviceName (cfg s)) (nodeID (cfg s) ++ str ":" ++ GoStrings.Itoa (svc_id (cfg s))) = None ->
  exists w' s' tr' r', start rpcLogin x w = (Ok None, w') /\
    svcs w' = <[x:=s']> (svcs w) /\ inb s' = Some new_ring /\ outb s' = Some new_ring /\ beat s' = Some (keepAlive (cfg s) + 3) /\
    sess s' = Some l /\ conns w' = <[c:=with_deadline (keepAlive (cfg s)) cn]> (conns w) /\
    funs w' = <[onpub (cfg s):=PubService x]> (funs w) /\ sessions w' = sessions w /\
    trees w' = <[t:=tr']> (trees w) /\ sroot tr' = Some r' /\ swf r' /\
    resubscribed (fun topic q => m !! topic = Some q) (onpub (cfg s)) r r'.
Proof.
  intros Hs Hsv Hl Hc Hin Hm Ht Htr Hr Hw Hok Hcn Hx Hop Hlog. set (s1 := set_bufs (Some new_ring) (Some new_ring) s).
  set (w1 := set_svcs (<[x:=s1]> (svcs w)) w). set (w2 := set_funs (<[onpub (cfg s):=PubService x]> (funs w1)) w1).
  assert (Hs2 : svcs w2 !! x = Some s1) by (cbn; by rewrite lookup_insert_eq).
  destruct (resubscribe_enters x s1 t Ht (map_to_list m).*1 0 (map_to_list m).*2 w2 tr r ltac:(lia) Hs2 Htr Hr Hw) as
    (tr' & r' & E1 & Hr' & Hw' & _ & Hgr).
  { intros j topic Hj. rewrite list_lookup_fmap in Hj. destruct (map_to_list m !! j) as [[tp q]|] eqn:Ej; [|done]. injection Hj as <-.
    apply list_elem_of_lookup_2 in Ej as Hel. apply elem_of_map_to_list in Hel. destruct (Hok tp q Hel) as [Hv Hp]. split; [done|].
    exists q. split; [|done]. change (Z.to_nat 0 + j)%nat with j. by rewrite list_lookup_fmap, Ej. }
  set (w3 := set_trees (<[t:=tr']> (trees w2)) w2) in *. set (w4 := set_conns (<[c:=with_deadline (keepAlive (cfg s)) cn]> (conns w3)) w3).
  assert (Hs4 : svcs w4 !! x = Some s1) by exact Hs2. set (s5 := set_beat (Some (keepAlive (cfg s) + 3)) s1).
  set (w5 := set_svcs (<[x:=s5]> (svcs w4)) w4). assert (Hs5 : svcs w5 !! x = Some s5) by (cbn; by rewrite lookup_insert_eq).
  exists w5, s5, tr', r'. split; [|split; [cbn; by rewrite insert_insert_eq|do 10 (split; [done|])]].
  - unfold start. rewrite (lbind_step _ _ _ _ _ (lib_upd_svc_ok w x s _ Hs)). fold s1 w1.
    assert (Hs1 : svcs w1 !! x = Some s1) by (cbn; by rewrite lookup_insert_eq).
    rewrite (lbind_step _ _ _ _ _ (lib_get_svc_ok w1 x s1 Hs1)). change (cfg s1) with (cfg s). rewrite Hsv, lbind_assoc, lbind_modify.
    fold w2. rewrite lbind_assoc, (lbind_step _ _ _ _ _ (lib_get_sess_ok w2 x s1 l ss Hs2 Hl Hc)). unfold LibSession.Topics. cbn [snd].
    rewrite Hin, Hm. cbn [negb]. rewrite lbind_assoc, (lbind_step _ _ _ _ _ E1), lbind_ret.
    assert (E2 : start_receiver x w3 = (Ok tt, w5)).
    { unfold start_receiver. rewrite (lbind_step _ _ _ _ _ (lib_get_svc_ok w3 x s1 Hs2)). change (conn s1) with (conn s). rewrite Hcn, lbind_deref, lbind_gets.
      change (conns w3 !! c) with (conns w !! c). rewrite Hx, lbind_deref. change (cfg s1) with (cfg s). unfold SetReadDeadline. rewrite Hop.
      rewrite lbind_modify. exact (lib_upd_svc_ok w4 x s1 _ Hs4). }
    rewrite (lbind_step _ _ _ _ _ E2). unfold deviceLogin. rewrite (lbind_step _ _ _ _ _ (lib_get_svc_ok w5 x s5 Hs5)).
    change (cfg s5) with (cfg s). by rewrite Hlog.
  - eapply resubscribed_iff; [|exact Hgr]. intros topic q. cbn beta. split.
    + intros (j & H1 & H2). change (map_to_list m).*2 with (snd <$> map_to_list m) in H2. change (Z.to_nat 0 + j)%nat with j in H2. rewrite list_lookup_fmap in H1. rewrite list_lookup_fmap in H2.
      destruct (map_to_list m !! j) as [[tp q']|] eqn:Ej; [|done]. injection H1 as <-. injection H2 as <-.
      by apply list_elem_of_lookup_2, elem_of_map_to_list in Ej.
    + intros Hq. apply elem_of_map_to_list, list_elem_of_lookup_1 in Hq as [j Hj]. exists j. change (Z.to_nat 0 + j)%nat with j.
      by rewrite !list_lookup_fmap, Hj.
Qed.

(** ** On the sample server *)



(** [coming_back] after a subscription to "a" at QoS 1, with the session given to the service *)
Definition taken_up : world :=
  let w := snd (LibSample.arrive 0 false (str "d1") LibSample.fresh_world) in
  let w := snd (LibSample.process LibSample.d1 (LibSample.feed LibSample.d1 [130; 6; 0; 9; 0; 1; 97; 1] w)) in
  let w := LibSample.hang_up LibSample.d1 w in
  set_conns (<[1:=dial [] EOF]> (conns w))
    (set_svcs (<[9:=set_sess (Some 0) (new_service (srv w) 7 8 (str "pk") (str "d1") 60 1)]> (svcs w)) w).





(** the tree has no subscriber before *)
Lemma start_restores_subscriptions_witness : exists w' s' tr' r',
  trees taken_up !! 0 = Some NewMemProvider /\ start LibSample.rpc_ok 9 taken_up = (Ok None, w') /\ svcs w' !! 9 = Some s' /\
  inb s' = Some new_ring /\ trees w' !! 0 = Some tr' /\ sroot tr' = Some r' /\
  IPtr 8 ∈ members (table r' [str "a"]) [] /\ qos_of (table r' [str "a"]) 8 = Some 1.
Proof.
  destruct (svcs taken_up !! 9) as [s|] eqn:Es; [|vm_compute in Es; discriminate].
  destruct (conns taken_up !! 1) as [cn|] eqn:Ec; [|vm_compute in Ec; discriminate].
  destruct (cells (sessions taken_up) !! 0) as [ss|] eqn:El; [|vm_compute in El; discriminate].
  assert (ET : trees taken_up !! 0 = Some NewMemProvider) by (vm_compute; reflexivity).
  assert (Ho : onpub (cfg s) = 8) by (clear -Es; of_lookup Es).
  destruct (start_restores_subscriptions LibSample.rpc_ok taken_up 9 s 0 ss 0 NewMemProvider newSNode
    {[str "a" := 1]} 1 cn) as (w' & s' & tr' & r' & H1 & H2 & H3 & _ & _ & _ & _ & _ & _ & H4 & H5 & _ & [_ _ H6 H7]).
  - exact Es.
  - of_lookup Es.
  - of_lookup Es.
  - exact El.
  - of_lookup El.
  - of_lookup El.
  - of_lookup Es.
  - exact ET.
  - reflexivity.
  - exact swf_new.
  - intros topic q Hq. apply lookup_singleton_Some in Hq as [<- <-]. split; [reflexivity|]. exists [str "a"]. reflexivity.
  - of_lookup Es.
  - exact Ec.
  - of_lookup Ec.
  - reflexivity.
  - exists w', s', tr', r'. split; [exact ET|]. split; [exact H1|]. split; [rewrite H2; apply lookup_insert_eq|]. split; [exact H3|].
    split; [rewrite H4; apply lookup_insert_eq|]. split; [exact H5|]. rewrite Ho in H6, H7. split.
    + apply H6. right. exists (str "a"), 1. split; [apply lookup_singleton_eq|]. split; reflexivity.
    + destruct (H7 [str "a"]) as [(topic & q & Hq & _ & _ & H)|[H _]].
      * apply lookup_singleton_Some in Hq as [_ <-]. exact H.
      * exfalso. apply (H (str "a") 1); [apply lookup_singleton_eq|reflexivity|reflexivity].
Defined.
