(* ===== verification/LibSubscribe.v ===== *)
(** * LibSubscribe: a client of the library subscribes
      ([subscribe] of [utils/surgemq/surgemq/service/service.go], [processAcked] of
      process.go)

    The SUBACK completes a subscription: the closure that [subscribe] left in the
    queue enters the application's function in the client's own topic tree. *)
From stdpp Require Import base list strings gmap.
From Stdlib Require Import ZArith Lia.
From S2P Require Import Prelude GoLang MsgTypes Header Suback Publish Message.
From S2P Require Import Topics TopicsSpec TopicManager.
From S2P Require Import LibQueue LibSession LibWorld LibService LibRouting LibStop LibResume.
From S2P Require AckQueue Suback Subscribe LibSample.

#[local] Existing Instance TopicManager.memTopics_provider.

(** the topics that the server granted, with their QoS *)
Definition grants (ts : list (list Z)) (codes : list Z) : list (list Z * Z) :=
  filter (fun x => x.2 <> QosFailure) (zip ts codes).

(** a session's map after them *)
Definition grant_all (m : gmap (list Z) Z) (l : list (list Z * Z)) : gmap (list Z) Z :=
  foldl (fun m x => <[x.1:=x.2]> m) m l.

(** the session and the tree of the client were changed *)
Definition granting (t : Z) (tr : memTopics) (l : Z) (ss : Session completion) (w : world) : world :=
  set_trees (<[t:=tr]> (trees w)) (set_sessions (set_cell l ss (sessions w)) w).

(** the variable [fn] was entered in the tree at granted filters only, and no other
    subscriber moved *)
Definition entered (fn : Z) (g : list (list Z * Z)) (r r' : snode) : Prop := forall p,
  grown (IPtr fn) (table r p) (table r' p) /\ (table r' p = table r p \/ exists topic q, (topic, q) ∈ g /\ filter_path topic p).

Lemma granted_spec x s l t fn : sess s = Some l -> topicsMgr s = Some t ->
  forall ts codes i err w ss m tr r, 0 <= i -> svcs w !! x = Some s -> cells (sessions w) !! l = Some ss ->
  initted ss = true -> sess_topics ss = Some m -> trees w !! t = Some tr -> sroot tr = Some r -> swf r ->
  length ts = length (drop (Z.to_nat i) codes) ->
  (forall topic q, (topic, q) ∈ grants ts (drop (Z.to_nat i) codes) -> ValidQos q = true /\ exists p, filter_path topic p) ->
  exists tr' r' err', granted x fn ts i codes err w =
      (Ok err', granting t tr' l (with_topics (Some (grant_all m (grants ts (drop (Z.to_nat i) codes)))) ss) w) /\
    sroot tr' = Some r' /\ swf r' /\ entered fn (grants ts (drop (Z.to_nat i) codes)) r r' /\
    (forall topic q p, (topic, q) ∈ grants ts (drop (Z.to_nat i) codes) -> filter_path topic p -> single topic -> IPtr fn ∈ (table r' p).1.1) /\
    (QosFailure ∉ drop (Z.to_nat i) codes -> err' = err).
Proof.
  intros Hl Hm. induction ts as [|topic ts IH]; intros codes i err w ss m tr r Hi Hs Hc Hin Hst Ht Hr Hw Hlen Hok.
  - exists tr, r, err. cbn [granted]. split; [|split; [done|split; [done|split; [intros p; split; [apply grown_refl|by left]|split; [|done]]]]].
    + unfold granting, set_cell, retM. do 2 f_equal. cbn [grants zip_with grant_all foldl].
      assert (Ess : with_topics (Some (grant_all m (grants [] (drop (Z.to_nat i) codes)))) ss = ss) by (unfold with_topics; cbn; rewrite <- Hst; by destruct ss).
      rewrite Ess, !insert_id by done. destruct w as [a b hp]. by destruct hp.
    + intros topic q p H. unfold grants in H. cbn in H. by apply not_elem_of_nil in H.
  - destruct (drop (Z.to_nat i) codes) as [|c cs] eqn:Ed; [done|].
    assert (Hci : codes !! Z.to_nat i = Some c).
    { rewrite <- (Nat.add_0_r (Z.to_nat i)), <- lookup_drop, Ed. done. }
    assert (Hix : index codes i = Ret c) by (by apply index_lookup).
    assert (Hd : drop (Z.to_nat (i + 1)) codes = cs).
    { replace (Z.to_nat (i + 1)) with (S (Z.to_nat i)) by lia. rewrite (drop_S _ _ _ Hci) in Ed. by injection Ed. }
    cbn [granted]. rewrite Hix, lbind_lift. destruct (c =? QosFailure) eqn:Ec.
    + assert (Eg : grants (topic :: ts) (c :: cs) = grants ts cs).
      { unfold grants. cbn [zip_with]. rewrite filter_cons_False; [done|]. cbn. lia. }
      rewrite Eg in *. rewrite <- Hd in *.
      destruct (IH codes (i + 1) (Some (Errorf "Failed to subscribe to '%s'\n%v" [AStr topic])) w ss m tr r ltac:(lia) Hs Hc Hin Hst Ht Hr Hw)
        as (tr' & r' & err' & E & Hr' & Hw' & Hgr & Hg & _); [cbn in Hlen; lia|done|].
      exists tr', r', err'. split; [exact E|]. do 3 (split; [done|]). split; [exact Hg|].
      intros H. exfalso. apply H. apply elem_of_cons. left. lia.
    + assert (Eg : grants (topic :: ts) (c :: cs) = (topic, c) :: grants ts cs).
      { unfold grants. cbn [zip_with]. rewrite filter_cons_True; [done|]. cbn. lia. }
      rewrite Eg in *. destruct (Hok topic c) as [Hv [p Hp]]; [apply list_elem_of_here|].
      destruct (Subscribe_table tr r topic c (IPtr fn) p Hr Hw Hv Hp) as (r1 & E1 & Hw1 & Ht1).
      set (ss1 := with_topics (Some (<[topic:=c]> m)) ss). set (w1 := set_sessions (set_cell l ss1 (sessions w)) w).
      set (w2 := set_trees (<[t:=mkTopics (Some r1) (rroot tr)]> (trees w1)) w1).
      destruct (IH codes (i + 1) err w2 ss1 (<[topic:=c]> m) (mkTopics (Some r1) (rroot tr)) r1) as
        (tr' & r' & err' & E & Hr' & Hw' & Hgr & Hg & He); try done; [lia|cbn; by rewrite lookup_insert_eq|cbn; by rewrite lookup_insert_eq| | |].
      { rewrite Hd. cbn in Hlen. lia. }
      { intros topic' q' H. apply Hok. apply elem_of_cons. right. by rewrite Hd in H. }
      rewrite Hd in *.
      assert (Hgr1 : forall p', grown (IPtr fn) (table r p') (table r1 p')).
      { intros p'. rewrite Ht1. case_decide as Hp'; [subst p'; apply add_sub_grown|apply grown_refl]. }
      exists tr', r', err'. split; [|split; [done|split; [done|split; [|split]]]].
      * rewrite (lbind_step _ _ _ _ _ (lib_get_sess_ok w x s l ss Hs Hl Hc)). cbn [snd fst]. unfold AddTopic. rewrite Hin, Hst. cbn [negb].
        rewrite lbind_lift. cbn [fst]. fold ss1. unfold put_sess. rewrite lbind_modify. fold w1.
        assert (Hs1 : svcs w1 !! x = Some s) by exact Hs. assert (Ht2 : trees w1 !! t = Some tr) by exact Ht.
        rewrite (lbind_step _ _ _ _ _ (get_tree_ok w1 x s t tr Hs1 Hm Ht2)). cbn [snd fst]. unfold mgr_Subscribe. cbn [pv_Subscribe memTopics_provider].
        rewrite E1, lbind_lift. cbv beta iota. unfold put_tree. rewrite lbind_modify. fold w2. rewrite E. unfold granting, w2, w1, ss1.
        unfold set_cell, set_trees, set_sessions. cbn. by rewrite !insert_insert_eq.
      * intros p'. destruct (Hgr p') as [G D]. split; [eapply grown_trans; [apply Hgr1|exact G]|].
        destruct D as [->|(topic' & q' & Hin' & Hp')]; [|right; exists topic', q'; split; [by apply elem_of_cons; right|done]].
        rewrite Ht1. case_decide as Hp'; [|by left]. subst p'. right. exists topic, c. split; [apply list_elem_of_here|done].
      * intros topic' q' p' [[= -> ->]|Hin']%elem_of_cons Hp' Hsi; [|by apply (Hg topic' q' p' Hin')].
        assert (p' = p) as -> by (unfold filter_path in *; congruence). apply (gr_keep _ _ _ (proj1 (Hgr p))).
        
        rewrite Ht1, decide_True by done. unfold single in Hsi. rewrite Hsi. apply add_sub_there.
      * intros Hn. apply He. intros H. apply Hn. apply elem_of_cons. by right.
Qed.

Section Suback.
Context (intn : list iface -> Z)
        (answer : Z -> Message -> option Message -> option error -> option error).
Implicit Types w : world.

(** the entry of a SUBSCRIBE of service [x] *)
Definition asked (x v : Z) (bs : list Z) (f : option Z) (p : Z) : ackmsg completion :=
  mkAck SUBSCRIBE RESERVED v bs [] (Some (OcSubscribe x f p)).

(** what the application is told *)
Definition told (f : option Z) (sub : Subscribe.SubscribeMessage) (sa : Suback.SubackMessage) (err : option error) : list event :=
  match f with Some k => [ECompleted k (MSubscribe sub) (Some (MSuback sa)) err] | None => [] end.

Lemma call_opt_told f sub sa err w : exists e, call_opt answer f (MSubscribe sub) (Some (MSuback sa)) err err w
  = (Ok e, set_calls (calls w ++ told f sub sa err) w).
Proof.
  unfold call_opt, told. destruct f as [k|]; [by eexists|]. exists err. rewrite app_nil_r. by destruct w.
Qed.

Section Completion.
Context (x : Z) (s : service) (l t : Z) (f : option Z) (p v : Z).
Context (Hl : sess s = Some l) (Hm : topicsMgr s = Some t).
Context (sub : Subscribe.SubscribeMessage) (sa : Suback.SubackMessage) (codes : list Z).
Context (Hsub : PacketId (Subscribe.hdr sub) = v) (Hsa : PacketId (Suback.hdr sa) = v) (Hco : Suback.ReturnCodes sa = codes).
Context (Hlen : zlen (Subscribe.Topics sub) = zlen codes).
Context (Hok : forall topic q, (topic, q) ∈ grants (Subscribe.Topics sub) codes -> ValidQos q = true /\ exists p, filter_path topic p).

(** the closure of [subscribe] on a SUBACK that answers the SUBSCRIBE *)
Lemma onc_subscribe_completes w ss m tr r : svcs w !! x = Some s -> cells (sessions w) !! l = Some ss -> initted ss = true ->
  sess_topics ss = Some m -> trees w !! t = Some tr -> sroot tr = Some r -> swf r ->
  exists tr' r' err e w', onc_subscribe answer x f p (MSubscribe sub) (Some (MSuback sa)) None w = (Ok e, w') /\
    w' = set_calls (calls w ++ told f sub sa err)
      (granting t tr' l (with_topics (Some (grant_all m (grants (Subscribe.Topics sub) codes))) ss)
        (set_funs (<[next w:=PubCaller p]> (funs w)) (set_next (next w + 1) w))) /\
    sroot tr' = Some r' /\ swf r' /\ entered (next w) (grants (Subscribe.Topics sub) codes) r r' /\
    (forall topic q p', (topic, q) ∈ grants (Subscribe.Topics sub) codes -> filter_path topic p' -> single topic ->
       IPtr (next w) ∈ (table r' p').1.1) /\
    (QosFailure ∉ codes -> err = None).
Proof.
  intros Hs Hc Hin Hst Ht Hr Hw. set (w1 := set_funs (<[next w:=PubCaller p]> (funs w)) (set_next (next w + 1) w)).
  destruct (granted_spec x s l t (next w) Hl Hm (Subscribe.Topics sub) codes 0 None w1 ss m tr r) as
    (tr' & r' & err & E & Hr' & Hw' & Hgr & Hg & He); try done; [change (Z.to_nat 0) with 0%nat; rewrite drop_0; unfold zlen in Hlen; lia|].
  change (Z.to_nat 0) with 0%nat in *. rewrite drop_0 in *.
  destruct (call_opt_told f sub sa err (granting t tr' l (with_topics (Some (grant_all m (grants (Subscribe.Topics sub) codes))) ss) w1)) as [e Ec].
  exists tr', r', err, e. eexists. split; [|split; [reflexivity|]]; [|by do 4 (split; [done|])].
  unfold onc_subscribe. rewrite Hsub, Hsa, Z.eqb_refl. cbn [negb]. rewrite Hco, Hlen, Z.eqb_refl. cbn [negb]. cbv zeta.
  unfold fresh_loc. rewrite lbind_assoc, lbind_gets, lbind_assoc, lbind_modify, lbind_ret, lbind_modify. 
  rewrite (lbind_step _ _ _ _ _ E). exact Ec.
Qed.
End Completion.

(** C22: A SUBACK completes a subscription.  When a client of the library receives the SUBACK
    for the SUBSCRIBE that waits in its session, it makes one variable for the
    application's function, enters it in its own topic tree at every filter that was
    granted (and names no group), where no other subscriber moves, changes the tree at
    no other place, records the granted QoS in the session, calls the
    application's completion function, if there is one, exactly once with both messages
    (and no error, when every filter was granted), and the queue is empty. *)
Theorem suback_completes sp w x s l ss m q t tr r v bs n f p sub codes :
  let wire := suback_wire (be16 v) codes in
  svcs w !! x = Some s -> sess s = Some l -> cells (sessions w) !! l = Some ss -> initted ss = true -> sess_topics ss = Some m ->
  LibSession.Suback ss = Some q -> holds q [asked x v bs f p] -> State (LibQueue.ping q) <> PINGRESP ->
  topicsMgr s = Some t -> trees w !! t = Some tr -> sroot tr = Some r -> swf r ->
  Subscribe.Decode Subscribe.NewSubscribeMessage (mkslice bs) = Ret (sub, n, None) -> PacketId (Subscribe.hdr sub) = v ->
  0 < v < 2 ^ 16 -> Forall code_ok codes -> remlen_ok (2 + zlen codes) -> zlen (Subscribe.Topics sub) = zlen codes ->
  (forall topic q, (topic, q) ∈ grants (Subscribe.Topics sub) codes -> ValidQos q = true /\ exists p, filter_path topic p) ->
  exists sa sa0 w' tr' r' q' ss' err,
    Suback.Decode Suback.NewSubackMessage (Slice wire sp) = Ret (sa, zlen wire, None) /\
    Suback.Decode Suback.NewSubackMessage (mkslice wire) = Ret (sa0, zlen wire, None) /\
    processIncoming intn answer x (MSuback sa) w = (Ok None, w') /\
    calls w' = calls w ++ told f sub sa0 err /\ (QosFailure ∉ codes -> err = None) /\
    funs w' = <[next w:=PubCaller p]> (funs w) /\ svcs w' = svcs w /\
    cells (sessions w') !! l = Some ss' /\ sess_topics ss' = Some (grant_all m (grants (Subscribe.Topics sub) codes)) /\
    LibSession.Suback ss' = Some q' /\ holds q' [] /\
    trees w' = <[t:=tr']> (trees w) /\ sroot tr' = Some r' /\ swf r' /\
    entered (next w) (grants (Subscribe.Topics sub) codes) r r' /\
    (forall topic q p', (topic, q) ∈ grants (Subscribe.Topics sub) codes -> filter_path topic p' -> single topic ->
       IPtr (next w) ∈ (table r' p').1.1).
Proof.
  intros wire Hs Hl Hc Hin Hst Hq Hh Hp Hm Ht Hr Hw HDs Hids Hv Hco Hrl Hlen Hok.
  assert (HD : forall sp, exists sa, Suback.Decode Suback.NewSubackMessage (Slice wire sp) = Ret (sa, zlen wire, None) /\
    Suback.ReturnCodes sa = codes /\ PacketId (Suback.hdr sa) = v /\ msg_Type (MSuback sa) = SUBACK).
  { intros sp1. destruct (suback_Decode_spec Suback.NewSubackMessage 144 (u8 (Z.shiftr v 8)) (u8 v) codes [] sp1 eq_refl eq_refl Hco Hrl)
      as (sa & HD & H1 & H2 & _ & H4). rewrite app_nil_r in HD. exists sa. split; [exact HD|]. split; [exact H1|].
    split; [apply PacketId_be16; [lia|exact H2]|]. unfold msg_Type. cbn [msg_hdr dispatch pk_hdr suback_packet]. by rewrite (Type_one _ 144). }
  destruct (HD sp) as (sa & HDa & _ & Hida & Hta). destruct (HD []) as (sa0 & HDa0 & Hco0 & Hida0 & _).
  destruct (@forward_packet Suback.SubackMessage suback_packet suback_retains _ _ _ _ (gid w) HDa) as [HL HE].
  assert (He : encoded (MSuback sa) (gid w) wire (MSuback sa) (gid w)).
  { exists (MSuback sa), (len (Slice wire sp)), (len (Slice wire sp)). unfold msg_Len, msg_Encode, dispatch.
    change (pk_encode (M:=Suback.SubackMessage)) with (@pk_encode _ suback_packet) in HE. by rewrite HL, HE. }
  assert (Hak : acks_message (msg_Type (MSuback sa)) = true) by (by rewrite Hta).
  destruct (Ack_known q _ (gid w) (MSuback sa) wire (MSuback sa) (gid w) 0 (asked x v bs f p) Hak Hh eq_refl) as (q1 & HA & Hp1 & Hh1);
    [by symmetry|done|]. rewrite Hta in Hh1.
  pose proof (ack_ok w QSuback x s l ss q q1 _ _ Hs Hl Hc Hq HA) as E1. set (w1 := with_queue QSuback l ss q1 w) in *. set (e := with_ackbuf _ _) in Hh1.
  assert (Hc1 : cells (sessions w1) !! l = Some (set_q ss QSuback q1)) by (cbn; by rewrite lookup_insert_eq).
  destruct (acked_ok w1 QSuback x s l (set_q ss QSuback q1) q1 [e] Hs Hl Hc1 eq_refl Hh1) as (q2 & E2 & Hh2 & _); [by rewrite Hp1|].
  change (AckQueue.span finished [e]) with ([e], @nil (ackmsg completion)) in E2, Hh2. cbn [fst snd] in E2, Hh2.
  set (ss2 := set_q (set_q ss QSuback q1) QSuback q2) in *. set (w2 := with_queue QSuback l _ q2 w1) in *.
  assert (Hc2 : cells (sessions w2) !! l = Some ss2) by (cbn; by rewrite lookup_insert_eq).
  destruct (onc_subscribe_completes x s l t f p v Hl Hm sub sa0 codes Hids Hida0 Hco0 Hlen Hok w2 ss2 m tr r Hs Hc2 Hin Hst Ht Hr Hw)
    as (tr' & r' & err & er & w3 & E3 & -> & Hr' & Hw' & Hgr & Hg & Hnf).
  assert (E4 : process_acked_one intn answer x e w2 = (Ok tt, set_calls (calls w2 ++ told f sub sa0 err)
      (granting t tr' l (with_topics (Some (grant_all m (grants (Subscribe.Topics sub) codes))) ss2)
        (set_funs (<[next w2:=PubCaller p]> (funs w2)) (set_next (next w2 + 1) w2))))).
  { unfold process_acked_one, e. cbn [Mtype State Msgbuf Ackbuf with_ackbuf with_state asked].
    change (New SUBSCRIBE) with (inl (A:=Message) (B:=error) (MSubscribe Subscribe.NewSubscribeMessage)). cbv beta iota.
    unfold msg_Decode at 1, dispatch. cbn [pk_decode subscribe_packet]. rewrite HDs, bindO_ret, lbind_lift. cbv beta iota.
    change (New SUBACK) with (inl (A:=Message) (B:=error) (MSuback Suback.NewSubackMessage)). cbv beta iota.
    unfold msg_Decode, dispatch. cbn [pk_decode suback_packet]. change (Slice wire []) with (mkslice wire) in HDa0.
    rewrite HDa0, bindO_ret, lbind_lift. cbv beta iota.
    unfold complete. cbn [Mtype State OnComplete with_ackbuf with_state asked]. cbv zeta. cbn [Z.eqb SUBACK PUBREL PUBACK PUBCOMP Pos.eqb orb call].
    by rewrite (lbind_step _ _ _ _ _ E3). }
  eexists sa, sa0, _, tr', r', q2, _, err. split; [exact HDa|]. split; [exact HDa0|]. split.
  { cbn [processIncoming]. rewrite (lbind_step _ _ _ _ _ E1). unfold processAcked. rewrite lbind_assoc, (lbind_step _ _ _ _ _ E2).
    cbn [process_acked_all]. rewrite lbind_assoc, (lbind_step _ _ _ _ _ E4). reflexivity. }
  split; [done|]. split; [done|]. split; [done|]. split; [done|]. split; [cbn; by rewrite lookup_insert_eq|].
  split; [done|]. split; [done|]. split; [done|]. by do 4 (split; [done|]).
Qed.
End Suback.

(** ** On the sample client *)

(** the SUBSCRIBE as [writeMessage] leaves it *)
Definition sent_ask : Message :=
  match msg_Len (MSubscribe LibSample.ask) with
  | Ret (m1, n) => match msg_Encode m1 0 (replicate (Z.to_nat n) 0) with Ret (m2, _, _, _, _) => m2 | Panic _ => m1 end
  | Panic _ => MSubscribe LibSample.ask
  end.

Definition ask_bytes : list Z := [130; 10; 0; 9; 0; 1; 97; 1; 0; 1; 98; 2].

Lemma sent_ask_encoded : exists m, encoded sent_ask 0 ask_bytes m 0.
Proof.
  destruct (msg_Len sent_ask) as [[m1 k]|] eqn:E1; [|vm_compute in E1; discriminate].
  destruct (msg_Encode m1 0 (replicate (Z.to_nat k) 0)) as [[[[[m2 g] b] n] e]|] eqn:E2.
  2:{ vm_compute in E1. injection E1 as <- <-. vm_compute in E2. discriminate. }
  assert (H : (g, b, e) = (0, ask_bytes, None)).
  { vm_compute in E1. injection E1 as <- <-. vm_compute in E2. injection E2 as <- <- <- <- <-. reflexivity. }
  injection H as -> -> ->. exists m2, m1, k, n. split; [exact E1|exact E2].
Qed.

Lemma asking_queue : exists l ss q, (svcs LibSample.asking !! LibSample.client_service ≫= sess) = Some l /\
  cells (sessions LibSample.asking) !! l = Some ss /\ LibSession.Suback ss = Some q /\
  holds q [asked LibSample.client_service 9 ask_bytes (Some 70) 71] /\ State (LibQueue.ping q) <> PINGRESP.
Proof.
  destruct sent_ask_encoded as [m Hm].
  destruct (Wait_new (newAckqueue defaultQueueSize) [] 0 sent_ask (Some (OcSubscribe LibSample.client_service (Some 70) 71)) ask_bytes m 0)
    as (q & E & _ & H).
  - vm_compute. exact I.
  - apply holds_new. unfold defaultQueueSize. lia.
  - reflexivity.
  - apply not_elem_of_nil.
  - exact Hm.
  - assert (Ht : msg_Type sent_ask = SUBSCRIBE) by (vm_compute; reflexivity).
    assert (Hi : msg_PacketId sent_ask = 9) by (vm_compute; reflexivity). rewrite Ht, Hi in H. cbn [app] in H.
    vm_compute in E. injection E as <- _. eexists 0, _, _. split; [vm_compute; reflexivity|]. split; [vm_compute; reflexivity|].
    split; [vm_compute; reflexivity|]. split; [exact H|]. discriminate.
Qed.

Lemma suback_completes_witness : exists sa sa0 w' tr' r',
  Suback.Decode Suback.NewSubackMessage (mkslice [144; 4; 0; 9; 1; 128]) = Ret (sa, 6, None) /\
  fst (processIncoming LibSample.first_member LibSample.no_answer LibSample.client_service (MSuback sa) LibSample.asking) = Ok None /\
  w' = snd (processIncoming LibSample.first_member LibSample.no_answer LibSample.client_service (MSuback sa) LibSample.asking) /\
  (exists sub err, calls w' = [ECompleted 70 (MSubscribe sub) (Some (MSuback sa0)) err]) /\
  trees w' !! 4 = Some tr' /\ sroot tr' = Some r' /\ IPtr 5 ∈ (table r' [str "a"]).1.1.
Proof.
  destruct asking_queue as (l & ss & q & Hl & Hc & Hq & Hh & Hp).
  destruct (svcs LibSample.asking !! LibSample.client_service) as [s|] eqn:Es; [|discriminate Hl]. cbn in Hl.
  assert (l = 0) as -> by (clear -Hl Es; vm_compute in Es; injection Es as <-; cbn in Hl; congruence).
  destruct (Subscribe.Decode Subscribe.NewSubscribeMessage (mkslice ask_bytes)) as [[[sub n] [e|]]|] eqn:ED;
    [vm_compute in ED; discriminate| |vm_compute in ED; discriminate].
  assert (Hts : Subscribe.Topics sub = [str "a"; str "b"]) by (clear -ED; vm_compute in ED; injection ED as <- <-; reflexivity).
  destruct (suback_completes LibSample.first_member LibSample.no_answer [] LibSample.asking LibSample.client_service s 0 ss ∅ q 4
    NewMemProvider newSNode 9 ask_bytes n (Some 70) 71 sub [1; 128]) as
    (sa & sa0 & w' & tr' & r' & q' & ss' & err & H1 & _ & H2 & H3 & _ & _ & _ & _ & _ & _ & _ & H4 & H5 & _ & _ & H6).
  - exact Es.
  - exact Hl.
  - exact Hc.
  - clear -Hc. vm_compute in Hc. injection Hc as <-. reflexivity.
  - clear -Hc. vm_compute in Hc. injection Hc as <-. reflexivity.
  - exact Hq.
  - exact Hh.
  - exact Hp.
  - clear -Es. vm_compute in Es. injection Es as <-. reflexivity.
  - vm_compute. reflexivity.
  - reflexivity.
  - exact swf_new.
  - exact ED.
  - clear -ED. vm_compute in ED. injection ED as <- <-. reflexivity.
  - lia.
  - repeat constructor.
  - vm_compute. split; discriminate.
  - rewrite Hts. reflexivity.
  - rewrite Hts. intros topic c Hin. apply list_elem_of_singleton in Hin. injection Hin as -> ->. split; [reflexivity|].
    exists [str "a"]. reflexivity.
  - exists sa, sa0, w', tr', r'. rewrite H2. split; [exact H1|]. split; [reflexivity|]. split; [reflexivity|].
    split; [exists sub, err; rewrite H3; reflexivity|]. split; [rewrite H4; apply lookup_insert_eq|]. split; [exact H5|].
    apply (H6 (str "a") 1 [str "a"]); [rewrite Hts; apply list_elem_of_here|reflexivity|reflexivity].
Defined.
