(* ===== verification/Tickers.v ===== *)
(** * Tickers: the table of tickers per device ([service/service.go])

    [addTicker] and [removeTicker] over [ackTickerMap].  A [time.Ticker] is its
    number; a ticker runs from [NewTicker] until [Stop].  Every value of the map
    is a ticker, so the type assertions of the code succeed.  A call is one step. *)
From stdpp Require Import base list strings gmap.
From Stdlib Require Import ZArith Lia.
From S2P Require Import Prelude GoLang GoStrings.

Record tickers : Type := mkTickers {
  ackTickerMap : gmap (list Z) Z;
  running : gmap Z Z;                (* the period of each running ticker, in seconds *)
  made : Z                           (* how many have been made *)
}.

Definition no_tickers : tickers := mkTickers ∅ ∅ 0.

(** [time.NewTicker] panics when the period is not positive *)
Definition NewTicker (t : tickers) (seconds : Z) : outcome (tickers * Z) :=
  if i64 (seconds * 1000000000) <=? 0 then Panic (CustomPanic "non-positive interval for NewTicker")
  else Ret (mkTickers (ackTickerMap t) (<[made t:=seconds]> (running t)) (made t + 1), made t).

Definition Stop (t : tickers) (k : Z) : tickers :=
  mkTickers (ackTickerMap t) (delete k (running t)) (made t).

Definition ticker_key (productKey deviceName : list Z) : list Z := Join [productKey; deviceName] (str ":").

#[global] Arguments ticker_key : simpl never.

Definition addTicker (t : tickers) (productKey deviceName : list Z) (timeout : Z) : outcome (tickers * Z) :=
  let s := ticker_key productKey deviceName in
  let! (t, k) := match ackTickerMap t !! s with
                 | Some old => NewTicker (Stop t old) timeout
                 | None => NewTicker t timeout
                 end in
  Ret (mkTickers (<[s:=k]> (ackTickerMap t)) (running t) (made t), k).

Definition removeTicker (t : tickers) (productKey deviceName : list Z) : tickers :=
  let s := ticker_key productKey deviceName in
  match ackTickerMap t !! s with
  | Some k => let t := Stop t k in mkTickers (delete s (ackTickerMap t)) (running t) (made t)
  | None => t
  end.

(** the tickers of the table are the running ones, each under one key *)
Record tickers_ok (t : tickers) : Prop := {
  tk_running s k : ackTickerMap t !! s = Some k -> is_Some (running t !! k);
  tk_listed k : is_Some (running t !! k) -> exists s, ackTickerMap t !! s = Some k;
  tk_one s s' k : ackTickerMap t !! s = Some k -> ackTickerMap t !! s' = Some k -> s = s';
  tk_made k : is_Some (running t !! k) -> k < made t
}.

Lemma no_tickers_ok : tickers_ok no_tickers.
Proof. split; cbn; [done|by intros k [? ?]|done|by intros k [? ?]]. Qed.

Lemma removeTicker_ok t pk dn : tickers_ok t -> tickers_ok (removeTicker t pk dn) /\
  ackTickerMap (removeTicker t pk dn) = delete (ticker_key pk dn) (ackTickerMap t).
Proof.
  intros [R L O M]. unfold removeTicker. destruct (ackTickerMap t !! _) as [k|] eqn:E; [|by rewrite delete_id by done].
  split; [|done]. split; cbn.
  - intros s k' [Hs Hk]%lookup_delete_Some. rewrite lookup_delete_ne; [by eapply R|]. intros ->. apply Hs. by eapply O.
  - intros k' [v [Hk Hv]%lookup_delete_Some]. destruct (L k' ltac:(by eexists)) as [s Hs]. exists s.
    rewrite lookup_delete_ne; [done|]. intros E1. apply Hk. congruence.
  - intros s s' k' [_ H1]%lookup_delete_Some [_ H2]%lookup_delete_Some. by eapply O.
  - intros k' [v [_ Hv]%lookup_delete_Some]. apply M. by eexists.
Qed.

(** A device has at most one running ticker: a new ticker takes the place of the one
    the device had, which is stopped; the tickers of other devices go on.  (A zero
    timeout, or a negative one, panics, after the old ticker has been stopped.) *)
Theorem addTicker_replaces t pk dn n : tickers_ok t -> 0 < n * 1000000000 < 2 ^ 63 -> exists t',
  addTicker t pk dn n = Ret (t', made t) /\ tickers_ok t' /\ running t' !! made t = Some n /\
  ackTickerMap t' = <[ticker_key pk dn:=made t]> (ackTickerMap t) /\
  (forall k, ackTickerMap t !! ticker_key pk dn = Some k -> running t' !! k = None) /\
  (forall s k, s <> ticker_key pk dn -> ackTickerMap t !! s = Some k -> running t' !! k = running t !! k).
Proof.
  intros T Hn. pose proof T as [R L O M].
  set (old := match ackTickerMap t !! ticker_key pk dn with Some k => delete k (running t) | None => running t end).
  assert (E : addTicker t pk dn n = Ret (mkTickers (<[ticker_key pk dn:=made t]> (ackTickerMap t)) (<[made t:=n]> old) (made t + 1), made t)).
  { unfold addTicker, NewTicker, Stop, old. cbv zeta. rewrite i64_small by lia. rewrite (proj2 (Z.leb_gt _ _)) by lia.
    by destruct (ackTickerMap t !! _). }
  assert (Hold : forall k v, old !! k = Some v <-> running t !! k = Some v /\ ackTickerMap t !! ticker_key pk dn <> Some k).
  { intros k v. unfold old. destruct (ackTickerMap t !! _) as [k0|] eqn:E0; [|naive_solver].
    rewrite lookup_delete_Some. naive_solver. }
  eexists. split; [exact E|]. split; [|split_and!; cbn].
  - split; cbn.
    + intros s k. destruct (decide (s = ticker_key pk dn)) as [->|Hs].
      { rewrite lookup_insert_eq. intros [= <-]. rewrite lookup_insert_eq. by eexists. }
      rewrite lookup_insert_ne by done. intros Hk. destruct (R s k Hk) as [v Hv].
      pose proof (M k ltac:(by eexists)). rewrite lookup_insert_ne by lia. exists v. apply Hold. split; [done|].
      intros H1. apply Hs. by eapply O.
    + intros k [v Hk]. destruct (decide (k = made t)) as [->|Hne]; [exists (ticker_key pk dn); apply lookup_insert_eq|].
      rewrite lookup_insert_ne in Hk by done. apply Hold in Hk as [Hk Hnk]. destruct (L k ltac:(by eexists)) as [s Hs].
      exists s. rewrite lookup_insert_ne; [done|]. intros <-. done.
    + intros s s' k H1 H2. apply lookup_insert_Some in H1 as [[<- <-]|[N1 H1]]; apply lookup_insert_Some in H2 as [[<- E2]|[N2 H2]]; try done.
      * pose proof (M (made t) (R _ _ H2)). lia.
      * subst k. pose proof (M (made t) (R _ _ H1)). lia.
      * by eapply O.
    + intros k [v Hk]. apply lookup_insert_Some in Hk as [[<- _]|[_ Hk]]; [lia|]. apply Hold in Hk as [Hk _].
      pose proof (M k ltac:(by eexists)). lia.
  - apply lookup_insert_eq.
  - done.
  - intros k Hk. pose proof (M k (R _ _ Hk)). rewrite lookup_insert_ne by lia. apply eq_None_not_Some.
    intros [v Hv]. by apply Hold in Hv as [_ ?].
  - intros s k Hs Hk. destruct (R s k Hk) as [v Hv]. pose proof (M k (R _ _ Hk)). rewrite lookup_insert_ne by lia.
    rewrite Hv. apply Hold. split; [done|]. intros H1. apply Hs. by eapply O.
Qed.

Example ticker_twice : exists t', (let! (t, _) := addTicker no_tickers (str "pk") (str "d1") 20 in addTicker t (str "pk") (str "d1") 5) = Ret (t', 1) /\
  running t' = <[1:=5]> ∅.
Proof. eexists. split; vm_compute; reflexivity. Qed.
